(* ===== verification/_CoqProject ===== *)
-Q . S2P
Prelude.v
Endian.v
ByteArray.v
ByteArrayViews.v
ByteArrayCodec.v
ByteArrayProps.v
StreamFix.v
Thread.v
Timer.v
TimerProps.v
Fiber.v
FiberProps.v
Scheduler.v
SchedulerInv.v
SchedulerOwn.v
SchedulerDrain.v
SchedulerProps.v
IOManager.v
IOManagerInv.v
IOManagerProps.v
FdManager.v
Hook.v
HookProps.v
HookCalls.v
Strs.v
Cnum.v
Address.v
AddressProps.v
Socket.v
SocketProps.v
TcpServer.v
TcpServerProps.v
Config.v
ConfigProps.v
Env.v
EnvProps.v
ModuleMgr.v
ModuleMgrProps.v
Application.v
ApplicationProps.v
Ragel.v
RagelProps.v
UriTable.v
Uri.v
UriProps.v
UriRound.v
Util.v
UtilProps.v
Generic.v
Log.v
LogProps.v
LogInv.v
LogConf.v
Http.v
HttpSession.v
HttpProps.v
HttpServeProps.v
Http11Table.v
HttpMachine.v
HttpMachineProps.v
HttpRequestRound.v
HttpClientTable.v
HttpClientMachine.v
HttpClient.v
HttpResponseRound.v
HttpChunkProps.v
HttpExchange.v
HttpPool.v
HttpPoolProps.v
Zlib.v
Rock.v
RockProps.v
AsyncStream.v
AsyncProps.v
LoadBalance.v
LoadBalanceProps.v
Discovery.v
DiscoveryProps.v
ZkClient.v
RockServer.v
