(* ===== verification/Prelude.v ===== *)
(** * Verification of the sylar C++ server framework

    sylar is a coroutine-based server framework. Stackful fibers
    (sylar/fiber.cc) are run by a pool of threads (sylar/scheduler.cc); the IO
    manager (sylar/iomanager.cc) is a scheduler that is also a timer manager
    (sylar/timer.cc) and waits in epoll; the hooks (sylar/hook.cc, with the
    descriptor contexts of sylar/fdmanager.cc) turn blocking system calls of a
    fiber into event registrations and yields. Addresses (sylar/address.cc),
    sockets (sylar/socket.cc) and the TCP server (sylar/tcp_server.cc) use them.
    On top of that stand the segmented byte buffer (sylar/bytearray.cc), URIs
    (sylar/uri.rl.cc), HTTP (sylar/http) with messages, two parsers around
    generated automata, sessions, servlets, the server loop, a client and its
    connection pool, the Rock protocol and asynchronous streams, and load
    balancing driven by service discovery (sylar/streams, sylar/rock). Logging
    (sylar/log.cc), configuration (sylar/config.cc), utilities (sylar/util.cc),
    options, supervision, modules and the application serve all of them.

    ** Files, and the code they model

    - [Prelude]: outcomes, machine integers, list lemmas, tactics and hint
      databases shared by all files. [Strs], [Cnum]: strings and the C
      conversions of numbers. [Ragel] ([Rg]), [RagelProps] ([RgP]): automata as
      tables, and how runs over a text are computed. No code of their own.
    - [Endian]: sylar/endian.h. [ByteArray] (Module [BA]), [ByteArrayViews]
      ([Views]), [ByteArrayCodec] ([Codec]), [ByteArrayProps]: bytearray.cc. The
      buffer is the chain of nodes with the cursor pointer as in the code; bytes
      never written are [None]. [BA.abs] is the abstraction to a seekable file.
      The class of codecs in [ByteArrayCodec] is the interface against which the
      typed reads and writes are proved inverse. [StreamFix] ([Sf]): the
      transfers of a fixed size between a stream and a buffer in stream.cc.
    - [Thread] ([Th]): thread.h and thread.cc, the semaphores, locks and guards
      over what POSIX promises, and the start and end of a thread.
    - [Timer] ([Tm]), [TimerProps]: timer.cc. Timer objects live in a heap shared
      with their owners; the ordered set holds their addresses.
    - [Fiber] ([Fb]), [FiberProps]: fiber.cc on one thread: objects, states,
      thread-local pointers and the context on the CPU.
    - [Scheduler] ([Sc]), [SchedulerInv] ([ScInv]), [SchedulerOwn] ([ScOwn]),
      [SchedulerDrain] ([ScDrain]), [SchedulerProps]: scheduler.h and
      scheduler.cc. The shared queue and counters and, for every thread, a
      program counter inside [run()] over the operations of [Fb].
    - [IOManager] ([Io]), [IOManagerInv] ([IoInv]), [IOManagerProps]:
      iomanager.cc over [Sc] and [Tm], with the kernel's interest list.
    - [FdManager] ([Fd]), [Hook] ([Hk]), [HookProps]: fdmanager.cc and hook.cc
      over [Io]. A hooked call is cut where it yields: [Hk.do_io] up to the
      yield, [Hk.resume] after it, [Hk.on_timer] its timer. [HookCalls] ([Hc]): the
      commands that fcntl and ioctl pass on, options, and the enabling of hooks.
    - [Address] ([Ad]), [AddressProps]: address.cc, the structures as bytes.
    - [Socket] ([So]), [SocketProps]: socket.cc and streams/socket_stream.cc over
      the class [So.Kernel], what the process sees of the system through the
      hooks, with the laws [So.KernelLaws]. [TcpServer] ([Ts]),
      [TcpServerProps]: tcp_server.cc, sockets shared between the server and
      the tasks it schedules.
    - [Config] ([Cf], [Cs]), [ConfigProps]: config.h and config.cc, and the sizes
      that http_parser.cc copies from its variables. [Env] ([En], [Da]),
      [EnvProps]: env.cc and daemon.cc. [ModuleMgr] ([Mo], [Ml]), [ModuleMgrProps]:
      module.cc and library.cc. [Application] ([Ap]), [ApplicationProps]:
      application.cc.
    - [UriTable], [Uri] ([Uri]), [UriProps], [UriRound]: uri.rl.cc, its automaton
      as a table, the actions, and the printer.
    - [Util] ([Ut]), [UtilProps]: util.cc over an interface to the file system.
      [Generic] ([Gn]): the templates of util.h, atomic operations, shared arrays,
      searching, slicing, binary streams, and the speed limit of util.cc.
    - [Log] ([Lg]), [LogProps], [LogInv]: log.cc, loggers and appenders as shared
      objects. [LogConf] ([Lc]): its configuration as YAML.
    - [Http] ([Http]), [HttpProps]: http/http.h and http.cc.
    - [HttpSession] ([Srv]), [HttpServeProps]: stream.cc, http/http_parser.cc,
      http_session.cc, servlet.cc and http_server.cc.
    - [Http11Table], [HttpMachine] ([Hm]), [HttpMachineProps],
      [HttpRequestRound]: http/http11_parser.rl.cc; [Hm.http_automaton] is the
      instance of the interface [Srv.automaton] that the session is proved
      against.
    - [HttpClientTable], [HttpClientMachine] ([Hcm]), [HttpClient] ([Cl]),
      [HttpResponseRound], [HttpChunkProps], [HttpPool] ([Hp]),
      [HttpPoolProps]: httpclient_parser.rl.cc, the response side of
      http_parser.cc, and http_connection.cc with its pool. [HttpExchange]: a
      client and a server together.
    - [Zlib] ([Zl]), [Rock] ([Rk]), [RockProps]: streams/zlib_stream.cc and the messages and
      framing of rock/rock_protocol.cc. [AsyncStream] ([As], [Mg]), [AsyncProps]:
      streams/async_socket_stream.cc and rock/rock_stream.cc. [RockServer] ([Rs]):
      rock/rock_server.cc, the sessions over the modules, and the client side of
      the balancers.
    - [LoadBalance] ([Lb], [Fw]), [LoadBalanceProps]: streams/load_balance.cc, [Fw]
      the weights in the arithmetic of [float] and [double].
    - [Discovery] ([Sd]), [DiscoveryProps]: streams/service_discovery.cc, coupled
      to [Lb]. [ZkClient] ([Zc]): zk_client.cc over a record of the functions of
      the ZooKeeper library; [Zc.client_zk] is the instance of the interface
      [Sd.zookeeper] that the client provides.

    ** Conventions

    An operation that can throw, assert or meet undefined behaviour returns
    [outcome]: [Ok] with the new state, or [Fail] with the reason. Unsigned
    fields are integers with their wrap-around written out ([u32], [u64], ...);
    sizes and indices that are bounded by memory are natural numbers. Signed
    overflow is a failure, or wraps under [Wrapv] (the flag -fwrapv, which the
    build does not set). Fields that a constructor leaves uninitialised are
    parameters ([None] bytes in a buffer); the error flags of the two HTTP parsers
    are such fields, and the theorems on requests and responses say what happens
    for every value they can have. Pointers are indices or addresses into heaps that are part of
    the state, so that sharing is visible.

    Concurrency is modelled in [Th], [Sc], [As], [Hp], [Ts] and [Rs]: an action is what one
    thread or fiber does between two points where another can interfere, that is
    one critical section, one atomic update, one context switch or one blocking
    call, and a run is any sequence of actions. Fiber objects are not freed in
    the model. The other components run under their own mutex and are modelled
    one operation at a time; their theorems quantify over any sequence of
    operations. Listeners of [Cf] are labels whose calls are recorded.

    Parameters of the models, each an argument of the definitions that use it:
    the kernel's answers (scripts of results for system calls, a flag by which
    epoll_ctl refuses, reported events, [So.Kernel], [Ut.os], what fork and
    waitpid do), clocks and calendar text, random numbers, host byte order,
    uninitialised parser fields, getaddrinfo, getifaddrs, inet_pton and
    inet_addr, zlib with the laws of its streams, yaml-cpp's parser, printer and
    indexing, boost::lexical_cast and the scalar conversions of configuration
    variables, dlopen, fnmatch, the
    traversal order of unordered maps (any permutation of the entries), the
    connection state of streams, what modules do with a message, and the ZooKeeper
    service ([Sd.zookeeper]) and library ([Zc.zoolib], whose laws an ensemble in
    memory satisfies). The balancers of [Lb] take the weight of the statistics as
    an argument; [Fw.scaled] is what the code computes for it.

    Fuel: loops of the buffer run with one more than the number of nodes, a bound
    the refinement theorems show sufficient; [Srv.recvRequest] needs the number
    of header segments and the content length, as its theorem says, and so do
    the loops of [Cl.recvResponse]; [Ad.CountBytes] needs the width of the
    number, which [masks_exact] shows; the pattern parser of [Lg] needs the
    length of the pattern ([new_formatter_ok]); [Sd.existsOrCreate] needs
    more than the length of the path ([existsOrCreate_returns]); the binary
    search needs the length of its array. The automata recurse on the text.
    [Sd.queryInfo] and [Sd.queryData] recurse on a child named all without bound
    in the code too.

    ** What the theorems show

    - Buffers: write and read refine a seekable file across node boundaries;
      receiving into the buffer's iovecs is a write and sending from them a
      read; views and file transfers are exact; typed fields written are read
      back on any host in any byte order; varints stay in their buffers; where
      zigzag encoding is undefined.
    - Threads: a guard excludes every other; readers exclude writers, as long as no
      thread takes the lock against itself, where the code ignores the error; a
      thread has its name and number when its constructor returns, if no signal
      interrupts the wait.
    - Timers: the ordered set stays consistent under all operations, expiry
      takes exactly the due timers in order, a cancelled timer never fires, the
      wait is exact and the front notification happens when needed.
    - Fibers: the current-fiber pointer and the CPU agree, states follow the
      life cycle, a swap in and a yield return to the scheduler.
    - Scheduler: under every interleaving, for a discipline of scheduling a
      fiber only when nobody owns it and of who may call [start] and [stop], no
      fiber runs on two threads and no assertion fails; tasks are conserved; the counters make [stopping] sound;
      when the threads have left, no unpinned task is left behind.
    - IO manager: pending count, contexts and interest list agree after any
      operations; readiness, cancellation and deletion hand over exactly what
      they should; the idle wait is bounded.
    - Hooks: a timed-out call fails once with ETIMEDOUT, a woken call retries and
      its timer is gone for good, a blocking call parks with its event and
      timer registered, the forced non-blocking mode is invisible.
    - Addresses, sockets, server: masks, printed IPv6 forms and the order of
      addresses are exact; every descriptor has one owner under any use of
      sockets; the server binds all or nothing and, once stopped, comes to rest
      with everything closed, even when no connection comes to its waiting accept
      loops.
    - Configuration, options, modules: the registry stays well typed, a document
      sets exactly the variables it names and tells the listeners, the copied
      sizes follow their variables; options are read back; the manager's tables
      agree and a module is destroyed once, before its library is closed; every
      configured server comes up or the process exits.
    - URIs and HTTP: what is printed goes through the generated automata and
      comes out the same, for URIs, and for requests and responses whose head is
      whole in the first segment, if the parser's flag holds 0; the automata's
      assertions hold for buffers below 2 GiB; header maps are maps up to case; dispatch follows the
      history of registrations; pooled connections have one owner under any
      interleaving; a request that a client sends reaches its servlet and the
      servlet's answer comes back.
    - Rock and asynchronous streams: frames round-trip and bad headers are
      refused; a request is resumed at most once and always answered; the
      first module that takes a request answers it, and a response belongs to the
      request it resumes.
    - Logging and utilities: a pattern renders an event as the documentation says,
      loggers and appenders stay consistent under every use that does not share
      appenders, the percent codec is its reference;
      searching and slicing are exact, binary streams read back, shared arrays
      are freed once.
    - Balancers: weighted choice is exactly proportional, only valid items are
      handed out, the statistics ring is exact, and discovery and balancers
      stay in step; a ZooKeeper client owns its handle, and what a provider
      registers through one client reaches the balancers behind another.

    Theorems outside the list of claims record where the code goes wrong: for
    instance [readFixSize_error_ignored], [cut_chunk_truncated],
    [network_is_host_part], [restarted_loop_spins], [failed_bind_strands_loop],
    [rw_error_ignored], [null_formatter_dereferenced], and those at the end of
    [HookProps] and [ByteArrayViews].

    ** Not modelled

    Two assertions are assumed to hold: that writing the byte that wakes the IO
    manager succeeds, and that the loops of an asynchronous stream run on the
    stream's scheduler. Conversion of wide characters, formatting, [Atof], the host name and demangled
    type names, which are one call of the C library each; the look-up of the
    original functions with dlsym in [hook_init]; the text of status reports and
    log lines about them; [RockSDLoadBalance::request], which calls a function that
    is defined nowhere; [SDLoadBalance::start] and [stop], which install the callback
    that the model of discovery takes as given; [Application::main], which writes
    the pid file, creates the IO manager and waits; functions that are declared
    and defined nowhere. The macros of macro.h are [sylar_assert]; singletons are
    states. Tests, examples and build files are not part of the library. *)

From stdpp Require Export base tactics option list.
From Stdlib Require Export ZArith Lia.

(** * Outcomes

    C++ code modelled here returns normally, throws a standard exception,
    aborts in [SYLAR_ASSERT], or runs into undefined behaviour. *)

Inductive failure :=
  | OutOfRange        (* std::out_of_range *)
  | InvalidArgument   (* std::invalid_argument *)
  | LogicError        (* std::logic_error *)
  | AssertFail        (* SYLAR_ASSERT *)
  | NullDeref         (* access through a null or dangling pointer *)
  | DivByZero         (* integer division by zero *)
  | Indeterminate     (* use of an uninitialised value *)
  | SignedOverflow    (* signed integer overflow *)
  | ShiftTooFar       (* a shift by the width of the type or more *)
  | OutOfBounds       (* access outside an array *)
  | OutOfFuel.        (* the loop bound of the model was too small *)

#[global] Instance failure_eq_dec : EqDecision failure.
Proof. solve_decision. Defined.

Inductive outcome (A : Type) :=
  | Ok (a : A)
  | Fail (f : failure).

Arguments Ok {A} a.
Arguments Fail {A} f.

#[global] Instance outcome_eq_dec {A} `{EqDecision A} : EqDecision (outcome A).
Proof. solve_decision. Defined.

#[global] Instance outcome_ret : MRet outcome := fun A a => Ok a.
#[global] Instance outcome_bind : MBind outcome := fun A B f m =>
  match m with Ok a => f a | Fail e => Fail e end.
#[global] Instance outcome_fmap : FMap outcome := fun A B f m =>
  match m with Ok a => Ok (f a) | Fail e => Fail e end.

(** [SYLAR_ASSERT(b)] *)
Definition sylar_assert (b : bool) : outcome unit :=
  if b then Ok tt else Fail AssertFail.

(** Access through a possibly null pointer. *)
Definition of_ptr {A} (o : option A) : outcome A :=
  match o with Some a => Ok a | None => Fail NullDeref end.

Definition is_ok {A} (m : outcome A) : bool :=
  match m with Ok _ => true | Fail _ => false end.

(** * Machine integers *)

Declare Scope word_scope.
Delimit Scope word_scope with word.

Definition wrap (w : Z) (v : Z) : Z := (v mod 2 ^ w)%Z.
Definition to_signed (w : Z) (v : Z) : Z :=
  (let u := v mod 2 ^ w in if u <? 2 ^ (w - 1) then u else u - 2 ^ w)%Z.

Definition u8 : Z -> Z := wrap 8.
Definition u16 : Z -> Z := wrap 16.
Definition u32 : Z -> Z := wrap 32.
Definition u64 : Z -> Z := wrap 64.
Definition i8 : Z -> Z := to_signed 8.
Definition i32 : Z -> Z := to_signed 32.
Definition i64 : Z -> Z := to_signed 64.

Definition in_unsigned (w v : Z) : Prop := (0 <= v < 2 ^ w)%Z.
Definition in_signed (w v : Z) : Prop := (- 2 ^ (w - 1) <= v < 2 ^ (w - 1))%Z.

Notation "x +64 y" := (u64 (x + y)%Z) (at level 50, left associativity) : word_scope.
Notation "x -64 y" := (u64 (x - y)%Z) (at level 50, left associativity) : word_scope.

(** The largest [uint64_t], written [~0ull] or [(uint64_t)-1] in the source. *)
Definition UINT64_MAX : Z := (2 ^ 64 - 1)%Z.

(** Signed arithmetic that leaves its type is undefined behaviour in C++;
    compiled with [-fwrapv] it wraps. *)
Inductive overflow_policy := Strict | Wrapv.

Definition signed_op (p : overflow_policy) (w v : Z) : outcome Z :=
  if ((- 2 ^ (w - 1) <=? v) && (v <? 2 ^ (w - 1)))%Z then Ok v
  else match p with Strict => Fail SignedOverflow | Wrapv => Ok (to_signed w v) end.

(** * Generic lists *)

(** The flat picture of overwriting a buffer at an offset. *)
Definition overwrite {A} (pos : nat) (bs l : list A) : list A :=
  take pos l ++ bs ++ drop (pos + length bs) l.

Definition slice {A} (pos len : nat) (l : list A) : list A := take len (drop pos l).

(** ceil(a / b) *)
Definition div_up (a b : nat) : nat := (a + (b - 1)) / b.

(** * Tactics *)

(** Case analysis on every condition a model function tests. *)
Ltac case_tests :=
  repeat match goal with
  | |- context [if ?b then _ else _] => let E := fresh "E" in destruct b eqn:E
  | H : context [if ?b then _ else _] |- _ => let E := fresh "E" in destruct b eqn:E
  end.

(** Turn the boolean tests of the context into propositions. *)
Ltac to_props :=
  repeat match goal with
  | H : (_ =? _)%Z = true |- _ => apply Z.eqb_eq in H
  | H : (_ =? _)%Z = false |- _ => apply Z.eqb_neq in H
  | H : (_ <? _)%Z = true |- _ => apply Z.ltb_lt in H
  | H : (_ <? _)%Z = false |- _ => apply Z.ltb_ge in H
  | H : (_ <=? _)%Z = true |- _ => apply Z.leb_le in H
  | H : (_ <=? _)%Z = false |- _ => apply Z.leb_gt in H
  | H : (_ =? _)%nat = true |- _ => apply Nat.eqb_eq in H
  | H : (_ =? _)%nat = false |- _ => apply Nat.eqb_neq in H
  | H : (_ <? _)%nat = true |- _ => apply Nat.ltb_lt in H
  | H : (_ <? _)%nat = false |- _ => apply Nat.ltb_ge in H
  | H : (_ <=? _)%nat = true |- _ => apply Nat.leb_le in H
  | H : (_ <=? _)%nat = false |- _ => apply Nat.leb_gt in H
  | H : (_ && _)%bool = true |- _ => apply andb_prop in H as [? ?]
  | H : (_ || _)%bool = false |- _ => apply orb_false_elim in H as [? ?]
  | H : negb _ = true |- _ => apply negb_true_iff in H
  | H : negb _ = false |- _ => apply negb_false_iff in H
  end.

(** Inversion of a successful monadic computation. *)
Ltac inv_ok :=
  repeat match goal with
  | H : Ok _ = Ok _ |- _ => injection H as H; subst
  | H : Fail _ = Ok _ |- _ => discriminate H
  | H : Ok _ = Fail _ |- _ => discriminate H
  end.

Create HintDb sylar discriminated.
Create HintDb word discriminated.
Create Rewrite HintDb sylar.
Create Rewrite HintDb word.

(** * Lemmas on outcomes *)

Lemma bind_Ok {A B} (f : A -> outcome B) (a : A) : (Ok a ≫= f) = f a.
Proof. reflexivity. Qed.

Lemma bind_Ok_inv {A B} (f : A -> outcome B) (m : outcome A) (b : B) :
  (m ≫= f) = Ok b -> exists a, m = Ok a /\ f a = Ok b.
Proof. destruct m; simpl; [eauto | discriminate]. Qed.

#[export] Hint Rewrite @bind_Ok : sylar.

(** * Lemmas on machine integers *)

#[global] Instance in_unsigned_dec w v : Decision (in_unsigned w v).
Proof. unfold in_unsigned. apply _. Defined.
#[global] Instance in_signed_dec w v : Decision (in_signed w v).
Proof. unfold in_signed. apply _. Defined.

Section words.
Local Open Scope Z_scope.

Lemma wrap_range w v : 0 <= w -> in_unsigned w (wrap w v).
Proof. intros; unfold in_unsigned, wrap; apply Z.mod_pos_bound; lia. Qed.

Lemma wrap_small w v : in_unsigned w v -> wrap w v = v.
Proof. apply Z.mod_small. Qed.

Lemma wrap_idemp w v : wrap w (wrap w v) = wrap w v.
Proof. apply Zmod_mod. Qed.

Lemma pow2_half w : 0 < w -> 2 ^ w = 2 * 2 ^ (w - 1).
Proof. intros; rewrite <- Z.pow_succ_r by lia; f_equal; lia. Qed.

Lemma to_signed_range w v : 0 < w -> in_signed w (to_signed w v).
Proof.
  intros Hw; unfold in_signed, to_signed; cbv zeta.
  pose proof (Z.mod_pos_bound v (2 ^ w) ltac:(lia)).
  pose proof (pow2_half w Hw). case_tests; to_props; lia.
Qed.

Lemma to_signed_wrap w v : 0 < w -> in_signed w v -> to_signed w (wrap w v) = v.
Proof.
  intros Hw [H1 H2]; unfold to_signed, wrap; cbv zeta.
  rewrite Zmod_mod. pose proof (pow2_half w Hw).
  destruct (Z.le_gt_cases 0 v).
  - rewrite Z.mod_small by lia. case_tests; to_props; lia.
  - rewrite <- (Z.mod_unique v (2 ^ w) (-1) (v + 2 ^ w)) by lia.
    case_tests; to_props; lia.
Qed.

Lemma to_signed_small w v : 0 < w -> in_signed w v -> to_signed w v = v.
Proof.
  intros Hw Hv. rewrite <- (to_signed_wrap w v Hw Hv) at 2.
  unfold to_signed, wrap; cbv zeta. by rewrite Zmod_mod.
Qed.

(** A length is its own conversion to [int] exactly below 2^31. *)
Lemma int_length n : (0 <= n -> (n =? i32 n) = (n <? 2 ^ 31))%Z.
Proof.
  intros Hn. destruct (Z.ltb_spec n (2 ^ 31)).
  - unfold i32. rewrite to_signed_small; [apply Z.eqb_refl | lia | unfold in_signed; simpl; lia].
  - apply Z.eqb_neq. intros E. assert (H1 : in_signed 32 (i32 n)) by (by apply to_signed_range).
    rewrite <- E in H1. unfold in_signed in H1. simpl in H1. lia.
Qed.

Lemma wrap_to_signed w v : 0 < w -> wrap w (to_signed w v) = wrap w v.
Proof.
  intros Hw; unfold to_signed, wrap; cbv zeta.
  case_tests; [apply Zmod_mod |].
  rewrite <- (Z_mod_plus_full (v mod 2 ^ w - 2 ^ w) 1).
  replace (v mod 2 ^ w - 2 ^ w + 1 * 2 ^ w) with (v mod 2 ^ w) by lia.
  apply Zmod_mod.
Qed.

Lemma signed_op_wrapv w v :
  0 < w -> exists n, signed_op Wrapv w v = Ok n /\ wrap w n = wrap w v.
Proof.
  intros Hw. unfold signed_op. case_tests; eexists; split; try done.
  by apply wrap_to_signed.
Qed.

Lemma signed_op_strict w v :
  signed_op Strict w v = if decide (in_signed w v) then Ok v else Fail SignedOverflow.
Proof.
  unfold signed_op, in_signed. case_decide as H.
  - by rewrite (proj2 (Z.leb_le _ _) (proj1 H)), (proj2 (Z.ltb_lt _ _) (proj2 H)).
  - destruct (andb _ _) eqn:E; to_props; [lia | done].
Qed.

Lemma signed_op_in p w v : in_signed w v -> signed_op p w v = Ok v.
Proof.
  intros [H1 H2]; unfold signed_op.
  by rewrite (proj2 (Z.leb_le _ _) H1), (proj2 (Z.ltb_lt _ _) H2).
Qed.

(** Or-ing a value above the bits already collected. *)
Lemma lor_shiftl_add r b i : 0 <= i -> 0 <= r < 2 ^ i -> 0 <= b -> Z.lor r (Z.shiftl b i) = r + b * 2 ^ i.
Proof.
  intros Hi Hr Hb. rewrite <- Z.shiftl_mul_pow2 by done. symmetry.
  apply Z.add_nocarry_lor. apply Z.bits_inj'; intros n Hn.
  rewrite Z.land_spec, Z.bits_0, Z.shiftl_spec by done.
  destruct (Z.lt_ge_cases n i).
  - rewrite (Z.testbit_neg_r b) by lia. apply andb_false_r.
  - rewrite <- (Z.mod_small r (2 ^ i)) by done. by rewrite Z.mod_pow2_bits_high by lia.
Qed.

Lemma lxor_ones x w : 0 <= w -> 0 <= x < 2 ^ w -> Z.lxor x (2 ^ w - 1) = 2 ^ w - 1 - x.
Proof.
  intros Hw Hx. replace (2 ^ w - 1) with (Z.ones w) by (rewrite Z.ones_equiv; lia).
  assert (Hbit : forall n, w <= n -> Z.testbit x n = false).
  { intros n Hn. rewrite <- (Z.mod_small x (2 ^ w)) by done. by apply Z.mod_pow2_bits_high; lia. }
  rewrite Z.sub_nocarry_ldiff; apply Z.bits_inj'; intros n Hn.
  - rewrite Z.lxor_spec, Z.ldiff_spec. destruct (Z.lt_ge_cases n w).
    + rewrite Z.ones_spec_low by lia. by destruct (Z.testbit x n).
    + rewrite Z.ones_spec_high by lia. by rewrite Hbit.
  - rewrite Z.ldiff_spec, Z.bits_0. destruct (Z.lt_ge_cases n w).
    + rewrite Z.ones_spec_low by lia. apply andb_false_r.
    + by rewrite Hbit.
Qed.

Lemma u64_add_l a b : u64 (u64 a + b) = u64 (a + b).
Proof. unfold u64, wrap. by rewrite Zplus_mod_idemp_l. Qed.

Lemma u64_sub_l a b : u64 (u64 a - b) = u64 (a - b).
Proof. unfold u64, wrap. by rewrite Zminus_mod_idemp_l. Qed.

End words.

#[export] Hint Resolve wrap_range to_signed_range : word.
#[export] Hint Rewrite wrap_idemp : word.

(** * Lemmas on lists *)

Section lists.
Context {A : Type}.
Implicit Types l bs : list A.

Lemma length_overwrite pos bs l :
  pos + length bs <= length l -> length (overwrite pos bs l) = length l.
Proof. intros; unfold overwrite. rewrite !length_app, length_take, length_drop. lia. Qed.

Lemma overwrite_nil pos l : overwrite pos [] l = l.
Proof. unfold overwrite; simpl. rewrite Nat.add_0_r. apply take_drop. Qed.

(** Overwriting with two runs one after the other. *)
Lemma overwrite_overwrite_app pos bs1 bs2 l :
  pos <= length l ->
  overwrite (pos + length bs1) bs2 (overwrite pos bs1 l) = overwrite pos (bs1 ++ bs2) l.
Proof.
  intros H. unfold overwrite at 1 3.
  assert (Ht : take (pos + length bs1) (overwrite pos bs1 l) = take pos l ++ bs1).
  { unfold overwrite. rewrite take_app_ge by (rewrite length_take; lia).
    rewrite length_take, Nat.min_l, take_app_length' by lia. done. }
  assert (Hd : drop (pos + length bs1 + length bs2) (overwrite pos bs1 l)
               = drop (pos + length (bs1 ++ bs2)) l).
  { unfold overwrite. rewrite drop_app_ge by (rewrite length_take; lia).
    rewrite drop_app_ge by (rewrite length_take; lia).
    rewrite drop_drop. rewrite length_take, length_app. f_equal; lia. }
  rewrite Ht, Hd. by rewrite <- !app_assoc.
Qed.

Lemma slice_overwrite pos bs l :
  pos + length bs <= length l -> slice pos (length bs) (overwrite pos bs l) = bs.
Proof.
  intros H. unfold slice, overwrite.
  rewrite drop_app_ge by (rewrite length_take; lia).
  rewrite length_take, Nat.min_l, Nat.sub_diag by lia. simpl.
  apply take_app_length.
Qed.

Lemma length_slice pos len l : pos + len <= length l -> length (slice pos len l) = len.
Proof. intros; unfold slice. rewrite length_take, length_drop; lia. Qed.

Lemma slice_app_split pos a b l :
  slice pos (a + b) l = slice pos a l ++ slice (pos + a) b l.
Proof.
  unfold slice. rewrite <- drop_drop.
  rewrite <- (take_drop a (take (a + b) (drop pos l))) at 1.
  rewrite take_take, Nat.min_l by lia. f_equal.
  rewrite skipn_firstn_comm. f_equal. lia.
Qed.

Lemma take_overwrite_le n pos bs l :
  n <= pos -> n <= length l -> take n (overwrite pos bs l) = take n l.
Proof.
  intros. unfold overwrite. rewrite take_app_le by (rewrite length_take; lia).
  rewrite take_take. f_equal. lia.
Qed.

Lemma take_overwrite_ge n pos bs l :
  pos + length bs <= n -> pos <= length l ->
  take n (overwrite pos bs l) = overwrite pos bs (take n l).
Proof.
  intros. unfold overwrite.
  rewrite take_app_ge by (rewrite length_take; lia).
  rewrite take_app_ge by (rewrite length_take; lia).
  rewrite length_take, take_take, !Nat.min_l by lia.
  rewrite skipn_firstn_comm. do 3 f_equal. lia.
Qed.

Lemma slice_take pos len n l :
  pos + len <= n -> slice pos len (take n l) = slice pos len l.
Proof.
  intros. unfold slice. rewrite skipn_firstn_comm, take_take. f_equal. lia.
Qed.

End lists.

Lemma div_up_spec a b : 0 < b -> a <= b * div_up a b.
Proof.
  intros. unfold div_up.
  pose proof (Nat.div_mod_eq (a + (b - 1)) b).
  pose proof (Nat.mod_upper_bound (a + (b - 1)) b ltac:(lia)). lia.
Qed.

Lemma div_up_tight a b : 0 < b -> b * div_up a b < a + b.
Proof.
  intros. unfold div_up.
  pose proof (Nat.div_mod_eq (a + (b - 1)) b). lia.
Qed.

#[export] Hint Rewrite @length_overwrite @length_slice using lia : sylar.
