(* ===== verification/Endian.v ===== *)
(** Byte order of sylar/endian.h: the in-memory bytes of an integer on a host
    of either endianness, [byteswap], and the endianness-conditional swaps. *)

From S2P Require Import Prelude.

Local Open Scope Z_scope.

Definition SYLAR_LITTLE_ENDIAN : Z := 1.
Definition SYLAR_BIG_ENDIAN : Z := 2.

(** The [n] bytes of an unsigned integer, least significant first. *)
Fixpoint le_bytes (n : nat) (v : Z) : list Z :=
  match n with
  | O => []
  | S n => v mod 256 :: le_bytes n (v / 256)
  end.

Fixpoint le_val (bs : list Z) : Z :=
  match bs with
  | [] => 0
  | b :: bs => b + 256 * le_val bs
  end.

Definition is_byte (b : Z) : Prop := 0 <= b < 256.

Section host.

(** [SYLAR_BYTE_ORDER], selected by the preprocessor from [BYTE_ORDER]. *)
Variable SYLAR_BYTE_ORDER : Z.

(** The object representation of an [n]-byte unsigned integer on this host,
    and the integer an object representation stands for. *)
Definition mem_bytes (n : nat) (v : Z) : list Z :=
  if SYLAR_BYTE_ORDER =? SYLAR_LITTLE_ENDIAN then le_bytes n v else rev (le_bytes n v).

Definition mem_val (bs : list Z) : Z :=
  if SYLAR_BYTE_ORDER =? SYLAR_LITTLE_ENDIAN then le_val bs else le_val (rev bs).

(** [bswap_16], [bswap_32], [bswap_64]: reversal of the bytes of the value. *)
Definition bswap (n : nat) (v : Z) : Z := le_val (rev (le_bytes n v)).

(** [byteswap<T>] for an unsigned T of [n] bytes, and for a signed one, which
    converts to the unsigned type and back. *)
Definition byteswap (n : nat) (v : Z) : Z := bswap n v.
Definition byteswap_signed (n : nat) (v : Z) : Z :=
  to_signed (8 * Z.of_nat n) (bswap n (wrap (8 * Z.of_nat n) v)).

Definition byteswapOnLittleEndian (n : nat) (t : Z) : Z :=
  if SYLAR_BYTE_ORDER =? SYLAR_BIG_ENDIAN then t else byteswap n t.

Definition byteswapOnBigEndian (n : nat) (t : Z) : Z :=
  if SYLAR_BYTE_ORDER =? SYLAR_BIG_ENDIAN then byteswap n t else t.

End host.

(** ** Lemmas *)

Lemma length_le_bytes n v : length (le_bytes n v) = n.
Proof. revert v; induction n; simpl; auto. Qed.

Lemma le_bytes_bytes n v : Forall is_byte (le_bytes n v).
Proof.
  revert v; induction n; intros; simpl; constructor; auto.
  apply Z.mod_pos_bound; lia.
Qed.

Lemma pow256_S n : 2 ^ (8 * Z.of_nat (S n)) = 256 * 2 ^ (8 * Z.of_nat n).
Proof.
  replace (8 * Z.of_nat (S n)) with (8 + 8 * Z.of_nat n) by lia.
  rewrite Z.pow_add_r by lia. reflexivity.
Qed.

Lemma le_val_bytes n v :
  in_unsigned (8 * Z.of_nat n) v -> le_val (le_bytes n v) = v.
Proof.
  unfold in_unsigned. revert v; induction n as [|n IH]; intros v Hv.
  - simpl in *; lia.
  - rewrite pow256_S in Hv. cbn [le_bytes le_val]. rewrite IH.
    + pose proof (Z.div_mod v 256); lia.
    + split; [apply Z.div_pos; lia | apply Z.div_lt_upper_bound; lia].
Qed.

Lemma le_val_range bs :
  Forall is_byte bs -> in_unsigned (8 * Z.of_nat (length bs)) (le_val bs).
Proof.
  unfold in_unsigned. induction 1 as [|b bs Hb _ IH]; [simpl; lia |].
  cbn [length le_val]. rewrite pow256_S. unfold is_byte in Hb. lia.
Qed.

Lemma le_bytes_val bs : Forall is_byte bs -> le_bytes (length bs) (le_val bs) = bs.
Proof.
  induction 1 as [|b bs Hb _ IH]; [done |].
  cbn [length le_bytes le_val]. unfold is_byte in Hb.
  rewrite (Z.mul_comm 256), Z_mod_plus_full, Z.mod_small by lia.
  rewrite Z.div_add by lia. rewrite Z.div_small by lia. by rewrite Z.add_0_l, IH.
Qed.

Lemma bswap_range n v : in_unsigned (8 * Z.of_nat n) (bswap n v).
Proof.
  unfold bswap. pose proof (le_val_range (rev (le_bytes n v))) as H.
  rewrite length_rev, length_le_bytes in H. apply H.
  apply Forall_rev, le_bytes_bytes.
Qed.

Lemma le_bytes_bswap n v : le_bytes n (bswap n v) = rev (le_bytes n v).
Proof.
  unfold bswap. rewrite <- (length_le_bytes n v) at 1. rewrite <- length_rev.
  apply le_bytes_val, Forall_rev, le_bytes_bytes.
Qed.

Lemma bswap_involutive n v : in_unsigned (8 * Z.of_nat n) v -> bswap n (bswap n v) = v.
Proof.
  intros. unfold bswap at 1. rewrite le_bytes_bswap, rev_involutive. by apply le_val_bytes.
Qed.

Lemma length_mem_bytes h n v : length (mem_bytes h n v) = n.
Proof. unfold mem_bytes; case_tests; rewrite ?length_rev; apply length_le_bytes. Qed.

Lemma mem_bytes_bytes h n v : Forall is_byte (mem_bytes h n v).
Proof. unfold mem_bytes; case_tests; [| apply Forall_rev]; apply le_bytes_bytes. Qed.

Lemma mem_val_bytes h n v :
  in_unsigned (8 * Z.of_nat n) v -> mem_val h (mem_bytes h n v) = v.
Proof.
  intros. unfold mem_val, mem_bytes. case_tests; rewrite ?rev_involutive; by apply le_val_bytes.
Qed.

Lemma mem_val_range h bs :
  Forall is_byte bs -> in_unsigned (8 * Z.of_nat (length bs)) (mem_val h bs).
Proof.
  intros. unfold mem_val. case_tests; [by apply le_val_range |].
  rewrite <- length_rev. by apply le_val_range, Forall_rev.
Qed.

(** A swapped value stored in memory is the reversed byte string. *)
Lemma mem_bytes_bswap h n v : mem_bytes h n (bswap n v) = rev (mem_bytes h n v).
Proof. unfold mem_bytes. case_tests; by rewrite le_bytes_bswap. Qed.

#[export] Hint Resolve bswap_range mem_bytes_bytes : word.
#[export] Hint Rewrite length_mem_bytes length_le_bytes : sylar.
