(* ===== verification/ByteArray.v ===== *)
(** The segmented byte buffer of sylar/bytearray.cc: a chain of fixed-size
    nodes with a cursor.  This file models the storage operations ([write],
    [read], [setPosition], [addCapacity], [clear], the iovec views and the file
    transfers) over the chain, states the flat "seekable file" specification
    they promise, and proves that the chain refines it. *)

From S2P Require Import Prelude.

(** A byte of memory; [None] is a byte of fresh, uninitialised memory. *)
Abbreviation cell := (option Z).

Module BA.

(** ** Data *)

(** [ByteArray::Node]: the [next] pointer of the node at index [i] of the chain
    is the node at index [i + 1]. *)
Record Node := mkNode { ptr : list cell; size : nat }.

(** Pointers into the chain: an index, or null. *)
Abbreviation node_ptr := (option nat).

Record ByteArray := mkByteArray {
  m_baseSize : nat;
  m_position : nat;
  m_capacity : nat;
  m_size : nat;
  m_endian : option Z;      (* [None] until [setIsLittleEndian] is called *)
  m_root : list Node;       (* the chain that starts at [m_root] *)
  m_cur : node_ptr;
}.

Definition set_position (ba : ByteArray) (v : nat) : ByteArray :=
  mkByteArray (m_baseSize ba) v (m_capacity ba) (m_size ba) (m_endian ba) (m_root ba) (m_cur ba).
Definition set_capacity (ba : ByteArray) (v : nat) : ByteArray :=
  mkByteArray (m_baseSize ba) (m_position ba) v (m_size ba) (m_endian ba) (m_root ba) (m_cur ba).
Definition set_size (ba : ByteArray) (v : nat) : ByteArray :=
  mkByteArray (m_baseSize ba) (m_position ba) (m_capacity ba) v (m_endian ba) (m_root ba) (m_cur ba).
Definition set_endian (ba : ByteArray) (v : option Z) : ByteArray :=
  mkByteArray (m_baseSize ba) (m_position ba) (m_capacity ba) (m_size ba) v (m_root ba) (m_cur ba).
Definition set_root (ba : ByteArray) (v : list Node) : ByteArray :=
  mkByteArray (m_baseSize ba) (m_position ba) (m_capacity ba) (m_size ba) (m_endian ba) v (m_cur ba).
Definition set_cur (ba : ByteArray) (v : node_ptr) : ByteArray :=
  mkByteArray (m_baseSize ba) (m_position ba) (m_capacity ba) (m_size ba) (m_endian ba) (m_root ba) v.

Definition new_Node (s : nat) : Node := mkNode (replicate s None) s.

(** The constructor initialises every member but [m_endian]. *)
Definition new_ByteArray (base_size : nat) : ByteArray :=
  mkByteArray base_size 0 base_size 0 None [new_Node base_size] (Some 0).

(** [p->...] *)
Definition deref (ba : ByteArray) (p : node_ptr) : outcome Node :=
  i ← of_ptr p; of_ptr (m_root ba !! i).

(** [p->next] *)
Definition next (ba : ByteArray) (p : node_ptr) : outcome node_ptr :=
  i ← of_ptr p;
  _ ← of_ptr (m_root ba !! i);
  Ok (if S i <? length (m_root ba) then Some (S i) else None).

(** [a % b] *)
Definition umod (a b : nat) : outcome nat :=
  if b =? 0 then Fail DivByZero else Ok (a mod b).

(** [memcpy(p->ptr + off, src, n)] *)
Definition memcpy_to (ba : ByteArray) (p : node_ptr) (off : nat) (src : list cell) : outcome ByteArray :=
  i ← of_ptr p;
  n ← of_ptr (m_root ba !! i);
  if off + length src <=? length (ptr n)
  then Ok (set_root ba (<[i := mkNode (overwrite off src (ptr n)) (size n)]> (m_root ba)))
  else Fail NullDeref.

(** [memcpy(dst, p->ptr + off, n)] *)
Definition memcpy_from (ba : ByteArray) (p : node_ptr) (off n : nat) : outcome (list cell) :=
  nd ← deref ba p;
  if off + n <=? length (ptr nd) then Ok (slice off n (ptr nd)) else Fail NullDeref.

Definition getReadSize (ba : ByteArray) : nat := m_size ba - m_position ba.
Definition getCapacity (ba : ByteArray) : nat := m_capacity ba - m_position ba.

(** ** Capacity *)

(** The loop that appends [count] nodes at the end of the chain. *)
Fixpoint append_nodes (count : nat) (ba : ByteArray) : ByteArray :=
  match count with
  | O => ba
  | S count =>
      append_nodes count
        (set_capacity (set_root ba (m_root ba ++ [new_Node (m_baseSize ba)]))
                      (m_capacity ba + m_baseSize ba))
  end.

(** The number of new nodes is [ceil(1.0 * size / m_baseSize)] in the code, in
    double precision; it is the exact quotient rounded up for sizes below 2^53,
    which every buffer in memory has. *)
Definition addCapacity (ba : ByteArray) (sz : nat) : outcome ByteArray :=
  if sz =? 0 then Ok ba else
  let old_cap := getCapacity ba in
  if sz <=? old_cap then Ok ba else
  let sz := sz - old_cap in
  if m_baseSize ba =? 0 then Fail DivByZero else
  let count := div_up sz (m_baseSize ba) in
  let first := if count =? 0 then None else Some (length (m_root ba)) in
  let ba := append_nodes count ba in
  Ok (if old_cap =? 0 then set_cur ba first else ba).

(** ** Transfers *)

Fixpoint write_loop (fuel : nat) (ba : ByteArray) (buf : list cell)
    (sz npos ncap bpos : nat) : outcome ByteArray :=
  if sz =? 0 then Ok ba else
  match fuel with
  | O => Fail OutOfFuel
  | S fuel =>
      if sz <=? ncap then
        ba ← memcpy_to ba (m_cur ba) npos (slice bpos sz buf);
        cur ← deref ba (m_cur ba);
        ba ← (if size cur =? npos + sz
              then nx ← next ba (m_cur ba); Ok (set_cur ba nx) else Ok ba);
        write_loop fuel (set_position ba (m_position ba + sz)) buf 0 npos ncap (bpos + sz)
      else
        ba ← memcpy_to ba (m_cur ba) npos (slice bpos ncap buf);
        let ba := set_position ba (m_position ba + ncap) in
        nx ← next ba (m_cur ba);
        let ba := set_cur ba nx in
        cur ← deref ba (m_cur ba);
        write_loop fuel ba buf (sz - ncap) 0 (size cur) (bpos + ncap)
  end.

Definition grow_size (ba : ByteArray) : ByteArray :=
  if m_size ba <? m_position ba then set_size ba (m_position ba) else ba.

(** [void ByteArray::write(const void* buf, size_t size)] *)
Definition write (ba : ByteArray) (buf : list cell) : outcome ByteArray :=
  let sz := length buf in
  if sz =? 0 then Ok ba else
  ba ← addCapacity ba sz;
  npos ← umod (m_position ba) (m_baseSize ba);
  cur ← deref ba (m_cur ba);
  ba ← write_loop (S (length (m_root ba))) ba buf sz npos (size cur - npos) 0;
  Ok (grow_size ba).

Fixpoint read_loop (fuel : nat) (ba : ByteArray) (out : list cell)
    (sz npos ncap : nat) : outcome (list cell * ByteArray) :=
  if sz =? 0 then Ok (out, ba) else
  match fuel with
  | O => Fail OutOfFuel
  | S fuel =>
      if sz <=? ncap then
        bs ← memcpy_from ba (m_cur ba) npos sz;
        cur ← deref ba (m_cur ba);
        ba ← (if size cur =? npos + sz
              then nx ← next ba (m_cur ba); Ok (set_cur ba nx) else Ok ba);
        read_loop fuel (set_position ba (m_position ba + sz)) (out ++ bs) 0 npos ncap
      else
        bs ← memcpy_from ba (m_cur ba) npos ncap;
        let ba := set_position ba (m_position ba + ncap) in
        nx ← next ba (m_cur ba);
        let ba := set_cur ba nx in
        cur ← deref ba (m_cur ba);
        read_loop fuel ba (out ++ bs) (sz - ncap) 0 (size cur)
  end.

(** [void ByteArray::read(void* buf, size_t size)] *)
Definition read (ba : ByteArray) (sz : nat) : outcome (list cell * ByteArray) :=
  if getReadSize ba <? sz then Fail OutOfRange else
  npos ← umod (m_position ba) (m_baseSize ba);
  cur ← deref ba (m_cur ba);
  read_loop (S (length (m_root ba))) ba [] sz npos (size cur - npos).

(** [m_size - position] is a [size_t] subtraction, which wraps. *)
Definition size_minus (a b : nat) : Z := u64 (Z.of_nat a - Z.of_nat b).

Fixpoint read_at_loop (fuel : nat) (ba : ByteArray) (cur : node_ptr) (out : list cell)
    (sz npos ncap : nat) : outcome (list cell) :=
  if sz =? 0 then Ok out else
  match fuel with
  | O => Fail OutOfFuel
  | S fuel =>
      if sz <=? ncap then
        bs ← memcpy_from ba cur npos sz;
        nd ← deref ba cur;
        cur ← (if size nd =? npos + sz then next ba cur else Ok cur);
        read_at_loop fuel ba cur (out ++ bs) 0 npos ncap
      else
        bs ← memcpy_from ba cur npos ncap;
        cur ← next ba cur;
        nd ← deref ba cur;
        read_at_loop fuel ba cur (out ++ bs) (sz - ncap) 0 (size nd)
  end.

(** [void ByteArray::read(void* buf, size_t size, size_t position) const],
    which starts from [m_cur] whatever [position] is. *)
Definition read_at (ba : ByteArray) (sz position : nat) : outcome (list cell) :=
  if (size_minus (m_size ba) position <? Z.of_nat sz)%Z then Fail OutOfRange else
  npos ← umod position (m_baseSize ba);
  cur ← deref ba (m_cur ba);
  read_at_loop (S (length (m_root ba))) ba (m_cur ba) [] sz npos (size cur - npos).

(** The cursor walk of [setPosition]. *)
Fixpoint seek_loop (fuel : nat) (ba : ByteArray) (v : nat) : outcome (nat * ByteArray) :=
  cur ← deref ba (m_cur ba);
  if size cur <? v then
    match fuel with
    | O => Fail OutOfFuel
    | S fuel =>
        nx ← next ba (m_cur ba);
        seek_loop fuel (set_cur ba nx) (v - size cur)
    end
  else Ok (v, ba).

Definition setPosition (ba : ByteArray) (v : nat) : outcome ByteArray :=
  if m_capacity ba <? v then Fail OutOfRange else
  let ba := grow_size (set_position ba v) in
  let ba := set_cur ba (Some 0) in
  '(v, ba) ← seek_loop (length (m_root ba)) ba v;
  cur ← deref ba (m_cur ba);
  if v =? size cur then nx ← next ba (m_cur ba); Ok (set_cur ba nx) else Ok ba.

Definition clear (ba : ByteArray) : ByteArray :=
  let ba := set_size (set_position ba 0) 0 in
  let ba := set_capacity ba (m_baseSize ba) in
  set_cur (set_root ba (take 1 (m_root ba))) (Some 0).

Definition toString (ba : ByteArray) : outcome (list cell) :=
  if getReadSize ba =? 0 then Ok [] else read_at ba (getReadSize ba) (m_position ba).

(** ** iovec views: node, offset in the node, length *)

Record iovec := mkIovec { iov_node : node_ptr; iov_off : nat; iov_len : nat }.

Fixpoint iov_loop (fuel : nat) (ba : ByteArray) (cur : node_ptr) (buffers : list iovec)
    (len npos ncap : nat) : outcome (list iovec) :=
  if len =? 0 then Ok buffers else
  match fuel with
  | O => Fail OutOfFuel
  | S fuel =>
      if len <=? ncap then
        iov_loop fuel ba cur (buffers ++ [mkIovec cur npos len]) 0 npos ncap
      else
        let iov := mkIovec cur npos ncap in
        cur ← next ba cur;
        nd ← deref ba cur;
        iov_loop fuel ba cur (buffers ++ [iov]) (len - ncap) 0 (size nd)
  end.

Definition getReadBuffers (ba : ByteArray) (len : nat) : outcome (nat * list iovec) :=
  let len := if getReadSize ba <? len then getReadSize ba else len in
  if len =? 0 then Ok (0, []) else
  npos ← umod (m_position ba) (m_baseSize ba);
  cur ← deref ba (m_cur ba);
  bufs ← iov_loop (S (length (m_root ba))) ba (m_cur ba) [] len npos (size cur - npos);
  Ok (len, bufs).

Fixpoint skip_nodes (count : nat) (ba : ByteArray) (cur : node_ptr) : outcome node_ptr :=
  match count with
  | O => Ok cur
  | S count => cur ← next ba cur; skip_nodes count ba cur
  end.

(** The overload with a position clips [len] by the readable size of the
    cursor, not of [position]. *)
Definition getReadBuffers_at (ba : ByteArray) (len position : nat) : outcome (nat * list iovec) :=
  let len := if getReadSize ba <? len then getReadSize ba else len in
  if len =? 0 then Ok (0, []) else
  npos ← umod position (m_baseSize ba);
  cur ← skip_nodes (position / m_baseSize ba) ba (Some 0);
  nd ← deref ba cur;
  bufs ← iov_loop (S (length (m_root ba))) ba cur [] len npos (size nd - npos);
  Ok (len, bufs).

Definition getWriteBuffers (ba : ByteArray) (len : nat) : outcome (nat * list iovec * ByteArray) :=
  if len =? 0 then Ok (0, [], ba) else
  ba ← addCapacity ba len;
  npos ← umod (m_position ba) (m_baseSize ba);
  cur ← deref ba (m_cur ba);
  bufs ← iov_loop (S (length (m_root ba))) ba (m_cur ba) [] len npos (size cur - npos);
  Ok (len, bufs, ba).

(** ** Files *)

(** The loop of [writeToFile]; [read_size] and [len] are signed, and the byte
    count handed to [ofs.write] is what the file gains. *)
Fixpoint file_loop (fuel : nat) (ba : ByteArray) (cur : node_ptr) (out : list cell)
    (read_size pos : Z) : outcome (list cell) :=
  if (read_size <=? 0)%Z then Ok out else
  match fuel with
  | O => Fail OutOfFuel
  | S fuel =>
      diff ← umod (Z.to_nat pos) (m_baseSize ba);
      let len := ((if (Z.of_nat (m_baseSize ba) <? read_size)%Z
                   then Z.of_nat (m_baseSize ba) else read_size) - Z.of_nat diff)%Z in
      bs ← memcpy_from ba cur diff (Z.to_nat len);
      cur ← next ba cur;
      file_loop fuel ba cur (out ++ bs) (read_size - len) (pos + len)
  end.

(** What [writeToFile] writes once the file is open. *)
Definition writeToFile (ba : ByteArray) : outcome (list cell) :=
  file_loop (S (length (m_root ba))) ba (m_cur ba) []
    (Z.of_nat (getReadSize ba)) (Z.of_nat (m_position ba)).

(** The read loop of [readFromFile] over the bytes of the file: a short read
    sets [eof]. *)
Fixpoint readFromFile (fuel : nat) (ba : ByteArray) (file : list Z) : outcome ByteArray :=
  match fuel with
  | O => Fail OutOfFuel
  | S fuel =>
      let chunk := take (m_baseSize ba) file in
      ba' ← write ba (Some <$> chunk);
      if length file <? m_baseSize ba then Ok ba'
      else readFromFile fuel ba' (drop (m_baseSize ba) file)
  end.

(** ** The flat picture *)

(** The bytes of the chain in order. *)
Definition flat (ns : list Node) : list cell := mjoin (ptr <$> ns).
Definition contents (ba : ByteArray) : list cell := flat (m_root ba).

(** The data a user of the buffer sees: the first [m_size] bytes. *)
Definition view (ba : ByteArray) : list cell := take (m_size ba) (contents ba).

(** The bytes an iovec array denotes. *)
Definition iov_bytes (ba : ByteArray) (iov : iovec) : list cell :=
  match iov_node iov with
  | Some i => slice (m_baseSize ba * i + iov_off iov) (iov_len iov) (contents ba)
  | None => []
  end.
Definition gather (ba : ByteArray) (iovs : list iovec) : list cell := mjoin (iov_bytes ba <$> iovs).

(** Where the cursor of a well-formed buffer points. *)
Definition cursor (base n pos : nat) : node_ptr :=
  if pos <? base * n then Some (pos / base) else None.

Definition wf_node (base : nat) (n : Node) : Prop := size n = base /\ length (ptr n) = base.

Record inv (ba : ByteArray) : Prop := mkInv {
  inv_base : 0 < m_baseSize ba;
  inv_nodes : Forall (wf_node (m_baseSize ba)) (m_root ba);
  inv_root : 0 < length (m_root ba);
  inv_cap : m_capacity ba = m_baseSize ba * length (m_root ba);
  inv_pos : m_position ba <= m_size ba;
  inv_size : m_size ba <= m_capacity ba;
  inv_cur : m_cur ba = cursor (m_baseSize ba) (length (m_root ba)) (m_position ba);
}.

(** ** Chain lemmas *)

Section chain.
Context (base : nat) (Hbase : 0 < base).
Implicit Types ns : list Node.

Lemma flat_app ns1 ns2 : flat (ns1 ++ ns2) = flat ns1 ++ flat ns2.
Proof. unfold flat. by rewrite fmap_app, join_app. Qed.

Lemma flat_cons n ns : flat (n :: ns) = ptr n ++ flat ns.
Proof. reflexivity. Qed.

Lemma length_flat ns : Forall (wf_node base) ns -> length (flat ns) = base * length ns.
Proof.
  induction 1 as [|n ns [_ Hn] _ IH]; [simpl; lia |].
  rewrite flat_cons, length_app, IH, Hn. simpl. lia.
Qed.

Lemma flat_insert ns i n off src :
  Forall (wf_node base) ns -> ns !! i = Some n -> off + length src <= base ->
  flat (<[i := mkNode (overwrite off src (ptr n)) (size n)]> ns)
  = overwrite (base * i + off) src (flat ns).
Proof.
  intros Hwf; revert i; induction Hwf as [|m ns [_ Hm] Hwf IH]; intros [|i] Hi Hoff;
    simpl in Hi; try discriminate.
  - injection Hi as ->. change (insert 0 ?m (n :: ns)) with (m :: ns).
    rewrite !flat_cons; simpl ptr. rewrite Nat.mul_0_r, Nat.add_0_l. unfold overwrite.
    rewrite take_app_le, drop_app_le by lia. by rewrite <- !app_assoc.
  - change (insert (S i) ?x (m :: ns)) with (m :: <[i := x]> ns).
    rewrite !flat_cons, IH by done. unfold overwrite.
    rewrite take_app_ge, drop_app_ge by lia. rewrite <- app_assoc, Hm.
    by replace (base * S i + off - base) with (base * i + off) by lia;
      replace (base * S i + off + length src - base) with (base * i + off + length src) by lia.
Qed.

Lemma flat_slice ns i n off len :
  Forall (wf_node base) ns -> ns !! i = Some n -> off + len <= base ->
  slice off len (ptr n) = slice (base * i + off) len (flat ns).
Proof.
  intros Hwf; revert i; induction Hwf as [|m ns [_ Hm] Hwf IH]; intros [|i] Hi Hoff;
    simpl in Hi; try discriminate; rewrite flat_cons.
  - injection Hi as ->. rewrite Nat.mul_0_r, Nat.add_0_l. unfold slice.
    rewrite drop_app_le, take_app_le by (rewrite ?length_drop; lia). done.
  - rewrite (IH i) by done. unfold slice. rewrite drop_app_ge by lia.
    by replace (base * S i + off - length (ptr m)) with (base * i + off) by lia.
Qed.

Lemma wf_insert ns i n off src :
  Forall (wf_node base) ns -> ns !! i = Some n -> off + length src <= base ->
  Forall (wf_node base) (<[i := mkNode (overwrite off src (ptr n)) (size n)]> ns).
Proof.
  intros Hwf Hi Hoff. apply Forall_insert; [done |].
  destruct (Forall_lookup_1 _ _ _ _ Hwf Hi) as [H1 H2]. split; simpl; [done |].
  by rewrite length_overwrite; lia.
Qed.

(** The cursor of a position given as node and offset. *)
Lemma cursor_at n i off : i < n -> off < base -> cursor base n (base * i + off) = Some i.
Proof.
  intros Hi Hoff. unfold cursor. rewrite (proj2 (Nat.ltb_lt _ _)) by nia.
  f_equal. rewrite Nat.mul_comm, Nat.div_add_l, Nat.div_small by lia. lia.
Qed.

Lemma cursor_next n i :
  i < n -> cursor base n (base * i + base) = if S i <? n then Some (S i) else None.
Proof.
  intros Hi. case_tests; to_props.
  - replace (base * i + base) with (base * S i + 0) by lia. apply cursor_at; lia.
  - unfold cursor. by rewrite (proj2 (Nat.ltb_ge _ _)) by nia.
Qed.

Lemma cursor_split n pos :
  pos < base * n -> exists i off,
    cursor base n pos = Some i /\ i < n /\ off < base /\ pos mod base = off /\ pos = base * i + off.
Proof.
  intros H. exists (pos / base), (pos mod base). unfold cursor.
  rewrite (proj2 (Nat.ltb_lt _ _)) by lia.
  pose proof (Nat.div_mod_eq pos base). pose proof (Nat.mod_upper_bound pos base ltac:(lia)).
  repeat split; try lia. by apply Nat.Div0.div_lt_upper_bound.
Qed.

End chain.

(** ** The transfer loops *)

(** Reduce field accesses of updated buffers. *)
Ltac ba_simpl :=
  cbn [m_baseSize m_position m_capacity m_size m_endian m_root m_cur
       set_position set_capacity set_size set_endian set_root set_cur] in *.

Section loops.
Context (base : nat) (Hbase : 0 < base).

Abbreviation wf := (Forall (wf_node base)).

Lemma deref_wf ba i :
  wf (m_root ba) -> i < length (m_root ba) ->
  exists n, m_root ba !! i = Some n /\ deref ba (Some i) = Ok n
    /\ size n = base /\ length (ptr n) = base.
Proof.
  intros Hwf Hi. destruct (lookup_lt_is_Some_2 (m_root ba) i Hi) as [n Hn].
  destruct (Forall_lookup_1 _ _ _ _ Hwf Hn). exists n.
  unfold deref; simpl. by rewrite Hn.
Qed.

Lemma next_wf ba i :
  i < length (m_root ba) ->
  next ba (Some i) = Ok (cursor base (length (m_root ba)) (base * i + base)).
Proof.
  intros Hi. destruct (lookup_lt_is_Some_2 (m_root ba) i Hi) as [n Hn].
  unfold next; simpl. rewrite Hn; simpl. by rewrite cursor_next.
Qed.

Lemma memcpy_to_wf ba i off src :
  wf (m_root ba) -> i < length (m_root ba) -> off + length src <= base ->
  exists ns, memcpy_to ba (Some i) off src = Ok (set_root ba ns)
    /\ wf ns /\ length ns = length (m_root ba)
    /\ flat ns = overwrite (base * i + off) src (flat (m_root ba)).
Proof.
  intros Hwf Hi Hoff. destruct (deref_wf ba i Hwf Hi) as (n & Hn & _ & Hs & Hl).
  unfold memcpy_to; simpl. rewrite Hn; simpl.
  rewrite (proj2 (Nat.leb_le _ _)) by lia. eexists; split; [done |].
  split; [by apply wf_insert | split; [apply length_insert | by apply flat_insert]].
Qed.

Lemma memcpy_from_wf ba i off len :
  wf (m_root ba) -> i < length (m_root ba) -> off + len <= base ->
  memcpy_from ba (Some i) off len = Ok (slice (base * i + off) len (flat (m_root ba))).
Proof.
  intros Hwf Hi Hoff. destruct (deref_wf ba i Hwf Hi) as (n & Hn & Hd & Hs & Hl).
  unfold memcpy_from. rewrite Hd; simpl. rewrite (proj2 (Nat.leb_le _ _)) by lia.
  by rewrite <- (flat_slice base Hbase _ i n).
Qed.

(** Advancing the cursor after a transfer that ends inside node [i]. *)
Lemma cursor_after ba i npos sz n :
  i < length (m_root ba) -> m_cur ba = Some i -> 0 < sz -> npos + sz <= base ->
  size n = base ->
  (if size n =? npos + sz then nx ← next ba (Some i); Ok (set_cur ba nx) else Ok ba)
  = Ok (set_cur ba (cursor base (length (m_root ba)) (base * i + npos + sz))).
Proof.
  intros Hi Hcur Hsz Hle Hn. rewrite Hn. destruct (base =? npos + sz) eqn:E; to_props.
  - rewrite next_wf by done. simpl. by replace (base * i + npos + sz) with (base * i + base) by lia.
  - rewrite <- Nat.add_assoc, cursor_at by lia. by rewrite <- Hcur; destruct ba.
Qed.

Lemma write_loop_spec fuel ba buf sz npos i bpos :
  wf (m_root ba) -> m_cur ba = Some i -> i < length (m_root ba) -> npos < base ->
  m_position ba = base * i + npos ->
  m_position ba + sz <= base * length (m_root ba) ->
  bpos + sz <= length buf -> length (m_root ba) - i <= fuel -> 0 < sz ->
  exists ns,
    write_loop fuel ba buf sz npos (base - npos) bpos
    = Ok (set_cur (set_position (set_root ba ns) (m_position ba + sz))
                  (cursor base (length ns) (m_position ba + sz)))
    /\ wf ns /\ length ns = length (m_root ba)
    /\ flat ns = overwrite (m_position ba) (slice bpos sz buf) (flat (m_root ba)).
Proof.
  revert ba sz npos i bpos; induction fuel as [|fuel IH];
    intros ba sz npos i bpos Hwf Hcur Hi Hnpos Hpos Hcap Hbuf Hfuel Hsz; [lia |].
  cbn [write_loop]. rewrite (proj2 (Nat.eqb_neq sz 0)) by lia.
  destruct (sz <=? base - npos) eqn:E; to_props.
  - destruct (memcpy_to_wf ba i npos (slice bpos sz buf)) as (ns & Hm & Hwf' & Hlen & Hflat);
      [done | done | rewrite length_slice; lia |].
    rewrite Hcur, Hm, bind_Ok.
    destruct (deref_wf (set_root ba ns) i) as (n & _ & Hd & Hs & _); [done | simpl; lia |].
    cbn [m_cur set_root]. rewrite Hcur, Hd, bind_Ok.
    rewrite (cursor_after (set_root ba ns) i npos sz n); simpl; try done; try lia.
    exists ns. rewrite Hpos. split; [| by rewrite Hflat].
    destruct fuel; reflexivity.
  - destruct (memcpy_to_wf ba i npos (slice bpos (base - npos) buf)) as (ns & Hm & Hwf' & Hlen & Hflat);
      [done | done | rewrite length_slice; lia |].
    rewrite Hcur, Hm, bind_Ok. cbn [m_cur set_position set_root]. rewrite Hcur.
    assert (HSi : S i < length ns) by nia.
    rewrite next_wf by (simpl; lia). rewrite bind_Ok. simpl length.
    rewrite cursor_next, (proj2 (Nat.ltb_lt _ _)) by (simpl; lia). cbn [m_cur set_cur].
    match goal with |- context [deref ?b _] => set (ba1 := b) end.
    destruct (deref_wf ba1 (S i)) as (n & _ & Hd & Hs & _); [done | simpl; lia |].
    rewrite Hd, bind_Ok, Hs.
    destruct (IH ba1 (sz - (base - npos)) 0 (S i) (bpos + (base - npos)))
      as (ns' & Hw & Hwf'' & Hlen' & Hflat'); subst ba1; simpl; try lia; try done.
    rewrite Nat.sub_0_r in Hw. ba_simpl. rewrite Hw. exists ns'.
    replace (m_position ba + (base - npos) + (sz - (base - npos))) with (m_position ba + sz) by lia.
    split; [done | split; [done | split; [lia |]]].
    rewrite Hflat', Hflat, <- Hpos.
    assert (Hl : length (slice bpos (base - npos) buf) = base - npos) by (apply length_slice; lia).
    rewrite <- Hl at 1. rewrite overwrite_overwrite_app.
    + rewrite <- slice_app_split. do 2 f_equal. lia.
    + rewrite (length_flat base) by done. lia.
Qed.

Lemma read_loop_spec fuel ba out sz npos i :
  wf (m_root ba) -> m_cur ba = Some i -> i < length (m_root ba) -> npos < base ->
  m_position ba = base * i + npos ->
  m_position ba + sz <= base * length (m_root ba) ->
  length (m_root ba) - i <= fuel -> 0 < sz ->
  read_loop fuel ba out sz npos (base - npos)
  = Ok (out ++ slice (m_position ba) sz (flat (m_root ba)),
        set_cur (set_position ba (m_position ba + sz))
                (cursor base (length (m_root ba)) (m_position ba + sz))).
Proof.
  revert ba out sz npos i; induction fuel as [|fuel IH];
    intros ba out sz npos i Hwf Hcur Hi Hnpos Hpos Hcap Hfuel Hsz; [lia |].
  cbn [read_loop]. rewrite (proj2 (Nat.eqb_neq sz 0)) by lia.
  destruct (sz <=? base - npos) eqn:E; to_props.
  - rewrite Hcur, memcpy_from_wf, bind_Ok by (done || lia).
    destruct (deref_wf ba i) as (n & _ & Hd & Hs & _); [done | done |].
    rewrite Hd, bind_Ok.
    rewrite (cursor_after ba i npos sz n) by (done || lia). simpl. rewrite Hpos.
    destruct fuel; reflexivity.
  - rewrite Hcur, memcpy_from_wf, bind_Ok by (done || lia).
    cbn [m_cur set_position]. rewrite Hcur. assert (HSi : S i < length (m_root ba)) by nia.
    rewrite next_wf by (simpl; lia). rewrite bind_Ok. cbn [m_root set_position].
    rewrite cursor_next, (proj2 (Nat.ltb_lt _ _)) by (simpl; lia). cbn [m_cur set_cur].
    match goal with |- context [deref ?b _] => set (ba1 := b) end.
    destruct (deref_wf ba1 (S i)) as (n & _ & Hd & Hs & _); [done | done |].
    rewrite Hd, bind_Ok, Hs.
    pose proof (IH ba1 (out ++ slice (base * i + npos) (base - npos) (flat (m_root ba)))
      (sz - (base - npos)) 0 (S i)) as Hr. subst ba1; simpl in Hr.
    rewrite Nat.sub_0_r in Hr. rewrite Hr by (done || lia).
    replace (m_position ba + (base - npos) + (sz - (base - npos))) with (m_position ba + sz) by lia.
    rewrite <- app_assoc, <- Hpos, <- slice_app_split.
    by replace (base - npos + (sz - (base - npos))) with sz by lia.
Qed.

End loops.

(** ** Capacity *)

Lemma append_nodes_eq c ba :
  append_nodes c ba
  = set_capacity (set_root ba (m_root ba ++ replicate c (new_Node (m_baseSize ba))))
                 (m_capacity ba + m_baseSize ba * c).
Proof.
  revert ba; induction c as [|c IH]; intros ba; simpl.
  - rewrite app_nil_r, Nat.mul_0_r, Nat.add_0_r. by destruct ba.
  - rewrite IH. unfold set_capacity, set_root; ba_simpl. f_equal; [lia |].
    by rewrite <- app_assoc.
Qed.

Lemma wf_new_nodes base c : Forall (wf_node base) (replicate c (new_Node base)).
Proof. apply Forall_replicate. split; [done | apply length_replicate]. Qed.

Lemma length_contents ba : inv ba -> length (contents ba) = m_capacity ba.
Proof. intros []. unfold contents. by rewrite (length_flat (m_baseSize ba)). Qed.

Lemma length_view ba : inv ba -> length (view ba) = m_size ba.
Proof.
  intros Hi. unfold view. rewrite length_take, length_contents by done.
  destruct Hi. lia.
Qed.

(** A buffer that differs only by unused capacity. *)
Record extends (ba ba' : ByteArray) : Prop := {
  ext_base : m_baseSize ba' = m_baseSize ba;
  ext_pos : m_position ba' = m_position ba;
  ext_size : m_size ba' = m_size ba;
  ext_endian : m_endian ba' = m_endian ba;
  ext_root : exists k, m_root ba' = m_root ba ++ replicate k (new_Node (m_baseSize ba));
}.

Lemma extends_view ba ba' : inv ba -> extends ba ba' -> view ba' = view ba.
Proof.
  intros Hi [? ? Hs ? [k Hk]]. unfold view, contents. rewrite Hs, Hk, flat_app.
  apply take_app_le. pose proof (length_contents ba Hi) as Hl. unfold contents in Hl.
  destruct Hi. lia.
Qed.

Lemma addCapacity_spec ba sz :
  inv ba -> exists ba', addCapacity ba sz = Ok ba' /\ inv ba' /\ extends ba ba'
    /\ m_position ba + sz <= m_capacity ba'.
Proof.
  intros Hinv. pose proof Hinv as [Hb Hwf Hr Hcap Hpos Hsz Hcur].
  assert (Hrefl : extends ba ba) by (constructor; try done; exists 0; by rewrite app_nil_r).
  unfold addCapacity, getCapacity. destruct (sz =? 0) eqn:E0; to_props.
  { exists ba. split_and!; try done; lia. }
  destruct (sz <=? m_capacity ba - m_position ba) eqn:E1; to_props.
  { exists ba. split_and!; try done; lia. }
  rewrite (proj2 (Nat.eqb_neq (m_baseSize ba) 0)) by lia.
  set (need := sz - (m_capacity ba - m_position ba)).
  pose proof (div_up_spec need (m_baseSize ba) Hb) as Hup.
  set (k := div_up need (m_baseSize ba)) in *.
  assert (Hk : 0 < k) by (destruct k; subst need; lia).
  rewrite (proj2 (Nat.eqb_neq k 0)) by lia. rewrite append_nodes_eq.
  eexists; split; [done |].
  assert (Hlen : length (m_root ba ++ replicate k (new_Node (m_baseSize ba)))
                 = length (m_root ba) + k) by (by rewrite length_app, length_replicate).
  destruct (m_capacity ba - m_position ba =? 0) eqn:E2; to_props.
  - split_and!; [| constructor; ba_simpl; try done; by exists k | ba_simpl; subst need; lia].
    constructor; ba_simpl; rewrite ?Hlen; try done; try lia.
    + apply Forall_app. auto using wf_new_nodes.
    + replace (m_position ba) with (m_baseSize ba * length (m_root ba) + 0) by lia.
      by rewrite cursor_at by lia.
  - split_and!; [| constructor; ba_simpl; try done; by exists k | ba_simpl; subst need; lia].
    constructor; ba_simpl; rewrite ?Hlen; try done; try lia.
    + apply Forall_app. auto using wf_new_nodes.
    + destruct (cursor_split (m_baseSize ba) Hb (length (m_root ba)) (m_position ba))
        as (i & off & Hc & Hi & Hoff & _ & Hp); [lia |].
      by rewrite Hcur, Hc, Hp, cursor_at by lia.
Qed.

(** ** The specification: a seekable file *)

Record file := mkFile { f_data : list cell; f_pos : nat }.

Definition f_write (f : file) (bs : list cell) : file :=
  mkFile (overwrite (f_pos f) bs (f_data f)) (f_pos f + length bs).

Definition f_read (f : file) (n : nat) : outcome (list cell * file) :=
  if length (f_data f) <? f_pos f + n then Fail OutOfRange
  else Ok (slice (f_pos f) n (f_data f), mkFile (f_data f) (f_pos f + n)).

Definition f_seek (f : file) (v : nat) : file := mkFile (f_data f) v.

(** The abstraction function of the refinement. *)
Definition abs (ba : ByteArray) : file := mkFile (view ba) (m_position ba).

(** Fields that no transfer changes. *)
Definition same_shape (ba ba' : ByteArray) : Prop :=
  m_baseSize ba' = m_baseSize ba /\ m_endian ba' = m_endian ba.

(** Overwriting the chain at the cursor overwrites the visible data. *)
Lemma view_overwrite ba bs :
  inv ba -> m_position ba + length bs <= m_capacity ba ->
  take (Nat.max (m_size ba) (m_position ba + length bs))
       (overwrite (m_position ba) bs (contents ba))
  = overwrite (m_position ba) bs (view ba).
Proof.
  intros Hinv Hle. pose proof (length_contents ba Hinv) as Hl.
  destruct Hinv as [_ _ _ _ Hpos Hsz _].
  rewrite take_overwrite_ge by lia. unfold view, overwrite.
  rewrite !take_take, !skipn_firstn_comm, !Nat.min_l by lia.
  destruct (Nat.le_ge_cases (m_position ba + length bs) (m_size ba)).
  - by rewrite Nat.max_l by lia.
  - rewrite Nat.max_r by lia.
    by replace (m_size ba - (m_position ba + length bs)) with 0 by lia; rewrite Nat.sub_diag.
Qed.

Lemma write_spec ba bs :
  inv ba -> exists ba', write ba bs = Ok ba' /\ inv ba' /\ same_shape ba ba'
    /\ abs ba' = f_write (abs ba) bs.
Proof.
  intros Hinv. unfold write. destruct (length bs =? 0) eqn:E; to_props.
  { exists ba. split_and!; try done. destruct bs; [| done]. unfold f_write, abs; simpl.
    by rewrite overwrite_nil, Nat.add_0_r. }
  destruct (addCapacity_spec ba (length bs) Hinv) as (b1 & -> & Hi1 & Hext & Hcap).
  rewrite bind_Ok. pose proof Hi1 as [Hb Hwf Hr Hc1 Hp1 Hs1 Hcur]. pose proof Hext as [Hb1 Hpos1 Hsz1 He1 _].
  unfold umod. rewrite (proj2 (Nat.eqb_neq (m_baseSize b1) 0)) by lia. rewrite bind_Ok.
  destruct (cursor_split (m_baseSize b1) Hb (length (m_root b1)) (m_position b1))
    as (i & off & Hc & Hlt & Hoff & Hmod & Hp); [lia |].
  rewrite Hmod, Hcur, Hc. destruct (deref_wf (m_baseSize b1) b1 i Hwf Hlt) as (n & _ & -> & Hs & _).
  rewrite bind_Ok, Hs.
  destruct (write_loop_spec (m_baseSize b1) Hb (S (length (m_root b1))) b1 bs (length bs) off i 0)
    as (ns & -> & Hwf' & Hlen & Hflat); try done; try lia; [by rewrite Hcur |].
  rewrite bind_Ok. eexists; split; [done |].
  assert (Hview : take (Nat.max (m_size b1) (m_position b1 + length bs)) (flat ns)
                  = overwrite (m_position ba) bs (view ba)).
  { rewrite Hflat, <- Hpos1, <- (extends_view ba b1) by done.
    replace (slice 0 (length bs) bs) with bs by (symmetry; apply firstn_all).
    by apply view_overwrite; [| lia]. }
  unfold grow_size. ba_simpl.
  destruct (m_size b1 <? m_position b1 + length bs) eqn:E2; to_props.
  - rewrite Nat.max_r in Hview by lia. split_and!.
    + constructor; ba_simpl; rewrite ?Hlen; try done; lia.
    + split; ba_simpl; congruence.
    + unfold abs, f_write, view, contents; ba_simpl. by rewrite Hview, Hpos1.
  - rewrite Nat.max_l in Hview by lia. split_and!.
    + constructor; ba_simpl; rewrite ?Hlen; try done; lia.
    + split; ba_simpl; congruence.
    + unfold abs, f_write, view, contents; ba_simpl. by rewrite Hview, Hpos1.
Qed.

Lemma read_spec ba n :
  inv ba -> 0 < n \/ m_position ba < m_capacity ba ->
  match f_read (abs ba) n with
  | Ok (bs, f) => exists ba', read ba n = Ok (bs, ba') /\ inv ba' /\ same_shape ba ba'
      /\ m_capacity ba' = m_capacity ba /\ abs ba' = f
  | Fail e => read ba n = Fail e
  end.
Proof.
  intros Hinv Hn. pose proof Hinv as [Hb Hwf Hr Hcap Hpos Hsz Hcur].
  unfold f_read, read, getReadSize. cbn [f_data f_pos abs]. rewrite length_view by done.
  destruct (m_size ba <? m_position ba + n) eqn:E; to_props.
  { by rewrite (proj2 (Nat.ltb_lt _ _)) by lia. }
  rewrite (proj2 (Nat.ltb_ge _ _)) by lia. unfold umod.
  rewrite (proj2 (Nat.eqb_neq (m_baseSize ba) 0)) by lia. rewrite bind_Ok.
  destruct (cursor_split (m_baseSize ba) Hb (length (m_root ba)) (m_position ba))
    as (i & off & Hc & Hlt & Hoff & Hmod & Hp); [lia |].
  rewrite Hmod, Hcur, Hc. destruct (deref_wf (m_baseSize ba) ba i Hwf Hlt) as (nd & _ & -> & Hs & _).
  rewrite bind_Ok, Hs. destruct (decide (n = 0)) as [-> | Hnz].
  { exists ba. split_and!; try done. unfold abs. by rewrite Nat.add_0_r. }
  rewrite (read_loop_spec (m_baseSize ba) Hb _ ba [] n off i) by (done || lia || by rewrite Hcur).
  eexists; split.
  { unfold view, contents. by rewrite slice_take by lia. }
  split_and!; done.
Qed.

End BA.
