(* ===== verification/ByteArrayViews.v ===== *)
(** Positioning, views and file transfers of [ByteArray]: [setPosition],
    [clear], [toString], the iovec arrays handed to the socket layer and the
    file operations, each related to the flat specification of [ByteArray.v],
    and the inputs on which the position-taking overloads go wrong. *)

From S2P Require Import Prelude ByteArray.
Import BA.

Module Views.

(** What the socket layer does with write buffers: [recvmsg] fills them in
    order with the received bytes. *)
Fixpoint scatter (ba : ByteArray) (iovs : list iovec) (bs : list cell) : outcome ByteArray :=
  match iovs with
  | [] => Ok ba
  | iov :: iovs =>
      ba ← memcpy_to ba (iov_node iov) (iov_off iov) (take (iov_len iov) bs);
      scatter ba iovs (drop (iov_len iov) bs)
  end.

(** [SocketStream::read(ByteArray::ptr, size_t)] once [recv] has delivered
    [bs]: fill the write buffers, then advance the position. *)
Definition recv_into (ba : ByteArray) (len : nat) (bs : list cell) : outcome ByteArray :=
  '(_, iovs, ba) ← getWriteBuffers ba len;
  ba ← scatter ba iovs bs;
  setPosition ba (m_position ba + length bs).

(** [SocketStream::write(ByteArray::ptr, size_t)]: what is offered to [send], and
    the buffer after it took [rt] bytes. *)
Definition send_from (ba : ByteArray) (len rt : nat) : outcome (list cell * ByteArray) :=
  '(_, iovs) ← getReadBuffers ba len;
  if 0 <? rt then ba' ← setPosition ba (m_position ba + rt); Ok (gather ba iovs, ba')
  else Ok (gather ba iovs, ba).

Section seek.
Context (base : nat) (Hbase : 0 < base).

Lemma seek_loop_spec fuel ba v i :
  Forall (wf_node base) (m_root ba) -> m_cur ba = Some i -> i < length (m_root ba) ->
  base * i + v <= base * length (m_root ba) -> length (m_root ba) <= i + S fuel ->
  exists j v', seek_loop fuel ba v = Ok (v', set_cur ba (Some j))
    /\ j < length (m_root ba) /\ v' <= base /\ base * j + v' = base * i + v.
Proof.
  revert ba v i; induction fuel as [|fuel IH]; intros ba v i Hwf Hcur Hi Hv Hf;
    destruct (deref_wf base ba i Hwf Hi) as (n & _ & Hd & Hs & _);
    cbn [seek_loop]; rewrite Hcur, Hd, bind_Ok, Hs;
    destruct (base <? v) eqn:E; to_props; try nia.
  - exists i, v. rewrite <- Hcur. split_and!; try lia. by destruct ba.
  - rewrite (next_wf base) by done. rewrite bind_Ok, cursor_next by done.
    rewrite (proj2 (Nat.ltb_lt _ _)) by nia.
    destruct (IH (set_cur ba (Some (S i))) (v - base) (S i)) as (j & v' & Hr & Hj & Hv' & Heq);
      ba_simpl; try done; try lia; [nia |].
    exists j, v'. split_and!; try done; lia.
  - exists i, v. rewrite <- Hcur. split_and!; try lia. by destruct ba.
Qed.

End seek.

Lemma setPosition_spec ba v :
  inv ba -> v <= m_capacity ba ->
  exists ba', setPosition ba v = Ok ba' /\ inv ba' /\ same_shape ba ba'
    /\ m_position ba' = v /\ m_size ba' = Nat.max (m_size ba) v
    /\ m_root ba' = m_root ba /\ m_capacity ba' = m_capacity ba.
Proof.
  intros [Hb Hwf Hr Hcap Hpos Hsz Hcur] Hv. unfold setPosition.
  rewrite (proj2 (Nat.ltb_ge _ _)) by lia.
  set (b1 := set_cur (grow_size (set_position ba v)) (Some 0)).
  assert (Hb1 : m_baseSize b1 = m_baseSize ba /\ m_position b1 = v /\ m_capacity b1 = m_capacity ba
    /\ m_size b1 = Nat.max (m_size ba) v /\ m_endian b1 = m_endian ba /\ m_root b1 = m_root ba
    /\ m_cur b1 = Some 0).
  { subst b1. unfold grow_size; ba_simpl. destruct (m_size ba <? v) eqn:E; to_props;
      ba_simpl; split_and!; try done; lia. }
  destruct Hb1 as (E1 & E2 & E3 & E4 & E5 & E6 & E7). clearbody b1.
  destruct (seek_loop_spec (m_baseSize ba) Hb (length (m_root b1)) b1 v 0)
    as (j & v' & -> & Hj & Hv' & Heq); rewrite ?E6; try done; try lia.
  rewrite bind_Ok. cbn [m_cur set_cur].
  destruct (deref_wf (m_baseSize ba) (set_cur b1 (Some j)) j) as (n & _ & -> & Hs & _);
    [by rewrite <- E6 in Hwf | by rewrite E6 in Hj; ba_simpl; rewrite E6 |].
  rewrite bind_Ok, Hs. rewrite E6 in Hj.
  assert (Hc : exists c, (if v' =? m_baseSize ba then nx ← next (set_cur b1 (Some j)) (Some j);
      Ok (set_cur (set_cur b1 (Some j)) nx) else Ok (set_cur b1 (Some j))) = Ok (set_cur b1 c)
      /\ c = cursor (m_baseSize ba) (length (m_root ba)) v).
  { destruct (v' =? m_baseSize ba) eqn:E; to_props.
    - rewrite (next_wf (m_baseSize ba) Hb) by (ba_simpl; rewrite E6; lia). eexists; split; [done |].
      ba_simpl. rewrite E6. f_equal. lia.
    - eexists; split; [done |]. replace v with (m_baseSize ba * j + v') by lia.
      by rewrite cursor_at by lia. }
  destruct Hc as (c & -> & ->). eexists; split; [done |].
  split; [constructor; ba_simpl; rewrite ?E1, ?E2, ?E3, ?E4, ?E6; try done; lia |].
  unfold same_shape; split_and!; ba_simpl; congruence.
Qed.

Lemma contents_root ba ba' : m_root ba' = m_root ba -> contents ba' = contents ba.
Proof. unfold contents. by intros ->. Qed.

Lemma seek_spec ba v :
  inv ba -> v <= m_size ba ->
  exists ba', setPosition ba v = Ok ba' /\ inv ba' /\ same_shape ba ba'
    /\ abs ba' = f_seek (abs ba) v.
Proof.
  intros Hinv Hv. pose proof (inv_size _ Hinv).
  destruct (setPosition_spec ba v Hinv) as (ba' & He & Hi & Hs & Hp & Hsz & Hr & _); [lia |].
  exists ba'. split_and!; try done. unfold abs, f_seek, view; simpl.
  by rewrite Hsz, Hp, Nat.max_l, (contents_root ba) by done.
Qed.

Lemma setPosition_out_of_range ba v :
  m_capacity ba < v -> setPosition ba v = Fail OutOfRange.
Proof. intros. unfold setPosition. by rewrite (proj2 (Nat.ltb_lt _ _)). Qed.

Lemma clear_inv ba : inv ba -> inv (clear ba).
Proof.
  intros [Hb Hwf Hr Hcap Hpos Hsz Hcur]. unfold clear.
  assert (Hl : length (take 1 (m_root ba)) = 1) by (rewrite length_take; lia).
  constructor; ba_simpl; rewrite ?Hl; try lia.
  - by apply Forall_take.
  - unfold cursor. rewrite (proj2 (Nat.ltb_lt _ _)) by lia. by rewrite Nat.Div0.div_0_l.
Qed.

Lemma clear_abs ba : inv ba -> abs (clear ba) = mkFile [] 0 /\ same_shape ba (clear ba).
Proof. done. Qed.

Lemma new_inv base : 0 < base -> inv (new_ByteArray base).
Proof.
  intros. constructor; simpl; try lia.
  - repeat constructor. apply length_replicate.
  - unfold cursor. rewrite (proj2 (Nat.ltb_lt _ _)) by lia. by rewrite Nat.Div0.div_0_l.
Qed.

Section scan.
Context (base : nat) (Hbase : 0 < base).

Lemma read_at_loop_spec fuel ba out sz npos i :
  Forall (wf_node base) (m_root ba) -> i < length (m_root ba) -> npos < base ->
  base * i + npos + sz <= base * length (m_root ba) ->
  length (m_root ba) - i <= fuel -> 0 < sz ->
  read_at_loop fuel ba (Some i) out sz npos (base - npos)
  = Ok (out ++ slice (base * i + npos) sz (contents ba)).
Proof.
  revert out sz npos i; induction fuel as [|fuel IH];
    intros out sz npos i Hwf Hi Hnpos Hcap Hfuel Hsz; [lia |].
  cbn [read_at_loop]. rewrite (proj2 (Nat.eqb_neq sz 0)) by lia.
  destruct (deref_wf base ba i Hwf Hi) as (n & _ & Hd & Hs & _).
  destruct (sz <=? base - npos) eqn:E; to_props;
    rewrite (memcpy_from_wf base Hbase), bind_Ok by (done || lia).
  - rewrite Hd, bind_Ok, Hs.
    destruct (base =? npos + sz); [rewrite (next_wf base Hbase) by done |];
      destruct fuel; reflexivity.
  - assert (HSi : S i < length (m_root ba)) by nia.
    rewrite (next_wf base Hbase), bind_Ok, cursor_next by done.
    rewrite (proj2 (Nat.ltb_lt _ _)) by done.
    destruct (deref_wf base ba (S i) Hwf HSi) as (n' & _ & -> & Hs' & _). rewrite bind_Ok, Hs'.
    pose proof (IH (out ++ slice (base * i + npos) (base - npos) (flat (m_root ba)))
      (sz - (base - npos)) 0 (S i)) as Hr.
    rewrite Nat.sub_0_r in Hr. rewrite Hr by (done || lia). unfold contents.
    rewrite <- app_assoc. replace (base * S i + 0) with (base * i + npos + (base - npos)) by lia.
    rewrite <- slice_app_split. by replace (base - npos + (sz - (base - npos))) with sz by lia.
Qed.

(** [iovs] denotes the [len] consecutive bytes from [pos], each piece inside a
    node of a chain of [n] nodes. *)
Fixpoint contig (n pos : nat) (iovs : list iovec) (len : nat) : Prop :=
  match iovs with
  | [] => len = 0
  | iov :: iovs => exists i, iov_node iov = Some i /\ i < n /\ iov_off iov + iov_len iov <= base
      /\ base * i + iov_off iov = pos /\ iov_len iov <= len
      /\ contig n (pos + iov_len iov) iovs (len - iov_len iov)
  end.

Lemma gather_contig ba n pos iovs len :
  m_baseSize ba = base -> contig n pos iovs len -> gather ba iovs = slice pos len (contents ba).
Proof.
  intros Hb. revert pos len; induction iovs as [|iov iovs IH]; intros pos len; simpl.
  - by intros ->.
  - intros (i & Hnode & _ & _ & <- & Hle & Hc).
    change (gather ba (iov :: iovs)) with (iov_bytes ba iov ++ gather ba iovs).
    rewrite (IH _ _ Hc). unfold iov_bytes. rewrite Hnode, Hb, <- slice_app_split.
    by replace (iov_len iov + (len - iov_len iov)) with len by lia.
Qed.

Lemma scatter_contig ba pos iovs len bs :
  Forall (wf_node base) (m_root ba) -> contig (length (m_root ba)) pos iovs len ->
  length bs <= len -> pos <= base * length (m_root ba) ->
  exists ns, scatter ba iovs bs = Ok (set_root ba ns) /\ Forall (wf_node base) ns
    /\ length ns = length (m_root ba) /\ flat ns = overwrite pos bs (flat (m_root ba)).
Proof.
  revert ba pos len bs; induction iovs as [|iov iovs IH]; intros ba pos len bs Hwf; simpl.
  - intros -> Hlen _. exists (m_root ba). destruct bs; [| simpl in Hlen; lia].
    rewrite overwrite_nil. split_and!; try done. by destruct ba.
  - intros (i & -> & Hi & Hoff & <- & Hle & Hc) Hlen Hpos.
    destruct (memcpy_to_wf base Hbase ba i (iov_off iov) (take (iov_len iov) bs))
      as (ns & -> & Hwf' & Hl & Hf); [done | done | rewrite length_take; lia |].
    rewrite bind_Ok.
    destruct (IH (set_root ba ns) (base * i + iov_off iov + iov_len iov) (len - iov_len iov)
                 (drop (iov_len iov) bs)) as (ns' & -> & Hwf'' & Hl' & Hf');
      ba_simpl; rewrite ?Hl; try done; [rewrite length_drop; lia | nia |].
    exists ns'. split_and!; try done; [lia |]. rewrite Hf', Hf.
    destruct (Nat.le_gt_cases (iov_len iov) (length bs)) as [Hb | Hb].
    + rewrite <- (take_drop (iov_len iov) bs) at 3.
      rewrite <- overwrite_overwrite_app by (rewrite (length_flat base) by done; lia).
      rewrite length_take. do 2 f_equal. lia.
    + rewrite drop_ge, take_ge by lia. by rewrite overwrite_nil.
Qed.

Lemma iov_loop_spec fuel ba bufs len npos i :
  m_baseSize ba = base ->
  Forall (wf_node base) (m_root ba) -> i < length (m_root ba) -> npos < base ->
  base * i + npos + len <= base * length (m_root ba) ->
  length (m_root ba) - i <= fuel -> 0 < len ->
  exists iovs, iov_loop fuel ba (Some i) bufs len npos (base - npos) = Ok (bufs ++ iovs)
    /\ contig (length (m_root ba)) (base * i + npos) iovs len.
Proof.
  intros Hb. revert bufs len npos i; induction fuel as [|fuel IH];
    intros bufs len npos i Hwf Hi Hnpos Hcap Hfuel Hlen; [lia |].
  cbn [iov_loop]. rewrite (proj2 (Nat.eqb_neq len 0)) by lia.
  destruct (len <=? base - npos) eqn:E; to_props.
  - exists [mkIovec (Some i) npos len]. split; [destruct fuel; reflexivity |].
    exists i; simpl. split_and!; try done; lia.
  - assert (HSi : S i < length (m_root ba)) by nia.
    rewrite (next_wf base Hbase), bind_Ok, cursor_next by done.
    rewrite (proj2 (Nat.ltb_lt _ _)) by done.
    destruct (deref_wf base ba (S i) Hwf HSi) as (n' & _ & -> & Hs' & _). rewrite bind_Ok, Hs'.
    destruct (IH (bufs ++ [mkIovec (Some i) npos (base - npos)]) (len - (base - npos)) 0 (S i))
      as (iovs & Hr & Hok); try done; try lia.
    rewrite Nat.sub_0_r in Hr. rewrite Hr.
    exists (mkIovec (Some i) npos (base - npos) :: iovs). split; [by rewrite <- app_assoc |].
    exists i; simpl. split_and!; try done; try lia.
    by replace (base * i + npos + (base - npos)) with (base * S i + 0) by lia.
Qed.

Lemma skip_nodes_spec count ba i :
  i + count < length (m_root ba) -> skip_nodes count ba (Some i) = Ok (Some (i + count)).
Proof.
  revert i; induction count as [|count IH]; intros i Hi; simpl.
  - by rewrite Nat.add_0_r.
  - rewrite (next_wf base Hbase), bind_Ok, cursor_next by lia.
    rewrite (proj2 (Nat.ltb_lt _ _)), IH by lia. do 2 f_equal. lia.
Qed.

(** The loop of [writeToFile] from the start of a node. *)
Lemma file_loop_spec fuel ba out i rd :
  m_baseSize ba = base -> Forall (wf_node base) (m_root ba) ->
  base * i + rd <= base * length (m_root ba) -> length (m_root ba) < i + fuel ->
  file_loop fuel ba (cursor base (length (m_root ba)) (base * i)) out (Z.of_nat rd) (Z.of_nat (base * i))
  = Ok (out ++ slice (base * i) rd (contents ba)).
Proof.
  intros Hb Hwf. revert out i rd; induction fuel as [|fuel IH]; intros out i rd Hle Hf; [nia |].
  cbn [file_loop]. destruct (Z.of_nat rd <=? 0)%Z eqn:E; to_props.
  { assert (rd = 0) as -> by lia. by rewrite app_nil_r. }
  rewrite Nat2Z.id. unfold umod. rewrite Hb, (proj2 (Nat.eqb_neq base 0)), bind_Ok by lia.
  rewrite Nat.mul_comm, Nat.Div0.mod_mul, (Nat.mul_comm i).
  assert (Hi : i < length (m_root ba)) by nia.
  assert (Hc : cursor base (length (m_root ba)) (base * i) = Some i)
    by (rewrite <- (Nat.add_0_r (base * i)); by apply cursor_at).
  rewrite Hc. set (k := Nat.min base rd).
  assert (Hk : ((if Z.of_nat base <? Z.of_nat rd then Z.of_nat base else Z.of_nat rd) - Z.of_nat 0
    = Z.of_nat k)%Z) by (subst k; destruct (Z.ltb_spec (Z.of_nat base) (Z.of_nat rd)); lia).
  rewrite Hk, Nat2Z.id, (memcpy_from_wf base Hbase), bind_Ok by (done || lia).
  rewrite (next_wf base Hbase), bind_Ok by done.
  rewrite <- Nat2Z.inj_sub, <- Nat2Z.inj_add by lia. rewrite !Nat.add_0_r.
  destruct (Nat.le_gt_cases base rd).
  - assert (k = base) as -> by lia. replace (base * i + base) with (base * S i) by lia.
    rewrite IH by (nia || lia). rewrite <- app_assoc.
    replace (base * S i) with (base * i + base) by lia. unfold contents.
    rewrite <- slice_app_split. by replace (base + (rd - base)) with rd by lia.
  - assert (k = rd) as -> by lia. rewrite Nat.sub_diag. destruct fuel; reflexivity.
Qed.

End scan.

(** ** Operations against the flat specification *)

(** Split the position of a buffer into node and offset, and step through the
    [% m_baseSize] and [m_cur->size] of an operation's prologue. *)
Ltac at_cursor ba Hb Hwf Hcur :=
  let i := fresh "i" in let off := fresh "off" in let nd := fresh "nd" in
  unfold umod; rewrite (proj2 (Nat.eqb_neq (m_baseSize ba) 0)) by lia; rewrite bind_Ok;
  destruct (cursor_split (m_baseSize ba) Hb (length (m_root ba)) (m_position ba))
    as (i & off & Hc & Hlt & Hoff & Hmod & Hp); [lia |];
  rewrite Hmod, Hcur, Hc;
  destruct (deref_wf (m_baseSize ba) ba i Hwf Hlt) as (nd & _ & -> & Hnd & _);
  rewrite bind_Ok, Hnd.

Lemma read_at_here ba n :
  inv ba -> 0 < n -> m_position ba + n <= m_size ba -> (Z.of_nat (m_size ba) < 2 ^ 64)%Z ->
  read_at ba n (m_position ba) = Ok (slice (m_position ba) n (view ba)).
Proof.
  intros [Hb Hwf Hr Hcap Hpos Hsz Hcur] Hn Hle H64.
  unfold read_at, size_minus, u64. rewrite wrap_small by (unfold in_unsigned; lia).
  rewrite (proj2 (Z.ltb_ge _ _)) by lia. at_cursor ba Hb Hwf Hcur.
  rewrite (read_at_loop_spec (m_baseSize ba) Hb) by (done || lia).
  rewrite <- Hp. unfold view. by rewrite slice_take by lia.
Qed.

Lemma slice_to_end {A} pos (l : list A) : slice pos (length l - pos) l = drop pos l.
Proof. unfold slice. by rewrite take_ge by (rewrite length_drop; lia). Qed.

Lemma toString_spec ba :
  inv ba -> (Z.of_nat (m_size ba) < 2 ^ 64)%Z -> toString ba = Ok (drop (m_position ba) (view ba)).
Proof.
  intros Hinv H64. pose proof (length_view ba Hinv) as Hl. pose proof (inv_pos _ Hinv).
  unfold toString, getReadSize. destruct (m_size ba - m_position ba =? 0) eqn:E; to_props.
  - by rewrite drop_ge by lia.
  - rewrite read_at_here by (done || lia). by rewrite <- Hl, slice_to_end.
Qed.

Lemma getReadBuffers_spec ba len :
  inv ba -> exists iovs, getReadBuffers ba len = Ok (Nat.min len (getReadSize ba), iovs)
    /\ contig (m_baseSize ba) (length (m_root ba)) (m_position ba) iovs (Nat.min len (getReadSize ba)).
Proof.
  intros [Hb Hwf Hr Hcap Hpos Hsz Hcur]. unfold getReadBuffers.
  assert (Hm : (if getReadSize ba <? len then getReadSize ba else len) = Nat.min len (getReadSize ba))
    by (destruct (Nat.ltb_spec (getReadSize ba) len); lia).
  rewrite Hm. set (k := Nat.min len (getReadSize ba)) in *. unfold getReadSize in *.
  destruct (k =? 0) eqn:E; to_props.
  { exists []. by rewrite E. }
  at_cursor ba Hb Hwf Hcur.
  destruct (iov_loop_spec (m_baseSize ba) Hb (S (length (m_root ba))) ba [] k off i)
    as (iovs & -> & Hct); try done; try lia.
  exists iovs. rewrite bind_Ok, Hp. done.
Qed.

Lemma getReadBuffers_at_spec ba len position :
  inv ba -> position <= m_position ba ->
  exists iovs, getReadBuffers_at ba len position = Ok (Nat.min len (getReadSize ba), iovs)
    /\ contig (m_baseSize ba) (length (m_root ba)) position iovs (Nat.min len (getReadSize ba)).
Proof.
  intros [Hb Hwf Hr Hcap Hpos Hsz Hcur] Hle. unfold getReadBuffers_at.
  assert (Hm : (if getReadSize ba <? len then getReadSize ba else len) = Nat.min len (getReadSize ba))
    by (destruct (Nat.ltb_spec (getReadSize ba) len); lia).
  rewrite Hm. set (k := Nat.min len (getReadSize ba)) in *. unfold getReadSize in *.
  destruct (k =? 0) eqn:E; to_props.
  { exists []. by rewrite E. }
  unfold umod. rewrite (proj2 (Nat.eqb_neq (m_baseSize ba) 0)), bind_Ok by lia.
  destruct (cursor_split (m_baseSize ba) Hb (length (m_root ba)) position)
    as (i & off & Hc & Hlt & Hoff & Hmod & Hp); [lia |].
  assert (Hdiv : position / m_baseSize ba = i)
    by (rewrite Hp, Nat.mul_comm, Nat.div_add_l, Nat.div_small by lia; lia).
  rewrite Hdiv, (skip_nodes_spec (m_baseSize ba) Hb) by lia. rewrite bind_Ok, Nat.add_0_l.
  destruct (deref_wf (m_baseSize ba) ba i Hwf Hlt) as (nd & _ & -> & Hnd & _).
  rewrite bind_Ok, Hnd, Hmod.
  destruct (iov_loop_spec (m_baseSize ba) Hb (S (length (m_root ba))) ba [] k off i)
    as (iovs & -> & Hct); try done; try lia.
  exists iovs. rewrite bind_Ok, Hp. done.
Qed.

Lemma getWriteBuffers_spec ba len :
  inv ba -> exists iovs ba', getWriteBuffers ba len = Ok (len, iovs, ba')
    /\ inv ba' /\ extends ba ba' /\ m_position ba + len <= m_capacity ba'
    /\ contig (m_baseSize ba') (length (m_root ba')) (m_position ba') iovs len.
Proof.
  intros Hinv. destruct (addCapacity_spec ba len Hinv) as (b1 & Ha & Hi1 & Hext & Hcap1).
  unfold getWriteBuffers. destruct (len =? 0) eqn:E; to_props.
  { subst len. unfold addCapacity in Ha. simpl in Ha. inv_ok. by exists [], b1. }
  rewrite Ha, bind_Ok. pose proof Hi1 as [Hb Hwf Hr Hcap Hpos Hsz Hcur].
  pose proof (ext_pos _ _ Hext). at_cursor b1 Hb Hwf Hcur.
  destruct (iov_loop_spec (m_baseSize b1) Hb (S (length (m_root b1))) b1 [] len off i)
    as (iovs & -> & Hct); try done; try lia.
  exists iovs, b1. rewrite bind_Ok, Hp. simpl. rewrite <- Hp in *. done.
Qed.

Lemma recv_into_spec ba len bs :
  inv ba -> length bs <= len ->
  exists ba', recv_into ba len bs = Ok ba' /\ inv ba' /\ same_shape ba ba'
    /\ abs ba' = f_write (abs ba) bs.
Proof.
  intros Hinv Hle. unfold recv_into.
  destruct (getWriteBuffers_spec ba len Hinv) as (iovs & b1 & -> & Hi1 & Hext & Hcap1 & Hct).
  rewrite bind_Ok. pose proof Hi1 as [Hb Hwf Hr Hcap Hpos Hsz Hcur].
  pose proof Hext as [Eb Ep Es Ee _].
  destruct (scatter_contig (m_baseSize b1) Hb b1 (m_position b1) iovs len bs)
    as (ns & -> & Hwf' & Hl & Hf); try done; try lia.
  rewrite bind_Ok. ba_simpl.
  assert (Hi2 : inv (set_root b1 ns)) by (constructor; ba_simpl; rewrite ?Hl; done).
  destruct (setPosition_spec (set_root b1 ns) (m_position b1 + length bs) Hi2)
    as (b2 & -> & Hi3 & Hsh & Hp3 & Hs3 & Hr3 & _); [ba_simpl; lia |].
  ba_simpl. exists b2. split; [done |]. split; [done |]. split.
  { destruct Hsh; ba_simpl. split; congruence. }
  unfold abs, f_write; simpl. rewrite Hp3, <- Ep. f_equal.
  unfold view at 1, contents. rewrite Hs3, Hr3, Hf, <- (extends_view ba b1) by done.
  apply view_overwrite; [done | lia].
Qed.

Lemma writeToFile_aligned ba :
  inv ba -> m_position ba mod m_baseSize ba = 0 ->
  writeToFile ba = Ok (drop (m_position ba) (view ba)).
Proof.
  intros Hinv Hmod. pose proof (length_view ba Hinv) as Hl.
  pose proof Hinv as [Hb Hwf Hr Hcap Hpos Hsz Hcur].
  assert (Hp : m_position ba = m_baseSize ba * (m_position ba / m_baseSize ba))
    by (pose proof (Nat.div_mod_eq (m_position ba) (m_baseSize ba)); lia).
  unfold writeToFile. rewrite Hcur, Hp.
  rewrite (file_loop_spec (m_baseSize ba) Hb) by (done || unfold getReadSize; lia).
  rewrite <- Hp. simpl. unfold getReadSize. rewrite <- Hl at 1.
  rewrite <- (slice_take _ _ (m_size ba)) by lia. fold (view ba). by rewrite slice_to_end.
Qed.

Lemma f_write_app f bs1 bs2 :
  f_pos f <= length (f_data f) -> f_write (f_write f bs1) bs2 = f_write f (bs1 ++ bs2).
Proof.
  intros. unfold f_write; simpl. rewrite overwrite_overwrite_app by done.
  by rewrite length_app, Nat.add_assoc.
Qed.

Lemma readFromFile_spec fuel ba file :
  inv ba -> length file < fuel ->
  exists ba', readFromFile fuel ba file = Ok ba' /\ inv ba' /\ same_shape ba ba'
    /\ abs ba' = f_write (abs ba) (Some <$> file).
Proof.
  revert ba file; induction fuel as [|fuel IH]; intros ba file Hinv Hf; [lia |].
  cbn [readFromFile].
  destruct (write_spec ba (Some <$> take (m_baseSize ba) file) Hinv) as (b1 & -> & Hi1 & Hsh & Ha).
  rewrite bind_Ok. destruct (length file <? m_baseSize ba) eqn:E; to_props.
  { rewrite take_ge in Ha by lia. by exists b1. }
  pose proof (inv_base _ Hinv).
  destruct (IH b1 (drop (m_baseSize ba) file)) as (b2 & -> & Hi2 & Hsh2 & Ha2);
    [done | rewrite length_drop; lia |].
  exists b2. split; [done |]. split; [done |]. split.
  { destruct Hsh, Hsh2. split; congruence. }
  rewrite Ha2, Ha, f_write_app.
  - by rewrite <- fmap_app, take_drop.
  - simpl. rewrite length_view by done. apply (inv_pos _ Hinv).
Qed.

End Views.
