(* ===== verification/ByteArrayCodec.v ===== *)
(** The typed layer of sylar/bytearray.cc: fixed-width integers in a chosen
    byte order, varints, zigzag, floats (as bit patterns) and length-prefixed
    strings, over the storage of [ByteArray.v].  The round trips are proved once
    against the [Codec] interface, which every pair of operations instantiates. *)

From S2P Require Import Prelude Endian ByteArray ByteArrayViews.
Import BA Views.

Module Codec.

Local Open Scope Z_scope.

(** ** Byte order *)

Definition get_endian (ba : ByteArray) : outcome Z :=
  match m_endian ba with Some e => Ok e | None => Fail Indeterminate end.

Definition isLittleEndian (ba : ByteArray) : outcome bool :=
  e ← get_endian ba; Ok (e =? SYLAR_LITTLE_ENDIAN).

Definition setIsLittleEndian (ba : ByteArray) (val : bool) : ByteArray :=
  if val then set_endian ba (Some SYLAR_LITTLE_ENDIAN)
  else set_endian ba (Some SYLAR_BIG_ENDIAN).

(** Bytes used as a value must have been written. *)
Fixpoint defined (cs : list cell) : outcome (list Z) :=
  match cs with
  | [] => Ok []
  | Some b :: cs => bs ← defined cs; Ok (b :: bs)
  | None :: _ => Fail Indeterminate
  end.

Definition write_bytes (ba : ByteArray) (bs : list Z) : outcome ByteArray :=
  write ba (Some <$> bs).

Definition read_bytes (ba : ByteArray) (n : nat) : outcome (list Z * ByteArray) :=
  '(cs, ba) ← read ba n; bs ← defined cs; Ok (bs, ba).

Section typed.

(** [SYLAR_BYTE_ORDER] of the host. *)
Variable host : Z.

(** ** Fixed-width integers *)

Definition writeFint8 (ba : ByteArray) (value : Z) : outcome ByteArray :=
  write_bytes ba (mem_bytes host 1 (wrap 8 value)).

Definition writeFuint8 (ba : ByteArray) (value : Z) : outcome ByteArray :=
  write_bytes ba (mem_bytes host 1 value).

(** The body shared by [writeFint16], [writeFint32] and [writeFint64]. *)
Definition writeFint (n : nat) (ba : ByteArray) (value : Z) : outcome ByteArray :=
  e ← get_endian ba;
  let value := if negb (e =? host) then byteswap_signed n value else value in
  write_bytes ba (mem_bytes host n (wrap (8 * Z.of_nat n) value)).

(** The body shared by [writeFuint16], [writeFuint32] and [writeFuint64]. *)
Definition writeFuint (n : nat) (ba : ByteArray) (value : Z) : outcome ByteArray :=
  e ← get_endian ba;
  let value := if negb (e =? host) then byteswap n value else value in
  write_bytes ba (mem_bytes host n value).

Definition writeFint16 := writeFint 2.
Definition writeFuint16 := writeFuint 2.
Definition writeFint32 := writeFint 4.
Definition writeFuint32 := writeFuint 4.
Definition writeFint64 := writeFint 8.
Definition writeFuint64 := writeFuint 8.

Definition readFint8 (ba : ByteArray) : outcome (Z * ByteArray) :=
  '(bs, ba) ← read_bytes ba 1; Ok (to_signed 8 (mem_val host bs), ba).

Definition readFuint8 (ba : ByteArray) : outcome (Z * ByteArray) :=
  '(bs, ba) ← read_bytes ba 1; Ok (mem_val host bs, ba).

(** The [XX] macro of the fixed-width readers at an unsigned and a signed type. *)
Definition readFuint (n : nat) (ba : ByteArray) : outcome (Z * ByteArray) :=
  '(bs, ba) ← read_bytes ba n;
  e ← get_endian ba;
  let v := mem_val host bs in
  Ok (if e =? host then v else byteswap n v, ba).

Definition readFint (n : nat) (ba : ByteArray) : outcome (Z * ByteArray) :=
  '(bs, ba) ← read_bytes ba n;
  e ← get_endian ba;
  let v := to_signed (8 * Z.of_nat n) (mem_val host bs) in
  Ok (if e =? host then v else byteswap_signed n v, ba).

Definition readFint16 := readFint 2.
Definition readFuint16 := readFuint 2.
Definition readFint32 := readFint 4.
Definition readFuint32 := readFuint 4.
Definition readFint64 := readFint 8.
Definition readFuint64 := readFuint 8.

(** ** Zigzag *)

Section zigzag.
Variable ovf : overflow_policy.

(** [EncodeZigzag32] and [EncodeZigzag64]: [-v] and [v * 2] are signed
    operations; the sum in the negative branch is unsigned. *)
Definition EncodeZigzag (w v : Z) : outcome Z :=
  if v <? 0 then n ← signed_op ovf w (- v); Ok (wrap w (wrap w n * 2 - 1))
  else d ← signed_op ovf w (v * 2); Ok (wrap w d).

Definition EncodeZigzag32 := EncodeZigzag 32.
Definition EncodeZigzag64 := EncodeZigzag 64.
End zigzag.

(** [(v >> 1) ^ -(v & 1)] in the unsigned type, converted to the signed one. *)
Definition DecodeZigzag (w v : Z) : Z :=
  to_signed w (Z.lxor (Z.shiftr v 1) (wrap w (- Z.land v 1))).

Definition DecodeZigzag32 := DecodeZigzag 32.
Definition DecodeZigzag64 := DecodeZigzag 64.

(** ** Varints *)

(** The encoding loop; [room] is the number of slots left in [tmp]. *)
Fixpoint varint_loop (room : nat) (value : Z) (tmp : list Z) : outcome (list Z) :=
  match room with
  | O => Fail NullDeref
  | S room =>
      if 128 <=? value
      then varint_loop room (Z.shiftr value 7) (tmp ++ [Z.lor (Z.land value 127) 128])
      else Ok (tmp ++ [value])
  end.

Definition writeUint32 (ba : ByteArray) (value : Z) : outcome ByteArray :=
  tmp ← varint_loop 5 value []; write_bytes ba tmp.

Definition writeUint64 (ba : ByteArray) (value : Z) : outcome ByteArray :=
  tmp ← varint_loop 10 value []; write_bytes ba tmp.

Definition writeInt32 (ovf : overflow_policy) (ba : ByteArray) (value : Z) : outcome ByteArray :=
  v ← EncodeZigzag32 ovf value; writeUint32 ba v.

Definition writeInt64 (ovf : overflow_policy) (ba : ByteArray) (value : Z) : outcome ByteArray :=
  v ← EncodeZigzag64 ovf value; writeUint64 ba v.

(** The decoding loop [for(int i = 0; i < w; i += 7)]. *)
Fixpoint varint_read (fuel : nat) (w i result : Z) (ba : ByteArray) : outcome (Z * ByteArray) :=
  if i <? w then
    match fuel with
    | O => Fail OutOfFuel
    | S fuel =>
        '(b, ba) ← readFuint8 ba;
        if b <? 128 then Ok (Z.lor result (wrap w (Z.shiftl b i)), ba)
        else varint_read fuel w (i + 7) (Z.lor result (wrap w (Z.shiftl (Z.land b 127) i))) ba
    end
  else Ok (result, ba).

Definition readUint32 (ba : ByteArray) : outcome (Z * ByteArray) := varint_read 5 32 0 0 ba.
Definition readUint64 (ba : ByteArray) : outcome (Z * ByteArray) := varint_read 10 64 0 0 ba.

Definition readInt32 (ba : ByteArray) : outcome (Z * ByteArray) :=
  '(v, ba) ← readUint32 ba; Ok (DecodeZigzag32 v, ba).
Definition readInt64 (ba : ByteArray) : outcome (Z * ByteArray) :=
  '(v, ba) ← readUint64 ba; Ok (DecodeZigzag64 v, ba).

(** ** Floats, as the bit patterns [memcpy] moves *)

Definition writeFloat (ba : ByteArray) (bits : Z) : outcome ByteArray := writeFuint32 ba bits.
Definition writeDouble (ba : ByteArray) (bits : Z) : outcome ByteArray := writeFuint64 ba bits.
Definition readFloat (ba : ByteArray) : outcome (Z * ByteArray) := readFuint32 ba.
Definition readDouble (ba : ByteArray) : outcome (Z * ByteArray) := readFuint64 ba.

(** ** Strings *)

Definition slen (s : list Z) : Z := Z.of_nat (length s).

Definition writeStringF16 (ba : ByteArray) (value : list Z) : outcome ByteArray :=
  ba ← writeFuint16 ba (wrap 16 (slen value)); write_bytes ba value.
Definition writeStringF32 (ba : ByteArray) (value : list Z) : outcome ByteArray :=
  ba ← writeFuint32 ba (wrap 32 (slen value)); write_bytes ba value.
Definition writeStringF64 (ba : ByteArray) (value : list Z) : outcome ByteArray :=
  ba ← writeFuint64 ba (slen value); write_bytes ba value.
Definition writeStringVint (ba : ByteArray) (value : list Z) : outcome ByteArray :=
  ba ← writeUint64 ba (slen value); write_bytes ba value.
Definition writeStringWithoutLength (ba : ByteArray) (value : list Z) : outcome ByteArray :=
  write_bytes ba value.

Definition readStringF16 (ba : ByteArray) : outcome (list Z * ByteArray) :=
  '(len, ba) ← readFuint16 ba; read_bytes ba (Z.to_nat len).
Definition readStringF32 (ba : ByteArray) : outcome (list Z * ByteArray) :=
  '(len, ba) ← readFuint32 ba; read_bytes ba (Z.to_nat len).
Definition readStringF64 (ba : ByteArray) : outcome (list Z * ByteArray) :=
  '(len, ba) ← readFuint64 ba; read_bytes ba (Z.to_nat len).
Definition readStringVint (ba : ByteArray) : outcome (list Z * ByteArray) :=
  '(len, ba) ← readUint64 ba; read_bytes ba (Z.to_nat len).

End typed.

(** ** Hexadecimal dump: two lower-case digits and a space per byte, a newline
    before every 32nd byte but the first *)

Definition hex_digit (d : Z) : Z := if d <? 10 then 48 + d else 87 + d.

Fixpoint hex_loop (i : nat) (str : list Z) : list Z :=
  match str with
  | [] => []
  | c :: str =>
      (if ((0 <? i) && (i mod 32 =? 0))%nat then [10] else [])
      ++ [hex_digit (c / 16); hex_digit (c mod 16); 32] ++ hex_loop (S i) str
  end.

Definition toHexString (ba : ByteArray) : outcome (list Z) :=
  cs ← toString ba; str ← defined cs; Ok (hex_loop 0 str).

(** ** The codec interface *)

(** The next bytes of the buffer are [bs]. *)
Definition at_bytes (ba : ByteArray) (bs : list Z) : Prop :=
  slice (m_position ba) (length bs) (view ba) = Some <$> bs.

(** [put] appends the encoding [enc e v] of a valid value in the buffer's byte
    order [e]; [get] recovers the value from those bytes and moves past them.
    With [ordered] the buffer must have a byte order. *)
Class Codec {T : Type} (ordered : bool) (put : ByteArray -> T -> outcome ByteArray)
    (get : ByteArray -> outcome (T * ByteArray))
    (valid : T -> Prop) (enc : Z -> T -> list Z) := {
  put_enc : forall ba e v, inv ba -> (ordered = true -> m_endian ba = Some e) -> valid v ->
    exists ba', put ba v = Ok ba' /\ inv ba' /\ same_shape ba ba'
      /\ abs ba' = f_write (abs ba) (Some <$> enc e v);
  get_enc : forall ba e v, inv ba -> (ordered = true -> m_endian ba = Some e) -> valid v -> at_bytes ba (enc e v) ->
    exists ba', get ba = Ok (v, ba') /\ inv ba' /\ same_shape ba ba'
      /\ abs ba' = f_seek (abs ba) (m_position ba + length (enc e v));
}.

Lemma setIsLittleEndian_inv ba b : inv ba -> inv (setIsLittleEndian ba b).
Proof. intros []. destruct b; by constructor. Qed.

Lemma defined_fmap bs : defined (Some <$> bs) = Ok bs.
Proof. induction bs as [|b bs IH]; [done |]. csimpl. by rewrite IH. Qed.

Lemma same_shape_trans a b c : same_shape a b -> same_shape b c -> same_shape a c.
Proof. intros [] []. split; congruence. Qed.

Lemma same_shape_endian a b e : same_shape a b -> m_endian a = Some e -> m_endian b = Some e.
Proof. intros [_ ->]. done. Qed.

#[local] Hint Resolve same_shape_trans same_shape_endian : sylar.

Lemma at_bytes_size ba bs :
  inv ba -> at_bytes ba bs -> (m_position ba + length bs <= m_size ba)%nat.
Proof.
  intros Hinv H. apply (f_equal length) in H.
  unfold slice in H. rewrite length_take, length_drop, length_fmap, length_view in H by done.
  pose proof (inv_pos _ Hinv). lia.
Qed.

Lemma read_bytes_at ba bs :
  inv ba -> at_bytes ba bs -> bs <> [] ->
  exists ba', read_bytes ba (length bs) = Ok (bs, ba') /\ inv ba' /\ same_shape ba ba'
    /\ abs ba' = f_seek (abs ba) (m_position ba + length bs).
Proof.
  intros Hinv Hat Hne. pose proof (at_bytes_size ba bs Hinv Hat) as Hle.
  assert (Hpos : (0 < length bs)%nat) by (destruct bs; [done | simpl; lia]).
  pose proof (read_spec ba (length bs) Hinv (or_introl Hpos)) as Hr.
  unfold f_read in Hr. cbn [f_data f_pos abs] in Hr. rewrite length_view in Hr by done.
  rewrite (proj2 (Nat.ltb_ge _ _)) in Hr by lia.
  destruct Hr as (ba' & Hr & Hi & Hsh & _ & Ha). unfold read_bytes. rewrite Hr, bind_Ok.
  rewrite Hat, defined_fmap, bind_Ok. by exists ba'.
Qed.

(** After reading the first part, the second part is next. *)
Lemma at_bytes_app ba bs1 bs2 :
  at_bytes ba (bs1 ++ bs2) ->
  at_bytes ba bs1 /\ forall ba', abs ba' = f_seek (abs ba) (m_position ba + length bs1) -> at_bytes ba' bs2.
Proof.
  unfold at_bytes. rewrite length_app, slice_app_split, fmap_app. intros H.
  destruct (decide (length (slice (m_position ba) (length bs1) (view ba)) = length bs1)) as [Hl | Hl].
  - apply app_inj_1 in H as [H1 H2]; [| by rewrite length_fmap]. split; [done |].
    intros ba' Ha. unfold abs, f_seek in Ha. simpl in Ha. injection Ha as -> ->. done.
  - exfalso. apply (f_equal length) in H. rewrite !length_app, !length_fmap in H.
    unfold slice in *. rewrite !length_take, !length_drop in *. lia.
Qed.

Lemma write_bytes_spec ba bs :
  inv ba -> exists ba', write_bytes ba bs = Ok ba' /\ inv ba' /\ same_shape ba ba'
    /\ abs ba' = f_write (abs ba) (Some <$> bs).
Proof. apply write_spec. Qed.

(** What was just written is next after moving back. *)
Lemma at_bytes_written ba ba' ba'' bs :
  inv ba -> abs ba' = f_write (abs ba) (Some <$> bs) ->
  abs ba'' = f_seek (abs ba') (m_position ba) -> at_bytes ba'' bs.
Proof.
  intros Hinv Hw Hs. unfold at_bytes. unfold abs, f_seek, f_write in *. simpl in *.
  injection Hs as -> ->. injection Hw as -> _.
  rewrite <- (length_fmap Some bs). unfold slice, overwrite.
  assert (Hl : length (take (m_position ba) (view ba)) = m_position ba).
  { rewrite length_take, length_view by done. pose proof (inv_pos _ Hinv). lia. }
  rewrite drop_app_length' by done. apply take_app_length.
Qed.

Section roundtrip.
Context `{C : Codec T ordered put get valid enc}.

(** Moving back to where a value was put and getting it returns it, with the
    position where [put] left it. *)
Lemma codec_roundtrip ba e v :
  inv ba -> (ordered = true -> m_endian ba = Some e) -> valid v ->
  exists ba1 ba2 ba3, put ba v = Ok ba1 /\ setPosition ba1 (m_position ba) = Ok ba2
    /\ get ba2 = Ok (v, ba3) /\ inv ba3 /\ m_position ba3 = m_position ba1
    /\ m_position ba1 = (m_position ba + length (enc e v))%nat /\ view ba3 = view ba1.
Proof using C.
  intros Hinv He Hv. destruct (put_enc ba e v Hinv He Hv) as (b1 & Hp & Hi1 & Hs1 & Ha1).
  pose proof Ha1 as Ha1'. unfold abs, f_write in Ha1'. simpl in Ha1'.
  rewrite length_fmap in Ha1'. injection Ha1' as Hv1 Hp1.
  destruct (seek_spec b1 (m_position ba) Hi1) as (b2 & Hsk & Hi2 & Hs2 & Ha2).
  { pose proof (inv_pos _ Hi1). lia. }
  destruct (get_enc b2 e v Hi2) as (b3 & Hg & Hi3 & Hs3 & Ha3); eauto with sylar.
  { by apply (at_bytes_written ba b1 b2). }
  exists b1, b2, b3. unfold abs, f_seek in Ha2, Ha3. simpl in *.
  injection Ha2 as Hv2 Hp2. injection Ha3 as Hv3 Hp3.
  split_and!; try done; [lia | by rewrite Hv3, Hv2].
Qed.

End roundtrip.

Lemma order_split o1 o2 (P : Prop) : (o1 || o2 = true -> P) -> (o1 = true -> P) /\ (o2 = true -> P).
Proof. destruct o1, o2; simpl; auto. Qed.

(** Two fields one after the other. *)
#[export] Instance pair_codec `{C1 : Codec T1 o1 put1 get1 valid1 enc1} `{C2 : Codec T2 o2 put2 get2 valid2 enc2} :
  Codec (o1 || o2) (fun ba v => ba ← put1 ba (fst v); put2 ba (snd v))
        (fun ba => '(a, ba) ← get1 ba; '(b, ba) ← get2 ba; Ok ((a, b), ba))
        (fun v => valid1 (fst v) /\ valid2 (snd v))
        (fun e v => enc1 e (fst v) ++ enc2 e (snd v)).
Proof.
  split.
  - intros ba e [a b] Hinv He [Ha Hb]; simpl in *. apply order_split in He as [He1 He2].
    destruct (put_enc ba e a Hinv He1 Ha) as (b1 & -> & Hi1 & Hs1 & Hw1). rewrite bind_Ok.
    destruct (put_enc b1 e b Hi1) as (b2 & -> & Hi2 & Hs2 & Hw2); eauto with sylar.
    exists b2. rewrite Hw2, Hw1, fmap_app, f_write_app; eauto with sylar.
    simpl. rewrite length_view by done. apply (inv_pos _ Hinv).
  - intros ba e [a b] Hinv He [Ha Hb] Hat; simpl in *. apply order_split in He as [He1 He2].
    apply at_bytes_app in Hat as [Hat1 Hat2].
    destruct (get_enc ba e a Hinv He1 Ha Hat1) as (b1 & -> & Hi1 & Hs1 & Hw1). rewrite bind_Ok.
    destruct (get_enc b1 e b Hi1) as (b2 & -> & Hi2 & Hs2 & Hw2); eauto with sylar.
    rewrite bind_Ok. exists b2. do 3 (split; [eauto with sylar; done |]).
    rewrite Hw2, Hw1. unfold f_seek. simpl. rewrite length_app.
    unfold abs, f_seek in Hw1. simpl in Hw1. injection Hw1 as _ ->. f_equal. lia.
Qed.

(** ** Instances *)

Section instances.
Variable host : Z.

(** The bytes of an [n]-byte integer on the wire. *)
Definition fixed_enc (n : nat) (e v : Z) : list Z :=
  mem_bytes host n (if e =? host then v else bswap n v).

Lemma length_fixed_enc n e v : length (fixed_enc n e v) = n.
Proof. apply length_mem_bytes. Qed.

Lemma fixed_enc_ne n e v : (0 < n)%nat -> fixed_enc n e v <> [].
Proof. intros Hn H. apply (f_equal length) in H. rewrite length_fixed_enc in H. simpl in H. lia. Qed.

Lemma mem_val_fixed n e v :
  in_unsigned (8 * Z.of_nat n) v ->
  mem_val host (fixed_enc n e v) = if e =? host then v else bswap n v.
Proof. intros Hv. apply mem_val_bytes. destruct (e =? host); [done | apply bswap_range]. Qed.

#[export] Instance fuint_codec (n : nat) (Hn : (0 < n)%nat) :
  Codec true (writeFuint host n) (readFuint host n) (in_unsigned (8 * Z.of_nat n)) (fixed_enc n).
Proof.
  split.
  - intros ba e v Hinv He Hv. unfold writeFuint, get_endian. rewrite (He eq_refl), bind_Ok.
    destruct (write_bytes_spec ba (fixed_enc n e v) Hinv) as (ba' & Hw & ?).
    exists ba'. split; [| done]. rewrite <- Hw. unfold fixed_enc. by destruct (e =? host).
  - intros ba e v Hinv He Hv Hat.
    destruct (read_bytes_at ba _ Hinv Hat) as (ba' & Hr & Hi & Hs & Ha); [by apply fixed_enc_ne |].
    rewrite length_fixed_enc in Hr. exists ba'. split; [| done].
    unfold readFuint. rewrite Hr, bind_Ok. unfold get_endian.
    rewrite (same_shape_endian _ _ _ Hs (He eq_refl)), bind_Ok, mem_val_fixed by done.
    destruct (e =? host); [done |]. unfold byteswap. by rewrite bswap_involutive.
Qed.

#[export] Instance fint_codec (n : nat) (Hn : (0 < n)%nat) :
  Codec true (writeFint host n) (readFint host n) (in_signed (8 * Z.of_nat n))
        (fun e v => fixed_enc n e (wrap (8 * Z.of_nat n) v)).
Proof.
  assert (Hw0 : 0 < 8 * Z.of_nat n) by lia. split.
  - intros ba e v Hinv He Hv. unfold writeFint, get_endian. rewrite (He eq_refl), bind_Ok.
    destruct (write_bytes_spec ba (fixed_enc n e (wrap (8 * Z.of_nat n) v)) Hinv) as (ba' & Hw & ?).
    exists ba'. split; [| done]. rewrite <- Hw. unfold fixed_enc. destruct (e =? host); [done |].
    simpl. unfold byteswap_signed. rewrite wrap_to_signed by done. rewrite wrap_small; [done |].
    apply bswap_range.
  - intros ba e v Hinv He Hv Hat.
    destruct (read_bytes_at ba _ Hinv Hat) as (ba' & Hr & Hi & Hs & Ha); [by apply fixed_enc_ne |].
    rewrite length_fixed_enc in Hr. exists ba'. split; [| by rewrite length_fixed_enc in Ha |- *].
    unfold readFint. rewrite Hr, bind_Ok. unfold get_endian.
    rewrite (same_shape_endian _ _ _ Hs (He eq_refl)), bind_Ok, mem_val_fixed by (apply wrap_range; lia).
    destruct (e =? host); [by rewrite to_signed_wrap |].
    unfold byteswap_signed. rewrite wrap_to_signed by done.
    rewrite (wrap_small _ (bswap _ _)) by apply bswap_range.
    rewrite bswap_involutive by (apply wrap_range; lia). by rewrite to_signed_wrap.
Qed.

#[export] Instance u8_codec :
  Codec false (writeFuint8 host) (readFuint8 host) (in_unsigned 8) (fun _ v => mem_bytes host 1 v).
Proof.
  split.
  - intros ba e v Hinv He Hv. apply write_bytes_spec, Hinv.
  - intros ba e v Hinv He Hv Hat.
    destruct (read_bytes_at ba _ Hinv Hat) as (ba' & Hr & Hi & Hs & Ha).
    { intros H. apply (f_equal length) in H. by rewrite length_mem_bytes in H. }
    rewrite length_mem_bytes in Hr. exists ba'. split; [| done].
    unfold readFuint8. rewrite Hr, bind_Ok. by rewrite mem_val_bytes.
Qed.

#[export] Instance i8_codec :
  Codec false (writeFint8 host) (readFint8 host) (in_signed 8) (fun _ v => mem_bytes host 1 (wrap 8 v)).
Proof.
  split.
  - intros ba e v Hinv He Hv. apply write_bytes_spec, Hinv.
  - intros ba e v Hinv He Hv Hat.
    destruct (read_bytes_at ba _ Hinv Hat) as (ba' & Hr & Hi & Hs & Ha).
    { intros H. apply (f_equal length) in H. by rewrite length_mem_bytes in H. }
    rewrite length_mem_bytes in Hr. exists ba'. split; [| done].
    unfold readFint8. rewrite Hr, bind_Ok, mem_val_bytes by (apply wrap_range; lia).
    by rewrite to_signed_wrap.
Qed.

(** ** Varints *)

(** The encoding: seven bits a byte, low bits first, the top bit set on all
    bytes but the last. *)
Fixpoint varint (room : nat) (v : Z) : list Z :=
  match room with
  | O => []
  | S room => if 128 <=? v then (v mod 128 + 128) :: varint room (v / 128) else [v]
  end.

Lemma low7 v : 0 <= v -> Z.lor (Z.land v 127) 128 = v mod 128 + 128.
Proof.
  intros. change 127 with (Z.ones 7). rewrite Z.land_ones by lia. change (2 ^ 7) with 128.
  change 128 with (Z.shiftl 1 7) at 2.
  rewrite lor_shiftl_add by (try lia; apply Z.mod_pos_bound; lia). done.
Qed.

Lemma varint_loop_spec room v tmp :
  0 <= v < 2 ^ (7 * Z.of_nat room) -> (0 < room)%nat ->
  varint_loop room v tmp = Ok (tmp ++ varint room v).
Proof.
  revert v tmp; induction room as [|room IH]; intros v tmp Hv Hr; [lia |].
  cbn [varint_loop varint]. destruct (128 <=? v) eqn:E; to_props; [| done].
  rewrite Z.shiftr_div_pow2, low7 by lia. change (2 ^ 7) with 128.
  assert (Hp : 2 ^ (7 * Z.of_nat (S room)) = 128 * 2 ^ (7 * Z.of_nat room)).
  { replace (7 * Z.of_nat (S room)) with (7 + 7 * Z.of_nat room) by lia.
    by rewrite Z.pow_add_r by lia. }
  rewrite IH.
  - by rewrite <- app_assoc.
  - split; [apply Z.div_pos; lia | apply Z.div_lt_upper_bound; lia].
  - destruct room; [| lia]. change (2 ^ (7 * Z.of_nat 1)) with 128 in Hv. lia.
Qed.

Lemma length_varint room v : (length (varint room v) <= room)%nat.
Proof. revert v; induction room as [|room IH]; intros v; simpl; [lia |]. case_tests; simpl; [specialize (IH (v / 128)) |]; lia. Qed.

Lemma mem_bytes_1 v : 0 <= v < 256 -> mem_bytes host 1 v = [v].
Proof. intros. unfold mem_bytes. simpl. rewrite Z.mod_small by lia. by destruct (_ =? _). Qed.

(** One byte off the buffer. *)
Lemma readFuint8_at ba b bs :
  inv ba -> at_bytes ba (b :: bs) -> 0 <= b < 256 ->
  exists ba', readFuint8 host ba = Ok (b, ba') /\ inv ba' /\ same_shape ba ba' /\ at_bytes ba' bs
    /\ abs ba' = f_seek (abs ba) (m_position ba + 1).
Proof.
  intros Hinv Hat Hb. change (b :: bs) with ([b] ++ bs) in Hat.
  apply at_bytes_app in Hat as [Hat1 Hat2].
  destruct (read_bytes_at ba [b] Hinv Hat1) as (ba' & Hr & Hi & Hs & Ha); [done |].
  exists ba'. unfold readFuint8. simpl length in *. rewrite Hr, bind_Ok.
  split_and!; eauto. rewrite <- (mem_bytes_1 b) by done. by rewrite mem_val_bytes.
Qed.

Lemma varint_read_spec w room fuel i r v ba :
  inv ba -> at_bytes ba (varint room v) -> (room <= fuel)%nat ->
  0 <= i < w -> 0 <= r < 2 ^ i -> 0 <= v < 2 ^ (7 * Z.of_nat room) -> r + v * 2 ^ i < 2 ^ w ->
  (0 < room)%nat ->
  exists ba', varint_read host fuel w i r ba = Ok (r + v * 2 ^ i, ba') /\ inv ba' /\ same_shape ba ba'
    /\ abs ba' = f_seek (abs ba) (m_position ba + length (varint room v)).
Proof.
  revert fuel i r v ba; induction room as [|room IH];
    intros fuel i r v ba Hinv Hat Hf Hi Hr Hv Hlt Hroom; [lia |].
  destruct fuel as [|fuel]; [lia |].
  assert (H2 : 0 < 2 ^ i) by (apply Z.pow_pos_nonneg; lia).
  cbn [varint_read]. rewrite (proj2 (Z.ltb_lt i w)) by lia. cbn [varint] in *.
  destruct (128 <=? v) eqn:E; to_props.
  - pose proof (Z.mod_pos_bound v 128 ltac:(lia)) as Hm. pose proof (Z.div_mod v 128 ltac:(lia)) as Hdm.
    destruct (readFuint8_at ba _ _ Hinv Hat) as (b1 & -> & Hi1 & Hs1 & Hat1 & Ha1); [lia |].
    rewrite bind_Ok, (proj2 (Z.ltb_ge _ _)) by lia.
    assert (Hland : Z.land (v mod 128 + 128) 127 = v mod 128).
    { change 127 with (Z.ones 7). rewrite Z.land_ones by lia. change (2 ^ 7) with 128.
      rewrite <- Z.add_mod_idemp_r by lia. rewrite Z.mod_same, Z.add_0_r by lia. apply Z.mod_mod; lia. }
    assert (H7 : 2 ^ (i + 7) = 128 * 2 ^ i) by (rewrite Z.pow_add_r by lia; lia).
    assert (Hsm : v mod 128 * 2 ^ i < 2 ^ w) by nia.
    rewrite Hland, wrap_small by (rewrite Z.shiftl_mul_pow2 by lia; unfold in_unsigned; nia).
    rewrite lor_shiftl_add by lia.
    assert (Hi7 : i + 7 < w) by (apply (Z.pow_lt_mono_r_iff 2); try lia; rewrite H7; nia).
    assert (Hr7 : 0 <= r + v mod 128 * 2 ^ i < 2 ^ (i + 7)) by (rewrite H7; nia).
    assert (Hv7 : 0 <= v / 128 < 2 ^ (7 * Z.of_nat room)).
    { split; [apply Z.div_pos; lia |]. apply Z.div_lt_upper_bound; [lia |].
      replace (7 * Z.of_nat (S room)) with (7 + 7 * Z.of_nat room) in Hv by lia.
      rewrite Z.pow_add_r in Hv by lia. lia. }
    assert (Hsum : r + v mod 128 * 2 ^ i + v / 128 * 2 ^ (i + 7) = r + v * 2 ^ i) by (rewrite H7; nia).
    assert (Hroom' : (0 < room)%nat).
    { destruct room; [| lia]. change (2 ^ (7 * Z.of_nat 1)) with 128 in Hv. lia. }
    destruct (IH fuel (i + 7) (r + v mod 128 * 2 ^ i) (v / 128) b1)
      as (b2 & -> & Hi2 & Hs2 & Ha2); try done; try lia.
    exists b2. rewrite Hsum. split; [done |]. split; [done |].
    split; [by eapply same_shape_trans |].
    rewrite Ha2, Ha1. unfold f_seek. simpl. unfold abs, f_seek in Ha1. simpl in Ha1.
    injection Ha1 as _ ->. f_equal. lia.
  - destruct (readFuint8_at ba _ _ Hinv Hat) as (b1 & -> & Hi1 & Hs1 & Hat1 & Ha1); [lia |].
    rewrite bind_Ok, (proj2 (Z.ltb_lt _ _)) by lia.
    rewrite wrap_small by (rewrite Z.shiftl_mul_pow2 by lia; unfold in_unsigned; nia).
    rewrite lor_shiftl_add by lia. by exists b1.
Qed.

Lemma varint_codec_gen w room :
  w <= 7 * Z.of_nat room -> 0 < w ->
  Codec false (fun ba v => tmp ← varint_loop room v []; write_bytes ba tmp)
        (varint_read host room w 0 0) (in_unsigned w) (fun _ v => varint room v).
Proof.
  intros Hw Hw0. assert (Hle : 2 ^ w <= 2 ^ (7 * Z.of_nat room)) by (apply Z.pow_le_mono_r; lia).
  assert (Hroom : (0 < room)%nat) by lia. unfold in_unsigned. split.
  - intros ba e v Hinv He Hv. rewrite varint_loop_spec, bind_Ok by (done || lia).
    by apply write_bytes_spec.
  - intros ba e v Hinv He Hv Hat.
    destruct (varint_read_spec w room room 0 0 v ba) as (ba' & -> & Hi & Hs & Ha); try done; try lia.
    exists ba'. by rewrite Z.mul_1_r, Z.add_0_l.
Qed.

#[export] Instance uint32_codec :
  Codec false writeUint32 (readUint32 host) (in_unsigned 32) (fun _ v => varint 5 v).
Proof. apply (varint_codec_gen 32 5); lia. Qed.

#[export] Instance uint64_codec :
  Codec false writeUint64 (readUint64 host) (in_unsigned 64) (fun _ v => varint 10 v).
Proof. apply (varint_codec_gen 64 10); lia. Qed.

End instances.

(** ** Zigzag *)

(** The zigzag image of a signed value. *)
Definition zigzag (v : Z) : Z := if v <? 0 then - 2 * v - 1 else 2 * v.

Lemma zigzag_range w v : 0 < w -> in_signed w v -> in_unsigned w (zigzag v).
Proof.
  intros Hw [H1 H2]. unfold in_unsigned, zigzag. pose proof (pow2_half w Hw).
  destruct (Z.ltb_spec v 0); lia.
Qed.

Lemma EncodeZigzag_wrapv w v :
  0 < w -> in_signed w v -> EncodeZigzag Wrapv w v = Ok (zigzag v).
Proof.
  intros Hw Hv. pose proof (zigzag_range w v Hw Hv) as Hr. revert Hr.
  unfold EncodeZigzag, zigzag. destruct (v <? 0); intros Hr.
  - destruct (signed_op_wrapv w (- v) Hw) as (n & -> & Hn). rewrite bind_Ok, Hn.
    rewrite <- (wrap_small w (- 2 * v - 1)) by done. f_equal. unfold wrap.
    rewrite <- (Zminus_mod_idemp_l (- v mod 2 ^ w * 2)), Zmult_mod_idemp_l, Zminus_mod_idemp_l.
    f_equal. lia.
  - destruct (signed_op_wrapv w (v * 2) Hw) as (n & -> & Hn). rewrite bind_Ok, Hn.
    f_equal. rewrite wrap_small; [lia |]. by rewrite Z.mul_comm.
Qed.

(** Where the encoder is defined: [-v] and [v * 2] stay in the signed type, unless
    signed arithmetic wraps. *)
Definition zigzag_ok (ovf : overflow_policy) (w v : Z) : Prop :=
  in_signed w v /\ (ovf = Strict -> - 2 ^ (w - 1) < v /\ 2 * v < 2 ^ (w - 1)).

Lemma EncodeZigzag_ok ovf w v : 0 < w -> zigzag_ok ovf w v -> EncodeZigzag ovf w v = Ok (zigzag v).
Proof.
  intros Hw [Hv Ho]. destruct ovf; [| by apply EncodeZigzag_wrapv]. specialize (Ho eq_refl).
  rewrite <- (EncodeZigzag_wrapv w v Hw Hv). unfold EncodeZigzag, signed_op. destruct (Z.ltb_spec v 0).
  - replace ((- 2 ^ (w - 1) <=? - v) && (- v <? 2 ^ (w - 1))) with true; [done |]. symmetry. apply andb_true_iff. lia.
  - replace ((- 2 ^ (w - 1) <=? v * 2) && (v * 2 <? 2 ^ (w - 1))) with true; [done |]. symmetry. apply andb_true_iff. lia.
Qed.

Lemma DecodeZigzag_zigzag w v : 0 < w -> in_signed w v -> DecodeZigzag w (zigzag v) = v.
Proof.
  intros Hw Hv. pose proof Hv as [H1 H2]. pose proof (pow2_half w Hw) as Hp. unfold DecodeZigzag, zigzag.
  assert (Hland : forall x, Z.land x 1 = x mod 2) by (intros x; apply (Z.land_ones x 1); lia).
  rewrite Hland, Z.shiftr_div_pow2 by lia. change (2 ^ 1) with 2. destruct (Z.ltb_spec v 0) as [Hn | Hn].
  - assert (Hm : (- 2 * v - 1) mod 2 = 1) by (symmetry; apply (Z.mod_unique _ _ (- v - 1)); lia).
    assert (Hd : (- 2 * v - 1) / 2 = - v - 1) by (symmetry; apply (Z.div_unique _ _ _ 1); lia).
    rewrite Hm, Hd.
    assert (Hone : wrap w (- (1)) = 2 ^ w - 1) by (symmetry; apply (Z.mod_unique _ _ (-1)); lia).
    rewrite Hone, lxor_ones by lia. replace (2 ^ w - 1 - (- v - 1)) with (v + 1 * 2 ^ w) by lia.
    unfold to_signed. rewrite Z_mod_plus_full. fold (to_signed w v). by apply to_signed_small.
  - assert (Hm : (2 * v) mod 2 = 0) by (rewrite Z.mul_comm; apply Z_mod_mult).
    assert (Hd : 2 * v / 2 = v) by (rewrite Z.mul_comm; apply Z.div_mul; lia).
    rewrite Hm, Hd. rewrite (wrap_small w (- 0)) by (unfold in_unsigned; lia).
    simpl. rewrite Z.lxor_0_r. by apply to_signed_small.
Qed.

Lemma zigzag_codec_gen ovf w o put get enc :
  0 < w -> Codec o put get (in_unsigned w) enc ->
  Codec o (fun ba v => u ← EncodeZigzag ovf w v; put ba u)
        (fun ba => '(u, ba) ← get ba; Ok (DecodeZigzag w u, ba))
        (zigzag_ok ovf w) (fun e v => enc e (zigzag v)).
Proof.
  intros Hw C. split.
  - intros ba e v Hinv He Hv. rewrite EncodeZigzag_ok, bind_Ok by done. destruct Hv.
    apply put_enc; auto using zigzag_range.
  - intros ba e v Hinv He [Hv _] Hat.
    destruct (get_enc ba e (zigzag v) Hinv He (zigzag_range w v Hw Hv) Hat) as (ba' & -> & ?).
    rewrite bind_Ok, DecodeZigzag_zigzag by done. by exists ba'.
Qed.

#[export] Instance int32_codec ovf host :
  Codec false (writeInt32 ovf) (readInt32 host) (zigzag_ok ovf 32) (fun _ v => varint 5 (zigzag v)).
Proof. apply (zigzag_codec_gen ovf 32 _ _ _ _ ltac:(lia) (uint32_codec host)). Qed.

#[export] Instance int64_codec ovf host :
  Codec false (writeInt64 ovf) (readInt64 host) (zigzag_ok ovf 64) (fun _ v => varint 10 (zigzag v)).
Proof. apply (zigzag_codec_gen ovf 64 _ _ _ _ ltac:(lia) (uint64_codec host)). Qed.

(** ** Length-prefixed strings *)

(** A string whose length fits the prefix and which is not empty: reading zero
    bytes at the end of the last node dereferences a null cursor. *)
Definition str_ok (w : Z) (s : list Z) : Prop := s <> [] /\ slen s < 2 ^ w.

Lemma string_codec_gen w o put get enc :
  0 < w -> Codec o put get (in_unsigned w) enc ->
  Codec o (fun ba s => ba ← put ba (wrap w (slen s)); write_bytes ba s)
        (fun ba => '(len, ba) ← get ba; read_bytes ba (Z.to_nat len))
        (str_ok w) (fun e s => enc e (slen s) ++ s).
Proof.
  intros Hw C. split.
  - intros ba e s Hinv He [Hne Hlen]. rewrite wrap_small by (unfold in_unsigned, slen in *; lia).
    destruct (put_enc ba e (slen s) Hinv He) as (b1 & -> & Hi1 & Hs1 & Ha1).
    { unfold in_unsigned, slen in *; lia. }
    rewrite bind_Ok. destruct (write_bytes_spec b1 s Hi1) as (b2 & -> & Hi2 & Hs2 & Ha2).
    exists b2. rewrite Ha2, Ha1, fmap_app, f_write_app; eauto with sylar.
    simpl. rewrite length_view by done. apply (inv_pos _ Hinv).
  - intros ba e s Hinv He [Hne Hlen] Hat. apply at_bytes_app in Hat as [Hat1 Hat2].
    destruct (get_enc ba e (slen s) Hinv He) as (b1 & -> & Hi1 & Hs1 & Ha1); [| done |].
    { unfold in_unsigned, slen in *; lia. }
    rewrite bind_Ok. unfold slen at 1. rewrite Nat2Z.id.
    destruct (read_bytes_at b1 s Hi1) as (b2 & -> & Hi2 & Hs2 & Ha2); [by apply Hat2 | done |].
    exists b2. do 3 (split; [eauto with sylar; done |]).
    rewrite Ha2, Ha1. unfold f_seek. simpl. rewrite length_app.
    unfold abs, f_seek in Ha1. simpl in Ha1. injection Ha1 as _ ->. f_equal. lia.
Qed.

#[export] Instance stringF16_codec host :
  Codec true (writeStringF16 host) (readStringF16 host) (str_ok 16) (fun e s => fixed_enc host 2 e (slen s) ++ s).
Proof. apply (string_codec_gen 16 _ _ _ _ ltac:(lia) (fuint_codec host 2 ltac:(lia))). Qed.

#[export] Instance stringF32_codec host :
  Codec true (writeStringF32 host) (readStringF32 host) (str_ok 32) (fun e s => fixed_enc host 4 e (slen s) ++ s).
Proof. apply (string_codec_gen 32 _ _ _ _ ltac:(lia) (fuint_codec host 4 ltac:(lia))). Qed.

(** The 64-bit prefixes take [size()] as it is. *)
Lemma string64_codec_gen o put get enc :
  Codec o put get (in_unsigned 64) enc ->
  Codec o (fun ba s => ba ← put ba (slen s); write_bytes ba s)
        (fun ba => '(len, ba) ← get ba; read_bytes ba (Z.to_nat len))
        (str_ok 64) (fun e s => enc e (slen s) ++ s).
Proof.
  intros C. pose proof (string_codec_gen 64 o put get enc ltac:(lia) C) as S. split.
  - intros ba e s Hinv He Hs.
    destruct (put_enc (Codec := S) ba e s Hinv He Hs) as (ba' & Hp & ?). exists ba'. split; [| done].
    rewrite wrap_small in Hp; [done |]. destruct Hs. unfold in_unsigned, slen in *. lia.
  - apply (get_enc (Codec := S)).
Qed.

#[export] Instance stringF64_codec host :
  Codec true (writeStringF64 host) (readStringF64 host) (str_ok 64) (fun e s => fixed_enc host 8 e (slen s) ++ s).
Proof. apply (string64_codec_gen _ _ _ _ (fuint_codec host 8 ltac:(lia))). Qed.

#[export] Instance stringVint_codec host :
  Codec false writeStringVint (readStringVint host) (str_ok 64) (fun _ s => varint 10 (slen s) ++ s).
Proof. apply (string64_codec_gen _ _ _ _ (uint64_codec host)). Qed.

End Codec.
