(* ===== verification/ByteArrayProps.v ===== *)
(** What [ByteArray] guarantees its users: the chain of nodes behaves as one
    seekable file, typed values written are read back, the wire format does not
    depend on the host, and the inputs on which the code goes wrong. *)

From S2P Require Import Prelude Endian ByteArray ByteArrayViews ByteArrayCodec.
Import BA Views Codec.

(** ** Storage *)

(** C2: [ByteArray::write] refines writing a seekable file: on every
    well-formed buffer it succeeds, keeps the invariant, overwrites the visible
    bytes at the position (growing the node chain as needed) and advances the
    position by the length written, whatever node boundaries are crossed. *)
Theorem write_refines_file ba bs :
  inv ba -> exists ba', write ba bs = Ok ba' /\ inv ba' /\ same_shape ba ba'
    /\ abs ba' = f_write (abs ba) bs.
Proof. apply write_spec. Qed.

Definition demo : ByteArray := setIsLittleEndian (new_ByteArray 4) false.

Lemma demo_inv : inv demo.
Proof. apply setIsLittleEndian_inv, (new_inv 4). lia. Qed.

Lemma write_refines_file_witness :
  exists ba', write demo (Some <$> [1; 2; 3; 4; 5]%Z) = Ok ba' /\ inv ba' /\ same_shape demo ba'
    /\ abs ba' = f_write (abs demo) (Some <$> [1; 2; 3; 4; 5]%Z).
Proof. apply (write_refines_file demo). apply demo_inv. Defined.

(** C6: [ByteArray::read] refines reading a seekable file: it throws
    [std::out_of_range] exactly when fewer than [n] bytes are left, and
    otherwise returns those bytes and advances the position.  Reading zero
    bytes is covered where the cursor is not at the end of the last node. *)
Theorem read_refines_file ba n :
  inv ba -> 0 < n \/ m_position ba < m_capacity ba ->
  match f_read (abs ba) n with
  | Ok (bs, f) => exists ba', read ba n = Ok (bs, ba') /\ inv ba' /\ same_shape ba ba'
      /\ m_capacity ba' = m_capacity ba /\ abs ba' = f
  | Fail e => read ba n = Fail e
  end.
Proof. apply read_spec. Qed.

Lemma read_refines_file_witness :
  0 < 1 /\ read demo 1 = Fail OutOfRange.
Proof.
  split; [lia |]. apply (read_refines_file demo 1); [apply demo_inv | left; lia].
Defined.

(** [ByteArray::setPosition] seeks: inside the data it only moves the
    position, between the data and the capacity it also grows the data size to
    the position, and beyond the capacity it throws [std::out_of_range]; the
    cursor it leaves satisfies the invariant. *)
Theorem setPosition_seeks ba v :
  inv ba ->
  (v <= m_size ba -> exists ba', setPosition ba v = Ok ba' /\ inv ba' /\ abs ba' = f_seek (abs ba) v)
  /\ (v <= m_capacity ba -> exists ba', setPosition ba v = Ok ba' /\ inv ba' /\ m_position ba' = v
        /\ m_size ba' = Nat.max (m_size ba) v /\ contents ba' = contents ba)
  /\ (m_capacity ba < v -> setPosition ba v = Fail OutOfRange).
Proof.
  intros Hinv. split_and!.
  - intros Hv. destruct (seek_spec ba v Hinv Hv) as (ba' & ? & ? & _ & ?). by exists ba'.
  - intros Hv. destruct (setPosition_spec ba v Hinv Hv) as (ba' & ? & ? & _ & ? & ? & ? & _).
    exists ba'. do 4 (split; [done |]). by apply contents_root.
  - apply setPosition_out_of_range.
Qed.

(** [SocketStream::read] into a [ByteArray] ([getWriteBuffers], [recv] into
    the iovecs, [setPosition]) has the effect of [write] of the bytes received,
    for any number of them up to the length asked for, across node boundaries. *)
Theorem recv_into_is_write ba len bs :
  inv ba -> length bs <= len ->
  exists ba', recv_into ba len bs = Ok ba' /\ inv ba' /\ same_shape ba ba'
    /\ abs ba' = f_write (abs ba) bs.
Proof. apply recv_into_spec. Qed.

(** [SocketStream::write] from a [ByteArray] offers the next readable bytes to
    [send] and moves past those that were sent; the contents stay. *)
Theorem send_from_is_read ba len rt :
  inv ba -> rt <= Nat.min len (getReadSize ba) ->
  exists ba', send_from ba len rt = Ok (slice (m_position ba) (Nat.min len (getReadSize ba)) (view ba), ba')
    /\ inv ba' /\ m_position ba' = m_position ba + rt /\ view ba' = view ba.
Proof.
  intros Hinv Hrt. pose proof (inv_pos _ Hinv). unfold getReadSize in *. unfold send_from.
  destruct (getReadBuffers_spec ba len Hinv) as (iovs & -> & Hc). rewrite bind_Ok. unfold getReadSize in Hc.
  assert (Hg : gather ba iovs = slice (m_position ba) (Nat.min len (m_size ba - m_position ba)) (view ba)).
  { rewrite (gather_contig (m_baseSize ba) (inv_base _ Hinv) ba _ _ _ _ eq_refl Hc). unfold view. rewrite slice_take by lia. done. }
  rewrite Hg. destruct (Nat.ltb_spec 0 rt) as [Hlt|Hge]; [| exists ba; split_and!; [done | done | lia | done]].
  destruct (setPosition_spec ba (m_position ba + rt) Hinv) as (ba' & -> & Hi & _ & Hp & Hs & Hr & _); [pose proof (inv_size _ Hinv); lia |].
  rewrite bind_Ok. exists ba'. split_and!; [done | done | done |]. unfold view. rewrite Hs, (contents_root ba ba' Hr). f_equal. lia.
Qed.

(** [getReadBuffers] hands out iovecs that stay inside the nodes and denote
    exactly the next [min len getReadSize()] readable bytes, in order; the
    overload with a position does so for positions up to the cursor; and
    [toString] returns all the readable bytes without moving. *)
Theorem read_views_exact ba len pos :
  inv ba -> (Z.of_nat (m_size ba) < 2 ^ 64)%Z -> pos <= m_position ba ->
  let k := Nat.min len (getReadSize ba) in
  (exists iovs, getReadBuffers ba len = Ok (k, iovs)
     /\ gather ba iovs = slice (m_position ba) k (view ba))
  /\ (exists iovs, getReadBuffers_at ba len pos = Ok (k, iovs)
     /\ gather ba iovs = slice pos k (view ba))
  /\ toString ba = Ok (drop (m_position ba) (view ba)).
Proof.
  intros Hinv H64 Hpos k. pose proof (inv_pos _ Hinv).
  assert (Hk : m_position ba + k <= m_size ba) by (unfold k, getReadSize; lia).
  split_and!.
  - destruct (getReadBuffers_spec ba len Hinv) as (iovs & -> & Hc). exists iovs. split; [done |].
    rewrite (gather_contig (m_baseSize ba) (inv_base _ Hinv) ba _ _ _ _ eq_refl Hc). unfold view. by rewrite slice_take.
  - destruct (getReadBuffers_at_spec ba len pos Hinv Hpos) as (iovs & -> & Hc). exists iovs. split; [done |].
    rewrite (gather_contig (m_baseSize ba) (inv_base _ Hinv) ba _ _ _ _ eq_refl Hc). unfold view.
    by rewrite slice_take by (unfold k in *; lia).
  - by apply toString_spec.
Qed.

(** Saving the readable bytes with [writeToFile] from a position on a node
    boundary and loading the file with [readFromFile] into another buffer of any
    node size writes exactly those bytes there; both loops terminate. *)
Theorem file_transfer_exact ba dst bs :
  inv ba -> inv dst -> m_position ba mod m_baseSize ba = 0 ->
  drop (m_position ba) (view ba) = Some <$> bs ->
  writeToFile ba = Ok (Some <$> bs)
  /\ exists dst', readFromFile (S (length bs)) dst bs = Ok dst' /\ inv dst'
       /\ abs dst' = f_write (abs dst) (Some <$> bs).
Proof.
  intros Hinv Hdst Hal Hbs. split; [rewrite <- Hbs; by apply writeToFile_aligned |].
  destruct (readFromFile_spec (S (length bs)) dst bs Hdst) as (dst' & ? & ? & _ & ?); [lia |].
  by exists dst'.
Qed.

(** ** Typed values *)

(** C9: Fields written one after the other - a byte, a fixed 32-bit signed
    integer, an unsigned and a zigzag signed varint, a string with a 16-bit and a
    string with a varint length - are all read back in order after moving back
    to the start, on a host and in a buffer of any byte order and node size, and
    reading ends where writing ended. The strings are not empty (an empty one at
    the end of the last node is not readable, [empty_string_at_end]); the signed
    varint is one whose zigzag code is defined: without -fwrapv, which the build
    does not set, above -2^63 and below 2^62, with it any value. *)
Theorem message_roundtrip ovf host ba e b i u z s t :
  inv ba -> m_endian ba = Some e ->
  in_unsigned 8 b -> in_signed 32 i -> in_unsigned 64 u ->
  in_signed 64 z -> (ovf = Strict -> - 2 ^ 63 < z < 2 ^ 62)%Z ->
  str_ok 16 s -> str_ok 64 t ->
  exists ba1 ba2 ba3,
    (ba ← writeFuint8 host ba b; ba ← writeFint32 host ba i; ba ← writeUint64 ba u;
     ba ← writeInt64 ovf ba z; ba ← writeStringF16 host ba s; writeStringVint ba t) = Ok ba1
    /\ setPosition ba1 (m_position ba) = Ok ba2
    /\ ('(b', ba) ← readFuint8 host ba2; '(i', ba) ← readFint32 host ba; '(u', ba) ← readUint64 host ba;
        '(z', ba) ← readInt64 host ba; '(s', ba) ← readStringF16 host ba; '(t', ba) ← readStringVint host ba;
        Ok ((b', i', u', z', s', t'), ba)) = Ok ((b, i, u, z, s, t), ba3)
    /\ m_position ba3 = m_position ba1.
Proof.
  intros Hinv He Hb Hi Hu Hz Ho Hs Ht. assert (Hzz : zigzag_ok ovf 64 z) by (split; [done |]; intros E; specialize (Ho E); lia).
  pose proof (fint_codec host 4 ltac:(lia)) as Ci32.
  pose (C := pair_codec (C1 := u8_codec host) (C2 := pair_codec (C1 := Ci32)
    (C2 := pair_codec (C1 := uint64_codec host) (C2 := pair_codec (C1 := int64_codec ovf host)
    (C2 := pair_codec (C1 := stringF16_codec host) (C2 := stringVint_codec host)))))).
  destruct (codec_roundtrip (C := C) ba e (b, (i, (u, (z, (s, t))))) Hinv (fun _ => He))
    as (b1 & b2 & b3 & Hp & Hsk & Hg & _ & Hpos & _); [by simpl |].
  exists b1, b2, b3. split; [exact Hp |]. split; [exact Hsk |]. split; [| exact Hpos].
  clear Hp Hsk. cbv beta in Hg.
  repeat match goal with
  | H : (_ ≫= _) = Ok _ |- _ => apply bind_Ok_inv in H as ([? ?] & ? & H); cbv beta in *
  end; simplify_eq.
  unfold readFint32.
  by repeat match goal with H : _ = Ok _ |- _ => rewrite H, bind_Ok; clear H end.
Qed.

Lemma message_roundtrip_witness :
  exists ba1 ba2 ba3,
    (ba ← writeFuint8 1 demo 200; ba ← writeFint32 1 ba (-7); ba ← writeUint64 ba 300;
     ba ← writeInt64 Strict ba (-9); ba ← writeStringF16 1 ba [104; 105]%Z; writeStringVint ba [111]%Z) = Ok ba1
    /\ setPosition ba1 (m_position demo) = Ok ba2
    /\ ('(b', ba) ← readFuint8 1 ba2; '(i', ba) ← readFint32 1 ba; '(u', ba) ← readUint64 1 ba;
        '(z', ba) ← readInt64 1 ba; '(s', ba) ← readStringF16 1 ba; '(t', ba) ← readStringVint 1 ba;
        Ok ((b', i', u', z', s', t'), ba)) = Ok ((200, -7, 300, -9, [104; 105], [111])%Z, ba3)
    /\ m_position ba3 = m_position ba1.
Proof.
  apply (message_roundtrip Strict 1 demo SYLAR_BIG_ENDIAN);
    [apply demo_inv | reflexivity | | | | | | |];
    unfold in_unsigned, in_signed, str_ok, slen; simpl; try lia; split; try done; lia.
Defined.

(** The wire format of fixed-width integers does not depend on the host: a
    buffer set to little (big) endian receives the least (most) significant byte
    first, for unsigned values and for the two's complement of signed ones. *)
Theorem fixed_wire_format host ba (little : bool) n u s :
  inv ba -> (host = SYLAR_LITTLE_ENDIAN \/ host = SYLAR_BIG_ENDIAN) -> 0 < n ->
  in_unsigned (8 * Z.of_nat n) u -> in_signed (8 * Z.of_nat n) s ->
  let order (v : Z) : list Z := if little then le_bytes n v else rev (le_bytes n v) in
  (exists ba', writeFuint host n (setIsLittleEndian ba little) u = Ok ba'
     /\ abs ba' = f_write (abs ba) (Some <$> order u))
  /\ (exists ba', writeFint host n (setIsLittleEndian ba little) s = Ok ba'
     /\ abs ba' = f_write (abs ba) (Some <$> order (wrap (8 * Z.of_nat n) s))).
Proof.
  intros Hinv Hhost Hn Hu Hs order.
  set (e := if little then SYLAR_LITTLE_ENDIAN else SYLAR_BIG_ENDIAN).
  assert (He : m_endian (setIsLittleEndian ba little) = Some e) by (by destruct little).
  assert (Hi : inv (setIsLittleEndian ba little)) by (by apply setIsLittleEndian_inv).
  assert (Ha : abs (setIsLittleEndian ba little) = abs ba) by (by destruct little).
  assert (Henc : forall v, fixed_enc host n e v = order v).
  { intros v. unfold fixed_enc, order, e.
    destruct Hhost as [-> | ->], little; simpl; try done;
      rewrite mem_bytes_bswap; unfold mem_bytes; simpl; rewrite ?rev_involutive; done. }
  split.
  - destruct (put_enc (Codec := fuint_codec host n Hn) _ e u Hi (fun _ => He) Hu) as (ba' & ? & _ & _ & Hw).
    exists ba'. split; [done |]. by rewrite Hw, Ha, Henc.
  - destruct (put_enc (Codec := fint_codec host n Hn) _ e s Hi (fun _ => He) Hs) as (ba' & ? & _ & _ & Hw).
    exists ba'. split; [done |]. by rewrite Hw, Ha, Henc.
Qed.

(** C40: varints never overrun their stack buffer: the encoders of 32-bit and
    64-bit values emit between 1 and 5 (10) bytes, each a byte, for every value
    of the type, and the value is the base-128 number the bytes spell. *)
Theorem varint_bounds ba u v :
  inv ba -> in_unsigned 32 u -> in_unsigned 64 v ->
  (exists ba', writeUint32 ba u = Ok ba' /\ m_position ba + 1 <= m_position ba' <= m_position ba + 5)
  /\ (exists ba', writeUint64 ba v = Ok ba' /\ m_position ba + 1 <= m_position ba' <= m_position ba + 10).
Proof.
  intros Hinv Hu Hv.
  assert (Hgen : forall room x, (0 <= x < 2 ^ (7 * Z.of_nat room))%Z -> 0 < room ->
    exists ba', (tmp ← varint_loop room x []; write_bytes ba tmp) = Ok ba'
      /\ m_position ba + 1 <= m_position ba' <= m_position ba + room).
  { intros room x Hx Hr. rewrite varint_loop_spec, bind_Ok by done. simpl.
    destruct (write_bytes_spec ba (varint room x) Hinv) as (ba' & -> & _ & _ & Ha).
    exists ba'. split; [done |]. unfold abs, f_write in Ha. simpl in Ha. injection Ha as _ ->.
    rewrite length_fmap. pose proof (length_varint room x).
    assert (0 < length (varint room x)) by (destruct room; [lia |]; simpl; case_tests; simpl; lia). lia. }
  unfold in_unsigned in *. split; [apply (Hgen 5); [| lia] | apply (Hgen 10); [| lia]];
    change (7 * Z.of_nat 5)%Z with 35%Z; change (7 * Z.of_nat 10)%Z with 70%Z; lia.
Qed.

Lemma varint_bounds_witness :
  exists ba', writeUint64 demo (2 ^ 64 - 1) = Ok ba'
    /\ m_position demo + 1 <= m_position ba' <= m_position demo + 10.
Proof.
  apply (varint_bounds demo 0 (2 ^ 64 - 1)); [apply demo_inv | |]; unfold in_unsigned; simpl; lia.
Defined.

(** The zigzag encoder of 32-bit values is undefined behaviour exactly on
    [INT32_MIN] (negation overflows) and on values of at least 2^30 (doubling
    overflows); everywhere else, and everywhere when signed arithmetic wraps, it
    returns the zigzag code, which the decoder inverts. *)
Theorem zigzag32_defined v :
  in_signed 32 v ->
  (EncodeZigzag32 Strict v
   = if decide (v = - 2 ^ 31 \/ 2 ^ 30 <= v)%Z then Fail SignedOverflow else Ok (zigzag v))
  /\ EncodeZigzag32 Wrapv v = Ok (zigzag v)
  /\ DecodeZigzag32 (zigzag v) = v.
Proof.
  intros Hv. split_and!; [| by apply EncodeZigzag_wrapv | by apply DecodeZigzag_zigzag].
  unfold EncodeZigzag32, EncodeZigzag, zigzag. unfold in_signed in Hv. simpl in Hv.
  rewrite !signed_op_strict. destruct (Z.ltb_spec v 0) as [Hn | Hn].
  - case_decide as H1; case_decide as H2; unfold in_signed in *; simpl in *; try lia; try done.
    f_equal. unfold wrap. simpl. rewrite (Z.mod_small (- v)), Z.mod_small; lia.
  - case_decide as H1; case_decide as H2; unfold in_signed in *; simpl in *; try lia; try done.
    f_equal. unfold wrap. simpl. rewrite Z.mod_small; lia.
Qed.

(** ** Where the code goes wrong *)

(** A fresh buffer has no byte order: using one before [setIsLittleEndian] reads
    an uninitialised member. *)
Theorem fresh_buffer_has_no_order host base v :
  writeFint32 host (new_ByteArray base) v = Fail Indeterminate.
Proof. reflexivity. Qed.

(** Reading an empty string whose length prefix ends the last node dereferences
    the null cursor. *)
Theorem empty_string_at_end :
  (ba ← writeStringF16 1 (setIsLittleEndian (new_ByteArray 2) true) [];
   ba ← setPosition ba 0; readStringF16 1 ba) = Fail NullDeref.
Proof. reflexivity. Qed.

(** [writeToFile] from the middle of a node writes too few bytes and then runs
    off the chain. *)
Theorem writeToFile_misaligned :
  (ba ← write_bytes (new_ByteArray 4) [1; 2; 3; 4]%Z;
   ba ← setPosition ba 2; writeToFile ba) = Fail NullDeref.
Proof. reflexivity. Qed.

(** [read(buf, size, position)] with a position in another node than the cursor
    reads the cursor's node. *)
Theorem read_at_wrong_node :
  (ba ← write_bytes (new_ByteArray 2) [1; 2; 3; 4]%Z;
   ba ← setPosition ba 0; read_at ba 1 2) = Ok [Some 1%Z].
Proof. reflexivity. Qed.

(** [getReadBuffers(buffers, len, position)] past the cursor runs off the chain. *)
Theorem getReadBuffers_at_past_cursor :
  (ba ← write_bytes (new_ByteArray 2) [1; 2; 3; 4]%Z;
   ba ← setPosition ba 0; getReadBuffers_at ba 4 2) = Fail NullDeref.
Proof. reflexivity. Qed.
