(* ===== verification/StreamFix.v ===== *)
(** Transfers of a fixed size between a stream and a [ByteArray], the overloads of
    [readFixSize] and [writeFixSize] in stream.cc, over the socket stream's
    [read] and [write]. *)

From S2P Require Import Prelude ByteArray ByteArrayViews ByteArrayCodec ByteArrayProps.
Import BA Views Codec.

Module Sf.

Local Open Scope Z_scope.

(** [SocketStream::read(ba, left)]: [None] is -1, otherwise the bytes received. The
    result is kept in a [size_t]. *)
Definition read_ba (ba : ByteArray) (left : Z) (answer : option (list cell)) : outcome (Z * ByteArray) :=
  match answer with
  | Some (b :: bs) => ba ← recv_into ba (Z.to_nat left) (b :: bs); Ok (Z.of_nat (length (b :: bs)), ba)
  | Some [] => '(_, _, ba) ← getWriteBuffers ba (Z.to_nat left); Ok (0, ba)
  | None => '(_, _, ba) ← getWriteBuffers ba (Z.to_nat left); Ok (u64 (-1), ba)
  end.

(** The loop: [None] while it waits for another answer. *)
Fixpoint readFixSize_ba (ba : ByteArray) (len left : Z) (answers : list (option (list cell))) : outcome (option (Z * ByteArray)) :=
  if left =? 0 then Ok (Some (i32 len, ba)) else
  match answers with
  | [] => Ok None
  | a :: answers =>
      '(n, ba) ← read_ba ba left a;
      if n =? 0 then Ok (Some (0, ba)) else readFixSize_ba ba len (u64 (left - n)) answers
  end.

(** [SocketStream::write(ba, left)]: the bytes offered, and how many were taken,
    or -1. *)
Definition write_ba (ba : ByteArray) (left rt : Z) : outcome (Z * list cell * ByteArray) :=
  '(bs, ba) ← send_from ba (Z.to_nat left) (Z.to_nat rt);
  Ok (u64 rt, take (Z.to_nat rt) bs, ba).

Fixpoint writeFixSize_ba (ba : ByteArray) (len left : Z) (answers : list Z) (sent : list cell) : outcome (option (Z * list cell * ByteArray)) :=
  if left =? 0 then Ok (Some (i32 len, sent, ba)) else
  match answers with
  | [] => Ok None
  | rt :: answers =>
      '(n, bs, ba) ← write_ba ba left rt;
      if n =? 0 then Ok (Some (0, sent ++ bs, ba)) else writeFixSize_ba ba len (u64 (left - n)) answers (sent ++ bs)
  end.

(** However the network cuts the bytes, reading a fixed size writes all of them
    into the buffer. *)
Theorem read_fix_size_exact pieces : forall ba len left,
  inv ba -> 0 <= left < 2 ^ 31 -> Forall (fun p => p <> []) pieces -> Z.of_nat (length (mjoin pieces)) = left ->
  exists ba', readFixSize_ba ba len left (Some <$> pieces) = Ok (Some (i32 len, ba')) /\ inv ba' /\ abs ba' = f_write (abs ba) (mjoin pieces).
Proof.
  induction pieces as [| p pieces IH]; intros ba len left Hi Hl Hp Hs; cbn [readFixSize_ba fmap list_fmap].
  - cbn in Hs. subst left. cbn. exists ba. split_and!; [done | done |].
    destruct (write_spec ba [] Hi) as (ba' & E & _ & _ & Ha). cbn in E. injection E as <-. exact Ha.
  - apply Forall_cons in Hp as [Hne Hp]. destruct p as [| b p]; [done |]. change (mjoin ((b :: p) :: pieces)) with ((b :: p) ++ mjoin pieces) in *.
    rewrite length_app in Hs. cbn [length] in Hs. destruct (Z.eqb_spec left 0) as [-> |]; [lia |]. cbn [read_ba].
    destruct (recv_into_spec ba (Z.to_nat left) (b :: p) Hi) as (b1 & -> & Hi1 & _ & Ha1); [cbn [length]; lia |]. rewrite !bind_Ok.
    destruct (Z.eqb_spec (Z.of_nat (length (b :: p))) 0) as [E|_]; [cbn [length] in E; lia |].
    assert (Eu : u64 (left - Z.of_nat (length (b :: p))) = Z.of_nat (length (mjoin pieces))).
    { unfold u64, wrap. cbn [length] in *. rewrite Z.mod_small; lia. }
    rewrite Eu. destruct (IH b1 len (Z.of_nat (length (mjoin pieces))) Hi1) as (b2 & -> & Hi2 & Ha2); [lia | done | done |].
    exists b2. split_and!; [done | done |]. rewrite Ha2, Ha1. apply f_write_app. simpl. rewrite length_view by done. apply (inv_pos _ Hi).
Qed.

(** However much the network takes at a time, writing a fixed size sends the next
    readable bytes, in order, each once. *)
Theorem write_fix_size_exact rts : forall ba len left sent,
  inv ba -> Forall (fun rt => 0 < rt) rts -> foldr Z.add 0 rts = left -> left < 2 ^ 31 -> left <= Z.of_nat (getReadSize ba) ->
  exists ba', writeFixSize_ba ba len left rts sent = Ok (Some (i32 len, sent ++ slice (m_position ba) (Z.to_nat left) (view ba), ba'))
    /\ inv ba' /\ view ba' = view ba /\ Z.of_nat (m_position ba') = Z.of_nat (m_position ba) + left.
Proof.
  induction rts as [| rt rts IH]; intros ba len left sent Hi Hp Hs Hl Hr; cbn [writeFixSize_ba].
  - cbn in Hs. subst left. cbn. exists ba. unfold slice. cbn [take]. rewrite app_nil_r. split_and!; [done | done | done | lia].
  - apply Forall_cons in Hp as [Hrt Hp]. cbn in Hs. assert (Hrest : 0 <= foldr Z.add 0 rts) by (clear -Hp; induction Hp; cbn; lia).
    destruct (Z.eqb_spec left 0); [lia |]. unfold write_ba.
    destruct (send_from_is_read ba (Z.to_nat left) (Z.to_nat rt) Hi) as (b1 & -> & Hi1 & Hp1 & Hv1); [lia |]. rewrite !bind_Ok.
    assert (Eu : u64 rt = rt) by (unfold u64, wrap; apply Z.mod_small; lia). rewrite Eu. destruct (Z.eqb_spec rt 0); [lia |].
    assert (Eu2 : u64 (left - rt) = foldr Z.add 0 rts) by (unfold u64, wrap; rewrite Z.mod_small; lia). rewrite Eu2.
    destruct (IH b1 len (foldr Z.add 0 rts) (sent ++ take (Z.to_nat rt) (slice (m_position ba) (Nat.min (Z.to_nat left) (getReadSize ba)) (view ba))) Hi1 Hp eq_refl)
      as (b2 & -> & Hi2 & Hv2 & Hp2); [lia | unfold getReadSize in *; assert (m_size b1 = m_size ba) by (rewrite <- (length_view b1 Hi1), <- (length_view ba Hi); congruence); lia |].
    exists b2. rewrite Hv1 in *. split_and!; [| done | congruence | lia].
    assert (Et : take (Z.to_nat rt) (slice (m_position ba) (Nat.min (Z.to_nat left) (getReadSize ba)) (view ba)) = slice (m_position ba) (Z.to_nat rt) (view ba)).
    { unfold slice. rewrite take_take. f_equal. lia. }
    rewrite Et, Hp1, <- app_assoc, <- slice_app_split, <- Z2Nat.inj_add by lia. by rewrite Hs.
Qed.

End Sf.
