(* ===== verification/Thread.v ===== *)
(** Threads, locks and semaphores, thread.h and thread.cc.

    The pthread objects are modelled by what they promise: a call that would
    block has no result ([None]), releasing what one does not hold is undefined.
    Where POSIX lets a call on a read-write lock return an error instead, the
    model returns it; thread.h ignores it.
    A guard works on any lock that has the operations of its template
    parameter: these are the classes [Lockable] and [RWLockable].

    Locks and threads: guards exclude each other on every lock, readers and the
    writer exclude each other, a thread is set up before its constructor
    returns. *)

From stdpp Require Import gmap strings.
From S2P Require Import Prelude.

Module Th.

Local Open Scope Z_scope.

Abbreviation tid := nat.

(** ** Semaphores *)

(** [sem_t]: its count; [SEM_VALUE_MAX] bounds it. *)
Definition SEM_VALUE_MAX : Z := 2147483647.

Definition new_Semaphore (count : Z) : outcome Z := if SEM_VALUE_MAX <? count then Fail LogicError else Ok count.

(** [wait] has no result while the count is 0, unless a signal interrupts
    [sem_wait]: then it returns and has taken nothing. *)
Definition wait (interrupted : bool) (s : Z) : option Z :=
  if interrupted then Some s else if s =? 0 then None else Some (s - 1).

Definition notify (s : Z) : outcome Z := if s =? SEM_VALUE_MAX then Fail LogicError else Ok (s + 1).

(** ** Locks *)

(** What [ScopedLockImpl<T>] uses of [T]. *)
Class Lockable (L : Type) := {
  lock : tid -> L -> option L;
  unlock : tid -> L -> outcome L;
}.

(** What the guards for reading and writing use. *)
Class RWLockable (L : Type) := {
  rdlock : tid -> L -> option L;
  wrlock : tid -> L -> option L;
  rw_unlock : tid -> L -> outcome L;
}.

(** A [pthread_mutex_t] or [pthread_spinlock_t]: who holds it. *)
Record Mutex := mkMutex { holder : option tid }.
Definition new_Mutex : Mutex := mkMutex None.

#[global] Instance Mutex_lockable : Lockable Mutex := {
  lock t m := match holder m with None => Some (mkMutex (Some t)) | Some _ => None end;
  unlock t m := if decide (holder m = Some t) then Ok (mkMutex None) else Fail Indeterminate;
}.

Record Spinlock := mkSpin { s_holder : option tid }.
Definition new_Spinlock : Spinlock := mkSpin None.

#[global] Instance Spinlock_lockable : Lockable Spinlock := {
  lock t m := match s_holder m with None => Some (mkSpin (Some t)) | Some _ => None end;
  unlock t m := if decide (s_holder m = Some t) then Ok (mkSpin None) else Fail Indeterminate;
}.

(** [CASLock]: a flag that anybody may clear. *)
Record CASLock := mkCAS { m_flag : bool }.
Definition new_CASLock : CASLock := mkCAS false.

(** [atomic_flag_test_and_set]: the old value and the new state. *)
Definition test_and_set (m : CASLock) : bool * CASLock := (m_flag m, mkCAS true).

#[global] Instance CASLock_lockable : Lockable CASLock := {
  lock _ m := let '(old, m) := test_and_set m in if old then None else Some m;
  unlock _ m := Ok (mkCAS false);
}.

(** A [pthread_rwlock_t]: its readers and its writer. *)
Record RWMutex := mkRW { readers : list tid; writer : option tid }.
Definition new_RWMutex : RWMutex := mkRW [] None.

Fixpoint remove_one (t : tid) (l : list tid) : list tid :=
  match l with [] => [] | x :: l => if decide (x = t) then l else x :: remove_one t l end.

(** What POSIX leaves to the implementation of [pthread_rwlock_t]: how many read
    locks there can be, and whether a thread that already has the lock, for
    writing or for reading, is told so or waits for itself. *)
Class rwlock_policy := {
  max_readers : nat;
  tells_writer : bool;
  tells_reader : bool;
}.

Definition EAGAIN : Z := 11.
Definition EDEADLK : Z := 35.

(** The calls: [None] while they wait, else the error code and the lock. *)
Definition pthread_rwlock_rdlock `{rwlock_policy} (t : tid) (m : RWMutex) : option (Z * RWMutex) :=
  match writer m with
  | None => if (length (readers m) <? max_readers)%nat then Some (0, mkRW (t :: readers m) None) else Some (EAGAIN, m)
  | Some u => if bool_decide (u = t) && tells_writer then Some (EDEADLK, m) else None
  end.

Definition pthread_rwlock_wrlock `{rwlock_policy} (t : tid) (m : RWMutex) : option (Z * RWMutex) :=
  match writer m, readers m with
  | None, [] => Some (0, mkRW [] (Some t))
  | _, _ =>
      if bool_decide (writer m = Some t) && tells_writer || bool_decide (t ∈ readers m) && tells_reader
      then Some (EDEADLK, m) else None
  end.

(** [RWMutex::rdlock] and [RWMutex::wrlock] do not look at the error code. *)
#[global] Instance RWMutex_lockable `{rwlock_policy} : RWLockable RWMutex := {
  rdlock t m := snd <$> pthread_rwlock_rdlock t m;
  wrlock t m := snd <$> pthread_rwlock_wrlock t m;
  rw_unlock t m :=
    if decide (writer m = Some t) then Ok (mkRW (readers m) None)
    else if decide (t ∈ readers m) then Ok (mkRW (remove_one t (readers m)) (writer m))
    else Fail Indeterminate;
}.

(** ** Guards *)

Section guards.
Context {L : Type}.
(** How the guard takes and gives back its lock: [lock] and [unlock] for
    [ScopedLockImpl], [rdlock] or [wrlock] and [unlock] for the other two. *)
Context (take : tid -> L -> option L) (give : tid -> L -> outcome L).

(** The guard of a thread on the lock: [m_locked]. *)
Record guard := mkGuard { g_tid : tid; m_locked : bool }.

Definition g_new (t : tid) (m : L) : option (guard * L) :=
  match take t m with None => None | Some m => Some (mkGuard t true, m) end.

Definition g_lock (g : guard) (m : L) : option (guard * L) :=
  if negb (m_locked g) then
    match take (g_tid g) m with None => None | Some m => Some (mkGuard (g_tid g) true, m) end
  else Some (g, m).

Definition g_unlock (g : guard) (m : L) : outcome (guard * L) :=
  if m_locked g then m ← give (g_tid g) m; Ok (mkGuard (g_tid g) false, m)
  else Ok (g, m).

(** The destructor. *)
Definition g_destroy (g : guard) (m : L) : outcome L := '(_, m) ← g_unlock g m; Ok m.
End guards.

(** [Mutex::Lock], [RWMutex::ReadLock] and [RWMutex::WriteLock] *)
Definition ScopedLockImpl {L} `{Lockable L} : tid -> L -> option (guard * L) := g_new lock.
Definition ReadScopedLockImpl {L} `{RWLockable L} : tid -> L -> option (guard * L) := g_new rdlock.
Definition WriteScopedLockImpl {L} `{RWLockable L} : tid -> L -> option (guard * L) := g_new wrlock.

(** ** Threads *)

(** [GetThreadId]: a [pthread_t] as a [pid_t]. *)
Definition GetThreadId (self : Z) : Z := i32 self.

(** The object. [m_cb] is empty once the thread has taken it; [m_thread] is 0 when
    there is nothing to join. *)
Record Thread := mkThread {
  m_id : Z;
  m_thread : Z;
  m_cb : option nat;
  m_name : string;
  m_semaphore : Z;
}.

Definition set_id (t : Thread) v := mkThread v (m_thread t) (m_cb t) (m_name t) (m_semaphore t).
Definition set_thread (t : Thread) v := mkThread (m_id t) v (m_cb t) (m_name t) (m_semaphore t).
Definition set_cb (t : Thread) v := mkThread (m_id t) (m_thread t) v (m_name t) (m_semaphore t).
Definition set_name (t : Thread) v := mkThread (m_id t) (m_thread t) (m_cb t) v (m_semaphore t).
Definition set_sem (t : Thread) v := mkThread (m_id t) (m_thread t) (m_cb t) (m_name t) v.

(** The thread-local variables. *)
Record locals := mkLocals { t_thread : bool; t_thread_name : string }.
Definition new_locals : locals := mkLocals false "UNKNOW".

(** [Thread::setName] on a thread whose [t_thread] is the object, or that has
    none. *)
Definition setName (t : Thread) (l : locals) (name : string) : Thread * locals :=
  (if t_thread l then set_name t name else t, mkLocals (t_thread l) name).

(** The new thread in [run], step by step up to its function. *)
Inductive child := Unborn | RThis | RName | RId | RCb | RNotify (cb : option nat) | RCall (cb : option nat) | RDone (cb : option nat).

(** The creator in the constructor. *)
Inductive creator := CCreate | CWait | CReturned | CThrown.

Record world := mkWorld {
  th : Thread;
  tl : locals;                  (* of the new thread *)
  pc : child;
  cr : creator;
  self : Z;                     (* pthread_self of the new thread *)
  ran : list nat;               (* the functions run *)
}.

Definition start_world (cb : nat) (name : string) (self : Z) : world :=
  mkWorld (mkThread (-1) 0 (Some cb) (if String.eqb name "" then "UNKNOW" else name)%string 0) new_locals Unborn CCreate self [].

(** What happens next: the creator calls [pthread_create], which may fail, waits on
    the semaphore, which a signal may interrupt; the new thread goes on. *)
Inductive action := ACreate (rt : Z) | AWait (interrupted : bool) | AChild.

Definition step (w : world) (a : action) : outcome (option world) :=
  let '(mkWorld t l p c self ran) := w in
  match a, c with
  | ACreate rt, CCreate =>
      if negb (rt =? 0) then Ok (Some (mkWorld t l p CThrown self ran))
      else Ok (Some (mkWorld (set_thread t self) l RThis CWait self ran))
  | AWait interrupted, CWait =>
      match wait interrupted (m_semaphore t) with
      | None => Ok None
      | Some s => Ok (Some (mkWorld (set_sem t s) l p CReturned self ran))
      end
  | AChild, _ =>
      match p with
      | Unborn => Ok None
      | RThis => Ok (Some (mkWorld t (mkLocals true (t_thread_name l)) RName c self ran))
      | RName => Ok (Some (mkWorld t (mkLocals (t_thread l) (m_name t)) RId c self ran))
      | RId => Ok (Some (mkWorld (set_id t (GetThreadId self)) l RCb c self ran))
      | RCb => Ok (Some (mkWorld (set_cb t None) l (RNotify (m_cb t)) c self ran))
      | RNotify cb => s ← notify (m_semaphore t); Ok (Some (mkWorld (set_sem t s) l (RCall cb) c self ran))
      | RCall cb => match cb with
                    | None => Fail LogicError
                    | Some f => Ok (Some (mkWorld t l (RDone cb) c self (ran ++ [f])))
                    end
      | RDone _ => Ok None
      end
  | _, _ => Ok None
  end.

(** ** The end of a thread *)

(** What the system knows of the pthread: it can be joined or detached once. *)
Inductive pthread := Joinable | Joined | Detached.

Definition pthread_join (p : pthread) : option pthread := match p with Joinable => Some Joined | _ => None end.

(** [join] waits for the thread; a join that fails throws. *)
Definition join (t : Thread) (p : pthread) : outcome (Thread * pthread) :=
  if m_thread t =? 0 then Ok (t, p) else
  match pthread_join p with
  | None => Fail LogicError
  | Some p => Ok (set_thread t 0, p)
  end.

(** The destructor; detaching what was joined or detached is undefined. *)
Definition destroy (t : Thread) (p : pthread) : outcome pthread :=
  if m_thread t =? 0 then Ok p else match p with Joinable => Ok Detached | _ => Fail Indeterminate end.

End Th.

Import Th.
Local Open Scope Z_scope.

(** ** Exclusive locks *)

(** What a lock promises to its guards: [held m o], the lock is free or a thread
    has it. *)
Class LockLaws (L : Type) `{Lockable L} := {
  held : L -> option tid -> Prop;
  law_free m t : held m None -> exists m', lock t m = Some m' /\ held m' (Some t);
  law_held m t u : held m (Some u) -> lock t m = None;
  law_unlock m t : held m (Some t) -> exists m', unlock t m = Ok m' /\ held m' None;
}.

#[global] Instance Mutex_laws : LockLaws Mutex.
Proof.
  refine {| held m o := holder m = o |}.
  - intros m t Hm. cbn. rewrite Hm. by eexists.
  - intros m t u Hm. cbn. by rewrite Hm.
  - intros m t Hm. cbn. rewrite decide_True by done. by eexists.
Defined.

#[global] Instance Spinlock_laws : LockLaws Spinlock.
Proof.
  refine {| held m o := s_holder m = o |}.
  - intros m t Hm. cbn. rewrite Hm. by eexists.
  - intros m t u Hm. cbn. by rewrite Hm.
  - intros m t Hm. cbn. rewrite decide_True by done. by eexists.
Defined.

(** The flag does not know its owner; that only the owner clears it is up to the
    guards. *)
#[global] Instance CASLock_laws : LockLaws CASLock.
Proof.
  refine {| held m o := m_flag m = match o with Some _ => true | None => false end |}.
  - intros m t Hm. cbn. unfold test_and_set. rewrite Hm. by eexists.
  - intros m t u Hm. cbn. unfold test_and_set. by rewrite Hm.
  - intros m t Hm. cbn. by eexists.
Defined.

Section exclusive.
Context {L : Type} `{LockLaws L}.

(** A lock and the guards that threads have on it. *)
Record sys := mkSys { lk : L; guards : gmap nat guard }.

Inductive gop := GNew (g : nat) (t : tid) | GLock (g : nat) | GUnlock (g : nat) | GDestroy (g : nat).

(** [None]: the operation waits, or there is no such guard. *)
Definition gstep (s : sys) (o : gop) : outcome (option sys) :=
  match o with
  | GNew g t => match guards s !! g, ScopedLockImpl t (lk s) with
                | None, Some (x, m) => Ok (Some (mkSys m (<[g := x]> (guards s))))
                | _, _ => Ok None
                end
  | GLock g => match guards s !! g with
               | Some x => match g_lock lock x (lk s) with
                           | Some (x, m) => Ok (Some (mkSys m (<[g := x]> (guards s))))
                           | None => Ok None
                           end
               | None => Ok None
               end
  | GUnlock g => match guards s !! g with
                 | Some x => '(x, m) ← g_unlock unlock x (lk s); Ok (Some (mkSys m (<[g := x]> (guards s))))
                 | None => Ok None
                 end
  | GDestroy g => match guards s !! g with
                  | Some x => m ← g_destroy unlock x (lk s); Ok (Some (mkSys m (delete g (guards s))))
                  | None => Ok None
                  end
  end.

(** The lock is free and no guard has it, or one guard has it and its thread is
    the holder. *)
Inductive sys_ok (s : sys) : Prop :=
  | ok_free : held (lk s) None -> (forall g x, guards s !! g = Some x -> m_locked x = false) -> sys_ok s
  | ok_held g x : guards s !! g = Some x -> m_locked x = true -> held (lk s) (Some (g_tid x)) ->
      (forall g' x', guards s !! g' = Some x' -> m_locked x' = true -> g' = g) -> sys_ok s.

Lemma taken_ok s g x m :
  held (lk s) None -> (forall g' x', guards s !! g' = Some x' -> m_locked x' = false) -> lock (g_tid x) (lk s) = Some m -> m_locked x = true ->
  sys_ok (mkSys m (<[g := x]> (guards s))).
Proof.
  intros Hf Hall Hl Hx. destruct (law_free (lk s) (g_tid x) Hf) as (m' & E & Hm). assert (m' = m) as -> by congruence.
  apply (ok_held _ g x); [apply lookup_insert_eq | done | done |]. intros g' x'. cbn. destruct (decide (g' = g)) as [-> | Hne]; [done |].
  rewrite lookup_insert_ne by done. intros Hg. by rewrite (Hall _ _ Hg).
Qed.

(** Writing back a guard that changes nothing. *)
Lemma same_ok s g x : sys_ok s -> guards s !! g = Some x -> sys_ok (mkSys (lk s) (<[g := x]> (guards s))).
Proof. intros Hs Hg. rewrite insert_id by done. by destruct s. Qed.

Lemma given_ok s g x m' (gs : gmap nat guard) :
  held m' None -> (forall g' x', guards s !! g' = Some x' -> m_locked x' = true -> g' = g) ->
  (forall g' x', gs !! g' = Some x' -> m_locked x' = true -> g' <> g /\ guards s !! g' = Some x') -> guards s !! g = Some x -> sys_ok (mkSys m' gs).
Proof.
  intros Hm Hone Hgs Hg. apply ok_free; [done |]. intros g' x' Hg'. destruct (m_locked x') eqn:E; [| done].
  destruct (Hgs g' x' Hg' E) as [Hne Hold]. destruct Hne. by eapply Hone.
Qed.

(** The guard that is locked is the holder's, so it gives back its own lock. *)
Lemma unlock_step s g x : sys_ok s -> guards s !! g = Some x ->
  exists x' m', g_unlock unlock x (lk s) = Ok (x', m') /\ m_locked x' = false
    /\ (m_locked x = false -> x' = x /\ m' = lk s) /\ (m_locked x = true -> held m' None /\ forall g' y, guards s !! g' = Some y -> m_locked y = true -> g' = g).
Proof.
  intros Hs Hg. unfold g_unlock. destruct (m_locked x) eqn:E; [| by exists x, (lk s)].
  destruct Hs as [Hf Hall | g1 x1 Hg1 Hx1 Hh Hone]; [rewrite (Hall _ _ Hg) in E; done |].
  assert (g = g1) as -> by (by eapply Hone). assert (x1 = x) as -> by congruence.
  destruct (law_unlock (lk s) (g_tid x) Hh) as (m' & -> & Hm'). by eexists _, m'.
Qed.

Lemma gstep_ok s o : sys_ok s -> exists r, gstep s o = Ok r /\ forall s', r = Some s' -> sys_ok s'.
Proof.
  intros Hs. destruct o as [g t | g | g | g]; cbn [gstep].
  - destruct (guards s !! g) as [x|] eqn:Eg; [by eexists |]. unfold ScopedLockImpl, g_new. destruct (lock t (lk s)) as [m|] eqn:El; [| by eexists].
    eexists. split; [reflexivity |]. intros s' [= <-]. destruct Hs as [Hf Hall | g1 x1 _ _ Hh _]; [| by rewrite (law_held _ t _ Hh) in El].
    by apply (taken_ok s g (mkGuard t true)).
  - destruct (guards s !! g) as [x|] eqn:Eg; [| by eexists]. unfold g_lock. destruct (m_locked x) eqn:Ex; cbn [negb].
    { eexists. split; [reflexivity |]. intros s' [= <-]. by apply same_ok. }
    destruct (lock (g_tid x) (lk s)) as [m|] eqn:El; [| by eexists]. eexists. split; [reflexivity |]. intros s' [= <-].
    destruct Hs as [Hf Hall | g1 x1 _ _ Hh _]; [| by rewrite (law_held _ _ _ Hh) in El]. by apply (taken_ok s g (mkGuard (g_tid x) true)).
  - destruct (guards s !! g) as [x|] eqn:Eg; [| by eexists]. destruct (unlock_step s g x Hs Eg) as (x' & m' & -> & Hx' & Hno & Hyes).
    eexists. split; [reflexivity |]. intros s' [= <-]. destruct (m_locked x) eqn:Ex.
    + destruct (Hyes eq_refl) as [Hm Hone]. eapply (given_ok s g); [done | done | | done]. intros g' y. destruct (decide (g' = g)) as [-> | ?];
        [rewrite lookup_insert_eq; intros [= <-]; congruence | by rewrite lookup_insert_ne].
    + destruct (Hno eq_refl) as [-> ->]. by apply same_ok.
  - destruct (guards s !! g) as [x|] eqn:Eg; [| by eexists]. unfold g_destroy.
    destruct (unlock_step s g x Hs Eg) as (x' & m' & -> & Hx' & Hno & Hyes). eexists. split; [reflexivity |]. intros s' [= <-]. destruct (m_locked x) eqn:Ex.
    + destruct (Hyes eq_refl) as [Hm Hone]. eapply (given_ok s g); [done | done | | done]. intros g' y [? ?]%lookup_delete_Some. done.
    + destruct (Hno eq_refl) as [-> ->]. destruct Hs as [Hf Hall | g1 x1 Hg1 Hx1 Hh Hone].
      * apply ok_free; [done |]. intros g' y; cbn [guards]; intros [_ Hy]%lookup_delete_Some. by eapply Hall.
      * apply (ok_held _ g1 x1); [cbn; rewrite lookup_delete_ne; [done | congruence] | done | done |]. intros g' y; cbn [guards]; intros [_ Hy]%lookup_delete_Some. by apply Hone.
Qed.

Inductive gruns : sys -> sys -> Prop :=
  | gr_nil s : gruns s s
  | gr_cons s o s1 s2 : gstep s o = Ok (Some s1) -> gruns s1 s2 -> gruns s s2.

Lemma gruns_ok s s' : sys_ok s -> gruns s s' -> sys_ok s'.
Proof.
  intros Hs Hr. induction Hr as [| s o s1 s2 E _ IH]; [done |]. apply IH. destruct (gstep_ok s o Hs) as (r & E' & Hr). apply Hr. congruence.
Qed.

(** C15: Guards exclude each other. On a lock of any kind that keeps what it
    promises ([Mutex], [Spinlock] and [CASLock] do), however threads create,
    lock, unlock and destroy their guards: at most one guard is locked; no
    operation releases a lock that its thread does not hold; the lock is free
    exactly when no guard is locked, and only then can another be taken. *)
Theorem guards_exclude m0 s :
  held m0 None -> gruns (mkSys m0 ∅) s ->
  (forall g g' x x', guards s !! g = Some x -> guards s !! g' = Some x' -> m_locked x = true -> m_locked x' = true -> g = g')
  /\ (forall o, exists r, gstep s o = Ok r)
  /\ (forall t, (exists m, lock t (lk s) = Some m) <-> forall g x, guards s !! g = Some x -> m_locked x = false).
Proof.
  intros Hf Hr. assert (Hs : sys_ok s) by (eapply gruns_ok; [| exact Hr]; apply ok_free; [done |]; intros g x; cbn; by rewrite lookup_empty).
  split_and!.
  - intros g g' x x' Hg Hg' Hx Hx'. destruct Hs as [_ Hall | g1 x1 _ _ _ Hone]; [by rewrite (Hall _ _ Hg) in Hx |].
    rewrite (Hone _ _ Hg Hx). symmetry. by eapply Hone.
  - intros o. destruct (gstep_ok s o Hs) as (r & E & _). by exists r.
  - intros t. destruct Hs as [Hfree Hall | g1 x1 Hg1 Hx1 Hh _].
    + split; [done |]. intros _. destruct (law_free (lk s) t Hfree) as (m & E & _). by exists m.
    + rewrite (law_held _ t _ Hh). split; [by intros [] |]. intros Hall. by rewrite (Hall _ _ Hg1) in Hx1.
Qed.
End exclusive.

(** Two threads with guards on a flag: the second has to wait. *)
Lemma guards_exclude_witness :
  exists s, gruns (mkSys new_CASLock ∅) s /\ (exists x, guards s !! 0%nat = Some x /\ m_locked x = true)
    /\ gstep s (GNew 1 2) = Ok None /\ forall o, exists r, gstep s o = Ok r.
Proof.
  assert (Hr : gruns (mkSys new_CASLock ∅) (mkSys (mkCAS true) (<[0%nat := mkGuard 1 true]> ∅))).
  { eapply (gr_cons _ (GNew 0 1)); [reflexivity | constructor]. }
  assert (Hf : held new_CASLock None) by reflexivity.
  destruct (guards_exclude new_CASLock _ Hf Hr) as (_ & Hop & _). eexists. split; [exact Hr |].
  split; [eexists; split; [apply lookup_insert_eq | reflexivity] |]. split; [reflexivity | exact Hop].
Defined.

(** ** Readers and writers *)

Section shared.
Context `{rwlock_policy}.

(** An [RWMutex] and the guards on it, for reading or for writing ([true]). *)
Record rwsys := mkRWSys { rw : RWMutex; rguards : gmap nat (bool * guard) }.

Inductive rwop := RNew (w : bool) (g : nat) (t : tid) | RLock (g : nat) | RUnlock (g : nat) | RDestroy (g : nat).

Definition rw_new (w : bool) (t : tid) (m : RWMutex) : option (guard * RWMutex) :=
  if w then WriteScopedLockImpl t m else ReadScopedLockImpl t m.

Definition take (w : bool) : tid -> RWMutex -> option RWMutex := if w then wrlock else rdlock.

Definition rwstep (s : rwsys) (o : rwop) : outcome (option rwsys) :=
  match o with
  | RNew w g t => match rguards s !! g, rw_new w t (rw s) with
                  | None, Some (x, m) => Ok (Some (mkRWSys m (<[g := (w, x)]> (rguards s))))
                  | _, _ => Ok None
                  end
  | RLock g => match rguards s !! g with
               | Some (w, x) => match g_lock (take w) x (rw s) with
                                | Some (x, m) => Ok (Some (mkRWSys m (<[g := (w, x)]> (rguards s))))
                                | None => Ok None
                                end
               | None => Ok None
               end
  | RUnlock g => match rguards s !! g with
                 | Some (w, x) => '(x, m) ← g_unlock rw_unlock x (rw s); Ok (Some (mkRWSys m (<[g := (w, x)]> (rguards s))))
                 | None => Ok None
                 end
  | RDestroy g => match rguards s !! g with
                  | Some (w, x) => m ← g_destroy rw_unlock x (rw s); Ok (Some (mkRWSys m (delete g (rguards s))))
                  | None => Ok None
                  end
  end.

(** The threads a guard adds to those that read ([w = false]) or write. *)
Definition contrib (w : bool) (v : bool * guard) : list tid := if eqb v.1 w && m_locked v.2 then [g_tid v.2] else [].
Definition tids (w : bool) (gs : gmap nat (bool * guard)) : list tid := map_to_list gs ≫= fun p => contrib w p.2.

(** The lock's books against the threads that read and write. *)
Definition books (m : RWMutex) (rs ws : list tid) : Prop :=
  readers m ≡ₚ rs /\ ws = option_list (writer m) /\ (writer m = None \/ readers m = []).

Definition rw_ok (s : rwsys) : Prop := books (rw s) (tids false (rguards s)) (tids true (rguards s)).

Lemma tids_insert w g v gs : tids w (<[g := v]> gs) ≡ₚ contrib w v ++ tids w (delete g gs).
Proof. unfold tids. rewrite <- insert_delete_eq, map_to_list_insert by apply lookup_delete_eq. done. Qed.

Lemma tids_lookup w g v gs : gs !! g = Some v -> tids w gs ≡ₚ contrib w v ++ tids w (delete g gs).
Proof. intros Hg. rewrite <- tids_insert. by rewrite insert_id. Qed.

Lemma books_perm m rs rs' ws ws' : books m rs ws -> rs ≡ₚ rs' -> ws ≡ₚ ws' -> books m rs' ws'.
Proof.
  intros (H1 & H2 & H3) Hr Hw. split_and!; [by rewrite H1 | | done]. subst ws. destruct (writer m); cbn in *;
    [by apply Permutation_singleton_l in Hw | by apply Permutation_nil_l in Hw].
Qed.

(** The call behind a guard, for reading or for writing. *)
Definition pthread_take (w : bool) : tid -> RWMutex -> option (Z * RWMutex) :=
  if w then pthread_rwlock_wrlock else pthread_rwlock_rdlock.

Lemma take_books w t m m' rs ws : books m rs ws -> pthread_take w t m = Some (0, m') ->
  books m' (contrib false (w, mkGuard t true) ++ rs) (contrib true (w, mkGuard t true) ++ ws).
Proof.
  intros (Hr & -> & Hx) E. destruct m as [R W]; cbn in *. destruct w; cbn in E.
  - unfold pthread_rwlock_wrlock in E. cbn in E. destruct W, R; try (by destruct (_ || _)). simplify_eq. split_and!; cbn; auto.
  - unfold pthread_rwlock_rdlock in E. cbn [writer readers] in E. destruct W; [by destruct (_ && _) |].
    destruct (Nat.ltb (length R) max_readers); [| done]. simplify_eq. split_and!; cbn; [by rewrite Hr | done | by left].
Qed.

(** No error where the thread has nothing of the lock that conflicts and readers
    are not too many. *)
Lemma take_no_error w t m rs ws m' : books m rs ws ->
  (t ∉ ws) -> (w = true -> t ∉ rs) -> (w = false -> length rs < max_readers)%nat ->
  take w t m = Some m' -> pthread_take w t m = Some (0, m').
Proof.
  intros (Hr & -> & _) Hw1 Hw2 Hlen E. destruct m as [R W]; cbn in Hr, Hw1. unfold take, pthread_take in *.
  destruct w; cbn [rdlock wrlock RWMutex_lockable] in E.
  - unfold pthread_rwlock_wrlock in *. cbn in *. rewrite (bool_decide_false (W = Some t)) in * by (intros ->; destruct Hw1; left).
    rewrite (bool_decide_false (t ∈ R)) in * by (rewrite Hr; by apply Hw2). destruct W, R; cbn in *; try done. by injection E as <-.
  - unfold pthread_rwlock_rdlock in *. cbn [writer readers] in *. destruct W as [u |].
    + rewrite (bool_decide_false (u = t)) in * by (intros ->; destruct Hw1; left). done.
    + rewrite (proj2 (Nat.ltb_lt _ _)) in * by (rewrite Hr; by apply Hlen). by injection E as <-.
Qed.

Lemma remove_one_perm t l rs : l ≡ₚ t :: rs -> remove_one t l ≡ₚ rs.
Proof.
  revert rs. induction l as [| x l IH]; intros rs E; [by apply Permutation_nil_cons in E |]. cbn. case_decide as Ex.
  - subst x. by apply Permutation_cons_inv in E.
  - assert (Hx : x ∈ rs) by (assert (Hx : x ∈ t :: rs) by (rewrite <- E; left); apply elem_of_cons in Hx as [-> | ?]; [done | done]).
    apply elem_of_Permutation in Hx as [rs' Hrs]. rewrite Hrs. f_equiv. apply IH. apply (Permutation_cons_inv (a := x)). rewrite E, Hrs. constructor.
Qed.

Lemma give_books w t m rs ws :
  books m (contrib false (w, mkGuard t true) ++ rs) (contrib true (w, mkGuard t true) ++ ws) -> exists m', rw_unlock t m = Ok m' /\ books m' rs ws.
Proof.
  intros (Hr & Hw & Hx). destruct m as [R W]; cbn in *. destruct w; cbn in *.
  - destruct W as [u |]; [| done]. injection Hw as -> ->. rewrite decide_True by done. eexists. split; [reflexivity |]. split_and!; cbn; auto.
  - assert (W = None) as -> by (destruct Hx as [? | ->]; [done | by apply Permutation_nil_cons in Hr]).
    rewrite decide_False by done. rewrite decide_True by (rewrite Hr; left). eexists. split; [reflexivity |]. split_and!; cbn; [by apply remove_one_perm | done | by left].
Qed.

(** A guard that is locked gives its lock back; another does nothing. *)
Lemma rw_unlock_step s g w x : rw_ok s -> rguards s !! g = Some (w, x) ->
  exists m', g_unlock rw_unlock x (rw s) = Ok (mkGuard (g_tid x) false, m')
    /\ books m' (tids false (delete g (rguards s))) (tids true (delete g (rguards s))).
Proof.
  intros Hs Hg. assert (Hb := books_perm _ _ _ _ _ Hs (tids_lookup false g _ _ Hg) (tids_lookup true g _ _ Hg)).
  unfold g_unlock. destruct x as [t []]; cbn [m_locked g_tid].
  - destruct (give_books w t _ _ _ Hb) as (m' & -> & Hm'). by exists m'.
  - exists (rw s). split; [done |]. revert Hb. unfold contrib. cbn. by rewrite !andb_false_r.
Qed.

(** A guard put in place of one that had nothing of the lock. *)
Lemma put_ok m g v gs : books m (contrib false v ++ tids false (delete g gs)) (contrib true v ++ tids true (delete g gs)) -> rw_ok (mkRWSys m (<[g := v]> gs)).
Proof. intros Hb. unfold rw_ok. cbn. eapply books_perm; [exact Hb | |]; symmetry; apply tids_insert. Qed.

Lemma contrib_free w b t : contrib w (b, mkGuard t false) = [].
Proof. unfold contrib. cbn. by rewrite andb_false_r. Qed.

Lemma rw_new_take w t m : rw_new w t m = match take w t m with None => None | Some m => Some (mkGuard t true, m) end.
Proof. by destruct w. Qed.

(** When the calls succeed: the thread has no locked guard for writing on the lock
    and, when it asks to write, none for reading; readers are not too many. *)
Definition may_take (s : rwsys) (w : bool) (t : tid) : Prop :=
  (t ∉ tids true (rguards s)) /\ (w = true -> t ∉ tids false (rguards s))
  /\ (w = false -> length (tids false (rguards s)) < max_readers)%nat.

Definition permitted (s : rwsys) (o : rwop) : Prop :=
  match o with
  | RNew w g t => may_take s w t
  | RLock g => forall w x, rguards s !! g = Some (w, x) -> m_locked x = false -> may_take s w (g_tid x)
  | _ => True
  end.

Lemma take_ok s w t m : rw_ok s -> may_take s w t -> take w t (rw s) = Some m ->
  books m (contrib false (w, mkGuard t true) ++ tids false (rguards s)) (contrib true (w, mkGuard t true) ++ tids true (rguards s)).
Proof. intros Hs (H1 & H2 & H3) E. apply (take_books w t (rw s)); [done |]. by eapply take_no_error. Qed.

Lemma rwstep_runs s o : rw_ok s -> exists r, rwstep s o = Ok r.
Proof.
  intros Hs. destruct o as [w g t | g | g | g]; cbn [rwstep]; destruct (rguards s !! g) as [[w' x]|] eqn:Eg; try by eexists.
  - rewrite rw_new_take. destruct (take w t (rw s)); by eexists.
  - destruct (g_lock (take w') x (rw s)) as [[]|]; by eexists.
  - destruct (rw_unlock_step s g w' x Hs Eg) as (m' & -> & Hm'). by eexists.
  - unfold g_destroy. destruct (rw_unlock_step s g w' x Hs Eg) as (m' & -> & Hm'). by eexists.
Qed.

Lemma rwstep_ok s o s' : rw_ok s -> permitted s o -> rwstep s o = Ok (Some s') -> rw_ok s'.
Proof.
  intros Hs Hp. destruct o as [w g t | g | g | g]; cbn [rwstep permitted] in *; destruct (rguards s !! g) as [[w' x]|] eqn:Eg; try done.
  - rewrite rw_new_take. destruct (take w t (rw s)) as [m|] eqn:Et; [| done]. intros [= <-].
    apply put_ok. rewrite delete_id by done. by apply take_ok.
  - specialize (Hp w' x eq_refl). unfold g_lock. destruct x as [t []]; cbn [m_locked negb g_tid] in *.
    { intros [= <-]. rewrite insert_id by done. by destruct s. }
    destruct (take w' t (rw s)) as [m|] eqn:Et; [| done]. intros [= <-]. apply put_ok.
    eapply books_perm; [apply (take_ok s w' t); auto | |]; apply Permutation_app_head; (etrans; [by apply tids_lookup |]); by rewrite contrib_free.
  - destruct (rw_unlock_step s g w' x Hs Eg) as (m' & -> & Hm'). intros [= <-]. apply put_ok. by rewrite !contrib_free.
  - unfold g_destroy. destruct (rw_unlock_step s g w' x Hs Eg) as (m' & -> & Hm'). by intros [= <-].
Qed.

Inductive rwruns : rwsys -> rwsys -> Prop :=
  | rwr_nil s : rwruns s s
  | rwr_cons s o s1 s2 : permitted s o -> rwstep s o = Ok (Some s1) -> rwruns s1 s2 -> rwruns s s2.

Lemma rwruns_ok s s' : rw_ok s -> rwruns s s' -> rw_ok s'.
Proof. intros Hs Hr. induction Hr as [| s o s1 s2 Hp E _ IH]; [done |]. apply IH. by eapply rwstep_ok. Qed.

Definition rlocked (s : rwsys) (w : bool) (g : nat) : Prop := exists x, rguards s !! g = Some (w, x) /\ m_locked x = true.

Lemma locked_tids s w g : rlocked s w g -> exists t, tids w (rguards s) ≡ₚ t :: tids w (delete g (rguards s)).
Proof.
  intros ([t l] & Hg & Hl). cbn in Hl. subst l. exists t. etrans; [by apply tids_lookup |]. unfold contrib. cbn. by rewrite eqb_reflx.
Qed.

Lemma locked_in w g x gs : gs !! g = Some (w, x) -> m_locked x = true -> g_tid x ∈ tids w gs.
Proof.
  intros Hg Hx. rewrite (tids_lookup w g _ gs Hg). unfold contrib. cbn. rewrite eqb_reflx, Hx. left.
Qed.

Lemma tids_nil w gs : tids w gs = [] <-> forall g x, gs !! g = Some (w, x) -> m_locked x = false.
Proof.
  split.
  - intros E g x Hg. destruct (m_locked x) eqn:Ex; [| done]. assert (Hin := locked_in w g x gs Hg Ex). rewrite E in Hin. by apply not_elem_of_nil in Hin.
  - intros Hall. apply elem_of_nil_inv. intros t Ht. unfold tids in Ht. apply list_elem_of_bind in Ht as ([g [b x]] & Hc & Hp).
    apply elem_of_map_to_list in Hp. unfold contrib in Hc. cbn in Hc. destruct (eqb b w) eqn:Eb; [| by apply not_elem_of_nil in Hc].
    apply eqb_prop in Eb as ->. rewrite (Hall _ _ Hp) in Hc. by apply not_elem_of_nil in Hc.
Qed.

Lemma alone m rs t ws : books m rs (t :: ws) -> rs = [] /\ ws = [].
Proof.
  intros (Hr & Hw & Hx). destruct (writer m); [| done]. injection Hw as -> ->. destruct Hx as [? | Hx]; [done |]. rewrite Hx in Hr. by apply Permutation_nil_l in Hr as ->.
Qed.

(** C25: Readers share, a writer is alone, as long as no thread takes the lock
    against itself. On an [RWMutex], whatever POSIX leaves to the implementation,
    threads create, lock, unlock and destroy guards for reading and for writing,
    where no thread takes the lock while it has it for writing, none takes it for
    writing while it has it for reading, and there are never more readers than
    the implementation supports ([permitted]). Then: when a guard for writing is
    locked no other guard is; no operation releases a lock that its thread does
    not hold; a reader gets in exactly when no guard for writing is locked, a
    writer exactly when no guard is locked at all. The condition is needed: the
    calls then return an error that thread.h ignores ([rw_error_ignored]). *)
Theorem rw_guards_exclude s :
  rwruns (mkRWSys new_RWMutex ∅) s ->
  (forall g g' w, rlocked s true g -> rlocked s w g' -> g' = g)
  /\ (forall o, exists r, rwstep s o = Ok r)
  /\ (forall t, (length (tids false (rguards s)) < max_readers)%nat ->
        ((exists m, pthread_rwlock_rdlock t (rw s) = Some (0, m)) <-> forall g, ~ rlocked s true g))
  /\ (forall t, (exists m, pthread_rwlock_wrlock t (rw s) = Some (0, m)) <-> forall w g, ~ rlocked s w g).
Proof.
  intros Hr. assert (Hs : rw_ok s) by (eapply rwruns_ok; [| exact Hr]; split_and!; [done | done | by left]).
  assert (Hno : forall w, tids w (rguards s) = [] <-> forall g, ~ rlocked s w g).
  { intros w. rewrite tids_nil. split; [intros Hall g (x & Hg & Hx); by rewrite (Hall _ _ Hg) in Hx |].
    intros Hall g x Hg. destruct (m_locked x) eqn:Ex; [| done]. destruct (Hall g). by exists x. }
  split_and!.
  - intros g g' w Hg (x & Hg' & Hx). destruct (decide (g' = g)) as [-> | Hne]; [done |]. destruct (locked_tids s true g Hg) as (t & Et).
    destruct (alone _ _ _ _ (books_perm _ _ _ _ _ Hs (reflexivity _) Et)) as [Hrs Hws]. destruct w.
    + rewrite tids_nil in Hws. rewrite (Hws g' x) in Hx; [done |]. by rewrite lookup_delete_ne.
    + rewrite tids_nil in Hrs. by rewrite (Hrs g' x Hg') in Hx.
  - intros o. by apply rwstep_runs.
  - intros t Hlen. rewrite <- Hno. destruct Hs as (Hrd & -> & _). unfold pthread_rwlock_rdlock. rewrite (Permutation_length Hrd).
    rewrite (proj2 (Nat.ltb_lt _ _) Hlen). destruct (writer (rw s)); cbn; [| split; [done | by eexists]].
    split; [| done]. intros [m Hm]. by destruct (_ && _).
  - intros t. assert (H2 : (forall w g, ~ rlocked s w g) <-> tids false (rguards s) = [] /\ tids true (rguards s) = []).
    { rewrite !Hno. split; [by auto | intros [? ?] []; auto]. }
    rewrite H2. destruct Hs as (Hrd & -> & _). unfold pthread_rwlock_wrlock. destruct (writer (rw s)) as [u|]; cbn [option_list].
    { split; [intros [m Hm]; by destruct (_ || _) | by intros [_ ?]]. }
    destruct (readers (rw s)) as [|u l].
    + apply Permutation_nil_l in Hrd. rewrite <- Hrd. split; [done | by eexists].
    + split; [intros [m Hm]; by destruct (_ || _) |]. intros [E _]. rewrite E in Hrd. by apply Permutation_nil_r in Hrd.
Qed.
End shared.

(** As glibc does: the writer is told when it asks again, a reader that asks to
    write waits. The number of readers is any. *)
Definition glibc_rwlock : rwlock_policy := {| max_readers := 2 ^ 10; tells_writer := true; tells_reader := false |}.

(** Two readers are in; a writer has to wait. *)
Lemma rw_guards_exclude_witness :
  exists s, rwruns (H := glibc_rwlock) (mkRWSys new_RWMutex ∅) s /\ readers (rw s) = [2%nat; 1%nat]
    /\ rwstep (H := glibc_rwlock) s (RNew true 2 3) = Ok None
    /\ forall g g' w, rlocked s true g -> rlocked s w g' -> g' = g.
Proof.
  assert (Hr : rwruns (H := glibc_rwlock) (mkRWSys new_RWMutex ∅)
    (mkRWSys (mkRW [2%nat; 1%nat] None) (<[1%nat := (false, mkGuard 2 true)]> (<[0%nat := (false, mkGuard 1 true)]> ∅)))).
  { eapply (rwr_cons _ (RNew false 0 1)); [| reflexivity |].
    { split_and!; [apply not_elem_of_nil | done | intros _; vm_compute; lia]. }
    eapply (rwr_cons _ (RNew false 1 2)); [| reflexivity | constructor].
    split_and!; [apply not_elem_of_nil | done | intros _; vm_compute; lia]. }
  destruct (rw_guards_exclude (H := glibc_rwlock) _ Hr) as (He & _). eexists. split; [exact Hr |]. by split_and!.
Defined.

(** A thread with a guard for writing makes one for reading: the call returns an
    error, which nobody looks at, so that both guards count as locked. The second
    guard gives back the lock of the first, another thread gets in, and the first
    guard releases a lock that its thread no longer has. *)
Theorem rw_error_ignored :
  let step s o := (s ← s; match s with Some s => rwstep (H := glibc_rwlock) s o | None => Ok None end) in
  let start := Ok (Some (mkRWSys new_RWMutex ∅)) in
  (exists s, foldl step start [RNew true 0 1; RNew false 1 1] = Ok (Some s) /\ rlocked s true 0 /\ rlocked s false 1)
  /\ (exists s, foldl step start [RNew true 0 1; RNew false 1 1; RDestroy 1; RNew true 2 2] = Ok (Some s)
        /\ rlocked s true 0 /\ rlocked s true 2)
  /\ foldl step start [RNew true 0 1; RNew false 1 1; RDestroy 1; RDestroy 0] = Fail Indeterminate.
Proof.
  split_and!; [| | reflexivity]; eexists; (split; [reflexivity |]); split; eexists; split; reflexivity.
Qed.

(** ** The start of a thread *)

Inductive truns : world -> list action -> world -> Prop :=
  | tr_nil w : truns w [] w
  | tr_cons w a w1 tr w2 : step w a = Ok (Some w1) -> truns w1 tr w2 -> truns w (a :: tr) w2.

Section start.
Context (cb : nat) (name : string) (me : Z).

Definition phase (p : child) : Z :=
  match p with Unborn => -1 | RThis => 0 | RName => 1 | RId => 2 | RCb => 3 | RNotify _ => 4 | RCall _ => 5 | RDone _ => 6 end.

Definition carries (p : child) : Prop := match p with RNotify c | RCall c | RDone c => c = Some cb | _ => True end.

(** What the new thread has done by its place in [run]; the semaphore is 1 between
    [notify] and the end of the creator's [wait]. *)
Definition start_ok (w : world) : Prop :=
  let t := th w in let n := phase (pc w) in
  self w = me
  /\ m_name t = (if String.eqb name "" then "UNKNOW" else name)%string
  /\ match cr w with CCreate | CThrown => n = -1 | _ => 0 <= n end
  /\ (1 <= n -> t_thread (tl w) = true)
  /\ (2 <= n -> t_thread_name (tl w) = m_name t)
  /\ (3 <= n -> m_id t = GetThreadId me)
  /\ m_cb t = (if 4 <=? n then None else Some cb)
  /\ carries (pc w)
  /\ m_semaphore t = (match cr w with CReturned => 0 | _ => if 5 <=? n then 1 else 0 end)
  /\ (cr w = CReturned -> 5 <= n)
  /\ m_thread t = (if n =? -1 then 0 else me)
  /\ ran w = (if n =? 6 then [cb] else []).

Ltac start_solve H1 H2 H3 H7 :=
  unfold start_ok; cbn; split_and!; intros;
  first [done | lia | apply H1; lia | apply H2; lia | apply H3; lia | apply H7; congruence].

Lemma thread_world_ok : start_ok (start_world cb name me).
Proof. unfold start_ok. cbn. split_and!; intros; first [done | lia]. Qed.

Lemma start_step_ok w a : start_ok w -> a <> AWait true ->
  exists r, step w a = Ok r /\ forall w', r = Some w' -> start_ok w'.
Proof.
  intros Hw Ha. destruct w as [[id thr c nm sem] [tt tn] p k s r]. unfold start_ok in Hw. cbn in Hw.
  destruct Hw as (-> & -> & Hc & H1 & H2 & H3 & -> & H5 & -> & H7 & -> & ->).
  destruct a as [rt | [] | ]; [| done | |].
  - destruct k; cbn; try by eexists. destruct p; try done. cbn.
    destruct (rt =? 0) eqn:E; cbn; eexists; (split; [reflexivity |]); intros w' [= <-]; start_solve H1 H2 H3 H7.
  - destruct k; cbn; try by eexists. unfold wait. destruct (5 <=? phase p) eqn:E; cbn; [| by eexists].
    eexists. split; [reflexivity |]. intros w' [= <-]. start_solve H1 H2 H3 H7.
  - destruct p as [| | | | | c0 | c0 | c0]; cbn in *; try (by eexists); try subst c0; cbn; destruct k; cbn;
      first [lia | specialize (H7 eq_refl); lia | eexists; split; [reflexivity |]; intros w' [= <-]; start_solve H1 H2 H3 H7].
Qed.

Lemma start_runs_ok w tr w' : start_ok w -> AWait true ∉ tr -> truns w tr w' -> start_ok w'.
Proof.
  intros Hw Hi Hr. induction Hr as [| w a w1 tr w2 E _ IH]; [done |]. apply not_elem_of_cons in Hi as [Ha Hi]. apply IH; [| done].
  destruct (start_step_ok w a Hw) as (r & E' & Hr); [congruence |]. apply Hr. congruence.
Qed.

(** The new thread goes on until it has run its function, whatever its creator
    does. *)
Lemma child_advances w : start_ok w -> 0 <= phase (pc w) < 6 ->
  exists w', step w AChild = Ok (Some w') /\ phase (pc w') = phase (pc w) + 1 /\ cr w' = cr w.
Proof.
  intros Hw Hn. destruct (start_step_ok w AChild Hw) as (r & E & _); [done |].
  destruct w as [t l p k s r0]. unfold start_ok in Hw. cbn in *. destruct Hw as (_ & _ & _ & _ & _ & _ & _ & Hc & Hsem & _).
  destruct p; cbn in *; try lia; try (eexists; split_and!; reflexivity); [| subst cb0; eexists; split_and!; reflexivity].
  unfold notify. rewrite Hsem. destruct k; eexists; split_and!; reflexivity.
Qed.

Lemma child_gets_to n w : start_ok w -> 0 <= phase (pc w) -> phase (pc w) + Z.of_nat n <= 6 ->
  exists w', truns w (replicate n AChild) w' /\ phase (pc w') = phase (pc w) + Z.of_nat n /\ cr w' = cr w.
Proof.
  revert w. induction n as [| n IH]; intros w Hw H0 H6; [exists w; split_and!; [constructor | lia | done] |].
  destruct (child_advances w Hw) as (w1 & E & Hp & Hk); [lia |]. assert (H1 : start_ok w1).
  { destruct (start_step_ok w AChild Hw) as (r & E' & Hr); [done |]. apply Hr. congruence. }
  destruct (IH w1 H1) as (w2 & Hr & Hp2 & Hk2); [lia | lia |]. exists w2. split_and!; [by econstructor | lia | congruence].
Qed.

Lemma truns_app w tr1 w1 tr2 w2 : truns w tr1 w1 -> truns w1 tr2 w2 -> truns w (tr1 ++ tr2) w2.
Proof. intros Hr. induction Hr; [done |]. intros H2. econstructor; [done | by auto]. Qed.

Lemma constructor_returns w : start_ok w -> cr w = CWait ->
  exists tr w', (AWait true ∉ tr) /\ truns w tr w' /\ cr w' = CReturned.
Proof.
  intros Hw Hk. assert (Hn : 0 <= phase (pc w)) by (destruct Hw as (_ & _ & Hc & _); by rewrite Hk in Hc).
  assert (Hg : exists w', truns w (replicate (Z.to_nat (5 - phase (pc w))) AChild) w' /\ 5 <= phase (pc w') /\ cr w' = CWait).
  { destruct (decide (5 <= phase (pc w))); [exists w; replace (Z.to_nat _) with 0%nat by lia; split_and!; [constructor | done | done] |].
    destruct (child_gets_to (Z.to_nat (5 - phase (pc w))) w Hw) as (w' & Hr & Hp & Hk'); [done | lia |]. exists w'. split_and!; [done | lia | congruence]. }
  destruct Hg as (w' & Hr & Hp & Hk'). assert (Hno : AWait true ∉ replicate (Z.to_nat (5 - phase (pc w))) AChild) by (intros [? _]%elem_of_replicate; done).
  assert (Hw' := start_runs_ok _ _ _ Hw Hno Hr). destruct Hw' as (_ & _ & _ & _ & _ & _ & _ & _ & Hsem & _). rewrite Hk' in Hsem.
  replace (5 <=? phase (pc w')) with true in Hsem by lia.
  destruct w' as [t l p k s0 r0]. cbn in *. subst k. exists (replicate (Z.to_nat (5 - phase (pc w))) AChild ++ [AWait false]).
  eexists. split_and!; [| eapply truns_app; [exact Hr | econstructor; [cbn; unfold wait; rewrite Hsem; reflexivity | constructor]] | reflexivity].
  intros [? | Hx]%elem_of_app; [done |]. by apply list_elem_of_singleton in Hx.
Qed.
End start.

(** C16: A thread is set up before its constructor returns. However the creator and
    the new thread interleave, and unless a signal interrupts the wait: no step
    throws but a failed [pthread_create]; once the constructor has returned,
    the thread's id and name, its [t_thread] and the handle to join are set and its
    function has been taken out of the object; the function runs at most once,
    and never when the constructor threw; and as long as the constructor waits,
    there is a way to its return. *)
Theorem thread_ready cb name me tr w :
  AWait true ∉ tr -> truns (start_world cb name me) tr w ->
  (forall a, a <> AWait true -> exists r, step w a = Ok r)
  /\ (cr w = CReturned -> m_id (th w) = GetThreadId me /\ m_thread (th w) = me /\ m_cb (th w) = None
        /\ t_thread (tl w) = true /\ t_thread_name (tl w) = m_name (th w))
  /\ (ran w = [] \/ ran w = [cb] /\ exists c, pc w = RDone c)
  /\ (cr w = CThrown -> ran w = [] /\ m_thread (th w) = 0)
  /\ (cr w = CWait -> exists tr' w', (AWait true ∉ tr') /\ truns w tr' w' /\ cr w' = CReturned).
Proof.
  intros Hi Hr. assert (Hw := start_runs_ok cb name me _ _ _ (thread_world_ok cb name me) Hi Hr). split_and!.
  - intros a Ha. destruct (start_step_ok cb name me w a Hw Ha) as (r & E & _). by exists r.
  - intros Hk. destruct Hw as (_ & _ & _ & H1 & H2 & H3 & -> & _ & _ & H7 & -> & _). specialize (H7 Hk).
    replace (phase (pc w) =? -1) with false by lia. replace (4 <=? phase (pc w)) with true by lia.
    split_and!; [apply H3; lia | done | done | apply H1; lia | apply H2; lia].
  - destruct Hw as (_ & _ & _ & _ & _ & _ & _ & _ & _ & _ & _ & ->). destruct (pc w) as [| | | | | | | c]; cbn; auto. right. split; [done | by exists c].
  - intros Hk. destruct Hw as (_ & _ & Hc & _ & _ & _ & _ & _ & _ & _ & -> & ->). rewrite Hk in Hc. by rewrite Hc.
  - intros Hk. by eapply constructor_returns.
Qed.

(** The new thread has got past its function when the creator sees the semaphore. *)
Lemma thread_ready_witness :
  exists w, truns (start_world 7 "" 140000000000) (ACreate 0 :: replicate 6 AChild ++ [AWait false]) w
    /\ m_id (th w) = -1733920768 /\ t_thread_name (tl w) = "UNKNOW"%string /\ ran w = [7%nat].
Proof.
  assert (Hr : exists w, truns (start_world 7 "" 140000000000) (ACreate 0 :: replicate 6 AChild ++ [AWait false]) w /\ cr w = CReturned /\ ran w = [7%nat]
            /\ m_name (th w) = "UNKNOW"%string).
  { eexists. split; [repeat (econstructor; [vm_compute; reflexivity |]); constructor |]. split_and!; reflexivity. }
  destruct Hr as (w & Hr & Hk & Hran & Hn). exists w.
  assert (Hi : AWait true ∉ ACreate 0 :: replicate 6 AChild ++ [AWait false])
    by (cbn; intros Hx; repeat (apply elem_of_cons in Hx as [Hx | Hx]; [done |]); by apply not_elem_of_nil in Hx).
  destruct (thread_ready 7 "" 140000000000 _ w Hi Hr) as (_ & Hret & _).
  destruct (Hret Hk) as (Hid & _ & _ & _ & Htn). split_and!; [exact Hr | rewrite Hid; reflexivity | by rewrite Htn | exact Hran].
Defined.

(** A signal during the wait: the constructor returns an object whose id is not set
    and whose function the thread has still to take from it. *)
Theorem interrupted_start_not_ready :
  exists w, truns (start_world 7 "io" 140000000000) [ACreate 0; AWait true] w
    /\ cr w = CReturned /\ m_id (th w) = -1 /\ m_cb (th w) = Some 7%nat.
Proof. eexists. split; [repeat (econstructor; [reflexivity |]); constructor |]. by split_and!. Qed.

(** Two threads whose handles differ by 2^32 get the same id. *)
Theorem thread_ids_collide : GetThreadId 139637976721984 = GetThreadId (139637976721984 + 2 ^ 32).
Proof. reflexivity. Qed.

(** ** The end of a thread *)

Fixpoint joins (n : nat) (t : Thread) (p : pthread) : outcome (Thread * pthread) :=
  match n with O => Ok (t, p) | S n => '(t, p) ← join t p; joins n t p end.

(** However often a thread is joined before its object goes, it is joined or
    detached exactly once and nothing fails. *)
Theorem thread_reaped_once t n : m_thread t <> 0 ->
  ('(t, p) ← joins n t Joinable; destroy t p) = Ok (if decide (n = 0%nat) then Detached else Joined).
Proof.
  intros Ht. destruct n as [| n]; cbn.
  - unfold destroy. by destruct (m_thread t =? 0) eqn:E; [lia |].
  - unfold join at 1. destruct (m_thread t =? 0) eqn:E; [lia |]. cbn. assert (Hj : forall n u p, m_thread u = 0 -> joins n u p = Ok (u, p)).
    { clear. intros n. induction n as [| n IH]; intros u p Hu; [done |]. cbn. unfold join. rewrite Hu. cbn. by apply IH. }
    rewrite Hj by done. reflexivity.
Qed.
