(* ===== verification/Timer.v ===== *)
(** Timers of sylar/timer.cc: [Timer] objects shared between their owners and
    the [TimerManager]'s ordered set, the operations on both, and the step
    relation of a manager under arbitrary calls. *)

From stdpp Require Import gmap sorting.
From S2P Require Import Prelude.

Module Tm.

Local Open Scope Z_scope.

(** ** Data *)

(** A callback: a function, or one bound to a condition by
    [addConditionTimer]. *)
Inductive callback :=
  | Cb (id : nat)
  | CondCb (weak_cond : nat) (id : nat).

Record Timer := mkTimer {
  m_recurring : bool;
  m_ms : Z;
  m_next : Z;
  m_cb : option callback;      (* [None]: the empty function *)
}.

(** Addresses of [Timer] objects. *)
Abbreviation addr := nat.

Record TimerManager := mkManager {
  heap : gmap addr Timer;      (* the timer objects *)
  m_timers : list addr;        (* the std::set, in order *)
  m_tickled : bool;
  m_previouseTime : Z;
  fronts : nat;                (* calls of onTimerInsertedAtFront *)
}.

Definition set_heap (m : TimerManager) h := mkManager h (m_timers m) (m_tickled m) (m_previouseTime m) (fronts m).
Definition set_timers (m : TimerManager) l := mkManager (heap m) l (m_tickled m) (m_previouseTime m) (fronts m).
Definition set_tickled (m : TimerManager) b := mkManager (heap m) (m_timers m) b (m_previouseTime m) (fronts m).
Definition set_previous (m : TimerManager) t := mkManager (heap m) (m_timers m) (m_tickled m) t (fronts m).
Definition add_front (m : TimerManager) := mkManager (heap m) (m_timers m) (m_tickled m) (m_previouseTime m) (S (fronts m)).

Definition with_cb (t : Timer) cb := mkTimer (m_recurring t) (m_ms t) (m_next t) cb.
Definition with_next (t : Timer) n := mkTimer (m_recurring t) (m_ms t) n (m_cb t).
Definition with_ms (t : Timer) n := mkTimer (m_recurring t) n (m_next t) (m_cb t).

(** ** The ordered set *)

(** [Timer::Comparator] on non-null pointers: by time, then by address. *)
Definition key_lt (k1 k2 : Z * addr) : bool :=
  (k1.1 <? k2.1) || (negb (k2.1 <? k1.1) && (k1.2 <? k2.2)%nat).

Definition key (h : gmap addr Timer) (p : addr) : Z * addr :=
  (from_option m_next 0 (h !! p), p).

Definition less (h : gmap addr Timer) (a b : addr) : bool := key_lt (key h a) (key h b).

(** [std::set::insert] *)
Fixpoint set_insert (h : gmap addr Timer) (x : addr) (l : list addr) : list addr :=
  match l with
  | [] => [x]
  | y :: l' => if less h x y then x :: l
               else if less h y x then y :: set_insert h x l' else l
  end.

(** [std::set::find] followed by the comparison with [end()] *)
Fixpoint set_find (h : gmap addr Timer) (x : addr) (l : list addr) : bool :=
  match l with
  | [] => false
  | y :: l' => if less h y x then set_find h x l' else negb (less h x y)
  end.

(** [std::set::erase] of the element [find] returned *)
Fixpoint set_erase (h : gmap addr Timer) (x : addr) (l : list addr) : list addr :=
  match l with
  | [] => []
  | y :: l' => if less h y x then y :: set_erase h x l' else l'
  end.

(** [std::set::lower_bound]: the elements before the iterator and those from it. *)
Fixpoint lower_bound (h : gmap addr Timer) (k : Z * addr) (l : list addr) : list addr * list addr :=
  match l with
  | [] => ([], [])
  | y :: l' => if key_lt (key h y) k then let '(a, b) := lower_bound h k l' in (y :: a, b)
               else ([], l)
  end.

(** ** Timer operations *)

Definition new_TimerManager (now : Z) : TimerManager := mkManager ∅ [] false now 0.

(** The constructor [Timer(ms, cb, recurring, manager)]. *)
Definition new_Timer (ms : Z) (cb : option callback) (recurring : bool) (now : Z) : Timer :=
  mkTimer recurring ms (u64 (now + ms)) cb.

(** [TimerManager::addTimer(Timer::ptr, WriteLock&)] *)
Definition addTimer_locked (m : TimerManager) (p : addr) : TimerManager :=
  let m := set_timers m (set_insert (heap m) p (m_timers m)) in
  let at_front := bool_decide (head (m_timers m) = Some p) && negb (m_tickled m) in
  if at_front then add_front (set_tickled m true) else m.

(** [TimerManager::addTimer(ms, cb, recurring)]; [p] is the address of the new
    object. *)
Definition addTimer (m : TimerManager) (p : addr) (ms : Z) (cb : option callback)
    (recurring : bool) (now : Z) : TimerManager :=
  addTimer_locked (set_heap m (<[p := new_Timer ms cb recurring now]> (heap m))) p.

Definition addConditionTimer (m : TimerManager) (p : addr) (ms : Z) (id : nat)
    (weak_cond : nat) (recurring : bool) (now : Z) : TimerManager :=
  addTimer m p ms (Some (CondCb weak_cond id)) recurring now.

(** [OnTimer]: the bound callback runs only while its condition is alive. *)
Definition OnTimer (alive : nat -> bool) (weak_cond id : nat) : option nat :=
  if alive weak_cond then Some id else None.

Definition run_callback (alive : nat -> bool) (cb : callback) : option nat :=
  match cb with
  | Cb id => Some id
  | CondCb weak_cond id => OnTimer alive weak_cond id
  end.

Definition cancel (m : TimerManager) (p : addr) : outcome (bool * TimerManager) :=
  t ← of_ptr (heap m !! p);
  match m_cb t with
  | None => Ok (false, m)
  | Some _ =>
      let m := set_heap m (<[p := with_cb t None]> (heap m)) in
      if set_find (heap m) p (m_timers m)
      then Ok (true, set_timers m (set_erase (heap m) p (m_timers m)))
      else Fail NullDeref   (* erase(end()) *)
  end.

Definition refresh (m : TimerManager) (p : addr) (now : Z) : outcome (bool * TimerManager) :=
  t ← of_ptr (heap m !! p);
  match m_cb t with
  | None => Ok (false, m)
  | Some _ =>
      if set_find (heap m) p (m_timers m) then
        let m := set_timers m (set_erase (heap m) p (m_timers m)) in
        let m := set_heap m (<[p := with_next t (u64 (now + m_ms t))]> (heap m)) in
        Ok (true, set_timers m (set_insert (heap m) p (m_timers m)))
      else Ok (false, m)
  end.

Definition reset (m : TimerManager) (p : addr) (ms : Z) (from_now : bool) (now : Z) :
    outcome (bool * TimerManager) :=
  t ← of_ptr (heap m !! p);
  if (ms =? m_ms t) && negb from_now then Ok (true, m) else
  match m_cb t with
  | None => Ok (false, m)
  | Some _ =>
      if set_find (heap m) p (m_timers m) then
        let m := set_timers m (set_erase (heap m) p (m_timers m)) in
        let start := if from_now then now else u64 (m_next t - m_ms t) in
        let t := with_ms t ms in
        let m := set_heap m (<[p := with_next t (u64 (start + m_ms t))]> (heap m)) in
        Ok (true, addTimer_locked m p)
      else Ok (false, m)
  end.

(** ** Manager operations *)

Definition getNextTimer (m : TimerManager) (now_ms : Z) : Z * TimerManager :=
  let m := set_tickled m false in
  match m_timers m with
  | [] => (UINT64_MAX, m)
  | p :: _ =>
      let next := (key (heap m) p).1 in
      ((if next <=? now_ms then 0 else next - now_ms), m)
  end.

Definition hasTimer (m : TimerManager) : bool := match m_timers m with [] => false | _ => true end.

Definition detectClockRollover (m : TimerManager) (now_ms : Z) : bool * TimerManager :=
  let rollover := (now_ms <? m_previouseTime m)
                  && (now_ms <? u64 (m_previouseTime m - 60 * 60 * 1000)) in
  (rollover, set_previous m now_ms).

(** The advance of the iterator over timers due exactly now. *)
Fixpoint skip_due (h : gmap addr Timer) (now_ms : Z) (l : list addr) : list addr * list addr :=
  match l with
  | [] => ([], [])
  | y :: l' => if (key h y).1 =? now_ms then let '(a, b) := skip_due h now_ms l' in (y :: a, b)
               else ([], l)
  end.

(** The final loop over the expired timers. *)
Fixpoint fire (expired : list addr) (now_ms : Z) (m : TimerManager) (cbs : list (option callback)) :
    outcome (list (option callback) * TimerManager) :=
  match expired with
  | [] => Ok (cbs, m)
  | p :: expired =>
      t ← of_ptr (heap m !! p);
      let cbs := cbs ++ [m_cb t] in
      if m_recurring t then
        let m := set_heap m (<[p := with_next t (u64 (now_ms + m_ms t))]> (heap m)) in
        fire expired now_ms (set_timers m (set_insert (heap m) p (m_timers m))) cbs
      else
        fire expired now_ms (set_heap m (<[p := with_cb t None]> (heap m))) cbs
  end.

(** [TimerManager::listExpiredCb]; [now_timer] is the address of the temporary
    key object. *)
Definition listExpiredCb (m : TimerManager) (now_ms : Z) (now_timer : addr) :
    outcome (list (option callback) * TimerManager) :=
  match m_timers m with
  | [] => Ok ([], m)
  | first :: _ =>
      let '(rollover, m) := detectClockRollover m now_ms in
      if negb rollover && (now_ms <? (key (heap m) first).1) then Ok ([], m) else
      let '(before, from) := if rollover then (m_timers m, [])
                             else lower_bound (heap m) (now_ms, now_timer) (m_timers m) in
      let '(due, rest) := skip_due (heap m) now_ms from in
      fire (before ++ due) now_ms (set_timers m rest) []
  end.

(** ** The invariant and the step relation *)

Abbreviation ordered h := (StronglySorted (fun a b => less h a b = true)).

(** The set is strictly ordered, holds live objects only, and holds every timer
    that still has a callback. *)
Record inv (m : TimerManager) : Prop := mkInv {
  inv_sorted : ordered (heap m) (m_timers m);
  inv_live : forall p, p ∈ m_timers m -> is_Some (heap m !! p);
  inv_armed : forall p t, heap m !! p = Some t -> m_cb t <> None -> p ∈ m_timers m;
}.

(** One call on a manager or on one of its timers. *)
Inductive step : TimerManager -> TimerManager -> Prop :=
  | step_add m p ms cb recurring now :
      heap m !! p = None -> step m (addTimer m p ms cb recurring now)
  | step_cancel m p b m' : cancel m p = Ok (b, m') -> step m m'
  | step_refresh m p now b m' : refresh m p now = Ok (b, m') -> step m m'
  | step_reset m p ms from_now now b m' : reset m p ms from_now now = Ok (b, m') -> step m m'
  | step_next m now : step m (getNextTimer m now).2
  | step_expire m now q cbs m' : listExpiredCb m now q = Ok (cbs, m') -> step m m'.

(** The callbacks of timers, in the order of the list. *)
Definition callbacks (h : gmap addr Timer) (l : list addr) : list (option callback) :=
  (fun p => h !! p ≫= m_cb) <$> l.

#[local] Arguments callbacks : simpl never.

(** ** The order *)

Lemma key_lt_irrefl k : key_lt k k = false.
Proof. unfold key_lt. rewrite Z.ltb_irrefl, Nat.ltb_irrefl. by destruct (_ : bool). Qed.

Lemma key_lt_spec k1 k2 :
  key_lt k1 k2 = true <-> k1.1 < k2.1 \/ (k1.1 = k2.1 /\ (k1.2 < k2.2)%nat).
Proof.
  unfold key_lt. rewrite orb_true_iff, andb_true_iff, negb_true_iff, Z.ltb_lt, Z.ltb_ge, Nat.ltb_lt. lia.
Qed.

Lemma key_lt_false k1 k2 :
  key_lt k1 k2 = false <-> k2.1 < k1.1 \/ (k1.1 = k2.1 /\ (k2.2 <= k1.2)%nat).
Proof.
  rewrite <- not_true_iff_false, key_lt_spec. lia.
Qed.

Lemma less_total h a b : less h a b = false -> less h b a = false -> a = b.
Proof. unfold less. rewrite !key_lt_false. simpl. lia. Qed.

Lemma less_trans h a b c : less h a b = true -> less h b c = true -> less h a c = true.
Proof. unfold less. rewrite !key_lt_spec. lia. Qed.

Lemma less_asym h a b : less h a b = true -> less h b a = false.
Proof. unfold less. rewrite key_lt_spec, key_lt_false. lia. Qed.

Lemma less_irrefl h a : less h a a = false.
Proof. apply key_lt_irrefl. Qed.

Lemma less_next h a b : less h a b = true -> (key h a).1 <= (key h b).1.
Proof. unfold less. rewrite key_lt_spec. lia. Qed.

(** The order only depends on the times of the elements. *)
Lemma less_ext h h' a b :
  (key h a).1 = (key h' a).1 -> (key h b).1 = (key h' b).1 -> less h a b = less h' a b.
Proof. unfold less, key_lt, key; simpl. by intros -> ->. Qed.

Lemma ordered_ext h h' l :
  (forall y, y ∈ l -> (key h y).1 = (key h' y).1) -> ordered h l -> ordered h' l.
Proof.
  intros He. induction 1 as [|x l Hl IH Hx]; constructor.
  - apply IH. intros y Hy. apply He. set_solver.
  - rewrite Forall_forall in *. intros y Hy. rewrite <- (less_ext h h'); [by apply Hx | |]; apply He; set_solver.
Qed.

Lemma ordered_NoDup h l : ordered h l -> NoDup l.
Proof.
  induction 1 as [|x l Hl IH Hx]; constructor; [| done].
  intros Hin. rewrite Forall_forall in Hx. specialize (Hx x Hin). by rewrite less_irrefl in Hx.
Qed.

Lemma ordered_sublist h l k : sublist l k -> ordered h k -> ordered h l.
Proof.
  intros Hs. induction Hs as [|x l k Hs IH|x l k Hs IH]; intros Ho; [done | |];
    apply StronglySorted_inv in Ho as [Ho Hx]; [| by auto].
  constructor; [auto |]. rewrite Forall_forall in *. intros y Hy. apply Hx. by eapply elem_of_sublist.
Qed.

(** ** The set operations on ordered lists *)

Lemma set_insert_elem h x l y : y ∈ set_insert h x l <-> y = x \/ y ∈ l.
Proof.
  induction l as [|z l IH]; simpl; [set_solver |].
  destruct (less h x z) eqn:E1; [set_solver |].
  destruct (less h z x) eqn:E2; [set_solver |].
  rewrite (less_total h x z E1 E2). set_solver.
Qed.

Lemma set_insert_ordered h x l : ordered h l -> ordered h (set_insert h x l).
Proof.
  induction 1 as [|z l Hl IH Hz]; simpl; [by repeat constructor |].
  destruct (less h x z) eqn:E1.
  - constructor; [by constructor |]. constructor; [done |].
    eapply Forall_impl; [exact Hz |]. intros y Hy. by eapply less_trans.
  - destruct (less h z x) eqn:E2; [| by constructor].
    constructor; [done |]. rewrite Forall_forall in *. intros y Hy.
    apply set_insert_elem in Hy as [-> | Hy]; auto.
Qed.

Lemma set_find_elem h x l : ordered h l -> set_find h x l = true <-> x ∈ l.
Proof.
  induction 1 as [|z l Hl IH Hz]; simpl; [set_solver |].
  rewrite Forall_forall in Hz. destruct (less h z x) eqn:E1.
  - rewrite IH. split; [set_solver |]. intros [-> | ?]%elem_of_cons; [| done].
    by rewrite less_irrefl in E1.
  - rewrite negb_true_iff. split.
    + intros E2. rewrite (less_total h x z); set_solver.
    + intros [-> | Hx]%elem_of_cons; [apply less_irrefl |]. by rewrite (Hz x Hx) in E1.
Qed.

Lemma set_erase_sublist h x l : sublist (set_erase h x l) l.
Proof. induction l as [|z l IH]; simpl; [done |]. destruct (less h z x); by constructor. Qed.

Lemma set_erase_elem h x l y : ordered h l -> x ∈ l -> y ∈ set_erase h x l <-> y ∈ l /\ y <> x.
Proof.
  induction 1 as [|z l Hl IH Hz]; simpl; [set_solver |].
  intros Hx. rewrite Forall_forall in Hz. destruct (less h z x) eqn:E1.
  - assert (z <> x) by (intros ->; by rewrite less_irrefl in E1).
    rewrite elem_of_cons, IH by set_solver. set_solver.
  - apply elem_of_cons in Hx as [-> | Hx].
    + split; [| set_solver]. intros Hy. split; [set_solver |]. intros ->.
      specialize (Hz z Hy). by rewrite less_irrefl in Hz.
    + by rewrite (Hz x Hx) in E1.
Qed.

(** Splitting at the current time. *)
Lemma lower_bound_spec h now q l a b :
  ordered h l -> lower_bound h (now, q) l = (a, b) ->
  l = a ++ b /\ Forall (fun y => (key h y).1 <= now) a /\ Forall (fun y => now <= (key h y).1) b.
Proof.
  intros Hl; revert a b; induction Hl as [|z l Hl IH Hz]; simpl; intros a b Heq; [by simplify_eq |].
  destruct (key_lt (key h z) (now, q)) eqn:E.
  - destruct (lower_bound h (now, q) l) as [a' b']. simplify_eq.
    destruct (IH a' b eq_refl) as (-> & ? & ?). apply key_lt_spec in E. simpl in E.
    split_and!; [done | constructor; [simpl; lia | done] | done].
  - simplify_eq. apply key_lt_false in E. simpl in E. split_and!; [done | done |].
    constructor; [simpl; lia |]. eapply Forall_impl; [exact Hz |].
    intros y Hy%less_next. simpl in *. lia.
Qed.

Lemma skip_due_spec h now l a b :
  ordered h l -> Forall (fun y => now <= (key h y).1) l -> skip_due h now l = (a, b) ->
  l = a ++ b /\ Forall (fun y => (key h y).1 <= now) a /\ Forall (fun y => now < (key h y).1) b.
Proof.
  intros Hl; revert a b; induction Hl as [|z l Hl IH Hz]; simpl; intros a b Hge Heq; [by simplify_eq |].
  apply Forall_cons in Hge as [Hge1 Hge2].
  destruct (_ =? now) eqn:E; to_props.
  - destruct (skip_due h now l) as [a' b']. simplify_eq.
    destruct (IH a' b Hge2 eq_refl) as (-> & ? & ?).
    split_and!; [done | constructor; [simpl; lia | done] | done].
  - simplify_eq. split_and!; [done | done |]. simpl in *.
    constructor; [simpl; lia |]. eapply Forall_impl; [exact Hz |].
    intros y Hy%less_next. simpl in *. lia.
Qed.

(** ** Operations preserve the invariant *)

Lemma key_insert_ne h p t y : y <> p -> key (<[p := t]> h) y = key h y.
Proof. intros. unfold key. by rewrite lookup_insert_ne. Qed.

Lemma key_insert_same h p t t' :
  h !! p = Some t -> m_next t' = m_next t -> forall y, key (<[p := t']> h) y = key h y.
Proof.
  intros Hp Hn y. destruct (decide (y = p)) as [-> | Hy]; [| by apply key_insert_ne].
  unfold key. by rewrite lookup_insert_eq, Hp; simpl; rewrite Hn.
Qed.

(** Heap updates outside the set, or that keep the times, keep its order. *)
Lemma ordered_insert_out h l p t : p ∉ l -> ordered h l -> ordered (<[p := t]> h) l.
Proof. intros Hp. apply ordered_ext. intros y Hy. rewrite key_insert_ne; [done | set_solver]. Qed.

Lemma ordered_insert_same h l p t t' :
  h !! p = Some t -> m_next t' = m_next t -> ordered h l -> ordered (<[p := t']> h) l.
Proof. intros Hp Hn. apply ordered_ext. intros y _. by rewrite (key_insert_same h p t t'). Qed.

(** Inserting a (possibly modified) timer that is not in the set. *)
Lemma insert_inv m p t :
  inv m -> p ∉ m_timers m \/ heap m !! p = None ->
  inv (mkManager (<[p := t]> (heap m)) (set_insert (<[p := t]> (heap m)) p (m_timers m))
                 (m_tickled m) (m_previouseTime m) (fronts m)).
Proof.
  intros [Hs Hl Ha] Hp. assert (Hout : p ∉ m_timers m).
  { destruct Hp as [? | Hn]; [done |]. intros Hin. destruct (Hl p Hin). congruence. }
  constructor; simpl.
  - by apply set_insert_ordered, ordered_insert_out.
  - intros q. rewrite set_insert_elem. intros [-> | Hq]; [by rewrite lookup_insert_eq |].
    rewrite lookup_insert_ne by set_solver. auto.
  - intros q t' Hq Hcb. rewrite set_insert_elem. destruct (decide (q = p)) as [-> | Hne]; [by left |].
    rewrite lookup_insert_ne in Hq by done. right. eauto.
Qed.

(** The fields of a manager the invariant does not mention. *)
Lemma inv_same_set m m' : heap m' = heap m -> m_timers m' = m_timers m -> inv m -> inv m'.
Proof. intros Hh Ht [Hs Hl Ha]. constructor; rewrite ?Hh, ?Ht; done. Qed.

Lemma addTimer_locked_fields m p :
  heap (addTimer_locked m p) = heap m
  /\ m_timers (addTimer_locked m p) = set_insert (heap m) p (m_timers m).
Proof. unfold addTimer_locked. destruct (_ && _); done. Qed.

Lemma addTimer_inv m p ms cb r now : inv m -> heap m !! p = None -> inv (addTimer m p ms cb r now).
Proof.
  intros Hinv Hp. destruct (addTimer_locked_fields (set_heap m (<[p := new_Timer ms cb r now]> (heap m))) p)
    as [Hh Ht].
  eapply inv_same_set; [| | apply (insert_inv m p (new_Timer ms cb r now) Hinv (or_intror Hp))];
    [apply Hh | apply Ht].
Qed.

(** Taking an armed timer out of the set. *)
Lemma erase_spec m p t :
  inv m -> heap m !! p = Some t -> p ∈ m_timers m ->
  let m' := set_timers m (set_erase (heap m) p (m_timers m)) in
  (p ∉ m_timers m') /\ ordered (heap m) (m_timers m')
  /\ forall q, q ∈ m_timers m' <-> q ∈ m_timers m /\ q <> p.
Proof.
  intros [Hs Hl Ha] Hp Hin m'. simpl. split_and!.
  - rewrite set_erase_elem by done. tauto.
  - eapply ordered_sublist; [apply set_erase_sublist | done].
  - intros q. by apply set_erase_elem.
Qed.

Lemma reinsert_inv m p t t' tick prev fr :
  inv m -> heap m !! p = Some t -> p ∈ m_timers m ->
  inv (mkManager (<[p := t']> (heap m))
        (set_insert (<[p := t']> (heap m)) p (set_erase (heap m) p (m_timers m))) tick prev fr).
Proof.
  intros Hinv Hp Hin. destruct (erase_spec m p t Hinv Hp Hin) as (Hout & Hord & Hel).
  destruct Hinv as [Hs Hl Ha]. simpl in *. constructor; simpl.
  - by apply set_insert_ordered, ordered_insert_out.
  - intros q. rewrite set_insert_elem, Hel. intros [-> | [Hq Hne]]; [by rewrite lookup_insert_eq |].
    rewrite lookup_insert_ne by done. auto.
  - intros q t1 Hq Hcb. rewrite set_insert_elem, Hel. destruct (decide (q = p)) as [-> | Hne]; [by left |].
    rewrite lookup_insert_ne in Hq by done. right. eauto.
Qed.

Lemma cancel_spec m p t :
  inv m -> heap m !! p = Some t ->
  exists m', cancel m p = Ok (bool_decide (m_cb t <> None), m') /\ inv m'
    /\ heap m' = <[p := with_cb t None]> (heap m)
    /\ (forall q, q ∈ m_timers m' <-> q ∈ m_timers m /\ (m_cb t = None \/ q <> p)).
Proof.
  intros Hinv Hp. unfold cancel. rewrite Hp. simpl. destruct (m_cb t) as [cb|] eqn:Hcb.
  - assert (Hin : p ∈ m_timers m) by (eapply inv_armed; [done | done | by rewrite Hcb]).
    pose proof Hinv as [Hs Hl Ha].
    assert (Hs' : ordered (<[p := with_cb t None]> (heap m)) (m_timers m))
      by (by eapply ordered_insert_same).
    rewrite (proj2 (set_find_elem _ p _ Hs') Hin). eexists; split; [by rewrite bool_decide_eq_true_2 |].
    split; [| split; [done |]].
    + constructor; simpl.
      * eapply ordered_sublist; [apply set_erase_sublist | done].
      * intros q. rewrite set_erase_elem by done. intros [Hq Hne].
        rewrite lookup_insert_ne by done. auto.
      * intros q t1 Hq Hcb1. rewrite set_erase_elem by done.
        destruct (decide (q = p)) as [-> | Hne].
        { rewrite lookup_insert_eq in Hq. by simplify_eq. }
        rewrite lookup_insert_ne in Hq by done. split; [eauto | done].
    + intros q. simpl. rewrite set_erase_elem by done. naive_solver.
  - exists m. rewrite bool_decide_eq_false_2 by naive_solver. split_and!; try done.
    + symmetry. apply insert_id. rewrite Hp. destruct t; simpl in *. by subst.
    + naive_solver.
Qed.

Lemma refresh_inv m p now b m' : inv m -> refresh m p now = Ok (b, m') -> inv m'.
Proof.
  intros Hinv. unfold refresh. destruct (heap m !! p) as [t|] eqn:Hp; simpl; [| done].
  destruct (m_cb t); [| naive_solver].
  destruct (set_find _ _ _) eqn:Hf; [| naive_solver].
  apply set_find_elem in Hf; [| apply Hinv]. intros H. simplify_eq.
  by apply (reinsert_inv m p t).
Qed.

Lemma reset_inv m p ms fn now b m' : inv m -> reset m p ms fn now = Ok (b, m') -> inv m'.
Proof.
  intros Hinv. unfold reset. destruct (heap m !! p) as [t|] eqn:Hp; simpl; [| done].
  destruct (_ && _); [naive_solver |]. destruct (m_cb t); [| naive_solver].
  destruct (set_find _ _ _) eqn:Hf; [| naive_solver].
  apply set_find_elem in Hf; [| apply Hinv]. intros H. simplify_eq.
  match goal with |- inv (addTimer_locked ?x p) => destruct (addTimer_locked_fields x p) as [Hh Ht] end.
  eapply inv_same_set; [| | eapply (reinsert_inv m p t _ (m_tickled m) (m_previouseTime m) (fronts m))];
    [exact Hh | exact Ht | done..].
Qed.

(** ** Firing *)

(** The object after its timer has fired at [now]. *)
Definition fired (now : Z) (t : Timer) : Timer :=
  if m_recurring t then with_next t (u64 (now + m_ms t)) else with_cb t None.

Lemma fire_spec expired now m cbs :
  ordered (heap m) (m_timers m) -> NoDup expired ->
  (forall p, p ∈ expired -> p ∉ m_timers m) ->
  (forall p, p ∈ m_timers m \/ p ∈ expired -> is_Some (heap m !! p)) ->
  (forall p t, heap m !! p = Some t -> m_cb t <> None -> p ∈ m_timers m \/ p ∈ expired) ->
  exists m', fire expired now m cbs = Ok (cbs ++ callbacks (heap m) expired, m') /\ inv m'
    /\ (forall q, heap m' !! q = if decide (q ∈ expired) then fired now <$> heap m !! q else heap m !! q)
    /\ (forall q, q ∈ m_timers m' <->
          q ∈ m_timers m \/ (q ∈ expired /\ exists t, heap m !! q = Some t /\ m_recurring t = true)).
Proof.
  revert m cbs; induction expired as [|p expired IH]; intros m cbs Hord Hnd Hdis Hlive Harm.
  { exists m. simpl. rewrite app_nil_r. split_and!; try done; [| set_solver].
    constructor; [done | set_solver |]. intros p t Hp Hcb. destruct (Harm p t Hp Hcb); set_solver. }
  apply NoDup_cons in Hnd as [Hp Hnd].
  destruct (Hlive p) as [t Ht]; [set_solver |].
  assert (Hpt : p ∉ m_timers m) by (apply Hdis; set_solver).
  simpl. rewrite Ht. simpl.
  set (m1 := if m_recurring t
    then set_timers (set_heap m (<[p := fired now t]> (heap m)))
           (set_insert (<[p := fired now t]> (heap m)) p (m_timers m))
    else set_heap m (<[p := fired now t]> (heap m))).
  assert (Hstep : (if m_recurring t then
      fire expired now (set_timers (set_heap m (<[p := with_next t (u64 (now + m_ms t))]> (heap m)))
        (set_insert (<[p := with_next t (u64 (now + m_ms t))]> (heap m)) p (m_timers m))) (cbs ++ [m_cb t])
      else fire expired now (set_heap m (<[p := with_cb t None]> (heap m))) (cbs ++ [m_cb t]))
    = fire expired now m1 (cbs ++ [m_cb t])) by (subst m1; unfold fired; by destruct (m_recurring t)).
  simpl in Hstep. rewrite Hstep. clear Hstep.
  assert (Hh1 : heap m1 = <[p := fired now t]> (heap m)) by (subst m1; by destruct (m_recurring t)).
  assert (Ht1 : forall q, q ∈ m_timers m1 <-> q ∈ m_timers m \/ (q = p /\ m_recurring t = true)).
  { intros q. subst m1. destruct (m_recurring t); simpl; [rewrite set_insert_elem |]; naive_solver. }
  destruct (IH m1 (cbs ++ [m_cb t])) as (m' & -> & Hinv & Hheap & Htim).
  - subst m1. destruct (m_recurring t); simpl;
      [apply set_insert_ordered |]; by apply ordered_insert_out.
  - done.
  - intros q Hq. rewrite Ht1. intros [? | [-> _]]; [| done]. eapply Hdis; [| done]. set_solver.
  - intros q Hq. rewrite Hh1. destruct (decide (q = p)) as [-> | Hne]; [by rewrite lookup_insert_eq |].
    rewrite lookup_insert_ne by done. apply Hlive. rewrite Ht1 in Hq. set_solver.
  - intros q t1 Hq Hcb. rewrite Hh1 in Hq. rewrite Ht1. destruct (decide (q = p)) as [-> | Hne].
    + rewrite lookup_insert_eq in Hq. injection Hq as <-. unfold fired in Hcb.
      destruct (m_recurring t); [by left; right | done].
    + rewrite lookup_insert_ne in Hq by done. destruct (Harm q t1 Hq Hcb) as [? | Hq']; [by left; left |].
      right. set_solver.
  - exists m'. split_and!.
    + assert (callbacks (heap m) (p :: expired) = m_cb t :: callbacks (heap m) expired) as ->
        by (unfold callbacks; csimpl; by rewrite Ht).
      rewrite <- app_assoc. do 4 f_equal. unfold callbacks.
      apply list_fmap_ext. intros i q Hq. rewrite Hh1, lookup_insert_ne; [done |].
      intros ->. apply Hp, list_elem_of_lookup. by exists i.
    + exact Hinv.
    + intros q. rewrite Hheap, Hh1. destruct (decide (q = p)) as [-> | Hne].
      * rewrite decide_False by done. rewrite decide_True by set_solver. by rewrite lookup_insert_eq, Ht.
      * rewrite lookup_insert_ne by done. destruct (decide (q ∈ expired)).
        -- by rewrite decide_True by set_solver.
        -- by rewrite decide_False by set_solver.
    + intros q. rewrite Htim, Ht1, Hh1. destruct (decide (q = p)) as [-> | Hne].
      * rewrite lookup_insert_eq. split; [| naive_solver set_solver].
        intros [[? | [_ Hr]] | [? _]]; [by left | right | done]. split; [set_solver | eauto].
      * rewrite lookup_insert_ne by done. set_solver.
Qed.

(** The timers [listExpiredCb] takes at time [now]: the due ones, or all of them
    when the clock went back by more than an hour. *)
Definition due (m : TimerManager) (now : Z) : list addr :=
  if (detectClockRollover m now).1 then m_timers m
  else filter (fun p => (key (heap m) p).1 <= now) (m_timers m).

Lemma filter_split {A} (P : A -> Prop) `{!forall x, Decision (P x)} (a b : list A) :
  Forall P a -> Forall (fun x => ~ P x) b -> filter P (a ++ b) = a.
Proof.
  intros Ha Hb. rewrite filter_app.
  assert (filter P b = []) as ->.
  { induction Hb as [|x b Hx Hb IH]; [done |]. by rewrite filter_cons_False. }
  rewrite app_nil_r. induction Ha as [|x a Hx Ha IH]; [done |]. rewrite filter_cons_True by done. by f_equal.
Qed.

(** Firing a prefix of the set. *)
Lemma fire_prefix m now :
  inv m -> forall e r m1, m_timers m = e ++ r -> heap m1 = heap m -> m_timers m1 = r ->
  exists m', fire e now m1 [] = Ok (callbacks (heap m) e, m') /\ inv m'
    /\ (forall p, heap m' !! p = if decide (p ∈ e) then fired now <$> heap m !! p else heap m !! p)
    /\ (forall p, p ∈ m_timers m' <-> (p ∈ m_timers m /\ p ∉ e)
          \/ (p ∈ e /\ exists t, heap m !! p = Some t /\ m_recurring t = true)).
Proof.
  intros [Hs Hl Ha] e r m1 He Hh Ht. pose proof (ordered_NoDup _ _ Hs) as Hnd. rewrite He in Hnd, Hs.
  apply NoDup_app in Hnd as (Hnd1 & Hdis & Hnd2).
  destruct (fire_spec e now m1 []) as (m' & Hf & Hi & Hhp & Htm); rewrite ?Hh, ?Ht; try done.
  - by eapply StronglySorted_app_1_r.
  - intros p Hp. apply Hl. rewrite He. set_solver.
  - intros p t Hp Hcb. specialize (Ha p t Hp Hcb). rewrite He in Ha. set_solver.
  - exists m'. rewrite Hh in Hf, Hhp, Htm. split; [done |]. split; [done |]. split; [done |].
    intros p. rewrite Htm, He, Ht. specialize (Hdis p). set_solver.
Qed.

Lemma listExpiredCb_spec m now q :
  inv m ->
  exists m', listExpiredCb m now q = Ok (callbacks (heap m) (due m now), m') /\ inv m'
    /\ (forall p, heap m' !! p = if decide (p ∈ due m now) then fired now <$> heap m !! p else heap m !! p)
    /\ (forall p, p ∈ m_timers m' <->
          (p ∈ m_timers m /\ (p ∉ due m now))
          \/ (p ∈ due m now /\ exists t, heap m !! p = Some t /\ m_recurring t = true)).
Proof.
  intros Hinv. pose proof Hinv as [Hs Hl Ha]. unfold listExpiredCb.
  pose proof (fire_prefix m now Hinv) as Hfire.
  unfold due. destruct (m_timers m) as [|first l] eqn:Hm.
  { exists m. assert ((if (detectClockRollover m now).1 then [] else
      filter (fun p => (key (heap m) p).1 <= now) []) = []) as -> by (by destruct (_.1)).
    split; [done |]. split; [done |]. split; [| intros p; rewrite Hm; set_solver].
    intros p. by rewrite decide_False by set_solver. }
  destruct (detectClockRollover m now) as [ro m0] eqn:Hro.
  assert (Hm0 : heap m0 = heap m /\ m_timers m0 = m_timers m)
    by (unfold detectClockRollover in Hro; by simplify_eq).
  destruct Hm0 as [Hh0 Ht0]. cbn [fst]. rewrite Hh0, Ht0, Hm in *.
  destruct ro; cbn [negb andb].
  { destruct (Hfire (first :: l) [] (set_timers m0 [])) as (m' & Hf & ?);
      [by rewrite app_nil_r | done | done |].
    cbn [skip_due]. rewrite app_nil_r. exists m'. done. }
  destruct (Z.ltb_spec now (key (heap m) first).1) as [Hlt | Hge].
  { assert (Hnil : filter (fun p => (key (heap m) p).1 <= now) (first :: l) = []).
    { apply (filter_split _ [] (first :: l)); [constructor |].
      apply StronglySorted_inv in Hs as [_ Hx]. constructor; [lia |].
      eapply Forall_impl; [exact Hx |]. intros y Hy%less_next. lia. }
    rewrite Hnil. exists m0.
    split; [done |]. split; [by apply (inv_same_set m) ; rewrite ?Ht0, ?Hm |].
    split; [by intros p; rewrite decide_False, Hh0 by set_solver |].
    intros p. rewrite Ht0. set_solver. }
  destruct (lower_bound (heap m) (now, q) (first :: l)) as [a b] eqn:Hlb.
  destruct (lower_bound_spec (heap m) now q (first :: l) a b Hs Hlb) as (Heq & Hla & Hlb').
  destruct (skip_due (heap m) now b) as [d r] eqn:Hsd.
  destruct (skip_due_spec (heap m) now b d r) as (-> & Hld & Hlr); try done.
  { rewrite Heq in Hs. by eapply StronglySorted_app_1_r. }
  assert (Hfil : filter (fun p => (key (heap m) p).1 <= now) (first :: l) = a ++ d).
  { rewrite Heq, app_assoc. apply filter_split; [by apply Forall_app |].
    eapply Forall_impl; [exact Hlr |]. simpl. lia. }
  rewrite Hfil.
  destruct (Hfire (a ++ d) r (set_timers m0 r)) as (m' & Hf & ?); [by rewrite <- app_assoc | done | done |].
  exists m'. done.
Qed.

(** ** Reachability *)

Lemma step_inv m m' : inv m -> step m m' -> inv m'.
Proof.
  intros Hinv Hst. inversion Hst; subst.
  - by apply addTimer_inv.
  - unfold cancel in H. destruct (heap m !! p) as [t|] eqn:Hp; [| done].
    destruct (cancel_spec m p t Hinv Hp) as (m1 & Hc & Hi & _). unfold cancel in Hc. rewrite Hp in Hc.
    rewrite Hc in H. by simplify_eq.
  - by eapply refresh_inv.
  - by eapply reset_inv.
  - unfold getNextTimer. destruct (m_timers _) eqn:E; simpl; by apply (inv_same_set m).
  - destruct (listExpiredCb_spec m now q Hinv) as (m1 & Hc & Hi & _). rewrite Hc in H. by simplify_eq.
Qed.

Lemma new_TimerManager_inv now : inv (new_TimerManager now).
Proof. constructor; simpl; [constructor | set_solver | intros p t; by rewrite lookup_empty]. Qed.

(** A timer whose callback is gone stays out of the set: only [addTimer] of a
    fresh object, and timers with a callback, enter it. *)
Definition dead (m : TimerManager) (p : addr) : Prop :=
  (exists t, heap m !! p = Some t /\ m_cb t = None) /\ p ∉ m_timers m.

Lemma step_dead m m' p : inv m -> step m m' -> dead m p -> dead m' p.
Proof.
  intros Hinv Hst [(t & Hp & Hcb) Hout]. unfold dead. inversion Hst; subst.
  - destruct (addTimer_locked_fields (set_heap m (<[p0 := new_Timer ms cb recurring now]> (heap m))) p0)
      as [Hh Ht]. unfold addTimer. rewrite Hh, Ht, set_insert_elem. simpl.
    assert (p <> p0) by congruence. rewrite lookup_insert_ne by done. split; [eauto | set_solver].
  - destruct (heap m !! p0) as [t0|] eqn:Hp0; [| by unfold cancel in H; rewrite Hp0 in H].
    destruct (cancel_spec m p0 t0 Hinv Hp0) as (m1 & Hc & _ & Hh & Ht). rewrite Hc in H. simplify_eq.
    rewrite Hh, Ht. split; [| tauto]. destruct (decide (p = p0)) as [-> | Hne].
    + rewrite lookup_insert_eq. eauto.
    + rewrite lookup_insert_ne by done. eauto.
  - unfold refresh in H. destruct (heap m !! p0) as [t0|] eqn:Hp0; simpl in H; [| done].
    destruct (m_cb t0) eqn:Hcb0; [| simplify_eq; by eauto].
    destruct (set_find _ _ _) eqn:Hf; [| simplify_eq; by eauto].
    apply set_find_elem in Hf; [| apply Hinv]. simplify_eq. simpl.
    assert (p <> p0) by (intros ->; done). rewrite lookup_insert_ne by done. split; [by eauto |].
    rewrite set_insert_elem, set_erase_elem; [set_solver | apply Hinv | done].
  - unfold reset in H. destruct (heap m !! p0) as [t0|] eqn:Hp0; simpl in H; [| done].
    destruct (_ && _); [simplify_eq; by eauto |].
    destruct (m_cb t0) eqn:Hcb0; [| simplify_eq; by eauto].
    destruct (set_find _ _ _) eqn:Hf; [| simplify_eq; by eauto].
    apply set_find_elem in Hf; [| apply Hinv]. simplify_eq.
    match goal with |- context [addTimer_locked ?x p0] =>
      destruct (addTimer_locked_fields x p0) as [Hh Ht] end. rewrite Hh, Ht. simpl.
    assert (p <> p0) by (intros ->; done). rewrite lookup_insert_ne by done. split; [by eauto |].
    rewrite set_insert_elem, set_erase_elem; [set_solver | apply Hinv | done].
  - unfold getNextTimer. destruct (m_timers (set_tickled m false)); simpl; eauto.
  - destruct (listExpiredCb_spec m now q Hinv) as (m1 & Hc & _ & Hh & Ht). rewrite Hc in H. simplify_eq.
    assert (Hnd : p ∉ due m now).
    { unfold due. destruct (_.1); [done |]. rewrite list_elem_of_filter. tauto. }
    rewrite Hh, Ht, decide_False by done. split; [eauto | tauto].
Qed.

End Tm.
