(* ===== verification/TimerProps.v ===== *)
(** What the timer manager guarantees: under any sequence of calls its set
    stays ordered and consistent, expiry takes exactly the due timers in time
    order, a cancelled timer never fires, and the wait it computes is exact. *)

From stdpp Require Import gmap sorting relations.
From S2P Require Import Prelude Timer.
Import Tm.

Local Open Scope Z_scope.

Lemma reachable_inv now m : rtc step (new_TimerManager now) m -> inv m.
Proof.
  intros Hr. assert (Hgen : forall a b, rtc step a b -> inv a -> inv b).
  { induction 1; eauto using step_inv. }
  eauto using new_TimerManager_inv.
Qed.

(** In every state reached by any sequence of [addTimer], [cancel],
    [refresh], [reset], [getNextTimer] and [listExpiredCb], the set is strictly
    ordered by time and address, holds only live timers and every timer that has
    a callback; hence [cancel] on a live timer never erases [end()], and takes the
    timer out of the set. *)
Theorem timers_stay_consistent now m :
  rtc step (new_TimerManager now) m ->
  inv m /\ forall p t, heap m !! p = Some t ->
    exists m', cancel m p = Ok (bool_decide (m_cb t <> None), m') /\ inv m'
      /\ (m_cb t <> None -> p ∉ m_timers m').
Proof.
  intros Hr%reachable_inv. split; [done |]. intros p t Hp.
  destruct (cancel_spec m p t Hr Hp) as (m' & Hc & Hi & _ & Ht).
  exists m'. split; [done |]. split; [done |]. intros Hcb. rewrite Ht. naive_solver.
Qed.

Definition demo : TimerManager :=
  addTimer (addTimer (new_TimerManager 100) 7 50 (Some (Cb 1)) true 100) 3 20 (Some (Cb 2)) false 100.

Lemma demo_reachable : rtc step (new_TimerManager 100) demo.
Proof.
  eapply rtc_l; [by apply (step_add _ 7 50 (Some (Cb 1)) true 100) |].
  eapply rtc_l; [by apply (step_add _ 3 20 (Some (Cb 2)) false 100) |]. apply rtc_refl.
Qed.

(** Firing leaves the rest of the manager alone. *)
Lemma fire_frame e now : forall m cbs cbs' m', fire e now m cbs = Ok (cbs', m') ->
  m_tickled m' = m_tickled m /\ fronts m' = fronts m /\ m_previouseTime m' = m_previouseTime m.
Proof.
  induction e as [| p e IH]; intros m cbs cbs' m'; cbn [fire]; [by intros [= <- <-] |].
  destruct (heap m !! p) as [t|]; [| done]. cbn [of_ptr mbind outcome_bind]. destruct (m_recurring t); intros Hf%IH; exact Hf.
Qed.

Lemma expiry_frame m now q cbs m' : listExpiredCb m now q = Ok (cbs, m') ->
  m_tickled m' = m_tickled m /\ fronts m' = fronts m
  /\ m_previouseTime m' = match m_timers m with [] => m_previouseTime m | _ => now end.
Proof.
  unfold listExpiredCb, detectClockRollover. destruct (m_timers m) as [| first l]; [by intros [= <- <-] |].
  cbn [set_previous heap m_timers]. destruct (_ && (now <? (key _ first).1)); [by intros [= <- <-] |].
  repeat case_match; intros Hf%fire_frame; exact Hf.
Qed.

(** The clock went back by more than an hour since the last look at it, in the
    arithmetic of 64 bits. *)
Definition went_back (previous now : Z) : Prop := now < previous /\ now < u64 (previous - 60 * 60 * 1000).

Lemma rollover_went_back m now : (detectClockRollover m now).1 = true <-> went_back (m_previouseTime m) now.
Proof. unfold detectClockRollover, went_back. cbn [fst]. by rewrite andb_true_iff, !Z.ltb_lt. Qed.

(** C4: [listExpiredCb] returns the callbacks of exactly the timers due at [now] -
    all of them when the clock went back by more than an hour - in the order of
    their times; afterwards the one-shot ones have lost their callback and left
    the set, the recurring ones are in it again for [now] plus their period and
    are otherwise as they were, with their callback; all other timers, the
    notification of the front and its count are untouched, and the time is
    remembered. *)
Theorem expiry_exact m now q :
  inv m ->
  exists l m', listExpiredCb m now q = Ok (callbacks (heap m) l, m') /\ inv m'
    /\ ordered (heap m) l
    /\ (forall p, p ∈ l <-> p ∈ m_timers m /\ (went_back (m_previouseTime m) now \/ (key (heap m) p).1 <= now))
    /\ (forall p t, p ∈ l -> heap m !! p = Some t ->
          if m_recurring t then p ∈ m_timers m' /\ heap m' !! p = Some (with_next t (u64 (now + m_ms t)))
          else (p ∉ m_timers m') /\ heap m' !! p = Some (with_cb t None))
    /\ (forall p, p ∉ l -> (p ∈ m_timers m' <-> p ∈ m_timers m) /\ heap m' !! p = heap m !! p)
    /\ m_tickled m' = m_tickled m /\ fronts m' = fronts m
    /\ m_previouseTime m' = match m_timers m with [] => m_previouseTime m | _ => now end.
Proof.
  intros Hinv. destruct (listExpiredCb_spec m now q Hinv) as (m' & Hl & Hi & Hh & Ht).
  exists (due m now), m'. split; [done |]. split; [done |]. destruct (expiry_frame _ _ _ _ _ Hl) as (F1 & F2 & F3).
  split_and!; try done.
  - unfold due. destruct (_.1); [apply Hinv |]. eapply ordered_sublist; [apply sublist_filter | apply Hinv].
  - intros p. rewrite <- rollover_went_back. unfold due. destruct (_.1); [naive_solver |]. rewrite list_elem_of_filter. naive_solver.
  - intros p t Hd Hp. rewrite Hh, decide_True, Hp by done. simpl. unfold fired. destruct (m_recurring t) eqn:Er.
    + rewrite Ht. split; [right; eauto | done].
    + split; [| done]. rewrite Ht. intros [[_ ?] | [_ (t' & Ht' & ?)]]; [done | congruence].
  - intros p Hd. rewrite Ht, Hh, decide_False by done. split; [tauto | done].
Qed.

Lemma expiry_exact_witness :
  exists l m', listExpiredCb demo 150 9 = Ok (callbacks (heap demo) l, m') /\ callbacks (heap demo) l = [Some (Cb 2); Some (Cb 1)]
    /\ heap m' !! 7%nat = Some (mkTimer true 50 200 (Some (Cb 1))).
Proof.
  destruct (expiry_exact demo 150 9 (reachable_inv 100 demo demo_reachable)) as (l & m' & H & Hi & _ & Hl & Hr & _).
  exists l, m'. split; [exact H |]. split.
  - assert (E : exists m0, listExpiredCb demo 150 9 = Ok ([Some (Cb 2); Some (Cb 1)], m0)) by (vm_compute; eexists; reflexivity).
    destruct E as [m0 E]. congruence.
  - apply (Hr 7%nat (mkTimer true 50 150 (Some (Cb 1)))); [| reflexivity]. apply Hl. split; [| right; vm_compute; congruence].
    vm_compute. right. by left.
Defined.

(** Once [cancel] has returned true the timer never fires: in no state
    reached by any further calls is it among the timers [listExpiredCb] takes,
    and [refresh] and [reset] with a new period cannot bring it back. *)
Theorem cancelled_never_fires m p m1 m2 now :
  inv m -> cancel m p = Ok (true, m1) -> rtc step m1 m2 ->
  (p ∉ due m2 now) /\ refresh m2 p now = Ok (false, m2)
  /\ forall ms, reset m2 p ms true now = Ok (false, m2).
Proof.
  intros Hinv Hc Hr. assert (Hd : inv m1 /\ dead m1 p).
  { destruct (heap m !! p) as [t|] eqn:Hp; [| by unfold cancel in Hc; rewrite Hp in Hc].
    destruct (cancel_spec m p t Hinv Hp) as (m' & Hc' & Hi & Hh & Ht). rewrite Hc in Hc'.
    injection Hc' as Hb ->. symmetry in Hb. apply bool_decide_eq_true in Hb.
    split; [done |]. unfold dead. rewrite Hh, Ht, lookup_insert_eq. naive_solver. }
  assert (Hgen : forall a b, rtc step a b -> inv a /\ dead a p -> inv b /\ dead b p).
  { induction 1 as [|a b c Hst _ IH]; [done |]. intros [Hi Hdd]. apply IH. eauto using step_inv, step_dead. }
  destruct (Hgen m1 m2 Hr Hd) as [Hi2 [(t & Hp & Hcb) Hout]].
  split; [| split; [| intros ms]].
  - unfold due. destruct (_.1); [done |]. rewrite list_elem_of_filter. tauto.
  - unfold refresh. rewrite Hp. simpl. by rewrite Hcb.
  - unfold reset. rewrite Hp. simpl. rewrite andb_false_r. by rewrite Hcb.
Qed.

(** [getNextTimer] is exact: it returns [~0ull] only when there is no timer,
    and otherwise the time to the earliest one, 0 when that is already due; so
    no timer is due before the wait ends and one is due when it does. *)
Theorem next_timer_exact m now :
  inv m -> (forall p, p ∈ m_timers m -> in_unsigned 64 (key (heap m) p).1) -> in_unsigned 64 now ->
  let d := (getNextTimer m now).1 in
  (m_timers m = [] -> d = UINT64_MAX)
  /\ (m_timers m <> [] -> 0 <= d < 2 ^ 64
      /\ (forall p, p ∈ m_timers m -> 0 < d -> now + d <= (key (heap m) p).1)
      /\ (exists p, p ∈ m_timers m /\ (key (heap m) p).1 <= now + d)).
Proof.
  intros Hinv Hr Hnow. unfold getNextTimer. cbn [m_timers set_tickled heap].
  destruct (m_timers m) as [|p l] eqn:Hm; simpl; [by split; [| intros []] |].
  split; [done |]. intros _. pose proof (inv_sorted _ Hinv) as Hs. rewrite Hm in Hs.
  apply StronglySorted_inv in Hs as [_ Hs]. rewrite Forall_forall in Hs.
  pose proof (Hr p ltac:(set_solver)) as Hpr. unfold in_unsigned in *. simpl in Hpr.
  destruct (Z.leb_spec (from_option m_next 0 (heap m !! p)) now) as [Hle | Hgt].
  - split; [lia |]. split; [lia |]. exists p. split; [set_solver | simpl; lia].
  - split; [lia |]. split.
    + intros y [-> | Hy]%elem_of_cons _; [simpl; lia |].
      specialize (Hs y Hy). apply less_next in Hs. simpl in *. lia.
    + exists p. split; [set_solver | simpl; lia].
Qed.

(** The sleeping idle thread is told about an earlier timer: adding a timer
    that becomes the first calls [onTimerInsertedAtFront] unless a call is already
    outstanding since the last [getNextTimer], and is never called otherwise. *)
Theorem front_insert_notifies m p ms cb recurring now :
  let m' := addTimer m p ms cb recurring now in
  fronts m' = (if bool_decide (head (m_timers m') = Some p) && negb (m_tickled m)
               then S (fronts m) else fronts m)
  /\ (head (m_timers m') = Some p -> m_tickled m' = true)
  /\ (head (m_timers m') <> Some p -> m_tickled m' = m_tickled m)
  /\ m_tickled (getNextTimer m' now).2 = false.
Proof.
  unfold addTimer, addTimer_locked. cbn [m_timers m_tickled heap set_timers set_heap].
  set (l := set_insert _ p (m_timers m)). unfold getNextTimer.
  destruct (bool_decide (head l = Some p)) eqn:Eh; [apply bool_decide_eq_true in Eh | apply bool_decide_eq_false in Eh];
    destruct (m_tickled m) eqn:Et; simpl; rewrite ?Eh; simpl;
    repeat split; try done; try (by rewrite bool_decide_eq_true_2);
    try (by rewrite bool_decide_eq_false_2); by destruct l.
Qed.
