(* ===== verification/Fiber.v ===== *)
(** Fibers of sylar/fiber.cc on one thread: the fiber objects and their states,
    the thread-local pointers, the context on the CPU, and the switches between
    contexts. *)

From stdpp Require Import gmap.
From S2P Require Import Prelude.

Module Fb.

Local Open Scope Z_scope.

(** ** Data *)

Inductive State := INIT | HOLD | EXEC | TERM | READY | EXCEPT.

#[global] Instance State_eq_dec : EqDecision State.
Proof. solve_decision. Defined.

(** Which entry function [makecontext] installed. *)
Inductive entry := NoEntry | MainFunc | CallerMainFunc.

#[global] Instance entry_eq_dec : EqDecision entry.
Proof. solve_decision. Defined.

Abbreviation fid := nat.

Record Fiber := mkFiber {
  m_id : option Z;          (* [None]: never initialised *)
  m_stacksize : option Z;
  m_state : State;
  m_stack : bool;           (* whether a stack was allocated *)
  m_cb : option nat;        (* the callback, [None] when empty *)
  m_ctx : entry;            (* the entry function of the prepared context *)
}.

(** Global counters, the fiber objects, the thread-locals of one thread and the
    fiber whose context is on its CPU. *)
Record world := mkWorld {
  fibers : gmap fid Fiber;
  s_fiber_id : Z;
  s_fiber_count : Z;
  t_fiber : option fid;         (* the thread's current fiber *)
  t_threadFiber : option fid;   (* the thread's main fiber *)
  sched_fiber : option fid;     (* Scheduler::GetMainFiber() *)
  cpu : option fid;             (* the context executing; [None] before any fiber exists *)
}.

Definition set_fibers (w : world) fs := mkWorld fs (s_fiber_id w) (s_fiber_count w) (t_fiber w) (t_threadFiber w) (sched_fiber w) (cpu w).
Definition set_this (w : world) f := mkWorld (fibers w) (s_fiber_id w) (s_fiber_count w) f (t_threadFiber w) (sched_fiber w) (cpu w).
Definition set_cpu (w : world) f := mkWorld (fibers w) (s_fiber_id w) (s_fiber_count w) (t_fiber w) (t_threadFiber w) (sched_fiber w) f.

Definition with_state (f : Fiber) s := mkFiber (m_id f) (m_stacksize f) s (m_stack f) (m_cb f) (m_ctx f).
Definition with_cb (f : Fiber) cb := mkFiber (m_id f) (m_stacksize f) (m_state f) (m_stack f) cb (m_ctx f).
Definition with_ctx (f : Fiber) c := mkFiber (m_id f) (m_stacksize f) (m_state f) (m_stack f) (m_cb f) c.

(** Store an updated object. *)
Definition put (w : world) (p : fid) (f : Fiber) : world := set_fibers w (<[p := f]> (fibers w)).

Definition is_state (s : State) (f : Fiber) : bool := bool_decide (m_state f = s).

(** TERM, EXCEPT or INIT: the states in which a fiber may be reset or destroyed. *)
Definition restable (f : Fiber) : bool := is_state TERM f || is_state EXCEPT f || is_state INIT f.

(** [swapcontext(&from->m_ctx, &to->m_ctx)]: the running context is saved in
    [from], so it must be [from]'s own for a later switch back to resume it. *)
Definition swapcontext (w : world) (from to : option fid) : outcome world :=
  f ← of_ptr from; t ← of_ptr to;
  _ ← of_ptr (fibers w !! f); _ ← of_ptr (fibers w !! t);
  Ok (set_cpu w to).

(** ** Operations *)

Definition GetFiberId (w : world) : outcome Z :=
  match t_fiber w with
  | Some p => f ← of_ptr (fibers w !! p);
      match m_id f with Some id => Ok id | None => Fail Indeterminate end
  | None => Ok 0
  end.

Definition SetThis (w : world) (f : option fid) : world := set_this w f.

(** The private constructor: the thread's main fiber, at address [p]; the
    caller's stack is its stack. *)
Definition new_main (w : world) (p : fid) : world :=
  let w := mkWorld (<[p := mkFiber None None EXEC false None NoEntry]> (fibers w))
             (s_fiber_id w) (u64 (s_fiber_count w + 1)) (t_fiber w) (t_threadFiber w) (sched_fiber w) (cpu w) in
  SetThis w (Some p).

(** [Fiber(cb, stacksize, use_caller)] at address [p]; [conf] is the value of
    [fiber.stack_size]. *)
Definition new_fiber (w : world) (p : fid) (cb : option nat) (stacksize : Z) (use_caller : bool) (conf : Z) : world :=
  let id := u64 (s_fiber_id w + 1) in
  let size := if stacksize =? 0 then conf else stacksize in
  mkWorld (<[p := mkFiber (Some id) (Some (u32 size)) INIT true cb (if use_caller then CallerMainFunc else MainFunc)]> (fibers w))
    id (u64 (s_fiber_count w + 1)) (t_fiber w) (t_threadFiber w) (sched_fiber w) (cpu w).

(** The destructor. *)
Definition destroy (w : world) (p : fid) : outcome world :=
  f ← of_ptr (fibers w !! p);
  let w := mkWorld (fibers w) (s_fiber_id w) (u64 (s_fiber_count w - 1)) (t_fiber w) (t_threadFiber w) (sched_fiber w) (cpu w) in
  let drop w := set_fibers w (delete p (fibers w)) in
  if m_stack f then _ ← sylar_assert (restable f); Ok (drop w)
  else
    _ ← sylar_assert (bool_decide (m_cb f = None));
    _ ← sylar_assert (is_state EXEC f);
    Ok (drop (if bool_decide (t_fiber w = Some p) then SetThis w None else w)).

Definition reset (w : world) (p : fid) (cb : option nat) : outcome world :=
  f ← of_ptr (fibers w !! p);
  _ ← sylar_assert (m_stack f);
  _ ← sylar_assert (restable f);
  Ok (put w p (with_state (with_ctx (with_cb f cb) MainFunc) INIT)).

Definition call (w : world) (p : fid) : outcome world :=
  f ← of_ptr (fibers w !! p);
  let w := SetThis w (Some p) in
  let w := put w p (with_state f EXEC) in
  swapcontext w (t_threadFiber w) (Some p).

Definition back (w : world) (p : fid) : outcome world :=
  let w := SetThis w (t_threadFiber w) in
  swapcontext w (Some p) (t_threadFiber w).

Definition SwapIn (w : world) (p : fid) : outcome world :=
  let w := SetThis w (Some p) in
  f ← of_ptr (fibers w !! p);
  _ ← sylar_assert (negb (is_state EXEC f));
  let w := put w p (with_state f EXEC) in
  swapcontext w (sched_fiber w) (Some p).

Definition SwapOut (w : world) (p : fid) : outcome world :=
  let w := SetThis w (sched_fiber w) in
  swapcontext w (Some p) (sched_fiber w).

(** [GetThis]; [p] is where a main fiber is created when the thread has none. *)
Definition GetThis (w : world) (p : fid) : outcome (fid * world) :=
  match t_fiber w with
  | Some q => Ok (q, w)
  | None =>
      let w := new_main w p in
      _ ← sylar_assert (bool_decide (t_fiber w = Some p));
      Ok (p, mkWorld (fibers w) (s_fiber_id w) (s_fiber_count w) (t_fiber w) (Some p) (sched_fiber w)
               (match cpu w with Some c => Some c | None => Some p end))
  end.

Definition YieldToReady (w : world) (p : fid) : outcome world :=
  '(cur, w) ← GetThis w p;
  f ← of_ptr (fibers w !! cur);
  SwapOut (put w cur (with_state f READY)) cur.

Definition YieldToHold (w : world) (p : fid) : outcome world :=
  '(cur, w) ← GetThis w p;
  f ← of_ptr (fibers w !! cur);
  _ ← sylar_assert (is_state EXEC f);
  SwapOut (put w cur (with_state f HOLD)) cur.

Definition TotalFibers (w : world) : Z := s_fiber_count w.

(** The end of [MainFunc]: the callback has returned, or thrown. *)
Definition finish (w : world) (cur : fid) (threw : bool) : outcome world :=
  f ← of_ptr (fibers w !! cur);
  Ok (put w cur (if threw then with_state f EXCEPT else with_state (with_cb f None) TERM)).

Definition MainFunc_end (w : world) (p : fid) (threw : bool) : outcome world :=
  '(cur, w) ← GetThis w p;
  w ← finish w cur threw;
  SwapOut w cur.

Definition CallerMainFunc_end (w : world) (p : fid) (threw : bool) : outcome world :=
  '(cur, w) ← GetThis w p;
  w ← finish w cur threw;
  back w cur.

(** ** The discipline of one worker thread *)

(** The current-fiber pointer names the context on the CPU, the thread has its
    main fiber, and every fiber but the running ones is suspended. *)
Record inv (w : world) : Prop := mkInv {
  inv_this : t_fiber w = cpu w;
  inv_cpu : exists p f, cpu w = Some p /\ fibers w !! p = Some f;
  inv_main : exists p f, t_threadFiber w = Some p /\ fibers w !! p = Some f;
  inv_sched : exists p f, sched_fiber w = Some p /\ fibers w !! p = Some f;
}.

(** What a thread whose scheduling fiber is its main fiber does: the scheduler
    swaps a fiber in; the running fiber yields, finishes, creates or resets
    others. *)
Inductive step (w : world) : world -> Prop :=
  | step_swapin p w' : cpu w = sched_fiber w -> SwapIn w p = Ok w' -> step w w'
  | step_ready q w' : cpu w <> sched_fiber w -> YieldToReady w q = Ok w' -> step w w'
  | step_hold q w' : cpu w <> sched_fiber w -> YieldToHold w q = Ok w' -> step w w'
  | step_end q threw w' : cpu w <> sched_fiber w -> MainFunc_end w q threw = Ok w' -> step w w'
  | step_new p cb size uc conf : fibers w !! p = None -> step w (new_fiber w p cb size uc conf)
  | step_reset p cb w' : reset w p cb = Ok w' -> step w w'
  | step_destroy p w' : cpu w <> Some p -> sched_fiber w <> Some p -> t_threadFiber w <> Some p ->
      destroy w p = Ok w' -> step w w'.

(** ** Lemmas *)

Lemma put_lookup w p f q : is_Some (fibers w !! q) -> is_Some (fibers (put w p f) !! q).
Proof.
  intros [g Hg]. simpl. destruct (decide (p = q)) as [-> | Hne];
    [rewrite lookup_insert_eq | rewrite lookup_insert_ne by done]; eauto.
Qed.

Definition named (w : world) (o : option fid) : Prop := exists p f, o = Some p /\ fibers w !! p = Some f.

Lemma named_put w p f o : named w o -> named (put w p f) o.
Proof.
  intros (q & g & -> & Hq). destruct (put_lookup w p f q) as [g' Hg']; [eauto |]. by exists q, g'.
Qed.

Lemma inv_iff w : inv w <-> t_fiber w = cpu w /\ named w (cpu w) /\ named w (t_threadFiber w) /\ named w (sched_fiber w).
Proof. split; [intros []; done | intros (? & ? & ? & ?); by constructor]. Qed.

Lemma SwapOut_spec w cur :
  named w (Some cur) -> named w (sched_fiber w) ->
  SwapOut w cur = Ok (set_cpu (set_this w (sched_fiber w)) (sched_fiber w)).
Proof.
  intros (p & f & [= <-] & Hp) (s & g & Hs & Hg). unfold SwapOut, swapcontext. simpl.
  rewrite Hs. simpl. by rewrite Hp, Hg.
Qed.

Lemma SwapIn_spec w p f :
  fibers w !! p = Some f -> named w (sched_fiber w) ->
  SwapIn w p = if is_state EXEC f then Fail AssertFail
               else Ok (set_cpu (set_this (put w p (with_state f EXEC)) (Some p)) (Some p)).
Proof.
  intros Hp Hs. unfold SwapIn. simpl. rewrite Hp. simpl. destruct (is_state EXEC f); [done |]. simpl.
  destruct (named_put w p (with_state f EXEC) _ Hs) as (s & g & Hs' & Hg).
  unfold swapcontext. simpl in *. rewrite Hs'. simpl. rewrite Hg, lookup_insert_eq. done.
Qed.

Lemma GetThis_running w q p : t_fiber w = Some p -> GetThis w q = Ok (p, w).
Proof. unfold GetThis. by intros ->. Qed.

(** Every way a running fiber leaves the CPU resumes the scheduling fiber. *)
Lemma leave_spec w p f f' :
  inv w -> cpu w = Some p -> fibers w !! p = Some f ->
  SwapOut (put w p f') p = Ok (set_cpu (set_this (put w p f') (sched_fiber w)) (sched_fiber w)).
Proof.
  intros Hinv Hc Hp. apply inv_iff in Hinv as (_ & _ & _ & Hs).
  rewrite SwapOut_spec; [done | | by apply named_put].
  exists p, f'. split; [done |]. apply lookup_insert_eq.
Qed.

Lemma leave_inv w p f' :
  inv w -> inv (set_cpu (set_this (put w p f') (sched_fiber w)) (sched_fiber w)).
Proof.
  rewrite !inv_iff. intros (_ & _ & Hm & Hs). unfold named in *. simpl.
  split_and!; [done | | |]; [| destruct Hm as (q & g & -> & Hq) |]; try destruct Hs as (q & g & -> & Hq);
    destruct (put_lookup w p f' q) as [g' Hg']; eauto.
Qed.

Lemma step_preserves w w' : inv w -> step w w' -> inv w'.
Proof.
  intros Hinv Hst. pose proof Hinv as (Ht & (c & fc & Hc & Hfc) & Hm & Hs)%inv_iff.
  assert (Hthis : t_fiber w = Some c) by congruence.
  inversion Hst as [p ? _ H | q ? _ H | q ? _ H | q threw ? _ H | p cb size uc conf Hfresh | p cb ? H
                   | p ? Hnc Hns Hnm H]; subst.
  - destruct (fibers w !! p) as [f|] eqn:Hp.
    + rewrite (SwapIn_spec w p f) in H by done. destruct (is_state EXEC f); [done |]. simplify_eq.
      apply inv_iff. simpl. split_and!; [done | | by apply (named_put w) | by apply (named_put w)].
      exists p, (with_state f EXEC). split; [done |]. apply lookup_insert_eq.
    + unfold SwapIn in H. simpl in H. by rewrite Hp in H.
  - unfold YieldToReady in H. rewrite (GetThis_running w q c), bind_Ok, Hfc in H by done. simpl in H.
    rewrite (leave_spec w c fc) in H by done. simplify_eq. by apply leave_inv.
  - unfold YieldToHold in H. rewrite (GetThis_running w q c), bind_Ok, Hfc in H by done. simpl in H.
    destruct (is_state EXEC fc); simpl in H; [| done].
    rewrite (leave_spec w c fc) in H by done. simplify_eq. by apply leave_inv.
  - unfold MainFunc_end in H. rewrite (GetThis_running w q c), bind_Ok in H by done.
    unfold finish in H. rewrite Hfc in H. simpl in H.
    rewrite (leave_spec w c fc) in H by done. simplify_eq. by apply leave_inv.
  - apply inv_iff. unfold named in *. simpl. rewrite Hc.
    assert (Hk : forall o, named w o -> exists p0 f0, o = Some p0 /\
      <[p := mkFiber (Some (u64 (s_fiber_id w + 1))) (Some (u32 (if size =? 0 then conf else size))) INIT true cb
               (if uc then CallerMainFunc else MainFunc)]> (fibers w) !! p0 = Some f0).
    { intros o (q & g & -> & Hq). exists q, g. split; [done |]. rewrite lookup_insert_ne; [done | congruence]. }
    split_and!; [done | apply Hk; by exists c, fc | by apply Hk | by apply Hk].
  - unfold reset in H. destruct (fibers w !! p) as [f|] eqn:Hp; simpl in H; [| done].
    destruct (m_stack f); simpl in H; [| done]. destruct (restable f); simpl in H; [| done]. simplify_eq.
    apply inv_iff. split_and!; [done | | by apply (named_put w) | by apply (named_put w)].
    apply (named_put w). by exists c, fc.
  - unfold destroy in H. destruct (fibers w !! p) as [f|] eqn:Hp; simpl in H; [| done].
    assert (Hk : forall o, named w o -> o <> Some p -> exists p0 f0, o = Some p0 /\ delete p (fibers w) !! p0 = Some f0).
    { intros o (q & g & -> & Hq) Hne. exists q, g. split; [done |].
      rewrite lookup_delete_ne; [done | congruence]. }
    assert (Hbd : bool_decide (t_fiber w = Some p) = false) by (apply bool_decide_eq_false; congruence).
    rewrite Hbd in H. destruct (m_stack f).
    + destruct (restable f); simpl in H; [| done]. simplify_eq. apply inv_iff. unfold named. simpl.
      split_and!; [done | apply Hk; [by exists c, fc | done] | by apply Hk | by apply Hk].
    + destruct (bool_decide (m_cb f = None)); simpl in H; [| done].
      destruct (is_state EXEC f); simpl in H; [| done]. simplify_eq. apply inv_iff. unfold named. simpl.
      split_and!; [done | apply Hk; [by exists c, fc | done] | by apply Hk | by apply Hk].
Qed.

End Fb.
