(* ===== verification/FiberProps.v ===== *)
(** What the fiber layer guarantees on one thread: switches keep the current
    fiber pointer and the CPU context together, control always returns to the
    scheduling fiber, and a fiber follows its life cycle. *)

From stdpp Require Import gmap relations.
From S2P Require Import Prelude Fiber.
Import Fb.

Local Open Scope Z_scope.

(** A thread after [Fiber::GetThis()] created its main fiber at address 0 and
    the scheduler took it as its scheduling fiber. *)
Definition boot : world :=
  mkWorld {[0%nat := mkFiber None None EXEC false None NoEntry]} 0 1 (Some 0%nat) (Some 0%nat) (Some 0%nat) (Some 0%nat).

Lemma boot_inv : inv boot.
Proof.
  apply inv_iff. unfold named. simpl. split_and!; [done | | |];
    exists 0%nat, (mkFiber None None EXEC false None NoEntry); done.
Qed.

Lemma boot_from_GetThis :
  GetThis (mkWorld ∅ 0 0 None None None None) 0
  = Ok (0%nat, mkWorld (fibers boot) 0 1 (Some 0%nat) (Some 0%nat) None (Some 0%nat)).
Proof. reflexivity. Qed.

(** On a worker thread, whatever fibers are created, swapped in, yield,
    finish, throw, are reset or destroyed, [t_fiber] always names the context
    that is on the CPU, and the main and scheduling fibers stay alive. *)
Theorem current_fiber_is_on_cpu w : rtc step boot w -> inv w.
Proof.
  intros Hr. assert (Hgen : forall a b, rtc step a b -> inv a -> inv b).
  { induction 1; eauto using step_preserves. }
  eauto using boot_inv.
Qed.

(** The states a fiber may move between in one step. *)
Definition may_become (s s' : State) : bool :=
  match s, s' with
  | (INIT | HOLD | READY | TERM | EXCEPT), EXEC => true     (* swapped in *)
  | EXEC, (READY | HOLD | TERM | EXCEPT) => true            (* yields or ends *)
  | (INIT | TERM | EXCEPT), INIT => true                    (* reset *)
  | _, _ => bool_decide (s = s')
  end.

Lemma destroy_fibers w q w' : destroy w q = Ok w' -> fibers w' = delete q (fibers w).
Proof.
  unfold destroy. intros H. destruct (fibers w !! q) as [g|] eqn:Hq; simpl in H; [| done]. destruct (m_stack g).
  - destruct (restable g); simpl in H; [| done]. by simplify_eq.
  - destruct (bool_decide (m_cb g = None)); simpl in H; [| done]. destruct (is_state EXEC g); simpl in H; [| done].
    destruct (bool_decide (t_fiber w = Some q)); by simplify_eq.
Qed.

(** A fiber follows its life cycle: in any step of its thread an existing
    fiber keeps its state or moves along it - swapped in to EXEC from any other
    state but never from EXEC, from EXEC only to READY, HOLD, TERM or EXCEPT by
    its own yield or end, and back to INIT only by a reset after it ended. *)
Theorem fiber_life_cycle w w' p f f' :
  inv w -> (forall q g, fibers w !! q = Some g -> cpu w = Some q -> cpu w <> sched_fiber w -> m_state g = EXEC) ->
  step w w' -> fibers w !! p = Some f -> fibers w' !! p = Some f' ->
  may_become (m_state f) (m_state f') = true.
Proof.
  intros Hinv Hexec Hst Hp Hp'.
  pose proof Hinv as (Ht & (c & fc & Hc & Hfc) & Hm & Hs)%inv_iff.
  assert (Hthis : t_fiber w = Some c) by congruence.
  assert (Hsame : forall g, f' = g -> m_state g = m_state f -> may_become (m_state f) (m_state f') = true).
  { intros g -> ->. by destruct (m_state f). }
  assert (Hput : forall q g, <[q := g]> (fibers w) !! p = Some f' ->
    (p = q /\ f' = g) \/ (p <> q /\ f' = f)).
  { intros q g H. destruct (decide (q = p)) as [-> | Hne].
    - rewrite lookup_insert_eq in H. naive_solver.
    - rewrite lookup_insert_ne in H by done. right. split; congruence. }
  inversion Hst as [q ? _ H | q ? Hne H | q ? Hne H | q threw ? Hne H | q cb size uc conf Hfresh | q cb ? H
                   | q ? Hnc Hns Hnm H]; subst.
  - destruct (fibers w !! q) as [g|] eqn:Hq; [| by unfold SwapIn in H; simpl in H; rewrite Hq in H].
    rewrite (SwapIn_spec w q g) in H by done. destruct (is_state EXEC g) eqn:E; [done |]. simplify_eq.
    apply Hput in Hp' as [[-> ->] | [_ ->]]; [| by apply (Hsame f)].
    rewrite Hp in Hq. simplify_eq. apply bool_decide_eq_false in E. simpl. by destruct (m_state g).
  - unfold YieldToReady in H. rewrite (GetThis_running w q c), bind_Ok, Hfc in H by done. simpl in H.
    rewrite (leave_spec w c fc) in H by done. simplify_eq.
    apply Hput in Hp' as [[-> ->] | [_ ->]]; [| by apply (Hsame f)].
    rewrite Hp in Hfc. simplify_eq. by rewrite (Hexec c fc).
  - unfold YieldToHold in H. rewrite (GetThis_running w q c), bind_Ok, Hfc in H by done. simpl in H.
    destruct (is_state EXEC fc) eqn:E; simpl in H; [| done].
    rewrite (leave_spec w c fc) in H by done. simplify_eq.
    apply Hput in Hp' as [[-> ->] | [_ ->]]; [| by apply (Hsame f)].
    rewrite Hp in Hfc. simplify_eq. apply bool_decide_eq_true in E. by rewrite E.
  - unfold MainFunc_end in H. rewrite (GetThis_running w q c), bind_Ok in H by done.
    unfold finish in H. rewrite Hfc in H. simpl in H. rewrite (leave_spec w c fc) in H by done. simplify_eq.
    apply Hput in Hp' as [[-> ->] | [_ ->]]; [| by apply (Hsame f)].
    rewrite Hp in Hfc. simplify_eq. rewrite (Hexec c fc) by done. by destruct threw.
  - apply Hput in Hp' as [[-> ->] | [_ ->]]; [congruence | by apply (Hsame f)].
  - unfold reset in H. destruct (fibers w !! q) as [g|] eqn:Hq; simpl in H; [| done].
    destruct (m_stack g); simpl in H; [| done]. destruct (restable g) eqn:E; simpl in H; [| done]. simplify_eq.
    apply Hput in Hp' as [[-> ->] | [_ ->]]; [| by apply (Hsame f)].
    rewrite Hp in Hq. simplify_eq. unfold restable, is_state in E. simpl. by destruct (m_state g).
  - pose proof (destroy_fibers _ _ _ H) as Hdel.
    rewrite Hdel in Hp'. destruct (decide (q = p)) as [-> | Hne].
    + by rewrite lookup_delete_eq in Hp'.
    + rewrite lookup_delete_ne in Hp' by done. apply (Hsame f); congruence.
Qed.

Definition one : world := new_fiber boot 5 (Some 1%nat) 0 false 131072.

(** A round trip through a fiber: swapped in by the scheduling fiber and
    yielding, it is suspended in HOLD or READY with its callback and context
    kept, the scheduling fiber is running again, and the fiber can be swapped in
    once more; when its callback ends it is TERM with the callback released, or
    EXCEPT if it threw, and may be destroyed. *)
Theorem fiber_round_trip w p f q :
  inv w -> cpu w = sched_fiber w -> sched_fiber w <> Some p -> t_threadFiber w <> Some p ->
  fibers w !! p = Some f -> m_state f <> EXEC -> m_stack f = true ->
  exists w1, SwapIn w p = Ok w1 /\ cpu w1 = Some p /\ t_fiber w1 = Some p
  /\ (exists w2, YieldToHold w1 q = Ok w2 /\ cpu w2 = sched_fiber w /\ fibers w2 !! p = Some (with_state f HOLD)
       /\ is_ok (SwapIn w2 p) = true)
  /\ (exists w2, YieldToReady w1 q = Ok w2 /\ cpu w2 = sched_fiber w /\ fibers w2 !! p = Some (with_state f READY)
       /\ is_ok (SwapIn w2 p) = true)
  /\ (forall threw, exists w2, MainFunc_end w1 q threw = Ok w2 /\ cpu w2 = sched_fiber w
       /\ fibers w2 !! p = Some (if threw then with_state f EXCEPT else with_cb (with_state f TERM) None)
       /\ is_ok (destroy w2 p) = true).
Proof.
  intros Hinv Hcpu Hns Hnm Hp Hst Hstk.
  assert (Hsw : step w (set_cpu (set_this (put w p (with_state f EXEC)) (Some p)) (Some p))).
  { eapply (step_swapin _ p); [done |]. apply inv_iff in Hinv as (_ & _ & _ & Hs).
    rewrite (SwapIn_spec w p f) by done. unfold is_state. by rewrite bool_decide_eq_false_2. }
  set (w1 := set_cpu _ _) in Hsw. pose proof (step_preserves w w1 Hinv Hsw) as Hinv1.
  assert (Hp1 : fibers w1 !! p = Some (with_state f EXEC)) by apply lookup_insert_eq.
  assert (Hleave : forall g, SwapOut (put w1 p g) p
    = Ok (set_cpu (set_this (put w1 p g) (sched_fiber w)) (sched_fiber w)))
    by (intros g; by apply (leave_spec w1 p (with_state f EXEC))).
  assert (Hre : forall g, m_state g <> EXEC ->
    is_ok (SwapIn (set_cpu (set_this (put w1 p g) (sched_fiber w)) (sched_fiber w)) p) = true).
  { intros g Hg. rewrite (SwapIn_spec _ p g).
    - unfold is_state. by rewrite bool_decide_eq_false_2.
    - apply lookup_insert_eq.
    - pose proof (leave_inv w1 p g Hinv1) as Hi. apply inv_iff in Hi as (_ & _ & _ & Hs). exact Hs. }
  exists w1. split_and!; [| done | done | | |].
  - apply inv_iff in Hinv as (_ & _ & _ & Hs). rewrite (SwapIn_spec w p f) by done.
    unfold is_state. by rewrite bool_decide_eq_false_2.
  - unfold YieldToHold. rewrite (GetThis_running w1 q p), bind_Ok, Hp1 by done. simpl.
    change (with_state (with_state f EXEC) HOLD) with (with_state f HOLD). rewrite Hleave.
    eexists. split; [done |]. split; [done |]. split; [apply lookup_insert_eq | by apply Hre].
  - unfold YieldToReady. rewrite (GetThis_running w1 q p), bind_Ok, Hp1 by done. simpl.
    change (with_state (with_state f EXEC) READY) with (with_state f READY). rewrite Hleave.
    eexists. split; [done |]. split; [done |]. split; [apply lookup_insert_eq | by apply Hre].
  - intros threw. unfold MainFunc_end. rewrite (GetThis_running w1 q p), bind_Ok by done.
    unfold finish. rewrite Hp1. simpl. rewrite Hleave. eexists. split; [done |]. split; [done |].
    simpl. rewrite lookup_insert_eq. split; [by destruct threw |].
    unfold destroy. simpl. rewrite lookup_insert_eq. simpl. destruct threw; simpl; by rewrite Hstk.
Qed.

(** The main fiber of a thread has no id: asking for it reads an uninitialised
    member. *)
Theorem main_fiber_id_uninitialised : GetFiberId boot = Fail Indeterminate.
Proof. reflexivity. Qed.
