(* ===== verification/Scheduler.v ===== *)
(** The N:M scheduler of sylar/scheduler.h and scheduler.cc: the shared task
    queue and counters, and every thread inside [run()] as a program counter
    over the fiber operations of the Fiber component.

    Each action below is what one thread does between two points where another
    thread can interfere: one critical section, one atomic counter update, one
    context switch or one store to a fiber's state. *)

From stdpp Require Import gmap.
From S2P Require Import Prelude Fiber.

Module Sc.

Import Fb.
Local Open Scope Z_scope.

(** ** Tasks *)

Record FiberAndThread := mkFT { fiber : option fid; cb : option nat; thread : Z }.

#[global] Instance FT_eq_dec : EqDecision FiberAndThread.
Proof. solve_decision. Defined.

Definition FT_of_fiber (f : option fid) (thr : Z) := mkFT f None thr.
Definition FT_of_cb (f : option nat) (thr : Z) := mkFT None f thr.
Definition FT_null := mkFT None None (-1).

(** What the range overload is given: pointers to fibers or to callbacks. *)
Inductive source := SFiber (f : option fid) | SCb (c : option nat).

(** The constructors taking a pointer swap the content out of it. *)
Definition FT_of_ptr (p : source) (thr : Z) : FiberAndThread * source :=
  match p with
  | SFiber f => (mkFT f None thr, SFiber None)
  | SCb c => (mkFT None c thr, SCb None)
  end.

Definition nonnull (ft : FiberAndThread) : bool :=
  bool_decide (is_Some (fiber ft)) || bool_decide (is_Some (cb ft)).

(** [scheduleNoLock]: the new queue and whether to tickle. *)
Definition scheduleNoLock (q : list FiberAndThread) (ft : FiberAndThread) : list FiberAndThread * bool :=
  let need_tickle := bool_decide (q = []) in
  (if nonnull ft then q ++ [ft] else q, need_tickle).

(** [schedule(begin, end)]: queue, emptied sources, whether to tickle. *)
Fixpoint schedule_range (q : list FiberAndThread) (l : list source) (need : bool)
  : list FiberAndThread * list source * bool :=
  match l with
  | [] => (q, [], need)
  | p :: l =>
      let '(ft, p') := FT_of_ptr p (-1) in
      let '(q, b) := scheduleNoLock q ft in
      let '(q, l', need) := schedule_range q l (b || need) in
      (q, p' :: l', need)
  end.

(** ** Picking a task *)

Section scan.
Context (heap : gmap fid Fiber) (self : Z).

Definition pinned_elsewhere (ft : FiberAndThread) : bool :=
  negb (thread ft =? -1) && negb (thread ft =? self).

Definition executing (ft : FiberAndThread) : bool :=
  match fiber ft with
  | Some f => match heap !! f with Some g => is_state EXEC g | None => false end
  | None => false
  end.

Definition eligible (ft : FiberAndThread) : bool := negb (pinned_elsewhere ft) && negb (executing ft).

(** The locked loop of [run()]: the task taken, what stays in the queue, and
    [tickle_me]. *)
Fixpoint scan (q : list FiberAndThread) : outcome (option FiberAndThread * list FiberAndThread * bool) :=
  match q with
  | [] => Ok (None, [], false)
  | it :: rest =>
      if pinned_elsewhere it then
        '(ft, q', _) ← scan rest; Ok (ft, it :: q', true)
      else
        _ ← sylar_assert (nonnull it);
        if executing it then
          '(ft, q', tickle_me) ← scan rest; Ok (ft, it :: q', tickle_me)
        else Ok (Some it, rest, negb (bool_decide (rest = [])))
  end.

End scan.

(** ** Threads *)

(** Which branch of [run()] switched to a fiber. *)
Inductive branch := BFiber | BCb | BIdle.

#[global] Instance branch_eq_dec : EqDecision branch.
Proof. solve_decision. Defined.

Inductive pc :=
  | PcCaller                     (* the constructing thread, before [stop] *)
  | PcStopCall                   (* in [stop], before [m_rootFiber->call()] *)
  | PcStart                      (* entry of [run()] *)
  | PcLoop                       (* top of the loop *)
  | PcScanned (ft : option FiberAndThread) (tickle_me : bool)
  | PcDispatch (ft : option FiberAndThread)
  | PcEnter (b : branch) (f : fid)    (* before [SwapIn] *)
  | PcIn (b : branch) (f : fid)       (* [f]'s code runs *)
  | PcLeaving (b : branch) (f : fid)  (* [f] has stored its state, before [SwapOut] *)
  | PcBack (b : branch) (f : fid)     (* [SwapIn] returned *)
  | PcAfter (b : branch) (f : fid)    (* the counter is updated *)
  | PcExit.

(** What a thread's [t_scheduler] points to, which [GetThis] returns. *)
Inductive sptr := SNull | SThis | SOther.

#[global] Instance sptr_eq_dec : EqDecision sptr.
Proof. solve_decision. Defined.

Record thr := mkThr {
  tid : Z;
  at_pc : pc;
  l_fiber : option fid;         (* Fiber's t_fiber *)
  l_threadFiber : option fid;   (* Fiber's t_threadFiber *)
  l_sched : option fid;         (* the scheduler's t_fiber *)
  l_cpu : option fid;           (* the context on this thread's CPU *)
  idle_fiber : option fid;
  cb_fiber : option fid;
  t_scheduler : sptr;
}.

Record state := mkState {
  m_fibers : list FiberAndThread;
  m_activeThreadCount : Z;
  m_idleThreadCount : Z;
  m_stopping : bool;
  m_autoStop : bool;
  m_rootThread : Z;
  m_rootFiber : option fid;
  m_threadCount : nat;
  m_threadIds : list Z;
  m_threads : list nat;         (* the pool, as indices into [threads] *)
  heap : gmap fid Fiber;        (* all fiber objects *)
  g_fiber_id : Z;
  g_fiber_count : Z;
  threads : list thr;           (* the calling thread first when it is used *)
  given : list FiberAndThread;      (* history: what was put into the queue *)
  taken : list (Z * FiberAndThread);(* history: what which thread took out *)
}.

Definition set_pc (t : thr) p := mkThr (tid t) p (l_fiber t) (l_threadFiber t) (l_sched t) (l_cpu t) (idle_fiber t) (cb_fiber t) (t_scheduler t).
Definition set_cb (t : thr) c := mkThr (tid t) (at_pc t) (l_fiber t) (l_threadFiber t) (l_sched t) (l_cpu t) (idle_fiber t) c (t_scheduler t).
Definition set_idle_fiber (t : thr) i := mkThr (tid t) (at_pc t) (l_fiber t) (l_threadFiber t) (l_sched t) (l_cpu t) i (cb_fiber t) (t_scheduler t).
Definition set_sched (t : thr) f := mkThr (tid t) (at_pc t) (l_fiber t) (l_threadFiber t) f (l_cpu t) (idle_fiber t) (cb_fiber t) (t_scheduler t).

Definition set_scheduler (t : thr) x := mkThr (tid t) (at_pc t) (l_fiber t) (l_threadFiber t) (l_sched t) (l_cpu t) (idle_fiber t) (cb_fiber t) x.

Definition set_queue (s : state) q := mkState q (m_activeThreadCount s) (m_idleThreadCount s) (m_stopping s) (m_autoStop s) (m_rootThread s) (m_rootFiber s) (m_threadCount s) (m_threadIds s) (m_threads s) (heap s) (g_fiber_id s) (g_fiber_count s) (threads s) (given s) (taken s).
Definition set_active (s : state) n := mkState (m_fibers s) n (m_idleThreadCount s) (m_stopping s) (m_autoStop s) (m_rootThread s) (m_rootFiber s) (m_threadCount s) (m_threadIds s) (m_threads s) (heap s) (g_fiber_id s) (g_fiber_count s) (threads s) (given s) (taken s).
Definition set_idle (s : state) n := mkState (m_fibers s) (m_activeThreadCount s) n (m_stopping s) (m_autoStop s) (m_rootThread s) (m_rootFiber s) (m_threadCount s) (m_threadIds s) (m_threads s) (heap s) (g_fiber_id s) (g_fiber_count s) (threads s) (given s) (taken s).
Definition set_flags (s : state) st au := mkState (m_fibers s) (m_activeThreadCount s) (m_idleThreadCount s) st au (m_rootThread s) (m_rootFiber s) (m_threadCount s) (m_threadIds s) (m_threads s) (heap s) (g_fiber_id s) (g_fiber_count s) (threads s) (given s) (taken s).
Definition set_pool (s : state) ids ths l := mkState (m_fibers s) (m_activeThreadCount s) (m_idleThreadCount s) (m_stopping s) (m_autoStop s) (m_rootThread s) (m_rootFiber s) (m_threadCount s) ids ths (heap s) (g_fiber_id s) (g_fiber_count s) l (given s) (taken s).
Definition set_world (s : state) h i c := mkState (m_fibers s) (m_activeThreadCount s) (m_idleThreadCount s) (m_stopping s) (m_autoStop s) (m_rootThread s) (m_rootFiber s) (m_threadCount s) (m_threadIds s) (m_threads s) h i c (threads s) (given s) (taken s).
Definition set_given (s : state) g := mkState (m_fibers s) (m_activeThreadCount s) (m_idleThreadCount s) (m_stopping s) (m_autoStop s) (m_rootThread s) (m_rootFiber s) (m_threadCount s) (m_threadIds s) (m_threads s) (heap s) (g_fiber_id s) (g_fiber_count s) (threads s) g (taken s).
Definition set_taken (s : state) g := mkState (m_fibers s) (m_activeThreadCount s) (m_idleThreadCount s) (m_stopping s) (m_autoStop s) (m_rootThread s) (m_rootFiber s) (m_threadCount s) (m_threadIds s) (m_threads s) (heap s) (g_fiber_id s) (g_fiber_count s) (threads s) (given s) g.
Definition set_thr (s : state) (i : nat) (t : thr) := set_pool s (m_threadIds s) (m_threads s) (<[i := t]> (threads s)).

(** ** Fiber operations on one thread of many *)

(** What thread [t] sees: the shared fibers and its own thread-locals. *)
Definition view (s : state) (t : thr) : world :=
  mkWorld (heap s) (g_fiber_id s) (g_fiber_count s) (l_fiber t) (l_threadFiber t) (l_sched t) (l_cpu t).

(** Store back what a fiber operation did, with the thread's other fields from [t]. *)
Definition commit (s : state) (i : nat) (t : thr) (w : world) : state :=
  set_thr (set_world s (fibers w) (s_fiber_id w) (s_fiber_count w)) i
    (mkThr (tid t) (at_pc t) (t_fiber w) (t_threadFiber w) (sched_fiber w) (cpu w) (idle_fiber t) (cb_fiber t) (t_scheduler t)).

(** ** The operations of Scheduler *)

Definition stopping (s : state) : bool :=
  m_autoStop s && m_stopping s && bool_decide (m_fibers s = []) && (m_activeThreadCount s =? 0).

(** [schedule(fc, thread)]; [tickle] of the base class only writes a log line. *)
Definition schedule (s : state) (ft : FiberAndThread) : state :=
  let s := if nonnull ft then set_given s (given s ++ [ft]) else s in
  set_queue s (scheduleNoLock (m_fibers s) ft).1.

(** The constructor, run by a thread with id [me] and [t_scheduler] [here]; [pm]
    and [pr] are where its main fiber and the root fiber are allocated. *)
Definition new_Scheduler (n : nat) (use_caller : bool) (me : Z) (here : sptr) (conf : Z) (pm pr : fid) : outcome state :=
  _ ← sylar_assert (negb (n =? 0)%nat);
  let s0 := mkState [] 0 0 true false (-1) None n [] [] ∅ 0 0 [] [] [] in
  if use_caller then
    '(_, w) ← GetThis (mkWorld ∅ 0 0 None None None None) pm;
    _ ← sylar_assert (bool_decide (here = SNull));
    let w := new_fiber w pr (Some 0%nat) 0 true conf in
    Ok (mkState [] 0 0 true false me (Some pr) (n - 1)%nat [me] [] (fibers w) (s_fiber_id w) (s_fiber_count w)
          [mkThr me PcCaller (t_fiber w) (t_threadFiber w) (Some pr) (cpu w) None None SThis] [] [])
  else Ok s0.

(** [start()]: the pool's threads, with the ids the system gives them. *)
Definition start (s : state) (ids : list Z) : outcome state :=
  if negb (m_stopping s) then Ok s else
  let s := set_flags s false (m_autoStop s) in
  _ ← sylar_assert (bool_decide (m_threads s = []));
  let base := length (threads s) in
  Ok (set_pool s (m_threadIds s ++ ids) (seq base (length ids))
        (threads s ++ ((fun id => mkThr id PcStart None None None None None None SNull) <$> ids))).

Definition root_idle (s : state) : bool :=
  match m_rootFiber s ≫= (fun f => heap s !! f) with
  | Some f => is_state TERM f || is_state INIT f
  | None => false
  end.

(** [stop()] up to the switch to the root fiber, on a thread with [t_scheduler]
    [here]; the result says whether it returned at once. *)
Definition stop_begin (s : state) (here : sptr) : outcome (state * bool) :=
  let s := set_flags s (m_stopping s) true in
  let unused := root_idle s && (m_threadCount s =? 0)%nat in
  let s := if unused then set_flags s true true else s in
  if unused && stopping s then Ok (s, true) else
  _ ← (if negb (m_rootThread s =? -1) then sylar_assert (bool_decide (here = SThis))
       else sylar_assert (negb (bool_decide (here = SThis))));
  Ok (set_flags s true true, false).

(** The end of [stop()]: the pool is emptied once all its threads have ended. *)
Definition stop_end (s : state) : option state :=
  if forallb (fun i => match threads s !! i with Some t => match at_pc t with PcExit => true | _ => false end | None => true end)
       (m_threads s) && m_autoStop s
  then Some (set_pool s (m_threadIds s) [] (threads s)) else None.

(** The destructor; the result is what the thread's [t_scheduler] is then. *)
Definition destroy_Scheduler (s : state) (here : sptr) : outcome sptr :=
  _ ← sylar_assert (m_stopping s); Ok (if bool_decide (here = SThis) then SNull else here).

(** The first lines of [run()]; [pm] and [pi] are where the thread's main fiber
    and its idle fiber are allocated. *)
Definition run_begin (s : state) (i : nat) (t : thr) (pm pi : fid) (conf : Z) : outcome state :=
  '(w, sch) ← (if negb (tid t =? m_rootThread s)
               then '(f, w) ← GetThis (view s t) pm; Ok (w, Some f)
               else Ok (view s t, l_sched t));
  let w := new_fiber w pi (Some 1%nat) 0 false conf in
  let w := mkWorld (fibers w) (s_fiber_id w) (s_fiber_count w) (t_fiber w) (t_threadFiber w) sch (cpu w) in
  Ok (commit s i (set_pc (set_idle_fiber (set_scheduler t SThis) (Some pi)) PcLoop) w).

(** The critical section of the loop. *)
Definition take_task (s : state) (i : nat) (t : thr) : outcome state :=
  '(ft, q, tickle_me) ← scan (heap s) (tid t) (m_fibers s);
  let s := set_queue s q in
  let s := match ft with
           | Some x => set_taken (set_active s (u64 (m_activeThreadCount s + 1))) (taken s ++ [(tid t, x)])
           | None => s
           end in
  Ok (set_thr s i (set_pc t (PcScanned ft tickle_me))).

Definition ended (f : Fiber) : bool := is_state TERM f || is_state EXCEPT f.

(** A task whose fiber is still to run. *)
Definition runnable (s : state) (ft : FiberAndThread) : outcome (option fid) :=
  match fiber ft with
  | Some f => g ← of_ptr (heap s !! f); Ok (if ended g then None else Some f)
  | None => Ok None
  end.

(** Reuse or create the thread's callback fiber. *)
Definition load_cb (s : state) (i : nat) (t : thr) (c : nat) (p : fid) (conf : Z) : outcome state :=
  match cb_fiber t with
  | Some f => w ← reset (view s t) f (Some c);
      Ok (commit s i (set_pc t (PcEnter BCb f)) w)
  | None => let w := new_fiber (view s t) p (Some c) 0 false conf in
      Ok (commit s i (set_pc (set_cb t (Some p)) (PcEnter BCb p)) w)
  end.

(** After [run()] returns: a pool thread ends, the root fiber goes back to the
    thread that called [stop]. *)
Definition leave_run (s : state) (i : nat) (t : thr) : outcome state :=
  if tid t =? m_rootThread s then
    match l_fiber t with
    | Some f => w ← CallerMainFunc_end (view s t) f false; Ok (commit s i (set_pc t PcExit) w)
    | None => Fail NullDeref
    end
  else Ok (set_thr s i (set_pc t PcExit)).

(** The three-way choice of the loop, up to the context switch. *)
Definition dispatch (s : state) (i : nat) (t : thr) (o : option FiberAndThread) (p : fid) (conf : Z) : outcome state :=
  let ft := default FT_null o in
  r ← runnable s ft;
  match r, cb ft with
  | Some f, _ => Ok (set_thr s i (set_pc t (PcEnter BFiber f)))
  | None, Some c => load_cb s i t c p conf
  | None, None =>
      if bool_decide (is_Some o) then
        Ok (set_thr (set_active s (u64 (m_activeThreadCount s - 1))) i (set_pc t PcLoop))
      else
        f ← of_ptr (idle_fiber t); g ← of_ptr (heap s !! f);
        if is_state TERM g then leave_run s i t
        else Ok (set_thr (set_idle s (u64 (m_idleThreadCount s + 1))) i (set_pc t (PcEnter BIdle f)))
  end.

Definition enter (s : state) (i : nat) (t : thr) (b : branch) (f : fid) : outcome state :=
  w ← SwapIn (view s t) f; Ok (commit s i (set_pc t (PcIn b f)) w).

Definition store_state (s : state) (i : nat) (t : thr) (b : branch) (f : fid) (upd : Fiber -> Fiber) : outcome state :=
  g ← of_ptr (heap s !! f);
  Ok (commit s i (set_pc t (PcLeaving b f)) (put (view s t) f (upd g))).

(** One turn of the loop in [idle()], or its end. *)
Definition idle_turn (s : state) (i : nat) (t : thr) (b : branch) (f : fid) : outcome state :=
  if stopping s then w ← finish (view s t) f false; Ok (commit s i (set_pc t (PcLeaving b f)) w)
  else g ← of_ptr (heap s !! f); _ ← sylar_assert (is_state EXEC g);
       store_state s i t b f (fun g => with_state g HOLD).

Definition swap_out (s : state) (i : nat) (t : thr) (b : branch) (f : fid) : outcome state :=
  w ← SwapOut (view s t) f; Ok (commit s i (set_pc t (PcBack b f)) w).

Definition count_down (s : state) (b : branch) : state :=
  match b with
  | BIdle => set_idle s (u64 (m_idleThreadCount s - 1))
  | _ => set_active s (u64 (m_activeThreadCount s - 1))
  end.

(** What each branch does with the fiber it got back. *)
Definition settle (s : state) (i : nat) (t : thr) (b : branch) (f : fid) : outcome state :=
  g ← of_ptr (heap s !! f);
  let t := set_pc t PcLoop in
  let hold t := commit s i t (put (view s t) f (with_state g HOLD)) in
  match b with
  | BFiber =>
      if is_state READY g then Ok (schedule (set_thr s i t) (FT_of_fiber (Some f) (-1)))
      else if ended g then Ok (set_thr s i t) else Ok (hold t)
  | BCb =>
      if is_state READY g then Ok (schedule (set_thr s i (set_cb t None)) (FT_of_fiber (Some f) (-1)))
      else if ended g then w ← reset (view s t) f None; Ok (commit s i t w)
      else Ok (hold (set_cb t None))
  | BIdle => if ended g then Ok (set_thr s i t) else Ok (hold t)
  end.

(** ** Actions *)

(** What the code of a running task does next. *)
Inductive user :=
  | UYieldReady | UYieldHold | UReturn | UThrow
  | USchedule (ft : FiberAndThread)
  | UNewFiber (p : fid) (c : nat).

Inductive action :=
  | AStart (ids : list Z)
  | AStop (here : sptr)               (* [stop()] on a thread outside, no root fiber; its [t_scheduler] *)
  | AJoin                             (* [stop()] joins the pool and returns *)
  | ASchedule (ft : FiberAndThread)   (* from a thread outside the scheduler *)
  | ANewFiber (p : fid) (c : nat)
  | AUser (i : nat) (u : user)        (* the task on thread [i] *)
  | AThread (i : nat) (p q : fid).    (* thread [i] takes its next step; [p], [q] fresh *)

Section actions.
Context (conf : Z).

(** A fresh fiber created by the code of a task or of the application. *)
Definition create (s : state) (p : fid) (c : nat) : state :=
  let w := new_fiber (mkWorld (heap s) (g_fiber_id s) (g_fiber_count s) None None None None) p (Some c) 0 false conf in
  set_world s (fibers w) (s_fiber_id w) (s_fiber_count w).

Definition user_step (s : state) (i : nat) (t : thr) (b : branch) (f : fid) (u : user) : outcome state :=
  match u with
  | UYieldReady => store_state s i t b f (fun g => with_state g READY)
  | UYieldHold => g ← of_ptr (heap s !! f); _ ← sylar_assert (is_state EXEC g);
      store_state s i t b f (fun g => with_state g HOLD)
  | UReturn => w ← finish (view s t) f false; Ok (commit s i (set_pc t (PcLeaving b f)) w)
  | UThrow => w ← finish (view s t) f true; Ok (commit s i (set_pc t (PcLeaving b f)) w)
  | USchedule ft => Ok (schedule s ft)
  | UNewFiber p c => Ok (create s p c)
  end.

Definition thread_step (s : state) (i : nat) (t : thr) (p q : fid) : outcome state :=
  match at_pc t with
  | PcCaller => '(s1, early) ← stop_begin s (t_scheduler t); Ok (set_thr s1 i (set_pc t (if (early : bool) then PcExit else PcStopCall)))
  | PcStopCall =>
      if stopping s then Ok (set_thr s i (set_pc t PcExit))
      else f ← of_ptr (m_rootFiber s); w ← call (view s t) f; Ok (commit s i (set_pc t PcStart) w)
  | PcStart => run_begin s i t p q conf
  | PcLoop => take_task s i t
  | PcScanned ft _ => Ok (set_thr s i (set_pc t (PcDispatch ft)))
  | PcDispatch ft => dispatch s i t ft p conf
  | PcEnter b f => enter s i t b f
  | PcIn b f => idle_turn s i t b f
  | PcLeaving b f => swap_out s i t b f
  | PcBack b f => Ok (set_thr (count_down s b) i (set_pc t (PcAfter b f)))
  | PcAfter b f => settle s i t b f
  | PcExit => Ok s
  end.

(** An action that is not possible in this state is [None]. *)
Definition do_action (a : action) (s : state) : option (outcome state) :=
  match a with
  | AStart ids => if bool_decide (length ids = m_threadCount s) then Some (start s ids) else None
  | AStop here => match m_rootFiber s with None => Some ('(s', _) ← stop_begin s here; Ok s') | Some _ => None end
  | AJoin => s' ← stop_end s; Some (Ok s')
  | ASchedule ft => Some (Ok (schedule s ft))
  | ANewFiber p c => match heap s !! p with None => Some (Ok (create s p c)) | Some _ => None end
  | AUser i u =>
      t ← threads s !! i;
      match at_pc t, u with
      | PcIn BIdle _, _ => None
      | PcIn b f, UNewFiber p _ => match heap s !! p with None => Some (user_step s i t b f u) | Some _ => None end
      | PcIn b f, _ => Some (user_step s i t b f u)
      | _, _ => None
      end
  | AThread i p q =>
      t ← threads s !! i;
      match at_pc t with
      | PcExit => None
      | PcIn BFiber _ | PcIn BCb _ => None
      | _ => if bool_decide (heap s !! p = None /\ heap s !! q = None /\ p <> q)
             then Some (thread_step s i t p q) else None
      end
  end.

Inductive step (s s' : state) : Prop :=
  | do_step a : do_action a s = Some (Ok s') -> step s s'.

(** Run a sequence of actions. *)
Fixpoint run_actions (l : list action) (s : state) : option (outcome state) :=
  match l with
  | [] => Some (Ok s)
  | a :: l => match do_action a s with
              | Some (Ok s') => run_actions l s'
              | r => r
              end
  end.

End actions.

End Sc.
