(* ===== verification/SchedulerInv.v ===== *)
(** Invariants of the scheduler: what the queue scan selects, conservation of
    tasks, the thread counters, and ownership of fibers by threads. *)

From stdpp Require Import gmap.
From S2P Require Import Prelude Fiber Scheduler.

Module ScInv.

Import Fb Sc.
Local Open Scope Z_scope.

(** ** The scan *)

Section scan.
Context (h : gmap fid Fiber) (self : Z).

Lemma eligible_true ft :
  eligible h self ft = true <-> (thread ft = -1 \/ thread ft = self) /\ executing h ft = false.
Proof.
  unfold eligible, pinned_elsewhere.
  destruct (Z.eqb_spec (thread ft) (-1)), (Z.eqb_spec (thread ft) self), (executing h ft); simpl; intuition congruence.
Qed.

(** The first eligible task, if any, and the rest of the queue in its order. *)
Lemma scan_spec q :
  Forall (fun ft => nonnull ft = true) q ->
  (exists pre x post, q = pre ++ x :: post /\ Forall (fun ft => eligible h self ft = false) pre
     /\ eligible h self x = true
     /\ scan h self q = Ok (Some x, pre ++ post, existsb (pinned_elsewhere self) pre || negb (bool_decide (post = []))))
  \/ (Forall (fun ft => eligible h self ft = false) q /\ scan h self q = Ok (None, q, existsb (pinned_elsewhere self) q)).
Proof.
  induction 1 as [| it q Hit Hq IH]; [by right |]. simpl. unfold eligible. rewrite Hit. simpl.
  destruct (pinned_elsewhere self it) eqn:Hp; simpl.
  - destruct IH as [(pre & x & post & -> & Hpre & Hx & ->) | (Hall & ->)].
    + left. exists (it :: pre), x, post. split_and!; try done.
      * constructor; [unfold eligible; by rewrite Hp | done].
      * simpl. by rewrite Hp.
    + right. split; [constructor; [by rewrite Hp | done] | done].
  - destruct (executing h it) eqn:He.
    + destruct IH as [(pre & x & post & -> & Hpre & Hx & ->) | (Hall & ->)].
      * left. exists (it :: pre), x, post. split_and!; try done.
        -- constructor; [unfold eligible; by rewrite Hp, He | done].
        -- simpl. by rewrite Hp.
      * right. split; [constructor; [by rewrite Hp, He | done] | done].
    + left. exists [], it, q. split_and!; try done. by rewrite Hp, He.
Qed.

End scan.

(** The range overload pushes the non-null elements in order, unpinned, and
    leaves the sources empty. *)
Lemma schedule_range_spec q l need :
  exists need', schedule_range q l need
    = (q ++ filter (fun ft => nonnull ft = true) ((fun p => (FT_of_ptr p (-1)).1) <$> l), (fun p => (FT_of_ptr p (-1)).2) <$> l, need').
Proof.
  revert q need. induction l as [| p l IH]; intros q need; simpl; [rewrite app_nil_r; eauto |].
  destruct (FT_of_ptr p (-1)) as [ft p'] eqn:Ep. simpl.
  destruct (IH (if nonnull ft then q ++ [ft] else q) (bool_decide (q = []) || need)) as [need' ->].
  exists need'. rewrite filter_cons. destruct (nonnull ft); simpl; [by rewrite <- app_assoc | done].
Qed.

(** ** Opening an action *)

(** Split a successful run of the operations into its elementary updates. *)
Ltac open_ok :=
  repeat match goal with
  | H : Some (Ok _) = Some (Ok ?x) |- _ => injection H as <-
  | H : Some _ = Some _ |- _ => injection H as H
  | H : (_, _) = (_, _) |- _ => injection H as ? ?; subst
  | H : Ok _ = Ok ?x |- _ => is_var x; injection H as <-
  | H : Ok (_, _) = Ok (_, _) |- _ => injection H as ? ?; subst
  | H : None = Some _ |- _ => discriminate H
  | H : Fail _ = Ok _ |- _ => discriminate H
  | H : mbind _ _ = Ok _ |- _ => apply bind_Ok_inv in H as (? & ? & H)
  | H : mbind _ _ = Some _ |- _ => apply bind_Some in H as (? & ? & H)
  | H : (if ?b then _ else _) = _ |- _ => let E := fresh "E" in destruct b eqn:E
  | H : context [let '(_, _) := ?x in _] |- _ => let E := fresh "E" in destruct x as [? ?] eqn:E
  | H : match ?x with _ => _ end = _ |- _ => let E := fresh "E" in destruct x eqn:E
  end.

Lemma stop_begin_eq s here s' b : stop_begin s here = Ok (s', b) -> s' = set_flags s true true.
Proof. unfold stop_begin. intros H. destruct (_ && (m_threadCount _ =? 0)%nat); simpl in H; open_ok; done. Qed.

Ltac open_action H :=
  unfold do_action, thread_step, user_step, dispatch, load_cb, leave_run, settle, enter, swap_out, idle_turn, store_state,
    run_begin, start, take_task in H;
  open_ok.

(** ** Conservation of tasks *)

Record queue_inv (s : state) : Prop := {
  q_nonnull : Forall (fun ft => nonnull ft = true) (m_fibers s);
  q_conserved : given s ≡ₚ (taken s).*2 ++ m_fibers s;
  q_affinity : Forall (fun e : Z * FiberAndThread => thread e.2 = -1 \/ thread e.2 = e.1) (taken s);
}.

Lemma schedule_queue_inv s ft : queue_inv s -> queue_inv (schedule s ft).
Proof.
  intros [H1 H2 H3]. unfold schedule, scheduleNoLock. destruct (nonnull ft) eqn:E; simpl; [| by split].
  split; simpl; [| | done].
  - apply Forall_app. by repeat constructor.
  - rewrite H2. by rewrite <- app_assoc.
Qed.

Lemma queue_inv_same s s' :
  m_fibers s' = m_fibers s -> given s' = given s -> taken s' = taken s -> queue_inv s -> queue_inv s'.
Proof. intros E1 E2 E3 [H1 H2 H3]. split; by rewrite ?E1, ?E2, ?E3. Qed.

Lemma take_task_queue_inv s i t s' : take_task s i t = Ok s' -> queue_inv s -> queue_inv s'.
Proof.
  intros H [H1 H2 H3]. unfold take_task in H.
  destruct (scan_spec (heap s) (tid t) _ H1) as [(pre & x & post & Hq & Hpre & Hx & Hs) | (Hall & Hs)];
    rewrite Hs in H; simpl in H; inv_ok; [| by split].
  split; simpl.
  - rewrite Hq in H1. rewrite !Forall_app in *. destruct H1 as [? [_ ?]%Forall_cons_1]. done.
  - rewrite H2, Hq, fmap_app. simpl. rewrite <- app_assoc. f_equiv. simpl. by rewrite Permutation_middle.
  - apply Forall_app. split; [done |]. constructor; [| done]. by apply eligible_true in Hx as [? _].
Qed.


Lemma do_action_queue_inv conf a s s' :
  do_action conf a s = Some (Ok s') -> queue_inv s -> queue_inv s'.
Proof.
  intros H Hinv. unfold do_action, thread_step, user_step in H.
  open_ok; eauto using schedule_queue_inv, take_task_queue_inv;
  repeat match goal with E : stop_begin _ _ = _ |- _ => apply stop_begin_eq in E; subst end;
  unfold dispatch, load_cb, leave_run, settle, enter, swap_out, idle_turn, store_state,
    run_begin, start, stop_end in *; open_ok; try subst; try (apply schedule_queue_inv);
  (apply (queue_inv_same s); try done; by match goal with b : branch |- _ => destruct b end).
Qed.

(** ** Counters *)

(** Between taking a task and the decrement after it. *)
Definition is_active (t : thr) : bool :=
  match at_pc t with
  | PcScanned (Some _) _ | PcDispatch (Some _) => true
  | PcEnter b _ | PcIn b _ | PcLeaving b _ | PcBack b _ => match b with BIdle => false | _ => true end
  | _ => false
  end.

Definition is_idle (t : thr) : bool :=
  match at_pc t with
  | PcEnter BIdle _ | PcIn BIdle _ | PcLeaving BIdle _ | PcBack BIdle _ => true
  | _ => false
  end.

Definition count (P : thr -> bool) (l : list thr) : Z := Z.of_nat (length (filter (fun t => P t = true) l)).

Lemma count_app P l k : count P (l ++ k) = count P l + count P k.
Proof. unfold count. rewrite filter_app, length_app. lia. Qed.

Lemma count_insert P l i t t' :
  l !! i = Some t -> count P (<[i := t']> l) = count P l - Z.b2z (P t) + Z.b2z (P t').
Proof.
  intros Hi. rewrite <- (take_drop_middle l i t Hi) at 2.
  rewrite (insert_take_drop l i t') by (by eapply lookup_lt_Some).
  rewrite !count_app. unfold count. rewrite !filter_cons.
  destruct (P t), (P t'); simpl; lia.
Qed.

Record count_inv (s : state) : Prop := {
  c_active : m_activeThreadCount s = u64 (count is_active (threads s));
  c_idle : m_idleThreadCount s = u64 (count is_idle (threads s));
}.

(** How a counter follows a thread that enters or leaves its window. *)
Definition moved (b b' : bool) (n : Z) : Z :=
  match b, b' with
  | false, true => u64 (n + 1)
  | true, false => u64 (n - 1)
  | _, _ => n
  end.

Lemma moved_count P l i t t' n :
  l !! i = Some t -> n = u64 (count P l) -> moved (P t) (P t') n = u64 (count P (<[i := t']> l)).
Proof.
  intros Hi ->. rewrite (count_insert P l i t) by done.
  destruct (P t), (P t'); simpl; rewrite ?u64_add_l, ?u64_sub_l; f_equal; lia.
Qed.

(** A thread moves and the counters move with it. *)
Lemma count_inv_move s s' i t t' :
  threads s !! i = Some t -> threads s' = <[i := t']> (threads s) ->
  m_activeThreadCount s' = moved (is_active t) (is_active t') (m_activeThreadCount s) ->
  m_idleThreadCount s' = moved (is_idle t) (is_idle t') (m_idleThreadCount s) ->
  count_inv s -> count_inv s'.
Proof. intros Hi Ht Ha Hd [H1 H2]. split; rewrite Ht, ?Ha, ?Hd; by apply moved_count. Qed.

Lemma count_inv_same s s' :
  threads s' = threads s -> m_activeThreadCount s' = m_activeThreadCount s -> m_idleThreadCount s' = m_idleThreadCount s ->
  count_inv s -> count_inv s'.
Proof. intros E1 E2 E3 [H1 H2]. split; by rewrite ?E1, ?E2, ?E3. Qed.



Lemma count_none P l : Forall (fun t => P t = false) l -> count P l = 0.
Proof. unfold count. induction 1 as [| t l Ht _ IH]; [done |]. by rewrite filter_cons, Ht. Qed.

Lemma start_count_inv s ids s' : start s ids = Ok s' -> count_inv s -> count_inv s'.
Proof.
  unfold start. intros H [H1 H2]. open_ok; [by split |]. split; simpl;
    (rewrite count_app, (count_none _ (_ <$> _)), Z.add_0_r; [done | by apply Forall_fmap, Forall_true]).
Qed.

Lemma schedule_count_inv s ft : count_inv s -> count_inv (schedule s ft).
Proof. apply count_inv_same; unfold schedule; by destruct (nonnull ft). Qed.

(** Nothing taken: neither a fiber nor a callback to run. *)
Lemma runnable_null s : runnable s FT_null = Ok None.
Proof. done. Qed.

(** Close a move of one thread from the program counter it was at. *)
Ltac count_move :=
  match goal with
  | Hi : threads ?s !! ?i = Some ?t, E : at_pc ?t = _ |- count_inv _ =>
      eapply (count_inv_move s _ i t); [exact Hi | reflexivity | .. | done];
      unfold is_active, is_idle; rewrite E; simpl; try done
  end.

Lemma do_action_count_inv conf a s s' :
  do_action conf a s = Some (Ok s') -> count_inv s -> count_inv s'.
Proof.
  intros H Hinv. unfold do_action, thread_step, user_step in H. open_ok;
  repeat match goal with
  | E : stop_begin _ _ = _ |- _ => apply stop_begin_eq in E; subst
  | b : branch |- _ => destruct b
  | ft : option FiberAndThread |- _ => destruct ft
  end; simpl in *.
  all: unfold stop_end in *; open_ok; try subst;
    try (eapply start_count_inv; eassumption); try (by apply schedule_count_inv); try (by apply (count_inv_same s)).
  all: unfold dispatch, load_cb, leave_run, settle, enter, swap_out, idle_turn, store_state, run_begin, take_task in *;
    simpl in *; open_ok; try apply schedule_count_inv; try done.
  all: try count_move; try (match goal with b : bool |- _ => by destruct b end).
  match goal with o : option FiberAndThread |- _ => destruct o end; count_move.
Qed.

(** ** Ownership of fibers *)

(** The fiber of the task a thread has in hand. *)
Definition hand (t : thr) : list fid :=
  match at_pc t with
  | PcScanned (Some ft) _ | PcDispatch (Some ft) => option_list (fiber ft)
  | PcEnter BFiber f | PcIn BFiber f | PcLeaving BFiber f | PcBack BFiber f | PcAfter BFiber f => [f]
  | _ => []
  end.

(** The fibers a thread's own stacks belong to. *)
Definition base (t : thr) : list fid :=
  match l_threadFiber t, l_sched t with
  | Some a, Some b => if decide (a = b) then [a] else [a; b]
  | Some a, None => [a]
  | None, Some b => [b]
  | None, None => []
  end.

Definition thr_fibers (t : thr) : list fid :=
  hand t ++ option_list (cb_fiber t) ++ option_list (idle_fiber t) ++ base t.

Definition queued (q : list FiberAndThread) : list fid := omap fiber q.

Definition owned (s : state) : list fid := queued (m_fibers s) ++ concat (thr_fibers <$> threads s).

Definition running (t : thr) (f : fid) : Prop := (exists b, at_pc t = PcIn b f) \/ f ∈ base t.

(** The fiber a thread has entered through one of the branches. *)
Definition entered (t : thr) : option (branch * fid) :=
  match at_pc t with
  | PcEnter b f | PcIn b f | PcLeaving b f | PcBack b f | PcAfter b f => Some (b, f)
  | _ => None
  end.

Definition started (t : thr) : bool :=
  match at_pc t with PcCaller | PcStopCall | PcStart => false | _ => true end.

(** Where the thread's stack pointer is, for each program counter. *)
Definition locals_ok (root : Z) (rootf : option fid) (t : thr) : Prop :=
  match at_pc t with
  | PcCaller | PcStopCall =>
      tid t = root /\ is_Some (l_threadFiber t) /\ is_Some rootf /\ l_sched t = rootf
      /\ l_fiber t = l_threadFiber t /\ l_cpu t = l_threadFiber t /\ l_threadFiber t <> l_sched t
  | PcStart =>
      if decide (tid t = root)
      then is_Some (l_threadFiber t) /\ is_Some (l_sched t) /\ l_fiber t = l_sched t /\ l_cpu t = l_sched t
           /\ l_threadFiber t <> l_sched t
      else l_threadFiber t = None /\ l_sched t = None /\ l_fiber t = None /\ l_cpu t = None
  | PcIn _ f | PcLeaving _ f =>
      is_Some (l_threadFiber t) /\ is_Some (l_sched t) /\ l_fiber t = Some f /\ l_cpu t = Some f
      /\ (tid t <> root -> l_threadFiber t = l_sched t)
  | PcExit => is_Some (l_threadFiber t) /\ is_Some (l_sched t) /\ l_cpu t = l_threadFiber t
  | _ => is_Some (l_threadFiber t) /\ is_Some (l_sched t) /\ l_fiber t = l_sched t /\ l_cpu t = l_sched t
         /\ (tid t <> root -> l_threadFiber t = l_sched t)
  end.

Definition state_of (h : gmap fid Fiber) (f : fid) (P : Fiber -> Prop) : Prop :=
  exists g, h !! f = Some g /\ P g.

Record local_ok (h : gmap fid Fiber) (root : Z) (rootf : option fid) (auto : bool) (t : thr) : Prop := {
  lo_locals : locals_ok root rootf t;
  lo_unstarted : started t = false -> idle_fiber t = None /\ cb_fiber t = None;
  lo_idle : started t = true -> at_pc t <> PcExit -> exists f, idle_fiber t = Some f
            /\ state_of h f (fun g => m_state g = TERM -> auto = true);
  lo_cb : forall f, cb_fiber t = Some f -> state_of h f (fun g => m_stack g = true
            /\ (entered t <> Some (BCb, f) -> restable g = true));
  lo_entered_cb : forall f, entered t = Some (BCb, f) -> cb_fiber t = Some f;
  lo_entered_idle : forall f, entered t = Some (BIdle, f) -> idle_fiber t = Some f;
  lo_in : forall b f, at_pc t = PcIn b f -> state_of h f (fun g => m_state g = EXEC);
}.

Record own_inv (s : state) : Prop := {
  o_nodup : NoDup (owned s);
  o_alive : forall f, f ∈ owned s -> is_Some (heap s !! f);
  o_exec : forall f g, heap s !! f = Some g -> m_state g = EXEC -> exists i t, threads s !! i = Some t /\ running t f;
  o_local : forall i t, threads s !! i = Some t -> local_ok (heap s) (m_rootThread s) (m_rootFiber s) (m_autoStop s) t;
}.

(** *** One thread moves *)

Lemma submseteq_NoDup {A} (l k : list A) : l ⊆+ k -> NoDup k -> NoDup l.
Proof. intros [r Hr]%submseteq_Permutation Hk. rewrite Hr in Hk. by apply NoDup_app in Hk as [? _]. Qed.

Lemma concat_insert (l : list thr) i t t' :
  l !! i = Some t -> exists rest, concat (thr_fibers <$> l) ≡ₚ thr_fibers t ++ rest
    /\ concat (thr_fibers <$> <[i := t']> l) ≡ₚ thr_fibers t' ++ rest
    /\ (forall j u, j <> i -> l !! j = Some u -> forall f, f ∈ thr_fibers u -> f ∈ rest).
Proof.
  intros Hi. exists (concat (thr_fibers <$> (take i l ++ drop (S i) l))).
  assert (Hlt : (i < length l)%nat) by by eapply lookup_lt_Some. split_and!.
  - rewrite <- (take_drop_middle l i t Hi) at 1. rewrite !fmap_app, !concat_app. simpl.
    by rewrite Permutation_app_swap_app.
  - rewrite (insert_take_drop l i t') by done. rewrite !fmap_app, !concat_app. simpl.
    by rewrite Permutation_app_swap_app.
  - intros j u Hj Hu f Hf. apply list_elem_of_In, in_concat. exists (thr_fibers u). split; [| by apply list_elem_of_In].
    apply list_elem_of_In, list_elem_of_fmap_2. rewrite <- (take_drop_middle l i t Hi) in Hu.
    apply list_elem_of_lookup_2 in Hu as Hin. apply elem_of_app in Hin. rewrite elem_of_app.
    destruct (decide (j < i)%nat) as [Hlti|Hge].
    + left. rewrite lookup_app_l in Hu by (rewrite length_take; lia). by eapply list_elem_of_lookup_2.
    + right. rewrite lookup_app_r in Hu by (rewrite length_take; lia). rewrite length_take in Hu.
      replace (j - i `min` length l)%nat with (S (j - i - 1))%nat in Hu by lia. by eapply list_elem_of_lookup_2.
Qed.

Lemma entered_fibers h root rootf auto t b f :
  local_ok h root rootf auto t -> entered t = Some (b, f) -> f ∈ thr_fibers t.
Proof.
  intros [_ _ _ _ Hc Hi _] He. unfold thr_fibers. destruct b.
  - unfold hand, entered in *. destruct (at_pc t); simplify_eq; set_solver.
  - rewrite (Hc f He). set_solver.
  - rewrite (Hi f He). set_solver.
Qed.

Lemma running_fibers h root rootf auto t f : local_ok h root rootf auto t -> running t f -> f ∈ thr_fibers t.
Proof.
  intros Hl [[b Hb] | Hb].
  - eapply entered_fibers; [done |]. unfold entered. by rewrite Hb.
  - unfold thr_fibers. set_solver.
Qed.

Lemma state_of_agree h h' f P : h' !! f = h !! f -> state_of h f P -> state_of h' f P.
Proof. unfold state_of. by intros ->. Qed.

(** A thread's condition depends only on its own fibers. *)
Lemma local_ok_agree h h' root rootf auto auto' t :
  (forall f, f ∈ thr_fibers t -> h' !! f = h !! f) -> (auto = true -> auto' = true) ->
  local_ok h root rootf auto t -> local_ok h' root rootf auto' t.
Proof.
  intros Hag Hau Hl. pose proof Hl as [H1 H2 H3 H4 H5 H6 H7]. split; try done.
  - intros Hs He. destruct (H3 Hs He) as (f & Hf & g & Hg & HP). exists f. split; [done |].
    exists g. split; [| auto]. rewrite Hag; [done |]. unfold thr_fibers. rewrite Hf. set_solver.
  - intros f Hf. eapply state_of_agree; [| by apply H4]. apply Hag. unfold thr_fibers. rewrite Hf. set_solver.
  - intros b f Hp. eapply state_of_agree; [| by eapply H7]. apply Hag. eapply entered_fibers; [done |].
    unfold entered. by rewrite Hp.
Qed.

(** What has to be checked when thread [i] moves from [t] to [t']: it only
    changes its own fibers, and gets new ones only from the queue or fresh. *)
Lemma own_inv_move s s' i t t' fresh :
  own_inv s -> threads s !! i = Some t -> threads s' = <[i := t']> (threads s) ->
  m_rootThread s' = m_rootThread s -> m_rootFiber s' = m_rootFiber s -> (m_autoStop s = true -> m_autoStop s' = true) ->
  NoDup fresh -> Forall (fun f => heap s !! f = None /\ is_Some (heap s' !! f)) fresh ->
  queued (m_fibers s') ++ thr_fibers t' ⊆+ fresh ++ queued (m_fibers s) ++ thr_fibers t ->
  (forall f, is_Some (heap s !! f) -> is_Some (heap s' !! f)) ->
  (forall f, is_Some (heap s !! f) -> f ∉ thr_fibers t -> heap s' !! f = heap s !! f) ->
  (forall f g, heap s' !! f = Some g -> m_state g = EXEC -> f ∈ thr_fibers t \/ heap s !! f = None -> running t' f) ->
  local_ok (heap s') (m_rootThread s) (m_rootFiber s) (m_autoStop s') t' ->
  own_inv s'.
Proof.
  intros [Hnd Hal Hex Hlo] Hi Ht Hr Hrf Hau Hfn Hff Hsub Hmono Hsame Hexec Hloc.
  destruct (concat_insert (threads s) i t t' Hi) as (rest & Hp & Hp' & Hrest).
  unfold owned in *. rewrite Hp in Hnd. setoid_rewrite Hp in Hal.
  assert (Hown : queued (m_fibers s') ++ concat (thr_fibers <$> threads s') ⊆+ fresh ++ (queued (m_fibers s) ++ thr_fibers t ++ rest)).
  { rewrite Ht, Hp'. rewrite !app_assoc. apply submseteq_skips_r. by rewrite <- app_assoc. }
  assert (Hold : forall f, f ∈ rest -> is_Some (heap s !! f)) by (intros f Hf; apply Hal; set_solver).
  split.
  - eapply submseteq_NoDup; [exact Hown |]. apply NoDup_app. split_and!; [done | | done].
    intros f Hf Hin. rewrite Forall_forall in Hff. destruct (Hff f Hf) as [Hnone _].
    destruct (Hal f Hin) as [? Hc]. congruence.
  - intros f Hf. apply (elem_of_submseteq _ _ _ Hf) in Hown. apply elem_of_app in Hown as [Hf' | Hf'].
    + rewrite Forall_forall in Hff. by apply Hff.
    + by apply Hmono, Hal.
  - intros f g Hg Hst. rewrite Ht. destruct (heap s !! f) as [g0|] eqn:Hg0.
    + destruct (decide (f ∈ thr_fibers t)) as [Hin|Hout].
      * exists i, t'. split; [by apply list_lookup_insert_eq; eapply lookup_lt_Some | eauto].
      * rewrite Hsame in Hg by eauto. destruct (Hex f g Hg Hst) as (j & u & Hj & Hu).
        exists j, u. split; [| done]. rewrite list_lookup_insert_ne; [done |]. intros <-. simplify_eq.
        apply Hout. eapply running_fibers; [by apply (Hlo i) | done].
    + exists i, t'. split; [by apply list_lookup_insert_eq; eapply lookup_lt_Some | eauto].
  - intros j u Hj. rewrite Ht in Hj. rewrite Hr, Hrf. destruct (decide (i = j)) as [<-|Hne].
    + rewrite list_lookup_insert_eq in Hj by (by eapply lookup_lt_Some). by simplify_eq.
    + rewrite list_lookup_insert_ne in Hj by done. eapply local_ok_agree; [| exact Hau | by apply (Hlo j)].
      intros f Hf. assert (f ∈ rest) by by eapply Hrest. apply Hsame; [by apply Hold |].
      intros Hin. apply NoDup_app in Hnd as (_ & _ & Hnd). apply NoDup_app in Hnd as (_ & Hnd & _). by apply (Hnd f).
Qed.

(** An executing fiber that a thread owns is executing on that thread. *)
Lemma own_exec s i t f g :
  own_inv s -> threads s !! i = Some t -> f ∈ thr_fibers t -> heap s !! f = Some g -> m_state g = EXEC -> running t f.
Proof.
  intros [Hnd _ Hex Hlo] Hi Hf Hg Hst. destruct (Hex f g Hg Hst) as (j & u & Hj & Hu).
  destruct (decide (i = j)) as [<-|Hne]; [by simplify_eq |].
  destruct (concat_insert (threads s) i t t Hi) as (rest & Hp & _ & Hrest). unfold owned in Hnd. rewrite Hp in Hnd.
  apply NoDup_app in Hnd as (_ & _ & Hnd). apply NoDup_app in Hnd as (_ & Hnd & _).
  destruct (Hnd f Hf). eapply Hrest; [| exact Hj |]; [done |]. by eapply running_fibers; [apply (Hlo j) |].
Qed.

(** A queued fiber is not executing. *)
Lemma queued_not_exec s f g : own_inv s -> f ∈ queued (m_fibers s) -> heap s !! f = Some g -> m_state g <> EXEC.
Proof.
  intros [Hnd _ Hex Hlo] Hf Hg Hst. destruct (Hex f g Hg Hst) as (j & u & Hj & Hu).
  destruct (concat_insert (threads s) j u u Hj) as (rest & Hp & _ & Hrest). unfold owned in Hnd. rewrite Hp in Hnd.
  apply NoDup_app in Hnd as (_ & Hnd & _). apply (Hnd f Hf). apply elem_of_app. left.
  by eapply running_fibers; [apply (Hlo j) |].
Qed.

Lemma own_alive s i t f : own_inv s -> threads s !! i = Some t -> f ∈ thr_fibers t -> is_Some (heap s !! f).
Proof.
  intros [_ Hal _ _] Hi Hf. apply Hal. unfold owned. apply elem_of_app. right.
  destruct (concat_insert (threads s) i t t Hi) as (rest & -> & _). set_solver.
Qed.

Lemma base_sched t f : l_sched t = Some f -> f ∈ base t.
Proof. unfold base. intros ->. destruct (l_threadFiber t); [case_decide |]; set_solver. Qed.

Lemma base_main t f : l_threadFiber t = Some f -> f ∈ base t.
Proof. unfold base. intros ->. destruct (l_sched t); [case_decide |]; set_solver. Qed.

Lemma base_fibers t f : f ∈ base t -> f ∈ thr_fibers t.
Proof. unfold thr_fibers. set_solver. Qed.

(** A move that leaves the fibers as they are. *)
Lemma own_inv_quiet s s' i t t' :
  own_inv s -> threads s !! i = Some t -> threads s' = <[i := t']> (threads s) ->
  m_rootThread s' = m_rootThread s -> m_rootFiber s' = m_rootFiber s -> (m_autoStop s = true -> m_autoStop s' = true) ->
  heap s' = heap s -> queued (m_fibers s') ++ thr_fibers t' ⊆+ queued (m_fibers s) ++ thr_fibers t ->
  (forall f, running t f -> running t' f) ->
  local_ok (heap s) (m_rootThread s) (m_rootFiber s) (m_autoStop s') t' ->
  own_inv s'.
Proof.
  intros Hinv Hi Ht Hr Hrf Hau Hh Hsub Hrun Hloc.
  apply (own_inv_move s s' i t t' []); rewrite ?Hh; try done; [constructor |].
  intros f g Hg Hst [Hf | Hn]; [| congruence]. apply Hrun. by eapply own_exec.
Qed.

(** A move that stores one of the thread's fibers. *)
Lemma own_inv_store s s' i t t' f g :
  own_inv s -> threads s !! i = Some t -> threads s' = <[i := t']> (threads s) ->
  m_rootThread s' = m_rootThread s -> m_rootFiber s' = m_rootFiber s -> m_autoStop s' = m_autoStop s ->
  f ∈ thr_fibers t -> heap s' = <[f := g]> (heap s) ->
  queued (m_fibers s') ++ thr_fibers t' ⊆+ queued (m_fibers s) ++ thr_fibers t ->
  (m_state g = EXEC -> running t' f) -> (forall f', f' <> f -> running t f' -> running t' f') ->
  local_ok (<[f := g]> (heap s)) (m_rootThread s) (m_rootFiber s) (m_autoStop s) t' ->
  own_inv s'.
Proof.
  intros Hinv Hi Ht Hr Hrf Hau Hf Hh Hsub Hex Hrun Hloc.
  apply (own_inv_move s s' i t t' []); rewrite ?Hh, ?Hau; try done; [constructor | ..].
  - intros f'. rewrite lookup_insert_is_Some'. auto.
  - intros f' _ Hout. rewrite lookup_insert_ne; [done |]. by intros ->.
  - intros f' g' Hg Hst [Hin | Hn].
    + destruct (decide (f = f')) as [<-|Hne].
      * rewrite lookup_insert_eq in Hg. simplify_eq. auto.
      * rewrite lookup_insert_ne in Hg by done. apply Hrun; [done |]. by eapply own_exec.
    + destruct (own_alive s i t f Hinv Hi Hf) as [? Hs]. rewrite lookup_insert_ne in Hg by congruence. congruence.
Qed.

(** The fiber invariant of the thread's view, where it runs the loop or a task. *)
Lemma view_named s i t o :
  own_inv s -> threads s !! i = Some t -> is_Some o -> (o = l_sched t \/ o = l_threadFiber t) -> named (view s t) o.
Proof.
  intros Hinv Hi [f ->] Ho.
  assert (Hf : f ∈ base t) by (destruct Ho as [Ho | Ho]; [by apply base_sched | by apply base_main]).
  destruct (own_alive s i t f Hinv Hi (base_fibers _ _ Hf)) as [g Hg]. by exists f, g.
Qed.

End ScInv.
