(* ===== verification/SchedulerOwn.v ===== *)
(** Every action of a disciplined run keeps the ownership of fibers and cannot
    fail an assertion. *)

From stdpp Require Import gmap.
From S2P Require Import Prelude Fiber Scheduler SchedulerInv.

Module ScOwn.

Import Fb Sc ScInv.
Local Open Scope Z_scope.

(** ** A thread's own fibers are distinct *)

Lemma thr_nodup s i t : own_inv s -> threads s !! i = Some t -> NoDup (thr_fibers t).
Proof.
  intros [Hnd _ _ _] Hi. destruct (concat_insert (threads s) i t t Hi) as (rest & Hp & _).
  unfold owned in Hnd. rewrite Hp in Hnd. apply NoDup_app in Hnd as (_ & _ & Hnd). by apply NoDup_app in Hnd as (? & _).
Qed.

Lemma thr_distinct s i t :
  own_inv s -> threads s !! i = Some t ->
  (forall f, f ∈ hand t -> cb_fiber t <> Some f /\ idle_fiber t <> Some f /\ f ∉ base t)
  /\ (forall f, cb_fiber t = Some f -> idle_fiber t <> Some f /\ f ∉ base t)
  /\ (forall f, idle_fiber t = Some f -> f ∉ base t).
Proof.
  intros Hinv Hi. pose proof (thr_nodup s i t Hinv Hi) as H. unfold thr_fibers in H.
  apply NoDup_app in H as (_ & H1 & H). apply NoDup_app in H as (_ & H2 & H). apply NoDup_app in H as (_ & H3 & _).
  split_and!.
  - intros f Hf. specialize (H1 f Hf). split_and!; [intros E | intros E |]; [rewrite E in H1.. |]; set_solver.
  - intros f Hf. specialize (H2 f ltac:(rewrite Hf; set_solver)).
    split; [intros E; rewrite E in H2 |]; set_solver.
  - intros f Hf. apply H3. rewrite Hf. set_solver.
Qed.

(** The fiber a thread has entered is none of its stacks' fibers, and only the
    one slot of its branch names it. *)
Lemma entered_distinct s i t b f :
  own_inv s -> threads s !! i = Some t -> entered t = Some (b, f) ->
  (f ∉ base t) /\ (cb_fiber t = Some f -> b = BCb) /\ (idle_fiber t = Some f -> b = BIdle).
Proof.
  intros Hinv Hi He. destruct (thr_distinct s i t Hinv Hi) as (H1 & H2 & H3).
  pose proof (o_local s Hinv i t Hi) as Hl. destruct b.
  - assert (Hh : f ∈ hand t) by (unfold hand, entered in *; destruct (at_pc t); simplify_eq; set_solver).
    destruct (H1 f Hh) as (? & ? & ?). by split_and!.
  - pose proof (lo_entered_cb _ _ _ _ _ Hl f He) as Hc. destruct (H2 f Hc). by split_and!.
  - pose proof (lo_entered_idle _ _ _ _ _ Hl f He) as Hc. split_and!; [by apply H3 | | done].
    intros Hcb. by destruct (H2 f Hcb).
Qed.

Lemma entered_hand t t' b f : entered t = Some (b, f) -> entered t' = Some (b, f) -> hand t' = hand t.
Proof. unfold entered, hand. intros H1 H2. destruct (at_pc t), (at_pc t'); simplify_eq; by destruct b. Qed.

Lemma entered_started t b f : entered t = Some (b, f) -> started t = true /\ at_pc t <> PcExit.
Proof. unfold entered, started. by destruct (at_pc t). Qed.

(** Same fibers around the stack pointer. *)
Definition same_slots (t t' : thr) : Prop :=
  tid t' = tid t /\ l_threadFiber t' = l_threadFiber t /\ l_sched t' = l_sched t
  /\ idle_fiber t' = idle_fiber t /\ cb_fiber t' = cb_fiber t.

Lemma same_slots_fibers t t' : same_slots t t' -> hand t' = hand t -> thr_fibers t' = thr_fibers t.
Proof. unfold thr_fibers, base. by intros (_ & -> & -> & -> & ->) ->. Qed.

Lemma same_slots_base t t' : same_slots t t' -> base t' = base t.
Proof. unfold base. by intros (_ & -> & -> & _). Qed.

(** A fiber that was entered and has left is not executing. *)
Lemma left_not_exec s i t b f g :
  own_inv s -> threads s !! i = Some t -> entered t = Some (b, f) -> at_pc t <> PcIn b f ->
  heap s !! f = Some g -> m_state g <> EXEC.
Proof.
  intros Hinv Hi He Hpc Hg Hst. pose proof (o_local s Hinv i t Hi) as Hl.
  destruct (own_exec s i t f g Hinv Hi (entered_fibers _ _ _ _ _ _ _ Hl He) Hg Hst) as [[b' Hb] | Hb].
  - unfold entered in He. rewrite Hb in He. congruence.
  - by destruct (entered_distinct s i t b f Hinv Hi He).
Qed.

(** The thread goes on with the fiber it has entered, storing [g'] in it. *)
Lemma own_inv_entered s s' i t t' b f g g' :
  own_inv s -> threads s !! i = Some t -> threads s' = <[i := t']> (threads s) ->
  m_rootThread s' = m_rootThread s -> m_rootFiber s' = m_rootFiber s -> m_autoStop s' = m_autoStop s ->
  m_fibers s' = m_fibers s -> same_slots t t' ->
  entered t = Some (b, f) -> entered t' = Some (b, f) ->
  heap s !! f = Some g -> heap s' = <[f := g']> (heap s) -> m_stack g' = m_stack g ->
  (m_state g' = EXEC <-> at_pc t' = PcIn b f) ->
  (b = BIdle -> m_state g' = TERM -> m_autoStop s = true) ->
  locals_ok (m_rootThread s) (m_rootFiber s) t' ->
  own_inv s'.
Proof.
  intros Hinv Hi Ht Hr Hrf Hau Hq Hss He He' Hg Hh Hstk Hst Hidle Hloc.
  pose proof (o_local s Hinv i t Hi) as Hl. destruct (entered_distinct s i t b f Hinv Hi He) as (Hnb & Hncb & Hnidle).
  pose proof Hss as (_ & _ & _ & Eidle & Ecb). pose proof (same_slots_base _ _ Hss) as Ebase.
  pose proof (same_slots_fibers _ _ Hss (entered_hand _ _ _ _ He He')) as Efib.
  apply (own_inv_store s s' i t t' f g'); try done.
  - by eapply entered_fibers.
  - by rewrite Hq, Efib.
  - intros Hex. left. exists b. by apply Hst.
  - intros f' Hne [[b' Hb] | Hb]; [| right; by rewrite Ebase].
    unfold entered in He. rewrite Hb in He. congruence.
  - destruct (entered_started _ _ _ He) as [Hs Hx]. destruct (entered_started _ _ _ He') as [Hs' Hx'].
    pose proof Hl as [H1 H2 H3 H4 H5 H6 H7]. split.
    + done.
    + by rewrite Hs'.
    + intros _ _. destruct (H3 Hs Hx) as (f0 & Hf0 & g0 & Hg0 & Hterm). exists f0. rewrite Eidle. split; [done |].
      destruct (decide (f = f0)) as [<-|Hne].
      * exists g'. rewrite lookup_insert_eq. split; [done |]. intros. apply Hidle; auto.
      * exists g0. by rewrite lookup_insert_ne.
    + intros c Hc. rewrite Ecb in Hc. destruct (H4 c Hc) as (gc & Hgc & Hs1 & Hs2).
      destruct (decide (f = c)) as [<-|Hne].
      * exists g'. rewrite lookup_insert_eq, Hstk. simplify_eq. split_and!; try done.
        rewrite (Hncb Hc) in He'. intros Hno. by destruct Hno.
      * exists gc. rewrite lookup_insert_ne by done. split_and!; try done. intros _. apply Hs2. rewrite He. congruence.
    + intros f0. rewrite He', Ecb, <- He. apply H5.
    + intros f0. rewrite He', Eidle, <- He. apply H6.
    + intros b0 f0 Hpc. assert (b0 = b /\ f0 = f) as [-> ->] by (unfold entered in He'; rewrite Hpc in He'; by simplify_eq).
      exists g'. rewrite lookup_insert_eq. split; [done |]. by apply Hst.
Qed.

(** ** The transitions *)

(** The fiber a thread has entered is alive. *)
Lemma entered_alive s i t b f :
  own_inv s -> threads s !! i = Some t -> entered t = Some (b, f) -> exists g, heap s !! f = Some g.
Proof.
  intros Hinv Hi He. eapply (own_alive s i t f Hinv Hi), entered_fibers; [by apply (o_local s Hinv i) | done].
Qed.

Lemma is_state_false st g : m_state g <> st -> is_state st g = false.
Proof. intros H. unfold is_state. by apply bool_decide_eq_false. Qed.

Lemma is_state_true st g : m_state g = st -> is_state st g = true.
Proof. intros H. unfold is_state. by apply bool_decide_eq_true. Qed.

(** [SwapIn] from the loop. *)
Lemma enter_ok s i t b f :
  own_inv s -> threads s !! i = Some t -> at_pc t = PcEnter b f -> exists s', enter s i t b f = Ok s' /\ own_inv s'.
Proof.
  intros Hinv Hi Hpc. assert (He : entered t = Some (b, f)) by (unfold entered; by rewrite Hpc).
  destruct (entered_alive s i t b f Hinv Hi He) as [g Hg].
  pose proof (o_local s Hinv i t Hi) as Hl. pose proof (lo_locals _ _ _ _ _ Hl) as Hlo. unfold locals_ok in Hlo. rewrite Hpc in Hlo.
  destruct Hlo as (Hm & Hs & _ & _ & Hroot).
  assert (Hne : m_state g <> EXEC) by (eapply (left_not_exec s i t b f); [done.. | by rewrite Hpc | done]).
  unfold enter. rewrite (SwapIn_spec _ _ g) by (done || by eapply view_named; auto). rewrite is_state_false by done.
  eexists. split; [reflexivity |].
  eapply (own_inv_entered s _ i t _ b f g (with_state g EXEC)); try done; by rewrite ?He.
Qed.

(** The entered fiber stores its state before leaving. *)
Lemma leaving_ok s i t b f g g' :
  own_inv s -> threads s !! i = Some t -> at_pc t = PcIn b f -> heap s !! f = Some g ->
  m_stack g' = m_stack g -> m_state g' <> EXEC -> (b = BIdle -> m_state g' = TERM -> m_autoStop s = true) ->
  own_inv (commit s i (set_pc t (PcLeaving b f)) (put (view s t) f g')).
Proof.
  intros Hinv Hi Hpc Hg Hstk Hne Hidle. assert (He : entered t = Some (b, f)) by (unfold entered; by rewrite Hpc).
  pose proof (lo_locals _ _ _ _ _ (o_local s Hinv i t Hi)) as Hlo. unfold locals_ok in Hlo. rewrite Hpc in Hlo.
  eapply (own_inv_entered s _ i t _ b f g g'); done.
Qed.

Lemma store_state_ok s i t b f upd :
  own_inv s -> threads s !! i = Some t -> at_pc t = PcIn b f ->
  (forall g, m_stack (upd g) = m_stack g /\ m_state (upd g) <> EXEC /\ m_state (upd g) <> TERM) ->
  exists s', store_state s i t b f upd = Ok s' /\ own_inv s'.
Proof.
  intros Hinv Hi Hpc Hupd. assert (He : entered t = Some (b, f)) by (unfold entered; by rewrite Hpc).
  destruct (entered_alive s i t b f Hinv Hi He) as [g Hg]. unfold store_state. rewrite Hg. simpl.
  eexists. split; [reflexivity |]. destruct (Hupd g) as (? & ? & ?). by eapply leaving_ok.
Qed.

Lemma finish_ok s i t b f threw :
  own_inv s -> threads s !! i = Some t -> at_pc t = PcIn b f -> (b = BIdle -> m_autoStop s = true) ->
  exists w, finish (view s t) f threw = Ok w /\ own_inv (commit s i (set_pc t (PcLeaving b f)) w).
Proof.
  intros Hinv Hi Hpc Hb. assert (He : entered t = Some (b, f)) by (unfold entered; by rewrite Hpc).
  destruct (entered_alive s i t b f Hinv Hi He) as [g Hg]. unfold finish. simpl. rewrite Hg. simpl.
  eexists. split; [reflexivity |]. eapply leaving_ok; [done.. | | | auto]; by destruct threw.
Qed.

Lemma entered_idle_term s i t b f g :
  own_inv s -> threads s !! i = Some t -> entered t = Some (b, f) -> heap s !! f = Some g ->
  b = BIdle -> m_state g = TERM -> m_autoStop s = true.
Proof.
  intros Hinv Hi He Hg -> Hst. pose proof (o_local s Hinv i t Hi) as Hl.
  destruct (entered_started _ _ _ He). destruct (lo_idle _ _ _ _ _ Hl) as (f0 & Hf0 & g0 & Hg0 & Hterm); [done.. |].
  rewrite (lo_entered_idle _ _ _ _ _ Hl f He) in Hf0. simplify_eq. auto.
Qed.

(** The fiber on the CPU is executing, so [YieldToHold]'s assertion holds. *)
Lemma in_is_exec s i t b f :
  own_inv s -> threads s !! i = Some t -> at_pc t = PcIn b f -> exists g, heap s !! f = Some g /\ is_state EXEC g = true.
Proof.
  intros Hinv Hi Hpc. destruct (lo_in _ _ _ _ _ (o_local s Hinv i t Hi) b f Hpc) as (g & Hg & Hs).
  exists g. split; [done |]. by apply is_state_true.
Qed.

Lemma idle_turn_ok s i t f :
  own_inv s -> threads s !! i = Some t -> at_pc t = PcIn BIdle f ->
  exists s', idle_turn s i t BIdle f = Ok s' /\ own_inv s'.
Proof.
  intros Hinv Hi Hpc. unfold idle_turn. destruct (stopping s) eqn:Es.
  - unfold stopping in Es. to_props. destruct (finish_ok s i t BIdle f false Hinv Hi Hpc) as (w & -> & Hw); [done |].
    simpl. eauto.
  - destruct (in_is_exec s i t BIdle f Hinv Hi Hpc) as (g & Hg & Hx). rewrite Hg. simpl. rewrite Hx. simpl.
    by eapply store_state_ok.
Qed.

Lemma swap_out_ok s i t b f :
  own_inv s -> threads s !! i = Some t -> at_pc t = PcLeaving b f ->
  exists s', swap_out s i t b f = Ok s' /\ own_inv s'.
Proof.
  intros Hinv Hi Hpc. assert (He : entered t = Some (b, f)) by (unfold entered; by rewrite Hpc).
  destruct (entered_alive s i t b f Hinv Hi He) as [g Hg].
  pose proof (lo_locals _ _ _ _ _ (o_local s Hinv i t Hi)) as Hlo. unfold locals_ok in Hlo. rewrite Hpc in Hlo.
  destruct Hlo as (Hm & Hs & _ & _ & Hroot).
  assert (Hne : m_state g <> EXEC) by (eapply (left_not_exec s i t b f); [done.. | by rewrite Hpc | done]).
  unfold swap_out. rewrite SwapOut_spec; [| by exists f, g | by eapply view_named; auto]. simpl.
  eexists. split; [reflexivity |].
  eapply (own_inv_entered s _ i t _ b f g g); try done; [by simpl; rewrite insert_id |].
  by eapply entered_idle_term.
Qed.

Lemma back_ok s i t b f :
  own_inv s -> threads s !! i = Some t -> at_pc t = PcBack b f ->
  own_inv (set_thr (count_down s b) i (set_pc t (PcAfter b f))).
Proof.
  intros Hinv Hi Hpc. assert (He : entered t = Some (b, f)) by (unfold entered; by rewrite Hpc).
  destruct (entered_alive s i t b f Hinv Hi He) as [g Hg].
  pose proof (lo_locals _ _ _ _ _ (o_local s Hinv i t Hi)) as Hlo. unfold locals_ok in Hlo. rewrite Hpc in Hlo.
  assert (Hne : m_state g <> EXEC) by (eapply (left_not_exec s i t b f); [done.. | by rewrite Hpc | done]).
  eapply (own_inv_entered s _ i t (set_pc t (PcAfter b f)) b f g g); try done; try (by destruct b; simpl; rewrite ?insert_id).
  by eapply entered_idle_term.
Qed.

(** *** Giving a fiber back *)

(** Back in the loop, with the queue and the callback slot as given; only the
    entered fiber may have been stored to. *)
Lemma own_inv_loop s s' i t b f g c :
  own_inv s -> threads s !! i = Some t -> at_pc t = PcAfter b f -> heap s !! f = Some g ->
  forall g', threads s' = <[i := set_cb (set_pc t PcLoop) c]> (threads s) ->
  m_rootThread s' = m_rootThread s -> m_rootFiber s' = m_rootFiber s -> m_autoStop s' = m_autoStop s ->
  heap s' = <[f := g']> (heap s) -> m_stack g' = m_stack g -> m_state g' <> EXEC ->
  (m_state g' = TERM -> m_state g = TERM) ->
  (c = cb_fiber t \/ (b = BCb /\ c = None)) ->
  (b = BCb -> c = cb_fiber t -> restable g' = true) ->
  (queued (m_fibers s') = queued (m_fibers s)
   \/ queued (m_fibers s') = queued (m_fibers s) ++ [f] /\ (b = BFiber \/ b = BCb /\ c = None)) ->
  own_inv s'.
Proof.
  intros Hinv Hi Hpc Hg g' Ht Hr Hrf Hau Hh Hstk Hne Hterm Hc Hre Hq.
  assert (He : entered t = Some (b, f)) by (unfold entered; by rewrite Hpc).
  pose proof (o_local s Hinv i t Hi) as Hl. destruct (entered_distinct s i t b f Hinv Hi He) as (Hnb & Hncb & Hnidle).
  pose proof Hl as [H1 H2 H3 H4 H5 H6 H7].
  assert (Hhand : hand t = if decide (b = BFiber) then [f] else []) by (unfold hand; rewrite Hpc; by destruct b).
  eapply (own_inv_store s s' i t _ f g'); try done.
  - by eapply entered_fibers.
  - unfold thr_fibers. rewrite Hhand. change (hand (set_cb (set_pc t PcLoop) c)) with (@nil fid). simpl.
    destruct Hq as [-> | [-> [-> | [-> ->]]]]; simpl.
    + apply submseteq_skips_l. destruct Hc as [-> | [-> ->]]; solve_submseteq.
    + destruct Hc as [-> | [? _]]; [| done]. rewrite <- app_assoc. solve_submseteq.
    + rewrite (H5 f He). simpl. rewrite <- app_assoc. solve_submseteq.
  - intros f' Hne' [[b' Hb] | Hb]; [by rewrite Hpc in Hb | by right].
  - unfold locals_ok in H1. rewrite Hpc in H1. split; try done.
    + intros _ _. destruct (entered_started _ _ _ He) as [Hs Hx].
      destruct (H3 Hs Hx) as (f0 & Hf0 & g0 & Hg0 & Ht0). exists f0. split; [done |].
      destruct (decide (f = f0)) as [<-|Hne0].
      * exists g'. rewrite lookup_insert_eq. simplify_eq. auto.
      * exists g0. by rewrite lookup_insert_ne.
    + intros c' Hc'. simpl in Hc'. destruct Hc as [-> | [_ ->]]; [| done].
      destruct (H4 c' Hc') as (gc & Hgc & Hs1 & Hs2). destruct (decide (f = c')) as [<-|Hne0].
      * exists g'. rewrite lookup_insert_eq, Hstk. simplify_eq. split_and!; try done. intros _. apply Hre; auto.
      * exists gc. rewrite lookup_insert_ne by done. split_and!; try done. intros _. apply Hs2. rewrite He. congruence.
Qed.

Lemma queued_app q k : queued (q ++ k) = queued q ++ queued k.
Proof. unfold queued. apply omap_app. Qed.

Lemma schedule_queued s ft : queued (m_fibers (schedule s ft)) = queued (m_fibers s) ++ option_list (fiber ft).
Proof.
  unfold schedule, scheduleNoLock. destruct (nonnull ft) eqn:E; simpl.
  - by rewrite queued_app.
  - unfold nonnull in E. destruct (fiber ft); [done |]. by rewrite app_nil_r.
Qed.

Lemma settle_ok s i t b f :
  own_inv s -> threads s !! i = Some t -> at_pc t = PcAfter b f ->
  exists s', settle s i t b f = Ok s' /\ own_inv s'.
Proof.
  intros Hinv Hi Hpc. assert (He : entered t = Some (b, f)) by (unfold entered; by rewrite Hpc).
  destruct (entered_alive s i t b f Hinv Hi He) as [g Hg].
  assert (Hne : m_state g <> EXEC) by (eapply (left_not_exec s i t b f); [done.. | by rewrite Hpc | done]).
  pose proof (o_local s Hinv i t Hi) as Hl.
  assert (Eid : set_cb (set_pc t PcLoop) (cb_fiber t) = set_pc t PcLoop) by done.
  assert (Hid : <[f := g]> (heap s) = heap s) by by apply insert_id.
  assert (Hloop : forall s' c g', _) by exact (fun s' c => own_inv_loop s s' i t b f g c Hinv Hi Hpc Hg).
  unfold settle. rewrite Hg. simpl.
  destruct b.
  - destruct (is_state READY g); [| destruct (ended g)]; eexists; (split; [reflexivity |]).
    + apply (Hloop _ (cb_fiber t) g); try done; auto. right. split; [| auto]. by rewrite schedule_queued.
    + apply (Hloop _ (cb_fiber t) g); try done; auto.
    + apply (Hloop _ (cb_fiber t) (with_state g HOLD)); try done; auto.
  - destruct (lo_cb _ _ _ _ _ Hl f (lo_entered_cb _ _ _ _ _ Hl f He)) as (g0 & Hg0 & Hstk & _). simplify_eq.
    destruct (is_state READY g); [| destruct (ended g) eqn:Een].
    + eexists; (split; [reflexivity |]).
      apply (Hloop _ None g); try done; auto; [| right; split; [by rewrite schedule_queued | auto]].
      intros _ Hc. rewrite (lo_entered_cb _ _ _ _ _ Hl f He) in Hc. done.
    + unfold reset. simpl. rewrite Hg. simpl. rewrite Hstk. simpl.
      assert (Hre : restable g = true) by (unfold restable; unfold ended in Een; by rewrite Een). rewrite Hre. simpl.
      eexists; (split; [reflexivity |]).
      by apply (Hloop _ (cb_fiber t) (with_state (with_ctx (with_cb g None) MainFunc) INIT)); auto.
    + eexists; (split; [reflexivity |]).
      apply (Hloop _ None (with_state g HOLD)); try done; auto.
      intros _ Hc. rewrite (lo_entered_cb _ _ _ _ _ Hl f He) in Hc. done.
  - destruct (ended g); eexists; (split; [reflexivity |]).
    + apply (Hloop _ (cb_fiber t) g); try done; auto.
    + apply (Hloop _ (cb_fiber t) (with_state g HOLD)); try done; auto.
Qed.

(** *** Around the loop *)

Lemma local_set_pc h root rootf auto t p :
  local_ok h root rootf auto t -> started t = true -> entered t = None -> at_pc t <> PcExit ->
  locals_ok root rootf (set_pc t p) -> started (set_pc t p) = true ->
  (forall f, entered (set_pc t p) = Some (BCb, f) -> cb_fiber t = Some f) ->
  (forall f, entered (set_pc t p) = Some (BIdle, f) -> idle_fiber t = Some f) ->
  (forall b f, p <> PcIn b f) -> local_ok h root rootf auto (set_pc t p).
Proof.
  intros [H1 H2 H3 H4 H5 H6 H7] Hs He Hx Hlo Hs' Hcb Hid Hin. split; try done.
  - by rewrite Hs'.
  - intros _ _. by apply H3.
  - intros f Hf. destruct (H4 f Hf) as (g & Hg & Hst & Hre). exists g. split_and!; try done.
    intros _. apply Hre. by rewrite He.
  - intros b f Hp. by destruct (Hin b f).
Qed.

(** A move inside the loop that neither stores to a fiber nor gives the thread
    another one. *)
Lemma own_inv_pc s s' i t p :
  own_inv s -> threads s !! i = Some t -> threads s' = <[i := set_pc t p]> (threads s) ->
  m_rootThread s' = m_rootThread s -> m_rootFiber s' = m_rootFiber s -> m_autoStop s' = m_autoStop s ->
  heap s' = heap s -> queued (m_fibers s') ++ hand (set_pc t p) ⊆+ queued (m_fibers s) ++ hand t ->
  started t = true -> entered t = None -> at_pc t <> PcExit ->
  locals_ok (m_rootThread s) (m_rootFiber s) (set_pc t p) -> started (set_pc t p) = true ->
  (forall f, entered (set_pc t p) = Some (BCb, f) -> cb_fiber t = Some f) ->
  (forall f, entered (set_pc t p) = Some (BIdle, f) -> idle_fiber t = Some f) ->
  (forall b f, p <> PcIn b f) -> own_inv s'.
Proof.
  intros Hinv Hi Ht Hr Hrf Hau Hh Hq Hs He Hx Hlo Hs' Hcb Hid Hin.
  pose proof (o_local s Hinv i t Hi) as Hl.
  eapply (own_inv_quiet s s' i t); try done.
  - by rewrite Hau.
  - unfold thr_fibers. rewrite !app_assoc. do 3 apply submseteq_skips_r. done.
  - intros f [[b Hb] | Hb]; [| by right]. unfold entered in He. by rewrite Hb in He.
  - rewrite Hau. by apply local_set_pc.
Qed.

Lemma loop_locals s i t :
  own_inv s -> threads s !! i = Some t -> started t = true -> entered t = None -> at_pc t <> PcExit ->
  is_Some (l_threadFiber t) /\ is_Some (l_sched t) /\ l_fiber t = l_sched t /\ l_cpu t = l_sched t
  /\ (tid t <> m_rootThread s -> l_threadFiber t = l_sched t).
Proof.
  intros Hinv Hi Hs He Hx. pose proof (lo_locals _ _ _ _ _ (o_local s Hinv i t Hi)) as Hlo.
  unfold locals_ok, started, entered in *. by destruct (at_pc t).
Qed.

Lemma take_task_ok s i t :
  own_inv s -> queue_inv s -> threads s !! i = Some t -> at_pc t = PcLoop ->
  exists s', take_task s i t = Ok s' /\ own_inv s'.
Proof.
  intros Hinv Hq Hi Hpc. unfold take_task.
  assert (Hst : started t = true) by (unfold started; by rewrite Hpc).
  assert (He : entered t = None) by (unfold entered; by rewrite Hpc).
  assert (Hx : at_pc t <> PcExit) by by rewrite Hpc.
  pose proof (loop_locals s i t Hinv Hi Hst He Hx) as Hlo.
  assert (Hh : hand t = []) by (unfold hand; by rewrite Hpc).
  destruct (scan_spec (heap s) (tid t) _ (q_nonnull s Hq)) as [(pre & x & post & Hqe & _ & _ & Hs) | (_ & Hs)];
    rewrite Hs; simpl; eexists; (split; [reflexivity |]).
  - eapply (own_inv_pc s _ i t); try done. simpl. rewrite Hh, Hqe, app_nil_r. unfold hand. simpl.
    rewrite !queued_app. change (queued (x :: post)) with (queued ([x] ++ post)). rewrite queued_app.
    unfold queued at 4. simpl. destruct (fiber x); simpl; solve_submseteq.
  - eapply (own_inv_pc s _ i t); try done. simpl. by rewrite Hh.
Qed.

Lemma scanned_ok s i t ft tk :
  own_inv s -> threads s !! i = Some t -> at_pc t = PcScanned ft tk ->
  own_inv (set_thr s i (set_pc t (PcDispatch ft))).
Proof.
  intros Hinv Hi Hpc.
  assert (Hst : started t = true) by (unfold started; by rewrite Hpc).
  assert (He : entered t = None) by (unfold entered; by rewrite Hpc).
  assert (Hx : at_pc t <> PcExit) by by rewrite Hpc.
  pose proof (loop_locals s i t Hinv Hi Hst He Hx) as Hlo.
  eapply (own_inv_pc s _ i t); try done. unfold hand. by rewrite Hpc.
Qed.

(** [run()] ends. *)
Lemma leave_run_ok s i t ft :
  own_inv s -> threads s !! i = Some t -> at_pc t = PcDispatch ft ->
  exists s', leave_run s i t = Ok s' /\ own_inv s'.
Proof.
  intros Hinv Hi Hpc.
  assert (Hst : started t = true) by (unfold started; by rewrite Hpc).
  assert (He : entered t = None) by (unfold entered; by rewrite Hpc).
  assert (Hx : at_pc t <> PcExit) by by rewrite Hpc.
  destruct (loop_locals s i t Hinv Hi Hst He Hx) as (Hm & Hs & Hf & Hc & Hroot).
  unfold leave_run. destruct (Z.eqb_spec (tid t) (m_rootThread s)) as [Hr | Hr].
  - destruct Hs as [r Hr0]. destruct Hm as [mf Hm]. rewrite Hf, Hr0.
    destruct (own_alive s i t r Hinv Hi (base_fibers _ _ (base_sched _ _ Hr0))) as [g Hg].
    destruct (own_alive s i t mf Hinv Hi (base_fibers _ _ (base_main _ _ Hm))) as [gm Hgm].
    unfold CallerMainFunc_end. rewrite (GetThis_running _ _ r) by (simpl; congruence). rewrite bind_Ok.
    unfold finish. simpl. rewrite Hg. simpl. unfold back, swapcontext. simpl. rewrite Hm. simpl.
    rewrite lookup_insert_eq. simpl.
    destruct (put_lookup (view s t) r (with_state (with_cb g None) TERM) mf) as [gm' Hgm']; [by exists gm |].
    simpl in Hgm'. rewrite Hgm'. simpl. eexists. split; [reflexivity |].
    pose proof (o_local s Hinv i t Hi) as [H1 H2 H3 H4 H5 H6 H7].
    destruct (thr_distinct s i t Hinv Hi) as (Hd1 & Hd2 & Hd3). pose proof (base_sched _ _ Hr0) as Hb.
    eapply (own_inv_store s _ i t _ r (with_state (with_cb g None) TERM)); try done.
    + by apply base_fibers.
    + simpl. apply submseteq_skips_l. unfold thr_fibers, base. simpl. rewrite Hm. solve_submseteq.
    + intros f' _ [[b Hb'] | Hb']; [by rewrite Hpc in Hb' |].
      right. unfold base in *. simpl. rewrite Hm, Hr0 in *. done.
    + simpl. rewrite Hm, Hr0. split; try done.
      * intros c Hcb. simpl in Hcb. destruct (H4 c Hcb) as (gc & Hgc & Hs1 & Hs2). destruct (Hd2 c Hcb) as [_ Hnb].
        exists gc. rewrite lookup_insert_ne by (by intros ->). split_and!; try done. intros _. apply Hs2. by rewrite He.
  - eexists. split; [reflexivity |]. eapply (own_inv_pc s _ i t); try done.
    + simpl. apply submseteq_skips_l. apply submseteq_nil_l.
    + simpl. unfold locals_ok. simpl. split_and!; [done.. |]. rewrite Hc, Hroot; done.
Qed.

(** A fresh fiber changes nothing that is owned. *)
Lemma fresh_not_owned s f : own_inv s -> heap s !! f = None -> f ∉ owned s.
Proof. intros Hinv Hn Hf. destruct (o_alive s Hinv f Hf). congruence. Qed.

Lemma load_cb_ok s i t ft c p conf :
  own_inv s -> threads s !! i = Some t -> at_pc t = PcDispatch ft -> heap s !! p = None ->
  exists s', load_cb s i t c p conf = Ok s' /\ own_inv s'.
Proof.
  intros Hinv Hi Hpc Hp.
  assert (Hst : started t = true) by (unfold started; by rewrite Hpc).
  assert (He : entered t = None) by (unfold entered; by rewrite Hpc).
  assert (Hx : at_pc t <> PcExit) by by rewrite Hpc.
  pose proof (loop_locals s i t Hinv Hi Hst He Hx) as Hlo.
  pose proof (o_local s Hinv i t Hi) as [H1 H2 H3 H4 H5 H6 H7].
  destruct (thr_distinct s i t Hinv Hi) as (Hd1 & Hd2 & Hd3).
  assert (Hnb : forall b f, at_pc t <> PcIn b f) by (intros b f; by rewrite Hpc).
  unfold load_cb. destruct (cb_fiber t) as [f|] eqn:Ecb.
  - destruct (H4 f eq_refl) as (g & Hg & Hstk & Hre). destruct (Hd2 f eq_refl) as [Hni Hnbase].
    unfold reset. simpl. rewrite Hg. simpl. rewrite Hstk, Hre by by rewrite He. simpl. eexists. split; [reflexivity |].
    eapply (own_inv_store s _ i t _ f (with_state (with_ctx (with_cb g (Some c)) MainFunc) INIT)); try done.
    + unfold thr_fibers. rewrite Ecb. set_solver.
    + simpl. apply submseteq_skips_l. unfold thr_fibers. simpl. rewrite Ecb.
      change (base _) with (base t). unfold hand at 1. simpl. solve_submseteq.
    + intros f' _ [[b Hb] | Hb]; [by rewrite Hpc in Hb | by right].
    + simpl. split; try done.
      * intros _ _. destruct (H3 Hst Hx) as (f0 & Hf0 & g0 & Hg0 & Ht0). exists f0. split; [done |]. exists g0.
        rewrite lookup_insert_ne; [done | congruence].
      * intros f' Hf'. simpl in Hf'. rewrite Ecb in Hf'. simplify_eq. eexists. rewrite lookup_insert_eq. by split.
      * intros f' Hf'. unfold entered in Hf'. simpl in *. congruence.
  - eexists. split; [reflexivity |].
    eapply (own_inv_move s _ i t _ [p]); try done.
    + by apply NoDup_singleton.
    + constructor; [| done]. split; [done |]. simpl. rewrite lookup_insert_eq. eauto.
    + simpl. unfold thr_fibers. simpl. rewrite Ecb. change (base _) with (base t). unfold hand at 1. simpl. solve_submseteq.
    + intros f'. simpl. rewrite lookup_insert_is_Some'. auto.
    + intros f' [g' Hf'] _. simpl. rewrite lookup_insert_ne; [done | congruence].
    + intros f' g' Hg' Hex Hor. simpl in Hg'. destruct (decide (p = f')) as [<-|Hne].
      * rewrite lookup_insert_eq in Hg'. by simplify_eq.
      * rewrite lookup_insert_ne in Hg' by done. destruct Hor as [Hf' | Hn]; [| congruence].
        destruct (own_exec s i t f' g' Hinv Hi Hf' Hg' Hex) as [[b Hb] | Hb]; [by rewrite Hpc in Hb | by right].
    + simpl. split; try done.
      * intros _ _. destruct (H3 Hst Hx) as (f0 & Hf0 & g0 & Hg0 & Ht0). exists f0. split; [done |]. exists g0.
        rewrite lookup_insert_ne; [done | congruence].
      * intros f' Hf'. simpl in Hf'. simplify_eq. eexists. rewrite lookup_insert_eq. by split.
      * intros f' Hf'. unfold entered in Hf'. simpl in *. by simplify_eq.
Qed.

Lemma dispatch_ok s i t ft p conf :
  own_inv s -> threads s !! i = Some t -> at_pc t = PcDispatch ft -> heap s !! p = None ->
  exists s', dispatch s i t ft p conf = Ok s' /\ own_inv s'.
Proof.
  intros Hinv Hi Hpc Hp.
  assert (Hst : started t = true) by (unfold started; by rewrite Hpc).
  assert (He : entered t = None) by (unfold entered; by rewrite Hpc).
  assert (Hx : at_pc t <> PcExit) by by rewrite Hpc.
  pose proof (loop_locals s i t Hinv Hi Hst He Hx) as Hlo.
  pose proof (o_local s Hinv i t Hi) as [H1 H2 H3 H4 H5 H6 H7].
  assert (Hrun : exists r, runnable s (default FT_null ft) = Ok r /\ (forall f, r = Some f -> hand t = [f])).
  { destruct ft as [ft|]; simpl; [| by exists None]. unfold runnable. destruct (fiber ft) as [f|] eqn:Ef; [| by exists None].
    assert (Hh : hand t = [f]) by (unfold hand; by rewrite Hpc, Ef).
    destruct (own_alive s i t f Hinv Hi) as [g Hg]; [unfold thr_fibers; rewrite Hh; set_solver |].
    rewrite Hg. simpl. eexists. split; [reflexivity |]. destruct (ended g); intros; by simplify_eq. }
  destruct Hrun as (r & Hr & Hrh). unfold dispatch. rewrite Hr. simpl.
  destruct r as [f|].
  - eexists. split; [reflexivity |]. eapply (own_inv_pc s _ i t); try done. by rewrite (Hrh f eq_refl).
  - destruct (cb (default FT_null ft)); [by eapply load_cb_ok |]. case_bool_decide as Hsome.
    + eexists. split; [reflexivity |]. eapply (own_inv_pc s _ i t); try done.
      simpl. apply submseteq_skips_l, submseteq_nil_l.
    + destruct (H3 Hst Hx) as (fi & Hfi & g & Hg & _). rewrite Hfi. simpl. rewrite Hg. simpl.
      destruct (is_state TERM g); [by eapply leave_run_ok |].
      eexists. split; [reflexivity |]. eapply (own_inv_pc s _ i t); try done.
      * simpl. apply submseteq_skips_l, submseteq_nil_l.
      * intros f Hf. unfold entered in Hf. simpl in Hf. by simplify_eq.
Qed.

(** *** Entering [run()], [start] and [stop] *)

Lemma hand_unstarted t : started t = false -> hand t = [].
Proof. unfold started, hand. by destruct (at_pc t). Qed.

Lemma run_begin_ok s i t p q conf :
  own_inv s -> threads s !! i = Some t -> at_pc t = PcStart -> heap s !! p = None -> heap s !! q = None -> p <> q ->
  exists s', run_begin s i t p q conf = Ok s' /\ own_inv s'.
Proof.
  intros Hinv Hi Hpc Hp Hq Hpq.
  assert (Hst : started t = false) by (unfold started; by rewrite Hpc).
  pose proof (o_local s Hinv i t Hi) as [H1 H2 H3 H4 H5 H6 H7]. destruct (H2 Hst) as [Hidle Hcb].
  unfold locals_ok in H1. rewrite Hpc in H1. unfold run_begin.
  destruct (Z.eqb_spec (tid t) (m_rootThread s)) as [Hr | Hr]; simpl.
  - rewrite decide_True in H1 by done. destruct H1 as (Hm & Hs & Hf & Hc & Hne).
    eexists. split; [reflexivity |]. eapply (own_inv_move s _ i t _ [q]); try done.
    + by apply NoDup_singleton.
    + constructor; [| done]. split; [done |]. simpl. rewrite lookup_insert_eq. eauto.
    + simpl. unfold thr_fibers. rewrite (hand_unstarted t Hst), Hcb, Hidle. simpl. change (base _) with (base t).
      solve_submseteq.
    + intros f'. simpl. rewrite lookup_insert_is_Some'. auto.
    + intros f' [g' Hf'] _. simpl. rewrite lookup_insert_ne; [done | congruence].
    + intros f' g' Hg' Hex Hor. simpl in Hg'. destruct (decide (q = f')) as [<-|Hn].
      * rewrite lookup_insert_eq in Hg'. by simplify_eq.
      * rewrite lookup_insert_ne in Hg' by done. destruct Hor as [Hf' | Hno]; [| congruence].
        destruct (own_exec s i t f' g' Hinv Hi Hf' Hg' Hex) as [[b Hb] | Hb]; [by rewrite Hpc in Hb | by right].
    + simpl. split; try done; simpl.
      * intros _ _. exists q. split; [done |]. eexists. rewrite lookup_insert_eq. by split.
      * by rewrite Hcb.
  - rewrite decide_False in H1 by done. destruct H1 as (Hm & Hs & Hf & Hc).
    unfold GetThis. simpl. rewrite Hf. simpl. rewrite bool_decide_eq_true_2 by done. simpl. rewrite Hc.
    eexists. split; [reflexivity |]. eapply (own_inv_move s _ i t _ [p; q]); try done.
    + apply NoDup_cons. split; [set_solver | by apply NoDup_singleton].
    + constructor; [| constructor; [| done]]; (split; [done |]); simpl.
      * rewrite lookup_insert_ne, lookup_insert_eq by done. eauto.
      * rewrite lookup_insert_eq. eauto.
    + simpl. unfold thr_fibers. rewrite (hand_unstarted t Hst), Hcb, Hidle. unfold base. simpl.
      rewrite decide_True, Hm, Hs by done. simpl. solve_submseteq.
    + intros f'. simpl. rewrite !lookup_insert_is_Some'. auto.
    + intros f' [g' Hf'] _. simpl. rewrite !lookup_insert_ne by congruence. done.
    + intros f' g' Hg' Hex Hor. simpl in Hg'. destruct (decide (q = f')) as [<-|Hn].
      { rewrite lookup_insert_eq in Hg'. by simplify_eq. }
      rewrite lookup_insert_ne in Hg' by done. destruct (decide (p = f')) as [<-|Hn'].
      * right. by apply base_main.
      * rewrite lookup_insert_ne in Hg' by done. destruct Hor as [Hf' | Hno]; [| congruence].
        destruct (own_exec s i t f' g' Hinv Hi Hf' Hg' Hex) as [[b Hb] | Hb]; [by rewrite Hpc in Hb |].
        unfold base in Hb. rewrite Hm, Hs in Hb. set_solver.
    + simpl. split; try done; simpl.
      * intros _ _. exists q. split; [done |]. eexists. rewrite lookup_insert_eq. by split.
      * by rewrite Hcb.
Qed.

(** [stop] on the thread that constructed the scheduler. *)
Lemma local_caller h root rootf auto auto' t p :
  local_ok h root rootf auto t -> (at_pc t = PcCaller \/ at_pc t = PcStopCall) -> (p = PcStopCall \/ p = PcExit) ->
  (auto = true -> auto' = true) -> local_ok h root rootf auto' (set_pc t p).
Proof.
  intros [H1 H2 H3 H4 H5 H6 H7] Hpc Hp Hau. unfold locals_ok, started, entered in *.
  assert (Hl : is_Some (l_threadFiber t) /\ is_Some (l_sched t) /\ l_cpu t = l_threadFiber t
               /\ locals_ok root rootf (set_pc t PcStopCall)).
  { destruct Hpc as [Hpc | Hpc]; rewrite Hpc in H1; destruct H1 as (? & ? & Hr & Hs & ? & ? & ?);
      subst rootf; unfold locals_ok; simpl; split_and!; done. }
  destruct Hl as (Hl1 & Hl2 & Hl3 & Hl4).
  assert (H2' : idle_fiber t = None /\ cb_fiber t = None) by (apply H2; by destruct Hpc as [-> | ->]).
  destruct H2' as [Hi Hc]. destruct Hp as [-> | ->]; split; try done; simpl; by rewrite Hc.
Qed.

Lemma caller_ok s i t p :
  own_inv s -> threads s !! i = Some t -> (at_pc t = PcCaller \/ at_pc t = PcStopCall) -> (p = PcStopCall \/ p = PcExit) ->
  forall st au, (m_autoStop s = true -> au = true) -> own_inv (set_thr (set_flags s st au) i (set_pc t p)).
Proof.
  intros Hinv Hi Hpc Hp st au Hau. pose proof (o_local s Hinv i t Hi) as Hl.
  eapply (own_inv_quiet s _ i t); try done.
  - simpl. apply submseteq_skips_l. unfold thr_fibers. simpl. change (base (set_pc t p)) with (base t).
    rewrite (hand_unstarted t) by (unfold started; by destruct Hpc as [-> | ->]). unfold hand. simpl.
    destruct Hp as [-> | ->]; done.
  - intros f [[b Hb] | Hb]; [by destruct Hpc as [E | E]; rewrite E in Hb | by right].
  - by eapply local_caller.
Qed.

Lemma call_root_ok s i t f :
  own_inv s -> threads s !! i = Some t -> at_pc t = PcStopCall -> m_rootFiber s = Some f ->
  exists w, call (view s t) f = Ok w /\ own_inv (commit s i (set_pc t PcStart) w).
Proof.
  intros Hinv Hi Hpc Hrf. pose proof (o_local s Hinv i t Hi) as [H1 H2 H3 H4 H5 H6 H7].
  unfold locals_ok in H1. rewrite Hpc in H1. destruct H1 as (Ht & Hm & _ & Hs & Hf & Hc & Hne). rewrite Hrf in Hs.
  assert (Hst : started t = false) by (unfold started; by rewrite Hpc). destruct (H2 Hst) as [Hidle Hcb].
  destruct (own_alive s i t f Hinv Hi (base_fibers _ _ (base_sched _ _ Hs))) as [g Hg]. destruct Hm as [mf Hm].
  destruct (own_alive s i t mf Hinv Hi (base_fibers _ _ (base_main _ _ Hm))) as [gm Hgm].
  unfold call. simpl. rewrite Hg. simpl. unfold swapcontext. simpl. rewrite Hm. simpl.
  destruct (put_lookup (view s t) f (with_state g EXEC) mf) as [gm' Hgm']; [by exists gm |].
  simpl in Hgm'. rewrite Hgm'. simpl. rewrite lookup_insert_eq. simpl. eexists. split; [reflexivity |].
  eapply (own_inv_store s _ i t _ f (with_state g EXEC)); try done.
  - apply base_fibers. by apply base_sched.
  - simpl. apply submseteq_skips_l. unfold thr_fibers. simpl. rewrite (hand_unstarted t Hst).
    unfold base. simpl. rewrite Hm. done.
  - intros _. right. by apply base_sched.
  - intros f' _ [[b Hb] | Hb]; [by rewrite Hpc in Hb |]. right. unfold base in *. simpl. by rewrite Hm, Hs in *.
  - simpl. split; try done; simpl.
    + unfold locals_ok. simpl. rewrite decide_True by done. rewrite Hs, Hm in *. split_and!; done || eauto.
    + by rewrite Hcb.
Qed.

Lemma start_ok s ids :
  own_inv s -> m_threads s = [] \/ m_stopping s = false -> Forall (fun id => id <> m_rootThread s) ids ->
  exists s', start s ids = Ok s' /\ own_inv s'.
Proof.
  intros Hinv Hpool Hids. unfold start. destruct (m_stopping s) eqn:Es; simpl; [| eauto].
  destruct Hpool as [-> | ?]; [| done]. simpl. eexists. split; [reflexivity |].
  set (news := (fun id => mkThr id PcStart None None None None None None SNull) <$> ids).
  assert (Hnews : concat (thr_fibers <$> news) = []) by (unfold news; clear; induction ids; done).
  destruct Hinv as [Hnd Hal Hex Hlo]. unfold owned in *. split; unfold owned; simpl; fold news.
  - by rewrite fmap_app, concat_app, Hnews, app_nil_r.
  - by rewrite fmap_app, concat_app, Hnews, app_nil_r.
  - intros f g Hg Hst. destruct (Hex f g Hg Hst) as (j & u & Hj & Hu). exists j, u. split; [| done].
    by apply lookup_app_l_Some.
  - intros j u Hj. apply lookup_app_Some in Hj as [Hj | [_ Hj]]; [by eapply Hlo |].
    unfold news in Hj. rewrite list_lookup_fmap in Hj. destruct (ids !! (j - length (threads s))%nat) as [id|] eqn:Eid; [| done].
    simpl in Hj. simplify_eq. split; try done. unfold locals_ok. simpl.
    rewrite Forall_lookup in Hids. rewrite decide_False by by eapply Hids. done.
Qed.

(** A fiber may be scheduled while nobody owns it: it is neither queued, nor in
    a thread's hand. *)
Definition schedulable (s : state) (ft : FiberAndThread) : Prop :=
  forall f, fiber ft = Some f -> (f ∉ owned s) /\ is_Some (heap s !! f).

Lemma schedule_frame s ft :
  threads (schedule s ft) = threads s /\ heap (schedule s ft) = heap s /\ m_rootThread (schedule s ft) = m_rootThread s
  /\ m_rootFiber (schedule s ft) = m_rootFiber s /\ m_autoStop (schedule s ft) = m_autoStop s
  /\ m_stopping (schedule s ft) = m_stopping s /\ m_threads (schedule s ft) = m_threads s.
Proof. unfold schedule. by destruct (nonnull ft). Qed.

Lemma schedule_owned s ft : owned (schedule s ft) ≡ₚ option_list (fiber ft) ++ owned s.
Proof.
  unfold owned. rewrite schedule_queued. destruct (schedule_frame s ft) as (-> & _).
  rewrite <- app_assoc. apply Permutation_app_swap_app.
Qed.

Lemma schedule_ok s ft : own_inv s -> schedulable s ft -> own_inv (schedule s ft).
Proof.
  intros [Hnd Hal Hex Hlo] Hs. destruct (schedule_frame s ft) as (Et & Eh & Er & Erf & Ea & _).
  split; rewrite ?Et, ?Eh, ?Er, ?Erf, ?Ea; try done.
  - rewrite schedule_owned. destruct (fiber ft) as [f|] eqn:Ef; [| done]. destruct (Hs f Ef). by constructor.
  - intros f. rewrite schedule_owned. intros [Hf | Hf]%elem_of_app; [| by apply Hal].
    apply Hs. destruct (fiber ft); set_solver.
Qed.

Lemma create_ok s p c conf : own_inv s -> heap s !! p = None -> own_inv (create conf s p c).
Proof.
  intros Hinv Hp. pose proof Hinv as [Hnd Hal Hex Hlo]. split; simpl; try done.
  - intros f Hf. rewrite lookup_insert_is_Some'. right. by apply Hal.
  - intros f g Hg Hst. destruct (decide (p = f)) as [<-|Hne].
    + rewrite lookup_insert_eq in Hg. by simplify_eq.
    + rewrite lookup_insert_ne in Hg by done. by eapply Hex.
  - intros i t Hi. eapply local_ok_agree; [| done | by eapply Hlo]. intros f Hf.
    destruct (own_alive s i t f Hinv Hi Hf) as [g Hg]. rewrite lookup_insert_ne; [done | congruence].
Qed.

(** The discipline the application keeps: [start] before [stop] and with thread
    ids of its own; a fiber is scheduled only while nobody owns it; after [stop]
    only tasks schedule; [stop] only after the scheduler has a thread, and when it
    has no root fiber, not from one of its own threads. *)
Definition disciplined (a : action) (s : state) : Prop :=
  match a with
  | AStart ids => m_autoStop s = false /\ Forall (fun id => id <> m_rootThread s) ids
  | AStop here => threads s <> [] /\ here <> SThis
  | ASchedule ft => m_autoStop s = false /\ schedulable s ft
  | AUser _ (USchedule ft) => schedulable s ft
  | _ => True
  end.

(** [start] finds an empty pool as long as [stop] was not called. *)
Definition pool_inv (s : state) : Prop := m_autoStop s = false -> m_stopping s = true -> m_threads s = [].

(** The thread that is to call [stop] on the root fiber knows the scheduler; a
    scheduler without root fiber has no such thread. *)
Record home_inv (s : state) : Prop := {
  h_none : m_rootFiber s = None -> m_rootThread s = -1;
  h_caller : forall i t, threads s !! i = Some t -> at_pc t = PcCaller -> t_scheduler t = SThis /\ m_rootThread s <> -1;
}.

Lemma stop_begin_ok s here :
  (m_rootThread s <> -1 -> here = SThis) -> (m_rootThread s = -1 -> here <> SThis) ->
  exists b, stop_begin s here = Ok (set_flags s true true, b).
Proof.
  intros H1 H2. assert (E : (if negb (m_rootThread s =? -1) then sylar_assert (bool_decide (here = SThis))
       else sylar_assert (negb (bool_decide (here = SThis)))) = Ok tt).
  { destruct (Z.eqb_spec (m_rootThread s) (-1)); simpl; [rewrite bool_decide_eq_false_2 by auto | rewrite bool_decide_eq_true_2 by auto]; done. }
  unfold stop_begin. destruct (_ && (m_threadCount _ =? 0)%nat); simpl; rewrite E; simpl; [destruct (stopping _) |]; eauto.
Qed.

Lemma home_step s s' i t :
  home_inv s -> m_rootFiber s' = m_rootFiber s -> m_rootThread s' = m_rootThread s -> threads s' = <[i := t]> (threads s) ->
  at_pc t <> PcCaller -> home_inv s'.
Proof.
  intros [H1 H2] E1 E2 Et Hpc. split; rewrite ?E1, ?E2; [done |]. rewrite Et. intros j u.
  destruct (decide (i = j)) as [<- | Hne]; [| rewrite list_lookup_insert_ne by done; apply H2].
  destruct (decide (i < length (threads s))%nat); [rewrite list_lookup_insert_eq by done; congruence |].
  rewrite list_insert_ge by lia. apply H2.
Qed.

Lemma home_same s s' : home_inv s -> m_rootFiber s' = m_rootFiber s -> m_rootThread s' = m_rootThread s -> threads s' = threads s -> home_inv s'.
Proof. intros [H1 H2] E1 E2 Et. by split; rewrite ?E1, ?E2, ?Et. Qed.

Lemma schedule_home s ft : home_inv s -> home_inv (schedule s ft).
Proof. intros H. unfold schedule. destruct (nonnull ft); by apply (home_same s). Qed.

Lemma start_home s ids s' : start s ids = Ok s' -> home_inv s -> home_inv s'.
Proof.
  unfold start. intros H [H1 H2]. open_ok; [by split |]. split; simpl; [done |]. intros i t [Hi | [_ Hi]]%lookup_app_Some; [by apply (H2 i) |].
  rewrite list_lookup_fmap in Hi. destruct (ids !! _); simpl in Hi; by simplify_eq.
Qed.

Lemma do_action_home conf a s s' : do_action conf a s = Some (Ok s') -> home_inv s -> home_inv s'.
Proof.
  intros H Hh. unfold do_action, thread_step, user_step in H. open_ok;
  repeat match goal with E : stop_begin _ _ = _ |- _ => apply stop_begin_eq in E; subst end; simpl in *;
    try (eapply start_home; eassumption); try (by apply schedule_home); try (by apply (home_same s)).
  all: unfold stop_end, dispatch, load_cb, leave_run, settle, enter, swap_out, idle_turn, store_state, run_begin, take_task in *;
    simpl in *; open_ok; try subst; try apply schedule_home; try (by apply (home_same s)).
  all: try (match goal with b : branch |- _ => destruct b end).
  all: try (match goal with o : option FiberAndThread |- _ => destruct o end).
  all: eapply (home_step s); [done | reflexivity | reflexivity | reflexivity |]; by repeat case_match.
Qed.

Lemma do_action_pool conf a s s' : do_action conf a s = Some (Ok s') -> pool_inv s -> pool_inv s'.
Proof.
  intros H Hp. unfold do_action, thread_step, user_step in H. open_ok;
  repeat match goal with E : stop_begin _ _ = _ |- _ => apply stop_begin_eq in E; subst end; simpl in *; try done.
  all: unfold start, stop_end, dispatch, load_cb, leave_run, settle, enter, swap_out, idle_turn, store_state, run_begin, take_task in *;
    simpl in *; open_ok; try subst; unfold pool_inv, schedule in *; simpl in *; try done.
  all: repeat match goal with
       | |- context [nonnull ?x] => destruct (nonnull x)
       | b : branch |- _ => destruct b
       | o : option FiberAndThread |- _ => destruct o
       end; done.
Qed.

(** The next step of thread [i], unless a task runs on it. *)
Lemma thread_step_own conf s i t p q :
  own_inv s -> queue_inv s -> pool_inv s -> home_inv s \/ is_ok (thread_step conf s i t p q) = true -> threads s !! i = Some t ->
  heap s !! p = None -> heap s !! q = None -> p <> q -> at_pc t <> PcExit ->
  (forall b f, at_pc t = PcIn b f -> b = BIdle) ->
  exists s', thread_step conf s i t p q = Ok s' /\ own_inv s'.
Proof.
  intros Hinv Hq Hp Hh Hi Hfp Hfq Hpq Hne Hidle. unfold thread_step in *.
  destruct (at_pc t) as [| | | | | | | b f| | | |] eqn:Hpc.
  - assert (exists b, stop_begin s (t_scheduler t) = Ok (set_flags s true true, b)) as (b & ->).
    { destruct Hh as [Hh | Hr]; [destruct (h_caller s Hh i t Hi Hpc) as [-> Hroot]; by apply stop_begin_ok |].
      destruct (stop_begin s (t_scheduler t)) as [[s1 b]|] eqn:E; [| done]. exists b. by apply stop_begin_eq in E as ->. }
    eexists. split; [reflexivity |].
    apply caller_ok; [done | done | by left | destruct b; auto | done].
  - destruct (stopping s) eqn:Es.
    + eexists. split; [reflexivity |]. replace s with (set_flags s (m_stopping s) (m_autoStop s)) at 1 by by destruct s.
      apply caller_ok; auto.
    + pose proof (lo_locals _ _ _ _ _ (o_local s Hinv i t Hi)) as Hlo. unfold locals_ok in Hlo. rewrite Hpc in Hlo.
      destruct Hlo as (_ & _ & [f Hf] & _). rewrite Hf. simpl.
      destruct (call_root_ok s i t f Hinv Hi Hpc Hf) as (w & -> & Hw). simpl. eauto.
  - by apply run_begin_ok.
  - by apply take_task_ok.
  - eexists. split; [reflexivity |]. by eapply scanned_ok.
  - by eapply dispatch_ok.
  - by apply enter_ok.
  - pose proof (Hidle b f eq_refl) as ->. by apply idle_turn_ok.
  - by apply swap_out_ok.
  - eexists. split; [reflexivity |]. by apply back_ok.
  - by apply settle_ok.
  - done.
Qed.

Lemma do_action_own conf a s r :
  own_inv s -> queue_inv s -> pool_inv s -> home_inv s \/ is_ok r = true -> disciplined a s -> do_action conf a s = Some r ->
  exists s', r = Ok s' /\ own_inv s'.
Proof.
  intros Hinv Hq Hp Hh Hd H. destruct a as [ids | here | | ft | p c | i u | i p q]; simpl in H, Hd.
  - case_bool_decide; simplify_eq. destruct Hd. apply start_ok; [done | | done].
    destruct (m_stopping s) eqn:Es; [left; by apply Hp | by right].
  - destruct (m_rootFiber s) eqn:Er; [done |]. injection H as H.
    assert (exists b, stop_begin s here = Ok (set_flags s true true, b)) as (b & E).
    { destruct Hh as [Hh | Hr]; [pose proof (h_none s Hh Er) as Hroot; apply stop_begin_ok; [done | by intros; destruct Hd] |].
      destruct (stop_begin s here) as [[s1 b]|] eqn:E; [| by subst]. exists b. by apply stop_begin_eq in E as ->. }
    rewrite E in H. simpl in H. simplify_eq.
    eexists. split; [reflexivity |].
    destruct Hinv as [Hnd Hal Hex Hlo]. split; try done. intros i t Hi. eapply local_ok_agree; [done | | by eapply Hlo]. done.
  - unfold stop_end in H. destruct (_ && _); simpl in H; [| done]. simplify_eq. eexists. split; [reflexivity |].
    destruct Hinv as [Hnd Hal Hex Hlo]. by split.
  - simplify_eq. eexists. split; [reflexivity |]. destruct Hd. by apply schedule_ok.
  - destruct (heap s !! p) eqn:E; simplify_eq. eexists. split; [reflexivity |]. by apply create_ok.
  - apply bind_Some in H as (t & Hi & H).
    assert (Hin : exists b f, at_pc t = PcIn b f /\ b <> BIdle /\ r = user_step conf s i t b f u
                  /\ (forall p c, u = UNewFiber p c -> heap s !! p = None)).
    { destruct (at_pc t) as [| | | | | | | [] f | | | |]; try done; destruct u; simplify_eq;
        try (exists BFiber, f; by split_and!); try (exists BCb, f; by split_and!);
        (destruct (heap s !! p) eqn:E; simplify_eq; (exists BFiber, f; split_and!; try done; intros; by simplify_eq)
         || (exists BCb, f; split_and!; try done; intros; by simplify_eq)). }
    destruct Hin as (b & f & Hpc & Hb & -> & Hfresh). destruct u; simpl.
    + by eapply store_state_ok.
    + destruct (in_is_exec s i t b f Hinv Hi Hpc) as (g & Hg & Hx). rewrite Hg. simpl. rewrite Hx. simpl. by eapply store_state_ok.
    + destruct (finish_ok s i t b f false Hinv Hi Hpc) as (w & -> & Hw); [done |]. simpl. eauto.
    + destruct (finish_ok s i t b f true Hinv Hi Hpc) as (w & -> & Hw); [done |]. simpl. eauto.
    + eexists. split; [reflexivity |]. by apply schedule_ok.
    + eexists. split; [reflexivity |]. apply create_ok; [done |]. by eapply Hfresh.
  - apply bind_Some in H as (t & Hi & H).
    assert (Hth : r = thread_step conf s i t p q /\ heap s !! p = None /\ heap s !! q = None /\ p <> q).
    { destruct (at_pc t) as [| | | | | | | [] | | | |]; try done; case_bool_decide; by simplify_eq. }
    destruct Hth as (-> & Hfp & Hfq & Hpq).
    apply thread_step_own; try done; destruct (at_pc t) as [| | | | | | | [] | | | |]; by intros; simplify_eq.
Qed.

End ScOwn.
