(* ===== verification/SchedulerDrain.v ===== *)
(** Draining on [stop]: as long as an unpinned task is queued, some thread will
    still look at the queue. *)

From stdpp Require Import gmap.
From S2P Require Import Prelude Fiber Scheduler SchedulerInv SchedulerOwn.

Module ScDrain.

Import Fb Sc ScInv ScOwn.
Local Open Scope Z_scope.

Definition idle_term (h : gmap fid Fiber) (t : thr) : bool :=
  match idle_fiber t ≫= (fun f => h !! f) with Some g => is_state TERM g | None => false end.

(** The thread will scan the queue again before it exits. *)
Definition will_scan (h : gmap fid Fiber) (t : thr) : bool :=
  match at_pc t with
  | PcExit => false
  | PcScanned None _ | PcDispatch None => negb (idle_term h t)
  | _ => true
  end.

Record drain_inv (s : state) : Prop := {
  d_exit : m_autoStop s = false -> forall i t, threads s !! i = Some t -> at_pc t <> PcExit;
  d_queue : forall ft, ft ∈ m_fibers s -> thread ft = -1 ->
    m_autoStop s = false \/ exists i t, threads s !! i = Some t /\ will_scan (heap s) t = true;
}.

(** Before [stop] every thread keeps scanning. *)
Lemma before_stop s i t :
  own_inv s -> drain_inv s -> m_autoStop s = false -> threads s !! i = Some t -> will_scan (heap s) t = true.
Proof.
  intros Hinv [Hx _] Ha Hi. pose proof (o_local s Hinv i t Hi) as Hl. specialize (Hx Ha i t Hi).
  assert (Hidle : started t = true -> idle_term (heap s) t = false).
  { intros Hs. destruct (lo_idle _ _ _ _ _ Hl Hs Hx) as (f & Hf & g & Hg & Ht). unfold idle_term. rewrite Hf. simpl. rewrite Hg.
    apply is_state_false. intros Hst. rewrite (Ht Hst) in Ha. done. }
  unfold will_scan, started in *. destruct (at_pc t) as [| | | | [] | [] | | | | | |]; try done; by rewrite Hidle.
Qed.

Lemma owner_unique s i j t u f :
  own_inv s -> threads s !! i = Some t -> threads s !! j = Some u -> f ∈ thr_fibers t -> f ∈ thr_fibers u -> i = j.
Proof.
  intros [Hnd _ _ _] Hi Hj Hf Hf'. destruct (decide (i = j)); [done |].
  destruct (concat_insert (threads s) i t t Hi) as (rest & Hp & _ & Hrest). unfold owned in Hnd. rewrite Hp in Hnd.
  apply NoDup_app in Hnd as (_ & _ & Hnd). apply NoDup_app in Hnd as (_ & Hnd & _).
  destruct (Hnd f Hf). by eapply (Hrest j u).
Qed.

Lemma will_scan_agree h h' t :
  (forall f, idle_fiber t = Some f -> h' !! f = h !! f) -> will_scan h' t = will_scan h t.
Proof.
  intros Hag. unfold will_scan, idle_term. destruct (idle_fiber t) as [f|]; [| done]. simpl. by rewrite Hag.
Qed.

(** Another thread's promise survives what thread [i] does to its own fibers. *)
Lemma other_will_scan s i t j u f g :
  own_inv s -> threads s !! i = Some t -> f ∈ thr_fibers t -> threads s !! j = Some u -> j <> i ->
  will_scan (<[f := g]> (heap s)) u = will_scan (heap s) u.
Proof.
  intros Hinv Hi Hf Hj Hne. apply will_scan_agree. intros f' Hf'. rewrite lookup_insert_ne; [done |].
  intros <-. apply Hne. eapply (owner_unique s j i u t f); try done. unfold thr_fibers. rewrite Hf'. set_solver.
Qed.

(** Thread [i] goes on and will scan. *)
Lemma drain_witness s s' i t t' :
  drain_inv s -> threads s !! i = Some t -> threads s' = <[i := t']> (threads s) ->
  (m_autoStop s' = false -> m_autoStop s = false) -> will_scan (heap s') t' = true -> drain_inv s'.
Proof.
  intros [Hx Hq] Hi Ht Ha Hw. split.
  - intros Hau j u Hj. rewrite Ht in Hj. destruct (decide (i = j)) as [<-|Hne].
    + rewrite list_lookup_insert_eq in Hj by (by eapply lookup_lt_Some). simplify_eq. unfold will_scan in Hw. by destruct (at_pc u).
    + rewrite list_lookup_insert_ne in Hj by done. by eapply Hx; [apply Ha |].
  - intros ft _ _. right. exists i, t'. rewrite Ht. split; [| done]. apply list_lookup_insert_eq. by eapply lookup_lt_Some.
Qed.

(** Nothing unpinned is left. *)
Lemma drain_empty s' :
  m_autoStop s' = true -> (forall ft, ft ∈ m_fibers s' -> thread ft <> -1) -> drain_inv s'.
Proof. intros Ha Hq. split; [by rewrite Ha |]. intros ft Hin Hp. by destruct (Hq ft Hin). Qed.

(** A queued task that a thread passes over is pinned to another thread. *)
Lemma passed_over s i t ft :
  own_inv s -> threads s !! i = Some t -> ft ∈ m_fibers s -> eligible (heap s) (tid t) ft = false -> thread ft <> -1.
Proof.
  intros Hinv Hi Hin Hel Hth. assert (He : executing (heap s) ft = false).
  { unfold executing. destruct (fiber ft) as [f|] eqn:Ef; [| done]. destruct (heap s !! f) as [g|] eqn:Eg; [| done].
    apply is_state_false. eapply queued_not_exec; [done | | done]. unfold queued. apply list_elem_of_omap. eauto. }
  assert (eligible (heap s) (tid t) ft = true) by (apply eligible_true; auto). congruence.
Qed.

Lemma stopping_empty s : stopping s = true -> m_fibers s = [] /\ m_autoStop s = true.
Proof. unfold stopping. intros. to_props. by case_bool_decide. Qed.

Lemma take_task_drain s i t s' :
  own_inv s -> queue_inv s -> drain_inv s -> threads s !! i = Some t -> at_pc t = PcLoop ->
  take_task s i t = Ok s' -> drain_inv s'.
Proof.
  intros Hinv Hq Hd Hi Hpc H. unfold take_task in H.
  destruct (scan_spec (heap s) (tid t) _ (q_nonnull s Hq)) as [(pre & x & post & Hqe & _ & _ & Hs) | (Hall & Hs)];
    rewrite Hs in H; simpl in H; inv_ok.
  - by eapply (drain_witness s _ i t).
  - destruct (m_autoStop s) eqn:Ea.
    + apply drain_empty; [done |]. simpl. intros ft Hin. rewrite Forall_forall in Hall. eapply passed_over; eauto.
    + eapply (drain_witness s _ i t); try done. simpl.
      change (will_scan (heap s) (set_pc t (PcScanned None (existsb (pinned_elsewhere (tid t)) (m_fibers s)))) = true).
      pose proof (o_local s Hinv i t Hi) as Hl. unfold will_scan. simpl.
      destruct (lo_idle _ _ _ _ _ Hl) as (f & Hf & g & Hg & Ht); [unfold started; by rewrite Hpc | by rewrite Hpc |].
      unfold idle_term. simpl. rewrite Hf. simpl. rewrite Hg. rewrite is_state_false; [done |]. intros Hst. rewrite Ht in Ea; done.
Qed.

(** A thread that was not going to scan anyway moves on. *)
Lemma drain_other s s' i t t' :
  own_inv s -> drain_inv s -> threads s !! i = Some t -> threads s' = <[i := t']> (threads s) ->
  m_autoStop s = true -> m_autoStop s' = true -> m_fibers s' = m_fibers s -> will_scan (heap s) t = false ->
  (heap s' = heap s \/ exists f g, f ∈ thr_fibers t /\ heap s' = <[f := g]> (heap s)) -> drain_inv s'.
Proof.
  intros Hinv [_ Hq] Hi Ht Ha Ha' Hqe Hw Hh. split; [by rewrite Ha' |].
  intros ft Hin Hp. rewrite Hqe in Hin. destruct (Hq ft Hin Hp) as [Hno | (j & u & Hj & Hu)]; [by rewrite Hno in Ha |].
  right. exists j, u. assert (Hne : j <> i) by (intros ->; congruence).
  rewrite Ht, list_lookup_insert_ne by done. split; [done |].
  destruct Hh as [-> | (f & g & Hf & ->)]; [done |]. rewrite (other_will_scan s i t j u f g); done.
Qed.

Lemma leave_run_drain s i t s' :
  own_inv s -> drain_inv s -> threads s !! i = Some t -> at_pc t = PcDispatch None -> idle_term (heap s) t = true ->
  leave_run s i t = Ok s' -> drain_inv s'.
Proof.
  intros Hinv Hd Hi Hpc Hidle H.
  assert (Hst : started t = true) by (unfold started; by rewrite Hpc).
  assert (He : entered t = None) by (unfold entered; by rewrite Hpc).
  assert (Hx : at_pc t <> PcExit) by by rewrite Hpc.
  assert (Hau : m_autoStop s = true).
  { destruct (lo_idle _ _ _ _ _ (o_local s Hinv i t Hi) Hst Hx) as (f & Hf & g & Hg & Ht). apply Ht.
    unfold idle_term in Hidle. rewrite Hf in Hidle. simpl in Hidle. rewrite Hg in Hidle. by apply bool_decide_eq_true in Hidle. }
  assert (Hw : will_scan (heap s) t = false) by (unfold will_scan; by rewrite Hpc, Hidle).
  destruct (loop_locals s i t Hinv Hi Hst He Hx) as (Hm & [r Hr] & Hf & _).
  unfold leave_run in H. destruct (tid t =? m_rootThread s).
  - rewrite Hf, Hr in H. unfold CallerMainFunc_end in H. rewrite (GetThis_running _ _ r) in H by (simpl; congruence).
    rewrite bind_Ok in H. unfold finish in H. simpl in H.
    destruct (heap s !! r) as [g|] eqn:Hg; simpl in H; [| done]. unfold back, swapcontext in H. simpl in H.
    open_ok. simplify_eq. eapply (drain_other s _ i t); try done. right.
    exists r, (with_state (with_cb g None) TERM). split; [by apply base_fibers, base_sched | done].
  - inv_ok. eapply (drain_other s _ i t); try done. by left.
Qed.

Lemma dispatch_drain conf s i t ft p s' :
  own_inv s -> drain_inv s -> threads s !! i = Some t -> at_pc t = PcDispatch ft -> heap s !! p = None ->
  dispatch s i t ft p conf = Ok s' -> drain_inv s'.
Proof.
  intros Hinv Hd Hi Hpc Hp H. unfold dispatch in H. apply bind_Ok_inv in H as (r & Hr & H).
  destruct r as [f|]; [inv_ok; by eapply (drain_witness s _ i t) |].
  destruct (cb (default FT_null ft)) eqn:Ecb.
  { unfold load_cb in H. open_ok; by eapply (drain_witness s _ i t). }
  case_bool_decide as Hs; [inv_ok; by eapply (drain_witness s _ i t) |].
  destruct ft as [ft|]; [destruct Hs; eauto |].
  apply bind_Ok_inv in H as (f & Hf & H). apply bind_Ok_inv in H as (g & Hg & H).
  destruct (is_state TERM g) eqn:Et; [| inv_ok; by eapply (drain_witness s _ i t)].
  eapply leave_run_drain; try done. unfold idle_term. destruct (idle_fiber t); simpl in *; [| done]. inv_ok.
  destruct (heap s !! f); simpl in *; by inv_ok.
Qed.

Lemma thread_step_drain conf s i t p q s' :
  own_inv s -> queue_inv s -> drain_inv s -> threads s !! i = Some t -> heap s !! p = None ->
  thread_step conf s i t p q = Ok s' -> drain_inv s'.
Proof.
  intros Hinv Hq Hd Hi Hfp H. unfold thread_step in H.
  destruct (at_pc t) as [| | | | ft tk | | | | | | |] eqn:Hpc.
  - unfold stop_begin in H. destruct (_ && (m_threadCount _ =? 0)%nat); simpl in H; open_ok; simplify_eq; try (by eapply (drain_witness s _ i t)).
    apply drain_empty; [done |]. simpl. match goal with E : stopping _ = true |- _ => apply stopping_empty in E as [Eq _] end.
    simpl in Eq. rewrite Eq. set_solver.
  - open_ok; [| by eapply (drain_witness s _ i t)].
    match goal with E : stopping _ = true |- _ => apply stopping_empty in E as [Eq Ea] end.
    apply drain_empty; [done |]. simpl. rewrite Eq. set_solver.
  - unfold run_begin in H. open_ok; by eapply (drain_witness s _ i t).
  - by eapply take_task_drain.
  - inv_ok. destruct (will_scan (heap s) t) eqn:Hw.
    + eapply (drain_witness s _ i t); try done. unfold will_scan in *. rewrite Hpc in Hw. done.
    + destruct (m_autoStop s) eqn:Ea; [| by rewrite (before_stop s i t) in Hw].
      eapply (drain_other s _ i t); try done. by left.
  - eapply dispatch_drain; [exact Hinv | exact Hd | exact Hi | exact Hpc | exact Hfp | exact H].
  - unfold enter in H. open_ok; by eapply (drain_witness s _ i t).
  - unfold idle_turn, store_state in H. open_ok; by eapply (drain_witness s _ i t).
  - unfold swap_out in H. open_ok; by eapply (drain_witness s _ i t).
  - inv_ok. destruct b; by eapply (drain_witness s _ i t).
  - unfold settle in H. open_ok; try (by eapply (drain_witness s _ i t));
      match goal with |- drain_inv (schedule ?s1 ?ft) =>
        destruct (schedule_frame s1 ft) as (Et & Eh & _ & _ & Ea & _);
        eapply (drain_witness s _ i t); [done | done | rewrite Et; reflexivity | by rewrite Ea | done]
      end.
  - by inv_ok.
Qed.

Lemma do_action_drain conf a s s' :
  own_inv s -> queue_inv s -> drain_inv s -> disciplined a s -> do_action conf a s = Some (Ok s') -> drain_inv s'.
Proof.
  intros Hinv Hq Hd Hdis H. destruct a as [ids | here | | ft | p c | i u | i p q]; simpl in H, Hdis.
  - case_bool_decide; [| done]. destruct Hdis as [Ha _]. unfold start in H. open_ok; [done |].
    destruct Hd as [Hx _]. split; simpl; [| by left].
    intros _ i t Hi. apply lookup_app_Some in Hi as [Hi | [_ Hi]]; [by eapply Hx |].
    rewrite list_lookup_fmap in Hi. destruct (ids !! _); simpl in Hi; by simplify_eq.
  - destruct (m_rootFiber s); [done |]. destruct Hdis as [Hne _]. open_ok.
    match goal with E : stop_begin _ _ = _ |- _ => apply stop_begin_eq in E; subst end. split; [done |]. simpl.
    intros ft Hin Hp. right. destruct (m_autoStop s) eqn:Ea.
    + destruct Hd as [_ Hq']. destruct (Hq' ft Hin Hp) as [? | ?]; [congruence | done].
    + destruct (threads s) as [| t l] eqn:Et; [done |]. exists 0%nat, t. split; [done |].
      apply (before_stop s 0%nat t); try done. by rewrite Et.
  - unfold stop_end in H. destruct (_ && _); simpl in H; [| done]. simplify_eq. destruct Hd as [Hx Hq']. by split.
  - destruct Hdis as [Ha _]. open_ok. destruct (schedule_frame s ft) as (Et & Eh & _ & _ & Ea & _).
    destruct Hd as [Hx _]. split; rewrite ?Et, ?Ea; [done | by left].
  - destruct (heap s !! p) eqn:Ep; [done |]. open_ok. destruct Hd as [Hx Hq']. split; [done |]. simpl.
    intros ft Hin Hth. destruct (Hq' ft Hin Hth) as [? | (i & t & Hi & Hw)]; [by left | right]. exists i, t. split; [done |].
    rewrite <- Hw. apply will_scan_agree. intros f Hf.
    destruct (own_alive s i t f Hinv Hi) as [g Hg]; [unfold thr_fibers; rewrite Hf; set_solver |].
    rewrite lookup_insert_ne; [done | congruence].
  - apply bind_Some in H as (t & Hi & H).
    assert (Hkeep : <[i := t]> (threads s) = threads s) by by apply list_insert_id.
    destruct (at_pc t) as [| | | | | | | b f | | | |] eqn:Hpc; try done.
    assert (Hw : forall h, will_scan h t = true) by (intros h; unfold will_scan; by rewrite Hpc).
    assert (Hstay : forall s1, threads s1 = threads s -> m_autoStop s1 = m_autoStop s -> drain_inv s1).
    { intros s1 Et Ea. apply (drain_witness s s1 i t t); try done; [by rewrite Hkeep | by rewrite Ea]. }
    unfold user_step, store_state in H. destruct b; try done; destruct u; open_ok;
      try (by eapply (drain_witness s _ i t)); try (by apply Hstay);
      (destruct (schedule_frame s ft) as (Et & _ & _ & _ & Ea & _); by apply Hstay).
  - apply bind_Some in H as (t & Hi & H).
    assert (Hth : thread_step conf s i t p q = Ok s' /\ heap s !! p = None /\ heap s !! q = None).
    { destruct (at_pc t) as [| | | | | | | [] | | | |]; try done; case_bool_decide as Hb; simplify_eq; by destruct_and! Hb. }
    clear H. destruct Hth as (H & Hfp & _). by eapply thread_step_drain.
Qed.

End ScDrain.
