(* ===== verification/SchedulerProps.v ===== *)
(** The properties of the scheduler. *)

From stdpp Require Import gmap.
From S2P Require Import Prelude Fiber Scheduler SchedulerInv SchedulerOwn SchedulerDrain.

Import Fb Sc ScInv ScOwn ScDrain.
Local Open Scope Z_scope.

(** ** Runs *)

(** Any interleaving of any actions. *)
Definition any_step (conf : Z) (s s' : state) : Prop := exists a, do_action conf a s = Some (Ok s').

(** An interleaving of actions that keep the discipline. *)
Definition good_step (conf : Z) (s s' : state) : Prop :=
  exists a, disciplined a s /\ do_action conf a s = Some (Ok s').

Lemma new_queue_inv n uc me here conf pm pr s : new_Scheduler n uc me here conf pm pr = Ok s -> queue_inv s.
Proof. unfold new_Scheduler. intros H. open_ok; by split. Qed.

Lemma new_count_inv n uc me here conf pm pr s : new_Scheduler n uc me here conf pm pr = Ok s -> count_inv s.
Proof. unfold new_Scheduler. intros H. open_ok; by split. Qed.

Lemma new_pool_inv n uc me here conf pm pr s : new_Scheduler n uc me here conf pm pr = Ok s -> pool_inv s.
Proof. unfold new_Scheduler, pool_inv. intros H. by open_ok. Qed.

Lemma new_drain_inv n uc me here conf pm pr s : new_Scheduler n uc me here conf pm pr = Ok s -> drain_inv s.
Proof.
  unfold new_Scheduler. intros H. open_ok; (split; [| intros; set_solver]); [| done].
  intros _ [|i] t Hi; simpl in Hi; by simplify_eq.
Qed.

Lemma new_own_inv n uc me here conf pm pr s : pm <> pr -> new_Scheduler n uc me here conf pm pr = Ok s -> own_inv s.
Proof.
  intros Hne H. unfold new_Scheduler in H. apply bind_Ok_inv in H as (? & _ & H).
  destruct uc; inv_ok; [| split; unfold owned; simpl; try done; [apply NoDup_nil_2 | set_solver]].
  unfold GetThis in H. destruct (bool_decide (here = SNull)); simpl in H; rewrite bool_decide_eq_true_2 in H by done; simpl in H; [| done]. inv_ok.
  assert (Eb : base (mkThr me PcCaller (Some pm) (Some pm) (Some pr) (Some pm) None None SThis) = [pm; pr])
    by (unfold base; simpl; by rewrite decide_False).
  split; unfold owned, thr_fibers; simpl; rewrite ?Eb; simpl.
  - apply NoDup_cons. split; [set_solver | by apply NoDup_singleton].
  - intros f Hf. rewrite !lookup_insert_is_Some'. set_solver.
  - intros f g Hg Hst. exists 0%nat. eexists. split; [reflexivity |]. right. rewrite Eb.
    destruct (decide (pr = f)) as [<-|Hnr]; [set_solver |]. rewrite lookup_insert_ne in Hg by done.
    destruct (decide (pm = f)) as [<-|Hnm]; [set_solver |]. by rewrite lookup_insert_ne in Hg.
  - intros [|i] t Hi; simpl in Hi; simplify_eq. split; try done. unfold locals_ok. simpl. split_and!; eauto. congruence.
Qed.


Definition all_inv (s : state) : Prop := own_inv s /\ queue_inv s /\ pool_inv s /\ count_inv s /\ drain_inv s.

Lemma new_all_inv n uc me here conf pm pr s : pm <> pr -> new_Scheduler n uc me here conf pm pr = Ok s -> all_inv s.
Proof.
  intros Hne H. split_and!; eauto using new_own_inv, new_queue_inv, new_pool_inv, new_count_inv, new_drain_inv.
Qed.

Lemma good_step_inv conf s s' : all_inv s -> good_step conf s s' -> all_inv s'.
Proof.
  intros (H1 & H2 & H3 & H4 & H5) (a & Hd & Ha).
  destruct (do_action_own conf a s (Ok s') H1 H2 H3 (or_intror eq_refl) Hd Ha) as (s1 & [= <-] & Hown).
  split_and!; eauto using do_action_queue_inv, do_action_pool, do_action_count_inv, do_action_drain.
Qed.

Lemma good_run_inv conf s s' : rtc (good_step conf) s s' -> all_inv s -> all_inv s'.
Proof. induction 1; eauto using good_step_inv. Qed.


Lemma any_run_inv conf s s' : rtc (any_step conf) s s' -> queue_inv s /\ count_inv s -> queue_inv s' /\ count_inv s'.
Proof.
  induction 1 as [| s1 s2 s3 [a Ha] _ IH]; [done |]. intros [H1 H2]. apply IH.
  eauto using do_action_queue_inv, do_action_count_inv.
Qed.


(** ** Executable runs *)

Definition schedulableb (s : state) (ft : FiberAndThread) : bool :=
  match fiber ft with
  | Some f => bool_decide (f ∉ owned s) && bool_decide (is_Some (heap s !! f))
  | None => true
  end.

Definition disciplinedb (a : action) (s : state) : bool :=
  match a with
  | AStart ids => negb (m_autoStop s) && forallb (fun id => negb (id =? m_rootThread s)) ids
  | AStop here => negb (bool_decide (length (threads s) = 0%nat)) && negb (bool_decide (here = SThis))
  | ASchedule ft => negb (m_autoStop s) && schedulableb s ft
  | AUser _ (USchedule ft) => schedulableb s ft
  | _ => true
  end.

Fixpoint run_good (conf : Z) (l : list action) (s : state) : option state :=
  match l with
  | [] => Some s
  | a :: l => if disciplinedb a s then
                match do_action conf a s with Some (Ok s') => run_good conf l s' | _ => None end
              else None
  end.

Lemma schedulableb_ok s ft : schedulableb s ft = true -> schedulable s ft.
Proof.
  unfold schedulableb, schedulable. intros H f Hf. rewrite Hf in H. apply andb_prop in H as [H1 H2].
  apply bool_decide_eq_true in H1, H2. done.
Qed.

Lemma disciplinedb_ok a s : disciplinedb a s = true -> disciplined a s.
Proof.
  destruct a as [ids | here | | ft | p c | i u | i p q]; simpl; try done.
  - intros [Ha Hf]%andb_prop. split; [by destruct (m_autoStop s) |].
    apply Forall_forall. intros id Hid. rewrite forallb_forall in Hf. apply list_elem_of_In in Hid.
    specialize (Hf id Hid). to_props. done.
  - intros [H H']%andb_prop. split; [intros Hn; by rewrite Hn in H |]. intros ->. done.
  - intros [Ha Hf]%andb_prop. split; [by destruct (m_autoStop s) |]. by apply schedulableb_ok.
  - destruct u; try done. apply schedulableb_ok.
Qed.

Lemma run_good_rtc conf l s s' : run_good conf l s = Some s' -> rtc (good_step conf) s s'.
Proof.
  revert s. induction l as [| a l IH]; simpl; intros s H; [by simplify_eq |].
  destruct (disciplinedb a s) eqn:Hd; [| done]. destruct (do_action conf a s) as [[s1|]|] eqn:Ha; try done.
  eapply rtc_l; [| by apply IH]. exists a. split; [by apply disciplinedb_ok | done].
Qed.

Lemma good_any conf s s' : rtc (good_step conf) s s' -> rtc (any_step conf) s s'.
Proof. induction 1 as [| s1 s2 s3 (a & _ & Ha) _ IH]; [done |]. eapply rtc_l; [by exists a | done]. Qed.

(** *** A run of two pool threads, a fiber and a callback, to the end *)

Definition steps (i : nat) (fresh : list nat) : list action := (fun k => AThread i (2 * k) (2 * k + 1)) <$> fresh.

Definition demo_start : state :=
  match new_Scheduler 2 false 7 SNull 131072 1 2 with Ok s => s | Fail _ => mkState [] 0 0 true false (-1) None 0 [] [] ∅ 0 0 [] [] [] end.

(** Start, queue a fiber for thread 12 and a callback for anyone; thread 12 runs
    the fiber up to its yield while thread 11 takes the callback. *)
Definition demo_middle : list action :=
  [AStart [11; 12]; ANewFiber 50 9; ASchedule (mkFT (Some 50%nat) None 12); ASchedule (mkFT None (Some 4%nat) (-1))]
  ++ steps 0 [100%nat] ++ steps 1 [110%nat] ++ steps 1 [112; 114; 116; 118]%nat ++ steps 0 [120; 122; 124; 126]%nat.

(** A fiber that yields back and forth between two threads while both see the
    scheduler idle, and then leaves a task for a thread that has gone. *)
Definition demo_end : list action :=
  [AStart [11; 12]; ANewFiber 50 9; ASchedule (mkFT (Some 50%nat) None (-1))]
  ++ steps 1 [100; 102; 104; 106; 108]%nat ++ [AStop SOther; AUser 1 UYieldReady] ++ steps 1 [110; 112]%nat
  ++ steps 0 (seq 200 9) ++ steps 1 [114]%nat
  ++ steps 0 (seq 220 4) ++ [AUser 0 UYieldReady] ++ steps 0 [230; 232]%nat
  ++ steps 1 (seq 240 8) ++ steps 0 (seq 250 5) ++ steps 1 (seq 260 3)
  ++ [AUser 0 (USchedule (mkFT None (Some 3%nat) 12)); AUser 0 UReturn] ++ steps 0 (seq 270 6).

Definition demo_run (l : list action) : state := default demo_start (run_good 131072 l demo_start).

Lemma demo_new : new_Scheduler 2 false 7 SNull 131072 1 2 = Ok demo_start.
Proof. reflexivity. Qed.

Lemma demo_middle_run : rtc (good_step 131072) demo_start (demo_run demo_middle).
Proof. apply (run_good_rtc 131072 demo_middle). vm_compute. reflexivity. Qed.

Lemma demo_end_run : rtc (good_step 131072) demo_start (demo_run demo_end).
Proof. apply (run_good_rtc 131072 demo_end). vm_compute. reflexivity. Qed.

#[local] Opaque demo_run.

(** ** Claims *)



(** C7: no task is lost or run twice: at any point of any interleaving, what was
    put into the queue is exactly what threads have taken out of it together
    with what is still in it, and a thread only ever takes a task pinned to it
    or to nobody. *)
Theorem tasks_conserved n uc me here conf pm pr s0 s :
  new_Scheduler n uc me here conf pm pr = Ok s0 -> rtc (any_step conf) s0 s ->
  given s ≡ₚ (taken s).*2 ++ m_fibers s
  /\ Forall (fun e : Z * FiberAndThread => thread e.2 = -1 \/ thread e.2 = e.1) (taken s).
Proof.
  intros Hnew Hrun.
  destruct (any_run_inv conf s0 s Hrun) as [[_ H2 H3] _]; [split; eauto using new_queue_inv, new_count_inv | done].
Qed.

Lemma tasks_conserved_witness :
  length (given (demo_run demo_middle)) = 2%nat
  /\ given (demo_run demo_middle) ≡ₚ (taken (demo_run demo_middle)).*2 ++ m_fibers (demo_run demo_middle).
Proof.
  split; [vm_compute; reflexivity |].
  exact (proj1 (tasks_conserved 2 false 7 SNull 131072 1 2 demo_start _ demo_new (good_any _ _ _ demo_middle_run))).
Defined.

(** [stopping()] is sound: when it returns true in any interleaving, the
    queue is empty and no thread is anywhere between taking a task out of the
    queue and being done with it, because the active counter is exactly the
    number of such threads. *)
Theorem stopping_sound n uc me here conf pm pr s0 s :
  new_Scheduler n uc me here conf pm pr = Ok s0 -> rtc (any_step conf) s0 s ->
  (Z.of_nat (length (threads s)) < 2 ^ 64) ->
  m_activeThreadCount s = count is_active (threads s) /\ m_idleThreadCount s = count is_idle (threads s)
  /\ (stopping s = true -> m_fibers s = [] /\ forall i t, threads s !! i = Some t -> is_active t = false).
Proof.
  intros Hnew Hrun Hlen.
  destruct (any_run_inv conf s0 s Hrun) as [_ [Ha Hi]]; [split; eauto using new_queue_inv, new_count_inv |].
  assert (Hb : forall P, u64 (count P (threads s)) = count P (threads s)).
  { intros P. apply wrap_small. unfold in_unsigned, count. pose proof (length_filter (fun t => P t = true) (threads s)). lia. }
  rewrite Hb in Ha, Hi. split_and!; [done | done |]. intros Hs. destruct (stopping_empty s Hs) as [Hq _]. split; [done |].
  unfold stopping in Hs. to_props. intros i t Ht. destruct (is_active t) eqn:E; [| done].
  assert (Hc : count is_active (threads s) = 0) by congruence. unfold count in Hc.
  assert (Hin : t ∈ filter (fun t => is_active t = true) (threads s))
    by (apply list_elem_of_filter; split; [done | by eapply list_elem_of_lookup_2]).
  destruct (filter _ _); [set_solver | simpl in Hc; lia].
Qed.

(** C35: stopping drains the queue: when every thread has left [run()] after a
    disciplined run, no task is left behind except one pinned to a particular
    thread. *)
Theorem stop_drains_queue n uc me here conf pm pr s0 s ft :
  pm <> pr -> new_Scheduler n uc me here conf pm pr = Ok s0 -> rtc (good_step conf) s0 s ->
  m_autoStop s = true -> (forall i t, threads s !! i = Some t -> at_pc t = PcExit) ->
  ft ∈ m_fibers s -> thread ft <> -1.
Proof.
  intros Hne Hnew Hrun Ha Hexit Hin Hth.
  destruct (good_run_inv conf s0 s Hrun (new_all_inv _ _ _ _ _ _ _ _ Hne Hnew)) as (_ & _ & _ & _ & [_ Hd]).
  destruct (Hd ft Hin Hth) as [Hno | (i & t & Hi & Hw)]; [by rewrite Hno in Ha |].
  unfold will_scan in Hw. by rewrite (Hexit i t Hi) in Hw.
Qed.

Lemma stop_drains_queue_witness :
  m_fibers (demo_run demo_end) = [mkFT None (Some 3%nat) 12] /\ 12 <> -1.
Proof.
  split; [vm_compute; reflexivity |].
  apply (stop_drains_queue 2 false 7 SNull 131072 1 2 demo_start (demo_run demo_end) (mkFT None (Some 3%nat) 12));
    [lia | exact demo_new | exact demo_end_run | vm_compute; reflexivity | |].
  - intros i t Hi. assert (Hall : forallb (fun t => match at_pc t with PcExit => true | _ => false end) (threads (demo_run demo_end)) = true)
      by (vm_compute; reflexivity).
    rewrite forallb_forall in Hall. apply list_elem_of_lookup_2, list_elem_of_In, Hall in Hi. by destruct (at_pc t).
  - assert (E : m_fibers (demo_run demo_end) = [mkFT None (Some 3%nat) 12]) by (vm_compute; reflexivity).
    rewrite E. by apply list_elem_of_singleton.
Defined.

(** The scan takes the first task of the queue that is free for this thread
    - unpinned or pinned to it, its fiber not executing - and leaves the others
    in their order; it asks for another thread to be woken exactly when it
    passed over a task pinned elsewhere or left tasks behind the one it took; it
    takes nothing only when no task is free. *)
Theorem scan_first_free h self q :
  Forall (fun ft => nonnull ft = true) q ->
  match scan h self q with
  | Ok (Some x, q', tickle_me) => exists pre post, q = pre ++ x :: post /\ q' = pre ++ post
      /\ Forall (fun ft => eligible h self ft = false) pre /\ eligible h self x = true
      /\ (tickle_me = true <-> post <> [] \/ exists y, y ∈ pre /\ pinned_elsewhere self y = true)
  | Ok (None, q', tickle_me) => q' = q /\ Forall (fun ft => eligible h self ft = false) q
      /\ (tickle_me = true <-> exists y, y ∈ q /\ pinned_elsewhere self y = true)
  | Fail _ => False
  end.
Proof.
  assert (Hex : forall l, existsb (pinned_elsewhere self) l = true <-> exists y, y ∈ l /\ pinned_elsewhere self y = true).
  { intros l. rewrite existsb_exists. by setoid_rewrite list_elem_of_In. }
  intros Hq. destruct (scan_spec h self q Hq) as [(pre & x & post & -> & Hpre & Hx & ->) | (Hall & ->)].
  - exists pre, post. split_and!; try done. rewrite orb_true_iff, negb_true_iff, bool_decide_eq_false, Hex. tauto.
  - by split_and!.
Qed.

(** ** What the discipline excludes *)

(** A fiber yields to wait for an event and the event's handler schedules it
    before the switch away from it is complete. *)
Definition early_wakeup : list action :=
  [AStart [11; 12]; ANewFiber 50 9; ASchedule (mkFT (Some 50%nat) None (-1))]
  ++ steps 0 [100; 102; 104; 106; 108]%nat ++ [AUser 0 UYieldHold; ASchedule (mkFT (Some 50%nat) None (-1))]
  ++ steps 1 [110; 112; 114; 116; 118]%nat.

(** [YieldToHold] stores HOLD before [SwapOut], so another thread that finds the
    fiber in the queue switches to it while it is still on its first stack: both
    threads then execute the same context. *)
Theorem early_hold_runs_twice :
  match run_actions 131072 early_wakeup demo_start with
  | Some (Ok s) => l_cpu <$> threads s = [Some 50%nat; Some 50%nat]
  | _ => False
  end.
Proof. vm_compute. reflexivity. Qed.

(** [stop()] can return with a task left in the queue: one pinned to a thread
    that saw the scheduler idle and left. *)
Theorem stop_strands_pinned_task :
  forallb (fun t => match at_pc t with PcExit => true | _ => false end) (threads (demo_run demo_end)) = true
  /\ m_threadIds (demo_run demo_end) = [11; 12]
  /\ m_fibers (demo_run demo_end) = [mkFT None (Some 3%nat) 12].
Proof. vm_compute. done. Qed.
