(* ===== verification/IOManager.v ===== *)
(** The IO manager of sylar/iomanager.h and iomanager.cc: a scheduler and a
    timer manager with an epoll interest list and one context per file
    descriptor. *)

From stdpp Require Import gmap.
From S2P Require Import Prelude Fiber Scheduler Timer.

Module Io.

Local Open Scope Z_scope.

(** ** Data *)

Definition NONE := 0.
Definition READ := 1.
Definition WRITE := 4.

Definition EPOLLIN := 1.
Definition EPOLLOUT := 4.
Definition EPOLLERR := 8.
Definition EPOLLHUP := 16.
Definition EPOLLET := 2 ^ 31.

Record EventContext := mkEC {
  scheduler : option nat;    (* which scheduler, 0 is this IO manager *)
  fiber : option nat;
  cb : option nat;
}.

Definition null_EC := mkEC None None None.

#[global] Instance EC_eq_dec : EqDecision EventContext.
Proof. solve_decision. Defined.

Record FdContext := mkFd {
  fd : Z;
  write : EventContext;
  read : EventContext;
  events : Z;
}.

Inductive epoll_op := EPOLL_CTL_ADD | EPOLL_CTL_MOD | EPOLL_CTL_DEL.

Record IOManager := mkIo {
  base : Sc.state;                        (* the Scheduler base class *)
  timers : Tm.TimerManager;               (* the TimerManager base class *)
  ctxs : list FdContext;                  (* the allocated contexts; a pointer is an index *)
  m_fdContexts : list (option nat);       (* the container, pointers that may be null *)
  m_pendingEventCount : Z;
  interest : gmap Z (Z * nat);            (* epoll: events and data.ptr of each descriptor *)
  pipe : nat;                             (* bytes waiting in the tickle pipe *)
  others : gmap nat (list Sc.FiberAndThread); (* what was scheduled on other schedulers *)
}.

Definition set_base (s : IOManager) b := mkIo b (timers s) (ctxs s) (m_fdContexts s) (m_pendingEventCount s) (interest s) (pipe s) (others s).
Definition set_timers (s : IOManager) t := mkIo (base s) t (ctxs s) (m_fdContexts s) (m_pendingEventCount s) (interest s) (pipe s) (others s).
Definition set_ctxs (s : IOManager) c := mkIo (base s) (timers s) c (m_fdContexts s) (m_pendingEventCount s) (interest s) (pipe s) (others s).
Definition set_table (s : IOManager) c l := mkIo (base s) (timers s) c l (m_pendingEventCount s) (interest s) (pipe s) (others s).
Definition set_pending (s : IOManager) n := mkIo (base s) (timers s) (ctxs s) (m_fdContexts s) n (interest s) (pipe s) (others s).
Definition set_interest (s : IOManager) e := mkIo (base s) (timers s) (ctxs s) (m_fdContexts s) (m_pendingEventCount s) e (pipe s) (others s).
Definition set_pipe (s : IOManager) p := mkIo (base s) (timers s) (ctxs s) (m_fdContexts s) (m_pendingEventCount s) (interest s) p (others s).
Definition set_others (s : IOManager) o := mkIo (base s) (timers s) (ctxs s) (m_fdContexts s) (m_pendingEventCount s) (interest s) (pipe s) o.

Definition with_events (c : FdContext) e := mkFd (fd c) (write c) (read c) e.

(** ** The kernel's interest list *)

(** [epoll_ctl]: adding what is there, or changing what is not, is refused; the
    kernel may also refuse for its own reasons ([refuse]). *)
Definition epoll_ctl (refuse : bool) (s : IOManager) (op : epoll_op) (f ev : Z) (ptr : nat) : option IOManager :=
  if refuse then None else
  match op, interest s !! f with
  | EPOLL_CTL_ADD, None | EPOLL_CTL_MOD, Some _ => Some (set_interest s (<[f := (ev, ptr)]> (interest s)))
  | EPOLL_CTL_DEL, Some _ => Some (set_interest s (delete f (interest s)))
  | _, _ => None
  end.

(** ** Waking up *)

Definition hasIdleThreads (s : IOManager) : bool := 0 <? Sc.m_idleThreadCount (base s).

(** [IOManager::tickle]. Its assertion that [write] returns 1 is not part of the
    state: the writing end of the pipe blocks, so that one byte is written unless
    the call fails, and that it does not fail is assumed here. *)
Definition tickle (s : IOManager) : IOManager :=
  if negb (hasIdleThreads s) then s else set_pipe s (S (pipe s)).

Definition onTimerInsertedAtFront (s : IOManager) : IOManager := tickle s.

(** [Scheduler::schedule] on scheduler [k], with this manager's [tickle]. *)
Definition schedule_on (s : IOManager) (k : nat) (ft : Sc.FiberAndThread) : IOManager :=
  match k with
  | O =>
      let need := (Sc.scheduleNoLock (Sc.m_fibers (base s)) ft).2 in
      let s := set_base s (Sc.schedule (base s) ft) in
      if need then tickle s else s
  | S _ =>
      let q := default [] (others s !! k) in
      set_others s (<[k := (Sc.scheduleNoLock q ft).1]> (others s))
  end.

(** ** Contexts *)

Definition getContext (c : FdContext) (event : Z) : outcome EventContext :=
  if event =? READ then Ok (read c) else if event =? WRITE then Ok (write c) else Fail AssertFail.

(** Store through the reference [getContext] returned. *)
Definition setContext (c : FdContext) (event : Z) (e : EventContext) : FdContext :=
  if event =? READ then mkFd (fd c) (write c) e (events c) else mkFd (fd c) e (read c) (events c).

Definition resetContext (e : EventContext) : EventContext := null_EC.

Definition has (m event : Z) : bool := negb (Z.land m event =? 0).

(** [FdContext::triggerEvent] *)
Definition triggerEvent (s : IOManager) (p : nat) (event : Z) : outcome IOManager :=
  c ← of_ptr (ctxs s !! p);
  _ ← sylar_assert (has (events c) event);
  let c := with_events c (Z.land (events c) (Z.lnot event)) in
  ctx ← getContext c event;
  k ← of_ptr (scheduler ctx);
  let '(ft, ctx) := if bool_decide (is_Some (cb ctx))
                    then (Sc.FT_of_cb (cb ctx) (-1), mkEC (scheduler ctx) (fiber ctx) None)
                    else (Sc.FT_of_fiber (fiber ctx) (-1), mkEC (scheduler ctx) None (cb ctx)) in
  let s := schedule_on s k ft in
  Ok (set_ctxs s (<[p := setContext c event (mkEC None (fiber ctx) (cb ctx))]> (ctxs s))).

(** The loop of [contextResize]: a context for every null entry. *)
Fixpoint fill (l : list (option nat)) (i : nat) (cs : list FdContext) : list (option nat) * list FdContext :=
  match l with
  | [] => ([], cs)
  | Some p :: l => let '(l', cs) := fill l (S i) cs in (Some p :: l', cs)
  | None :: l =>
      let p := length cs in
      let '(l', cs) := fill l (S i) (cs ++ [mkFd (Z.of_nat i) null_EC null_EC NONE]) in (Some p :: l', cs)
  end.

Definition contextResize (s : IOManager) (size : nat) : IOManager :=
  let '(l, cs) := fill (resize size None (m_fdContexts s)) 0 (ctxs s) in set_table s cs l.

(** The size [fd * 1.5] converted from double. *)
Definition grow (f : Z) : nat := Z.to_nat (f * 3 / 2).

(** The constructor: a fresh epoll, the contexts, and [start]; the tickle pipe
    is in the interest list of its own accord. *)
Definition new_IOManager (b : Sc.state) (ids : list Z) (now : Z) : outcome IOManager :=
  let s := mkIo b (Tm.new_TimerManager now) [] [] 0 ∅ 0 ∅ in
  let s := contextResize s 32 in
  b ← Sc.start (base s) ids;
  Ok (set_base s b).

(** ** Adding and removing events *)

(** The look-up under the read lock: [None] when the table is too short. *)
Definition find_context (s : IOManager) (f : Z) : outcome (option nat) :=
  if f <? Z.of_nat (length (m_fdContexts s)) then
    (if f <? 0 then Fail OutOfRange else
     p ← of_ptr (mjoin (m_fdContexts s !! Z.to_nat f)); Ok (Some p))
  else Ok None.

(** Growing under the write lock, and the element read after it. *)
Definition grow_context (s : IOManager) (f : Z) : outcome (nat * IOManager) :=
  let s := contextResize s (grow f) in
  match m_fdContexts s !! Z.to_nat f with
  | Some o => p ← of_ptr o; Ok (p, s)
  | None => Fail OutOfRange
  end.

(** The calling thread: its scheduler, its fiber and that fiber's state. *)
Record caller := mkCaller { this_scheduler : option nat; this_fiber : nat; this_exec : bool }.

(** [addEvent] with the context's lock held. *)
Definition addEvent_locked (refuse : bool) (who : caller) (s : IOManager) (p : nat) (f event : Z) (c : option nat) :
    outcome (Z * IOManager) :=
  x ← of_ptr (ctxs s !! p);
  _ ← sylar_assert (negb (has (events x) event));
  let op := if events x =? 0 then EPOLL_CTL_ADD else EPOLL_CTL_MOD in
  match epoll_ctl refuse s op f (Z.lor EPOLLET (Z.lor (events x) event)) p with
  | None => Ok (-1, s)
  | Some s =>
      let s := set_pending s (u64 (m_pendingEventCount s + 1)) in
      let x := with_events x (Z.lor (events x) event) in
      ctx ← getContext x event;
      _ ← sylar_assert (bool_decide (ctx = null_EC));
      ctx ← (match c with
             | Some k => Ok (mkEC (this_scheduler who) None (Some k))
             | None => _ ← sylar_assert (this_exec who); Ok (mkEC (this_scheduler who) (Some (this_fiber who)) None)
             end);
      Ok (0, set_ctxs s (<[p := setContext x event ctx]> (ctxs s)))
  end.

Definition addEvent (refuse : bool) (who : caller) (s : IOManager) (f event : Z) (c : option nat) : outcome (Z * IOManager) :=
  o ← find_context s f;
  '(p, s) ← (match o with Some p => Ok (p, s) | None => grow_context s f end);
  addEvent_locked refuse who s p f event c.

(** What [delEvent], [cancelEvent] and [cancelAll] share: look the context up. *)
Definition with_context (s : IOManager) (f : Z) (k : nat -> FdContext -> outcome (bool * IOManager)) : outcome (bool * IOManager) :=
  o ← find_context s f;
  match o with
  | None => Ok (false, s)
  | Some p => c ← of_ptr (ctxs s !! p); k p c
  end.

(** The new interest after dropping [event]. *)
Definition epoll_drop (refuse : bool) (s : IOManager) (f : Z) (p : nat) (new_events : Z) : option IOManager :=
  epoll_ctl refuse s (if new_events =? 0 then EPOLL_CTL_DEL else EPOLL_CTL_MOD) f (Z.lor EPOLLET new_events) p.

Definition delEvent (refuse : bool) (s : IOManager) (f event : Z) : outcome (bool * IOManager) :=
  with_context s f (fun p c =>
    if negb (has (events c) event) then Ok (false, s) else
    let new_events := Z.land (events c) (Z.lnot event) in
    match epoll_drop refuse s f p new_events with
    | None => Ok (false, s)
    | Some s =>
        let s := set_pending s (u64 (m_pendingEventCount s - 1)) in
        let c := with_events c new_events in
        ctx ← getContext c event;
        Ok (true, set_ctxs s (<[p := setContext c event (resetContext ctx)]> (ctxs s)))
    end).

Definition cancelEvent (refuse : bool) (s : IOManager) (f event : Z) : outcome (bool * IOManager) :=
  with_context s f (fun p c =>
    if negb (has (events c) event) then Ok (false, s) else
    match epoll_drop refuse s f p (Z.land (events c) (Z.lnot event)) with
    | None => Ok (false, s)
    | Some s =>
        s ← triggerEvent s p event;
        Ok (true, set_pending s (u64 (m_pendingEventCount s - 1)))
    end).

(** Trigger [event] if the mask [m] has it. *)
Definition trigger_if (m event : Z) (p : nat) (s : IOManager) : outcome IOManager :=
  if has m event then
    s ← triggerEvent s p event; Ok (set_pending s (u64 (m_pendingEventCount s - 1)))
  else Ok s.

Definition cancelAll (refuse : bool) (s : IOManager) (f : Z) : outcome (bool * IOManager) :=
  with_context s f (fun p c =>
    if events c =? 0 then Ok (false, s) else
    match epoll_ctl refuse s EPOLL_CTL_DEL f 0 p with
    | None => Ok (false, s)
    | Some s =>
        s ← trigger_if (events c) READ p s;
        c ← of_ptr (ctxs s !! p);
        s ← trigger_if (events c) WRITE p s;
        c ← of_ptr (ctxs s !! p);
        _ ← sylar_assert (events c =? 0);
        Ok (true, s)
    end).

(** ** The idle loop *)

(** [stopping(timeout)] *)
Definition stopping_timeout (s : IOManager) (now : Z) : bool * Z * IOManager :=
  let '(timeout, t) := Tm.getNextTimer (timers s) now in
  ((timeout =? UINT64_MAX) && (m_pendingEventCount s =? 0) && Sc.stopping (base s), timeout, set_timers s t).

Definition stopping (s : IOManager) : bool :=
  Sc.stopping (base s) && negb (Tm.hasTimer (timers s)) && (m_pendingEventCount s =? 0).

Definition MAX_TIMEOUT := 3000.

(** The last argument of [epoll_wait], from the time to the next timer. *)
Definition wait_timeout (next_timeout : Z) : Z :=
  let next := if next_timeout =? UINT64_MAX then MAX_TIMEOUT
              else if MAX_TIMEOUT <? i32 next_timeout then MAX_TIMEOUT else next_timeout in
  i32 next.

(** One element of the events [epoll_wait] returned: the tickle pipe, or a
    context with the reported mask. *)
Inductive ready := ReadyPipe | ReadyFd (p : nat) (mask : Z).

Definition real_events (mask : Z) : Z :=
  Z.lor (if has mask EPOLLIN then READ else NONE) (if has mask EPOLLOUT then WRITE else NONE).

Definition handle_ready (refuse : bool) (s : IOManager) (r : ready) : outcome IOManager :=
  match r with
  | ReadyPipe => Ok (set_pipe s 0)
  | ReadyFd p mask =>
      c ← of_ptr (ctxs s !! p);
      let mask := if has mask (Z.lor EPOLLERR EPOLLHUP)
                  then Z.lor mask (Z.land (Z.lor EPOLLIN EPOLLOUT) (events c)) else mask in
      let real := real_events mask in
      if Z.land (events c) real =? NONE then Ok s else
      match epoll_drop refuse s (fd c) p (Z.land (events c) (Z.lnot real)) with
      | None => Ok s
      | Some s => s ← trigger_if real READ p s; trigger_if real WRITE p s
      end
  end.

Fixpoint handle_all (refuse : bool) (s : IOManager) (l : list ready) : outcome IOManager :=
  match l with
  | [] => Ok s
  | r :: l => s ← handle_ready refuse s r; handle_all refuse s l
  end.

(** The callbacks of expired timers as range elements of [schedule]; [fn] gives
    the function each stands for. *)
Definition expired_tasks (fn : Tm.callback -> nat) (cbs : list (option Tm.callback)) : list Sc.source :=
  (fun o => Sc.SCb (fn <$> o)) <$> cbs.

Definition schedule_tasks (s : IOManager) (l : list Sc.source) : IOManager :=
  let '(_, _, need) := Sc.schedule_range (Sc.m_fibers (base s)) l false in
  let s := set_base s (foldl (fun b p => Sc.schedule b (Sc.FT_of_ptr p (-1)).1) (base s) l) in
  if need then tickle s else s.

(** One turn of [idle()]: [None] when it ends the loop, otherwise the timeout
    that was waited with and the state before the idle fiber swaps out.
    [before] and [after] are the clock at its two reads, [l] what [epoll_wait]
    returned, [q] the address of the temporary timer. *)
Definition idle_turn (refuse : bool) (fn : Tm.callback -> nat) (s : IOManager) (before after : Z) (q : nat) (l : list ready) :
    outcome (option Z * IOManager) :=
  let '(stop, next_timeout, s) := stopping_timeout s before in
  if stop then Ok (None, s) else
  '(cbs, t) ← Tm.listExpiredCb (timers s) after q;
  let s := set_timers s t in
  let s := if bool_decide (cbs = []) then s else schedule_tasks s (expired_tasks fn cbs) in
  s ← handle_all refuse s l;
  Ok (Some (wait_timeout next_timeout), s).

End Io.
