(* ===== verification/IOManagerInv.v ===== *)
(** The invariant of the IO manager: contexts, pending count and the kernel's
    interest list agree. *)

From stdpp Require Import gmap.
From S2P Require Import Prelude Fiber Scheduler Timer IOManager.

Module IoInv.

Import Io.
Local Open Scope Z_scope.
#[local] Arguments epoll_ctl : simpl never.

(** ** Masks *)

Definition mask_ok (m : Z) : Prop := m = 0 \/ m = 1 \/ m = 4 \/ m = 5.
Definition event_ok (e : Z) : Prop := e = READ \/ e = WRITE.

(** Case analysis over the four masks and two events. *)
Ltac masks :=
  repeat match goal with
  | H : event_ok _ |- _ => destruct H as [-> | ->]
  | H : mask_ok ?m |- _ =>
      let E := fresh "Em" in destruct H as [E | [E | [E | E]]]; try (is_var m; subst m); try rewrite E in *
  end.

Definition bits (c : FdContext) : Z := Z.b2z (has (events c) READ) + Z.b2z (has (events c) WRITE).

Definition slot (c : FdContext) (event : Z) : EventContext := if event =? READ then read c else write c.

(** A registered slot has a scheduler and exactly one of fiber and callback; any
    other slot is empty. *)
Definition slot_ok (b : bool) (e : EventContext) : Prop :=
  if b then is_Some (scheduler e) /\ (is_Some (cb e) /\ fiber e = None \/ cb e = None /\ is_Some (fiber e))
  else e = null_EC.

Definition ctx_ok (c : FdContext) : Prop :=
  mask_ok (events c) /\ slot_ok (has (events c) READ) (read c) /\ slot_ok (has (events c) WRITE) (write c).

Definition registered (c : FdContext) (p : nat) : option (Z * nat) :=
  if events c =? 0 then None else Some (Z.lor EPOLLET (events c), p).

Record io_inv (s : IOManager) : Prop := {
  i_ctx : forall p c, ctxs s !! p = Some c -> ctx_ok c;
  i_size : (32 <= length (m_fdContexts s))%nat;
  i_table : forall i o, m_fdContexts s !! i = Some o -> exists p c, o = Some p /\ ctxs s !! p = Some c /\ fd c = Z.of_nat i;
  i_all : forall p c, ctxs s !! p = Some c -> 0 <= fd c /\ m_fdContexts s !! Z.to_nat (fd c) = Some (Some p);
  i_pending : m_pendingEventCount s = u64 (foldr (fun c n => bits c + n) 0 (ctxs s));
  i_epoll : forall p c, ctxs s !! p = Some c -> interest s !! fd c = registered c p;
  i_known : forall f e, interest s !! f = Some e -> exists p c, ctxs s !! p = Some c /\ fd c = f;
}.

(** ** One context changes *)

Lemma bits_insert (l : list FdContext) p c c' :
  l !! p = Some c -> foldr (fun c n => bits c + n) 0 (<[p := c']> l) = foldr (fun c n => bits c + n) 0 l - bits c + bits c'.
Proof.
  revert p. induction l as [| x l IH]; intros [|p] H; simpl in *; try done.
  - simplify_eq. lia.
  - rewrite (IH p H). lia.
Qed.

Lemma fd_unique s p q c d : io_inv s -> ctxs s !! p = Some c -> ctxs s !! q = Some d -> fd c = fd d -> p = q.
Proof.
  intros H Hp Hq E. destruct (i_all s H p c Hp) as [_ H1]. destruct (i_all s H q d Hq) as [_ H2]. rewrite E in H1. congruence.
Qed.

Lemma io_inv_update s s' p c c' :
  io_inv s -> ctxs s !! p = Some c -> ctxs s' = <[p := c']> (ctxs s) -> fd c' = fd c -> ctx_ok c' ->
  m_fdContexts s' = m_fdContexts s -> m_pendingEventCount s' = u64 (m_pendingEventCount s - bits c + bits c') ->
  interest s' !! fd c = registered c' p -> (forall f, f <> fd c -> interest s' !! f = interest s !! f) ->
  io_inv s'.
Proof.
  intros H Hp Hc Hfd Hok Ht Hn He Hne. assert (Hlt : (p < length (ctxs s))%nat) by by eapply lookup_lt_Some.
  assert (Hlook : forall q d, ctxs s' !! q = Some d -> (q = p /\ d = c') \/ (q <> p /\ ctxs s !! q = Some d)).
  { intros q d Hq. rewrite Hc in Hq. destruct (decide (p = q)) as [<-|Hd].
    - rewrite list_lookup_insert_eq in Hq by done. simplify_eq. by left.
    - rewrite list_lookup_insert_ne in Hq by done. by right. }
  assert (Hback : forall q d, ctxs s !! q = Some d -> exists d', ctxs s' !! q = Some d' /\ fd d' = fd d).
  { intros q d Hq. rewrite Hc. destruct (decide (p = q)) as [<-|Hd].
    - rewrite list_lookup_insert_eq by done. exists c'. split; [done | congruence].
    - rewrite list_lookup_insert_ne by done. eauto. }
  split.
  - intros q d Hq. destruct (Hlook q d Hq) as [[-> ->] | [_ Hq']]; [done | by eapply (i_ctx s H)].
  - rewrite Ht. apply (i_size s H).
  - intros i o Hi. rewrite Ht in Hi. destruct (i_table s H i o Hi) as (q & d & -> & Hq & Hd).
    destruct (Hback q d Hq) as (d' & Hd' & E). exists q, d'. split_and!; congruence.
  - intros q d Hq. rewrite Ht. destruct (Hlook q d Hq) as [[-> ->] | [_ Hq']]; [rewrite Hfd |]; by eapply (i_all s H).
  - rewrite Hn, (i_pending s H), Hc, (bits_insert _ p c) by done.
    rewrite <- !Z.sub_sub_distr. apply u64_sub_l.
  - intros q d Hq. destruct (Hlook q d Hq) as [[-> ->] | [Hne' Hq']]; [by rewrite Hfd |].
    rewrite Hne; [by eapply (i_epoll s H) |]. intros E. apply Hne'. by eapply (fd_unique s).
  - intros f e Hf. destruct (decide (f = fd c)) as [->|Hd]; [exists p, c'; rewrite Hc, list_lookup_insert_eq by done; done |].
    rewrite Hne in Hf by done. destruct (i_known s H f e Hf) as (q & d & Hq & <-). destruct (Hback q d Hq) as (d' & Hd' & E). eauto.
Qed.

(** Scheduling touches neither contexts nor the interest list. *)
Lemma schedule_on_frame s k ft :
  ctxs (schedule_on s k ft) = ctxs s /\ m_fdContexts (schedule_on s k ft) = m_fdContexts s
  /\ m_pendingEventCount (schedule_on s k ft) = m_pendingEventCount s /\ interest (schedule_on s k ft) = interest s
  /\ timers (schedule_on s k ft) = timers s.
Proof. destruct k; simpl; unfold tickle; case_tests; done. Qed.

Lemma io_inv_same s s' :
  ctxs s' = ctxs s -> m_fdContexts s' = m_fdContexts s -> m_pendingEventCount s' = m_pendingEventCount s ->
  interest s' = interest s -> io_inv s -> io_inv s'.
Proof. intros E1 E2 E3 E4 [H1 H2 H3 H4 H5 H6 H7]. split; by rewrite ?E1, ?E2, ?E3, ?E4. Qed.

(** ** The parts of the operations *)

Definition cleared (c : FdContext) (event : Z) : FdContext :=
  setContext (with_events c (Z.land (events c) (Z.lnot event))) event null_EC.

Definition task_of (e : EventContext) : Sc.FiberAndThread :=
  match cb e with Some k => Sc.FT_of_cb (Some k) (-1) | None => Sc.FT_of_fiber (fiber e) (-1) end.

Lemma cleared_ok c event : ctx_ok c -> event_ok event -> ctx_ok (cleared c event).
Proof.
  unfold ctx_ok, cleared. intros (Hm & Hr & Hw) He. destruct c as [f w r m]. simpl in *. masks; simpl in *;
    (split; [unfold mask_ok; vm_compute; tauto | split; done]).
Qed.

Lemma cleared_fd c event : fd (cleared c event) = fd c.
Proof. unfold cleared, setContext. by destruct (event =? READ). Qed.

Lemma cleared_events c event : events (cleared c event) = Z.land (events c) (Z.lnot event).
Proof. unfold cleared, setContext. by destruct (event =? READ). Qed.

Lemma cleared_bits c event : ctx_ok c -> event_ok event -> has (events c) event = true -> bits (cleared c event) = bits c - 1.
Proof.
  intros (Hm & _) He Hh. unfold bits. rewrite cleared_events. masks; done.
Qed.

(** The scheduler of a registered event and what it will be given. *)
Lemma slot_full c event :
  ctx_ok c -> event_ok event -> has (events c) event = true ->
  exists k, scheduler (slot c event) = Some k /\ Sc.nonnull (task_of (slot c event)) = true.
Proof.
  intros (_ & Hr & Hw) He Hh.
  assert (Hs : slot_ok true (slot c event)) by (destruct He as [-> | ->]; rewrite Hh in *; done).
  destruct Hs as ([k Hk] & Hs). exists k. split; [done |]. unfold task_of.
  destruct Hs as [[[x ->] _] | [-> [x ->]]]; done.
Qed.

Lemma triggerEvent_spec s p c event k :
  ctxs s !! p = Some c -> ctx_ok c -> event_ok event -> has (events c) event = true -> scheduler (slot c event) = Some k ->
  triggerEvent s p event
  = Ok (set_ctxs (schedule_on s k (task_of (slot c event))) (<[p := cleared c event]> (ctxs s))).
Proof.
  intros Hp (_ & Hr & Hw) He Hh Hk. unfold triggerEvent. rewrite Hp. simpl. rewrite Hh. simpl.
  assert (Hg : getContext (with_events c (Z.land (events c) (Z.lnot event))) event = Ok (slot c event))
    by (destruct He as [-> | ->]; done).
  rewrite Hg. simpl. rewrite Hk. simpl.
  assert (Hs : slot_ok true (slot c event)) by (destruct He as [-> | ->]; rewrite Hh in *; done).
  destruct Hs as (_ & Hs). unfold task_of.
  destruct Hs as [[[x Hx] Hf] | [Hx [x Hf]]]; rewrite Hx, Hf; simpl;
    destruct (schedule_on_frame s k (Sc.FT_of_cb (Some x) (-1))) as (E1 & _);
    destruct (schedule_on_frame s k (Sc.FT_of_fiber (Some x) (-1))) as (E2 & _); by rewrite ?E1, ?E2.
Qed.

(** Dropping an event that is registered never fails for want of an entry. *)
Lemma epoll_drop_spec s p c new :
  io_inv s -> ctxs s !! p = Some c -> events c <> 0 -> mask_ok new ->
  epoll_drop false s (fd c) p new
  = Some (set_interest s (if new =? 0 then delete (fd c) (interest s) else <[fd c := (Z.lor EPOLLET new, p)]> (interest s))).
Proof.
  intros H Hp Hne Hm. unfold epoll_drop, epoll_ctl. pose proof (i_epoll s H p c Hp) as Hi. unfold registered in Hi.
  destruct (events c =? 0) eqn:E; to_props; [done |]. rewrite Hi. by destruct (new =? 0).
Qed.

Lemma epoll_drop_registered s p c new f :
  io_inv s -> ctxs s !! p = Some c ->
  let i := if new =? 0 then delete (fd c) (interest s) else <[fd c := (Z.lor EPOLLET new, p)]> (interest s) in
  i !! fd c = registered (with_events c new) p /\ (f <> fd c -> i !! f = interest s !! f).
Proof.
  intros H Hp i. unfold i, registered. simpl. destruct (new =? 0).
  - split; [by rewrite lookup_delete_eq | intros; by rewrite lookup_delete_ne].
  - split; [by rewrite lookup_insert_eq | intros; by rewrite lookup_insert_ne].
Qed.

(** ** Growing the table *)

Definition fresh_ctx (i : nat) : FdContext := mkFd (Z.of_nat i) null_EC null_EC NONE.

Lemma fill_somes ps l i cs :
  fill ((Some <$> ps) ++ l) i cs = (let '(l', cs') := fill l (i + length ps)%nat cs in ((Some <$> ps) ++ l', cs')).
Proof.
  revert i. induction ps as [| p ps IH]; intros i; simpl.
  - rewrite Nat.add_0_r. by destruct (fill l i cs).
  - rewrite IH. replace (S i + length ps)%nat with (i + S (length ps))%nat by lia.
    by destruct (fill l (i + S (length ps)) cs).
Qed.

Lemma fill_nones n i cs :
  fill (replicate n None) i cs = (Some <$> seq (length cs) n, cs ++ (fresh_ctx <$> seq i n)).
Proof.
  revert i cs. induction n as [| n IH]; intros i cs; simpl; [by rewrite app_nil_r |].
  rewrite IH, length_app, Nat.add_1_r, <- app_assoc. done.
Qed.

Lemma table_somes s : io_inv s -> exists ps, m_fdContexts s = Some <$> ps.
Proof.
  intros H. pose proof (i_table s H) as Ht. clear H. exists (omap id (m_fdContexts s)).
  assert (Hall : Forall is_Some (m_fdContexts s)).
  { apply Forall_lookup. intros i o Hi. destruct (Ht i o Hi) as (p & c & -> & _). eauto. }
  clear Ht. induction Hall as [| o l [p ->] _ IH]; [done |]. change (Some p :: l = Some p :: (Some <$> omap id l)). by rewrite <- IH.
Qed.

(** Growing appends fresh contexts, each at its own index. *)
Lemma contextResize_spec s n :
  io_inv s -> (length (m_fdContexts s) <= n)%nat ->
  let k := (n - length (m_fdContexts s))%nat in
  m_fdContexts (contextResize s n) = m_fdContexts s ++ (Some <$> seq (length (ctxs s)) k)
  /\ ctxs (contextResize s n) = ctxs s ++ (fresh_ctx <$> seq (length (m_fdContexts s)) k)
  /\ m_pendingEventCount (contextResize s n) = m_pendingEventCount s /\ interest (contextResize s n) = interest s.
Proof.
  intros H Hn k. destruct (table_somes s H) as [ps Hps]. unfold contextResize.
  rewrite resize_ge by done. rewrite Hps, fill_somes, length_fmap, fill_nones. subst k. rewrite Hps, length_fmap. done.
Qed.

Lemma foldr_bits_app l k :
  foldr (fun c n => bits c + n) 0 (l ++ k) = foldr (fun c n => bits c + n) 0 l + foldr (fun c n => bits c + n) 0 k.
Proof. induction l as [| x l IH]; simpl; [lia |]. rewrite IH. lia. Qed.

Lemma contextResize_inv s n : io_inv s -> (length (m_fdContexts s) <= n)%nat -> io_inv (contextResize s n).
Proof.
  intros H Hn. destruct (contextResize_spec s n H Hn) as (Et & Ec & Ep & Ee).
  set (L := length (m_fdContexts s)) in *. set (C := length (ctxs s)) in *.
  assert (Hnew : forall q d, ctxs (contextResize s n) !! q = Some d ->
    ctxs s !! q = Some d \/ exists j, (j < n - L)%nat /\ q = (C + j)%nat /\ d = fresh_ctx (L + j)).
  { intros q d Hq. rewrite Ec in Hq. apply lookup_app_Some in Hq as [Hq | [Hge Hq]]; [by left | right].
    rewrite list_lookup_fmap in Hq. destruct (seq L (n - L) !! (q - length (ctxs s))%nat) as [x|] eqn:Ex; [| done].
    simpl in Hq. simplify_eq. apply lookup_seq in Ex as [-> Hlt]. exists (q - C)%nat. fold C in Hge.
    split_and!; [done | lia | done]. }
  assert (Hnone : forall f, Z.of_nat L <= f -> interest s !! f = None).
  { intros f Hf. destruct (interest s !! f) as [e|] eqn:E; [| done].
    destruct (i_known s H f e E) as (q & d & Hq & Hd). destruct (i_all s H q d Hq) as [H0 Hl].
    apply lookup_lt_Some in Hl. fold L in Hl. lia. }
  split.
  - intros q d Hq. destruct (Hnew q d Hq) as [Hq' | (j & _ & _ & ->)]; [by eapply (i_ctx s H) |].
    split; [by left | done].
  - rewrite Et, length_app. pose proof (i_size s H). lia.
  - intros i o Hi. rewrite Et in Hi. apply lookup_app_Some in Hi as [Hi | [Hge Hi]].
    + destruct (i_table s H i o Hi) as (q & d & -> & Hq & Hd). exists q, d. rewrite Ec. split_and!; try done. by apply lookup_app_l_Some.
    + rewrite list_lookup_fmap in Hi. fold L in Hge, Hi. destruct (seq C (n - L) !! (i - L)%nat) as [x|] eqn:Ex; [| done].
      simpl in Hi. simplify_eq. apply lookup_seq in Ex as [-> Hlt].
      eexists (C + (i - L))%nat, (fresh_ctx i). split_and!; [done | | done].
      rewrite Ec, lookup_app_r by (fold C; lia). fold C. replace (C + (i - L) - C)%nat with (i - L)%nat by lia.
      rewrite list_lookup_fmap, lookup_seq_lt by done. simpl. do 2 f_equal. lia.
  - intros q d Hq. destruct (Hnew q d Hq) as [Hq' | (j & Hj & -> & ->)].
    + destruct (i_all s H q d Hq') as [H0 Hl]. split; [done |]. rewrite Et. by apply lookup_app_l_Some.
    + simpl. split; [lia |]. rewrite Nat2Z.id, Et, lookup_app_r by (fold L; lia). fold L.
      replace (L + j - L)%nat with j by lia. rewrite list_lookup_fmap, lookup_seq_lt by done. done.
  - rewrite Ep, Ec, foldr_bits_app, (i_pending s H). f_equal.
    assert (Hz : forall l, foldr (fun c n => bits c + n) 0 (fresh_ctx <$> l) = 0) by (induction l as [| x l IH]; [done | by rewrite fmap_cons; cbn [foldr]; rewrite IH]).
    rewrite Hz. lia.
  - intros q d Hq. rewrite Ee. destruct (Hnew q d Hq) as [Hq' | (j & Hj & -> & ->)]; [by eapply (i_epoll s H) |].
    simpl. apply Hnone. lia.
  - intros f e Hf. rewrite Ee in Hf. destruct (i_known s H f e Hf) as (q & d & Hq & Hd). exists q, d. rewrite Ec. split; [| done].
    by apply lookup_app_l_Some.
Qed.

(** ** The operations *)

Lemma find_context_spec s f :
  io_inv s -> 0 <= f ->
  (exists p c, find_context s f = Ok (Some p) /\ ctxs s !! p = Some c /\ fd c = f)
  \/ (find_context s f = Ok None /\ Z.of_nat (length (m_fdContexts s)) <= f).
Proof.
  intros H Hf. unfold find_context. destruct (f <? Z.of_nat (length (m_fdContexts s))) eqn:E; to_props; [left | by right].
  destruct (Z.ltb_spec f 0); [lia |].
  destruct (lookup_lt_is_Some_2 (m_fdContexts s) (Z.to_nat f)) as [o Ho]; [lia |].
  destruct (i_table s H _ o Ho) as (p & c & -> & Hp & Hc). rewrite Ho. simpl. exists p, c. split_and!; [done | done | lia].
Qed.

Lemma grow_spec s f :
  io_inv s -> Z.of_nat (length (m_fdContexts s)) <= f ->
  exists p c s', grow_context s f = Ok (p, s') /\ ctxs s' !! p = Some c /\ fd c = f /\ io_inv s'
    /\ events c = 0 /\ m_pendingEventCount s' = m_pendingEventCount s
    /\ (exists k, ctxs s' = ctxs s ++ k) /\ base s' = base s /\ others s' = others s /\ timers s' = timers s.
Proof.
  intros H Hf. pose proof (i_size s H) as H32. unfold grow_context.
  assert (Hg : (length (m_fdContexts s) <= grow f /\ Z.to_nat f < grow f)%nat).
  { unfold grow. assert (f + 1 <= f * 3 / 2) by (apply Z.div_le_lower_bound; lia). lia. }
  destruct Hg as [Hg1 Hg2]. pose proof (contextResize_inv s (grow f) H Hg1) as H'.
  destruct (contextResize_spec s (grow f) H Hg1) as (Et & Ec & Ep & Ee).
  assert (Hlen : length (m_fdContexts (contextResize s (grow f))) = grow f) by (rewrite Et, length_app, length_fmap, length_seq; lia).
  destruct (lookup_lt_is_Some_2 (m_fdContexts (contextResize s (grow f))) (Z.to_nat f)) as [o Ho]; [lia |].
  destruct (i_table _ H' _ o Ho) as (p & c & -> & Hp & Hc). rewrite Ho. simpl.
  exists p, c, (contextResize s (grow f)). split_and!; try done; [lia | | eauto | | |].
  - rewrite Ec in Hp. apply lookup_app_Some in Hp as [Hp | [_ Hp]].
    + destruct (i_all s H p c Hp) as [_ Hl]. apply lookup_lt_Some in Hl. lia.
    + rewrite list_lookup_fmap in Hp. destruct (seq _ _ !! _); simpl in Hp; by simplify_eq.
  - unfold contextResize. by destruct (fill _ _ _).
  - unfold contextResize. by destruct (fill _ _ _).
  - unfold contextResize. by destruct (fill _ _ _).
Qed.

(** Registering an event. *)
Definition added (c : FdContext) (event : Z) (e : EventContext) : FdContext :=
  setContext (with_events c (Z.lor (events c) event)) event e.

Lemma added_ok c event e :
  ctx_ok c -> event_ok event -> has (events c) event = false -> slot_ok true e -> ctx_ok (added c event e).
Proof.
  unfold ctx_ok, added. intros (Hm & Hr & Hw) He Hh Hs. destruct c as [f w r m]. simpl in *. masks; simpl in *; try done;
    (split; [unfold mask_ok; vm_compute; tauto | split; done]).
Qed.

Lemma added_bits c event e : ctx_ok c -> event_ok event -> has (events c) event = false -> bits (added c event e) = bits c + 1.
Proof.
  intros (Hm & _) He Hh. unfold bits, added, setContext. destruct (event =? READ); simpl; masks; done.
Qed.

Definition who_ok (who : caller) (c : option nat) : Prop :=
  is_Some (this_scheduler who) /\ (c = None -> this_exec who = true).

Definition slot_for (who : caller) (c : option nat) : EventContext :=
  match c with
  | Some k => mkEC (this_scheduler who) None (Some k)
  | None => mkEC (this_scheduler who) (Some (this_fiber who)) None
  end.

Lemma addEvent_locked_spec s who p x event c :
  io_inv s -> ctxs s !! p = Some x -> event_ok event -> has (events x) event = false -> who_ok who c ->
  exists s', addEvent_locked false who s p (fd x) event c = Ok (0, s') /\ io_inv s'
    /\ ctxs s' = <[p := added x event (slot_for who c)]> (ctxs s) /\ base s' = base s /\ others s' = others s
    /\ timers s' = timers s.
Proof.
  intros H Hp He Hh [Hsch Hex]. pose proof (i_ctx s H p x Hp) as Hok. unfold addEvent_locked. rewrite Hp. simpl. rewrite Hh. simpl.
  set (i := <[fd x := (Z.lor EPOLLET (Z.lor (events x) event), p)]> (interest s)).
  assert (Hep : epoll_ctl false s (if events x =? 0 then EPOLL_CTL_ADD else EPOLL_CTL_MOD) (fd x)
                  (Z.lor EPOLLET (Z.lor (events x) event)) p = Some (set_interest s i)).
  { unfold epoll_ctl. rewrite (i_epoll s H p x Hp). unfold registered. by destruct (events x =? 0). }
  rewrite Hep. simpl.
  assert (Hg : getContext (with_events x (Z.lor (events x) event)) event = Ok null_EC).
  { destruct Hok as (_ & Hr & Hw). destruct He as [-> | ->]; rewrite Hh in *; unfold getContext; simpl; congruence. }
  rewrite Hg. simpl.
  assert (Hslot : match c with
             | Some k => Ok (mkEC (this_scheduler who) None (Some k))
             | None => _ ← sylar_assert (this_exec who); Ok (mkEC (this_scheduler who) (Some (this_fiber who)) None)
             end = Ok (slot_for who c)) by (destruct c; [done | rewrite Hex by done; done]).
  rewrite Hslot. simpl. eexists. split; [reflexivity |]. split; [| done].
  assert (Hs : slot_ok true (slot_for who c)) by (destruct c; split; simpl; eauto).
  eapply (io_inv_update s _ p x (added x event (slot_for who c))); try done; simpl.
  - unfold added, setContext. by destruct (event =? READ).
  - by apply added_ok.
  - rewrite (added_bits x) by done. f_equal. lia.
  - unfold i. rewrite lookup_insert_eq. unfold registered.
    assert (Hev : events (added x event (slot_for who c)) = Z.lor (events x) event) by (unfold added, setContext; by destruct (event =? READ)).
    rewrite Hev. destruct Hok as (Hm & _). masks; done.
  - intros f Hf. unfold i. by rewrite lookup_insert_ne.
Qed.

(** Clearing an event in a context whose interest entry is already updated. *)
Lemma clear_event_inv s s' p c event :
  io_inv s -> ctxs s !! p = Some c -> event_ok event -> has (events c) event = true ->
  ctxs s' = <[p := cleared c event]> (ctxs s) -> m_fdContexts s' = m_fdContexts s ->
  m_pendingEventCount s' = u64 (m_pendingEventCount s - 1) ->
  (let new := Z.land (events c) (Z.lnot event) in
   interest s' = if new =? 0 then delete (fd c) (interest s) else <[fd c := (Z.lor EPOLLET new, p)]> (interest s)) ->
  io_inv s'.
Proof.
  intros H Hp He Hh Hc Ht Hn Hi. pose proof (i_ctx s H p c Hp) as Hok.
  eapply (io_inv_update s s' p c (cleared c event)); try done.
  - apply cleared_fd.
  - by apply cleared_ok.
  - rewrite Hn, cleared_bits by done. f_equal. lia.
  - cbv zeta in Hi. rewrite Hi. unfold registered. rewrite cleared_events.
    by destruct (epoll_drop_registered s p c (Z.land (events c) (Z.lnot event)) 0 H Hp) as [-> _].
  - intros f Hf. cbv zeta in Hi. rewrite Hi.
    by apply (epoll_drop_registered s p c (Z.land (events c) (Z.lnot event)) f H Hp).
Qed.

Lemma land_mask_ok m e : mask_ok m -> event_ok e -> mask_ok (Z.land m (Z.lnot e)).
Proof. intros Hm He. masks; unfold mask_ok; vm_compute; tauto. Qed.

Lemma has_nonzero m e : has m e = true -> m <> 0.
Proof. unfold has. intros H ->. by rewrite Z.land_0_l in H. Qed.

(** ** What is delivered *)

(** The tasks queued on scheduler [k]. *)
Definition tasks_on (s : IOManager) (k : nat) : list Sc.FiberAndThread :=
  match k with O => Sc.m_fibers (base s) | S _ => default [] (others s !! k) end.

Lemma tickle_base s : base (tickle s) = base s /\ others (tickle s) = others s.
Proof. unfold tickle. by case_tests. Qed.

Lemma schedule_on_tasks s k ft j :
  Sc.nonnull ft = true -> tasks_on (schedule_on s k ft) j = tasks_on s j ++ (if decide (j = k) then [ft] else []).
Proof.
  intros Hn. destruct k as [|k]; simpl.
  - set (s1 := set_base s (Sc.schedule (base s) ft)).
    assert (Hs : forall s2, base s2 = base s1 -> others s2 = others s1 ->
      tasks_on s2 j = tasks_on s j ++ (if decide (j = 0)%nat then [ft] else [])).
    { intros s2 E1 E2. destruct j as [|j]; simpl; rewrite ?E1, ?E2; simpl.
      - unfold Sc.schedule, Sc.scheduleNoLock. rewrite Hn. done.
      - by rewrite app_nil_r. }
    destruct (bool_decide (Sc.m_fibers (base s) = [])); [apply Hs; apply tickle_base | by apply Hs].
  - destruct j as [|j]; simpl; [by rewrite app_nil_r |]. case_decide as Hd.
    + simplify_eq. rewrite lookup_insert_eq. simpl. unfold Sc.scheduleNoLock. rewrite Hn. done.
    + rewrite lookup_insert_ne by done. by rewrite app_nil_r.
Qed.

(** What triggering the events of [m] in context [c] gives to scheduler [k]:
    the reader before the writer. *)
Definition given_to (c : FdContext) (m : Z) (k : nat) : list Sc.FiberAndThread :=
  (if has m READ && bool_decide (scheduler (read c) = Some k) then [task_of (read c)] else [])
  ++ (if has m WRITE && bool_decide (scheduler (write c) = Some k) then [task_of (write c)] else []).

(** The context after them. *)
Definition without (c : FdContext) (m : Z) : FdContext :=
  let c := if has m READ then cleared c READ else c in
  if has m WRITE then cleared c WRITE else c.

(** What a trigger leaves alone. *)
Definition same_frame (s s' : IOManager) : Prop :=
  m_fdContexts s' = m_fdContexts s /\ interest s' = interest s /\ timers s' = timers s.

Lemma trigger_if_spec s p c m event :
  ctxs s !! p = Some c -> ctx_ok c -> event_ok event -> (has m event = true -> has (events c) event = true) ->
  exists s', trigger_if m event p s = Ok s' /\ same_frame s s'
    /\ ctxs s' = <[p := if has m event then cleared c event else c]> (ctxs s)
    /\ m_pendingEventCount s' = (if has m event then u64 (m_pendingEventCount s - 1) else m_pendingEventCount s)
    /\ forall j, tasks_on s' j = tasks_on s j
         ++ (if has m event && bool_decide (scheduler (slot c event) = Some j) then [task_of (slot c event)] else []).
Proof.
  intros Hp Hok He Hsub. unfold trigger_if. destruct (has m event); simpl.
  - destruct (slot_full c event Hok He (Hsub eq_refl)) as (k & Hk & Hn).
    rewrite (triggerEvent_spec s p c event k) by auto. simpl. eexists. split; [reflexivity |].
    destruct (schedule_on_frame s k (task_of (slot c event))) as (E1 & E2 & E3 & E4 & E5).
    split; [by unfold same_frame; simpl; rewrite E2, E4, E5 |]. simpl. rewrite E3. split_and!; try done.
    intros j. change (tasks_on (schedule_on s k (task_of (slot c event))) j
      = tasks_on s j ++ (if bool_decide (scheduler (slot c event) = Some j) then [task_of (slot c event)] else [])).
    rewrite schedule_on_tasks by done. f_equal. rewrite Hk. case_decide; case_bool_decide; congruence.
  - exists s. split; [done |]. split; [done |]. rewrite list_insert_id by done. split_and!; try done.
    intros j. by rewrite app_nil_r.
Qed.


(** Both triggers in their order; the pending count stays in range because it
    was. *)
Lemma trigger_both s p c m :
  ctxs s !! p = Some c -> ctx_ok c -> in_unsigned 64 (m_pendingEventCount s) ->
  (has m READ = true -> has (events c) READ = true) -> (has m WRITE = true -> has (events c) WRITE = true) ->
  exists s1 s', trigger_if m READ p s = Ok s1 /\ trigger_if m WRITE p s1 = Ok s' /\ same_frame s s'
    /\ ctxs s1 = <[p := if has m READ then cleared c READ else c]> (ctxs s)
    /\ ctxs s' = <[p := without c m]> (ctxs s)
    /\ m_pendingEventCount s' = u64 (m_pendingEventCount s - (Z.b2z (has m READ) + Z.b2z (has m WRITE)))
    /\ forall j, tasks_on s' j = tasks_on s j ++ given_to c m j.
Proof.
  intros Hp Hok Hrange Hr Hw. assert (Hlt : (p < length (ctxs s))%nat) by by eapply lookup_lt_Some.
  destruct (trigger_if_spec s p c m READ Hp Hok) as (s1 & E1 & (F1 & F2 & F3) & C1 & N1 & T1); [by left | done |].
  set (c1 := if has m READ then cleared c READ else c) in *.
  assert (Hok1 : ctx_ok c1) by (unfold c1; destruct (has m READ); [apply cleared_ok; [done | by left] | done]).
  assert (Hw1 : has m WRITE = true -> has (events c1) WRITE = true).
  { intros H. unfold c1. destruct (has m READ); [| auto]. rewrite cleared_events.
    specialize (Hw H). destruct Hok as (Hm & _). masks; done. }
  assert (Hp1 : ctxs s1 !! p = Some c1) by (rewrite C1; by apply list_lookup_insert_eq).
  destruct (trigger_if_spec s1 p c1 m WRITE Hp1 Hok1) as (s2 & E2 & (G1 & G2 & G3) & C2 & N2 & T2); [by right | done |].
  exists s1, s2. split_and!; try done.
  - unfold same_frame. by rewrite G1, G2, G3.
  - rewrite C2, C1, list_insert_insert_eq. done.
  - rewrite N2, N1. destruct (has m READ), (has m WRITE); simpl; rewrite ?u64_sub_l, ?Z.sub_0_r; try done; [f_equal; lia |].
    symmetry. by apply wrap_small.
  - intros j. rewrite T2, T1. unfold given_to. rewrite <- app_assoc. do 2 f_equal.
    assert (Hwr : write c1 = write c) by (unfold c1; by destruct (has m READ)).
    change (slot c1 WRITE) with (write c1). by rewrite Hwr.
Qed.

Lemma without_ok c m : ctx_ok c -> ctx_ok (without c m).
Proof.
  intros H. unfold without. destruct (has m READ), (has m WRITE); try done; repeat apply cleared_ok;
    try done; (by left) || (by right).
Qed.

Lemma without_fd c m : fd (without c m) = fd c.
Proof. unfold without. destruct (has m READ), (has m WRITE); by rewrite ?cleared_fd. Qed.

Lemma pending_range s : io_inv s -> in_unsigned 64 (m_pendingEventCount s).
Proof. intros H. rewrite (i_pending s H). by apply wrap_range. Qed.

Lemma without_bits c m :
  ctx_ok c -> (has m READ = true -> has (events c) READ = true) -> (has m WRITE = true -> has (events c) WRITE = true) ->
  bits (without c m) = bits c - (Z.b2z (has m READ) + Z.b2z (has m WRITE)).
Proof.
  intros (Hm & _) Hr Hw. unfold bits, without. destruct (has m READ), (has m WRITE); rewrite ?cleared_events; simpl; try lia;
    try specialize (Hr eq_refl); try specialize (Hw eq_refl); masks; done.
Qed.

(** Dropping the events of a mask from the interest list and triggering them. *)
Lemma drop_and_trigger s p c m new :
  io_inv s -> ctxs s !! p = Some c ->
  (has m READ = true -> has (events c) READ = true) -> (has m WRITE = true -> has (events c) WRITE = true) ->
  events (without c m) = new ->
  let s0 := set_interest s (if new =? 0 then delete (fd c) (interest s) else <[fd c := (Z.lor EPOLLET new, p)]> (interest s)) in
  exists s1 s', trigger_if m READ p s0 = Ok s1 /\ trigger_if m WRITE p s1 = Ok s' /\ io_inv s'
    /\ ctxs s1 = <[p := if has m READ then cleared c READ else c]> (ctxs s) /\ ctxs s' = <[p := without c m]> (ctxs s)
    /\ (forall j, tasks_on s' j = tasks_on s j ++ given_to c m j).
Proof.
  intros H Hp Hr Hw Hnew s0. pose proof (i_ctx s H p c Hp) as Hok.
  destruct (trigger_both s0 p c m Hp Hok (pending_range s H) Hr Hw) as (s1 & s' & E1 & E2 & (F1 & F2 & F3) & C1 & C2 & N & T).
  exists s1, s'. split_and!; try done.
  eapply (io_inv_update s s' p c (without c m)); try done.
  - apply without_fd.
  - by apply without_ok.
  - rewrite N, without_bits by done. f_equal. simpl. lia.
  - rewrite F2. simpl. unfold registered. rewrite Hnew.
    by destruct (epoll_drop_registered s p c new 0 H Hp) as [-> _].
  - intros f Hf. rewrite F2. simpl. by apply (epoll_drop_registered s p c new f H Hp).
Qed.

End IoInv.
