(* ===== verification/IOManagerProps.v ===== *)
(** The properties of the IO manager. *)

From stdpp Require Import gmap.
From S2P Require Import Prelude Fiber Scheduler Timer IOManager IOManagerInv.

Import Io IoInv.
Local Open Scope Z_scope.
#[local] Arguments epoll_ctl : simpl never.
#[local] Arguments epoll_drop : simpl never.

(** ** Lemmas on the operations *)

Lemma addEvent_inv refuse who s f event c r s' :
  io_inv s -> 0 <= f -> event_ok event -> who_ok who c ->
  (forall p x, ctxs s !! p = Some x -> fd x = f -> has (events x) event = false) ->
  addEvent refuse who s f event c = Ok (r, s') -> io_inv s'.
Proof.
  intros H Hf He Hwho Hfree Hadd. unfold addEvent in Hadd.
  assert (Hin : forall s1 p x, io_inv s1 -> ctxs s1 !! p = Some x -> fd x = f -> has (events x) event = false ->
    addEvent_locked refuse who s1 p f event c = Ok (r, s') -> io_inv s').
  { intros s1 p x H1 Hp Hx Hh Hl. subst f. destruct refuse.
    - unfold addEvent_locked, epoll_ctl in Hl. rewrite Hp in Hl. simpl in Hl. rewrite Hh in Hl. simpl in Hl. by inv_ok.
    - destruct (addEvent_locked_spec s1 who p x event c H1 Hp He Hh Hwho) as (s2 & E & H2 & _). rewrite E in Hl. by inv_ok. }
  destruct (find_context_spec s f H Hf) as [(p & x & E & Hp & Hx) | (E & Hlen)]; rewrite E in Hadd; simpl in Hadd.
  - by eapply (Hin s p x); eauto.
  - destruct (grow_spec s f H Hlen) as (p & x & s1 & E1 & Hp & Hx & H1 & H0 & _). rewrite E1 in Hadd. simpl in Hadd.
    eapply (Hin s1 p x); try done. by rewrite H0.
Qed.

(** What an operation on one descriptor sees. *)
Lemma with_context_spec s f p c k :
  io_inv s -> ctxs s !! p = Some c -> fd c = f -> with_context s f k = k p c.
Proof.
  intros H Hp Hf. destruct (i_all s H p c Hp) as [H0 Hl]. rewrite Hf in *. unfold with_context.
  destruct (find_context_spec s f H H0) as [(q & d & E & Hq & Hd) | (E & Hlen)]; rewrite E; simpl.
  - assert (q = p) as -> by (eapply (fd_unique s); eauto; congruence). rewrite Hp. done.
  - apply lookup_lt_Some in Hl. lia.
Qed.

Lemma with_context_none s f k :
  io_inv s -> 0 <= f -> (forall p c, ctxs s !! p = Some c -> fd c <> f) -> with_context s f k = Ok (false, s).
Proof.
  intros H Hf Hno. unfold with_context. destruct (find_context_spec s f H Hf) as [(q & d & E & Hq & Hd) | (E & _)]; rewrite E; simpl; [| done].
  by destruct (Hno q d Hq).
Qed.

Lemma events_without c event : ctx_ok c -> event_ok event -> events (without c event) = Z.land (events c) (Z.lnot event).
Proof. intros _ [-> | ->]; [apply (cleared_events c READ) | apply (cleared_events c WRITE)]. Qed.

Lemma given_to_one c event k : event_ok event -> given_to c event k = if bool_decide (scheduler (slot c event) = Some k) then [task_of (slot c event)] else [].
Proof. intros [-> | ->]; unfold given_to; simpl; by rewrite ?app_nil_r. Qed.

Lemma cancelEvent_spec s f event p c :
  io_inv s -> ctxs s !! p = Some c -> fd c = f -> event_ok event -> has (events c) event = true ->
  exists s', cancelEvent false s f event = Ok (true, s') /\ io_inv s' /\ ctxs s' = <[p := cleared c event]> (ctxs s)
    /\ (forall k, tasks_on s' k = tasks_on s k ++ given_to c event k).
Proof.
  intros H Hp Hf He Hh. pose proof (i_ctx s H p c Hp) as Hok. unfold cancelEvent.
  rewrite (with_context_spec s f p c) by done. rewrite Hh. simpl. subst f.
  rewrite (epoll_drop_spec s p c) by (done || by eapply has_nonzero || (apply land_mask_ok; [apply Hok | done])).
  destruct (drop_and_trigger s p c event (Z.land (events c) (Z.lnot event)) H Hp) as (s1 & s' & E1 & E2 & H' & C1 & C2 & T).
  { by destruct He as [-> | ->]. } { by destruct He as [-> | ->]. } { by apply events_without. }
  exists s'. unfold trigger_if in E1, E2. destruct He as [-> | ->]; simpl in E1, E2.
  - change (has READ READ) with true in E1. apply bind_Ok_inv in E1 as (s2 & E1 & E1'). rewrite E1. simpl. inv_ok. by split_and!.
  - inv_ok. apply bind_Ok_inv in E2 as (s2 & E2 & E2'). rewrite E2. simpl. inv_ok. by split_and!.
Qed.

Lemma delEvent_spec s f event p c :
  io_inv s -> ctxs s !! p = Some c -> fd c = f -> event_ok event -> has (events c) event = true ->
  exists s', delEvent false s f event = Ok (true, s') /\ io_inv s' /\ ctxs s' = <[p := cleared c event]> (ctxs s)
    /\ (forall k, tasks_on s' k = tasks_on s k).
Proof.
  intros H Hp Hf He Hh. pose proof (i_ctx s H p c Hp) as Hok. unfold delEvent.
  rewrite (with_context_spec s f p c) by done. rewrite Hh. simpl. subst f.
  rewrite (epoll_drop_spec s p c) by (done || by eapply has_nonzero || (apply land_mask_ok; [apply Hok | done])).
  assert (Hg : exists e, getContext (with_events c (Z.land (events c) (Z.lnot event))) event = Ok e)
    by (destruct He as [-> | ->]; eexists; done).
  destruct Hg as [e Hg]. rewrite Hg. simpl. eexists. split; [reflexivity |]. split_and!; try done.
  by eapply (clear_event_inv s _ p c event).
Qed.

Lemma cancelAll_spec s f p c :
  io_inv s -> ctxs s !! p = Some c -> fd c = f -> events c <> 0 ->
  exists s', cancelAll false s f = Ok (true, s') /\ io_inv s' /\ ctxs s' = <[p := mkFd f null_EC null_EC 0]> (ctxs s)
    /\ (forall k, tasks_on s' k = tasks_on s k ++ given_to c (events c) k).
Proof.
  intros H Hp Hf Hne. pose proof (i_ctx s H p c Hp) as Hok. assert (Hlt : (p < length (ctxs s))%nat) by by eapply lookup_lt_Some.
  assert (Hwo : without c (events c) = mkFd (fd c) null_EC null_EC 0).
  { destruct Hok as (Hm & Hr & Hw). destruct c as [f' w r m]. simpl in *. subst f'. masks; simpl in *; subst; done. }
  unfold cancelAll. rewrite (with_context_spec s f p c) by done. subst f.
  destruct (Z.eqb_spec (events c) 0) as [|_]; [done |].
  assert (Hep : epoll_ctl false s EPOLL_CTL_DEL (fd c) 0 p = Some (set_interest s (delete (fd c) (interest s)))).
  { unfold epoll_ctl. rewrite (i_epoll s H p c Hp). unfold registered. by destruct (Z.eqb_spec (events c) 0). }
  rewrite Hep.
  destruct (drop_and_trigger s p c (events c) 0 H Hp) as (s1 & s' & E1 & E2 & H' & C1 & C2 & T); [done | done | by rewrite Hwo |].
  simpl in E1. rewrite E1. simpl. rewrite C1, list_lookup_insert_eq by done. simpl.
  assert (Hm2 : trigger_if (events (if has (events c) READ then cleared c READ else c)) WRITE p s1 = Ok s').
  { rewrite <- E2. unfold trigger_if. f_equal. destruct (has (events c) READ) eqn:E; [| done]. rewrite cleared_events.
    destruct Hok as (Hm & _). masks; done. }
  rewrite Hm2. simpl. rewrite C2, list_lookup_insert_eq by done. simpl. rewrite Hwo. simpl.
  exists s'. split_and!; try done. by rewrite C2, Hwo.
Qed.

(** The mask [handle_ready] works with. *)
Definition effective (c : FdContext) (mask : Z) : Z :=
  real_events (if has mask (Z.lor EPOLLERR EPOLLHUP) then Z.lor mask (Z.land (Z.lor EPOLLIN EPOLLOUT) (events c)) else mask).

(** What was reported is still registered. *)
Definition current (c : FdContext) (mask : Z) : Prop := Z.land (effective c mask) (Z.lnot (events c)) = 0.

Lemma real_mask_ok mask : mask_ok (real_events mask).
Proof. unfold real_events, mask_ok. destruct (has mask EPOLLIN), (has mask EPOLLOUT); vm_compute; tauto. Qed.

Lemma handle_ready_spec s p c mask :
  io_inv s -> ctxs s !! p = Some c -> current c mask ->
  exists s', handle_ready false s (ReadyFd p mask) = Ok s' /\ io_inv s' /\ ctxs s' = <[p := without c (effective c mask)]> (ctxs s)
    /\ (forall k, tasks_on s' k = tasks_on s k ++ given_to c (effective c mask) k).
Proof.
  intros H Hp Hcur. pose proof (i_ctx s H p c Hp) as Hok. unfold handle_ready. rewrite Hp. simpl.
  fold (effective c mask). unfold current in Hcur. pose proof (real_mask_ok (if has mask (Z.lor EPOLLERR EPOLLHUP)
    then Z.lor mask (Z.land (Z.lor EPOLLIN EPOLLOUT) (events c)) else mask)) as Hm. fold (effective c mask) in Hm.
  set (r := effective c mask) in *. clearbody r. destruct Hok as (Hme & Hok').
  destruct (Z.eqb_spec (Z.land (events c) r) NONE) as [E | E].
  - exists s. assert (Hr0 : r = 0) by (masks; vm_compute in E, Hcur; congruence). subst r.
    rewrite list_insert_id by done. split_and!; try done. intros k. unfold given_to. simpl. by rewrite app_nil_r.
  - assert (Hne : events c <> 0) by (intros E0; rewrite E0 in E; done).
    assert (Hnew : mask_ok (Z.land (events c) (Z.lnot r))) by (clear -Hme Hm; masks; unfold mask_ok; vm_compute; tauto).
    rewrite (epoll_drop_spec s p c) by done.
    destruct (drop_and_trigger s p c r (Z.land (events c) (Z.lnot r)) H Hp) as (s1 & s' & E1 & E2 & H' & C1 & C2 & T).
    { clear -Hme Hm Hcur. masks; vm_compute in Hcur; done. } { clear -Hme Hm Hcur. masks; vm_compute in Hcur; done. }
    { clear -Hme Hm Hcur. masks; vm_compute in Hcur; try done; unfold without;
        repeat match goal with |- context [has ?a ?b] => let v := eval vm_compute in (has a b) in change (has a b) with v end;
        cbv iota zeta; rewrite ?cleared_events, ?Em; done. }
    simpl in E1. rewrite E1. simpl. rewrite E2. exists s'. by split_and!.
Qed.

(** A step of the IO manager: one call of an operation by a thread of a
    scheduler, for an event that is not registered yet; or one reported event
    that is still registered; the scheduler and timer parts, and the pipe, move
    by themselves. *)
Inductive io_step (s : IOManager) : IOManager -> Prop :=
  | step_add refuse who f event c r s' :
      0 <= f -> event_ok event -> who_ok who c ->
      (forall p x, ctxs s !! p = Some x -> fd x = f -> has (events x) event = false) ->
      addEvent refuse who s f event c = Ok (r, s') -> io_step s s'
  | step_del refuse f event r s' : 0 <= f -> event_ok event -> delEvent refuse s f event = Ok (r, s') -> io_step s s'
  | step_cancel refuse f event r s' : 0 <= f -> event_ok event -> cancelEvent refuse s f event = Ok (r, s') -> io_step s s'
  | step_cancelAll refuse f r s' : 0 <= f -> cancelAll refuse s f = Ok (r, s') -> io_step s s'
  | step_ready refuse p c mask s' : ctxs s !! p = Some c -> current c mask ->
      handle_ready refuse s (ReadyFd p mask) = Ok s' -> io_step s s'
  | step_bases b t n : io_step s (set_pipe (set_timers (set_base s b) t) n).

(** Look the descriptor's context up, or learn that it has none. *)
Lemma context_cases s f :
  io_inv s -> 0 <= f ->
  (exists p c, ctxs s !! p = Some c /\ fd c = f) \/ (forall p c, ctxs s !! p = Some c -> fd c <> f).
Proof.
  intros H Hf. destruct (find_context_spec s f H Hf) as [(p & c & _ & Hp & Hc) | (_ & Hlen)]; [left; eauto | right].
  intros q d Hq Hd. destruct (i_all s H q d Hq) as [_ Hl]. apply lookup_lt_Some in Hl. lia.
Qed.

(** A refused [epoll_ctl] leaves everything as it was. *)
Lemma refused s op f ev p : epoll_ctl true s op f ev p = None.
Proof. done. Qed.

Lemma refused_drop s f p n : epoll_drop true s f p n = None.
Proof. done. Qed.

Lemma io_step_inv s s' : io_inv s -> io_step s s' -> io_inv s'.
Proof.
  intros H Hs. destruct Hs as [refuse who f event c r s' Hf He Hw Hfree E | refuse f event r s' Hf He E
    | refuse f event r s' Hf He E | refuse f r s' Hf E | refuse p c mask s' Hp Hcur E | b t n].
  - by eapply addEvent_inv.
  - destruct (context_cases s f H Hf) as [(p & c & Hp & Hc) | Hno]; [| unfold delEvent in E; rewrite with_context_none in E by done; by inv_ok].
    destruct (has (events c) event) eqn:Hh.
    + destruct refuse.
      * unfold delEvent in E. rewrite (with_context_spec s f p c), Hh in E by done. simpl in E. by inv_ok.
      * destruct (delEvent_spec s f event p c H Hp Hc He Hh) as (s1 & E1 & H1 & _). rewrite E1 in E. by inv_ok.
    + unfold delEvent in E. rewrite (with_context_spec s f p c), Hh in E by done. simpl in E. by inv_ok.
  - destruct (context_cases s f H Hf) as [(p & c & Hp & Hc) | Hno]; [| unfold cancelEvent in E; rewrite with_context_none in E by done; by inv_ok].
    destruct (has (events c) event) eqn:Hh.
    + destruct refuse.
      * unfold cancelEvent in E. rewrite (with_context_spec s f p c), Hh in E by done. simpl in E. by inv_ok.
      * destruct (cancelEvent_spec s f event p c H Hp Hc He Hh) as (s1 & E1 & H1 & _). rewrite E1 in E. by inv_ok.
    + unfold cancelEvent in E. rewrite (with_context_spec s f p c), Hh in E by done. simpl in E. by inv_ok.
  - destruct (context_cases s f H Hf) as [(p & c & Hp & Hc) | Hno]; [| unfold cancelAll in E; rewrite with_context_none in E by done; by inv_ok].
    destruct (decide (events c = 0)) as [E0 | E0].
    + unfold cancelAll in E. rewrite (with_context_spec s f p c), E0 in E by done. simpl in E. by inv_ok.
    + destruct refuse.
      * unfold cancelAll in E. rewrite (with_context_spec s f p c) in E by done.
        destruct (Z.eqb_spec (events c) 0); [done |]. rewrite refused in E. by inv_ok.
      * destruct (cancelAll_spec s f p c H Hp Hc E0) as (s1 & E1 & H1 & _). rewrite E1 in E. by inv_ok.
  - destruct refuse.
    + simpl in E. rewrite Hp in E. simpl in E. destruct (_ =? NONE); by inv_ok.
    + destruct (handle_ready_spec s p c mask H Hp Hcur) as (s1 & E1 & H1 & _). rewrite E1 in E. by inv_ok.
  - by apply (io_inv_same s).
Qed.

Lemma new_IOManager_inv b ids now s : new_IOManager b ids now = Ok s -> io_inv s.
Proof.
  unfold new_IOManager. intros (b' & _ & E)%bind_Ok_inv. inv_ok.
  set (s0 := contextResize (mkIo b (Tm.new_TimerManager now) [] [] 0 ∅ 0 ∅) 32).
  assert (Hc : ctxs s0 = fresh_ctx <$> seq 0 32) by (vm_compute; reflexivity).
  assert (Ht : m_fdContexts s0 = Some <$> seq 0 32) by (vm_compute; reflexivity).
  assert (He : interest s0 = ∅) by (vm_compute; reflexivity).
  assert (Hn : m_pendingEventCount s0 = u64 (foldr (fun c n => bits c + n) 0 (ctxs s0))) by (vm_compute; reflexivity).
  apply (io_inv_same s0); try done. clearbody s0.
  assert (Hlook : forall p c, ctxs s0 !! p = Some c -> (p < 32)%nat /\ c = fresh_ctx p).
  { intros p c Hp. rewrite Hc, list_lookup_fmap in Hp. destruct (seq 0 32 !! p) as [x|] eqn:E; [| done].
    apply lookup_seq in E as [-> Hlt]. simpl in Hp. by simplify_eq. }
  split.
  - intros p c Hp. destruct (Hlook p c Hp) as [_ ->]. split; [by left | done].
  - rewrite Ht. simpl. lia.
  - intros i o Hi. rewrite Ht, list_lookup_fmap in Hi. destruct (seq 0 32 !! i) as [x|] eqn:E; [| done].
    apply lookup_seq in E as [-> Hlt]. simpl in Hi. simplify_eq. exists i, (fresh_ctx i). split_and!; [done | | done].
    rewrite Hc, list_lookup_fmap, lookup_seq_lt by done. done.
  - intros p c Hp. destruct (Hlook p c Hp) as [Hlt ->]. simpl. split; [lia |]. rewrite Nat2Z.id, Ht, list_lookup_fmap, lookup_seq_lt by done. done.
  - done.
  - intros p c Hp. destruct (Hlook p c Hp) as [_ ->]. rewrite He. apply lookup_empty.
  - intros f e Hf. rewrite He in Hf. by rewrite lookup_empty in Hf.
Qed.

Lemma io_run_inv s s' : rtc io_step s s' -> io_inv s -> io_inv s'.
Proof. induction 1; eauto using io_step_inv. Qed.

(** ** A small manager *)

Definition demo_base : Sc.state :=
  match Sc.new_Scheduler 1 false 7 Sc.SNull 131072 1 2 with Ok b => b | Fail _ => Sc.mkState [] 0 0 true false (-1) None 0 [] [] ∅ 0 0 [] [] [] end.

Definition demo_io : IOManager :=
  match new_IOManager demo_base [11] 100 with Ok s => s | Fail _ => mkIo demo_base (Tm.new_TimerManager 100) [] [] 0 ∅ 0 ∅ end.

Definition demo_who : caller := mkCaller (Some 0%nat) 40 true.

(** A reader waiting on descriptor 70, which makes the table grow. *)
Definition demo_io1 : IOManager :=
  match addEvent false demo_who demo_io 70 READ None with Ok (_, s) => s | Fail _ => demo_io end.

(** A callback for writing on the same descriptor. *)
Definition demo_io2 : IOManager :=
  match addEvent false demo_who demo_io1 70 WRITE (Some 5%nat) with Ok (_, s) => s | Fail _ => demo_io end.

Lemma demo_io_new : new_IOManager demo_base [11] 100 = Ok demo_io.
Proof. vm_compute. reflexivity. Qed.

Lemma demo_free s event : forallb (fun x => negb (fd x =? 70) || negb (has (events x) event)) (ctxs s) = true ->
  forall p x, ctxs s !! p = Some x -> fd x = 70 -> has (events x) event = false.
Proof.
  intros H p x Hp Hx. rewrite forallb_forall in H. apply list_elem_of_lookup_2, list_elem_of_In, H in Hp.
  rewrite Hx in Hp. by destruct (has (events x) event).
Qed.

Lemma demo_io_run : rtc io_step demo_io demo_io2.
Proof.
  apply (rtc_l _ _ demo_io1).
  - apply (step_add demo_io false demo_who 70 READ None 0); [lia | by left | by split; eauto | | vm_compute; reflexivity].
    apply demo_free. vm_compute. reflexivity.
  - apply rtc_once. apply (step_add demo_io1 false demo_who 70 WRITE (Some 5%nat) 0); [lia | by right | by split; eauto | | vm_compute; reflexivity].
    apply demo_free. vm_compute. reflexivity.
Qed.

(** The descriptor's context in the run above. *)
Definition demo_ctx : FdContext := default (fresh_ctx 0) (ctxs demo_io2 !! 70%nat).

Lemma demo_ctx_at : ctxs demo_io2 !! 70%nat = Some demo_ctx.
Proof. vm_compute. reflexivity. Qed.

(** ** Claims *)

(** C3: the IO manager's books agree after any sequence of operations by
    scheduler threads, refused or not by the kernel: the pending count is the
    number of registered events, a registered event has a scheduler and exactly
    one of a fiber and a callback while any other slot is empty, and the
    kernel's interest list holds exactly the descriptors with registered events,
    with their mask and their context. *)
Theorem io_books_agree b ids now s0 s :
  new_IOManager b ids now = Ok s0 -> rtc io_step s0 s ->
  m_pendingEventCount s = u64 (foldr (fun c n => bits c + n) 0 (ctxs s))
  /\ (forall p c, ctxs s !! p = Some c -> ctx_ok c /\ m_fdContexts s !! Z.to_nat (fd c) = Some (Some p)
       /\ interest s !! fd c = (if events c =? 0 then None else Some (Z.lor EPOLLET (events c), p)))
  /\ (forall f e, interest s !! f = Some e -> exists p c, ctxs s !! p = Some c /\ fd c = f /\ events c <> 0).
Proof.
  intros Hnew Hrun. pose proof (io_run_inv _ _ Hrun (new_IOManager_inv _ _ _ _ Hnew)) as H.
  split; [apply (i_pending s H) | split].
  - intros p c Hp. split; [by eapply (i_ctx s H) | split; [by apply (i_all s H) |]]. apply (i_epoll s H p c Hp).
  - intros f e Hf. destruct (i_known s H f e Hf) as (p & c & Hp & Hc). exists p, c. split; [done | split; [done |]].
    intros E0. pose proof (i_epoll s H p c Hp) as Hi. unfold registered in Hi. rewrite Hc, Hf, E0 in Hi. done.
Qed.

Lemma io_books_agree_witness :
  m_pendingEventCount demo_io2 = 2 /\ interest demo_io2 !! 70 = Some (Z.lor EPOLLET 5, 70%nat) /\ ctx_ok demo_ctx.
Proof.
  split; [vm_compute; reflexivity | split; [vm_compute; reflexivity |]].
  destruct (io_books_agree demo_base [11] 100 demo_io demo_io2 demo_io_new demo_io_run) as (_ & H & _).
  exact (proj1 (H 70%nat demo_ctx demo_ctx_at)).
Defined.

(** C34: cancelling a registered event hands its fiber or callback to its
    scheduler exactly once, deleting it hands over nothing; either way the event
    is gone, and doing it again finds nothing and changes nothing. *)
Theorem cancel_fires_once_delete_never s f event p c :
  io_inv s -> ctxs s !! p = Some c -> fd c = f -> event_ok event -> has (events c) event = true ->
  (exists k s', scheduler (slot c event) = Some k /\ cancelEvent false s f event = Ok (true, s')
     /\ ctxs s' = <[p := cleared c event]> (ctxs s)
     /\ (forall j, tasks_on s' j = tasks_on s j ++ (if decide (j = k) then [task_of (slot c event)] else []))
     /\ cancelEvent false s' f event = Ok (false, s'))
  /\ (exists s', delEvent false s f event = Ok (true, s') /\ ctxs s' = <[p := cleared c event]> (ctxs s)
     /\ (forall j, tasks_on s' j = tasks_on s j) /\ delEvent false s' f event = Ok (false, s')).
Proof.
  intros H Hp Hf He Hh. pose proof (i_ctx s H p c Hp) as Hok. assert (Hlt : (p < length (ctxs s))%nat) by by eapply lookup_lt_Some.
  assert (Hgone : has (events (cleared c event)) event = false).
  { rewrite cleared_events. destruct Hok as (Hm & _). masks; done. }
  split.
  - destruct (slot_full c event Hok He Hh) as (k & Hk & _).
    destruct (cancelEvent_spec s f event p c H Hp Hf He Hh) as (s' & E & H' & Hc & T). exists k, s'.
    split; [done | split; [done | split; [done | split]]].
    + intros j. rewrite T, given_to_one by done. f_equal. rewrite Hk. case_decide; case_bool_decide; congruence.
    + unfold cancelEvent. rewrite (with_context_spec s' f p (cleared c event)); [by rewrite Hgone | done | | by rewrite cleared_fd].
      rewrite Hc. by apply list_lookup_insert_eq.
  - destruct (delEvent_spec s f event p c H Hp Hf He Hh) as (s' & E & H' & Hc & T). exists s'.
    split; [done | split; [done | split; [done |]]].
    unfold delEvent. rewrite (with_context_spec s' f p (cleared c event)); [by rewrite Hgone | done | | by rewrite cleared_fd].
    rewrite Hc. by apply list_lookup_insert_eq.
Qed.

Lemma cancel_fires_once_delete_never_witness :
  exists s', cancelEvent false demo_io2 70 WRITE = Ok (true, s') /\ tasks_on s' 0 = [Sc.mkFT None (Some 5%nat) (-1)].
Proof.
  assert (Hinv : io_inv demo_io2) by exact (io_run_inv _ _ demo_io_run (new_IOManager_inv _ _ _ _ demo_io_new)).
  destruct (cancel_fires_once_delete_never demo_io2 70 WRITE 70%nat demo_ctx Hinv demo_ctx_at) as [(k & s' & Hk & E & _ & T & _) _];
    [vm_compute; reflexivity | by right | vm_compute; reflexivity |].
  exists s'. split; [exact E |]. rewrite T. assert (k = 0%nat) as -> by (vm_compute in Hk; congruence). vm_compute. reflexivity.
Defined.

(** C8: when [epoll_wait] reports events that are still registered, each of
    them - with an error or hang-up, every registered one - is handed to its
    scheduler exactly once, the reader before the writer, and unregistered; the
    others stay registered. *)
Theorem readiness_fires_exactly s p c mask :
  io_inv s -> ctxs s !! p = Some c -> current c mask ->
  exists s', handle_ready false s (ReadyFd p mask) = Ok s' /\ io_inv s'
    /\ ctxs s' = <[p := without c (effective c mask)]> (ctxs s)
    /\ (forall k, tasks_on s' k = tasks_on s k ++ given_to c (effective c mask) k)
    /\ (has mask (Z.lor EPOLLERR EPOLLHUP) = true -> has mask (Z.lor EPOLLIN EPOLLOUT) = false -> effective c mask = events c).
Proof.
  intros H Hp Hcur. destruct (handle_ready_spec s p c mask H Hp Hcur) as (s' & E & H' & Hc & T). exists s'.
  split; [done | split; [done | split; [done | split; [done |]]]].
  intros Herr Hio. unfold effective, real_events. rewrite Herr. unfold has in *. to_props.
  assert (Hin : forall e, Z.land (Z.lor EPOLLIN EPOLLOUT) e = e -> Z.land mask e = 0).
  { intros e He. rewrite <- He, Z.land_assoc, Hio. done. }
  rewrite !Z.land_lor_distr_l, (Hin EPOLLIN eq_refl), (Hin EPOLLOUT eq_refl), !Z.lor_0_l.
  destruct (i_ctx s H p c Hp) as (Hm & _). masks; done.
Qed.

Lemma readiness_fires_exactly_witness :
  exists s', handle_ready false demo_io2 (ReadyFd 70 EPOLLHUP) = Ok s'
    /\ tasks_on s' 0 = [Sc.mkFT (Some 40%nat) None (-1); Sc.mkFT None (Some 5%nat) (-1)].
Proof.
  assert (Hinv : io_inv demo_io2) by exact (io_run_inv _ _ demo_io_run (new_IOManager_inv _ _ _ _ demo_io_new)).
  destruct (readiness_fires_exactly demo_io2 70 demo_ctx EPOLLHUP Hinv demo_ctx_at) as (s' & E & _ & _ & T & _);
    [vm_compute; reflexivity |].
  exists s'. split; [exact E |]. rewrite T. vm_compute. reflexivity.
Defined.

(** The idle thread wakes for the next timer: with a timer due in less than
    2^31 milliseconds it waits no longer than until then and at most three
    seconds, and without any timer exactly three seconds. *)
Theorem idle_wait_bounded next :
  0 <= next < 2 ^ 31 -> 0 <= wait_timeout next <= next /\ wait_timeout next <= MAX_TIMEOUT
  /\ wait_timeout next = Z.min next MAX_TIMEOUT /\ wait_timeout UINT64_MAX = MAX_TIMEOUT.
Proof.
  intros H. assert (Hi : i32 next = next) by (apply to_signed_small; [lia | unfold in_signed; simpl; lia]).
  assert (E : wait_timeout next = Z.min next MAX_TIMEOUT).
  { unfold wait_timeout. rewrite Hi. destruct (Z.eqb_spec next UINT64_MAX) as [->|_]; [unfold UINT64_MAX in H; lia |].
    destruct (Z.ltb_spec MAX_TIMEOUT next); [rewrite Z.min_r by lia; reflexivity |]. rewrite Z.min_l by done. done. }
  rewrite E. unfold MAX_TIMEOUT. split; [lia | split; [lia | split; [done | reflexivity]]].
Qed.

(** the two overloads of [stopping] agree, for a positive clock and timers
    in the range of [uint64_t]: the idle loop ends exactly when the
    scheduler could stop, no timer is set and no event is pending. *)
Lemma stopping_overloads_agree s now :
  0 < now < 2 ^ 64 -> (forall p, in_unsigned 64 (Tm.key (Tm.heap (timers s)) p).1) ->
  (stopping_timeout s now).1.1 = stopping s.
Proof.
  intros Hnow Hr. unfold stopping_timeout, stopping, Tm.getNextTimer, Tm.hasTimer. simpl.
  destruct (Tm.m_timers (timers s)) as [| p l]; simpl.
  - destruct (Sc.stopping (base s)), (m_pendingEventCount s =? 0); done.
  - specialize (Hr p). unfold in_unsigned in Hr. simpl in Hr.
    assert (Hlt : ((if from_option Tm.m_next 0 (Tm.heap (timers s) !! p) <=? now then 0
                    else from_option Tm.m_next 0 (Tm.heap (timers s) !! p) - now) =? UINT64_MAX) = false).
    { apply Z.eqb_neq. unfold UINT64_MAX. case_tests; lia. }
    rewrite Hlt. simpl. by rewrite andb_false_r.
Qed.

(** ** Where the code falls short *)

(** A timer more than 2^31 milliseconds away, with a low word that is negative
    as an [int], makes the idle thread wait without limit. *)
Theorem long_timer_waits_forever : wait_timeout (2 ^ 31 + 5) = - 2 ^ 31 + 5.
Proof. reflexivity. Qed.

(** An event deleted between [epoll_wait] and the context's lock fails
    [triggerEvent]'s assertion when the other event of the descriptor was
    reported with it. *)
Theorem stale_readiness_asserts :
  match delEvent false demo_io2 70 WRITE with
  | Ok (true, s) => handle_ready false s (ReadyFd 70 (Z.lor EPOLLIN EPOLLOUT)) = Fail AssertFail
  | _ => False
  end.
Proof. vm_compute. reflexivity. Qed.

(** Two threads that both find the table too short: the second, with the smaller
    descriptor, shrinks it again, and the first one's context drops out while
    the kernel still points to it. *)
Theorem concurrent_resize_loses_context :
  find_context demo_io 100 = Ok None /\ find_context demo_io 40 = Ok None
  /\ match grow_context demo_io 100 with
     | Ok (p, s) => match addEvent_locked false demo_who s p 100 READ None with
         | Ok (0, s) => match grow_context s 40 with
             | Ok (_, s) => interest s !! 100 = Some (Z.lor EPOLLET READ, p) /\ find_context s 100 = Ok None
                            /\ cancelEvent false s 100 READ = Ok (false, s)
             | _ => False
             end
         | _ => False
         end
     | _ => False
     end.
Proof. vm_compute. done. Qed.
