(* ===== verification/FdManager.v ===== *)
(** File descriptor contexts of sylar/fdmanager.cc, and what the hooks of
    sylar/hook.cc make of the file status flags and timeouts of a descriptor. *)

From stdpp Require Import gmap.
From S2P Require Import Prelude.

Module Fd.

Local Open Scope Z_scope.

Definition O_NONBLOCK := 2048.
Definition SOL_SOCKET := 1.
Definition SO_RCVTIMEO := 20.
Definition SO_SNDTIMEO := 21.

(** ** Data *)

Record FdCtx := mkCtx {
  m_isInit : bool;
  m_isSocket : bool;
  m_sysNonblock : bool;
  m_userNonblock : bool;
  m_isClosed : bool;
  m_fd : Z;
  m_recvTimeout : Z;
  m_sendTimeout : Z;
}.

(** The contexts are shared objects, reached through pointers (indices); the
    kernel keeps the status flags of each descriptor. *)
Record state := mkSt {
  ctxs : list FdCtx;
  m_datas : list (option nat);
  kflags : gmap Z Z;
}.

Definition set_ctxs (s : state) c := mkSt c (m_datas s) (kflags s).
Definition set_datas (s : state) d := mkSt (ctxs s) d (kflags s).
Definition set_kflags (s : state) k := mkSt (ctxs s) (m_datas s) k.

Definition flags (s : state) (fd : Z) : Z := default 0 (kflags s !! fd).
Definition nonblock (m : Z) : bool := negb (Z.land m O_NONBLOCK =? 0).

Section kernel.

(** What [fstat] says of a descriptor: fails, or whether it is a socket. *)
Context (fstat : Z -> option bool).

(** ** FdCtx *)

Definition getTimeout (c : FdCtx) (type : Z) : Z :=
  if type =? SO_RCVTIMEO then m_recvTimeout c else m_sendTimeout c.

Definition setTimeout (c : FdCtx) (type v : Z) : FdCtx :=
  if type =? SO_RCVTIMEO
  then mkCtx (m_isInit c) (m_isSocket c) (m_sysNonblock c) (m_userNonblock c) (m_isClosed c) (m_fd c) v (m_sendTimeout c)
  else mkCtx (m_isInit c) (m_isSocket c) (m_sysNonblock c) (m_userNonblock c) (m_isClosed c) (m_fd c) (m_recvTimeout c) v.

Definition setUserNonblock (c : FdCtx) (v : bool) : FdCtx :=
  mkCtx (m_isInit c) (m_isSocket c) (m_sysNonblock c) v (m_isClosed c) (m_fd c) (m_recvTimeout c) (m_sendTimeout c).

(** [FdCtx::init] *)
Definition init (s : state) (c : FdCtx) : FdCtx * state :=
  if m_isInit c then (c, s) else
  let '(is_init, is_socket) := match fstat (m_fd c) with None => (false, false) | Some sock => (true, sock) end in
  let s := if is_socket && negb (nonblock (flags s (m_fd c)))
           then set_kflags s (<[m_fd c := Z.lor (flags s (m_fd c)) O_NONBLOCK]> (kflags s)) else s in
  (mkCtx is_init is_socket is_socket false false (m_fd c) UINT64_MAX UINT64_MAX, s).

(** The constructor. *)
Definition new_FdCtx (s : state) (fd : Z) : FdCtx * state :=
  init s (mkCtx false false false false false fd UINT64_MAX UINT64_MAX).

(** ** FdManager *)

Definition new_FdManager (k : gmap Z Z) : state := mkSt [] (replicate 64 None) k.

(** Where the write lock is held: create the context and store it. *)
Definition create (s : state) (fd : Z) : outcome (option nat * state) :=
  let '(c, s) := new_FdCtx s fd in
  let p := length (ctxs s) in
  let d := if Z.of_nat (length (m_datas s)) <=? fd then resize (Z.to_nat (fd * 3 / 2)) None (m_datas s) else m_datas s in
  if (0 <=? fd) && (fd <? Z.of_nat (length d))
  then Ok (Some p, mkSt (ctxs s ++ [c]) (<[Z.to_nat fd := Some p]> d) (kflags s))
  else Fail OutOfRange.

Definition get (s : state) (fd : Z) (auto_create : bool) : outcome (option nat * state) :=
  if fd =? -1 then Ok (None, s) else
  if Z.of_nat (length (m_datas s)) <=? fd then
    if negb auto_create then Ok (None, s) else create s fd
  else
    if fd <? 0 then Fail OutOfRange else
    let o := mjoin (m_datas s !! Z.to_nat fd) in
    if bool_decide (is_Some o) || negb auto_create then Ok (o, s) else create s fd.

Definition del (s : state) (fd : Z) : outcome state :=
  if Z.of_nat (length (m_datas s)) <=? fd then Ok s
  else if fd <? 0 then Fail OutOfRange
  else Ok (set_datas s (<[Z.to_nat fd := None]> (m_datas s))).

(** ** The hooks on flags and options *)

(** The context a hook works with: [None] where it passes the call through. *)
Definition hooked (s : state) (fd : Z) : outcome (option (nat * FdCtx)) :=
  '(o, _) ← get s fd false;
  match o with
  | None => Ok None
  | Some p => c ← of_ptr (ctxs s !! p);
      Ok (if m_isClosed c || negb (m_isSocket c) then None else Some (p, c))
  end.

Definition put (s : state) (p : nat) (c : FdCtx) : state := set_ctxs s (<[p := c]> (ctxs s)).

(** [fcntl(fd, F_SETFL, arg)] *)
Definition fcntl_SETFL (s : state) (fd arg : Z) : outcome state :=
  o ← hooked s fd;
  match o with
  | None => Ok (set_kflags s (<[fd := arg]> (kflags s)))
  | Some (p, c) =>
      let s := put s p (setUserNonblock c (nonblock arg)) in
      let arg := if m_sysNonblock c then Z.lor arg O_NONBLOCK else Z.ldiff arg O_NONBLOCK in
      Ok (set_kflags s (<[fd := arg]> (kflags s)))
  end.

(** [fcntl(fd, F_GETFL)] *)
Definition fcntl_GETFL (s : state) (fd : Z) : outcome Z :=
  let arg := flags s fd in
  o ← hooked s fd;
  match o with
  | None => Ok arg
  | Some (_, c) => Ok (if m_userNonblock c then Z.lor arg O_NONBLOCK else Z.ldiff arg O_NONBLOCK)
  end.

(** [ioctl(fd, FIONBIO, &v)]: the kernel is told the user's value. *)
Definition ioctl_FIONBIO (s : state) (fd : Z) (v : Z) : outcome state :=
  let kernel s := set_kflags s (<[fd := if v =? 0 then Z.ldiff (flags s fd) O_NONBLOCK else Z.lor (flags s fd) O_NONBLOCK]> (kflags s)) in
  o ← hooked s fd;
  match o with
  | None => Ok (kernel s)
  | Some (p, c) => Ok (kernel (put s p (setUserNonblock c (negb (v =? 0)))))
  end.

(** [setsockopt] for the timeouts; the kernel call that follows keeps no state
    of this model. *)
Definition setsockopt_timeo (enabled : bool) (s : state) (fd level optname sec usec : Z) : outcome state :=
  if negb enabled then Ok s else
  if (level =? SOL_SOCKET) && ((optname =? SO_RCVTIMEO) || (optname =? SO_SNDTIMEO)) then
    '(o, s) ← get s fd false;
    match o with
    | None => Ok s
    | Some p => c ← of_ptr (ctxs s !! p);
        Ok (put s p (setTimeout c optname (u64 (sec * 1000 + Z.quot usec 1000))))
    end
  else Ok s.

(** [socket] after the kernel returned [fd]. *)
Definition socket_hook (enabled : bool) (s : state) (fd : Z) : outcome state :=
  if negb enabled || (fd =? -1) then Ok s else '(_, s) ← get s fd true; Ok s.

(** [accept] registers the new descriptor. *)
Definition accept_hook (s : state) (fd : Z) : outcome state :=
  if 0 <=? fd then '(_, s) ← get s fd true; Ok s else Ok s.

(** ** The invariant *)

(** Every context in the table is the one of its descriptor, and a socket is
    non-blocking in the kernel whatever the user asked for. *)
Record inv (s : state) : Prop := {
  inv_size : (64 <= length (m_datas s))%nat;
  inv_ctx : forall i p, m_datas s !! i = Some (Some p) -> exists c, ctxs s !! p = Some c /\ m_fd c = Z.of_nat i
    /\ m_sysNonblock c = m_isSocket c /\ (m_isSocket c = true -> nonblock (flags s (m_fd c)) = true);
  inv_inj : forall i j p, m_datas s !! i = Some (Some p) -> m_datas s !! j = Some (Some p) -> i = j;
}.

(** ** Lemmas *)

Lemma nonblock_lor m : nonblock (Z.lor m O_NONBLOCK) = true.
Proof.
  unfold nonblock. apply negb_true_iff, Z.eqb_neq. rewrite Z.land_lor_distr_l, Z.land_diag. intros H.
  apply Z.lor_eq_0_iff in H as [_ H]. done.
Qed.

Lemma nonblock_ldiff m : nonblock (Z.ldiff m O_NONBLOCK) = false.
Proof.
  unfold nonblock. apply negb_false_iff, Z.eqb_eq. apply Z.bits_inj'. intros n Hn.
  rewrite Z.land_spec, Z.ldiff_spec, Z.bits_0. by destruct (Z.testbit m n), (Z.testbit O_NONBLOCK n).
Qed.

Lemma new_FdManager_inv k : inv (new_FdManager k).
Proof.
  split; simpl; [lia | |]; intros i ?; [intros H | intros p H _];
    apply (lookup_replicate_1 64 None) in H as [H _]; done.
Qed.

Lemma flags_insert s fd m fd' : flags (set_kflags s (<[fd := m]> (kflags s))) fd' = if decide (fd = fd') then m else flags s fd'.
Proof.
  unfold flags. simpl. case_decide as H; [subst; by rewrite lookup_insert_eq | by rewrite lookup_insert_ne].
Qed.

(** The context the constructor makes, and what it does to the kernel. *)
Lemma new_FdCtx_spec s fd :
  exists c s', new_FdCtx s fd = (c, s') /\ ctxs s' = ctxs s /\ m_datas s' = m_datas s
    /\ m_fd c = fd /\ m_isClosed c = false /\ m_userNonblock c = false /\ m_sysNonblock c = m_isSocket c
    /\ (m_isSocket c = true <-> fstat fd = Some true)
    /\ (m_isSocket c = true -> nonblock (flags s' fd) = true)
    /\ (forall f, nonblock (flags s f) = true -> nonblock (flags s' f) = true)
    /\ (forall f, f <> fd -> flags s' f = flags s f).
Proof.
  unfold new_FdCtx, init. simpl. destruct (fstat fd) as [[]|]; simpl; eexists _, _; (split; [reflexivity |]);
    [| split_and!; done..].
  destruct (nonblock (flags s fd)) eqn:E; simpl; [split_and!; done |].
  split_and!; try done.
  - intros _. rewrite flags_insert, decide_True by done. apply nonblock_lor.
  - intros f Hf. rewrite flags_insert. case_decide; [apply nonblock_lor | done].
  - intros f Hf. rewrite flags_insert, decide_False by done. done.
Qed.

Lemma create_spec s fd :
  inv s -> 0 <= fd -> mjoin (m_datas s !! Z.to_nat fd) = None ->
  exists p s', create s fd = Ok (Some p, s') /\ inv s' /\ m_datas s' !! Z.to_nat fd = Some (Some p)
    /\ (exists c, ctxs s' = ctxs s ++ [c] /\ p = length (ctxs s) /\ m_fd c = fd
         /\ m_userNonblock c = false /\ m_isClosed c = false /\ (m_isSocket c = true <-> fstat fd = Some true))
    /\ (forall j, j <> Z.to_nat fd -> mjoin (m_datas s' !! j) = mjoin (m_datas s !! j)).
Proof.
  intros [H1 H2 H3] Hfd Hnone. unfold create.
  destruct (new_FdCtx_spec s fd) as (c & s1 & -> & Ec & Ed & Hc & Hcl & Hu & Hsys & Hsock & Hnb & Hkeep & _).
  rewrite Ec, Ed.
  set (d := if Z.of_nat (length (m_datas s)) <=? fd then resize (Z.to_nat (fd * 3 / 2)) None (m_datas s) else m_datas s).
  assert (Hlen : (Z.to_nat fd < length d /\ 64 <= length d)%nat).
  { unfold d. destruct (Z.leb_spec (Z.of_nat (length (m_datas s))) fd); [| lia]. rewrite length_resize.
    assert (fd + 1 <= fd * 3 / 2) by (apply Z.div_le_lower_bound; lia). lia. }
  assert (Hlook : forall j, mjoin (d !! j) = mjoin (m_datas s !! j)).
  { intros j. unfold d. destruct (Z.leb_spec (Z.of_nat (length (m_datas s))) fd) as [Hge|]; [| done].
    assert (fd + 1 <= fd * 3 / 2) by (apply Z.div_le_lower_bound; lia).
    rewrite resize_ge by lia. destruct (decide (j < length (m_datas s))%nat) as [Hj|Hj].
    - by rewrite lookup_app_l.
    - rewrite lookup_app_r, (lookup_ge_None_2 (m_datas s) j) by lia. simpl.
      destruct (replicate _ None !! _) as [o|] eqn:E; [| done]. apply lookup_replicate_1 in E as [-> _]. done. }
  destruct (Z.leb_spec 0 fd); [| lia]. destruct (Z.ltb_spec fd (Z.of_nat (length d))); [| lia]. simpl.
  assert (Hother : forall j q, <[Z.to_nat fd := Some (length (ctxs s))]> d !! j = Some (Some q) ->
    (j = Z.to_nat fd /\ q = length (ctxs s)) \/ (j <> Z.to_nat fd /\ m_datas s !! j = Some (Some q))).
  { intros j q Hj. destruct (decide (Z.to_nat fd = j)) as [<-|Hne].
    - rewrite list_lookup_insert_eq in Hj by lia. simplify_eq. by left.
    - rewrite list_lookup_insert_ne in Hj by done. right. split; [done |]. specialize (Hlook j). rewrite Hj in Hlook. simpl in Hlook.
      destruct (m_datas s !! j) as [o|]; simpl in Hlook; congruence. }
  assert (Hold : forall j, m_datas s !! j <> Some (Some (length (ctxs s)))).
  { intros j Hj. destruct (H2 _ _ Hj) as (c' & Hc' & _). apply lookup_lt_Some in Hc'. lia. }
  eexists _, _. split; [reflexivity | split; [| split; [| split]]].
  - split; simpl.
    + rewrite length_insert. lia.
    + intros j q Hj. destruct (Hother j q Hj) as [[-> ->] | [_ Hj']].
      * exists c. rewrite lookup_app_r, Nat.sub_diag by lia. split_and!; try done; [lia |].
        intros Hs. rewrite Hc. by apply Hnb.
      * destruct (H2 j q Hj') as (c' & Hc' & Hf' & Hs1 & Hs2). exists c'. split_and!; try done; [by apply lookup_app_l_Some |].
        intros Hs. by apply Hkeep, Hs2.
    + intros i j q Hi Hj. destruct (Hother i q Hi) as [[-> ->] | [_ Hi']].
      * destruct (Hother j _ Hj) as [[-> _] | [_ Hj']]; [done | by destruct (Hold j)].
      * destruct (Hother j q Hj) as [[-> ->] | [_ Hj']]; [by destruct (Hold i) | by eapply H3].
  - simpl. apply list_lookup_insert_eq. lia.
  - exists c. split_and!; done.
  - intros j Hj. simpl. rewrite list_lookup_insert_ne by done. apply Hlook.
Qed.

Lemma get_spec s fd auto :
  inv s -> 0 <= fd ->
  match mjoin (m_datas s !! Z.to_nat fd) with
  | Some p => get s fd auto = Ok (Some p, s)
  | None => if auto then get s fd true = create s fd else get s fd false = Ok (None, s)
  end.
Proof.
  intros [H1 _ _] Hfd. unfold get. destruct (Z.eqb_spec fd (-1)); [lia |].
  destruct (Z.leb_spec (Z.of_nat (length (m_datas s))) fd).
  - rewrite (lookup_ge_None_2 (m_datas s)) by lia. simpl. by destruct auto.
  - destruct (Z.ltb_spec fd 0); [lia |]. destruct (mjoin (m_datas s !! Z.to_nat fd)); simpl; by destruct auto.
Qed.

(** The hook's context is the table's, if it is an open socket. *)
Lemma hooked_spec s fd p c :
  inv s -> 0 <= fd -> m_datas s !! Z.to_nat fd = Some (Some p) -> ctxs s !! p = Some c ->
  m_isClosed c = false -> m_isSocket c = true -> hooked s fd = Ok (Some (p, c)).
Proof.
  intros H Hfd Hd Hp Hcl Hs. unfold hooked. pose proof (get_spec s fd false H Hfd) as Hg. rewrite Hd in Hg. simpl in Hg.
  rewrite Hg. simpl. rewrite Hp. simpl. by rewrite Hcl, Hs.
Qed.

End kernel.

End Fd.
