(* ===== verification/Hook.v ===== *)
(** The hooked system calls of sylar/hook.cc: [do_io] with its wait and timeout,
    the sleeps, [connect_with_timeout] and [close], over the IO manager, the
    timers and the descriptor contexts.

    A call runs until it returns or parks its fiber; [resume] continues a parked
    call, and [on_timer] is the timer's callback. The kernel's answers to the
    underlying call are an input script. *)

From stdpp Require Import gmap.
From S2P Require Import Prelude Fiber Scheduler Timer IOManager FdManager.

Module Hk.

Local Open Scope Z_scope.

Definition EINTR := 4.
Definition EBADF := 9.
Definition EAGAIN := 11.
Definition ETIMEDOUT := 110.
Definition EINPROGRESS := 115.

(** ** State *)

Record hook := mkHook {
  io : Io.IOManager;
  fds : Fd.state;
  tinfos : gmap nat Z;     (* live timer_info objects: their [cancelled] *)
  errno : Z;
}.

Definition set_io (h : hook) i := mkHook i (fds h) (tinfos h) (errno h).
Definition set_fds (h : hook) f := mkHook (io h) f (tinfos h) (errno h).
Definition set_tinfos (h : hook) t := mkHook (io h) (fds h) t (errno h).
Definition set_errno (h : hook) e := mkHook (io h) (fds h) (tinfos h) e.

(** The arguments of [do_io] besides those of the call itself. *)
Record call := mkCall { c_fd : Z; c_event : Z; c_so : Z }.

(** How far a call got: returned, or parked with its [timer_info], its timer
    and its timeout. *)
Inductive progress :=
  | Returned (n : Z)
  | Waiting (k : nat) (timer : option nat) (timeout : Z).

(** ** Timers *)

(** [addConditionTimer] on the IO manager, which is told when the new timer is
    the first. *)
Definition add_timer (i : Io.IOManager) (p : nat) (ms : Z) (cb : Tm.callback) (now : Z) : Io.IOManager :=
  let t := Tm.addTimer (Io.timers i) p ms (Some cb) false now in
  let i' := Io.set_timers i t in
  if (Tm.fronts (Io.timers i) <? Tm.fronts t)%nat then Io.onTimerInsertedAtFront i' else i'.

Definition cancel_timer (h : hook) (timer : option nat) : outcome hook :=
  match timer with
  | None => Ok h
  | Some p => '(_, t) ← Tm.cancel (Io.timers (io h)) p; Ok (set_io h (Io.set_timers (io h) t))
  end.

(** The lambda of the timer: nothing once the call is over or was cancelled. *)
Definition on_timer (refuse : bool) (h : hook) (k : nat) (fd event : Z) : outcome hook :=
  match tinfos h !! k with
  | Some 0 =>
      let h := set_tinfos h (<[k := ETIMEDOUT]> (tinfos h)) in
      '(_, i) ← Io.cancelEvent refuse (io h) fd event;
      Ok (set_io h i)
  | _ => Ok h
  end.

(** ** do_io *)

(** The inner loop over interrupted calls: the first answer that is not EINTR,
    [None] when the script ends before. *)
Fixpoint skip_eintr (script : list (Z * Z)) : option (Z * Z) :=
  match script with
  | [] => None
  | (n, e) :: l => if (n =? -1) && (e =? EINTR) then skip_eintr l else Some (n, e)
  end.

(** From [retry:] to the next return or yield. [k] is the [timer_info], [p]
    where a timer would be allocated, [tick] its callback. *)
Definition attempt (refuse : bool) (who : Io.caller) (h : hook) (c : call) (k p : nat) (tick : nat) (timeout now : Z)
    (script : list (Z * Z)) : outcome (progress * hook) :=
  match skip_eintr script with
  | None => Fail OutOfFuel
  | Some (n, e) =>
      let h := set_errno h e in
      if (n =? -1) && (e =? EAGAIN) then
        let timer := if timeout =? UINT64_MAX then None else Some p in
        let h := match timer with
                 | Some p => set_io h (add_timer (io h) p timeout (Tm.CondCb k tick) now)
                 | None => h
                 end in
        '(rt, i) ← Io.addEvent refuse who (io h) (c_fd c) (c_event c) None;
        let h := set_io h i in
        if negb (rt =? 0) then
          h ← cancel_timer h timer;
          Ok (Returned (-1), set_tinfos h (delete k (tinfos h)))
        else Ok (Waiting k timer timeout, h)
      else Ok (Returned n, set_tinfos h (delete k (tinfos h)))
  end.

(** The call passed through. *)
Definition plain (h : hook) (script : list (Z * Z)) : outcome (progress * hook) :=
  match script with
  | [] => Fail OutOfFuel
  | (n, e) :: _ => Ok (Returned n, set_errno h e)
  end.

Definition do_io (enabled refuse : bool) (fstat : Z -> option bool) (who : Io.caller) (h : hook) (c : call) (k p tick : nat) (now : Z)
    (script : list (Z * Z)) : outcome (progress * hook) :=
  if negb enabled then plain h script else
  '(o, f) ← Fd.get fstat (fds h) (c_fd c) false;
  let h := set_fds h f in
  match o with
  | None => plain h script
  | Some q =>
      ctx ← of_ptr (Fd.ctxs (fds h) !! q);
      if Fd.m_isClosed ctx then Ok (Returned (-1), set_errno h EBADF) else
      if negb (Fd.m_isSocket ctx) || Fd.m_userNonblock ctx then plain h script else
      let timeout := Fd.getTimeout ctx (c_so c) in
      let h := set_tinfos h (<[k := 0]> (tinfos h)) in
      attempt refuse who h c k p tick timeout now script
  end.

(** After [YieldToHold] returned. *)
Definition resume (refuse : bool) (who : Io.caller) (h : hook) (c : call) (k : nat) (timer : option nat) (timeout : Z)
    (p tick : nat) (now : Z) (script : list (Z * Z)) : outcome (progress * hook) :=
  h ← cancel_timer h timer;
  cancelled ← of_ptr (tinfos h !! k);
  if negb (cancelled =? 0) then
    Ok (Returned (-1), set_tinfos (set_errno h cancelled) (delete k (tinfos h)))
  else attempt refuse who h c k p tick timeout now script.

(** The hooked calls: their event and timeout option. *)
Definition read_call (fd : Z) : call := mkCall fd Io.READ Fd.SO_RCVTIMEO.
Definition write_call (fd : Z) : call := mkCall fd Io.WRITE Fd.SO_SNDTIMEO.

(** ** Sleeping *)

(** The milliseconds each sleep asks for: [unsigned int] and [int] arithmetic as
    written, then the conversion to [uint64_t]. *)
Definition sleep_ms (seconds : Z) : Z := u32 (seconds * 1000).
Definition usleep_ms (usec : Z) : Z := usec / 1000.
Definition nanosleep_ms (sec nsec : Z) : Z := u64 (i32 (sec * 1000 + Z.quot (Z.quot nsec 1000) 1000)).

(** The part all three share: a timer that schedules the fiber again. *)
Definition sleep_for (h : hook) (p tick : nat) (ms now : Z) : hook := set_io h (add_timer (io h) p ms (Tm.Cb tick) now).

(** ** connect *)

Inductive connect_progress :=
  | ConnDone (n : Z)
  | ConnWaiting (k : nat) (timer : option nat).

(** The end: the socket's pending error, from [getsockopt]. *)
Definition connect_result (h : hook) (so_error : option Z) : Z * hook :=
  match so_error with
  | None => (-1, h)
  | Some e => if e =? 0 then (0, h) else (-1, set_errno h e)
  end.

(** Up to the wait; [answer] is [connect_f]'s result and errno, [so_error] what
    [getsockopt] would say. *)
Definition connect_begin (enabled refuse : bool) (fstat : Z -> option bool) (who : Io.caller) (h : hook) (fd timeout_ms : Z)
    (k p tick : nat) (now : Z) (answer : Z * Z) (so_error : option Z) : outcome (connect_progress * hook) :=
  let '(n, e) := answer in
  if negb enabled then Ok (ConnDone n, set_errno h e) else
  '(o, f) ← Fd.get fstat (fds h) fd false;
  let h := set_fds h f in
  match o with
  | None => Ok (ConnDone (-1), set_errno h EBADF)
  | Some q =>
      ctx ← of_ptr (Fd.ctxs (fds h) !! q);
      if Fd.m_isClosed ctx then Ok (ConnDone (-1), set_errno h EBADF) else
      if negb (Fd.m_isSocket ctx) || Fd.m_userNonblock ctx then Ok (ConnDone n, set_errno h e) else
      if n =? 0 then Ok (ConnDone 0, set_errno h e) else
      if negb (n =? -1) || negb (e =? EINPROGRESS) then Ok (ConnDone n, set_errno h e) else
      let h := set_tinfos (set_errno h e) (<[k := 0]> (tinfos h)) in
      let timer := if timeout_ms =? UINT64_MAX then None else Some p in
      let h := match timer with
               | Some p => set_io h (add_timer (io h) p timeout_ms (Tm.CondCb k tick) now)
               | None => h
               end in
      '(rt, i) ← Io.addEvent refuse who (io h) fd Io.WRITE None;
      let h := set_io h i in
      if rt =? 0 then Ok (ConnWaiting k timer, h)
      else h ← cancel_timer h timer;
           let '(r, h) := connect_result (set_tinfos h (delete k (tinfos h))) so_error in Ok (ConnDone r, h)
  end.

Definition connect_resume (h : hook) (k : nat) (timer : option nat) (so_error : option Z) : outcome (Z * hook) :=
  h ← cancel_timer h timer;
  cancelled ← of_ptr (tinfos h !! k);
  let h := set_tinfos h (delete k (tinfos h)) in
  if negb (cancelled =? 0) then Ok (-1, set_errno h cancelled) else Ok (connect_result h so_error).

(** ** close *)

(** Up to the kernel's close. *)
Definition close_hook (enabled refuse on_iom : bool) (fstat : Z -> option bool) (h : hook) (fd : Z) : outcome hook :=
  if negb enabled then Ok h else
  '(o, f) ← Fd.get fstat (fds h) fd false;
  let h := set_fds h f in
  match o with
  | None => Ok h
  | Some _ =>
      h ← (if on_iom then '(_, i) ← Io.cancelAll refuse (io h) fd; Ok (set_io h i) else Ok h);
      f ← Fd.del (fds h) fd;
      Ok (set_fds h f)
  end.

End Hk.
