(* ===== verification/HookProps.v ===== *)
(** The properties of descriptor contexts and hooked system calls. *)

From stdpp Require Import gmap.
From S2P Require Import Prelude Fiber Scheduler Timer IOManager IOManagerInv FdManager Hook.
From S2P Require Import IOManagerProps.

Import Hk.
Local Open Scope Z_scope.
#[local] Arguments Io.epoll_ctl : simpl never.

(** ** Lemmas *)

Lemma lor_nonblock m : Fd.nonblock m = true -> Z.lor m Fd.O_NONBLOCK = m.
Proof.
  intros H. apply Z.bits_inj'. intros n Hn. rewrite Z.lor_spec. destruct (Z.testbit Fd.O_NONBLOCK n) eqn:E; [| by rewrite orb_false_r].
  assert (n = 11) as -> by (change Fd.O_NONBLOCK with (2 ^ 11) in E; rewrite Z.pow2_bits_eqb in E by lia; to_props; lia).
  destruct (Z.testbit m 11) eqn:Em; [done |]. exfalso. unfold Fd.nonblock in H. apply negb_true_iff, Z.eqb_neq in H. apply H.
  apply Z.bits_inj'. intros j Hj. rewrite Z.land_spec, Z.bits_0. change Fd.O_NONBLOCK with (2 ^ 11). rewrite Z.pow2_bits_eqb by lia.
  destruct (Z.eqb_spec 11 j) as [<-|]; [by rewrite Em | apply andb_false_r].
Qed.

Lemma ldiff_nonblock m : Fd.nonblock m = false -> Z.ldiff m Fd.O_NONBLOCK = m.
Proof.
  intros H. unfold Fd.nonblock in H. apply negb_false_iff, Z.eqb_eq in H.
  apply Z.bits_inj'. intros n Hn. rewrite Z.ldiff_spec. pose proof (f_equal (fun z => Z.testbit z n) H) as Hb.
  simpl in Hb. rewrite Z.land_spec, Z.bits_0 in Hb. by destruct (Z.testbit m n), (Z.testbit Fd.O_NONBLOCK n).
Qed.

Lemma ldiff_lor_nonblock m : Z.ldiff (Z.lor m Fd.O_NONBLOCK) Fd.O_NONBLOCK = Z.ldiff m Fd.O_NONBLOCK.
Proof.
  apply Z.bits_inj'. intros n Hn. rewrite !Z.ldiff_spec, Z.lor_spec.
  by destruct (Z.testbit m n), (Z.testbit Fd.O_NONBLOCK n).
Qed.

(** Changing the user's flag of a context and the kernel flags of its own
    descriptor to a non-blocking value keeps the invariant. *)
Lemma fd_put_inv s p c fd m v :
  Fd.inv s -> 0 <= fd -> Fd.m_datas s !! Z.to_nat fd = Some (Some p) -> Fd.ctxs s !! p = Some c -> Fd.nonblock m = true ->
  Fd.inv (Fd.set_kflags (Fd.put s p (Fd.setUserNonblock c v)) (<[fd := m]> (Fd.kflags s))).
Proof.
  intros [H1 H2 H3] Hfd Hd Hp Hm. split; simpl; [done | | done].
  intros i q Hi. destruct (H2 i q Hi) as (c' & Hc' & Hf & Hs1 & Hs2).
  assert (Hfl : forall f, Fd.nonblock (Fd.flags s f) = true ->
    Fd.nonblock (Fd.flags (Fd.set_kflags (Fd.put s p (Fd.setUserNonblock c v)) (<[fd := m]> (Fd.kflags s))) f) = true).
  { intros f Hf0. unfold Fd.flags. simpl. destruct (decide (fd = f)) as [<-|Hne]; [by rewrite lookup_insert_eq | by rewrite lookup_insert_ne]. }
  destruct (decide (p = q)) as [<-|Hne].
  - exists (Fd.setUserNonblock c v). rewrite list_lookup_insert_eq by (by eapply lookup_lt_Some). simplify_eq. split_and!; try done. auto.
  - exists c'. rewrite list_lookup_insert_ne by done. split_and!; try done. auto.
Qed.

(** Cancelling the timer of a parked call. *)
Lemma cancel_timer_spec h p t :
  Tm.inv (Io.timers (io h)) -> Tm.heap (Io.timers (io h)) !! p = Some t ->
  exists tm, cancel_timer h (Some p) = Ok (set_io h (Io.set_timers (io h) tm)) /\ Tm.inv tm
    /\ (Tm.m_cb t <> None -> Tm.dead tm p).
Proof.
  intros Hinv Hp. destruct (Tm.cancel_spec _ p t Hinv Hp) as (tm & E & H' & Hh & Ht).
  exists tm. unfold cancel_timer. rewrite E. simpl. split_and!; try done.
  intros Hcb. split; [exists (Tm.with_cb t None); rewrite Hh, lookup_insert_eq; done |].
  rewrite Ht. naive_solver.
Qed.

(** Adding a timer leaves the events alone. *)
Lemma add_timer_inv i p ms cb now :
  IoInv.io_inv i -> IoInv.io_inv (add_timer i p ms cb now) /\ Io.ctxs (add_timer i p ms cb now) = Io.ctxs i
  /\ Io.base (add_timer i p ms cb now) = Io.base i /\ Io.others (add_timer i p ms cb now) = Io.others i.
Proof.
  intros H. unfold add_timer, Io.onTimerInsertedAtFront, Io.tickle. case_tests; (split; [by apply (IoInv.io_inv_same i) | done]).
Qed.

Lemma add_timer_timers i p ms cb now : Io.timers (add_timer i p ms cb now) = Tm.addTimer (Io.timers i) p ms (Some cb) false now.
Proof. unfold add_timer, Io.onTimerInsertedAtFront, Io.tickle. by case_tests. Qed.

(** A successful [addEvent] in terms of the descriptor's context. *)
Lemma addEvent_spec who s f event c :
  IoInv.io_inv s -> 0 <= f -> IoInv.event_ok event -> IoInv.who_ok who c ->
  (forall p x, Io.ctxs s !! p = Some x -> Io.fd x = f -> Io.has (Io.events x) event = false) ->
  exists s' p x, Io.addEvent false who s f event c = Ok (0, s') /\ IoInv.io_inv s' /\ Io.fd x = f
    /\ Io.ctxs s' !! p = Some (IoInv.added x event (IoInv.slot_for who c))
    /\ (forall k, IoInv.tasks_on s' k = IoInv.tasks_on s k) /\ Io.timers s' = Io.timers s.
Proof.
  intros H Hf He Hw Hfree. unfold Io.addEvent.
  assert (Hgo : exists s1 p x, (o ← Io.find_context s f; match o with Some p => Ok (p, s) | None => Io.grow_context s f end) = Ok (p, s1)
    /\ IoInv.io_inv s1 /\ Io.ctxs s1 !! p = Some x /\ Io.fd x = f /\ Io.has (Io.events x) event = false
    /\ Io.base s1 = Io.base s /\ Io.others s1 = Io.others s /\ Io.timers s1 = Io.timers s).
  { destruct (IoInv.find_context_spec s f H Hf) as [(p & x & E & Hp & Hx) | (E & Hlen)]; rewrite E; simpl.
    - exists s, p, x. split_and!; try done. by eapply Hfree.
    - destruct (IoInv.grow_spec s f H Hlen) as (p & x & s1 & E1 & Hp & Hx & H1 & H0 & _ & _ & Hb & Ho & Ht). exists s1, p, x.
      split_and!; try done. by rewrite H0. }
  destruct Hgo as (s1 & p & x & E & H1 & Hp & Hx & Hh & Hb & Ho & Ht). subst f.
  destruct (IoInv.addEvent_locked_spec s1 who p x event c H1 Hp He Hh Hw) as (s2 & E2 & H2 & Hc & Hb2 & Ho2 & Ht2).
  exists s2, p, x. split_and!; try done; [| | | congruence].
  - destruct (Io.find_context s (Io.fd x)) as [o|]; simpl in *; [| done]. rewrite E. done.
  - rewrite Hc. apply list_lookup_insert_eq. by eapply lookup_lt_Some.
  - intros [|k]; unfold IoInv.tasks_on; [by rewrite Hb2, Hb | by rewrite Ho2, Ho].
Qed.

(** ** A small example *)

Definition demo_fstat (f : Z) : option bool := if f =? 70 then Some true else Some false.

Definition demo_fds : Fd.state :=
  match (s ← Fd.socket_hook demo_fstat true (Fd.new_FdManager ∅) 70;
         Fd.setsockopt_timeo demo_fstat true s 70 Fd.SOL_SOCKET Fd.SO_RCVTIMEO 2 500000) with
  | Ok s => s | Fail _ => Fd.new_FdManager ∅ end.

Lemma demo_fds_at : Fd.m_datas demo_fds !! 70%nat = Some (Some 0%nat)
  /\ Fd.ctxs demo_fds !! 0%nat = Some (Fd.mkCtx true true true false false 70 2500 UINT64_MAX).
Proof. split; vm_compute; reflexivity. Qed.

Lemma demo_fds_inv : Fd.inv demo_fds.
Proof.
  destruct (Fd.create_spec demo_fstat (Fd.new_FdManager ∅) 70 (Fd.new_FdManager_inv ∅)) as (p & s & E & H & _);
    [lia | vm_compute; reflexivity |].
  assert (Es : exists c, Fd.ctxs s = [c] /\ demo_fds = Fd.put s 0 (Fd.setTimeout c Fd.SO_RCVTIMEO 2500))
    by (injection E as <- <-; eexists; split; vm_compute; reflexivity).
  destruct Es as (c & Ec & ->). destruct H as [H1 H2 H3]. split; simpl; [done | | done].
  intros i q Hi. destruct (H2 i q Hi) as (c' & Hc' & Hr). rewrite Ec in *. destruct q as [|q]; [| done].
  simpl in Hc'. simplify_eq. eexists. split; [reflexivity |]. done.
Qed.

Definition demo_hook : hook := mkHook demo_io demo_fds ∅ 0.

(** A read that is interrupted once and would then block. *)
Definition demo_parked : hook :=
  match do_io true false demo_fstat demo_who demo_hook (read_call 70) 1 9 5 100 [(-1, EINTR); (-1, EAGAIN)] with
  | Ok (_, h) => h | Fail _ => demo_hook end.

Lemma demo_io_inv : IoInv.io_inv demo_io.
Proof. exact (new_IOManager_inv _ _ _ _ demo_io_new). Qed.

Lemma demo_parked_inv : IoInv.io_inv (io demo_parked).
Proof.
  apply (addEvent_inv false demo_who (add_timer demo_io 9 2500 (Tm.CondCb 1 5) 100) 70 Io.READ None 0).
  - by apply add_timer_inv, demo_io_inv.
  - lia.
  - by left.
  - by split; eauto.
  - apply demo_free. vm_compute. reflexivity.
  - vm_compute. reflexivity.
Qed.

Definition demo_slot : Io.FdContext :=
  Io.mkFd 70 Io.null_EC (Io.mkEC (Some 0%nat) (Some 40%nat) None) Io.READ.

Lemma demo_parked_at : Io.ctxs (io demo_parked) !! 70%nat = Some demo_slot.
Proof. vm_compute. reflexivity. Qed.

Lemma demo_timers_inv : Tm.inv (Io.timers (io demo_parked)).
Proof.
  assert (E : Io.timers (io demo_parked) = Tm.addTimer (Tm.new_TimerManager 100) 9 2500 (Some (Tm.CondCb 1 5)) false 100)
    by (vm_compute; reflexivity).
  rewrite E. apply Tm.addTimer_inv; [apply Tm.new_TimerManager_inv | done].
Qed.

(** ** Claims *)

(** The hooks hide non-blocking mode: whatever status flags the application
    sets on a hooked socket with [fcntl], [fcntl] reads back exactly those, while
    the kernel keeps the socket non-blocking so that no hooked call can block
    the thread. *)
Theorem nonblocking_is_hidden fstat s fd p c arg :
  Fd.inv s -> 0 <= fd -> Fd.m_datas s !! Z.to_nat fd = Some (Some p) -> Fd.ctxs s !! p = Some c ->
  Fd.m_isSocket c = true -> Fd.m_isClosed c = false ->
  exists s', Fd.fcntl_SETFL fstat s fd arg = Ok s' /\ Fd.inv s'
    /\ Fd.fcntl_GETFL fstat s' fd = Ok arg /\ Fd.nonblock (Fd.flags s' fd) = true.
Proof.
  intros H Hfd Hd Hp Hs Hcl. destruct (Fd.inv_ctx s H _ _ Hd) as (c' & Hc' & Hf & Hsys & _). simplify_eq.
  unfold Fd.fcntl_SETFL. rewrite (Fd.hooked_spec fstat s fd p c) by done. simpl. rewrite Hsys, Hs.
  set (s' := Fd.set_kflags (Fd.put s p (Fd.setUserNonblock c (Fd.nonblock arg))) (<[fd := Z.lor arg Fd.O_NONBLOCK]> (Fd.kflags s))).
  assert (H' : Fd.inv s') by (apply fd_put_inv; try done; apply Fd.nonblock_lor).
  assert (Hfl : Fd.flags s' fd = Z.lor arg Fd.O_NONBLOCK) by (unfold Fd.flags, s'; simpl; by rewrite lookup_insert_eq).
  exists s'. split; [done | split; [done | split]].
  - unfold Fd.fcntl_GETFL. rewrite (Fd.hooked_spec fstat s' fd p (Fd.setUserNonblock c (Fd.nonblock arg))); try done;
      [| apply list_lookup_insert_eq; by eapply lookup_lt_Some].
    simpl. rewrite Hfl. destruct (Fd.nonblock arg) eqn:E; f_equal.
    + rewrite <- Z.lor_assoc, Z.lor_diag. by apply lor_nonblock.
    + rewrite ldiff_lor_nonblock. by apply ldiff_nonblock.
  - rewrite Hfl. apply Fd.nonblock_lor.
Qed.

(** C5: a hooked call whose timer fires returns -1 with ETIMEDOUT: the timer's
    callback hands the waiting fiber to its scheduler exactly once and
    unregisters the event, a second run of the callback does nothing, and the
    resumed call makes no further system call. *)
Theorem timed_out_call_fails_once h c k q x s0 :
  IoInv.io_inv (io h) -> tinfos h !! k = Some 0 ->
  Io.ctxs (io h) !! q = Some x -> Io.fd x = c_fd c -> IoInv.event_ok (c_event c) ->
  Io.has (Io.events x) (c_event c) = true -> Io.scheduler (IoInv.slot x (c_event c)) = Some s0 ->
  exists h1, on_timer false h k (c_fd c) (c_event c) = Ok h1
    /\ tinfos h1 !! k = Some ETIMEDOUT /\ IoInv.io_inv (io h1)
    /\ Io.ctxs (io h1) = <[q := IoInv.cleared x (c_event c)]> (Io.ctxs (io h))
    /\ (forall j, IoInv.tasks_on (io h1) j
          = IoInv.tasks_on (io h) j ++ (if decide (j = s0) then [IoInv.task_of (IoInv.slot x (c_event c))] else []))
    /\ on_timer false h1 k (c_fd c) (c_event c) = Ok h1
    /\ (forall refuse who timeout p tick now script timer,
          match timer with Some a => Tm.inv (Io.timers (io h1)) /\ is_Some (Tm.heap (Io.timers (io h1)) !! a) | None => True end ->
          exists h2, resume refuse who h1 c k timer timeout p tick now script = Ok (Returned (-1), h2)
            /\ errno h2 = ETIMEDOUT /\ tinfos h2 !! k = None).
Proof.
  intros Hinv Hk Hq Hx He Hh Hs.
  destruct (cancelEvent_spec (io h) (c_fd c) (c_event c) q x Hinv Hq Hx He Hh) as (i & E & Hi & Hc & T).
  unfold on_timer at 1. rewrite Hk. simpl. rewrite E. simpl. eexists. split; [reflexivity |].
  assert (Hk1 : <[k := ETIMEDOUT]> (tinfos h) !! k = Some ETIMEDOUT) by apply lookup_insert_eq.
  split; [done | split; [done | split; [done | split; [| split]]]]; simpl.
  - intros j. rewrite T, given_to_one by done. f_equal. rewrite Hs. case_decide; case_bool_decide; congruence.
  - unfold on_timer. simpl. by rewrite Hk1.
  - intros refuse who timeout p tick now script timer Ht. unfold resume.
    assert (Hct : exists i', cancel_timer (mkHook i (fds h) (<[k := ETIMEDOUT]> (tinfos h)) (errno h)) timer
      = Ok (mkHook i' (fds h) (<[k := ETIMEDOUT]> (tinfos h)) (errno h))).
    { destruct timer as [a|]; [| by exists i]. destruct Ht as [Ht [t Ha]].
      destruct (cancel_timer_spec (mkHook i (fds h) (<[k := ETIMEDOUT]> (tinfos h)) (errno h)) a t Ht Ha) as (tm & Et & _).
      eexists. exact Et. }
    destruct Hct as [i' Hct]. change (set_io _ i) with (mkHook i (fds h) (<[k := ETIMEDOUT]> (tinfos h)) (errno h)).
    rewrite Hct. rewrite bind_Ok. cbn [tinfos]. rewrite Hk1. simpl. eexists. split; [reflexivity |]. simpl.
    split; [done | apply lookup_delete_eq].
Qed.

Lemma timed_out_call_fails_once_witness :
  exists h1, on_timer false demo_parked 1 70 Io.READ = Ok h1 /\ IoInv.tasks_on (io h1) 0 = [Sc.mkFT (Some 40%nat) None (-1)].
Proof.
  destruct (timed_out_call_fails_once demo_parked (read_call 70) 1 70 demo_slot 0 demo_parked_inv) as (h1 & E & _ & _ & _ & T & _);
    [vm_compute; reflexivity | exact demo_parked_at | reflexivity | by left | reflexivity | reflexivity |].
  exists h1. split; [exact E |]. rewrite T. vm_compute. reflexivity.
Defined.

(** A hooked call woken by its event cancels its timer for good and tries
    again: whatever the timers do afterwards, the cancelled one is not due; the
    call returns the system call's answer after the interruptions, with its
    errno, unless that would still block. *)
Theorem woken_call_retries refuse who h c k a t timeout p tick now n e script :
  Tm.inv (Io.timers (io h)) -> Tm.heap (Io.timers (io h)) !! a = Some t -> Tm.m_cb t <> None ->
  tinfos h !! k = Some 0 -> skip_eintr script = Some (n, e) -> (n = -1 -> e <> EAGAIN) ->
  exists h', resume refuse who h c k (Some a) timeout p tick now script = Ok (Returned n, h')
    /\ errno h' = e /\ tinfos h' !! k = None
    /\ Tm.dead (Io.timers (io h')) a
    /\ (forall m, rtc Tm.step (Io.timers (io h')) m -> Tm.dead m a)
    /\ Io.ctxs (io h') = Io.ctxs (io h).
Proof.
  intros Hinv Ha Hcb Hk Hscript Hblock.
  destruct (cancel_timer_spec h a t Hinv Ha) as (tm & E & Htm & Hdead). specialize (Hdead Hcb).
  unfold resume. rewrite E. rewrite bind_Ok. cbn [tinfos set_io]. rewrite Hk. simpl. unfold attempt. rewrite Hscript.
  destruct ((n =? -1) && (e =? EAGAIN)) eqn:Eb; [to_props; subst; by destruct Hblock |].
  eexists. split; [reflexivity |]. simpl. split; [done | split; [apply lookup_delete_eq | split; [done | split; [| done]]]].
  intros m Hr. assert (Hgen : forall x y, rtc Tm.step x y -> Tm.inv x -> Tm.dead x a -> Tm.dead y a).
  { induction 1 as [| x y z Hst _ IH]; [done |]. intros Hi Hd. apply IH; [by eapply Tm.step_inv | by eapply Tm.step_dead]. }
  by eapply Hgen.
Qed.

(** A call on a hooked socket that would block parks its fiber with
    everything in place to wake it: the event is registered for this fiber and
    scheduler, its timer is armed exactly when the descriptor has a timeout, and
    nothing else is queued; a call that is not hooked - hooks off, no context,
    not a socket, or made non-blocking by the application - is the system call
    itself. *)
Theorem blocking_call_parks fstat who h c k p tick now script e q ctx :
  IoInv.io_inv (io h) -> Fd.inv (fds h) -> 0 <= c_fd c -> IoInv.event_ok (c_event c) -> IoInv.who_ok who None ->
  (forall r x, Io.ctxs (io h) !! r = Some x -> Io.fd x = c_fd c -> Io.has (Io.events x) (c_event c) = false) ->
  Fd.m_datas (fds h) !! Z.to_nat (c_fd c) = Some (Some q) -> Fd.ctxs (fds h) !! q = Some ctx -> Fd.m_isClosed ctx = false ->
  skip_eintr script = Some (-1, e) -> e = EAGAIN ->
  (if Fd.m_isSocket ctx && negb (Fd.m_userNonblock ctx) then
     let to := Fd.getTimeout ctx (c_so c) in
     exists h' r x, do_io true false fstat who h c k p tick now script
         = Ok (Waiting k (if to =? UINT64_MAX then None else Some p) to, h')
       /\ IoInv.io_inv (io h') /\ Io.fd x = c_fd c
       /\ Io.ctxs (io h') !! r = Some (IoInv.added x (c_event c) (Io.mkEC (Io.this_scheduler who) (Some (Io.this_fiber who)) None))
       /\ tinfos h' !! k = Some 0 /\ (forall j, IoInv.tasks_on (io h') j = IoInv.tasks_on (io h) j)
       /\ Io.timers (io h') = (if to =? UINT64_MAX then Io.timers (io h)
                               else Tm.addTimer (Io.timers (io h)) p to (Some (Tm.CondCb k tick)) false now)
   else do_io true false fstat who h c k p tick now script = plain h script)
  /\ do_io false false fstat who h c k p tick now script = plain h script.
Proof.
  intros Hio Hfd Hf He Hw Hfree Hd Hq Hcl Hscript ->. split; [| done]. unfold do_io. simpl.
  pose proof (Fd.get_spec fstat (fds h) (c_fd c) false Hfd Hf) as Hg. rewrite Hd in Hg. simpl in Hg. rewrite Hg. simpl.
  rewrite Hq. simpl. rewrite Hcl.
  destruct (Fd.m_isSocket ctx), (Fd.m_userNonblock ctx); simpl; try (by destruct h).
  unfold attempt. rewrite Hscript. simpl. set (to := Fd.getTimeout ctx (c_so c)).
  set (i := if to =? UINT64_MAX then io h else add_timer (io h) p to (Tm.CondCb k tick) now).
  assert (Hi : IoInv.io_inv i /\ Io.ctxs i = Io.ctxs (io h) /\ Io.base i = Io.base (io h) /\ Io.others i = Io.others (io h)).
  { unfold i. destruct (to =? UINT64_MAX); [done |]. by apply add_timer_inv. }
  destruct Hi as (Hi & Hic & Hib & Hio').
  destruct (addEvent_spec who i (c_fd c) (c_event c) None Hi Hf He Hw) as (s' & r & x & E & Hs' & Hx & Hr & T & Ht); [by rewrite Hic |].
  assert (Eio : io match (if to =? UINT64_MAX then None else Some p) with
        | Some p0 => set_io (set_errno (set_tinfos (set_fds h (fds h)) (<[k := 0]> (tinfos h))) EAGAIN)
                       (add_timer (io h) p0 to (Tm.CondCb k tick) now)
        | None => set_errno (set_tinfos (set_fds h (fds h)) (<[k := 0]> (tinfos h))) EAGAIN
        end = i) by (unfold i; by destruct (to =? UINT64_MAX)).
  rewrite Eio, E. simpl. exists (set_io (match (if to =? UINT64_MAX then None else Some p) with
        | Some p0 => set_io (set_errno (set_tinfos (set_fds h (fds h)) (<[k := 0]> (tinfos h))) EAGAIN)
                       (add_timer (io h) p0 to (Tm.CondCb k tick) now)
        | None => set_errno (set_tinfos (set_fds h (fds h)) (<[k := 0]> (tinfos h))) EAGAIN
        end) s'), r, x. simpl. split_and!; try done.
  - destruct (to =? UINT64_MAX); simpl; apply lookup_insert_eq.
  - intros j. rewrite T. unfold IoInv.tasks_on. destruct j; [by rewrite Hib | by rewrite Hio'].
  - rewrite Ht. unfold i. destruct (to =? UINT64_MAX); [done | apply add_timer_timers].
Qed.

(** ** Where the hooks fall short *)

(** [ioctl(FIONBIO)] with 0 reaches the kernel unchanged: the hooked socket is
    then blocking although its context says otherwise. *)
Theorem ioctl_unhides_blocking :
  match Fd.ioctl_FIONBIO demo_fstat demo_fds 70 0 with
  | Ok s => Fd.nonblock (Fd.flags s 70) = false /\ Fd.m_sysNonblock <$> Fd.ctxs s !! 0%nat = Some true
  | Fail _ => False
  end.
Proof. vm_compute. done. Qed.

(** A timeout of zero, which POSIX gives the meaning of no timeout, makes a
    blocked call time out at once. *)
Theorem zero_timeout_is_immediate :
  match Fd.setsockopt_timeo demo_fstat true demo_fds 70 Fd.SOL_SOCKET Fd.SO_RCVTIMEO 0 0 with
  | Ok s => (fun c => Fd.getTimeout c Fd.SO_RCVTIMEO) <$> Fd.ctxs s !! 0%nat = Some 0
  | Fail _ => False
  end.
Proof. vm_compute. reflexivity. Qed.

(** [sleep] multiplies in 32 bits: 4294968 seconds become 704 milliseconds. *)
Theorem sleep_wraps : sleep_ms 4294968 = 704.
Proof. reflexivity. Qed.
