(* ===== verification/HookCalls.v ===== *)
(** The rest of sylar/hook.cc: how [fcntl], [ioctl], [getsockopt] and [setsockopt] pass
    calls on, the enabling of the hooks, and the timeout that [connect] takes from the
    configuration. *)

From stdpp Require Import gmap.
From S2P Require Import Prelude Timer IOManager FdManager Hook.

Module Hc.

Local Open Scope Z_scope.

(** ** fcntl *)

(** The commands, as Linux numbers them. *)
Definition F_DUPFD := 0.
Definition F_GETFD := 1.
Definition F_SETFD := 2.
Definition F_GETFL := 3.
Definition F_SETFL := 4.
Definition F_GETLK := 5.
Definition F_SETLK := 6.
Definition F_SETLKW := 7.
Definition F_SETOWN := 8.
Definition F_GETOWN := 9.
Definition F_SETSIG := 10.
Definition F_GETSIG := 11.
Definition F_SETOWN_EX := 15.
Definition F_GETOWN_EX := 16.
Definition F_SETLEASE := 1024.
Definition F_GETLEASE := 1025.
Definition F_NOTIFY := 1026.
Definition F_DUPFD_CLOEXEC := 1030.
Definition F_SETPIPE_SZ := 1031.
Definition F_GETPIPE_SZ := 1032.

(** A variable argument: an [int] or a pointer. *)
Inductive arg := AInt (v : Z) | APtr (p : nat).

(** What the kernel is called with. *)
Inductive kcall := KFcntl (cmd : Z) (a : option arg) | KIoctl (request : Z) (p : nat) | KGetsockopt | KSetsockopt.

(** The branches of the switch that only pass on. *)
Inductive branch := BInt | BNone | BFlock | BOwner | BDefault.

Definition branch_of (cmd : Z) : branch :=
  if bool_decide (cmd ∈ [F_DUPFD; F_DUPFD_CLOEXEC; F_SETFD; F_SETOWN; F_SETSIG; F_SETLEASE; F_NOTIFY; F_SETPIPE_SZ]) then BInt
  else if bool_decide (cmd ∈ [F_GETFD; F_GETOWN; F_GETSIG; F_GETLEASE; F_GETPIPE_SZ]) then BNone
  else if bool_decide (cmd ∈ [F_SETLK; F_SETLKW; F_GETLK]) then BFlock
  else if bool_decide (cmd ∈ [F_GETOWN_EX; F_SETOWN_EX]) then BOwner
  else BDefault.

(** [va_arg] of the type that was passed; another type, or an argument that was not
    passed, is undefined. *)
Definition va_int (a : option arg) : outcome Z := match a with Some (AInt v) => Ok v | _ => Fail Indeterminate end.
Definition va_ptr (a : option arg) : outcome nat := match a with Some (APtr p) => Ok p | _ => Fail Indeterminate end.

Section hooks.
Context (fstat : Z -> option bool).

(** The call of the kernel, what the flag commands return in place of the kernel, and
    the contexts. *)
Definition fcntl (s : Fd.state) (fd cmd : Z) (a : option arg) : outcome (kcall * option Z * Fd.state) :=
  if cmd =? F_SETFL then
    v ← va_int a;
    s ← Fd.fcntl_SETFL fstat s fd v;
    Ok (KFcntl cmd (Some (AInt (Fd.flags s fd))), None, s)
  else if cmd =? F_GETFL then
    r ← Fd.fcntl_GETFL fstat s fd;
    Ok (KFcntl cmd None, Some r, s)
  else match branch_of cmd with
  | BInt => v ← va_int a; Ok (KFcntl cmd (Some (AInt v)), None, s)
  | BNone => Ok (KFcntl cmd None, None, s)
  | BFlock | BOwner => p ← va_ptr a; Ok (KFcntl cmd (Some (APtr p)), None, s)
  | BDefault => Ok (KFcntl cmd None, None, s)
  end.

(** ** ioctl and the socket options *)

Definition FIONBIO := 0x5421.

(** [target]: what the pointer points to, read for [FIONBIO] only. *)
Definition ioctl (s : Fd.state) (d request : Z) (p : nat) (target : Z) : outcome (kcall * Fd.state) :=
  if FIONBIO =? request then s ← Fd.ioctl_FIONBIO fstat s d target; Ok (KIoctl request p, s)
  else Ok (KIoctl request p, s).

Definition getsockopt (s : Fd.state) : kcall * Fd.state := (KGetsockopt, s).

Definition setsockopt (enabled : bool) (s : Fd.state) (fd level optname sec usec : Z) : outcome (kcall * Fd.state) :=
  s ← Fd.setsockopt_timeo fstat enabled s fd level optname sec usec; Ok (KSetsockopt, s).

(** ** connect *)

(** [s_connect_timeout]: the configured [int] as a [uint64_t], at the start and after
    each change; -1 is no timeout. *)
Definition connect_timeout (v : Z) : Z := u64 v.

Definition connect (enabled refuse : bool) (who : Io.caller) (h : Hk.hook) (configured fd : Z) (k p tick : nat) (now : Z)
    (answer : Z * Z) (so_error : option Z) : outcome (Hk.connect_progress * Hk.hook) :=
  Hk.connect_begin enabled refuse fstat who h fd (connect_timeout configured) k p tick now answer so_error.
End hooks.

(** ** Enabling *)

(** [t_hook_enable], per thread *)
Definition set_hook_enable (t : gmap nat bool) (thread : nat) (flag : bool) : gmap nat bool := <[thread := flag]> t.
Definition is_hook_enable (t : gmap nat bool) (thread : nat) : bool := default false (t !! thread).

End Hc.

Import Hc.
Local Open Scope Z_scope.

(** The commands that the switch names reach the kernel as they were made, and no
    context changes. *)
Theorem fcntl_passes_through fstat s fd cmd a :
  cmd <> F_SETFL -> cmd <> F_GETFL ->
  match branch_of cmd, a with BInt, Some (AInt _) | BFlock, Some (APtr _) | BOwner, Some (APtr _) | BNone, None => True | _, _ => False end ->
  fcntl fstat s fd cmd a = Ok (KFcntl cmd a, None, s).
Proof.
  intros H1 H2 Ha. unfold fcntl. destruct (Z.eqb_spec cmd F_SETFL); [done |]. destruct (Z.eqb_spec cmd F_GETFL); [done |].
  destruct (branch_of cmd), a as [[]|]; done.
Qed.

(** A command that it does not name loses its argument: adding seals, and the locks of
    open file descriptions. *)
Theorem fcntl_default_drops fstat s fd cmd a :
  cmd ∈ [1033; 36; 37; 38] -> fcntl fstat s fd cmd a = Ok (KFcntl cmd None, None, s).
Proof. intros Hc. repeat (apply elem_of_cons in Hc as [-> | Hc]; [reflexivity |]). by apply not_elem_of_nil in Hc. Qed.

(** The flags that [fcntl] sets are those that it reads, while the kernel keeps a hooked
    socket non-blocking, and the kernel is told so. *)
Theorem fcntl_flags_kept fstat s fd p c v :
  Fd.hooked fstat s fd = Ok (Some (p, c)) -> Fd.m_sysNonblock c = true ->
  exists s', fcntl fstat s fd F_SETFL (Some (AInt v)) = Ok (KFcntl F_SETFL (Some (AInt (Z.lor v Fd.O_NONBLOCK))), None, s').
Proof.
  intros Hh Hs. unfold fcntl. cbn [Z.eqb va_int]. unfold Fd.fcntl_SETFL. change (F_SETFL =? F_SETFL) with true. cbn. rewrite Hh. cbn. rewrite Hs.
  eexists. unfold Fd.flags. cbn. by rewrite lookup_insert_eq.
Qed.

(** A configured timeout of -1 is none, and another negative one is a very long one. *)
Theorem negative_connect_timeout : connect_timeout (-1) = UINT64_MAX /\ connect_timeout (-2) = UINT64_MAX - 1.
Proof. done. Qed.
