(* ===== verification/Strs.v ===== *)
(** Byte strings: prefixes and suffixes of [std::string], characters as bytes,
    and the lemmas on them that the text components share. *)

From stdpp Require Import strings.
From Stdlib Require Import Ascii.
From S2P Require Import Prelude.

#[local] Arguments String.append !_ _ /.

Fixpoint str_take (n : nat) (s : string) : string :=
  match n, s with
  | S n, String c s => String c (str_take n s)
  | _, _ => ""%string
  end.

Fixpoint str_drop (n : nat) (s : string) : string :=
  match n, s with
  | S n, String c s => str_drop n s
  | _, _ => s
  end.

(** [s] with [c] appended. *)
Definition str_snoc (s : string) (c : ascii) : string := (s ++ String c "")%string.

(** Does [c] occur in [s]? *)
Fixpoint str_mem (c : ascii) (s : string) : bool :=
  match s with
  | ""%string => false
  | String x s => Ascii.eqb x c || str_mem c s
  end.

Fixpoint str_forall (f : ascii -> bool) (s : string) : bool :=
  match s with
  | ""%string => true
  | String x s => f x && str_forall f s
  end.

(** ** Lemmas on strings *)

Lemma take_drop_str n s : (str_take n s ++ str_drop n s)%string = s.
Proof. revert s. induction n as [| n IH]; intros [| c s]; simpl; try done. by rewrite IH. Qed.

Lemma length_str_app a b : String.length (a ++ b) = (String.length a + String.length b)%nat.
Proof. induction a as [| c a IH]; simpl; [done |]. by rewrite IH. Qed.

Lemma length_str_take n s : String.length (str_take n s) = min n (String.length s).
Proof. revert s. induction n as [| n IH]; intros [| c s]; simpl; try done. by rewrite IH. Qed.

Lemma length_str_drop n s : String.length (str_drop n s) = (String.length s - n)%nat.
Proof. revert s. induction n as [| n IH]; intros [| c s]; simpl; try done. Qed.

Lemma str_app_assoc a b c : ((a ++ b) ++ c = a ++ (b ++ c))%string.
Proof. induction a as [| x a IH]; simpl; [done |]. by rewrite IH. Qed.

Lemma str_app_nil a : (a ++ "")%string = a.
Proof. induction a as [| x a IH]; simpl; [done |]. by rewrite IH. Qed.

Lemma str_take_app n a b : str_take n (a ++ b) = (str_take n a ++ str_take (n - String.length a) b)%string.
Proof. revert a. induction n as [| n IH]; intros [| c a]; simpl; try done. by rewrite IH. Qed.

Lemma str_drop_app n a b : str_drop n (a ++ b) = (str_drop n a ++ str_drop (n - String.length a) b)%string.
Proof.
  revert a. induction n as [| n IH]; intros [| c a]; simpl; try done.
Qed.

Lemma str_take_ge n s : (String.length s <= n)%nat -> str_take n s = s.
Proof. revert s. induction n as [| n IH]; intros [| c s] H; simpl in *; try done; [lia |]. rewrite IH by lia. done. Qed.

Lemma str_drop_ge n s : (String.length s <= n)%nat -> str_drop n s = ""%string.
Proof. revert s. induction n as [| n IH]; intros [| c s] H; simpl in *; try done; [lia |]. by rewrite IH by lia. Qed.

Lemma str_drop_drop a b s : str_drop a (str_drop b s) = str_drop (b + a) s.
Proof. revert s. induction b as [| b IH]; intros [| c s]; simpl; try done. by destruct a. Qed.

Lemma str_nonempty s : s <> ""%string <-> (0 < String.length s)%nat.
Proof. destruct s; simpl; split; intros; try done; lia. Qed.

Lemma str_app_snoc a c b : (String.append (String.append a (String c "")) b = String.append a (String c b)).
Proof. induction a as [| x a IH]; simpl; [done |]. by rewrite IH. Qed.

Lemma str_forall_app f a b : str_forall f (a ++ b) = str_forall f a && str_forall f b.
Proof. induction a as [| x a IH]; simpl; [done |]. by rewrite IH, andb_assoc. Qed.

Lemma str_forall_impl (f g : ascii -> bool) s :
  (forall c, f c = true -> g c = true) -> str_forall f s = true -> str_forall g s = true.
Proof.
  intros H. induction s as [| x s IH]; simpl; [done |]. intros [Hx Hs]%andb_true_iff. by rewrite (H x Hx), (IH Hs).
Qed.

(** Both sides of an equation of texts as right-nested appends. *)
Ltac str_norm := repeat progress (rewrite ?str_app_assoc; cbn [String.append]).

(** What holds of every byte by computation holds. *)
Lemma ascii_all (f : ascii -> bool) :
  forallb (fun n => f (ascii_of_nat n)) (seq 0 256) = true -> forall c, f c = true.
Proof.
  intros H c. rewrite forallb_forall in H. rewrite <- (ascii_nat_embedding c). apply H, in_seq.
  pose proof (nat_ascii_bounded c). lia.
Qed.
