(* ===== verification/Cnum.v ===== *)
(** Numbers in text: [atoi] and [strtol] of the C library, which the parsers
    apply to the digits they have found, and decimal printing read back. *)

From stdpp Require Import strings pretty.
From Stdlib Require Import Ascii.
From S2P Require Import Prelude Strs.

Module Cn.

Local Open Scope Z_scope.

(** [isspace] in the C locale. *)
Definition isspace (c : ascii) : bool :=
  let n := nat_of_ascii c in ((9 <=? n) && (n <=? 13) || (n =? 32))%nat.

Fixpoint skip_space (s : string) : string :=
  match s with
  | ""%string => ""%string
  | String c s' => if isspace c then skip_space s' else s
  end.

(** The value of a digit in a base of at most 36. *)
Definition digit_of (base : Z) (c : ascii) : option Z :=
  let n := Z.of_nat (nat_of_ascii c) in
  let v := if (48 <=? n) && (n <=? 57) then n - 48
           else if (65 <=? n) && (n <=? 90) then n - 55
           else if (97 <=? n) && (n <=? 122) then n - 87 else 36 in
  if v <? base then Some v else None.

(** The digits at the front of [s]. *)
Fixpoint digits (base : Z) (s : string) (acc : Z) : Z :=
  match s with
  | ""%string => acc
  | String c s => match digit_of base c with Some d => digits base s (acc * base + d) | None => acc end
  end.

(** A prefix 0x is skipped in base 16 when a digit follows it. *)
Definition skip_prefix (base : Z) (s : string) : string :=
  match s with
  | String "0" (String x (String c s')) =>
      if (base =? 16) && (Ascii.eqb x "x" || Ascii.eqb x "X") && bool_decide (is_Some (digit_of base c))
      then String c s' else s
  | _ => s
  end.

(** The number at the front of [s], without bound. *)
Definition number (base : Z) (s : string) : Z :=
  match skip_space s with
  | String "-" s => - digits base (skip_prefix base s) 0
  | String "+" s => digits base (skip_prefix base s) 0
  | s => digits base (skip_prefix base s) 0
  end.

(** [strtol(s, NULL, base)] stops at the limits of [long]. *)
Definition strtol (s : string) (base : Z) : Z := Z.max (- 2 ^ 63) (Z.min (2 ^ 63 - 1) (number base s)).

(** [atoi] is undefined when the number does not fit an [int]. *)
Definition atoi (s : string) : outcome Z :=
  let v := number 10 s in
  if (- 2 ^ 31 <=? v) && (v <? 2 ^ 31) then Ok v else Fail SignedOverflow.

(** ** Lemmas *)

Definition is_digit (base : Z) (c : ascii) : bool := bool_decide (is_Some (digit_of base c)).

(** What follows the digits does not matter when it does not start with one. *)
Definition ends_number (base : Z) (s : string) : Prop :=
  match s with ""%string => True | String c _ => digit_of base c = None end.

Lemma digits_app base a b acc :
  str_forall (is_digit base) a = true -> ends_number base b -> digits base (a ++ b) acc = digits base a acc.
Proof.
  revert acc. induction a as [| c a IH]; intros acc Ha Hb; simpl.
  - destruct b as [| c b]; simpl in *; [done |]. by rewrite Hb.
  - simpl in Ha. apply andb_true_iff in Ha as [Hc Ha]. apply bool_decide_eq_true in Hc as [d ->]. auto.
Qed.

Lemma digits_snoc base a c acc d :
  str_forall (is_digit base) a = true -> digit_of base c = Some d ->
  digits base (a ++ String c "") acc = digits base a acc * base + d.
Proof.
  revert acc. induction a as [| x a IH]; intros acc Ha Hc; simpl; [by rewrite Hc |].
  simpl in Ha. apply andb_true_iff in Ha as [Hx Ha]. apply bool_decide_eq_true in Hx as [y ->]. auto.
Qed.

(** Digits are neither spaces nor signs. *)
Lemma digit_no_space c : is_digit 10 c = true -> isspace c = false /\ c <> "-"%char /\ c <> "+"%char /\ c <> "x"%char.
Proof. destruct c as [[] [] [] [] [] [] [] []]; vm_compute; intros; split_and!; congruence. Qed.

Lemma skip_prefix_10 s : skip_prefix 10 s = s.
Proof. destruct s as [| [[] [] [] [] [] [] [] []] [| x [| c s]]]; done. Qed.

Lemma number_digits a b :
  a <> ""%string -> str_forall (is_digit 10) a = true -> ends_number 10 b -> number 10 (a ++ b) = digits 10 a 0.
Proof.
  intros Hne Ha Hb. rewrite <- (digits_app 10 a b 0) by done. unfold number.
  destruct a as [| c a]; [done |]. simpl in Ha. apply andb_true_iff in Ha as [Hc _].
  destruct (digit_no_space c Hc) as (Hs & H1 & H2 & _).
  change ((String c a ++ b)%string) with (String c (a ++ b)). cbn [skip_space]. rewrite Hs.
  destruct (ascii_dec c "-") as [->|Hm]; [done |]. destruct (ascii_dec c "+") as [->|Hp]; [done |].
  destruct c as [[] [] [] [] [] [] [] []]; rewrite ?skip_prefix_10; done.
Qed.

(** [std::to_string] of a number that is not negative, read back. *)
Lemma digit_pretty n : (n < 10)%N -> digit_of 10 (pretty_N_char n) = Some (Z.of_N n).
Proof.
  intros H. assert (Hin : In n [0; 1; 2; 3; 4; 5; 6; 7; 8; 9]%N) by (simpl; lia).
  revert Hin. clear H. simpl. intros Hin. repeat destruct Hin as [<- | Hin]; done.
Qed.

Lemma pretty_go_digits n s :
  (0 < n)%N -> exists a, pretty_N_go n s = (a ++ s)%string /\ a <> ""%string
    /\ str_forall (is_digit 10) a = true /\ digits 10 a 0 = Z.of_N n.
Proof.
  revert s. induction (N.lt_wf_0 n) as [n _ IH]. intros s Hn. rewrite pretty_N_go_step by lia.
  set (c := pretty_N_char (n mod 10)).
  assert (Hd : digit_of 10 c = Some (Z.of_N (n mod 10))) by (apply digit_pretty, N.mod_lt; lia).
  assert (Hq : str_forall (is_digit 10) (String c "") = true).
  { cbn [str_forall]. rewrite andb_true_r. by apply bool_decide_eq_true; rewrite Hd. }
  pose proof (N.div_mod n 10 ltac:(lia)) as Hdm. clearbody c. destruct (decide (n / 10 = 0)%N) as [E|E].
  - rewrite E, pretty_N_go_0. exists (String c ""). split_and!; try done. cbn [digits]. rewrite Hd. clear IH. by rewrite Hdm at 2; rewrite E.
  - destruct (IH (n / 10)%N ltac:(apply N.div_lt; lia) (String c s) ltac:(apply N.neq_0_lt_0, E)) as (a & -> & Hne & Ha & Hv).
    exists (a ++ String c "")%string. rewrite str_app_snoc, str_forall_app, Ha, Hq. split_and!; try done.
    + by destruct a.
    + rewrite (digits_snoc _ _ _ _ _ Ha Hd), Hv, <- (N2Z.inj_mul _ 10), <- N2Z.inj_add, N.mul_comm. by rewrite <- Hdm.
Qed.

Lemma pretty_digits n :
  exists a, pretty n = a /\ a <> ""%string /\ str_forall (is_digit 10) a = true /\ digits 10 a 0 = Z.of_N n.
Proof.
  unfold pretty, pretty_N. case_decide as E; [subst; by exists "0"%string |].
  destruct (pretty_go_digits n "" ltac:(lia)) as (a & -> & Hne & Ha & Hv). exists a. by rewrite str_app_nil.
Qed.

End Cn.
