(* ===== verification/Address.v ===== *)
(** Socket addresses, sylar/address.h and address.cc: the address structures as
    the C library lays them out, the classes around them, the masks, the
    printed forms, the order, and the look-up of names over [getaddrinfo]. *)

From stdpp Require Import strings pretty.
From Stdlib Require Import Ascii.
From S2P Require Import Prelude Strs Endian.

Module Ad.

Local Open Scope Z_scope.
#[local] Arguments String.append !_ _ /.

Definition AF_UNSPEC : Z := 0.
Definition AF_UNIX : Z := 1.
Definition AF_INET : Z := 2.
Definition AF_INET6 : Z := 10.

(** The size of [sun_path]. *)
Definition SUN_PATH : nat := 108.

(** Bytes as a string and back. *)
Fixpoint bytes_of (s : string) : list Z :=
  match s with ""%string => [] | String c s => Z.of_nat (nat_of_ascii c) :: bytes_of s end.

Fixpoint string_of (l : list Z) : string :=
  match l with [] => ""%string | b :: l => String (ascii_of_nat (Z.to_nat b)) (string_of l) end.

(** ** Structures

    Integer fields hold the value of the C field; numbers in network byte order
    are stored swapped. *)

Record sockaddr_in := mkIn { sin_family : Z; sin_port : Z; s_addr : Z; sin_zero : list Z }.
Record sockaddr_in6 := mkIn6 { sin6_family : Z; sin6_port : Z; sin6_flowinfo : Z; s6_addr : list Z; sin6_scope_id : Z }.

Inductive Address :=
  | IPv4Address (m_addr : sockaddr_in)
  | IPv6Address (m_addr : sockaddr_in6)
  | UnixAddress (sun_path : list Z) (m_length : Z)
  | UnKnownAddress (sa_family : Z) (sa_data : list Z).

(** ** Masks *)

(** [CreateMask<T>] for a [T] of [w] bits: the shift and the subtraction are
    done on [int]. *)
Definition CreateMask (policy : overflow_policy) (w : Z) (bits : Z) : outcome Z :=
  let k := u64 (w - bits) in
  if 31 <? k then Fail ShiftTooFar
  else if k =? 31 then match policy with Strict => Fail SignedOverflow | Wrapv => Ok (wrap w (2 ^ 31 - 1)) end
  else Ok (wrap w (2 ^ k - 1)).

(** [CountBytes]: [value &= value - 1] until nothing is left. *)
Fixpoint CountBytes (fuel : nat) (value : Z) (result : Z) : outcome Z :=
  if value =? 0 then Ok result else
  match fuel with
  | O => Fail OutOfFuel
  | S fuel => CountBytes fuel (Z.land value (value - 1)) (u32 (result + 1))
  end.

Section host.
Context (host : Z) (policy : overflow_policy).

Abbreviation swap := (byteswapOnLittleEndian host).

(** ** In memory *)

Definition bytes_in (a : sockaddr_in) : list Z :=
  mem_bytes host 2 (sin_family a) ++ mem_bytes host 2 (sin_port a) ++ mem_bytes host 4 (s_addr a) ++ sin_zero a.

Definition bytes_in6 (a : sockaddr_in6) : list Z :=
  mem_bytes host 2 (sin6_family a) ++ mem_bytes host 2 (sin6_port a) ++ mem_bytes host 4 (sin6_flowinfo a) ++ s6_addr a
  ++ mem_bytes host 4 (sin6_scope_id a).

(** The bytes behind [getAddr], [getAddrLen] of them. *)
Definition getAddr (a : Address) : list Z :=
  match a with
  | IPv4Address a => bytes_in a
  | IPv6Address a => bytes_in6 a
  | UnixAddress path _ => mem_bytes host 2 AF_UNIX ++ path
  | UnKnownAddress f d => mem_bytes host 2 f ++ d
  end.

Definition getAddrLen (a : Address) : Z :=
  match a with
  | IPv4Address _ => 16
  | IPv6Address _ => 28
  | UnixAddress _ n => n
  | UnKnownAddress _ _ => 16
  end.

Definition getFamily (a : Address) : Z := mem_val host (take 2 (getAddr a)).

(** Reading a structure at an address. *)
Definition field (bs : list Z) (off n : nat) : Z := mem_val host (take n (drop off bs)).

Definition read_in (bs : list Z) : sockaddr_in := mkIn (field bs 0 2) (field bs 2 2) (field bs 4 4) (take 8 (drop 8 bs)).

Definition read_in6 (bs : list Z) : sockaddr_in6 :=
  mkIn6 (field bs 0 2) (field bs 2 2) (field bs 4 4) (take 16 (drop 8 bs)) (field bs 24 4).

(** [Address::Create]: a null pointer, or the bytes it points to. *)
Definition Create (addr : option (list Z)) : option Address :=
  match addr with
  | None => None
  | Some bs =>
      let family := field bs 0 2 in
      Some (if family =? AF_INET then IPv4Address (read_in bs)
            else if family =? AF_INET6 then IPv6Address (read_in6 bs)
            else UnKnownAddress family (take 14 (drop 2 bs)))
  end.

(** ** Order *)

(** [memcmp] of two byte strings of the same length. *)
Fixpoint memcmp (a b : list Z) : comparison :=
  match a, b with
  | x :: a, y :: b => match x ?= y with Eq => memcmp a b | c => c end
  | _, _ => Eq
  end.

Definition less (a b : Address) : bool :=
  let minlen := Z.to_nat (Z.min (getAddrLen a) (getAddrLen b)) in
  match memcmp (take minlen (getAddr a)) (take minlen (getAddr b)) with
  | Lt => true
  | Gt => false
  | Eq => getAddrLen a <? getAddrLen b
  end.

Definition equal (a b : Address) : bool :=
  (getAddrLen a =? getAddrLen b)
  && match memcmp (take (Z.to_nat (getAddrLen a)) (getAddr a)) (take (Z.to_nat (getAddrLen a)) (getAddr b)) with Eq => true | _ => false end.

(** ** IPv4 *)

(** [IPv4Address(uint32_t address, uint32_t port)]: the port is swapped as the
    four-byte number it is declared as and then stored in two bytes. *)
Definition new_IPv4Address (address port : Z) : sockaddr_in :=
  mkIn AF_INET (u16 (swap 4 port)) (swap 4 address) (repeat 0 8).

(** [IPv4Address::Create]; [inet_pton] gives the four bytes it stores. *)
Definition Create4 (inet_pton : string -> option (list Z)) (address : string) (port : Z) : option sockaddr_in :=
  let rt := new_IPv4Address 0 0 in
  let rt := mkIn (sin_family rt) (swap 2 port) (s_addr rt) (sin_zero rt) in
  match inet_pton address with
  | None => None
  | Some bs => Some (mkIn (sin_family rt) (sin_port rt) (mem_val host bs) (sin_zero rt))
  end.

Definition dec (v : Z) : string := pretty (Z.to_N v).

Definition insert4 (a : sockaddr_in) : string :=
  let addr := swap 4 (s_addr a) in
  (dec (Z.land (Z.shiftr addr 24) 255) ++ "." ++ dec (Z.land (Z.shiftr addr 16) 255) ++ "."
   ++ dec (Z.land (Z.shiftr addr 8) 255) ++ "." ++ dec (Z.land addr 255) ++ ":" ++ dec (swap 2 (sin_port a)))%string.

Definition set_s_addr (a : sockaddr_in) v := mkIn (sin_family a) (sin_port a) v (sin_zero a).

Definition broadcastAddress4 (a : sockaddr_in) (prefix_len : Z) : outcome (option sockaddr_in) :=
  if 32 <? prefix_len then Ok None else
  m ← CreateMask policy 32 prefix_len;
  Ok (Some (set_s_addr a (Z.lor (s_addr a) (swap 4 m)))).

Definition networkAddress4 (a : sockaddr_in) (prefix_len : Z) : outcome (option sockaddr_in) :=
  if 32 <? prefix_len then Ok None else
  m ← CreateMask policy 32 prefix_len;
  Ok (Some (set_s_addr a (Z.land (s_addr a) (swap 4 m)))).

Definition subnetMask4 (prefix_len : Z) : outcome sockaddr_in :=
  m ← CreateMask policy 32 prefix_len;
  Ok (mkIn AF_INET 0 (u32 (Z.lnot (swap 4 m))) (repeat 0 8)).

Definition getPort4 (a : sockaddr_in) : Z := swap 2 (sin_port a).
Definition setPort4 (a : sockaddr_in) (v : Z) : sockaddr_in := mkIn (sin_family a) (swap 2 v) (s_addr a) (sin_zero a).

(** ** IPv6 *)

Definition new_IPv6Address : sockaddr_in6 := mkIn6 AF_INET6 0 0 (repeat 0 16) 0.

Definition new_IPv6Address_bytes (address : list Z) (port : Z) : sockaddr_in6 :=
  mkIn6 AF_INET6 (u16 (swap 4 port)) 0 (take 16 address) 0.

(** [IPv6Address::Create] asks [inet_pton] for an IPv4 address, whose four bytes
    go to the front of the sixteen. *)
Definition Create6 (inet_pton4 : string -> option (list Z)) (address : string) (port : Z) : option sockaddr_in6 :=
  match inet_pton4 address with
  | None => None
  | Some bs => Some (mkIn6 AF_INET6 (swap 2 port) 0 (bs ++ drop (length bs) (repeat 0 16)) 0)
  end.

(** [os << std::hex << v] *)
Definition hex_char (d : Z) : ascii := ascii_of_nat (Z.to_nat (if d <? 10 then 48 + d else 87 + d)).

Fixpoint hex_go (n : nat) (v : Z) (acc : string) : string :=
  match n with
  | O => acc
  | S n => let acc := String (hex_char (v mod 16)) acc in if v / 16 =? 0 then acc else hex_go n (v / 16) acc
  end.

Definition hex (v : Z) : string := hex_go 8 v "".

(** The sixteen bytes as eight [uint16_t]. *)
Fixpoint groups (l : list Z) : list Z :=
  match l with
  | a :: b :: l => mem_val host [a; b] :: groups l
  | _ => []
  end.

(** The loop of [insert] from group [i] on; [prev] is the group before. *)
Fixpoint insert_groups (i : nat) (prev : Z) (addr : list Z) (used_zeros : bool) (os : string) : string * bool :=
  match addr with
  | [] => (os, used_zeros)
  | g :: addr =>
      if (g =? 0) && negb used_zeros then insert_groups (S i) g addr used_zeros os
      else
        let '(os, used_zeros) :=
          if negb (i =? 0)%nat && (prev =? 0) && negb used_zeros then ((os ++ ":")%string, true) else (os, used_zeros) in
        let os := if negb (i =? 0)%nat then (os ++ ":")%string else os in
        insert_groups (S i) g addr used_zeros (os ++ hex (swap 2 g))
  end.

Definition insert6 (a : sockaddr_in6) : string :=
  let addr := groups (s6_addr a) in
  let '(os, used_zeros) := insert_groups 0 0 addr false "[" in
  let os := if negb used_zeros && (default 0 (addr !! 7%nat) =? 0) then (os ++ "::")%string else os in
  (os ++ "]:" ++ dec (swap 2 (sin6_port a)))%string.

(** [s6_addr[i] = f(s6_addr[i])] *)
Definition update_byte (l : list Z) (i : Z) (f : Z -> Z) : outcome (list Z) :=
  match l !! Z.to_nat i with
  | Some b => Ok (<[Z.to_nat i := u8 (f b)]> l)
  | None => Fail OutOfBounds
  end.

(** The bytes from [i] on set to [v]. *)
Definition fill_from (l : list Z) (i : nat) (v : Z) : list Z := take i l ++ repeat v (length l - i).

Definition set_s6_addr (a : sockaddr_in6) v := mkIn6 (sin6_family a) (sin6_port a) (sin6_flowinfo a) v (sin6_scope_id a).

Definition broadcastAddress6 (a : sockaddr_in6) (prefix_len : Z) : outcome sockaddr_in6 :=
  m ← CreateMask policy 8 (prefix_len mod 8);
  l ← update_byte (s6_addr a) (prefix_len / 8) (fun b => Z.lor b m);
  Ok (set_s6_addr a (fill_from l (Z.to_nat (prefix_len / 8 + 1)) 255)).

Definition networkAddress6 (a : sockaddr_in6) (prefix_len : Z) : outcome sockaddr_in6 :=
  m ← CreateMask policy 8 (prefix_len mod 8);
  l ← update_byte (s6_addr a) (prefix_len / 8) (fun b => Z.land b m);
  Ok (set_s6_addr a (fill_from l (Z.to_nat (prefix_len / 8 + 1)) 0)).

Definition subnetMask6 (prefix_len : Z) : outcome sockaddr_in6 :=
  m ← CreateMask policy 8 (prefix_len mod 8);
  l ← update_byte (repeat 0 16) (prefix_len / 8) (fun _ => Z.lnot m);
  Ok (mkIn6 AF_INET6 0 0 (repeat 255 (Z.to_nat (prefix_len / 8)) ++ drop (Z.to_nat (prefix_len / 8)) l) 0).

Definition getPort6 (a : sockaddr_in6) : Z := swap 2 (sin6_port a).
Definition setPort6 (a : sockaddr_in6) (v : Z) : sockaddr_in6 :=
  mkIn6 (sin6_family a) (swap 2 v) (sin6_flowinfo a) (s6_addr a) (sin6_scope_id a).

(** ** Unix and unknown addresses *)

Definition UNIX_OFFSET : Z := 2.

Definition new_UnixAddress : Address := UnixAddress (repeat 0 SUN_PATH) (UNIX_OFFSET + Z.of_nat SUN_PATH - 1).

Definition new_UnixAddress_path (path : string) : outcome Address :=
  let n := Z.of_nat (String.length path) + 1 in
  let n := match path with String "000" _ => n - 1 | _ => n end in
  if Z.of_nat SUN_PATH <? n then Fail LogicError else
  let bs := take (Z.to_nat n) (bytes_of path ++ [0]) in
  Ok (UnixAddress (bs ++ repeat 0 (SUN_PATH - length bs)) (n + UNIX_OFFSET)).

(** [os << path]: up to the first NUL. *)
Fixpoint c_string (l : list Z) : string :=
  match l with
  | [] => ""%string
  | b :: l => if b =? 0 then ""%string else String (ascii_of_nat (Z.to_nat b)) (c_string l)
  end.

Definition insert_unix (path : list Z) (m_length : Z) : string :=
  if (UNIX_OFFSET <? m_length) && (default 1 (head path) =? 0)
  then ("\0" ++ string_of (take (Z.to_nat (m_length - UNIX_OFFSET - 1)) (drop 1 path)))%string
  else c_string path.

Definition toString (a : Address) : string :=
  match a with
  | IPv4Address a => insert4 a
  | IPv6Address a => insert6 a
  | UnixAddress path n => insert_unix path n
  | UnKnownAddress f _ => ("[UnknownAddress family=" ++ dec f ++ "]")%string
  end.

(** ** Look-up *)

(** [memchr(s, c, n)] in a string: the position. *)
Fixpoint find_char (c : ascii) (s : string) : option nat :=
  match s with
  | ""%string => None
  | String x s => if Ascii.eqb x c then Some 0%nat else S <$> find_char c s
  end.

(** How [Lookup] splits its argument into the node and the service. *)
Definition split_host (host_ : string) : string * option string :=
  let '(node, service) :=
    match host_ with
    | String "[" rest =>
        match find_char "]" rest with
        | Some k =>
            (str_take k rest,
             match str_drop (S k) rest with String ":" s => Some s | _ => None end)
        | None => (""%string, None)
        end
    | _ => (""%string, None)
    end in
  let '(node, service) :=
    if String.eqb node "" then
      match find_char ":" host_ with
      | Some k =>
          let after := str_drop (S k) host_ in
          match find_char ":" after with
          | None => (str_take k host_, Some after)
          | Some _ => (node, Some (str_drop k host_))
          end
      | None => (node, None)
      end
    else (node, service) in
  (if String.eqb node "" then host_ else node, service).

Section lookup.
(** [getaddrinfo] with the family, type and protocol asked for: the addresses of
    its list, or an error. *)
Context (getaddrinfo : string -> option string -> option (list (list Z))).

Definition Lookup (host_ : string) : option (list Address) :=
  let '(node, service) := split_host host_ in
  match getaddrinfo node service with
  | None => None
  | Some l =>
      let result := omap (fun bs => Create (Some bs)) l in
      match result with [] => None | _ => Some result end
  end.

Definition LookupAny (host_ : string) : option Address :=
  match Lookup host_ with Some (a :: _) => Some a | _ => None end.

Definition is_ip (a : Address) : bool := match a with IPv4Address _ | IPv6Address _ => true | _ => false end.

Definition LookupAnyIPAddress (host_ : string) : option Address :=
  match Lookup host_ with Some l => List.find is_ip l | None => None end.
End lookup.

(** [IPAddress::setPort] *)
Definition setPort (a : Address) (v : Z) : Address :=
  match a with
  | IPv4Address a => IPv4Address (setPort4 a v)
  | IPv6Address a => IPv6Address (setPort6 a v)
  | a => a
  end.

(** [IPAddress::Create]: the first address that [getaddrinfo] gives for a
    numeric host. *)
Definition CreateIP (getaddrinfo : string -> option (list Z)) (address : string) (port : Z) : option Address :=
  match getaddrinfo address with
  | None => None
  | Some bs => match Create (Some bs) with
               | Some a => if is_ip a then Some (setPort a port) else None
               | None => None
               end
  end.

(** ** Interfaces *)

(** An entry of [getifaddrs]: a name, an address that may be missing and the
    netmask. *)
Record ifaddr := mkIf { ifa_name : string; ifa_addr : option (list Z); ifa_netmask : list Z }.

Fixpoint count_all (l : list Z) (acc : Z) : outcome Z :=
  match l with
  | [] => Ok acc
  | b :: l => n ← CountBytes 8 b 0; count_all l (u32 (acc + n))
  end.

(** The loop of [GetInterfaceAddresses]. *)
Fixpoint interface_loop (family : Z) (l : list ifaddr) : outcome (list (string * (Address * Z))) :=
  match l with
  | [] => Ok []
  | i :: l =>
      bs ← of_ptr (ifa_addr i);
      let f := field bs 0 2 in
      if negb (family =? AF_UNSPEC) && negb (family =? f) then interface_loop family l else
      if f =? AF_INET then
        n ← CountBytes 32 (field (ifa_netmask i) 4 4) 0;
        rest ← interface_loop family l;
        Ok ((ifa_name i, (IPv4Address (read_in bs), n)) :: rest)
      else if f =? AF_INET6 then
        n ← count_all (take 16 (drop 8 (ifa_netmask i))) 0;
        rest ← interface_loop family l;
        Ok ((ifa_name i, (IPv6Address (read_in6 bs), n)) :: rest)
      else interface_loop family l
  end.

(** [GetInterfaceAddresses(result, iface, family)]; [ifs] is what [getifaddrs]
    gives, or its error. *)
Definition GetInterfaceAddresses (ifs : option (list ifaddr)) (iface : string) (family : Z) : outcome (option (list (Address * Z))) :=
  if String.eqb iface "" || String.eqb iface "*" then
    Ok (Some ((if (family =? AF_INET) || (family =? AF_UNSPEC) then [(IPv4Address (new_IPv4Address 0 0), 0)] else [])
              ++ (if (family =? AF_INET6) || (family =? AF_UNSPEC) then [(IPv6Address new_IPv6Address, 0)] else [])))
  else
    match ifs with
    | None => Ok None
    | Some l =>
        results ← interface_loop family l;
        match snd <$> List.filter (fun e => String.eqb e.1 iface) results with
        | [] => Ok None
        | found => Ok (Some found)
        end
    end.

End host.

End Ad.
