(* ===== verification/AddressProps.v ===== *)
(** Addresses: what the masks, the printed forms and the order come to. *)

From stdpp Require Import strings pretty.
From Stdlib Require Import Ascii.
From S2P Require Import Prelude Strs Endian Address.

Import Ad.
Local Open Scope Z_scope.
#[local] Arguments String.append !_ _ /.

(** ** Bits of swapped numbers *)

Lemma le_val_testbit bs i :
  Forall is_byte bs -> 0 <= i ->
  Z.testbit (le_val bs) i = match bs !! Z.to_nat (i / 8) with Some b => Z.testbit b (i mod 8) | None => false end.
Proof.
  intros H. revert i. induction H as [| b bs Hb _ IH]; intros i Hi; [apply Z.testbit_0_l |].
  cbn [le_val]. unfold is_byte in Hb. destruct (Z.lt_ge_cases i 8) as [Hlt|Hge].
  - rewrite (Z.div_small i 8), (Z.mod_small i 8) by lia. cbn.
    transitivity (Z.testbit ((b + 256 * le_val bs) mod 2 ^ 8) i); [by rewrite Z.mod_pow2_bits_low by lia |].
    change (2 ^ 8) with 256. by rewrite (Z.mul_comm 256), Z_mod_plus_full, Z.mod_small by lia.
  - assert (E : Z.to_nat (i / 8) = S (Z.to_nat ((i - 8) / 8))).
    { replace i with ((i - 8) + 1 * 8) at 1 by lia. rewrite Z.div_add by lia. pose proof (Z.div_pos (i - 8) 8). lia. }
    rewrite E. cbn [lookup list_lookup]. transitivity (Z.testbit (le_val bs) (i - 8)).
    + transitivity (Z.testbit ((b + 256 * le_val bs) / 2 ^ 8) (i - 8)).
      { rewrite Z.div_pow2_bits by lia. f_equal. lia. }
      change (2 ^ 8) with 256. by rewrite (Z.mul_comm 256), Z.div_add, Z.div_small by lia.
    + rewrite IH by lia. replace ((i - 8) mod 8) with (i mod 8); [reflexivity |].
      replace i with ((i - 8) + 1 * 8) at 1 by lia. by rewrite Z_mod_plus_full.
Qed.

Lemma le_bytes_lookup n v k : (k < n)%nat -> le_bytes n v !! k = Some ((v / 2 ^ (8 * Z.of_nat k)) mod 256).
Proof.
  revert v k. induction n as [| n IH]; intros v [| k] Hk; try lia; cbn [le_bytes lookup list_lookup].
  - by rewrite Z.div_1_r.
  - change (le_bytes n (v / 256) !! k = Some ((v / 2 ^ (8 * Z.of_nat (S k))) mod 256)).
    rewrite IH by lia. rewrite Z.div_div by (try apply Z.pow_pos_nonneg; lia). by rewrite pow256_S.
Qed.

Lemma bswap_testbit n v i :
  0 <= i < 8 * Z.of_nat n -> Z.testbit (bswap n v) i = Z.testbit v (8 * (Z.of_nat n - 1 - i / 8) + i mod 8).
Proof.
  intros Hi. unfold bswap. rewrite le_val_testbit; [| apply Forall_rev, le_bytes_bytes | lia].
  pose proof (Z.div_pos i 8 ltac:(lia) ltac:(lia)). assert (i / 8 < Z.of_nat n) by (apply Z.div_lt_upper_bound; lia).
  assert (E : rev (le_bytes n v) !! Z.to_nat (i / 8) = le_bytes n v !! (n - S (Z.to_nat (i / 8)))%nat).
  { rewrite rev_alt. change (rev_append (le_bytes n v) []) with (reverse (le_bytes n v)).
    rewrite reverse_lookup by (rewrite length_le_bytes; lia). by rewrite length_le_bytes. }
  rewrite E, le_bytes_lookup by lia. pose proof (Z.mod_pos_bound i 8 ltac:(lia)).
  change 256 with (2 ^ 8). rewrite Z.mod_pow2_bits_low, Z.div_pow2_bits by lia. f_equal. lia.
Qed.

Lemma testbit_above w v i : in_unsigned w v -> w <= i -> Z.testbit v i = false.
Proof.
  intros [H1 H2] Hi. destruct (Z.eq_dec v 0) as [-> |]; [apply Z.testbit_0_l |].
  apply Z.bits_above_log2; [done |]. enough (Z.log2 v < w) by lia. apply Z.log2_lt_pow2; lia.
Qed.

(** Swapping commutes with the bitwise operations. *)
Lemma bswap_land n a b : bswap n (Z.land a b) = Z.land (bswap n a) (bswap n b).
Proof.
  apply Z.bits_inj'. intros i Hi. rewrite Z.land_spec. destruct (Z.lt_ge_cases i (8 * Z.of_nat n)).
  - by rewrite !bswap_testbit, Z.land_spec by lia.
  - by rewrite !(testbit_above (8 * Z.of_nat n)) by (auto using bswap_range; lia).
Qed.

Lemma bswap_lor n a b : bswap n (Z.lor a b) = Z.lor (bswap n a) (bswap n b).
Proof.
  apply Z.bits_inj'. intros i Hi. rewrite Z.lor_spec. destruct (Z.lt_ge_cases i (8 * Z.of_nat n)).
  - by rewrite !bswap_testbit, Z.lor_spec by lia.
  - by rewrite !(testbit_above (8 * Z.of_nat n)) by (auto using bswap_range; lia).
Qed.

Section host.
Context (host : Z).
Abbreviation swap := (byteswapOnLittleEndian host).

Lemma swap_involutive n v : in_unsigned (8 * Z.of_nat n) v -> swap n (swap n v) = v.
Proof. intros. unfold byteswapOnLittleEndian, byteswap. case_tests; [done |]. by apply bswap_involutive. Qed.

Lemma swap_lor n a b : swap n (Z.lor a b) = Z.lor (swap n a) (swap n b).
Proof. unfold byteswapOnLittleEndian, byteswap. case_tests; [done |]. apply bswap_lor. Qed.

Lemma swap_land n a b : swap n (Z.land a b) = Z.land (swap n a) (swap n b).
Proof. unfold byteswapOnLittleEndian, byteswap. case_tests; [done |]. apply bswap_land. Qed.

(** ** IPv4 masks *)

(** The address as a number. *)
Definition ip (a : sockaddr_in) : Z := swap 4 (s_addr a).

(** The mask of the host part. *)
Lemma mask4 policy p : 2 <= p <= 32 -> CreateMask policy 32 p = Ok (Z.ones (32 - p)).
Proof.
  intros Hp. unfold CreateMask. assert (E : u64 (32 - p) = 32 - p) by (apply wrap_small; unfold in_unsigned; lia). rewrite E.
  destruct (Z.ltb_spec 31 (32 - p)); [lia |]. destruct (Z.eqb_spec (32 - p) 31); [lia |].
  rewrite Z.ones_equiv. f_equal. rewrite <- Z.sub_1_r. apply wrap_small. unfold in_unsigned.
  pose proof (Z.pow_pos_nonneg 2 (32 - p)). assert (2 ^ (32 - p) <= 2 ^ 32) by (apply Z.pow_le_mono_r; lia). lia.
Qed.

Lemma ones_range p : 2 <= p <= 32 -> in_unsigned 32 (Z.ones (32 - p)).
Proof.
  intros Hp. unfold in_unsigned. rewrite Z.ones_equiv. pose proof (Z.pow_pos_nonneg 2 (32 - p)).
  assert (2 ^ (32 - p) <= 2 ^ 32) by (apply Z.pow_le_mono_r; lia). lia.
Qed.

Lemma ones_bit p i : 2 <= p <= 32 -> 0 <= i -> Z.testbit (Z.ones (32 - p)) i = (i <? 32 - p).
Proof.
  intros Hp Hi. destruct (Z.ltb_spec i (32 - p)); [apply Z.ones_spec_low; lia | apply Z.ones_spec_high; lia].
Qed.

Lemma swap_mask p : 2 <= p <= 32 -> swap 4 (swap 4 (Z.ones (32 - p))) = Z.ones (32 - p).
Proof. intros Hp. apply swap_involutive. by apply ones_range. Qed.

Lemma broadcast4_bits policy a p i :
  2 <= p <= 32 -> 0 <= i ->
  exists b, broadcastAddress4 host policy a p = Ok (Some b) /\ Z.testbit (ip b) i = ((i <? 32 - p) || Z.testbit (ip a) i)
    /\ sin_port b = sin_port a.
Proof.
  intros Hp Hi. unfold broadcastAddress4. destruct (Z.ltb_spec 32 p); [lia |]. rewrite mask4 by done. cbn [mbind outcome_bind].
  eexists. split_and!; [reflexivity | | reflexivity]. unfold ip. cbn [s_addr set_s_addr].
  rewrite swap_lor, swap_mask, Z.lor_spec, ones_bit by done. apply orb_comm.
Qed.

(** [networkAddress] keeps the host part and clears the network. *)
Theorem network_is_host_part policy a p i :
  2 <= p <= 32 -> 0 <= i ->
  exists b, networkAddress4 host policy a p = Ok (Some b) /\ Z.testbit (ip b) i = ((i <? 32 - p) && Z.testbit (ip a) i).
Proof.
  intros Hp Hi. unfold networkAddress4. destruct (Z.ltb_spec 32 p); [lia |]. rewrite mask4 by done. cbn [mbind outcome_bind].
  eexists. split; [reflexivity |]. unfold ip. cbn [s_addr set_s_addr].
  rewrite swap_land, swap_mask, Z.land_spec, ones_bit by done. apply andb_comm.
Qed.

(** The subnet masks, one by one. *)
Definition subnet_ok (h : Z) (p : Z) : bool :=
  match subnetMask4 h Strict p with
  | Ok m => (byteswapOnLittleEndian h 4 (s_addr m) =? 2 ^ 32 - 2 ^ (32 - p))
            && bool_decide (CountBytes 32 (s_addr m) 0 = Ok p)
  | Fail _ => false
  end.

Lemma subnets_ok : forallb (fun p => subnet_ok 1 (Z.of_nat p) && subnet_ok 2 (Z.of_nat p)) (seq 2 31) = true.
Proof. vm_compute. reflexivity. Qed.

Lemma swap_cases n v : byteswapOnLittleEndian host n v = byteswapOnLittleEndian 2 n v \/ byteswapOnLittleEndian host n v = byteswapOnLittleEndian 1 n v.
Proof. unfold byteswapOnLittleEndian. destruct (host =? SYLAR_BIG_ENDIAN); auto. Qed.

Lemma subnet_host policy p : 2 <= p <= 32 -> exists h, (h = 1 \/ h = 2) /\ subnetMask4 host policy p = subnetMask4 h Strict p
  /\ forall n v, swap n v = byteswapOnLittleEndian h n v.
Proof.
  intros Hp. exists (if host =? SYLAR_BIG_ENDIAN then 2 else 1). split; [by destruct (_ =? _); auto |].
  assert (E : forall n v, swap n v = byteswapOnLittleEndian (if host =? SYLAR_BIG_ENDIAN then 2 else 1) n v).
  { intros n v. unfold byteswapOnLittleEndian. by destruct (host =? SYLAR_BIG_ENDIAN). }
  split; [| exact E]. unfold subnetMask4. rewrite !mask4 by done. cbn [mbind outcome_bind]. by rewrite E.
Qed.

Lemma subnet4_value policy p :
  2 <= p <= 32 ->
  exists m, subnetMask4 host policy p = Ok m /\ ip m = 2 ^ 32 - 2 ^ (32 - p) /\ CountBytes 32 (s_addr m) 0 = Ok p.
Proof.
  intros Hp. destruct (subnet_host policy p Hp) as (h & Hh & -> & Es). pose proof subnets_ok as H. rewrite forallb_forall in H.
  specialize (H (Z.to_nat p) ltac:(apply in_seq; lia)). rewrite Z2Nat.id in H by lia. apply andb_true_iff in H as [H1 H2].
  assert (H : subnet_ok h p = true) by by destruct Hh as [-> | ->]. clear H1 H2. unfold subnet_ok in H.
  destruct (subnetMask4 h Strict p) as [m|]; [| done]. exists m. apply andb_true_iff in H as [H1%Z.eqb_eq H2%bool_decide_eq_true].
  split_and!; [done | | done]. unfold ip. by rewrite Es.
Qed.

End host.

(** ** IPv6 masks *)

(** Bit [j] of an address of sixteen bytes, counted from the front. *)
Definition bit6 (l : list Z) (j : Z) : bool := Z.testbit (default 0 (l !! Z.to_nat (j / 8))) (7 - j mod 8).

Lemma mask8 policy b : 0 <= b < 8 -> CreateMask policy 8 b = Ok (Z.ones (8 - b)).
Proof.
  intros Hb. unfold CreateMask. assert (E : u64 (8 - b) = 8 - b) by (apply wrap_small; unfold in_unsigned; lia). rewrite E.
  destruct (Z.ltb_spec 31 (8 - b)); [lia |]. destruct (Z.eqb_spec (8 - b) 31); [lia |].
  rewrite Z.ones_equiv. f_equal. rewrite <- Z.sub_1_r. apply wrap_small. unfold in_unsigned.
  pose proof (Z.pow_pos_nonneg 2 (8 - b)). assert (2 ^ (8 - b) <= 2 ^ 8) by (apply Z.pow_le_mono_r; lia). lia.
Qed.

Lemma u8_testbit v i : 0 <= i < 8 -> Z.testbit (u8 v) i = Z.testbit v i.
Proof. intros. unfold u8, wrap. apply Z.mod_pow2_bits_low. lia. Qed.

(** One byte changed and the ones behind it filled. *)
Lemma masked_lookup l p f v :
  length l = 16%nat -> 0 <= p < 128 ->
  exists l', update_byte l (p / 8) f = Ok l'
    /\ forall j, 0 <= j < 128 ->
       default 0 (fill_from l' (Z.to_nat (p / 8 + 1)) v !! Z.to_nat (j / 8))
       = if j / 8 <? p / 8 then default 0 (l !! Z.to_nat (j / 8))
         else if j / 8 =? p / 8 then u8 (f (default 0 (l !! Z.to_nat (p / 8)))) else v.
Proof.
  intros Hl Hp. unfold update_byte. pose proof (Z.div_pos p 8). assert (p / 8 < 16) by (apply Z.div_lt_upper_bound; lia).
  destruct (lookup_lt_is_Some_2 l (Z.to_nat (p / 8))) as [b Hb]; [lia |]. rewrite Hb. eexists. split; [reflexivity |].
  intros j Hj. pose proof (Z.div_pos j 8). assert (j / 8 < 16) by (apply Z.div_lt_upper_bound; lia). unfold fill_from.
  set (l' := <[_ := _]> l). assert (Hl' : length l' = 16%nat) by (unfold l'; by rewrite length_insert).
  destruct (Z.ltb_spec (j / 8) (p / 8)) as [Hlt|Hge]; [| destruct (Z.eqb_spec (j / 8) (p / 8)) as [He|Hne]].
  - rewrite lookup_app_l by (rewrite length_take; lia). rewrite lookup_take_lt by lia. unfold l'. by rewrite list_lookup_insert_ne by lia.
  - rewrite lookup_app_l by (rewrite length_take; lia). rewrite lookup_take_lt by lia. rewrite He. unfold l'.
    rewrite list_lookup_insert_eq by lia. reflexivity.
  - rewrite lookup_app_r by (rewrite length_take; lia). rewrite length_take.
    destruct (repeat v _ !! _) as [x|] eqn:E; [| apply lookup_ge_None_1 in E; rewrite repeat_length in E; lia].
    apply list_elem_of_lookup_2, list_elem_of_In, repeat_spec in E. by subst x.
Qed.

(** The position of a bit in the byte where the prefix ends. *)
Lemma prefix_bits p j : j / 8 = p / 8 -> (7 - j mod 8 <? 8 - p mod 8) = (p <=? j).
Proof.
  intros He. pose proof (Z.div_mod p 8). pose proof (Z.div_mod j 8).
  destruct (Z.ltb_spec (7 - j mod 8) (8 - p mod 8)), (Z.leb_spec p j); lia.
Qed.

Lemma broadcast6_bits policy a p :
  length (s6_addr a) = 16%nat -> 0 <= p < 128 ->
  exists b, broadcastAddress6 policy a p = Ok b
    /\ forall j, 0 <= j < 128 -> bit6 (s6_addr b) j = ((p <=? j) || bit6 (s6_addr a) j).
Proof.
  intros Hl Hp. pose proof (Z.mod_pos_bound p 8 ltac:(lia)). unfold broadcastAddress6. rewrite mask8 by done. cbn [mbind outcome_bind].
  destruct (masked_lookup (s6_addr a) p (fun b => Z.lor b (Z.ones (8 - p mod 8))) 255 Hl Hp) as (l' & -> & Hbit). cbn [mbind outcome_bind].
  eexists. split; [reflexivity |]. intros j Hj. unfold bit6. cbn [s6_addr set_s6_addr]. rewrite Hbit by done.
  pose proof (Z.mod_pos_bound j 8 ltac:(lia)). pose proof (Z.div_mod p 8). pose proof (Z.div_mod j 8).
  destruct (Z.ltb_spec (j / 8) (p / 8)) as [Hlt|Hge]; [| destruct (Z.eqb_spec (j / 8) (p / 8)) as [He|Hne]].
  - destruct (Z.leb_spec p j); [lia | done].
  - rewrite u8_testbit, Z.lor_spec, He by lia. rewrite <- (prefix_bits p j He), orb_comm. f_equal.
    destruct (Z.ltb_spec (7 - j mod 8) (8 - p mod 8)); [apply Z.ones_spec_low; lia | apply Z.ones_spec_high; lia].
  - destruct (Z.leb_spec p j); [| lia]. change 255 with (Z.ones 8). by rewrite Z.ones_spec_low by lia.
Qed.

Lemma subnet6_bits policy p :
  0 <= p < 128 ->
  exists b, subnetMask6 policy p = Ok b /\ forall j, 0 <= j < 128 -> bit6 (s6_addr b) j = (j <? p).
Proof.
  intros Hp. pose proof (Z.mod_pos_bound p 8 ltac:(lia)). unfold subnetMask6. rewrite mask8 by done. cbn [mbind outcome_bind].
  pose proof (Z.div_pos p 8). assert (p / 8 < 16) by (apply Z.div_lt_upper_bound; lia).
  unfold update_byte. destruct (lookup_lt_is_Some_2 (repeat 0 16) (Z.to_nat (p / 8))) as [b Hb]; [rewrite repeat_length; lia |].
  rewrite Hb. cbn [mbind outcome_bind]. eexists. split; [reflexivity |]. intros j Hj. unfold bit6. cbn [s6_addr].
  pose proof (Z.mod_pos_bound j 8 ltac:(lia)). pose proof (Z.div_mod p 8). pose proof (Z.div_mod j 8).
  pose proof (Z.div_pos j 8). assert (j / 8 < 16) by (apply Z.div_lt_upper_bound; lia).
  destruct (Z.lt_ge_cases (j / 8) (p / 8)) as [Hlt|Hge].
  - rewrite lookup_app_l by (rewrite repeat_length; lia).
    destruct (repeat 255 _ !! _) as [x|] eqn:E; [| apply lookup_ge_None_1 in E; rewrite repeat_length in E; lia].
    apply list_elem_of_lookup_2, list_elem_of_In, repeat_spec in E. subst x. cbn [from_option id]. change 255 with (Z.ones 8).
    rewrite Z.ones_spec_low by lia. destruct (Z.ltb_spec j p); [done | lia].
  - rewrite lookup_app_r by (rewrite repeat_length; lia). rewrite repeat_length, lookup_drop.
    replace (Z.to_nat (p / 8) + (Z.to_nat (j / 8) - Z.to_nat (p / 8)))%nat with (Z.to_nat (j / 8)) by lia.
    destruct (Z.eq_dec (j / 8) (p / 8)) as [He|Hne].
    + rewrite He, list_lookup_insert_eq by (rewrite repeat_length; lia). cbn [from_option id]. rewrite u8_testbit, Z.lnot_spec by lia.
      transitivity (negb (7 - j mod 8 <? 8 - p mod 8)).
      * f_equal. destruct (Z.ltb_spec (7 - j mod 8) (8 - p mod 8)); [apply Z.ones_spec_low; lia | apply Z.ones_spec_high; lia].
      * rewrite (prefix_bits p j He). destruct (Z.leb_spec p j), (Z.ltb_spec j p); done || lia.
    + rewrite list_lookup_insert_ne by lia.
      destruct (repeat 0 16 !! Z.to_nat (j / 8)) as [x|] eqn:E; [| apply lookup_ge_None_1 in E; rewrite repeat_length in E; lia].
      apply list_elem_of_lookup_2, list_elem_of_In, repeat_spec in E. subst x. cbn [from_option id]. rewrite Z.testbit_0_l.
      destruct (Z.ltb_spec j p); [lia | done].
Qed.

(** C30: Broadcast addresses and subnet masks are exact. On a host of either byte
    order, [broadcastAddress] of an IPv4 address and a prefix of 2 to 32 bits
    keeps the prefix and sets every other bit; [subnetMask] is the number whose
    first bits are set, and [CountBytes], by which interfaces are listed,
    counts the prefix length back from it; the same holds bit by bit for IPv6
    prefixes of 0 to 127 bits. A prefix above 32 has no IPv4 broadcast
    address. *)
Theorem masks_exact host policy a a6 p p6 :
  2 <= p <= 32 -> length (s6_addr a6) = 16%nat -> 0 <= p6 < 128 ->
  (exists b, broadcastAddress4 host policy a p = Ok (Some b)
     /\ forall i, 0 <= i -> Z.testbit (ip host b) i = ((i <? 32 - p) || Z.testbit (ip host a) i))
  /\ (exists m, subnetMask4 host policy p = Ok m /\ ip host m = 2 ^ 32 - 2 ^ (32 - p) /\ CountBytes 32 (s_addr m) 0 = Ok p)
  /\ (exists b, broadcastAddress6 policy a6 p6 = Ok b
        /\ forall j, 0 <= j < 128 -> bit6 (s6_addr b) j = ((p6 <=? j) || bit6 (s6_addr a6) j))
  /\ (exists m, subnetMask6 policy p6 = Ok m /\ forall j, 0 <= j < 128 -> bit6 (s6_addr m) j = (j <? p6))
  /\ forall q, 32 < q -> broadcastAddress4 host policy a q = Ok None.
Proof.
  intros Hp Hl Hp6. split_and!.
  - destruct (broadcast4_bits host policy a p 0 Hp ltac:(lia)) as (b & E & _). exists b. split; [done |]. intros i Hi.
    destruct (broadcast4_bits host policy a p i Hp Hi) as (b' & E' & H & _). congruence.
  - by apply subnet4_value.
  - by apply broadcast6_bits.
  - by apply subnet6_bits.
  - intros q Hq. unfold broadcastAddress4. by destruct (Z.ltb_spec 32 q); [| lia].
Qed.

Lemma masks_exact_witness :
  let a := new_IPv4Address 1 3232235777 0 in
  exists b m, broadcastAddress4 1 Strict a 24 = Ok (Some b) /\ toString 1 (IPv4Address b) = "192.168.1.255:0"%string
    /\ subnetMask4 1 Strict 24 = Ok m /\ toString 1 (IPv4Address m) = "255.255.255.0:0"%string /\ CountBytes 32 (s_addr m) 0 = Ok 24.
Proof.
  intros a. destruct (masks_exact 1 Strict a new_IPv6Address 24 64) as ((b & E1 & _) & (m & E2 & _ & E3) & _); [lia | reflexivity | lia |].
  exists b, m. split; [exact E1 |]. split; [vm_compute in E1; injection E1 as <-; vm_compute; reflexivity |]. split; [exact E2 |].
  split; [vm_compute in E2; injection E2 as <-; vm_compute; reflexivity | exact E3].
Defined.

(** Prefixes of 0 and 1 bits shift out of the range of [int]. *)
Theorem short_prefix_undefined host a :
  broadcastAddress4 host Strict a 0 = Fail ShiftTooFar /\ broadcastAddress4 host Strict a 1 = Fail SignedOverflow.
Proof. split; reflexivity. Qed.

(** A prefix of the whole IPv6 address writes behind the array. *)
Theorem full_prefix6_out_of_bounds a :
  length (s6_addr a) = 16%nat -> broadcastAddress6 Strict a 128 = Fail OutOfBounds /\ subnetMask6 Strict 128 = Fail OutOfBounds.
Proof.
  intros Hl. split; [| reflexivity]. unfold broadcastAddress6, update_byte. cbn [mbind outcome_bind].
  change (CreateMask Strict 8 (128 mod 8)) with (Ok 255 : outcome Z). cbn [mbind outcome_bind].
  by rewrite lookup_ge_None_2 by (rewrite Hl; vm_compute; lia).
Qed.

(** The constructor with a port stores 0 for every port number on a
    little-endian host. *)
Theorem constructor_loses_port address port :
  0 <= port < 65536 -> getPort4 1 (new_IPv4Address 1 address port) = 0.
Proof.
  intros Hp. unfold getPort4, new_IPv4Address. cbn [sin_port]. change (byteswapOnLittleEndian 1 4 port) with (bswap 4 port).
  assert (E : u16 (bswap 4 port) = 0); [| by rewrite E].
  apply Z.bits_inj'. intros i Hi. rewrite Z.testbit_0_l. unfold u16, wrap. destruct (Z.lt_ge_cases i 16) as [Hlt|Hge].
  - rewrite Z.mod_pow2_bits_low, bswap_testbit by lia. pose proof (Z.div_mod i 8). pose proof (Z.mod_pos_bound i 8 ltac:(lia)).
    apply (testbit_above 16); [unfold in_unsigned; lia | lia].
  - by rewrite Z.mod_pow2_bits_high by lia.
Qed.

(** …while [setPort] is read back by [getPort]. *)
Theorem port_roundtrip host a v : 0 <= v < 65536 -> getPort4 host (setPort4 host a v) = v.
Proof. intros. unfold getPort4, setPort4. cbn [sin_port]. apply swap_involutive. unfold in_unsigned. simpl. lia. Qed.

(** ** The text of an IPv6 address *)

(** The reference: RFC 4291, section 2.2, with the first run of zero groups
    written as a double colon. *)
Fixpoint be_groups (l : list Z) : list Z :=
  match l with a :: b :: l => 256 * a + b :: be_groups l | _ => [] end.

Fixpoint until_zero (l : list Z) : list Z :=
  match l with [] => [] | g :: l => if g =? 0 then [] else g :: until_zero l end.

Fixpoint from_zero (l : list Z) : list Z :=
  match l with [] => [] | g :: l' => if g =? 0 then l else from_zero l' end.

Fixpoint skip_zeros (l : list Z) : list Z :=
  match l with [] => [] | g :: l' => if g =? 0 then skip_zeros l' else l end.

Definition joined (l : list Z) : string := String.concat ":" (hex <$> l).

Definition rfc_text (l : list Z) : string :=
  match from_zero l with
  | [] => joined l
  | zeros => (joined (until_zero l) ++ "::" ++ joined (skip_zeros zeros))%string
  end.

(** Groups, each after a colon. *)
Definition colons (l : list Z) : string := String.concat "" ((fun g => ":" ++ hex g)%string <$> l).

Lemma concat_cons (a : string) l : String.concat "" (a :: l) = (a ++ String.concat "" l)%string.
Proof. destruct l; simpl; [by rewrite str_app_nil | done]. Qed.

Lemma joined_cons g l : joined (g :: l) = (hex g ++ colons l)%string.
Proof.
  revert g. induction l as [| h l IH]; intros g; [unfold joined, colons; simpl; by rewrite str_app_nil |].
  transitivity (hex g ++ ":" ++ joined (h :: l))%string; [reflexivity |]. rewrite IH. unfold colons at 2.
  by rewrite fmap_cons, concat_cons.
Qed.

Section text.
Context (host : Z).
Hypothesis Hhost : host = 1 \/ host = 2.
Abbreviation swap2 := (byteswapOnLittleEndian host 2).

Lemma group_value a b : is_byte a -> is_byte b -> swap2 (mem_val host [a; b]) = 256 * a + b.
Proof.
  intros Ha Hb. destruct Hhost as [-> | ->].
  - change (bswap 2 (le_val [a; b]) = 256 * a + b). unfold bswap. change (le_bytes 2) with (le_bytes (length [a; b])). rewrite (le_bytes_val [a; b]) by (repeat constructor; apply Ha || apply Hb).
    cbn [rev app le_val]. lia.
  - change (le_val [b; a] = 256 * a + b). cbn [le_val]. lia.
Qed.

Lemma groups_values l : Forall is_byte l -> swap2 <$> groups host l = be_groups l.
Proof.
  remember (length l) as n eqn:En. assert (Hn : (length l <= n)%nat) by lia. clear En. revert l Hn.
  induction n as [| n IH]; intros [| a [| b l]] Hn H; cbn [length groups be_groups] in *; try reflexivity; try lia.
  apply Forall_cons in H as [Ha H]. apply Forall_cons in H as [Hb H]. rewrite fmap_cons, group_value, IH by (done || lia). done.
Qed.

(** After the zeros: every group is printed. *)
Lemma insert_after gs i prev os :
  insert_groups host (S i) prev gs true os = ((os ++ colons (swap2 <$> gs))%string, true).
Proof.
  revert i prev os. induction gs as [| g gs IH]; intros i prev os; [simpl; by rewrite str_app_nil |].
  cbn [insert_groups]. rewrite andb_false_r, !andb_false_r. cbn [Nat.eqb negb]. rewrite IH. unfold colons. rewrite fmap_cons, fmap_cons, concat_cons.
  by rewrite !str_app_assoc.
Qed.

Lemma swap_zero g : is_byte (g / 256) -> (swap2 g =? 0) = (g =? 0).
Proof.
  intros Hg. unfold is_byte in Hg. assert (H16 : in_unsigned (8 * Z.of_nat 2) g).
  { unfold in_unsigned. pose proof (Z.div_mod g 256). pose proof (Z.mod_pos_bound g 256). simpl. lia. }
  destruct (Z.eqb_spec g 0) as [-> |Hne]; [by destruct Hhost as [-> | ->] |].
  destruct (Z.eqb_spec (swap2 g) 0) as [E|]; [| done]. destruct Hne.
  rewrite <- (swap_involutive host 2 g H16), E. by destruct Hhost as [-> | ->].
Qed.

Definition small (g : Z) : Prop := is_byte (g / 256).

(** Among the zeros. *)
Lemma insert_zeros gs i os :
  Forall small gs ->
  insert_groups host (S i) 0 gs false os
  = match skip_zeros (swap2 <$> gs) with [] => (os, false) | r => ((os ++ ":" ++ colons r)%string, true) end.
Proof.
  intros H. revert i os. induction H as [| g gs Hg _ IH]; intros i os; [done |].
  cbn [insert_groups]. rewrite fmap_cons. cbn [skip_zeros]. rewrite swap_zero by done. destruct (Z.eqb_spec g 0) as [-> |Hne]; [apply IH |].
  cbn [andb negb Nat.eqb Z.eqb]. rewrite insert_after. unfold colons. rewrite fmap_cons, concat_cons, !str_app_assoc. done.
Qed.

(** Before them. *)
Lemma insert_before gs i prev os :
  Forall small gs -> prev <> 0 ->
  insert_groups host (S i) prev gs false os
  = match from_zero (swap2 <$> gs) with
    | [] => ((os ++ colons (swap2 <$> gs))%string, false)
    | zeros => match skip_zeros zeros with
               | [] => ((os ++ colons (until_zero (swap2 <$> gs)))%string, false)
               | r => ((os ++ colons (until_zero (swap2 <$> gs)) ++ ":" ++ colons r)%string, true)
               end
    end.
Proof.
  intros H. revert i prev os. induction H as [| g gs Hg Hgs IH]; intros i prev os Hp; [simpl; by rewrite str_app_nil |].
  cbn [insert_groups]. rewrite fmap_cons. cbn [from_zero until_zero]. rewrite swap_zero by done. destruct (Z.eqb_spec g 0) as [-> |Hne].
  - cbn [andb negb]. rewrite insert_zeros by done. cbn [skip_zeros]. rewrite (swap_zero 0) by (vm_compute; split; congruence).
    cbn [Z.eqb colons]. change (String.concat "" ((fun g => ":" ++ hex g)%string <$> [])) with ""%string. destruct (skip_zeros _); [by rewrite str_app_nil | done].
  - cbn [andb negb Nat.eqb]. rewrite (proj2 (Z.eqb_neq _ _) Hp). cbn [andb]. rewrite IH by done.
    assert (E : forall l, colons (swap2 g :: l) = (":" ++ hex (swap2 g) ++ colons l)%string)
      by (intros; unfold colons; by rewrite fmap_cons, concat_cons, str_app_assoc).
    rewrite !E. destruct (from_zero _); [by rewrite !str_app_assoc |]. destruct (skip_zeros _); by rewrite !str_app_assoc.
Qed.

Lemma groups_small l : Forall is_byte l -> Forall small (groups host l).
Proof.
  remember (length l) as n eqn:En. assert (Hn : (length l <= n)%nat) by lia. clear En. revert l Hn.
  induction n as [| n IH]; intros [| a [| b l]] Hn H; cbn [length groups] in *; try constructor; try lia.
  - apply Forall_cons in H as [Ha H]. apply Forall_cons in H as [Hb _]. unfold small, is_byte in *.
    destruct Hhost as [-> | ->]; [change (mem_val 1 [a; b]) with (a + 256 * (b + 256 * 0)) | change (mem_val 2 [a; b]) with (b + 256 * (a + 256 * 0))].
    + split; [apply Z.div_pos; lia | apply Z.div_lt_upper_bound; lia].
    + split; [apply Z.div_pos; lia | apply Z.div_lt_upper_bound; lia].
  - apply IH; [lia |]. apply Forall_cons in H as [_ H]. by apply Forall_cons in H as [_ H].
Qed.

(** The loop and the line after it, on any number of groups. *)
Lemma insert_text gs :
  Forall small gs -> gs <> [] ->
  (let '(os, used) := insert_groups host 0 0 gs false "[" in
   if negb used && (default 0 (last gs) =? 0) then (os ++ "::")%string else os) = ("[" ++ rfc_text (swap2 <$> gs))%string.
Proof.
  assert (Hlast : forall l, Forall small l -> (default 0 (last l) =? 0) = (default 0 (last (swap2 <$> l)) =? 0)).
  { intros l H. rewrite fmap_last. destruct (last l) as [x|] eqn:E; [| done]. cbn. symmetry. apply swap_zero.
    rewrite Forall_forall in H. apply H. apply last_Some in E as [l' ->]. apply elem_of_app. right. by apply list_elem_of_singleton. }
  assert (H1 : forall l, l <> [] -> skip_zeros l = [] -> last l = Some 0).
  { intros l. induction l as [| x l IH]; [done |]. intros _. cbn [skip_zeros]. destruct (Z.eqb_spec x 0) as [-> |]; [| done].
    destruct l as [| y l]; [done |]. intros E. by rewrite last_cons_cons, IH. }
  assert (H2 : forall l, l <> [] -> from_zero l = [] -> exists x, last l = Some x /\ x <> 0).
  { intros l. induction l as [| x l IH]; [done |]. intros _. cbn [from_zero]. destruct (Z.eqb_spec x 0); [done |].
    destruct l as [| y l]; [by exists x |]. intros E. rewrite last_cons_cons. by apply IH. }
  assert (H3 : forall l, from_zero l <> [] -> last l = last (from_zero l)).
  { intros l. induction l as [| x l IH]; [done |]. cbn [from_zero]. destruct (Z.eqb_spec x 0); [done |]. intros E.
    destruct l as [| y l]; [done |]. rewrite last_cons_cons. by apply IH. }
  intros Hs Hne. rewrite Hlast by done. destruct Hs as [| g gs Hg Hs]; [done |]. set (vs := swap2 <$> g :: gs).
  assert (Hv : vs <> []) by done. cbn [insert_groups]. unfold rfc_text. destruct (Z.eqb_spec g 0) as [-> |Hg0].
  - cbn [andb negb]. rewrite insert_zeros by done. assert (Ez : swap2 0 = 0) by (by destruct Hhost as [-> | ->]).
    assert (Ev : vs = 0 :: (swap2 <$> gs)) by (unfold vs; by rewrite fmap_cons, Ez).
    rewrite Ev. cbn [from_zero until_zero skip_zeros Z.eqb joined]. change (String.concat ":" (hex <$> [])) with ""%string.
    destruct (skip_zeros (swap2 <$> gs)) as [| r rs] eqn:Er.
    + rewrite (H1 (0 :: (swap2 <$> gs))) by (done || by cbn [skip_zeros Z.eqb]). reflexivity.
    + cbn [negb andb]. rewrite joined_cons. unfold colons. rewrite fmap_cons, concat_cons. by str_norm.
  - cbn [andb negb Nat.eqb]. assert (Ez : (swap2 g =? 0) = false) by (rewrite swap_zero by done; by apply Z.eqb_neq).
    assert (Ev : vs = swap2 g :: (swap2 <$> gs)) by done.
    rewrite insert_before by done. specialize (H1 (from_zero vs)). specialize (H2 vs Hv). specialize (H3 vs).
    rewrite Ev in *. cbn [from_zero until_zero] in *. rewrite Ez in *. destruct (from_zero (swap2 <$> gs)) as [| z zs].
    + destruct (H2 eq_refl) as (x & -> & Hx). cbn [default from_option id negb andb]. rewrite (proj2 (Z.eqb_neq x 0) Hx).
      rewrite joined_cons. by str_norm.
    + rewrite H3 by done. rewrite joined_cons. destruct (skip_zeros (z :: zs)) as [| r rs] eqn:Er.
      * rewrite H1 by done. cbn [default from_option id negb andb Z.eqb]. change (joined []) with ""%string. by str_norm.
      * cbn [negb andb]. rewrite joined_cons. unfold colons. rewrite fmap_cons, concat_cons. by str_norm.
Qed.
End text.

(** The printed form of an IPv6 address is the one of RFC 4291: for every
    sixteen bytes and on a host of either byte order, [IPv6Address::insert]
    writes in brackets the eight groups in hexadecimal with the first run of
    zero groups as a double colon, wherever it stands, and then the port. *)
Theorem ipv6_text_exact host a :
  host = 1 \/ host = 2 -> length (s6_addr a) = 16%nat -> Forall is_byte (s6_addr a) ->
  insert6 host a = ("[" ++ rfc_text (be_groups (s6_addr a)) ++ "]:" ++ dec (getPort6 host a))%string.
Proof.
  intros Hh Hl Hb. unfold insert6. set (gs := groups host (s6_addr a)). pose proof (groups_small host Hh _ Hb) as Hs. fold gs in Hs.
  assert (Hg : length gs = 8%nat).
  { unfold gs. destruct (s6_addr a) as [|? [|? [|? [|? [|? [|? [|? [|? [|? [|? [|? [|? [|? [|? [|? [|? [|? ?]]]]]]]]]]]]]]]]]; done. }
  pose proof (insert_text host Hh gs Hs) as H. rewrite last_lookup, Hg in H. cbn [pred] in H.
  destruct (insert_groups host 0 0 gs false "[") as [os used]. rewrite H by (by destruct gs).
  unfold gs. rewrite groups_values by done. unfold getPort6. by rewrite str_app_assoc.
Qed.

Definition sample6 : sockaddr_in6 := setPort6 1 (mkIn6 AF_INET6 0 0 [32; 1; 13; 184; 0; 0; 0; 0; 0; 0; 255; 0; 0; 0; 131; 41] 0) 443.

(** ** Structures in memory *)

Definition wf_in (a : sockaddr_in) : Prop :=
  sin_family a = AF_INET /\ in_unsigned 16 (sin_port a) /\ in_unsigned 32 (s_addr a) /\ length (sin_zero a) = 8%nat.

Definition wf_in6 (a : sockaddr_in6) : Prop :=
  sin6_family a = AF_INET6 /\ in_unsigned 16 (sin6_port a) /\ in_unsigned 32 (sin6_flowinfo a) /\ length (s6_addr a) = 16%nat
  /\ in_unsigned 32 (sin6_scope_id a).

(** Reading bytes, or a field, where they were written. *)
Lemma slice_at (bs pre l post : list Z) off n :
  bs = pre ++ l ++ post -> off = length pre -> n = length l -> take n (drop off bs) = l.
Proof. intros -> -> ->. by rewrite drop_app_length, take_app_length. Qed.

Lemma field_at host bs pre n v post off :
  bs = pre ++ mem_bytes host n v ++ post -> off = length pre -> in_unsigned (8 * Z.of_nat n) v -> field host bs off n = v.
Proof.
  intros Hb Ho Hv. unfold field. rewrite (slice_at bs pre (mem_bytes host n v) post) by (done || by rewrite length_mem_bytes).
  by apply mem_val_bytes.
Qed.

Ltac at_offset := rewrite ?length_app, ?length_mem_bytes; reflexivity || lia.

Lemma read_in_bytes host a : wf_in a -> read_in host (bytes_in host a) = a.
Proof.
  intros (Hf & Hp & Ha & Hz). unfold read_in. destruct a as [f p s z]. cbn [sin_family sin_port s_addr sin_zero] in *. subst f.
  set (B1 := mem_bytes host 2 AF_INET). set (B2 := mem_bytes host 2 p). set (B3 := mem_bytes host 4 s). f_equal.
  - apply (field_at host _ [] 2 AF_INET (B2 ++ B3 ++ z)); [done | done | vm_compute; split; congruence].
  - apply (field_at host _ B1 2 p (B3 ++ z)); [done | unfold B1; at_offset | done].
  - apply (field_at host _ (B1 ++ B2) 4 s z); [by rewrite <- !app_assoc | unfold B1, B2; at_offset | done].
  - apply (slice_at _ (B1 ++ B2 ++ B3) z []); [by rewrite <- !app_assoc, app_nil_r | unfold B1, B2, B3; at_offset | done].
Qed.

Lemma read_in6_bytes host a : wf_in6 a -> read_in6 host (bytes_in6 host a) = a.
Proof.
  intros (Hf & Hp & Hfl & Hl & Hs). unfold read_in6. destruct a as [f p fl l s].
  cbn [sin6_family sin6_port sin6_flowinfo s6_addr sin6_scope_id] in *. subst f.
  set (B1 := mem_bytes host 2 AF_INET6). set (B2 := mem_bytes host 2 p). set (B3 := mem_bytes host 4 fl). set (B4 := mem_bytes host 4 s). f_equal.
  - apply (field_at host _ [] 2 AF_INET6 (B2 ++ B3 ++ l ++ B4)); [done | done | vm_compute; split; congruence].
  - apply (field_at host _ B1 2 p (B3 ++ l ++ B4)); [done | unfold B1; at_offset | done].
  - apply (field_at host _ (B1 ++ B2) 4 fl (l ++ B4)); [by rewrite <- !app_assoc | unfold B1, B2; at_offset | done].
  - apply (slice_at _ (B1 ++ B2 ++ B3) l B4); [by rewrite <- !app_assoc | unfold B1, B2, B3; at_offset | done].
  - apply (field_at host _ (B1 ++ B2 ++ B3 ++ l) 4 s []); [by rewrite <- !app_assoc, app_nil_r | unfold B1, B2, B3; at_offset | done].
Qed.

(** [Address::Create] reads back the structure behind [getAddr]. *)
Theorem create_reads_back host a a6 :
  wf_in a -> wf_in6 a6 ->
  Create host (Some (getAddr host (IPv4Address a))) = Some (IPv4Address a)
  /\ Create host (Some (getAddr host (IPv6Address a6))) = Some (IPv6Address a6).
Proof.
  intros H H6. pose proof (read_in_bytes host a H) as E. pose proof (read_in6_bytes host a6 H6) as E6. unfold Create. cbn [getAddr].
  assert (F : field host (bytes_in host a) 0 2 = AF_INET) by (change (sin_family (read_in host (bytes_in host a)) = AF_INET); rewrite E; apply H).
  assert (F6 : field host (bytes_in6 host a6) 0 2 = AF_INET6) by (change (sin6_family (read_in6 host (bytes_in6 host a6)) = AF_INET6); rewrite E6; apply H6).
  rewrite F, F6, E, E6. done.
Qed.

(** ** Order *)

(** What the comparisons see of an address. *)
Definition image (host : Z) (a : Address) : list Z := take (Z.to_nat (getAddrLen a)) (getAddr host a).

Definition wf_addr (host : Z) (a : Address) : Prop := 0 <= getAddrLen a <= Z.of_nat (length (getAddr host a)).

(** Lexicographic order of byte strings, a prefix before what it is a prefix
    of. *)
Fixpoint before (a b : list Z) : bool :=
  match a, b with
  | _, [] => false
  | [], _ :: _ => true
  | x :: a, y :: b => (x <? y) || ((x =? y) && before a b)
  end.

Lemma memcmp_before a b :
  match memcmp (take (Nat.min (length a) (length b)) a) (take (Nat.min (length a) (length b)) b) with
  | Lt => true
  | Gt => false
  | Eq => (length a <? length b)%nat
  end = before a b.
Proof.
  revert b. induction a as [| x a IH]; intros [| y b]; try done. cbn [length Nat.min take memcmp before].
  destruct (Z.compare_spec x y) as [-> | Hlt | Hgt].
  - rewrite Z.ltb_irrefl, Z.eqb_refl. cbn [orb andb]. apply IH.
  - by rewrite (proj2 (Z.ltb_lt x y) Hlt).
  - rewrite (proj2 (Z.ltb_ge x y)), (proj2 (Z.eqb_neq x y)) by lia. done.
Qed.

Lemma length_image host a : wf_addr host a -> length (image host a) = Z.to_nat (getAddrLen a).
Proof. intros [H1 H2]. unfold image. rewrite length_take. lia. Qed.

Lemma less_before host a b : wf_addr host a -> wf_addr host b -> less host a b = before (image host a) (image host b).
Proof.
  intros Ha Hb. pose proof (length_image host a Ha) as La. pose proof (length_image host b Hb) as Lb.
  rewrite <- memcmp_before, La, Lb. unfold less, image. destruct Ha as [Ha _], Hb as [Hb _].
  rewrite !take_take. replace (Z.to_nat (Z.min (getAddrLen a) (getAddrLen b))) with (Nat.min (Z.to_nat (getAddrLen a)) (Z.to_nat (getAddrLen b))) by lia.
  rewrite (Nat.min_comm (Nat.min _ _) (Z.to_nat (getAddrLen a))), Nat.min_assoc, Nat.min_id.
  replace (Nat.min (Nat.min (Z.to_nat (getAddrLen a)) (Z.to_nat (getAddrLen b))) (Z.to_nat (getAddrLen b)))
    with (Nat.min (Z.to_nat (getAddrLen a)) (Z.to_nat (getAddrLen b))) by lia.
  destruct (memcmp _ _); [| done | done]. destruct (Z.ltb_spec (getAddrLen a) (getAddrLen b)), (Nat.ltb_spec (Z.to_nat (getAddrLen a)) (Z.to_nat (getAddrLen b))); done || lia.
Qed.

Lemma memcmp_eq a b : length a = length b -> memcmp a b = Eq <-> a = b.
Proof.
  revert b. induction a as [| x a IH]; intros [| y b] Hl; try done. cbn [memcmp]. injection Hl as Hl.
  destruct (Z.compare_spec x y) as [-> | Hlt | Hgt].
  - rewrite IH by done. split; [by intros -> | by intros [= ->]].
  - split; [done | intros [= -> ->]; lia].
  - split; [done | intros [= -> ->]; lia].
Qed.

Lemma equal_image host a b : wf_addr host a -> wf_addr host b -> equal host a b = true <-> image host a = image host b.
Proof.
  intros Ha Hb. pose proof (length_image host a Ha) as La. pose proof (length_image host b Hb) as Lb. unfold equal.
  rewrite andb_true_iff, Z.eqb_eq. destruct Ha as [Ha _], Hb as [Hb _]. split.
  - intros [E H]. unfold image in *. rewrite E in *. apply memcmp_eq; [congruence |]. by destruct (memcmp _ _).
  - intros E. assert (Hl : getAddrLen a = getAddrLen b) by (rewrite <- E in Lb; lia). split; [done |].
    assert (Hm : memcmp (image host a) (image host b) = Eq) by (rewrite E; by apply memcmp_eq).
    unfold image in Hm. rewrite <- Hl in Hm. by rewrite Hm.
Qed.

Lemma before_order (a b c : list Z) :
  before a a = false /\ (before a b = true -> before b c = true -> before a c = true)
  /\ (before a b = false -> before b a = false -> a = b).
Proof.
  split_and!.
  - induction a as [| x a IH]; [done |]. cbn. by rewrite Z.ltb_irrefl, Z.eqb_refl, IH.
  - revert b c. induction a as [| x a IH]; intros [| y b] [| z c]; cbn; try done.
    rewrite !orb_true_iff, !andb_true_iff, !Z.ltb_lt, !Z.eqb_eq.
    intros [H1 | [-> H1]] [H2 | [-> H2]]; [left; lia | left; lia | left; lia | right; eauto].
  - clear c. revert b. induction a as [| x a IH]; intros [| y b]; cbn; try done.
    rewrite !orb_false_iff, !andb_false_iff, !Z.ltb_ge, !Z.eqb_neq. intros [H1 H1'] [H2 H2'].
    assert (x = y) as -> by lia. f_equal. apply IH; tauto.
Qed.

(** Addresses of all kinds are totally ordered, as containers keyed by them
    need: [operator<] is irreflexive and transitive, and two addresses of which
    neither is less are exactly those that [operator==] takes for equal. *)
Theorem addresses_ordered host a b c :
  wf_addr host a -> wf_addr host b -> wf_addr host c ->
  less host a a = false
  /\ (less host a b = true -> less host b c = true -> less host a c = true)
  /\ ((less host a b = false /\ less host b a = false) <-> equal host a b = true).
Proof.
  intros Ha Hb Hc. rewrite !less_before, equal_image by done.
  destruct (before_order (image host a) (image host b) (image host c)) as (H1 & H2 & H3). split_and!; [done | done |].
  split; [intros []; auto |]. intros ->. by destruct (before_order (image host b) (image host b) []) as (-> & _).
Qed.

(** ** Look-up *)

(** [Lookup] splits the usual forms of host names. *)
Theorem host_forms node svc :
  node <> ""%string -> str_mem ":" node = false -> str_mem "]" node = false -> str_mem "[" node = false -> str_mem ":" svc = false ->
  split_host (node ++ ":" ++ svc) = (node, Some svc) /\ split_host node = (node, None)
  /\ split_host ("[" ++ node ++ "]:" ++ svc) = (node, Some svc) /\ split_host ("[" ++ node ++ "]") = (node, None).
Proof.
  assert (Hno : forall c s, str_mem c s = false -> find_char c s = None).
  { intros c s. induction s as [| x s IH]; cbn; [done |]. intros [-> H]%orb_false_iff. by rewrite (IH H). }
  assert (Hat : forall c s t, str_mem c s = false -> find_char c (s ++ String c t) = Some (String.length s)).
  { intros c s t. induction s as [| x s IH]; cbn; [by rewrite Ascii.eqb_refl |]. intros [-> H]%orb_false_iff. by rewrite (IH H). }
  assert (Ht : forall a b, str_take (String.length a) (a ++ b) = a)
    by (intros a b; by rewrite str_take_app, str_take_ge, Nat.sub_diag, str_app_nil by lia).
  assert (Hd : forall a x b, str_drop (S (String.length a)) (a ++ String x b) = b)
    by (intros a x b; rewrite str_drop_app, str_drop_ge by lia; by replace (S (String.length a) - String.length a)%nat with 1%nat by lia).
  assert (Hbr : forall t, str_mem "[" node = false -> node <> ""%string -> exists c t', (node ++ t)%string = String c t' /\ c <> "["%char).
  { intros t H Hne. destruct node as [| c n]; [done |]. exists c, (n ++ t)%string. split; [done |]. intros ->. discriminate H. }
  intros Hne H1 H2 H3 H4. pose proof (proj2 (String.eqb_neq node "") Hne) as E0.
  assert (Hplain : forall t, (match (node ++ t)%string with String "[" rest => match find_char "]" rest with
      | Some k => (str_take k rest, match str_drop (S k) rest with String ":" s => Some s | _ => None end)
      | None => (""%string, None) end | _ => (""%string, None) end) = (""%string, None : option string)).
  { intros t. destruct (Hbr t H3 Hne) as (c & t' & -> & Hc). destruct c as [[] [] [] [] [] [] [] []]; done. }
  split_and!; unfold split_host.
  - rewrite Hplain. cbn [String.append]. rewrite Hat, Hd, Hno by done. cbn [String.eqb]. by rewrite Ht, E0.
  - pose proof (Hplain ""%string) as Hp. rewrite str_app_nil in Hp. rewrite Hp, Hno by done. done.
  - cbn [String.append]. rewrite Hat, Ht, Hd, E0 by done. by rewrite E0.
  - cbn [String.append]. rewrite Hat, Ht, Hd, E0 by done. by rewrite E0.
Qed.

(** An IPv6 address without brackets is passed to getaddrinfo as the service
    too, which refuses it. *)
Theorem bare_ipv6_as_service : split_host "::1" = ("::1", Some "::1")%string /\ split_host "fe80::1" = ("fe80::1", Some "::1")%string.
Proof. split; reflexivity. Qed.

(** Interfaces without an address, which getifaddrs lists, are dereferenced. *)
Theorem interface_without_address host l family name mask :
  GetInterfaceAddresses host (Some (mkIf name None mask :: l)) "eth0" family = Fail NullDeref.
Proof. reflexivity. Qed.

(** [IPv6Address::Create] reads an IPv4 address into the first four bytes. *)
Theorem create6_reads_ipv4 inet_pton4 bs port :
  inet_pton4 "1.2.3.4"%string = Some [1; 2; 3; 4] -> bs = [1; 2; 3; 4] ++ repeat 0 12 ->
  s6_addr <$> Create6 1 inet_pton4 "1.2.3.4" port = Some bs.
Proof. intros H ->. unfold Create6. by rewrite H. Qed.

(** A path that is not empty is printed back. *)
Theorem unix_path_printed host path :
  path <> ""%string -> (String.length path < 108)%nat -> str_mem "000" path = false ->
  exists a, new_UnixAddress_path path = Ok a /\ toString host a = path.
Proof.
  intros Hne Hl Hm. unfold new_UnixAddress_path.
  assert (En : match path with String "000" _ => Z.of_nat (String.length path) + 1 - 1 | _ => Z.of_nat (String.length path) + 1 end = Z.of_nat (String.length path) + 1).
  { destruct path as [| c path]; [done |]. destruct c as [[] [] [] [] [] [] [] []]; done. }
  rewrite En. destruct (Z.ltb_spec (Z.of_nat SUN_PATH) (Z.of_nat (String.length path) + 1)) as [H|_]; [unfold SUN_PATH in H; lia |].
  eexists. split; [reflexivity |]. cbn [toString]. unfold insert_unix.
  assert (Hb : forall s, length (bytes_of s) = String.length s) by (intros s; induction s; cbn; auto).
  rewrite take_ge by (rewrite length_app, Hb; cbn [length]; lia). rewrite <- !app_assoc. generalize (repeat 0 (SUN_PATH - length (bytes_of path ++ [0]))).
  intros l. assert (Hc : forall s, str_mem "000" s = false -> c_string (bytes_of s ++ 0 :: l) = s).
  { intros s. induction s as [| c s IH]; [done |]. cbn [str_mem bytes_of app c_string]. intros [Hc Hs]%orb_false_iff.
    destruct (Z.eqb_spec (Z.of_nat (nat_of_ascii c)) 0) as [E|].
    - assert (c = "000"%char) as -> by (rewrite <- (ascii_nat_embedding c); by replace (nat_of_ascii c) with 0%nat by lia). discriminate Hc.
    - rewrite Nat2Z.id, ascii_nat_embedding. by rewrite (IH Hs). }
  destruct path as [| c path]; [done |]. cbn [bytes_of app head default from_option id].
  destruct (Z.eqb_spec (Z.of_nat (nat_of_ascii c)) 0) as [E|]; [| rewrite andb_false_r; by apply (Hc (String c path))].
  assert (c = "000"%char) as -> by (rewrite <- (ascii_nat_embedding c); by replace (nat_of_ascii c) with 0%nat by lia). discriminate Hm.
Qed.
