(* ===== verification/Socket.v ===== *)
(** Sockets, socket.h and socket.cc, and the stream over a socket,
    streams/socket_stream.cc.

    The system calls, as the process sees them through the hooks, are an
    interface: [Kernel] has the calls, [KernelLaws] what they promise about the
    open descriptors. A method is one step; it returns when its calls have. *)

From stdpp Require Import gmap strings pretty.
From S2P Require Import Prelude Strs Endian Address.

Module So.

Import Ad.
Local Open Scope Z_scope.
#[local] Arguments String.append !_ _ /.

Definition SOCK_STREAM : Z := 1.
Definition SOCK_DGRAM : Z := 2.
Definition SOL_SOCKET : Z := 1.
Definition SO_REUSEADDR : Z := 2.
Definition SO_ERROR : Z := 4.
Definition SO_RCVTIMEO : Z := 20.
Definition SO_SNDTIMEO : Z := 21.
Definition IPPROTO_TCP : Z := 6.
Definition TCP_NODELAY : Z := 1.
Definition SOMAXCONN : Z := 4096.

(** [Socket::Type] and [Socket::Family] *)
Definition TCP := SOCK_STREAM.
Definition UDP := SOCK_DGRAM.
Definition IPv4 := AF_INET.
Definition IPv6 := AF_INET6.
Definition UNIX := AF_UNIX.

(** What a system call is handed as an option: an [int], or a [timeval]. *)
Inductive optval := OInt (v : Z) | OTimeval (sec usec : Z).

(** The address arguments are the bytes at the pointer. What a call stores is in
    its answer: bytes received, the bytes of a peer's address, its length. *)
Class Kernel (K : Type) := {
  sys_socket : K -> Z -> Z -> Z -> Z * K;
  sys_accept : K -> Z -> Z * K;
  sys_bind : K -> Z -> list Z -> Z * K;
  sys_listen : K -> Z -> Z -> Z * K;
  sys_connect : K -> Z -> list Z -> Z * K;
  sys_connect_with_timeout : K -> Z -> list Z -> Z -> Z * K;
  sys_close : K -> Z -> K;
  sys_setsockopt : K -> Z -> Z -> Z -> optval -> Z * K;
  sys_getsockopt_error : K -> Z -> (Z * Z) * K;            (* result and value stored *)
  sys_getpeername : K -> Z -> Z -> option (list Z * Z);    (* address and length stored *)
  sys_getsockname : K -> Z -> Z -> option (list Z * Z);
  sys_send : K -> Z -> list Z -> Z -> Z * K;
  sys_sendto : K -> Z -> list Z -> Z -> list Z -> Z * K;
  sys_sendmsg : K -> Z -> list (list Z) -> option (list Z) -> Z -> Z * K;
  sys_recv : K -> Z -> Z -> Z -> (Z * list Z) * K;         (* result and bytes stored *)
  sys_recvfrom : K -> Z -> Z -> Z -> Z -> (Z * list Z * list Z) * K;                (* and the sender *)
  sys_recvmsg : K -> Z -> list Z -> option Z -> Z -> (Z * list Z * list Z) * K;     (* lengths of the buffers *)
  sys_errno : K -> Z;
  fd_ctx : K -> Z -> option (bool * bool);                 (* FdMgr: isSocket, isClose *)
  fd_timeout : K -> Z -> Z -> option Z;
  io_cancelEvent : K -> Z -> Z -> bool * K;                (* IOManager::GetThis() *)
  io_cancelAll : K -> Z -> bool * K;
}.

(** [open]: the open descriptors. A new descriptor was not open; the other calls
    leave them alone. *)
Class KernelLaws (K : Type) `{Kernel K} := {
  open : K -> gset Z;
  law_socket k f t p :
    let '(d, k') := sys_socket k f t p in
    (d = -1 /\ open k' = open k) \/ (0 <= d /\ (d ∉ open k) /\ open k' = {[d]} ∪ open k);
  law_accept k fd :
    let '(d, k') := sys_accept k fd in
    (d = -1 /\ open k' = open k) \/ (0 <= d /\ (d ∉ open k) /\ open k' = {[d]} ∪ open k);
  law_close k fd : open (sys_close k fd) = open k ∖ {[fd]};
  law_bind k fd a : open (sys_bind k fd a).2 = open k;
  law_listen k fd n : open (sys_listen k fd n).2 = open k;
  law_connect k fd a : open (sys_connect k fd a).2 = open k;
  law_connect_timeout k fd a t : open (sys_connect_with_timeout k fd a t).2 = open k;
  law_setsockopt k fd l o v : open (sys_setsockopt k fd l o v).2 = open k;
  law_cancelAll k fd : open (io_cancelAll k fd).2 = open k;
}.

(** ** The object *)

Record Socket := mkSock {
  m_sock : Z;
  m_family : Z;
  m_type : Z;
  m_protocol : Z;
  m_isConnected : bool;
  m_localAddress : option Address;
  m_remoteAddress : option Address;
}.

Definition set_sock (s : Socket) v := mkSock v (m_family s) (m_type s) (m_protocol s) (m_isConnected s) (m_localAddress s) (m_remoteAddress s).
Definition set_connected (s : Socket) v := mkSock (m_sock s) (m_family s) (m_type s) (m_protocol s) v (m_localAddress s) (m_remoteAddress s).
Definition set_local (s : Socket) v := mkSock (m_sock s) (m_family s) (m_type s) (m_protocol s) (m_isConnected s) v (m_remoteAddress s).
Definition set_remote (s : Socket) v := mkSock (m_sock s) (m_family s) (m_type s) (m_protocol s) (m_isConnected s) (m_localAddress s) v.

Definition new_Socket (family type protocol : Z) : Socket := mkSock (-1) family type protocol false None None.

Definition isValid (s : Socket) : bool := negb (m_sock s =? -1).
Definition isConnected (s : Socket) : bool := m_isConnected s.

(** Bytes stored over an address. *)
Definition store_addr (host : Z) (a : Address) (bs : list Z) : Address :=
  let mem := bs ++ drop (length bs) (getAddr host a) in
  match a with
  | IPv4Address _ => IPv4Address (read_in host mem)
  | IPv6Address _ => IPv6Address (read_in6 host mem)
  | UnixAddress _ n => UnixAddress (drop 2 mem) n
  | UnKnownAddress _ _ => UnKnownAddress (field host mem 0 2) (drop 2 mem)
  end.

Definition setAddrLen (a : Address) (len : Z) : Address :=
  match a with UnixAddress p _ => UnixAddress p len | a => a end.

Section socket.
Context {K : Type} `{Kernel K} (host : Z).

(** ** Options *)

Definition setOption (k : K) (s : Socket) (level option : Z) (v : optval) : bool * K :=
  let '(rt, k) := sys_setsockopt k (m_sock s) level option v in (rt =? 0, k).

(** [getError]: the option [SO_ERROR], or [errno]. *)
Definition getError (k : K) (s : Socket) : Z * K :=
  let '((rt, v), k) := sys_getsockopt_error k (m_sock s) in
  (if negb (rt =? 0) then sys_errno k else v, k).

Definition getSendTimeout (k : K) (s : Socket) : Z := default (-1) (fd_timeout k (m_sock s) SO_SNDTIMEO).
Definition getRecvTimeout (k : K) (s : Socket) : Z := default (-1) (fd_timeout k (m_sock s) SO_RCVTIMEO).

Definition timeval_of (v : Z) : optval := OTimeval (i32 (Z.quot v 1000)) (i32 (Z.rem v 1000 * 1000)).
Definition setSendTimeout (k : K) (s : Socket) (v : Z) : K := (setOption k s SOL_SOCKET SO_SNDTIMEO (timeval_of v)).2.
Definition setRecvTimeout (k : K) (s : Socket) (v : Z) : K := (setOption k s SOL_SOCKET SO_RCVTIMEO (timeval_of v)).2.

(** ** Descriptors *)

Definition initSock (k : K) (s : Socket) : K :=
  let k := (setOption k s SOL_SOCKET SO_REUSEADDR (OInt 1)).2 in
  if m_type s =? SOCK_STREAM then (setOption k s IPPROTO_TCP TCP_NODELAY (OInt 1)).2 else k.

Definition newSock (k : K) (s : Socket) : Socket * K :=
  let '(d, k) := sys_socket k (m_family s) (m_type s) (m_protocol s) in
  let s := set_sock s d in
  if negb (d =? -1) then (s, initSock k s) else (s, k).

Definition close (k : K) (s : Socket) : bool * Socket * K :=
  if negb (m_isConnected s) && (m_sock s =? -1) then (true, s, k) else
  let s := set_connected s false in
  if negb (m_sock s =? -1) then (false, set_sock s (-1), sys_close k (m_sock s)) else (false, s, k).

(** The empty address of the socket's family. *)
Definition fresh_address (family : Z) : Address :=
  if family =? AF_INET then IPv4Address (new_IPv4Address host 0 0)
  else if family =? AF_INET6 then IPv6Address new_IPv6Address
  else if family =? AF_UNIX then new_UnixAddress
  else UnKnownAddress (u16 family) (repeat 0 14).

(** The common part of [getRemoteAddress] and [getLocalAddress], over
    [getpeername] and [getsockname]. *)
Definition ask_address (name : K -> Z -> Z -> option (list Z * Z)) (k : K) (s : Socket) : option Address :=
  let result := fresh_address (m_family s) in
  match name k (m_sock s) (getAddrLen result) with
  | None => None
  | Some (bs, addrlen) =>
      let result := store_addr host result bs in
      Some (if m_family s =? AF_UNIX then setAddrLen result addrlen else result)
  end.

Definition getRemoteAddress (k : K) (s : Socket) : Address * Socket :=
  match m_remoteAddress s with
  | Some a => (a, s)
  | None => match ask_address sys_getpeername k s with
            | None => (UnKnownAddress (u16 (m_family s)) (repeat 0 14), s)
            | Some a => (a, set_remote s (Some a))
            end
  end.

Definition getLocalAddress (k : K) (s : Socket) : Address * Socket :=
  match m_localAddress s with
  | Some a => (a, s)
  | None => match ask_address sys_getsockname k s with
            | None => (UnKnownAddress (u16 (m_family s)) (repeat 0 14), s)
            | Some a => (a, set_local s (Some a))
            end
  end.

Definition init (k : K) (s : Socket) (sock : Z) : bool * Socket * K :=
  match fd_ctx k sock with
  | Some (true, false) =>
      let s := set_connected (set_sock s sock) true in
      let k := initSock k s in
      let s := (getLocalAddress k s).2 in
      (true, (getRemoteAddress k s).2, k)
  | _ => (false, s, k)
  end.

Definition accept (k : K) (s : Socket) : option Socket * K :=
  let sock := new_Socket (m_family s) (m_type s) (m_protocol s) in
  let '(newsock, k) := sys_accept k (m_sock s) in
  if newsock =? -1 then (None, k) else
  let '(ok, sock, k) := init k sock newsock in
  (if ok then Some sock else None, k).

Definition bind (k : K) (s : Socket) (addr : Address) : bool * Socket * K :=
  let '(s, k) := if negb (isValid s) then newSock k s else (s, k) in
  if negb (isValid s) then (false, s, k) else
  if negb (getFamily host addr =? m_family s) then (false, s, k) else
  let '(rt, k) := sys_bind k (m_sock s) (getAddr host addr) in
  if negb (rt =? 0) then (false, s, k) else
  (true, (getLocalAddress k s).2, k).

Definition connect (k : K) (s : Socket) (addr : Address) (timeout_ms : Z) : bool * Socket * K :=
  let s := set_remote s (Some addr) in
  let '(s, k) := if negb (isValid s) then newSock k s else (s, k) in
  if negb (isValid s) then (false, s, k) else
  if negb (getFamily host addr =? m_family s) then (false, s, k) else
  let '(rt, k) :=
    if timeout_ms =? UINT64_MAX then sys_connect k (m_sock s) (getAddr host addr)
    else sys_connect_with_timeout k (m_sock s) (getAddr host addr) timeout_ms in
  if negb (rt =? 0) then let '(_, s, k) := close k s in (false, s, k) else
  let s := set_connected s true in
  let s := (getRemoteAddress k s).2 in
  (true, (getLocalAddress k s).2, k).

Definition listen (k : K) (s : Socket) (backlog : Z) : bool * K :=
  if negb (isValid s) then (false, k) else
  let '(rt, k) := sys_listen k (m_sock s) backlog in (rt =? 0, k).

(** ** Creation *)

(** [CreateTCP], [CreateTCPSocket], [CreateTCPSocket6], [CreateUnixTCPSocket] and
    [CreateUnixUDPSocket] leave the descriptor for later. *)
Definition CreateTCP (address : Address) : Socket := new_Socket (getFamily host address) TCP 0.
Definition CreateTCPSocket : Socket := new_Socket IPv4 TCP 0.
Definition CreateTCPSocket6 : Socket := new_Socket IPv6 TCP 0.
Definition CreateUnixTCPSocket : Socket := new_Socket UNIX TCP 0.
Definition CreateUnixUDPSocket : Socket := new_Socket UNIX UDP 0.

(** The others ask for one at once and call the socket connected. *)
Definition create_udp (k : K) (family : Z) : Socket * K :=
  let '(s, k) := newSock k (new_Socket family UDP 0) in (set_connected s true, k).
Definition CreateUDP (k : K) (address : Address) : Socket * K := create_udp k (getFamily host address).
Definition CreateUDPSocket (k : K) : Socket * K := create_udp k IPv4.
Definition CreateUDPSocket6 (k : K) : Socket * K := create_udp k IPv6.

(** ** Transfers: -1 unless connected *)

Definition send (k : K) (s : Socket) (buffer : list Z) (flags : Z) : Z * K :=
  if isConnected s then sys_send k (m_sock s) buffer flags else (-1, k).
Definition send_iov (k : K) (s : Socket) (buffers : list (list Z)) (flags : Z) : Z * K :=
  if isConnected s then sys_sendmsg k (m_sock s) buffers None flags else (-1, k).
Definition sendTo (k : K) (s : Socket) (buffer : list Z) (to : Address) (flags : Z) : Z * K :=
  if isConnected s then sys_sendto k (m_sock s) buffer flags (getAddr host to) else (-1, k).
Definition sendTo_iov (k : K) (s : Socket) (buffers : list (list Z)) (to : Address) (flags : Z) : Z * K :=
  if isConnected s then sys_sendmsg k (m_sock s) buffers (Some (getAddr host to)) flags else (-1, k).
Definition recv (k : K) (s : Socket) (length flags : Z) : (Z * list Z) * K :=
  if isConnected s then sys_recv k (m_sock s) length flags else ((-1, []), k).
Definition recv_iov (k : K) (s : Socket) (lengths : list Z) (flags : Z) : (Z * list Z) * K :=
  if isConnected s then let '((rt, bs, _), k) := sys_recvmsg k (m_sock s) lengths None flags in ((rt, bs), k) else ((-1, []), k).
(** [recvFrom] stores the sender over [from]; its length is dropped. *)
Definition recvFrom (k : K) (s : Socket) (length : Z) (from : Address) (flags : Z) : (Z * list Z) * Address * K :=
  if isConnected s then
    let '((rt, bs, name), k) := sys_recvfrom k (m_sock s) length flags (getAddrLen from) in
    ((rt, bs), store_addr host from name, k)
  else ((-1, []), from, k).
Definition recvFrom_iov (k : K) (s : Socket) (lengths : list Z) (from : Address) (flags : Z) : (Z * list Z) * Address * K :=
  if isConnected s then
    let '((rt, bs, name), k) := sys_recvmsg k (m_sock s) lengths (Some (getAddrLen from)) flags in
    ((rt, bs), store_addr host from name, k)
  else ((-1, []), from, k).

Definition cancelRead (k : K) (s : Socket) : bool * K := io_cancelEvent k (m_sock s) 1.
Definition cancelWrite (k : K) (s : Socket) : bool * K := io_cancelEvent k (m_sock s) 4.
Definition cancelAccept (k : K) (s : Socket) : bool * K := io_cancelEvent k (m_sock s) 1.
Definition cancelAll (k : K) (s : Socket) : bool * K := io_cancelAll k (m_sock s).

Definition dump (s : Socket) : string :=
  ("[Socket sock=" ++ pretty (m_sock s) ++ " is_connected=" ++ (if m_isConnected s then "1" else "0")
   ++ " family=" ++ pretty (m_family s) ++ " type=" ++ pretty (m_type s) ++ " protocol=" ++ pretty (m_protocol s)
   ++ match m_localAddress s with Some a => " local_address=" ++ toString host a | None => "" end
   ++ match m_remoteAddress s with Some a => " remote_address=" ++ toString host a | None => "" end
   ++ "]")%string.

(** ** The stream *)

(** [m_socket] may be null. *)
Record SocketStream := mkStream { m_socket : option Socket; m_owner : bool }.

Definition stream_isConnected (st : SocketStream) : bool :=
  match m_socket st with Some s => isConnected s | None => false end.

Definition stream_read (k : K) (st : SocketStream) (length : Z) : (Z * list Z) * K :=
  match m_socket st with
  | Some s => if isConnected s then recv k s length 0 else ((-1, []), k)
  | None => ((-1, []), k)
  end.

Definition stream_write (k : K) (st : SocketStream) (buffer : list Z) : Z * K :=
  match m_socket st with
  | Some s => if isConnected s then send k s buffer 0 else (-1, k)
  | None => (-1, k)
  end.

Definition stream_close (k : K) (st : SocketStream) : SocketStream * K :=
  match m_socket st with
  | Some s => let '(_, s, k) := close k s in (mkStream (Some s) (m_owner st), k)
  | None => (st, k)
  end.

(** The destructor of the stream closes an owned socket. *)
Definition stream_destroy (k : K) (st : SocketStream) : SocketStream * K :=
  if m_owner st then stream_close k st else (st, k).

Definition getRemoteAddressString (k : K) (st : SocketStream) : string * SocketStream :=
  match m_socket st with
  | Some s => let '(a, s) := getRemoteAddress k s in (toString host a, mkStream (Some s) (m_owner st))
  | None => (""%string, st)
  end.

Definition getLocalAddressString (k : K) (st : SocketStream) : string * SocketStream :=
  match m_socket st with
  | Some s => let '(a, s) := getLocalAddress k s in (toString host a, mkStream (Some s) (m_owner st))
  | None => (""%string, st)
  end.

End socket.

End So.
