(* ===== verification/SocketProps.v ===== *)
(** Sockets: every open descriptor has one owner, and what closes, creates and
    connects keeps it so. *)

From stdpp Require Import gmap strings.
From S2P Require Import Prelude Strs Endian Address Socket.

Import Ad So.
Local Open Scope Z_scope.

Section own.
Context {K : Type} `{KernelLaws K} (host : Z).

(** ** What a method does to the descriptor *)

(** It stays, is new, or is closed. *)
Inductive change (k : K) (s : Socket) (k' : K) (s' : Socket) : Prop :=
  | ch_same : m_sock s' = m_sock s -> open k' = open k -> change k s k' s'
  | ch_new : m_sock s = -1 -> 0 <= m_sock s' -> m_sock s' ∉ open k -> open k' = {[m_sock s']} ∪ open k -> change k s k' s'
  | ch_closed : m_sock s <> -1 -> m_sock s' = -1 -> open k' = open k ∖ {[m_sock s]} -> change k s k' s'.

Lemma setOption_open k s l o v : open (setOption k s l o v).2 = open k.
Proof. unfold setOption. pose proof (law_setsockopt k (m_sock s) l o v). by destruct (sys_setsockopt _ _ _ _ _). Qed.

Lemma initSock_open k s : open (initSock k s) = open k.
Proof. unfold initSock. case_match; by rewrite ?setOption_open. Qed.

Lemma newSock_change k s : m_sock s = -1 -> change k s (newSock k s).2 (newSock k s).1.
Proof.
  intros Hs. unfold newSock. pose proof (law_socket k (m_family s) (m_type s) (m_protocol s)) as Hl.
  destruct (sys_socket _ _ _ _) as [d k1]. destruct Hl as [[-> Ho] | (Hd & Hn & Ho)].
  - apply ch_same; [done | exact Ho].
  - destruct (Z.eqb_spec d (-1)); [lia |]. cbn [negb fst snd]. apply ch_new; [done | done | done |]. by rewrite initSock_open.
Qed.

Lemma close_change k s : change k s (close k s).2 (close k s).1.2.
Proof.
  unfold close. change (m_sock (set_connected s false)) with (m_sock s). destruct (Z.eqb_spec (m_sock s) (-1)) as [E|E].
  - destruct (m_isConnected s); by apply ch_same.
  - rewrite andb_false_r. cbn [negb]. apply ch_closed; [done | done | apply law_close].
Qed.

Lemma getLocalAddress_sock k s : m_sock (getLocalAddress host k s).2 = m_sock s.
Proof. unfold getLocalAddress. by repeat case_match. Qed.

Lemma getRemoteAddress_sock k s : m_sock (getRemoteAddress host k s).2 = m_sock s.
Proof. unfold getRemoteAddress. by repeat case_match. Qed.

(** The descriptor that [bind] and [connect] work on. *)
Definition ensure (k : K) (s : Socket) : Socket * K := if negb (isValid s) then newSock k s else (s, k).

Lemma ensure_change k s : change k s (ensure k s).2 (ensure k s).1.
Proof.
  unfold ensure, isValid. destruct (Z.eqb_spec (m_sock s) (-1)); cbn [negb]; [by apply newSock_change | by apply ch_same].
Qed.

Lemma change_after k s k1 s1 k2 s2 : change k s k1 s1 -> m_sock s2 = m_sock s1 -> open k2 = open k1 -> change k s k2 s2.
Proof.
  intros Hc Hs Ho. destruct Hc; [apply ch_same | apply ch_new | apply ch_closed]; rewrite ?Hs, ?Ho; assumption.
Qed.

Lemma bind_change k s a : change k s (bind host k s a).2 (bind host k s a).1.2.
Proof.
  unfold bind. fold (ensure k s). pose proof (ensure_change k s) as Hc. destruct (ensure k s) as [s1 k1]. cbn [fst snd] in Hc.
  destruct (isValid s1); [| done]. cbn [negb]. case_match; [done |].
  pose proof (law_bind k1 (m_sock s1) (getAddr host a)) as Hl. destruct (sys_bind _ _ _) as [rt k2]. cbn [snd] in Hl.
  case_match; cbn [fst snd]; eapply change_after; try exact Hc; try done. apply getLocalAddress_sock.
Qed.

(** A socket closed after its descriptor was made has none, as before. *)
Lemma change_close k s k1 s1 : m_sock s = -1 \/ m_sock s1 = m_sock s -> change k s k1 s1 ->
  change k s (close k1 s1).2 (close k1 s1).1.2.
Proof.
  intros Hor Hc. pose proof (close_change k1 s1) as Hx. destruct (close k1 s1) as [[b s2] k2]. cbn [fst snd] in *.
  destruct Hc as [Hs Ho | Hs Hd Hn Ho | Hs Hs1 Ho].
  - destruct Hx as [Hs2 Ho2 | Hs2 Hd2 Hn2 Ho2 | Hs2 Hs3 Ho2]; rewrite ?Hs, ?Ho in *; [by apply ch_same | by apply ch_new | by apply ch_closed].
  - destruct Hx as [Hs2 Ho2 | Hs2 Hd2 Hn2 Ho2 | Hs2 Hs3 Ho2]; [apply ch_new; congruence | lia |].
    apply ch_same; [congruence |]. rewrite Ho2, Ho. set_solver.
  - destruct Hor as [? | E]; congruence.
Qed.

Lemma connect_change k s a t : change k s (connect host k s a t).2 (connect host k s a t).1.2.
Proof.
  unfold connect. set (s0 := set_remote s (Some a)). assert (E0 : m_sock s0 = m_sock s) by done. fold (ensure k s0).
  assert (Hc : change k s (ensure k s0).2 (ensure k s0).1).
  { pose proof (ensure_change k s0) as Hc. destruct Hc; rewrite ?E0 in *; [by apply ch_same | by apply ch_new | by apply ch_closed]. }
  assert (Hor : m_sock s = -1 \/ m_sock (ensure k s0).1 = m_sock s).
  { unfold ensure, isValid. rewrite E0. destruct (Z.eqb_spec (m_sock s) (-1)); [by left | by right]. }
  destruct (ensure k s0) as [s1 k1]. cbn [fst snd] in *.
  destruct (isValid s1); [| done]. cbn [negb]. case_match; [done |].
  assert (Hl : open (if t =? UINT64_MAX then sys_connect k1 (m_sock s1) (getAddr host a)
                     else sys_connect_with_timeout k1 (m_sock s1) (getAddr host a) t).2 = open k1)
    by (case_match; [apply law_connect | apply law_connect_timeout]).
  destruct (if t =? UINT64_MAX then _ else _) as [rt k2]. cbn [snd] in Hl. case_match.
  - pose proof (change_close k s k2 s1 Hor) as Hx. destruct (close k2 s1) as [[b s2] k3]. cbn [fst snd] in *.
    apply Hx. eapply change_after; [exact Hc | done | done].
  - cbn [fst snd]. eapply change_after; [exact Hc | | done]. by rewrite getLocalAddress_sock, getRemoteAddress_sock.
Qed.

Lemma create_udp_change k family : change k (new_Socket family UDP 0) (create_udp k family).2 (create_udp k family).1.
Proof.
  unfold create_udp. pose proof (newSock_change k (new_Socket family UDP 0) eq_refl) as Hc.
  destruct (newSock _ _) as [s1 k1]. eapply change_after; [exact Hc | done | done].
Qed.

Lemma listen_open k s n : open (listen k s n).2 = open k.
Proof. unfold listen. case_match; [done |]. pose proof (law_listen k (m_sock s) n). by destruct (sys_listen _ _ _). Qed.

(** [accept]: nothing, a socket with the new descriptor, or a descriptor that
    nobody has. *)
Lemma accept_spec k s :
  match (accept host k s).1 with
  | Some s' => change k (new_Socket (m_family s) (m_type s) (m_protocol s)) (accept host k s).2 s'
  | None => open (accept host k s).2 = open k \/ exists d, (d ∉ open k) /\ open (accept host k s).2 = {[d]} ∪ open k
  end.
Proof.
  unfold accept. pose proof (law_accept k (m_sock s)) as Hl. destruct (sys_accept k (m_sock s)) as [d k1].
  destruct Hl as [[-> Ho] | (Hd & Hn & Ho)]; [by left |]. destruct (Z.eqb_spec d (-1)); [lia |]. unfold init.
  destruct (fd_ctx k1 d) as [[[] []]|]; cbn [fst snd]; try by (right; exists d).
  apply ch_new; [done | | |]; rewrite ?initSock_open, getRemoteAddress_sock, getLocalAddress_sock; done.
Qed.

(** ** The owners *)

(** A process: the kernel, the socket objects, and the descriptors that are not
    theirs. *)
Definition valid (s : Socket) : Prop := m_sock s <> -1.

Record owned (k : K) (objs : gmap nat Socket) (foreign : gset Z) : Prop := {
  own_open : forall d, d ∈ open k <-> d ∈ foreign \/ exists p s, objs !! p = Some s /\ valid s /\ m_sock s = d;
  own_mine : forall p s, objs !! p = Some s -> valid s -> m_sock s ∉ foreign;
  own_once : forall p q s t, objs !! p = Some s -> objs !! q = Some t -> valid s -> m_sock s = m_sock t -> p = q;
}.

Lemma owned_kernel k k' objs foreign : owned k objs foreign -> open k' = open k -> owned k' objs foreign.
Proof. intros [H1 H2 H3] E. split; [by setoid_rewrite E | done | done]. Qed.

Lemma change_open k s k' s' :
  change k s k' s' -> (valid s -> m_sock s ∈ open k) ->
  forall d, d ∈ open k' <-> (d = m_sock s' /\ valid s') \/ (d ∈ open k /\ (valid s -> d <> m_sock s)).
Proof.
  unfold valid. intros Hc Hin d. destruct Hc as [Hs -> | Hs Hd Hn -> | Hs Hs' ->].
  - split; [| intros [[-> Hv] | [? _]]; [| done]].
    + intros Hd. destruct (decide (d = m_sock s)) as [-> | Hne]; [| right; by split]. destruct (decide (m_sock s = -1)) as [E|E].
      * right. split; [done |]. intros Hv. by destruct Hv.
      * left. split; [done |]. by rewrite Hs.
    + rewrite Hs. apply Hin. congruence.
  - rewrite elem_of_union, elem_of_singleton. split; [intros [-> | Hd2]; [left; split; [done | lia] | right; split; [done | congruence]] |].
    intros [[-> _] | [Hd2 _]]; [by left | by right].
  - rewrite elem_of_difference, elem_of_singleton. split; [intros [? ?]; right; by split |].
    intros [[_ Hv] | [? Hne]]; [congruence |]. split; [done |]. by apply Hne.
Qed.

Lemma owned_change k objs foreign p s k' s' :
  owned k objs foreign -> objs !! p = Some s -> change k s k' s' -> owned k' (<[p := s']> objs) foreign.
Proof.
  intros [H1 H2 H3] Hp Hc. assert (Hval : valid s' -> m_sock s' = m_sock s /\ valid s \/ m_sock s' ∉ open k).
  { intros Hv. destruct Hc as [Hs _ | _ _ Hn _ | _ Hs _]; [left; split; [done |]; unfold valid in *; congruence | by right | done]. }
  assert (Hin : forall q t, objs !! q = Some t -> valid t -> m_sock t ∈ open k) by (intros q t Hq Ht; apply H1; right; by exists q, t).
  split.
  - intros d. rewrite (change_open k s k' s' Hc (Hin p s Hp)), H1. split.
    + intros [[-> Hv] | [[Hf | (q & t & Hq & Ht & <-)] Hne]]; [right; exists p, s'; by rewrite lookup_insert_eq | by left |].
      right. destruct (decide (q = p)) as [-> | Hqp]; [assert (t = s) by congruence; subst; by destruct (Hne Ht) |].
      exists q, t. by rewrite lookup_insert_ne.
    + intros [Hf | (q & t & Hq & Ht & <-)].
      * right. split; [by left |]. intros Hv ->. by apply (H2 p s).
      * destruct (decide (q = p)) as [-> | Hqp]; [rewrite lookup_insert_eq in Hq; injection Hq as <-; by left |].
        rewrite lookup_insert_ne in Hq by done. right. split; [right; by exists q, t |]. intros Hv E. apply Hqp. by apply (H3 q p t s).
  - intros q t. destruct (decide (q = p)) as [-> | Hqp]; [rewrite lookup_insert_eq; intros [= <-] Hv | rewrite lookup_insert_ne by done; apply H2].
    destruct (Hval Hv) as [[-> Hvs] | Hn]; [by apply (H2 p s) |]. intros Hf. apply Hn, H1. by left.
  - assert (Hone : forall q t, q <> p -> objs !! q = Some t -> valid t -> valid s' -> m_sock s' <> m_sock t).
    { intros q t Hqp Hq Ht Hv E. destruct (Hval Hv) as [[Es Hvs] | Hn]; [apply Hqp; symmetry; apply (H3 p q s t); congruence |].
      apply Hn. rewrite E. by apply (Hin q). }
    intros q1 q2 t1 t2. destruct (decide (q1 = p)) as [-> | Hq1], (decide (q2 = p)) as [-> | Hq2]; rewrite ?lookup_insert_eq, ?lookup_insert_ne by done;
      intros E1 E2 Hv E; [done | | | by apply (H3 q1 q2 t1 t2)].
    + injection E1 as <-. destruct (Hone q2 t2 Hq2 E2); [unfold valid in *; congruence | done | done].
    + injection E2 as <-. destruct (Hone q1 t1 Hq1 E1); [done | unfold valid in *; congruence | done].
Qed.

(** Objects without a descriptor come and go. *)
Lemma owned_add k objs foreign p s : owned k objs foreign -> objs !! p = None -> m_sock s = -1 -> owned k (<[p := s]> objs) foreign.
Proof.
  intros [H1 H2 H3] Hp Hs. assert (Hl : forall q t, <[p := s]> objs !! q = Some t -> valid t -> objs !! q = Some t).
  { intros q t. destruct (decide (q = p)) as [-> | Hne]; [rewrite lookup_insert_eq; by intros [= <-] [] | by rewrite lookup_insert_ne]. }
  split.
  - intros d. rewrite H1. split; (intros [Hf | (q & t & Hq & Ht & E)]; [by left | right]); exists q, t; [| by auto].
    rewrite lookup_insert_ne; [done |]. intros ->. congruence.
  - intros q t Hq Ht. apply (H2 q); auto.
  - intros q1 q2 t1 t2 E1 E2 Hv E. apply (H3 q1 q2 t1 t2); auto. apply Hl; [done |]. unfold valid in *. congruence.
Qed.

Lemma owned_drop k objs foreign p s : owned k objs foreign -> objs !! p = Some s -> m_sock s = -1 -> owned k (delete p objs) foreign.
Proof.
  intros [H1 H2 H3] Hp Hs. assert (Hl : forall q t, delete p objs !! q = Some t -> objs !! q = Some t) by (intros q t [_ ?]%lookup_delete_Some; done).
  split.
  - intros d. rewrite H1. split; (intros [Hf | (q & t & Hq & Ht & E)]; [by left | right]); exists q, t; [| by auto].
    rewrite lookup_delete_ne; [done |]. intros ->. assert (t = s) as -> by congruence. done.
  - intros q t Hq Ht. apply (H2 q); auto.
  - intros q1 q2 t1 t2 E1 E2 Hv E. apply (H3 q1 q2 t1 t2); auto.
Qed.

Lemma owned_foreign k k' objs foreign d :
  owned k objs foreign -> d ∉ open k -> open k' = {[d]} ∪ open k -> owned k' objs ({[d]} ∪ foreign).
Proof.
  intros [H1 H2 H3] Hd Ho. split; [| | done].
  - intros e. rewrite Ho, !elem_of_union, H1, elem_of_singleton. tauto.
  - intros p s Hp Hv. rewrite elem_of_union, elem_of_singleton. intros [E | Hf]; [| by apply (H2 p s)].
    apply Hd, H1. right. by exists p, s.
Qed.

Lemma close_sock k s : m_sock (close k s).1.2 = -1.
Proof.
  unfold close. change (m_sock (set_connected s false)) with (m_sock s). destruct (Z.eqb_spec (m_sock s) (-1)) as [E|E].
  - by destruct (m_isConnected s).
  - rewrite andb_false_r. done.
Qed.

(** What an [accept] without a socket leaves. *)
Lemma owned_lost k k' o f l :
  owned k o (f ∪ l) -> (open k' = open k \/ exists d, (d ∉ open k) /\ open k' = {[d]} ∪ open k) -> owned k' o (f ∪ (open k' ∖ open k ∪ l)).
Proof.
  intros Hw [Ho | (d & Hd & Ho)].
  - replace (f ∪ (open k' ∖ open k ∪ l)) with (f ∪ l) by (rewrite Ho; apply leibniz_equiv; set_solver). by eapply owned_kernel.
  - replace (f ∪ (open k' ∖ open k ∪ l)) with ({[d]} ∪ (f ∪ l)) by (rewrite Ho; apply leibniz_equiv; set_solver). by eapply owned_foreign.
Qed.

(** ** Processes *)

Record world := mkWorld { kern : K; objs : gmap nat Socket; lost : gset Z }.

Inductive op :=
  | OCreate (p : nat) (family type : Z)
  | OCreateUDP (p : nat) (family : Z)
  | OBind (p : nat) (a : Address)
  | OConnect (p : nat) (a : Address) (timeout : Z)
  | OListen (p : nat) (backlog : Z)
  | OAccept (p q : nat)
  | OClose (p : nat)
  | ODestroy (p : nat).

(** An operation on an object, or on the place for a new one; [lost] collects what
    [accept] obtained and no object took. *)
Inductive step : world -> op -> world -> Prop :=
  | s_create k o l p family type :
      o !! p = None -> step (mkWorld k o l) (OCreate p family type) (mkWorld k (<[p := new_Socket family type 0]> o) l)
  | s_udp k o l p family s k' :
      o !! p = None -> create_udp k family = (s, k') -> step (mkWorld k o l) (OCreateUDP p family) (mkWorld k' (<[p := s]> o) l)
  | s_bind k o l p a s b s' k' :
      o !! p = Some s -> bind host k s a = (b, s', k') -> step (mkWorld k o l) (OBind p a) (mkWorld k' (<[p := s']> o) l)
  | s_connect k o l p a t s b s' k' :
      o !! p = Some s -> connect host k s a t = (b, s', k') -> step (mkWorld k o l) (OConnect p a t) (mkWorld k' (<[p := s']> o) l)
  | s_listen k o l p n s b k' :
      o !! p = Some s -> listen k s n = (b, k') -> step (mkWorld k o l) (OListen p n) (mkWorld k' o l)
  | s_accept k o l p q s s' k' :
      o !! p = Some s -> o !! q = None -> accept host k s = (Some s', k') -> step (mkWorld k o l) (OAccept p q) (mkWorld k' (<[q := s']> o) l)
  | s_accept_fail k o l p q s k' :
      o !! p = Some s -> accept host k s = (None, k') -> step (mkWorld k o l) (OAccept p q) (mkWorld k' o ((open k' ∖ open k) ∪ l))
  | s_close k o l p s b s' k' :
      o !! p = Some s -> close k s = (b, s', k') -> step (mkWorld k o l) (OClose p) (mkWorld k' (<[p := s']> o) l)
  | s_destroy k o l p s b s' k' :
      o !! p = Some s -> close k s = (b, s', k') -> step (mkWorld k o l) (ODestroy p) (mkWorld k' (delete p o) l).

Definition world_ok (foreign : gset Z) (w : world) : Prop := owned (kern w) (objs w) (foreign ∪ lost w).

Lemma owned_new k o f p s k' s' :
  owned k o f -> o !! p = None -> m_sock s = -1 -> change k s k' s' -> owned k' (<[p := s']> o) f.
Proof.
  intros Ho Hp Hs Hc. rewrite <- (insert_insert_eq o p s' s). eapply owned_change; [by apply owned_add | apply lookup_insert_eq | done].
Qed.

Lemma step_ok foreign w o w' : world_ok foreign w -> step w o w' -> world_ok foreign w'.
Proof.
  unfold world_ok. intros Hw Hs. destruct Hs as [k o l p f t Hp | k o l p f s k' Hp E | k o l p a s b s' k' Hp E | k o l p a t s b s' k' Hp E
    | k o l p n s b k' Hp E | k o l p q s s' k' Hp Hq E | k o l p q s k' Hp E | k o l p s b s' k' Hp E | k o l p s b s' k' Hp E]; cbn [kern objs lost] in *.
  - by apply owned_add.
  - pose proof (create_udp_change k f) as Hc. rewrite E in Hc. by refine (owned_new _ _ _ _ _ _ _ Hw Hp _ Hc).
  - pose proof (bind_change k s a) as Hc. rewrite E in Hc. by eapply owned_change.
  - pose proof (connect_change k s a t) as Hc. rewrite E in Hc. by eapply owned_change.
  - pose proof (listen_open k s n) as Hc. rewrite E in Hc. by eapply owned_kernel.
  - pose proof (accept_spec k s) as Hc. rewrite E in Hc. by refine (owned_new _ _ _ _ _ _ _ Hw Hq _ Hc).
  - pose proof (accept_spec k s) as Hc. rewrite E in Hc. by apply owned_lost.
  - pose proof (close_change k s) as Hc. rewrite E in Hc. by eapply owned_change.
  - pose proof (close_change k s) as Hc. pose proof (close_sock k s) as Hn. rewrite E in Hc, Hn. cbn [fst snd] in *.
    rewrite <- (delete_insert_eq o p s'). eapply owned_drop; [by eapply owned_change | apply lookup_insert_eq | done].
Qed.

(** The step that an operation makes. *)
Definition exec (w : world) (o : op) : option world :=
  let '(mkWorld k m l) := w in
  match o with
  | OCreate p f t => match m !! p with None => Some (mkWorld k (<[p := new_Socket f t 0]> m) l) | _ => None end
  | OCreateUDP p f => match m !! p with None => let '(s, k) := create_udp k f in Some (mkWorld k (<[p := s]> m) l) | _ => None end
  | OBind p a => s ← m !! p; let '(_, s, k) := bind host k s a in Some (mkWorld k (<[p := s]> m) l)
  | OConnect p a t => s ← m !! p; let '(_, s, k) := connect host k s a t in Some (mkWorld k (<[p := s]> m) l)
  | OListen p n => s ← m !! p; let '(_, k) := listen k s n in Some (mkWorld k m l)
  | OAccept p q => s ← m !! p; match m !! q, accept host k s with
                   | None, (Some s', k') => Some (mkWorld k' (<[q := s']> m) l)
                   | _, (None, k') => Some (mkWorld k' m ((open k' ∖ open k) ∪ l))
                   | Some _, _ => None
                   end
  | OClose p => s ← m !! p; let '(_, s, k) := close k s in Some (mkWorld k (<[p := s]> m) l)
  | ODestroy p => s ← m !! p; let '(_, _, k) := close k s in Some (mkWorld k (delete p m) l)
  end.

Lemma exec_step w o w' : exec w o = Some w' -> step w o w'.
Proof.
  destruct w as [k m l]. destruct o; cbn [exec]; unfold mbind, option_bind; repeat case_match; intros; simplify_eq; by econstructor.
Qed.

Inductive run : world -> world -> Prop :=
  | run_nil w : run w w
  | run_cons w o w' w'' : step w o w' -> run w' w'' -> run w w''.

Lemma run_ok foreign w w' : world_ok foreign w -> run w w' -> world_ok foreign w'.
Proof. intros Hw. induction 1 as [| w o w' w'' Hs _ IH]; [done |]. by eapply IH, step_ok. Qed.

Lemma start_world_ok k0 : world_ok (open k0) (mkWorld k0 ∅ ∅).
Proof.
  split; cbn [objs kern lost].
  - intros d. rewrite union_empty_r_L. split; [by left |]. intros [? | (p & s & Hp & _)]; [done |]. by rewrite lookup_empty in Hp.
  - intros p s Hp. by rewrite lookup_empty in Hp.
  - intros p q s t Hp. by rewrite lookup_empty in Hp.
Qed.

(** C24: Every descriptor has one owner. After any sequence of creating sockets,
    binding, connecting, listening, accepting, closing and destroying them: the
    descriptor of a socket is open and belongs to no other socket, so that no
    [close] hits a descriptor twice or one that is someone else's; the open
    descriptors are those of the start, those of the sockets, and those that
    [accept] got and its [init] refused; a failed [connect] leaves none behind;
    and when all sockets are gone nothing else stays open. *)
Theorem sockets_own_descriptors k0 w :
  run (mkWorld k0 ∅ ∅) w ->
  (forall p s, objs w !! p = Some s -> valid s -> m_sock s ∈ open (kern w) /\ (m_sock s ∉ open k0) /\ m_sock s ∉ lost w)
  /\ (forall p q s t, objs w !! p = Some s -> objs w !! q = Some t -> valid s -> m_sock s = m_sock t -> p = q)
  /\ (forall d, d ∈ open (kern w) -> d ∈ open k0 \/ d ∈ lost w \/ exists p s, objs w !! p = Some s /\ m_sock s = d)
  /\ open k0 ⊆ open (kern w)
  /\ (objs w = ∅ -> open (kern w) = open k0 ∪ lost w).
Proof.
  intros Hr. destruct (run_ok _ _ _ (start_world_ok k0) Hr) as [H1 H2 H3]. split_and!.
  - intros p s Hp Hv. pose proof (H2 p s Hp Hv) as Hn. rewrite elem_of_union in Hn. split_and!; [| tauto | tauto]. apply H1. right. by exists p, s.
  - exact H3.
  - intros d Hd. apply H1 in Hd as [[Hd | Hd]%elem_of_union | (p & s & Hp & _ & E)]; [by left | right; by left |]. right; right. by exists p, s.
  - intros d Hd. apply H1. left. apply elem_of_union. by left.
  - intros E. apply leibniz_equiv. intros d. rewrite H1. split; [| by left]. intros [? | (p & s & Hp & _)]; [done |].
    by rewrite E, lookup_empty in Hp.
Qed.

(** ** What goes wrong *)

(** The creators of UDP sockets call the socket connected though there is none:
    [send] then works on descriptor -1. *)
Theorem udp_connected_without_descriptor k k' family :
  sys_socket k family UDP 0 = (-1, k') ->
  isConnected (create_udp k family).1 = true /\ isValid (create_udp k family).1 = false
  /\ forall bs, send k' (create_udp k family).1 bs 0 = sys_send k' (-1) bs 0.
Proof. intros E. unfold create_udp, newSock. cbn [m_family m_type m_protocol new_Socket]. by rewrite E. Qed.

(** ...but the Unix one is never connected by [bind], so it can send to nobody. *)
Theorem unix_udp_cannot_send k k' s b a bs to flags :
  bind host k CreateUnixUDPSocket a = (b, s, k') -> sendTo host k' s bs to flags = (-1, k').
Proof.
  intros E. unfold sendTo, isConnected. assert (m_isConnected s = false) as ->; [| done].
  revert E. unfold bind, newSock, getLocalAddress. repeat case_match; simplify_eq/=; try done; try congruence;
    intros; simplify_eq/=; repeat case_match; done.
Qed.

(** A socket that is closed and connected again still names its first local
    address. *)
Theorem local_address_stale k s a k' addr t k'' s' :
  m_localAddress s = Some a -> (close k s).2 = k' -> connect host k' (close k s).1.2 addr t = (true, s', k'') -> m_localAddress s' = Some a.
Proof.
  intros Ha _. assert (Hc : m_localAddress (close k s).1.2 = Some a) by (unfold close; repeat case_match; done).
  generalize dependent (close k s).1.2. intros s1 Hc E. revert E. unfold connect, newSock, getLocalAddress, getRemoteAddress, close.
  cbn [set_remote m_remoteAddress set_connected]. repeat case_match; simplify_eq/=; intros; simplify_eq/=; try congruence; try done.
Qed.

(** When the descriptor manager does not know an accepted descriptor as a socket,
    it stays open and nobody has it. *)
Theorem accept_loses_descriptor k s d k' :
  sys_accept k (m_sock s) = (d, k') -> d <> -1 -> fd_ctx k' d = None -> accept host k s = (None, k') /\ d ∈ open k'.
Proof.
  intros E Hd Hc. unfold accept. pose proof (law_accept k (m_sock s)) as Hl. rewrite E in *. destruct (Z.eqb_spec d (-1)); [done |].
  unfold init. rewrite Hc. split; [done |]. destruct Hl as [[? _] | (_ & _ & ->)]; [done |]. set_solver.
Qed.
End own.

(** ** A kernel *)

(** It hands out descriptors in turn and lets everything succeed. *)
Record toy := mkToy { t_next : nat; t_open : gset Z }.

Definition toy_open (k : toy) : gset Z := filter (fun d => 0 <= d < Z.of_nat (t_next k)) (t_open k).
Definition toy_new (k : toy) : Z * toy := (Z.of_nat (t_next k), mkToy (S (t_next k)) ({[Z.of_nat (t_next k)]} ∪ t_open k)).

#[global] Instance toy_kernel : Kernel toy := {
  sys_socket k _ _ _ := toy_new k;
  sys_accept k _ := toy_new k;
  sys_bind k _ _ := (0, k);
  sys_listen k _ _ := (0, k);
  sys_connect k _ _ := (0, k);
  sys_connect_with_timeout k _ _ _ := (-1, k);
  sys_close k d := mkToy (t_next k) (t_open k ∖ {[d]});
  sys_setsockopt k _ _ _ _ := (0, k);
  sys_getsockopt_error k _ := ((0, 0), k);
  sys_getpeername _ _ _ := None;
  sys_getsockname _ _ _ := None;
  sys_send k _ bs _ := (Z.of_nat (length bs), k);
  sys_sendto k _ bs _ _ := (Z.of_nat (length bs), k);
  sys_sendmsg k _ bs _ _ := (Z.of_nat (length (concat bs)), k);
  sys_recv k _ _ _ := ((0, []), k);
  sys_recvfrom k _ _ _ _ := ((0, [], []), k);
  sys_recvmsg k _ _ _ _ := ((0, [], []), k);
  sys_errno _ := 0;
  fd_ctx _ _ := Some (true, false);
  fd_timeout _ _ _ := None;
  io_cancelEvent k _ _ := (true, k);
  io_cancelAll k _ := (true, k);
}.

Lemma toy_new_law k : let '(d, k') := toy_new k in
  (d = -1 /\ toy_open k' = toy_open k) \/ (0 <= d /\ (d ∉ toy_open k) /\ toy_open k' = {[d]} ∪ toy_open k).
Proof.
  right. unfold toy_open. cbn [t_next t_open]. split_and!; [lia | rewrite elem_of_filter; lia |].
  apply leibniz_equiv. intros e. rewrite elem_of_union, !elem_of_filter, elem_of_union, elem_of_singleton.
  destruct (decide (e = Z.of_nat (t_next k))) as [-> |]; [split; [by left | intros _; split; [lia | by left]] |].
  split; [intros [? [? | ?]]; [done | right; split; [lia | done]] | intros [? | [? ?]]; [done | split; [lia | by right]]].
Qed.

#[global] Instance toy_laws : KernelLaws toy.
Proof.
  refine {| open := toy_open |}.
  - intros. apply toy_new_law.
  - intros. apply toy_new_law.
  - intros k fd. apply leibniz_equiv. unfold toy_open. cbn. intros e. rewrite elem_of_difference, !elem_of_filter, elem_of_difference. tauto.
  - done.
  - done.
  - done.
  - done.
  - done.
  - done.
Defined.

(** A server with a client, and a client whose connection fails. *)
Definition demo_ops : list op :=
  [OCreate 0 AF_INET TCP; OBind 0 (IPv4Address (new_IPv4Address 1 0 0)); OListen 0 SOMAXCONN; OAccept 0 1;
   OCreate 2 AF_INET TCP; OConnect 2 (IPv4Address (new_IPv4Address 1 0 0)) 100; OClose 0].

Fixpoint exec_all (w : @world toy) (l : list op) : option world :=
  match l with [] => Some w | o :: l => w ← exec 1 w o; exec_all w l end.

Lemma exec_run l : forall w w', exec_all w l = Some w' -> run 1 w w'.
Proof.
  induction l as [| o l IH]; intros w w'; cbn [exec_all]; [intros [= <-]; constructor |].
  destruct (exec 1 w o) as [w1|] eqn:E; [| done]. cbn. intros Hr. econstructor; [by apply exec_step | by apply IH].
Qed.

Lemma sockets_own_descriptors_witness :
  exists w s, exec_all (mkWorld (mkToy 1 {[0]}) ∅ ∅) demo_ops = Some w /\ objs w !! 1%nat = Some s /\ m_sock s = 2
    /\ m_sock s ∈ open (kern w) /\ (forall d, d ∈ open (kern w) -> d = 0 \/ exists p t, objs w !! p = Some t /\ m_sock t = d).
Proof.
  destruct (exec_all (mkWorld (mkToy 1 {[0]}) ∅ ∅) demo_ops) as [w|] eqn:E; [| vm_compute in E; discriminate E].
  destruct (sockets_own_descriptors 1 _ w (exec_run _ _ _ E)) as (H1 & _ & H3 & _).
  assert (Hs : exists s, objs w !! 1%nat = Some s /\ m_sock s = 2 /\ lost w = ∅).
  { vm_compute in E. injection E as <-. eexists. split; [vm_compute; reflexivity | split; reflexivity]. }
  destruct Hs as (s & Hs & E2 & El). exists w, s. split_and!; [done | done | done | |].
  - apply (H1 _ _ Hs). unfold valid. rewrite E2. discriminate.
  - intros d Hd. destruct (H3 d Hd) as [H0 | [H0 | H0]]; [left | rewrite El in H0; by apply not_elem_of_empty in H0 | by right].
    cbn in H0. unfold toy_open in H0. apply elem_of_filter in H0 as [_ H0]. cbn [t_open] in H0. by apply elem_of_singleton in H0.
Defined.
