(* ===== verification/TcpServer.v ===== *)
(** The TCP server, tcp_server.cc: binding, the accept loops, stopping.

    Sockets are shared: the server's vector and the scheduled functions hold
    pointers to them, and the last one to go closes the socket. What the
    schedulers run is the list [tasks]; a fiber gives way where it blocks, so an
    accept loop is cut at its call of [accept]. The call waits for a connection;
    it goes on when one comes, or when the events of its descriptor are
    cancelled, as [Socket::cancelAll] and the hooked [close] do. *)

From stdpp Require Import gmap.
From S2P Require Import Prelude Endian Address Socket.

Module Ts.

Import Ad So.
Local Open Scope Z_scope.

Inductive task :=
  | TAccept (p : nat)              (* startAccept, about to test m_isStop *)
  | TBlocked (p : nat) (fd : Z) (woken : bool)   (* in accept, with the descriptor it was called with *)
  | TClient (q : nat)              (* handleClient *)
  | TStop.                         (* the function that stop schedules *)

Definition uses (t : task) (p : nat) : bool :=
  match t with TAccept q | TBlocked q _ _ | TClient q => (q =? p)%nat | TStop => false end.

(** The events of a descriptor are triggered: the calls that wait for it go on. *)
Definition wake1 (fd : Z) (t : task) : task :=
  match t with TBlocked p fd' w => TBlocked p fd' (w || (fd' =? fd)) | _ => t end.

Section server.
Context {K : Type} `{KernelLaws K} (host : Z).

Record TcpServer := mkServer {
  kern : K;
  heap : gmap nat Socket;
  m_socks : list nat;
  m_isStop : bool;
  m_recvTimeout : Z;
  tasks : list task;
  lost : gset Z;                   (* descriptors that accept got and no socket took *)
}.

Definition set_kern (s : TcpServer) v := mkServer v (heap s) (m_socks s) (m_isStop s) (m_recvTimeout s) (tasks s) (lost s).
Definition set_heap (s : TcpServer) v := mkServer (kern s) v (m_socks s) (m_isStop s) (m_recvTimeout s) (tasks s) (lost s).
Definition set_socks (s : TcpServer) v := mkServer (kern s) (heap s) v (m_isStop s) (m_recvTimeout s) (tasks s) (lost s).
Definition set_stop (s : TcpServer) v := mkServer (kern s) (heap s) (m_socks s) v (m_recvTimeout s) (tasks s) (lost s).
Definition set_tasks (s : TcpServer) v := mkServer (kern s) (heap s) (m_socks s) (m_isStop s) (m_recvTimeout s) v (lost s).
Definition set_lost (s : TcpServer) v := mkServer (kern s) (heap s) (m_socks s) (m_isStop s) (m_recvTimeout s) (tasks s) v.

Definition new_TcpServer (k : K) (recv_timeout : Z) : TcpServer := mkServer k ∅ [] true recv_timeout [] ∅.

(** ** Pointers *)

Definition referenced (s : TcpServer) (p : nat) : bool :=
  bool_decide (p ∈ m_socks s) || existsb (fun t => uses t p) (tasks s).

(** A pointer goes: the socket's destructor runs when it was the last. Nobody waits
    on it then. *)
Definition release (s : TcpServer) (p : nat) : outcome TcpServer :=
  if referenced s p then Ok s else
  sock ← of_ptr (heap s !! p);
  let '(_, _, k) := close (kern s) sock in
  Ok (set_heap (set_kern s k) (delete p (heap s))).

Fixpoint release_all (s : TcpServer) (ps : list nat) : outcome TcpServer :=
  match ps with [] => Ok s | p :: ps => s ← release s p; release_all s ps end.

(** [m_socks.clear()] *)
Definition clear_socks (s : TcpServer) : outcome TcpServer := release_all (set_socks s []) (m_socks s).

(** ** Binding *)

(** One address: a socket that cannot be bound or listen is destroyed at the end
    of the turn. *)
Definition bind_one (s : TcpServer) (addr : Address) : bool * TcpServer :=
  let sock := CreateTCP host addr in
  let '(ok, sock, k) := bind host (kern s) sock addr in
  if negb ok then let '(_, _, k) := close k sock in (false, set_kern s k) else
  let '(ok, k) := listen k sock SOMAXCONN in
  if negb ok then let '(_, _, k) := close k sock in (false, set_kern s k) else
  let p := fresh (dom (heap s)) in
  (true, set_socks (set_heap (set_kern s k) (<[p := sock]> (heap s))) (m_socks s ++ [p])).

Fixpoint bind_loop (s : TcpServer) (addrs fails : list Address) : list Address * TcpServer :=
  match addrs with
  | [] => (fails, s)
  | addr :: addrs =>
      let '(ok, s) := bind_one s addr in
      bind_loop s addrs (if ok then fails else fails ++ [addr])
  end.

Definition bind_all (s : TcpServer) (addrs fails : list Address) : outcome (bool * list Address * TcpServer) :=
  let '(fails, s) := bind_loop s addrs fails in
  match fails with
  | [] => Ok (true, [], s)
  | _ => s ← clear_socks s; Ok (false, fails, s)
  end.

Definition bind_addr (s : TcpServer) (addr : Address) : outcome (bool * TcpServer) :=
  '(ok, _, s) ← bind_all s [addr] []; Ok (ok, s).

(** ** Starting and stopping *)

Definition start (s : TcpServer) : bool * TcpServer :=
  if negb (m_isStop s) then (true, s) else
  (true, set_tasks (set_stop s false) (tasks s ++ (TAccept <$> m_socks s))).

Definition stop (s : TcpServer) : TcpServer := set_tasks (set_stop s true) (tasks s ++ [TStop]).

Definition wake (s : TcpServer) (fd : Z) : TcpServer := set_tasks s (wake1 fd <$> tasks s).

(** The loops over the sockets in the function that [stop] schedules, which
    cancels their events first, and in the destructor. Closing a descriptor
    cancels its events as well. Nobody waits on -1. *)
Fixpoint close_all (cancel : bool) (s : TcpServer) (ps : list nat) : outcome TcpServer :=
  match ps with
  | [] => Ok s
  | p :: ps =>
      sock ← of_ptr (heap s !! p);
      let s := if cancel then wake (set_kern s (cancelAll (kern s) sock).2) (m_sock sock) else s in
      let '(_, sock', k) := close (kern s) sock in
      close_all cancel (set_heap (wake (set_kern s k) (m_sock sock)) (<[p := sock']> (heap s))) ps
  end.

Definition on_stop (s : TcpServer) : outcome TcpServer := s ← close_all true s (m_socks s); clear_socks s.

(** ** Running *)

(** [client->setRecvTimeout] and the hand-over of a client. *)
Definition take_client (s : TcpServer) (client : Socket) : TcpServer :=
  let k := setRecvTimeout (kern s) client (m_recvTimeout s) in
  let q := fresh (dom (heap s)) in
  set_tasks (set_heap (set_kern s k) (<[q := client]> (heap s))) (tasks s ++ [TClient q]).

(** Task [i] up to where it gives way; [None]: it waits. A call of [accept] on
    descriptor -1 fails at once; any other waits until it is woken. *)
Definition run_task (s : TcpServer) (i : nat) : outcome (option TcpServer) :=
  t ← of_ptr (tasks s !! i);
  let gone := set_tasks s (delete i (tasks s)) in
  match t with
  | TAccept p =>
      if m_isStop s then s ← release gone p; Ok (Some s) else
      sock ← of_ptr (heap s !! p);
      Ok (Some (set_tasks s (<[i := TBlocked p (m_sock sock) (m_sock sock =? -1)]> (tasks s))))
  | TBlocked p fd false => Ok None
  | TBlocked p fd true =>
      sock ← of_ptr (heap s !! p);
      let '(client, k) := accept host (kern s) (set_sock sock fd) in
      let s' := set_tasks (set_kern s k) (<[i := TAccept p]> (tasks s)) in
      Ok (Some match client with
               | Some c => take_client s' c
               | None => set_lost s' ((open k ∖ open (kern s)) ∪ lost s)
               end)
  | TClient q => s ← release gone q; Ok (Some s)
  | TStop => s ← on_stop gone; Ok (Some s)
  end.

(** A connection comes in for the call that task [i] waits in. When another loop
    takes it first, the call waits on, as if none had come. *)
Definition arrive (s : TcpServer) (i : nat) : TcpServer :=
  match tasks s !! i with
  | Some (TBlocked p fd false) => set_tasks s (<[i := TBlocked p fd true]> (tasks s))
  | _ => s
  end.

(** [~TcpServer], when no task is left. *)
Definition destroy (s : TcpServer) : outcome TcpServer :=
  s ← close_all false s (m_socks s); clear_socks s.

End server.

End Ts.
