(* ===== verification/TcpServerProps.v ===== *)
(** The TCP server: it binds all addresses or none, its sockets live exactly as
    long as someone uses them, and once stopped it comes to rest. *)

From stdpp Require Import gmap.
From S2P Require Import Prelude Endian Address Socket SocketProps TcpServer.

Import Ad So Ts.
Local Open Scope Z_scope.

Section props.
Context {K : Type} `{KernelLaws K} (host : Z).
Abbreviation server := (@TcpServer K).

(** ** Who uses a socket *)

Definition task_uses (ts : list task) (p : nat) : Prop := exists t, t ∈ ts /\ uses t p = true.
Definition Refs (s : server) (p : nat) : Prop := p ∈ m_socks s \/ task_uses (tasks s) p.

Lemma referenced_spec (s : server) p : referenced s p = true <-> Refs s p.
Proof.
  unfold referenced, Refs, task_uses. rewrite orb_true_iff, bool_decide_eq_true, existsb_exists.
  by setoid_rewrite list_elem_of_In.
Qed.

Lemma task_uses_perm ts ts' p : ts ≡ₚ ts' -> task_uses ts p -> task_uses ts' p.
Proof. intros E (t & Ht & Hu). exists t. by rewrite <- E. Qed.

Lemma task_uses_cons t ts p : task_uses (t :: ts) p <-> uses t p = true \/ task_uses ts p.
Proof.
  unfold task_uses. split; [intros (u & [-> | Hu]%elem_of_cons & Hp); [by left | right; by exists u] |].
  intros [Hp | (u & Hu & Hp)]; [exists t | exists u]; split; try done; [by left | by right].
Qed.

Lemma task_uses_app ts ts' p : task_uses (ts ++ ts') p <-> task_uses ts p \/ task_uses ts' p.
Proof. unfold task_uses. setoid_rewrite elem_of_app. naive_solver. Qed.

(** Taking a task out, and putting another in its place. *)
Lemma task_uses_delete ts i t p : ts !! i = Some t -> task_uses ts p <-> uses t p = true \/ task_uses (delete i ts) p.
Proof.
  intros Hi. rewrite <- task_uses_cons. split; apply task_uses_perm; [| symmetry]; by apply delete_Permutation.
Qed.

Lemma task_uses_insert ts i t t' p :
  ts !! i = Some t -> (forall q, uses t' q = uses t q) -> task_uses (<[i := t']> ts) p <-> task_uses ts p.
Proof.
  intros Hi Hu. assert (Hi' : <[i := t']> ts !! i = Some t') by (apply list_lookup_insert_eq; by eapply lookup_lt_Some).
  rewrite (task_uses_delete _ _ _ _ Hi), (task_uses_delete _ _ _ _ Hi'), Hu.
  assert (delete i (<[i := t']> ts) = delete i ts) as ->; [| done].
  apply lookup_lt_Some in Hi. rewrite !delete_take_drop, take_insert_ge, drop_insert_lt by lia. done.
Qed.

(** Waking changes nothing but who waits. *)
Definition wakes (t t' : task) : Prop := t' = t \/ exists p fd, t = TBlocked p fd false /\ t' = TBlocked p fd true.

Lemma wake1_wakes fd t : wakes t (wake1 fd t).
Proof. destruct t as [| p fd' [] | |]; cbn; [by left | by left | | by left | by left]. destruct (fd' =? fd); [right; eauto | by left]. Qed.

Lemma wake_wakes (s : server) fd : Forall2 wakes (tasks s) (tasks (wake s fd)).
Proof. cbn. induction (tasks s); constructor; [apply wake1_wakes | done]. Qed.

Lemma wakes_uses t t' p : wakes t t' -> uses t' p = uses t p.
Proof. by intros [-> | (q & fd & -> & ->)]. Qed.

Lemma wakes_refl ts : Forall2 wakes ts ts.
Proof. induction ts; constructor; [by left | done]. Qed.

Lemma wakes_trans ts1 ts2 ts3 : Forall2 wakes ts1 ts2 -> Forall2 wakes ts2 ts3 -> Forall2 wakes ts1 ts3.
Proof.
  intros H1. revert ts3. induction H1 as [| a b l l' Hab _ IH]; intros ts3 H3; inversion H3 as [| ? c ? l'' Hbc Hl]; subst; constructor; [| by apply IH].
  destruct Hab as [-> | (p & fd & -> & ->)]; [done |]. destruct Hbc as [-> | (q & fe & ? & _)]; [right; eauto | done].
Qed.

Lemma task_uses_wakes ts ts' p : Forall2 wakes ts ts' -> task_uses ts' p <-> task_uses ts p.
Proof.
  induction 1 as [| t t' ts ts' Ht _ IH]; [done |]. by rewrite !task_uses_cons, IH, (wakes_uses _ _ _ Ht).
Qed.

Lemma wakes_stop ts ts' : Forall2 wakes ts ts' -> TStop ∈ ts' <-> TStop ∈ ts.
Proof.
  induction 1 as [| t t' ts ts' Ht _ IH]; [done |]. rewrite !elem_of_cons, IH.
  destruct Ht as [-> | (q & fd & -> & ->)]; naive_solver.
Qed.

(** A task that waits was waiting before. *)
Lemma wakes_elem ts ts' t' : Forall2 wakes ts ts' -> t' ∈ ts' -> exists t, t ∈ ts /\ wakes t t'.
Proof.
  intros Hw Ht. apply list_elem_of_lookup in Ht as [i Hi]. destruct (Forall2_lookup_r _ _ _ _ _ Hw Hi) as (t & Ht & Hwt).
  exists t. split; [by eapply list_elem_of_lookup_2 | done].
Qed.

(** ** The invariant: [extra] are pointers that are about to go. *)

Record slack (foreign : gset Z) (extra : list nat) (s : server) : Prop := {
  sl_own : owned (kern s) (heap s) (foreign ∪ lost s);
  sl_refs : forall p, is_Some (heap s !! p) <-> Refs s p \/ p ∈ extra;
  sl_nodup : NoDup (m_socks s);
}.

(** A server between its steps. *)
Definition server_ok (foreign : gset Z) (s : server) : Prop := slack foreign [] s.

Definition same_rest (s s' : server) : Prop :=
  m_isStop s' = m_isStop s /\ m_recvTimeout s' = m_recvTimeout s /\ tasks s' = tasks s /\ lost s' = lost s.

Lemma release_ok f s p extra :
  slack f (p :: extra) s -> p ∉ extra ->
  exists s', release s p = Ok s' /\ slack f extra s' /\ same_rest s s' /\ m_socks s' = m_socks s
    /\ forall q sock, heap s' !! q = Some sock -> heap s !! q = Some sock.
Proof.
  intros [H1 H2 H3] Hn. unfold release. destruct (referenced s p) eqn:E.
  - apply referenced_spec in E. exists s. split_and!; [done | | done | done | done]. split; [done | | done].
    intros q. rewrite H2, elem_of_cons. naive_solver.
  - assert (Hnr : ~ Refs s p) by (rewrite <- referenced_spec; congruence).
    destruct (proj2 (H2 p)) as [sock Hs]; [right; by left |]. rewrite Hs. cbn [of_ptr mbind outcome_bind].
    pose proof (close_change (kern s) sock) as Hc. pose proof (close_sock (kern s) sock) as Hm.
    destruct (close (kern s) sock) as [[b s'] k]. cbn [fst snd] in *. eexists. split_and!; [reflexivity | | done | done | intros q t; cbn; by intros [_ ?]%lookup_delete_Some]. split; [| | done].
    + cbn. rewrite <- (delete_insert_eq (heap s) p s'). eapply owned_drop; [by eapply owned_change | apply lookup_insert_eq | done].
    + intros q. cbn. change (Refs _ q) with (Refs s q). destruct (decide (q = p)) as [-> | Hne].
      * rewrite lookup_delete_eq. split; [by intros [] | intros [? | ?]; done].
      * rewrite lookup_delete_ne, H2, elem_of_cons by done. naive_solver.
Qed.

Lemma release_all_ok f ps : forall s, slack f ps s -> NoDup ps ->
  exists s', release_all s ps = Ok s' /\ server_ok f s' /\ same_rest s s' /\ m_socks s' = m_socks s
    /\ forall q sock, heap s' !! q = Some sock -> heap s !! q = Some sock.
Proof.
  induction ps as [| p ps IH]; intros s Hs Hn; cbn [release_all]; [by exists s |]. apply NoDup_cons in Hn as [Hp Hn].
  destruct (release_ok f s p ps Hs Hp) as (s1 & -> & Hs1 & (E1 & E2 & E3 & E4) & E5 & E6). cbn [mbind outcome_bind].
  destruct (IH s1 Hs1 Hn) as (s2 & E & Hs2 & (F1 & F2 & F3 & F4) & F5 & F6). exists s2. unfold same_rest. split_and!; auto; congruence.
Qed.

Lemma clear_socks_ok f s : server_ok f s -> exists s', clear_socks s = Ok s' /\ server_ok f s' /\ same_rest s s' /\ m_socks s' = []
    /\ forall q sock, heap s' !! q = Some sock -> heap s !! q = Some sock.
Proof.
  intros [H1 H2 H3]. unfold clear_socks. destruct (release_all_ok f (m_socks s) (set_socks s [])) as (s' & E & Hs & Hr & Hm & Hh); [| done | by exists s'].
  split; [done | | constructor]. intros p. cbn [heap set_socks]. rewrite H2. unfold Refs. cbn [m_socks tasks set_socks].
  rewrite !elem_of_nil. naive_solver.
Qed.

(** What closing leaves alone: tasks go on, at most they are woken. *)
Definition woken_rest (s s' : server) : Prop :=
  m_isStop s' = m_isStop s /\ lost s' = lost s /\ Forall2 wakes (tasks s) (tasks s').

Lemma woken_rest_trans s1 s2 s3 : woken_rest s1 s2 -> woken_rest s2 s3 -> woken_rest s1 s3.
Proof. intros (A1 & A2 & A3) (B1 & B2 & B3). split_and!; [congruence | congruence | by eapply wakes_trans]. Qed.

Lemma woken_refl s : woken_rest s s.
Proof. split_and!; [done | done | apply wakes_refl]. Qed.

Lemma same_woken s s' : same_rest s s' -> woken_rest s s'.
Proof. intros (? & _ & E & ?). split_and!; try done. rewrite E. apply wakes_refl. Qed.

Lemma wake_ok f s fd : server_ok f s -> server_ok f (wake s fd) /\ woken_rest s (wake s fd).
Proof.
  intros [H1 H2 H3]. split; [split; [done | | done] | split_and!; [done | done | apply wake_wakes]].
  intros p. cbn [heap wake set_tasks]. rewrite H2. unfold Refs. cbn [m_socks wake set_tasks].
  by rewrite (task_uses_wakes (tasks s) (tasks (wake s fd))) by apply wake_wakes.
Qed.

Lemma kern_ok f s k : server_ok f s -> open k = open (kern s) -> server_ok f (set_kern s k).
Proof. intros [H1 H2 H3] E. split; [by eapply owned_kernel | done | done]. Qed.

(** One turn of the loop. *)
Definition close_one (cancel : bool) (s : server) (p : nat) (sock : Socket) : server :=
  let s := if cancel then wake (set_kern s (cancelAll (kern s) sock).2) (m_sock sock) else s in
  let '(_, sock', k) := close (kern s) sock in
  set_heap (wake (set_kern s k) (m_sock sock)) (<[p := sock']> (heap s)).

Lemma close_all_cons cancel s p ps :
  close_all cancel s (p :: ps) = (sock ← of_ptr (heap s !! p); close_all cancel (close_one cancel s p sock) ps).
Proof.
  cbn [close_all]. destruct (heap s !! p) as [sock|]; [| done]. cbn [of_ptr mbind outcome_bind]. unfold close_one.
  by destruct (close _ sock) as [[b sock'] k].
Qed.

Lemma close_one_ok f cancel s p sock : server_ok f s -> heap s !! p = Some sock ->
  server_ok f (close_one cancel s p sock) /\ woken_rest s (close_one cancel s p sock) /\ m_socks (close_one cancel s p sock) = m_socks s
  /\ exists sock', heap (close_one cancel s p sock) = <[p := sock']> (heap s) /\ m_sock sock' = -1.
Proof.
  intros Hs Hp. unfold close_one. set (s0 := if cancel then _ else s).
  assert (Hs0 : server_ok f s0 /\ woken_rest s s0 /\ m_socks s0 = m_socks s /\ heap s0 = heap s).
  { destruct cancel; [| split_and!; try done; apply woken_refl]. assert (Hk : server_ok f (set_kern s (cancelAll (kern s) sock).2)) by (apply kern_ok; [done | apply law_cancelAll]).
    destruct (wake_ok f _ (m_sock sock) Hk) as [Hw Hr]. by split_and!. }
  destruct Hs0 as (Hs0 & Hr0 & Hm0 & Hh0). clearbody s0. pose proof (close_change (kern s0) sock) as Hc. pose proof (close_sock (kern s0) sock) as Hm.
  destruct (close (kern s0) sock) as [[b sock'] k]. cbn [fst snd] in Hc, Hm.
  assert (H1 : server_ok f (set_heap (set_kern s0 k) (<[p := sock']> (heap s0)))).
  { rewrite <- Hh0 in Hp. destruct Hs0 as [O1 O2 O3]. split; [by eapply owned_change | | done]. intros q. cbn [heap set_heap].
    change (Refs (set_heap _ _) q) with (Refs s0 q). rewrite <- O2. destruct (decide (q = p)) as [-> | ?];
      [rewrite lookup_insert_eq, Hp; split; eauto | by rewrite lookup_insert_ne]. }
  destruct (wake_ok f _ (m_sock sock) H1) as [H2 H3]. split_and!; [exact H2 | | done | exists sock'; split; [cbn; by rewrite Hh0 | done]].
  eapply woken_rest_trans; [exact Hr0 | exact H3].
Qed.

Lemma close_all_ok f cancel ps : forall s, server_ok f s -> (forall p, p ∈ ps -> Refs s p) ->
  exists s', close_all cancel s ps = Ok s' /\ server_ok f s' /\ woken_rest s s' /\ m_socks s' = m_socks s.
Proof.
  induction ps as [| p ps IH]; intros s Hs Hps; [exists s; split_and!; try done; apply woken_refl |]. rewrite close_all_cons.
  destruct (proj2 (sl_refs _ _ _ Hs p)) as [sock Hp]; [left; apply Hps; by left |]. rewrite Hp. cbn [of_ptr mbind outcome_bind].
  destruct (close_one_ok f cancel s p sock Hs Hp) as (H1 & H2 & H3 & _).
  destruct (IH _ H1) as (s' & E & Hs' & Hr & Hm); [| exists s'; split_and!; [done | done | by eapply woken_rest_trans | congruence]].
  intros q Hq. destruct (Hps q) as [? | Ht]; [by right | left; by rewrite H3 | right]. by apply (task_uses_wakes (tasks s)); [apply H2 |].
Qed.

Lemma on_stop_ok f s : server_ok f s -> exists s', on_stop s = Ok s' /\ server_ok f s' /\ woken_rest s s' /\ m_socks s' = [].
Proof.
  intros Hs. unfold on_stop. destruct (close_all_ok f true (m_socks s) s Hs) as (s1 & -> & Hs1 & R1 & _); [intros p Hp; by left |].
  cbn [mbind outcome_bind]. destruct (clear_socks_ok f s1 Hs1) as (s2 & E & Hs2 & R2 & Hm & _). exists s2. split_and!; try done.
  eapply woken_rest_trans; [done | by apply same_woken].
Qed.

(** The destructor closes what is left. *)
Theorem destroy_closes f s :
  server_ok f s -> tasks s = [] -> exists s', destroy s = Ok s' /\ heap s' = ∅ /\ open (kern s') = f ∪ lost s'.
Proof.
  intros Hs Ht. unfold destroy. destruct (close_all_ok f false (m_socks s) s Hs) as (s1 & -> & Hs1 & (_ & _ & T1) & _); [intros p Hp; by left |].
  rewrite Ht in T1. apply Forall2_nil_inv_l in T1.
  cbn [mbind outcome_bind]. destruct (clear_socks_ok f s1 Hs1) as (s2 & E & [O2 R2 _] & (_ & _ & T2 & _) & Hm & _). exists s2.
  assert (He : heap s2 = ∅).
  { apply map_empty. intros p. apply eq_None_not_Some. rewrite R2. unfold Refs. rewrite Hm, T2, T1.
    intros [[Hin | (t & Hin & _)] | Hin]; by apply elem_of_nil in Hin. }
  split_and!; [done | done |]. apply leibniz_equiv. intros d. rewrite (own_open _ _ _ O2). split; [| by left].
  intros [? | (p & sock & Hp & _)]; [done |]. by rewrite He, lookup_empty in Hp.
Qed.

(** ** Steps *)

Lemma take_client_ok f (s : server) k0 c base :
  owned k0 (heap s) (f ∪ lost s) -> m_sock base = -1 -> change k0 base (kern s) c ->
  (forall p, is_Some (heap s !! p) <-> Refs s p) -> NoDup (m_socks s) -> server_ok f (take_client s c).
Proof.
  intros Ho Hb Hc Hr Hn. assert (Hf : heap s !! fresh (dom (heap s)) = None) by (apply not_elem_of_dom, is_fresh).
  split; [| | done]; unfold take_client; cbn [kern heap lost set_heap set_kern set_tasks].
  - eapply owned_kernel; [by refine (owned_new _ _ _ _ _ _ _ Ho Hf Hb Hc) |]. unfold setRecvTimeout. apply setOption_open.
  - intros p. unfold Refs. cbn [m_socks tasks set_heap set_kern set_tasks]. rewrite task_uses_app, task_uses_cons. cbn [uses].
    rewrite Nat.eqb_eq. assert (Hnil : ~ task_uses [] p) by (intros (t & Ht & _); by apply elem_of_nil in Ht).
    rewrite elem_of_nil. destruct (decide (p = fresh (dom (heap s)))) as [-> | Hne].
    + rewrite lookup_insert_eq. split; [tauto | eauto].
    + rewrite lookup_insert_ne by done. rewrite Hr. unfold Refs. naive_solver.
Qed.

Lemma blocked_ok f s i p fd :
  server_ok f s -> tasks s !! i = Some (TBlocked p fd true) -> exists s', run_task host s i = Ok (Some s') /\ server_ok f s'
    /\ m_isStop s' = m_isStop s /\ m_socks s' = m_socks s /\ (forall q sock, is_Some (heap s !! q) -> heap s' !! q = Some sock -> heap s !! q = Some sock)
    /\ exists cs, tasks s' = <[i := TAccept p]> (tasks s) ++ cs /\ (length cs <= 1)%nat /\ Forall (fun t => exists q, t = TClient q) cs.
Proof.
  intros [H1 H2 H3] Hi. unfold run_task. rewrite Hi. cbn [of_ptr mbind outcome_bind].
  assert (Hp : Refs s p) by (right; exists (TBlocked p fd true); split; [by eapply list_elem_of_lookup_2 | cbn; apply Nat.eqb_refl]).
  destruct (proj2 (H2 p) (or_introl Hp)) as [sock Hs]. rewrite Hs. cbn [of_ptr mbind outcome_bind].
  pose proof (accept_spec host (kern s) (set_sock sock fd)) as Ha. destruct (accept host (kern s) (set_sock sock fd)) as [[c|] k]; cbn [fst snd] in Ha.
  - eexists. split; [reflexivity |]. split; [| split_and!; [done | done | |]].
    + eapply (take_client_ok f (set_tasks (set_kern s k) (<[i := TAccept p]> (tasks s)))); [exact H1 | | exact Ha | | done]; [done |].
      intros q. cbn [heap set_tasks set_kern]. rewrite H2, elem_of_nil. unfold Refs. cbn [m_socks tasks set_tasks set_kern].
      rewrite (task_uses_insert _ _ _ _ _ Hi) by done. tauto.
    + intros q sk [y Hq]. cbn. rewrite lookup_insert_ne; [done |]. intros <-. revert Hq. rewrite (not_elem_of_dom_1 (heap s)); [done | apply is_fresh].
    + eexists. split; [reflexivity |]. split; [cbn; lia | repeat constructor; by eexists].
  - eexists. split; [reflexivity |]. split; [| split_and!; [done | done | done | exists []; split_and!; [by rewrite app_nil_r | cbn; lia | constructor]]].
    split; [| | done]; cbn [kern heap lost set_lost set_tasks set_kern].
    + by apply owned_lost.
    + intros q. rewrite H2, elem_of_nil. unfold Refs. cbn [m_socks tasks set_lost set_tasks set_kern].
      rewrite (task_uses_insert _ _ _ _ _ Hi) by done. tauto.
Qed.

(** Taking task [i] out leaves what it used to be released. *)
Lemma gone_ok f s i t : server_ok f s -> tasks s !! i = Some t ->
  slack f (match t with TAccept p | TBlocked p _ _ | TClient p => [p] | TStop => [] end) (set_tasks s (delete i (tasks s))).
Proof.
  intros [H1 H2 H3] Hi. split; [done | | done]. intros p. cbn [heap set_tasks]. rewrite H2, elem_of_nil. unfold Refs. cbn [m_socks tasks set_tasks].
  rewrite (task_uses_delete _ _ _ p Hi). destruct t as [q | q fd w | q |]; cbn [uses]; rewrite ?list_elem_of_singleton, ?elem_of_nil, ?Nat.eqb_eq; naive_solver.
Qed.

Lemma released_ok f s i t p : server_ok f s -> tasks s !! i = Some t -> t = TAccept p \/ t = TClient p ->
  exists s', release (set_tasks s (delete i (tasks s))) p = Ok s' /\ server_ok f s' /\ m_isStop s' = m_isStop s
    /\ tasks s' = delete i (tasks s) /\ m_socks s' = m_socks s /\ (forall q sock, heap s' !! q = Some sock -> heap s !! q = Some sock).
Proof.
  intros Hs Hi Ht. destruct (release_ok f (set_tasks s (delete i (tasks s))) p []) as (s' & E & Hs' & (E1 & _ & E3 & _) & E5 & E6).
  - pose proof (gone_ok f s i t Hs Hi) as Hg. by destruct Ht as [-> | ->].
  - apply not_elem_of_nil.
  - by exists s'.
Qed.

Lemma looped s p : (exists t, t ∈ tasks s /\ uses t p = true) -> Refs s p.
Proof. by right. Qed.

(** A loop that goes on: it calls [accept]. *)
Lemma accept_ok f s i p : server_ok f s -> tasks s !! i = Some (TAccept p) -> m_isStop s = false ->
  exists sock, heap s !! p = Some sock
    /\ let s' := set_tasks s (<[i := TBlocked p (m_sock sock) (m_sock sock =? -1)]> (tasks s)) in
       run_task host s i = Ok (Some s') /\ server_ok f s'.
Proof.
  intros [H1 H2 H3] Hi Hst. assert (Hp : Refs s p) by (right; exists (TAccept p); split; [by eapply list_elem_of_lookup_2 | cbn; apply Nat.eqb_refl]).
  destruct (proj2 (H2 p) (or_introl Hp)) as [sock Hk]. exists sock. split; [done |]. unfold run_task. rewrite Hi. cbn [of_ptr mbind outcome_bind].
  rewrite Hst, Hk. split; [reflexivity |]. split; [done | | done].
  intros q. cbn [heap set_tasks]. rewrite H2. unfold Refs. cbn [m_socks tasks set_tasks]. by rewrite (task_uses_insert _ _ _ _ _ Hi).
Qed.

(** Every step of a task goes through and keeps the invariant. *)
Lemma run_task_ok f s i t : server_ok f s -> tasks s !! i = Some t ->
  exists r, run_task host s i = Ok r /\ forall s', r = Some s' -> server_ok f s'.
Proof.
  intros Hs Hi. destruct t as [p | p fd [] | q |].
  - destruct (m_isStop s) eqn:Hst; [| destruct (accept_ok f s i p Hs Hi Hst) as (sock & _ & E & Hs'); eexists; split; [exact E | by intros ? [= <-]]].
    unfold run_task. rewrite Hi. cbn [of_ptr mbind outcome_bind]. rewrite Hst.
    destruct (released_ok f s i _ p Hs Hi (or_introl eq_refl)) as (s' & -> & Hs' & _). eexists. split; [reflexivity |]. by intros ? [= <-].
  - destruct (blocked_ok f s i p fd Hs Hi) as (s' & E & Hs' & _). eexists. split; [exact E |]. by intros ? [= <-].
  - unfold run_task. rewrite Hi. by eexists.
  - unfold run_task. rewrite Hi. destruct (released_ok f s i _ q Hs Hi (or_intror eq_refl)) as (s' & E & Hs' & _).
    cbn [of_ptr mbind outcome_bind]. rewrite E. eexists. split; [reflexivity |]. by intros ? [= <-].
  - unfold run_task. rewrite Hi. destruct (on_stop_ok f _ (gone_ok f s i _ Hs Hi)) as (s' & E & Hs' & _).
    cbn [of_ptr mbind outcome_bind]. rewrite E. eexists. split; [reflexivity |]. by intros ? [= <-].
Qed.

Lemma arrive_ok f s i p fd : server_ok f s -> tasks s !! i = Some (TBlocked p fd false) -> server_ok f (arrive s i).
Proof.
  intros [H1 H2 H3] Hi. unfold arrive. rewrite Hi. split; [done | | done]. intros q. cbn [heap set_tasks]. rewrite H2. unfold Refs. cbn [m_socks tasks set_tasks].
  by rewrite (task_uses_insert _ _ _ _ _ Hi).
Qed.

(** ** The accept loops

    A loop works on a socket of the server or on one that was closed; who waits
    does so on the descriptor of the socket. *)
Definition loop_on (t : task) (p : nat) : Prop := match t with TAccept q | TBlocked q _ _ => q = p | _ => False end.

Definition loop_ok (s : server) (t : task) (p : nat) (sock : Socket) : Prop :=
  (p ∈ m_socks s \/ m_sock sock = -1) /\ (forall fd, t = TBlocked p fd false -> m_sock sock = fd /\ fd <> -1).

Definition loops_ok (s : server) : Prop :=
  forall t p sock, t ∈ tasks s -> loop_on t p -> heap s !! p = Some sock -> loop_ok s t p sock.

(** Fewer tasks and sockets. *)
Lemma loops_sub s s' :
  loops_ok s -> (forall t p, t ∈ tasks s' -> loop_on t p -> t ∈ tasks s) -> m_socks s' = m_socks s ->
  (forall t p sock, t ∈ tasks s' -> loop_on t p -> heap s' !! p = Some sock -> heap s !! p = Some sock) -> loops_ok s'.
Proof. intros Hl Ht Hm Hh t p sock H1 H2 H3. unfold loop_ok. rewrite Hm. apply (Hl t p sock); eauto. Qed.

Lemma elem_delete (ts : list task) i t : t ∈ delete i ts -> t ∈ ts.
Proof.
  rewrite delete_take_drop, elem_of_app. intros [Ht | Ht]; apply list_elem_of_lookup in Ht as [j Hj].
  - apply lookup_take_Some in Hj as [Hj _]. by eapply list_elem_of_lookup_2.
  - rewrite lookup_drop in Hj. by eapply list_elem_of_lookup_2.
Qed.

Lemma elem_insert (ts : list task) i t u : t ∈ <[i := u]> ts -> t = u \/ t ∈ ts.
Proof. intros Ht. apply list_elem_of_lookup in Ht as [j Hj]. apply list_lookup_insert_Some in Hj as [(_ & <- & _) | (_ & Hj)]; [by left | right; by eapply list_elem_of_lookup_2]. Qed.

(** One task of a loop for another of the same loop that does not wait. *)
Lemma loops_insert s i p t u :
  loops_ok s -> tasks s !! i = Some t -> loop_on t p -> loop_on u p ->
  (forall fd sock, u = TBlocked p fd false -> heap s !! p = Some sock -> m_sock sock = fd /\ fd <> -1) ->
  loops_ok (set_tasks s (<[i := u]> (tasks s))).
Proof.
  intros Hl Hi Ht Hu Hw v q sock Hv Hq Hs. apply elem_insert in Hv as [-> | Hv]; [| by apply (Hl v q sock)].
  assert (q = p) as -> by (destruct u; cbn in Hu, Hq; first [done | congruence]).
  destruct (Hl t p sock) as [H1 _]; [by eapply list_elem_of_lookup_2 | done | done |]. split; [done |]. intros fd ->. by eapply Hw.
Qed.

Lemma loops_wakes s s' : loops_ok s -> Forall2 wakes (tasks s) (tasks s') -> m_socks s' = m_socks s -> heap s' = heap s -> loops_ok s'.
Proof.
  intros Hl Hw Hm Hh t' p sock Ht' Hp Hs. destruct (wakes_elem _ _ _ Hw Ht') as (t & Ht & Hwt). rewrite Hh in Hs. unfold loop_ok. rewrite Hm.
  destruct Hwt as [-> | (q & fd & -> & ->)]; [by apply (Hl t p sock) |]. destruct (Hl _ p sock Ht Hp Hs) as [? _]. by split.
Qed.

(** Closing a socket wakes who waits on it. *)
Lemma close_one_loops f cancel s p sock : server_ok f s -> heap s !! p = Some sock -> loops_ok s -> loops_ok (close_one cancel s p sock).
Proof.
  intros Hs Hp Hl. destruct (close_one_ok f cancel s p sock Hs Hp) as (_ & (_ & _ & Hw) & Hm & sock' & Hh & Hm').
  intros t' q sq Ht' Hq Hsq. destruct (wakes_elem _ _ _ Hw Ht') as (t & Ht & Hwt). unfold loop_ok. rewrite Hm. rewrite Hh in Hsq.
  assert (Hq' : loop_on t q) by (destruct Hwt as [-> | (r & fd & -> & ->)]; done).
  destruct (decide (q = p)) as [-> | Hne]; [| rewrite lookup_insert_ne in Hsq by done; destruct (Hl t q sq Ht Hq' Hsq) as [H1 H2]; split; [done |];
    intros fd ->; destruct Hwt as [<- | (r & fe & _ & [=])]; by apply H2]. rewrite lookup_insert_eq in Hsq. injection Hsq as <-.
  split; [by right |]. intros fd ->. exfalso. unfold close_one in Ht'. set (s0 := if cancel then _ else s) in Ht'.
  destruct (close (kern s0) sock) as [[b c] k]. cbn [tasks wake set_heap set_tasks set_kern] in Ht'. apply list_elem_of_fmap in Ht' as (u & Hu & Hin).
  destruct u as [| r fe w | |]; cbn in Hu; try done. injection Hu as <- <- Hwk. symmetry in Hwk. apply orb_false_iff in Hwk as [-> Hne].
  assert (Hin0 : TBlocked p fd false ∈ tasks s).
  { destruct Hwt as [<- | (r & fe & _ & [=])]. done. }
  destruct (Hl _ p sock Hin0 eq_refl Hp) as [_ H2]. destruct (H2 fd eq_refl) as [E _]. rewrite E, Z.eqb_refl in Hne. done.
Qed.

Lemma close_all_loops f cancel ps : forall s, server_ok f s -> loops_ok s -> (forall p, p ∈ ps -> Refs s p) ->
  forall s', close_all cancel s ps = Ok s' -> loops_ok s'
    /\ forall p sock, heap s' !! p = Some sock -> p ∈ ps \/ (exists sock0, heap s !! p = Some sock0 /\ m_sock sock0 = -1) -> m_sock sock = -1.
Proof.
  induction ps as [| p ps IH]; intros s Hs Hl Hps s'.
  { intros [= <-]. split; [done |]. intros p sock Hp [Hin | (s0 & E & ?)]; [by apply elem_of_nil in Hin | congruence]. }
  rewrite close_all_cons. destruct (proj2 (sl_refs _ _ _ Hs p)) as [sock Hp]; [left; apply Hps; by left |]. rewrite Hp. cbn [of_ptr mbind outcome_bind].
  destruct (close_one_ok f cancel s p sock Hs Hp) as (H1 & (_ & _ & H2) & H3 & sock' & H4 & H5). intros E.
  destruct (IH _ H1) with (s' := s') as [Hl' Hc]; [by eapply close_one_loops | | done |].
  { intros q Hq. destruct (Hps q) as [? | Ht]; [by right | left; by rewrite H3 | right]. by apply (task_uses_wakes (tasks s)). }
  split; [done |]. intros q sq Hq Hor. apply (Hc q sq Hq). rewrite H4. destruct (decide (q = p)) as [-> | Hne].
  - right. exists sock'. by rewrite lookup_insert_eq.
  - rewrite lookup_insert_ne by done. destruct Hor as [Hin | ?]; [| by right]. apply elem_of_cons in Hin as [? | ?]; [done | by left].
Qed.

Lemma on_stop_loops f s s' : server_ok f s -> loops_ok s -> on_stop s = Ok s' -> loops_ok s'.
Proof.
  intros Hs Hl. unfold on_stop. destruct (close_all_ok f true (m_socks s) s Hs) as (s1 & E1 & Hs1 & _ & Hm1); [intros p Hp; by left |].
  destruct (close_all_loops f true (m_socks s) s Hs Hl) with (s' := s1) as [Hl1 Hc]; [intros p Hp; by left | done |]. rewrite E1. cbn [mbind outcome_bind].
  destruct (clear_socks_ok f s1 Hs1) as (s2 & -> & _ & (_ & _ & T2 & _) & Hm2 & Hh2). intros [= <-] t p sock Ht Hp Hk. rewrite T2 in Ht. apply Hh2 in Hk.
  destruct (Hl1 t p sock Ht Hp Hk) as [H1 H2]. split; [right | done]. destruct H1 as [Hin | ?]; [| done]. apply (Hc p sock Hk). left. by rewrite <- Hm1.
Qed.

(** The steps of tasks keep the loops in order, and so does a connection. *)
Lemma run_task_loops f s i s' : server_ok f s -> loops_ok s -> run_task host s i = Ok (Some s') -> loops_ok s'.
Proof.
  intros Hs Hl. destruct (tasks s !! i) as [t|] eqn:Hi; [| unfold run_task; by rewrite Hi].
  assert (Hrel : forall p, t = TAccept p \/ t = TClient p -> forall s1, release (set_tasks s (delete i (tasks s))) p = Ok s1 -> loops_ok s1).
  { intros p Ht s1 E. destruct (released_ok f s i t p Hs Hi Ht) as (s2 & E' & _ & _ & E2 & E3 & E4). assert (s2 = s1) as -> by congruence.
    eapply loops_sub; [exact Hl | | done | by eauto]. intros u q Hu _. rewrite E2 in Hu. by eapply elem_delete. }
  destruct t as [p | p fd [] | q |].
  - destruct (m_isStop s) eqn:Hst.
    + unfold run_task. rewrite Hi. cbn [of_ptr mbind outcome_bind]. rewrite Hst. intros (s1 & E & [= <-])%bind_Ok_inv. eapply (Hrel p); [by left | done].
    + destruct (accept_ok f s i p Hs Hi Hst) as (sock & Hp & E & _). rewrite E. intros [= <-]. eapply loops_insert; try done.
      intros fd sk [= <- Hw] Hk. rewrite Hp in Hk. injection Hk as <-. split; [done |]. by apply Z.eqb_neq.
  - destruct (blocked_ok f s i p fd Hs Hi) as (s1 & E & Hs1 & _ & E2 & Eh & cs & E3 & _ & Hall). rewrite E. intros [= <-].
    assert (Hl2 : loops_ok (set_tasks s (<[i := TAccept p]> (tasks s)))) by (by eapply loops_insert).
    assert (Hsub : forall t q, t ∈ tasks s1 -> loop_on t q -> t ∈ <[i := TAccept p]> (tasks s)).
    { intros t q Ht Hq. rewrite E3 in Ht. apply elem_of_app in Ht as [? | Ht]; [done |]. rewrite Forall_forall in Hall. by destruct (Hall t Ht) as [r ->]. }
    eapply loops_sub; [exact Hl2 | exact Hsub | done |]. intros t q sock Ht Hq Hk. cbn [heap set_tasks]. apply Eh; [| done].
    apply (sl_refs _ _ _ Hs). left. right. apply (task_uses_insert _ i _ (TAccept p) q Hi); [done |]. exists t. split; [by eapply Hsub |].
    destruct t; cbn in *; try done; subst; apply Nat.eqb_refl.
  - unfold run_task. by rewrite Hi.
  - unfold run_task. rewrite Hi. cbn [of_ptr mbind outcome_bind]. intros (s1 & E & [= <-])%bind_Ok_inv. eapply (Hrel q); [by right | done].
  - unfold run_task. rewrite Hi. cbn [of_ptr mbind outcome_bind]. intros (s1 & E & [= <-])%bind_Ok_inv. eapply on_stop_loops; [exact (gone_ok f s i _ Hs Hi) | | exact E].
    eapply loops_sub; [exact Hl | | done | done]. intros u q Hu _. exact (elem_delete _ i _ Hu).
Qed.

Lemma arrive_loops s i p fd : loops_ok s -> tasks s !! i = Some (TBlocked p fd false) -> loops_ok (arrive s i).
Proof. intros Hl Hi. unfold arrive. rewrite Hi. by eapply loops_insert. Qed.

(** ** Stopping *)

(** How many steps the tasks of a stopped server still need. *)
Definition load1 (t : task) : nat := match t with TBlocked _ _ w => if w then 3 else 4 | _ => 1 end.
Definition load (ts : list task) : nat := sum_list_with load1 ts.

Definition stopping (s : server) : Prop := m_isStop s = true /\ (TStop ∈ tasks s \/ m_socks s = []).

Lemma load_delete ts i t : ts !! i = Some t -> load ts = (load1 t + load (delete i ts))%nat.
Proof.
  intros Hi. unfold load. rewrite <- (take_drop_middle ts i t Hi) at 1. rewrite delete_take_drop, !sum_list_with_app. cbn. lia.
Qed.

Lemma load_insert ts i t t' : ts !! i = Some t -> (load (<[i := t']> ts) + load1 t = load ts + load1 t')%nat.
Proof.
  intros Hi. unfold load. rewrite <- (take_drop_middle ts i t Hi) at 2. rewrite insert_take_drop by (by eapply lookup_lt_Some).
  rewrite !sum_list_with_app. cbn. lia.
Qed.

Lemma load_wakes ts ts' : Forall2 wakes ts ts' -> (load ts' <= load ts)%nat.
Proof. unfold load. induction 1 as [| t t' ts ts' Ht _ IH]; cbn; [lia |]. destruct Ht as [-> | (p & fd & -> & ->)]; cbn; lia. Qed.

Lemma stop_kept (ts : list task) (i : nat) t : ts !! i = Some t -> t <> TStop -> TStop ∈ ts -> TStop ∈ delete i ts.
Proof. intros Hi Ht Hin. rewrite (delete_Permutation ts i t Hi) in Hin. apply elem_of_cons in Hin as [<- | ?]; done. Qed.

Lemma stop_insert (ts : list task) (i : nat) t u : ts !! i = Some t -> t <> TStop -> TStop ∈ ts -> TStop ∈ <[i := u]> ts.
Proof.
  intros Hi Ht Hin. rewrite insert_take_drop by (by eapply lookup_lt_Some). rewrite <- (take_drop_middle _ _ _ Hi) in Hin.
  rewrite elem_of_app, elem_of_cons in *. naive_solver.
Qed.

Lemma stopping_step f s i t s' :
  server_ok f s -> stopping s -> tasks s !! i = Some t -> run_task host s i = Ok (Some s') ->
  stopping s' /\ (load (tasks s') < load (tasks s))%nat.
Proof.
  intros Hs [Hst Hss] Hi. pose proof (load_delete _ _ _ Hi) as Hl.
  assert (Hrel : forall p, t = TAccept p \/ t = TClient p -> forall s1, release (set_tasks s (delete i (tasks s))) p = Ok s1 ->
            stopping s1 /\ (load (tasks s1) < load (tasks s))%nat).
  { intros p Ht s1 E. destruct (released_ok f s i t p Hs Hi Ht) as (s2 & E' & _ & E1 & E2 & E3 & _). assert (s2 = s1) as -> by congruence.
    split; [| rewrite E2; destruct Ht; subst t; cbn in Hl; lia]. split; [congruence |]. rewrite E2, E3.
    destruct Hss as [Hin | ?]; [left; eapply stop_kept; [done | by destruct Ht; subst | done] | by right]. }
  destruct t as [p | p fd [] | q |].
  - unfold run_task. rewrite Hi. cbn [of_ptr mbind outcome_bind]. rewrite Hst. intros (s1 & E & [= <-])%bind_Ok_inv. eapply (Hrel p); [by left | done].
  - destruct (blocked_ok f s i p fd Hs Hi) as (s1 & E & _ & E1 & E2 & _ & cs & E3 & Hcs & Hall). rewrite E. intros [= <-]. split.
    + split; [congruence |]. rewrite E2, E3. destruct Hss as [Hin | ?]; [left | by right]. apply elem_of_app. left. by eapply stop_insert.
    + rewrite E3. unfold load. rewrite sum_list_with_app. pose proof (load_insert _ _ _ (TAccept p) Hi) as Hx. unfold load in Hx. cbn [load1] in Hx.
      assert (sum_list_with load1 cs <= length cs)%nat; [| lia]. clear -Hall. induction Hall as [| ? ? [q ->] _ IH]; cbn [sum_list_with length load1]; lia.
  - unfold run_task. by rewrite Hi.
  - unfold run_task. rewrite Hi. cbn [of_ptr mbind outcome_bind]. intros (s1 & E & [= <-])%bind_Ok_inv. eapply (Hrel q); [by right | done].
  - destruct (on_stop_ok f _ (gone_ok f s i _ Hs Hi)) as (s1 & E & _ & (E1 & _ & E3) & E4). unfold run_task. rewrite Hi. cbn [of_ptr mbind outcome_bind].
    rewrite E. intros [= <-]. apply load_wakes in E3. split; [| cbn [load1 tasks set_tasks] in *; lia]. split; [by rewrite E1 | by right].
Qed.

(** The tasks run in any order, and connections come in. *)
Inductive runs : nat -> server -> server -> Prop :=
  | runs_nil s : runs 0 s s
  | runs_task n i s s' s'' : run_task host s i = Ok (Some s') -> runs n s' s'' -> runs (S n) s s''
  | runs_arrive n i p fd s s'' : tasks s !! i = Some (TBlocked p fd false) -> runs n (arrive s i) s'' -> runs (S n) s s''.

(** A stopped server, somewhere on its way. *)
Definition ending (f : gset Z) (s : server) : Prop := server_ok f s /\ loops_ok s /\ stopping s.

Lemma ending_task f s i s' : ending f s -> run_task host s i = Ok (Some s') -> ending f s' /\ (load (tasks s') < load (tasks s))%nat.
Proof.
  intros (Hs & Hl & Hst) E. destruct (tasks s !! i) as [t|] eqn:Hi; [| unfold run_task in E; by rewrite Hi in E].
  destruct (stopping_step f s i t s' Hs Hst Hi E) as [Hst' Hlt]. destruct (run_task_ok f s i t Hs Hi) as (r & E' & Hr).
  split; [| done]. split_and!; [apply Hr; congruence | by eapply run_task_loops | done].
Qed.

Lemma ending_arrive f s i p fd : ending f s -> tasks s !! i = Some (TBlocked p fd false) ->
  ending f (arrive s i) /\ (load (tasks (arrive s i)) < load (tasks s))%nat.
Proof.
  intros (Hs & Hl & Hst & Hss) Hi. split; [split_and!; [by eapply arrive_ok | by eapply arrive_loops |] |].
  - unfold arrive. rewrite Hi. split; [done |]. destruct Hss as [Hin | ?]; [left; by eapply stop_insert | by right].
  - unfold arrive. rewrite Hi. cbn [tasks set_tasks]. pose proof (load_insert _ _ _ (TBlocked p fd true) Hi) as Hx. cbn [load1] in Hx. lia.
Qed.

Lemma ending_runs f n s s' : ending f s -> runs n s s' -> ending f s' /\ (n + load (tasks s') <= load (tasks s))%nat.
Proof.
  intros He Hr. revert He. induction Hr as [s | n i s s1 s2 E Hr IH | n i p fd s s2 Hi Hr IH]; intros He; [split; [done | lia] | |].
  - destruct (ending_task f s i s1 He E) as [He1 Hl]. destruct (IH He1). split; [done | lia].
  - destruct (ending_arrive f s i p fd He Hi) as [He1 Hl]. destruct (IH He1). split; [done | lia].
Qed.

(** Some task can go on without a connection. *)
Lemma ending_goes_on f s : ending f s -> tasks s <> [] -> exists i s', run_task host s i = Ok (Some s').
Proof.
  intros (Hs & Hl & Hst & Hss) Hne.
  assert (Hrun : forall i t, tasks s !! i = Some t -> (forall p fd, t <> TBlocked p fd false) -> exists i s', run_task host s i = Ok (Some s')).
  { intros i t Hi Ht. destruct (run_task_ok f s i t Hs Hi) as ([s'|] & E & _); [by exists i, s' |]. exfalso. revert E. unfold run_task. rewrite Hi.
    cbn [of_ptr mbind outcome_bind]. destruct t as [p | p fd [] | q |]; try (by intros (x & _ & [=])%bind_Ok_inv); [| | by destruct (Ht p fd)].
    - rewrite Hst. by intros (x & _ & [=])%bind_Ok_inv.
    - intros (x & _ & E)%bind_Ok_inv. by destruct (accept _ _ _). }
  destruct Hss as [Hin | Hm]; [apply list_elem_of_lookup in Hin as [i Hi]; by apply (Hrun i TStop) |].
  destruct (tasks s) as [| t ts] eqn:Et; [done |]. rewrite <- Et in *. assert (Hi : tasks s !! 0%nat = Some t) by (by rewrite Et).
  apply (Hrun 0%nat t Hi). intros p fd ->. assert (Hin : TBlocked p fd false ∈ tasks s) by (by eapply list_elem_of_lookup_2).
  destruct (proj2 (sl_refs _ _ _ Hs p)) as [sock Hp]; [left; right; exists (TBlocked p fd false); split; [done | apply Nat.eqb_refl] |].
  destruct (Hl _ p sock Hin eq_refl Hp) as [[Hx | Hx] Hy]; [rewrite Hm in Hx; by apply elem_of_nil in Hx |]. destruct (Hy fd eq_refl). lia.
Qed.

Lemma ending_ends f : forall n s, (load (tasks s) <= n)%nat -> ending f s -> exists m s', runs m s s' /\ tasks s' = [].
Proof.
  induction n as [| n IH]; intros s Hl He; (destruct (decide (tasks s = [])); [exists 0%nat, s; split; [constructor | done] |]);
    destruct (ending_goes_on f s He) as (i & s1 & E); try done; destruct (ending_task f s i s1 He E) as [He1 Hl1]; [lia |].
  destruct (IH s1) as (m & s' & Hr & Hd); [lia | done |]. exists (S m), s'. split; [by eapply runs_task | done].
Qed.

Lemma rest_clean f s : server_ok f s -> tasks s = [] -> m_socks s = [] -> heap s = ∅ /\ open (kern s) = f ∪ lost s.
Proof.
  intros [H1 H2 _] Ht Hm. assert (He : heap s = ∅).
  { apply map_empty. intros p. apply eq_None_not_Some. rewrite H2. unfold Refs. rewrite Hm, Ht.
    intros [[Hin | (t & Hin & _)] | Hin]; by apply elem_of_nil in Hin. }
  split; [done |]. apply leibniz_equiv. intros d. rewrite (own_open _ _ _ H1). split; [| by left].
  intros [? | (p & sock & Hp & _)]; [done |]. by rewrite He, lookup_empty in Hp.
Qed.

Lemma stop_ending f s : server_ok f s -> loops_ok s -> ending f (stop s).
Proof.
  intros [H1 H2 H3] Hl. split_and!.
  - split; [done | | done]. intros p. cbn [heap stop set_tasks set_stop]. rewrite H2, elem_of_nil. unfold Refs.
    cbn [m_socks tasks stop set_tasks set_stop]. rewrite task_uses_app, task_uses_cons. cbn [uses].
    assert (Hnil : ~ task_uses [] p) by (intros (t & Ht & _); by apply elem_of_nil in Ht). naive_solver.
  - eapply loops_sub; [exact Hl | | done | done]. intros t p Ht Hp. cbn in Ht. apply elem_of_app in Ht as [? | Ht]; [done |].
    by apply list_elem_of_singleton in Ht as ->.
  - split; [done |]. left. cbn. apply elem_of_app. right. by left.
Qed.

(** C27: A server that was told to stop comes to rest, even if no connection ever
    comes again. The state before [stop] is any in which the books of sockets and
    descriptors are right and every accept loop works on a socket that the server
    has, or on one that was closed; the loops and clients may be anywhere, most
    loops waiting in [accept]. After [stop], however the tasks are scheduled and
    connections come in: every run ends, after at most four steps for each waiting
    loop, three for one that was woken and one for each other task; no step
    fails; as long as a task is left, some task can go on without a connection;
    and once no task is left, no socket is left either, and the descriptors that
    are open are those of the start and those that [accept] lost. A loop on a
    socket that the server forgot, as [bind] does when it fails on a running
    server, is left waiting ([failed_bind_strands_loop]). *)
Theorem stopped_server_comes_to_rest f s :
  server_ok f s -> loops_ok s ->
  (forall n s', runs n (stop s) s' ->
     (n <= load (tasks s) + 1)%nat
     /\ (forall i, (i < length (tasks s'))%nat -> exists r, run_task host s' i = Ok r)
     /\ (tasks s' <> [] -> exists i s'', run_task host s' i = Ok (Some s''))
     /\ (tasks s' = [] -> heap s' = ∅ /\ open (kern s') = f ∪ lost s'))
  /\ exists n s', runs n (stop s) s' /\ tasks s' = [].
Proof.
  intros Hs Hl. pose proof (stop_ending f s Hs Hl) as He. split; [| by apply (ending_ends f (load (tasks (stop s))))]. intros n s' Hr.
  destruct (ending_runs f n _ _ He Hr) as (He' & Hload). pose proof He' as (Hs' & _ & _ & Hss). split_and!.
  - cbn [stop tasks set_tasks set_stop] in Hload. unfold load in *. rewrite sum_list_with_app in Hload. cbn in Hload. lia.
  - intros i Hi. destruct (lookup_lt_is_Some_2 _ _ Hi) as [t Ht]. destruct (run_task_ok f s' i t Hs' Ht) as (r & E & _). by exists r.
  - by apply (ending_goes_on f).
  - intros Ht. apply rest_clean; [done | done |]. destruct Hss as [Hin | ?]; [| done]. rewrite Ht in Hin. by apply elem_of_nil in Hin.
Qed.

Lemma start_keeps f s : server_ok f s -> server_ok f (start s).2.
Proof.
  intros [H1 H2 H3]. unfold start. destruct (m_isStop s); cbn [negb]; [| by split]. split; [done | | done]. intros p. cbn [heap set_tasks set_stop snd].
  rewrite H2. unfold Refs. cbn [m_socks tasks set_tasks set_stop snd]. rewrite task_uses_app.
  assert (Hu : task_uses (TAccept <$> m_socks s) p <-> p ∈ m_socks s); [| naive_solver]. unfold task_uses. setoid_rewrite list_elem_of_fmap.
  split; [intros (t & (q & -> & Hq) & Hp); cbn in Hp; apply Nat.eqb_eq in Hp; by subst |].
  intros Hp. exists (TAccept p). split; [by exists p | apply Nat.eqb_refl].
Qed.

Lemma start_loops f s : server_ok f s -> loops_ok s -> loops_ok (start s).2.
Proof.
  intros Hs Hl. unfold start. destruct (m_isStop s); [| done]. intros t p sock Ht Hp Hk. cbn in Ht. apply elem_of_app in Ht as [Ht | Ht].
  - by apply (Hl t p sock).
  - apply list_elem_of_fmap in Ht as (q & -> & Hq). cbn in Hp. subst q. split; [by left | done].
Qed.

Lemma idle_loops (s : server) : tasks s = [] -> loops_ok s.
Proof. intros E t p sock Ht. rewrite E in Ht. by apply elem_of_nil in Ht. Qed.

(** A loop that has not seen the stop when the server is started again works on
    a closed socket: it calls [accept] on descriptor -1 for ever. *)
Theorem restarted_loop_spins s i p sock :
  m_isStop s = false -> tasks s !! i = Some (TAccept p) -> heap s !! p = Some sock -> m_sock sock = -1 ->
  sys_accept (kern s) (-1) = (-1, kern s) ->
  exists s1 s2, run_task host s i = Ok (Some s1) /\ run_task host s1 i = Ok (Some s2)
    /\ tasks s2 = tasks s /\ heap s2 = heap s /\ kern s2 = kern s /\ m_isStop s2 = false.
Proof.
  intros Hst Hi Hp Hm Ha. unfold run_task at 1. rewrite Hi, Hst. cbn [of_ptr mbind outcome_bind]. rewrite Hp. cbn [of_ptr mbind outcome_bind]. rewrite Hm.
  eexists _, _. split; [reflexivity |]. unfold run_task. cbn [tasks set_tasks heap]. rewrite list_lookup_insert_eq by (by eapply lookup_lt_Some).
  change (-1 =? -1) with true. cbn [of_ptr mbind outcome_bind]. rewrite Hp. cbn [of_ptr mbind outcome_bind]. unfold accept. cbn [set_sock m_sock kern set_tasks]. rewrite Ha.
  split; [reflexivity |]. cbn. split_and!; try done. rewrite list_insert_insert_eq. by apply list_insert_id.
Qed.

(** ** Binding *)

Lemma bind_failed_open k s1 k1 a b : bind host k (CreateTCP host a) a = (b, s1, k1) -> open (close k1 s1).2 = open k.
Proof.
  intros E. pose proof (bind_change host k (CreateTCP host a) a) as Hc. rewrite E in Hc. cbn [fst snd] in Hc.
  destruct (change_close k (CreateTCP host a) k1 s1 (or_introl eq_refl) Hc) as [_ Ho | _ Hd | Hd]; [exact Ho | | done].
  rewrite close_sock in Hd. lia.
Qed.

Lemma bind_true k s a s' k' : bind host k s a = (true, s', k') -> valid s' /\ m_family s' = m_family s.
Proof.
  unfold bind. fold (ensure k s). assert (Hf : m_family (ensure k s).1 = m_family s) by (unfold ensure, newSock; repeat case_match; done).
  destruct (ensure k s) as [s1 k1]. cbn [fst] in Hf. unfold isValid. destruct (Z.eqb_spec (m_sock s1) (-1)); [done |]. cbn [negb].
  case_match; [done |]. destruct (sys_bind _ _ _) as [rt k2]. case_match; [done |]. intros [= <- <-]. unfold valid. rewrite getLocalAddress_sock.
  split; [done |]. rewrite <- Hf. unfold getLocalAddress. by repeat case_match.
Qed.

(** A listening socket for an address. *)
Definition serves (s : server) (p : nat) (a : Address) : Prop :=
  exists sock, heap s !! p = Some sock /\ valid sock /\ m_family sock = getFamily host a.

Lemma bind_one_ok f s a : server_ok f s ->
  exists b s', bind_one host s a = (b, s') /\ server_ok f s' /\ same_rest s s'
    /\ if b then exists p, m_socks s' = m_socks s ++ [p] /\ serves s' p a /\ forall q sock, heap s !! q = Some sock -> heap s' !! q = Some sock
       else m_socks s' = m_socks s /\ heap s' = heap s.
Proof.
  intros [H1 H2 H3]. unfold bind_one. pose proof (bind_change host (kern s) (CreateTCP host a) a) as Hc.
  destruct (bind host (kern s) (CreateTCP host a) a) as [[ok sock] k1] eqn:Eb. cbn [fst snd] in Hc.
  assert (Hfail : forall k2, open k2 = open k1 -> server_ok f (set_kern s (close k2 sock).2)).
  { intros k2 Ho. split; [| done | done]. cbn [kern heap lost set_kern]. eapply owned_kernel; [exact H1 |].
    rewrite <- (bind_failed_open _ _ _ _ _ Eb). unfold close. case_match; [done |]. case_match; cbn; [by rewrite !law_close, Ho | done]. }
  destruct ok; cbn [negb].
  2: { specialize (Hfail k1 eq_refl). destruct (close k1 sock) as [[b' s'] k2]. eexists _, _. split; [reflexivity |]. by split_and!. }
  pose proof (listen_open k1 sock SOMAXCONN) as Hl. destruct (listen k1 sock SOMAXCONN) as [ok k2]. cbn [snd] in Hl. destruct ok; cbn [negb].
  2: { specialize (Hfail k2 Hl). destruct (close k2 sock) as [[b' s'] k3]. eexists _, _. split; [reflexivity |]. by split_and!. }
  set (p := fresh (dom (heap s))). assert (Hp : heap s !! p = None) by (apply not_elem_of_dom, is_fresh).
  destruct (bind_true _ _ _ _ _ Eb) as [Hv Hf]. eexists _, _. split; [reflexivity |]. split_and!; try done.
  - split; cbn [kern heap lost m_socks set_socks set_heap set_kern].
    + eapply owned_kernel; [| exact Hl]. refine (owned_new _ _ _ _ _ _ _ H1 Hp _ Hc). done.
    + intros q. rewrite elem_of_nil. unfold Refs. cbn [m_socks tasks set_socks set_heap set_kern]. rewrite elem_of_app, list_elem_of_singleton.
      destruct (decide (q = p)) as [-> | Hne]; [rewrite lookup_insert_eq; split; eauto |].
      rewrite lookup_insert_ne, H2, elem_of_nil by done. unfold Refs. naive_solver.
    + apply NoDup_app. split_and!; [done | | apply NoDup_singleton]. intros q Hq ->%list_elem_of_singleton.
      destruct (proj2 (H2 p)) as [? E]; [by left; left | congruence].
  - exists p. split_and!; [done | |].
    + exists sock. split_and!; [apply lookup_insert_eq | done | done].
    + intros q t Hq. cbn [heap set_socks set_heap set_kern]. rewrite lookup_insert_ne; [done | congruence].
Qed.

Lemma bind_loop_ok f addrs : forall s fails, server_ok f s ->
  exists ps fails' s', bind_loop host s addrs fails = (fails ++ fails', s') /\ server_ok f s' /\ same_rest s s'
    /\ m_socks s' = m_socks s ++ ps /\ sublist fails' addrs /\ (forall q sock, heap s !! q = Some sock -> heap s' !! q = Some sock)
    /\ (fails' = [] -> Forall2 (serves s') ps addrs).
Proof.
  induction addrs as [| a addrs IH]; intros s fails Hs; cbn [bind_loop].
  { exists [], [], s. rewrite !app_nil_r. by split_and!. }
  destruct (bind_one_ok f s a Hs) as (b & s1 & -> & Hs1 & (R1 & R2 & R3 & R4) & Hb).
  destruct (IH s1 (if b then fails else fails ++ [a]) Hs1) as (ps & fails' & s2 & E & Hs2 & (T1 & T2 & T3 & T4) & Hm & Hsub & Hk & Hall). rewrite E.
  destruct b.
  - destruct Hb as (p & Hm1 & (sock & Hp & Hv & Hf) & Hk1). exists (p :: ps), fails', s2. rewrite Hm, Hm1, <- app_assoc. unfold same_rest.
    split_and!; try done; try congruence; [by constructor | by auto |]. intros Hnil. constructor; [| by apply Hall]. exists sock. auto.
  - destruct Hb as (Hm1 & Hh1). exists ps, (a :: fails'), s2. rewrite Hm, Hm1, <- app_assoc. unfold same_rest.
    split_and!; try done; try congruence; [by constructor |]. intros q t Hq. apply Hk. by rewrite Hh1.
Qed.

(** The server binds all addresses or none. Before it is started, [bind]
    answers true exactly when no address is reported as failed, and has then
    one more open socket for each address, in their order; otherwise the
    reported addresses are among those asked for, all sockets are given up, and
    every descriptor opened for them is closed again. *)
Theorem bind_all_or_nothing f s addrs :
  server_ok f s -> tasks s = [] ->
  exists b fails s', bind_all host s addrs [] = Ok (b, fails, s') /\ server_ok f s' /\ sublist fails addrs /\ (b = true <-> fails = [])
    /\ (b = true -> exists ps, m_socks s' = m_socks s ++ ps /\ Forall2 (serves s') ps addrs)
    /\ (b = false -> m_socks s' = [] /\ heap s' = ∅ /\ open (kern s') = f ∪ lost s').
Proof.
  intros Hs Ht. unfold bind_all. destruct (bind_loop_ok f addrs s [] Hs) as (ps & fails & s1 & -> & Hs1 & (_ & _ & T1 & _) & Hm & Hsub & _ & Hall).
  rewrite app_nil_l. destruct fails as [| a fails].
  - eexists _, _, _. split; [reflexivity |]. split_and!; try done. intros _. exists ps. auto.
  - destruct (clear_socks_ok f s1 Hs1) as (s2 & -> & Hs2 & (_ & _ & T2 & _) & Hm2 & _). cbn [mbind outcome_bind].
    eexists _, _, _. split; [reflexivity |]. split_and!; try done. intros _. split; [done |]. apply rest_clean; congruence.
Qed.

Lemma new_server_ok k timeout : server_ok (open k) (new_TcpServer k timeout).
Proof.
  split; [apply (start_world_ok k) | | constructor]. intros p. cbn [heap new_TcpServer]. rewrite lookup_empty, elem_of_nil. unfold Refs. cbn.
  split; [by intros [] |]. intros [[Hin | (t & Hin & _)] | []]; by apply elem_of_nil in Hin.
Qed.
(** A further [bind] that fails on a running server makes it forget the socket that
    its loop waits on: [stop] does not wake the loop, and no task is left that
    could. *)
Theorem failed_bind_strands_loop f s p fd addrs a fails s0 :
  server_ok f s -> tasks s = [TBlocked p fd false] -> bind_loop host s addrs [] = (a :: fails, s0) ->
  exists s1 s2, bind_all host s addrs [] = Ok (false, a :: fails, s1) /\ run_task host (stop s1) 1 = Ok (Some s2)
    /\ tasks s2 = [TBlocked p fd false] /\ run_task host s2 0 = Ok None /\ is_Some (heap s2 !! p).
Proof.
  intros Hs Ht Hb. destruct (bind_loop_ok f addrs s [] Hs) as (ps & fails' & s' & E & Hs0 & (_ & _ & T0 & _) & _). rewrite E in Hb.
  rewrite app_nil_l in E, Hb. injection Hb as -> ->. destruct (clear_socks_ok f s0 Hs0) as (s1 & Ec & Hs1 & (_ & _ & T1 & _) & Hm & _).
  assert (Hts : tasks s1 = [TBlocked p fd false]) by congruence. exists s1, (set_tasks (set_socks (stop s1) []) [TBlocked p fd false]).
  split; [unfold bind_all; rewrite E, Ec; reflexivity |]. split; [| split_and!; [done | done |]].
  - unfold run_task. cbn [stop tasks set_tasks set_stop]. rewrite Hts. cbn [app lookup list_lookup of_ptr mbind outcome_bind delete list_delete].
    unfold on_stop, clear_socks. cbn [m_socks set_tasks set_stop stop]. rewrite Hm. cbn. by rewrite Hm.
  - apply (sl_refs _ _ _ Hs1). left. right. rewrite Hts. exists (TBlocked p fd false). split; [by left | apply Nat.eqb_refl].
Qed.

End props.

(** ** A server *)

Definition demo_addr : Address := IPv4Address (new_IPv4Address 1 0 0).

(** The states of a demonstration. *)
Definition or_stuck (r : outcome (option (TcpServer (K := toy)))) (s : TcpServer) : TcpServer :=
  match r with Ok (Some s') => s' | _ => s end.

Definition demo_bound : TcpServer := (bind_loop 1 (new_TcpServer (mkToy 1 {[0]}) 1000) [demo_addr] []).2.

(** Started, and its accept loop waits. *)
Definition demo_waiting : TcpServer := or_stuck (run_task 1 (start demo_bound).2 0) (start demo_bound).2.

(** Bound to an address, started, and stopped while its accept loop waits for a
    connection: without any, it comes to rest. *)
Lemma stopped_server_comes_to_rest_witness :
  tasks demo_waiting = [TBlocked 0 1 false]
  /\ exists n s', runs 1 n (stop demo_waiting) s' /\ (n <= 5)%nat /\ tasks s' = [] /\ heap s' = ∅ /\ open (kern s') = {[0]} ∪ lost s'.
Proof.
  assert (Hb : server_ok {[0]} demo_bound /\ tasks demo_bound = []).
  { destruct (bind_loop_ok 1 (open (mkToy 1 {[0]})) [demo_addr] (new_TcpServer (mkToy 1 {[0]}) 1000) []) as (_ & fails & s0 & E & Hok & (_ & _ & Ht & _) & _);
      [apply new_server_ok |]. unfold demo_bound. rewrite E. by split. }
  destruct Hb as [Hb Ht]. assert (Hs : server_ok {[0]} (start demo_bound).2) by (by apply start_keeps).
  assert (Hl : loops_ok (start demo_bound).2) by (by apply (start_loops {[0]}); [| apply idle_loops]).
  assert (E : run_task 1 (start demo_bound).2 0 = Ok (Some demo_waiting)) by (vm_compute; reflexivity).
  assert (Hw : server_ok {[0]} demo_waiting).
  { destruct (run_task_ok 1 {[0]} (start demo_bound).2 0 (TAccept 0) Hs) as (r & E' & Hr); [vm_compute; reflexivity |]. apply Hr. congruence. }
  assert (Ht' : tasks demo_waiting = [TBlocked 0 1 false]) by (vm_compute; reflexivity). split; [exact Ht' |].
  destruct (stopped_server_comes_to_rest 1 _ _ Hw (run_task_loops 1 _ _ _ _ Hs Hl E)) as [Hall (n & s' & Hr & Hd)]. exists n, s'.
  destruct (Hall n s' Hr) as (Hn & _ & _ & Hc). rewrite Ht' in Hn. split; [exact Hr |]. split; [exact Hn |]. split; [exact Hd | exact (Hc Hd)].
Defined.
