(* ===== verification/Config.v ===== *)
(** Configuration, sylar/config.h and config.cc: typed variables with listeners,
    the registry of names, the conversions from and to YAML text, and loading
    from documents and directories.

    Values of all types live in one universe [V]; [typeof] tells a value's type.
    yaml-cpp's nodes are trees, its parser and printer are parameters. *)

From stdpp Require Import gmap strings sorting.
From Stdlib Require Import Ascii.
From S2P Require Import Prelude Strs.

Module Cf.

Local Open Scope Z_scope.
#[local] Arguments String.append !_ _ /.

(** ** YAML *)

(** [YAML::Node] by its kind; the key of a map entry is its [Scalar()]. *)
Inductive yaml :=
  | Null
  | Scalar (s : string)
  | Sequence (l : list yaml)
  | Map (l : list (string * yaml)).

Definition IsScalar (n : yaml) : bool := match n with Scalar _ => true | _ => false end.

(** [node.size()] and the iteration over a map. *)
Definition size (n : yaml) : nat := match n with Sequence l => length l | Map l => length l | _ => 0%nat end.
Definition entries (n : yaml) : list (string * yaml) := match n with Map l => l | _ => [] end.

(** [node[key]]: throws on a scalar, and is undefined where there is no such key. *)
Definition at_key (n : yaml) (key : string) : option (option yaml) :=
  match n with
  | Scalar _ => None
  | Map l => Some (snd <$> List.find (fun kn => String.eqb kn.1 key) l)
  | _ => Some None
  end.

(** [node[key].as<T>()], which throws for what is undefined. *)
Definition as_at {T} (as_T : yaml -> option T) (n : yaml) (key : string) : option T :=
  match at_key n key with Some (Some m) => as_T m | _ => None end.

(** ** Conversions *)

Section casts.
(** [YAML::Load], [ss << node] and [node[i]]. *)
Context (Load : string -> option yaml) (emit : yaml -> string) (index : yaml -> nat -> yaml).
Context {T : Type}.

(** [LexicalCast<std::string, std::vector<T>>] and the one for lists: the
    elements from [i] on. A conversion that throws is [None]. *)
Fixpoint cast_items (cast : string -> option T) (node : yaml) (i n : nat) (vec : list T) : option (list T) :=
  match n with
  | O => Some vec
  | S n => match cast (emit (index node i)) with
           | None => None
           | Some x => cast_items cast node (S i) n (vec ++ [x])
           end
  end.

Definition string_to_vector (cast : string -> option T) (v : string) : option (list T) :=
  match Load v with None => None | Some node => cast_items cast node 0 (size node) [] end.

(** [node.push_back] of a text. *)
Definition push_back (node : yaml) (s : string) : yaml :=
  match node with Sequence l => Sequence (l ++ [Scalar s]) | _ => Sequence [Scalar s] end.

Fixpoint push_all (show : T -> option string) (node : yaml) (v : list T) : option yaml :=
  match v with
  | [] => Some node
  | x :: v => match show x with None => None | Some s => push_all show (push_back node s) v end
  end.

Definition vector_to_string (show : T -> option string) (v : list T) : option string :=
  match push_all show Null v with None => None | Some node => Some (emit node) end.

(** The conversions to sets differ in [insert]. *)
Context {S : Type} (empty_set : S) (set_insert : T -> S -> S).

Fixpoint insert_items (cast : string -> option T) (node : yaml) (i n : nat) (s : S) : option S :=
  match n with
  | O => Some s
  | Datatypes.S n => match cast (emit (index node i)) with
           | None => None
           | Some x => insert_items cast node (Datatypes.S i) n (set_insert x s)
           end
  end.

Definition string_to_set (cast : string -> option T) (v : string) : option S :=
  match Load v with None => None | Some node => insert_items cast node 0 (size node) empty_set end.

(** …and to maps with string keys: [insert] keeps an entry that is there. The
    items of a sequence have no keys, [it->first.Scalar()] throws. *)
Fixpoint map_items (cast : string -> option T) (l : list (string * yaml)) (m : gmap string T) : option (gmap string T) :=
  match l with
  | [] => Some m
  | (k, node) :: l => match cast (emit node) with
                      | None => None
                      | Some x => map_items cast l (match m !! k with Some _ => m | None => <[k := x]> m end)
                      end
  end.

Definition string_to_map (cast : string -> option T) (v : string) : option (gmap string T) :=
  match Load v with
  | None => None
  | Some (Sequence (_ :: _)) => None
  | Some node => map_items cast (entries node) ∅
  end.

(** [node[key] = YAML::Load(text)] for the entries of a map in some order. *)
Fixpoint put_entry (l : list (string * yaml)) (k : string) (n : yaml) : list (string * yaml) :=
  match l with
  | [] => [(k, n)]
  | (k', n') :: l => if String.eqb k' k then (k', n) :: l else (k', n') :: put_entry l k n
  end.

Definition set_entry (node : yaml) (k : string) (n : yaml) : yaml := Map (put_entry (entries node) k n).

Fixpoint put_all (show : T -> option string) (node : yaml) (l : list (string * T)) : option yaml :=
  match l with
  | [] => Some node
  | (k, x) :: l => match show x with
                   | None => None
                   | Some s => match Load s with None => None | Some n => put_all show (set_entry node k n) l end
                   end
  end.

Definition map_to_string (show : T -> option string) (l : list (string * T)) : option string :=
  match put_all show Null l with None => None | Some node => Some (emit node) end.
End casts.

(** ** Variables *)

(** [::tolower] on every character. *)
Definition lower (c : ascii) : ascii :=
  let n := nat_of_ascii c in if ((65 <=? n) && (n <=? 90))%nat then ascii_of_nat (n + 32) else c.

Fixpoint tolower (s : string) : string :=
  match s with ""%string => ""%string | String c s => String (lower c) (tolower s) end.

(** The characters of a name: of [Lookup], and of [ListAllMember]. *)
Definition lookup_chars : string := "abcdefghijklmnopqrstuvwxyz._0123456789".
Definition member_chars : string := "abcdefghikjlmnopqrstuvwxyz._012345678".

(** [s.find_first_not_of(set) == npos] *)
Definition only (set s : string) : bool := str_forall (fun c => str_mem c set) s.

Section config.
Context {V Ty : Type} `{EqDecision V} `{Countable Ty}.
Context (typeof : V -> Ty).
(** [FromStr] and [ToStr] of each type: [None] when they throw. *)
Context (FromStr : Ty -> string -> option V) (ToStr : V -> option string).
Context (emit : yaml -> string).

(** A listener is known by a label; what it is called with is recorded. *)
Abbreviation cb := nat.
Abbreviation ptr := nat.

Record ConfigVar := mkVar {
  m_name : string;
  m_description : string;
  m_type : Ty;
  m_val : V;
  m_cbs : list (Z * cb);
}.

(** [ConfigVarBase] folds the case of the name. *)
Definition new_ConfigVar (name : string) (t : Ty) (val : V) (description : string) : ConfigVar :=
  mkVar (tolower name) description t val [].

Definition set_val (v : ConfigVar) x := mkVar (m_name v) (m_description v) (m_type v) x (m_cbs v).
Definition set_cbs (v : ConfigVar) x := mkVar (m_name v) (m_description v) (m_type v) (m_val v) x.

(** A call of a listener: its key, the old and the new value. *)
Record call := mkCall { c_key : Z; c_cb : cb; c_old : V; c_new : V }.

(** [setValue]: the listeners are called, in the order of their keys, before the
    value is stored. *)
Definition setValue (v : ConfigVar) (val : V) : ConfigVar * list call :=
  if decide (val = m_val v) then (v, [])
  else (set_val v val, (fun kc => mkCall kc.1 kc.2 (m_val v) val) <$> m_cbs v).

Definition getValue (v : ConfigVar) : V := m_val v.

Definition toString (v : ConfigVar) : string := default ""%string (ToStr (m_val v)).

(** [fromString] answers false in every case. *)
Definition fromString (v : ConfigVar) (val : string) : bool * ConfigVar * list call :=
  match FromStr (m_type v) val with
  | Some x => let '(v, calls) := setValue v x in (false, v, calls)
  | None => (false, v, [])
  end.

(** [m_cbs[key] = cb], a map ordered by its keys. *)
Fixpoint put_cb (l : list (Z * cb)) (key : Z) (f : cb) : list (Z * cb) :=
  match l with
  | [] => [(key, f)]
  | (k, g) :: l' => if k <? key then (k, g) :: put_cb l' key f else if k =? key then (k, f) :: l' else (key, f) :: l
  end.

Definition delListener (v : ConfigVar) (key : Z) : ConfigVar := set_cbs v (List.filter (fun kc => negb (kc.1 =? key)) (m_cbs v)).
Definition getListener (v : ConfigVar) (key : Z) : option cb := snd <$> List.find (fun kc => kc.1 =? key) (m_cbs v).
Definition clearListener (v : ConfigVar) : ConfigVar := set_cbs v [].

(** ** The registry *)

(** The static data: names, the objects, the counter [s_fun_id] of each type, and
    the modification times of the files loaded. *)
Record state := mkState {
  datas : gmap string ptr;
  vars : gmap ptr ConfigVar;
  fun_id : gmap Ty Z;
  modify : gmap string Z;
}.

Definition set_vars (s : state) v := mkState (datas s) v (fun_id s) (modify s).

(** [Lookup<T>(name, default_value, description)]; [p] is where [new] puts the
    object. *)
Definition Lookup (s : state) (name : string) (t : Ty) (default_value : V) (description : string) (p : ptr) :
    outcome (option ptr * state) :=
  match datas s !! name with
  | Some q =>
      v ← of_ptr (vars s !! q);
      Ok (if decide (m_type v = t) then (Some q, s) else (None, s))
  | None =>
      if negb (only lookup_chars name) then Fail InvalidArgument else
      Ok (Some p, mkState (<[name := p]> (datas s)) (<[p := new_ConfigVar name t default_value description]> (vars s)) (fun_id s) (modify s))
  end.

(** [Lookup<T>(name)] *)
Definition Lookup_existing (s : state) (name : string) (t : Ty) : outcome (option ptr) :=
  match datas s !! name with
  | None => Ok None
  | Some q => v ← of_ptr (vars s !! q); Ok (if decide (m_type v = t) then Some q else None)
  end.

Definition LookupBase (s : state) (name : string) : option ptr := datas s !! name.

(** [addListener]: the counter is shared by all variables of a type. *)
Definition addListener (s : state) (p : ptr) (f : cb) : outcome (Z * state) :=
  v ← of_ptr (vars s !! p);
  let key := u64 (default 0 (fun_id s !! m_type v) + 1) in
  Ok (key, mkState (datas s) (<[p := set_cbs v (put_cb (m_cbs v) key f)]> (vars s)) (<[m_type v := key]> (fun_id s)) (modify s)).

(** ** Loading *)

(** [ListAllMember] *)
Fixpoint ListAllMember (prefix : string) (node : yaml) : list (string * yaml) :=
  if negb (only member_chars prefix) then [] else
  (prefix, node) ::
  match node with
  | Map l =>
      (fix go (l : list (string * yaml)) : list (string * yaml) :=
         match l with
         | [] => []
         | (k, n) :: l => ListAllMember (if String.eqb prefix "" then k else (prefix ++ "." ++ k)%string) n ++ go l
         end) l
  | _ => []
  end.

(** The text that a node is converted from. *)
Definition node_text (n : yaml) : string := match n with Scalar s => s | n => emit n end.

(** One node of the list. *)
Definition load_one (s : state) (kn : string * yaml) : outcome (state * list (ptr * call)) :=
  if String.eqb kn.1 "" then Ok (s, []) else
  match LookupBase s (tolower kn.1) with
  | None => Ok (s, [])
  | Some p =>
      v ← of_ptr (vars s !! p);
      let '(_, v, calls) := fromString v (node_text kn.2) in
      Ok (set_vars s (<[p := v]> (vars s)), (fun c => (p, c)) <$> calls)
  end.

Fixpoint load_all (s : state) (l : list (string * yaml)) : outcome (state * list (ptr * call)) :=
  match l with
  | [] => Ok (s, [])
  | kn :: l => '(s, c1) ← load_one s kn; '(s, c2) ← load_all s l; Ok (s, c1 ++ c2)
  end.

Definition LoadFromYaml (s : state) (root : yaml) : outcome (state * list (ptr * call)) := load_all s (ListAllMember "" root).

(** [LoadFromConfDir]: the files found, with the modification time that [lstat]
    stores (what the memory held when it fails) and what [YAML::LoadFile] makes
    of it. *)
Record file := mkFile { f_name : string; f_mtime : Z; f_root : option yaml }.

Definition load_file (s : state) (f : file) : outcome (state * list (ptr * call)) :=
  if default 0 (modify s !! f_name f) =? u64 (f_mtime f)
  then Ok (mkState (datas s) (vars s) (fun_id s) (<[f_name f := default 0 (modify s !! f_name f)]> (modify s)), [])
  else
    let s := mkState (datas s) (vars s) (fun_id s) (<[f_name f := u64 (f_mtime f)]> (modify s)) in
    match f_root f with
    | None => Ok (s, [])
    | Some root => LoadFromYaml s root
    end.

Fixpoint LoadFromConfDir (s : state) (files : list file) : outcome (state * list (ptr * call)) :=
  match files with
  | [] => Ok (s, [])
  | f :: files => '(s, c1) ← load_file s f; '(s, c2) ← LoadFromConfDir s files; Ok (s, c1 ++ c2)
  end.

(** [Visit]: the variables in the order of their names. *)
Definition name_le (a b : string * ptr) : Prop := String.leb a.1 b.1 = true.
#[global] Instance name_le_dec : RelDecision name_le.
Proof. intros a b. unfold name_le. apply _. Defined.

Definition Visit (s : state) : list ptr := snd <$> merge_sort name_le (map_to_list (datas s)).

End config.

End Cf.

(** * The sizes of the HTTP parsers

    http_parser.cc looks up four variables when the program starts, copies their
    values into statics that the parsers read, and adds listeners that renew the
    copies. *)
Module Cs.

Import Cf.

Record sizes := mkSizes {
  s_http_request_buffer_size : Z;
  s_http_request_max_body_size : Z;
  s_http_response_buffer_size : Z;
  s_http_response_max_body_size : Z;
}.

Definition zero_sizes : sizes := mkSizes 0 0 0 0.

(** The four variables: names and defaults, and the copy that belongs to each. *)
Inductive which := RequestBuffer | RequestBody | ResponseBuffer | ResponseBody.

#[global] Instance which_eq_dec : EqDecision which.
Proof. solve_decision. Defined.

Definition name_of (w : which) : string :=
  match w with
  | RequestBuffer => "http.request.buffer_size"
  | RequestBody => "http.request.body_size"
  | ResponseBuffer => "http.response.buffer_size"
  | ResponseBody => "http.response.body_size"
  end.

Definition default_of (w : which) : Z :=
  match w with RequestBuffer | ResponseBuffer => 4 * 1024 | RequestBody | ResponseBody => 64 * 1024 * 1024 end.

Definition description_of (w : which) : string :=
  match w with
  | RequestBuffer => "http request buffer_size"
  | RequestBody => "http request max body size"
  | ResponseBuffer => "http response buffer_size"
  | ResponseBody => "http response max body size"
  end.

(** [GetHttpRequestBufferSize] and the other three *)
Definition get_size (w : which) (z : sizes) : Z :=
  match w with
  | RequestBuffer => s_http_request_buffer_size z
  | RequestBody => s_http_request_max_body_size z
  | ResponseBuffer => s_http_response_buffer_size z
  | ResponseBody => s_http_response_max_body_size z
  end.

Definition set_size (w : which) (x : Z) (z : sizes) : sizes :=
  let '(mkSizes a b c d) := z in
  match w with
  | RequestBuffer => mkSizes x b c d
  | RequestBody => mkSizes a x c d
  | ResponseBuffer => mkSizes a b x d
  | ResponseBody => mkSizes a b c x
  end.

(** The labels of the four listeners. *)
Definition label (w : which) : nat :=
  match w with RequestBuffer => 0 | RequestBody => 1 | ResponseBuffer => 2 | ResponseBody => 3 end%nat.
Definition of_label (f : nat) : option which :=
  match f with 0 => Some RequestBuffer | 1 => Some RequestBody | 2 => Some ResponseBuffer | 3 => Some ResponseBody | _ => None end%nat.

Section copies.
Context {V Ty : Type} `{EqDecision V} `{Countable Ty}.
(** [uint64_t] among the types, and its values. *)
Context (u64_t : Ty) (of_u64 : Z -> V) (to_u64 : V -> Z).

(** The calls of listeners, as far as they renew a copy. *)
Definition heard (z : sizes) (c : @call V) : sizes :=
  match of_label (c_cb c) with Some w => set_size w (to_u64 (c_new c)) z | None => z end.

(** One of the variables; [p] is where [new] would put it. *)
Definition lookup_size (s : @state V Ty _ _) (w : which) (p : nat) : outcome (option nat * @state V Ty _ _) :=
  Lookup s (name_of w) u64_t (of_u64 (default_of w)) (description_of w) p.

(** [_RequestSizeIniter]: the copies, then the listeners. *)
Definition copy_size (s : @state V Ty _ _) (w : which) (g : option nat) (z : sizes) : outcome sizes :=
  p ← of_ptr g; v ← of_ptr (vars s !! p); Ok (set_size w (to_u64 (getValue v)) z).

Definition follow_size (s : @state V Ty _ _) (w : which) (g : option nat) : outcome (@state V Ty _ _) :=
  p ← of_ptr g; snd <$> addListener s p (label w).

Definition _RequestSizeIniter (s : @state V Ty _ _) (g : which -> option nat) : outcome (sizes * @state V Ty _ _) :=
  z ← copy_size s RequestBuffer (g RequestBuffer) zero_sizes;
  z ← copy_size s RequestBody (g RequestBody) z;
  z ← copy_size s ResponseBuffer (g ResponseBuffer) z;
  z ← copy_size s ResponseBody (g ResponseBody) z;
  s ← follow_size s RequestBuffer (g RequestBuffer);
  s ← follow_size s RequestBody (g RequestBody);
  s ← follow_size s ResponseBuffer (g ResponseBuffer);
  s ← follow_size s ResponseBody (g ResponseBody);
  Ok (z, s).

(** The start of the file's statics. *)
Definition start_sizes (s : @state V Ty _ _) (p : which -> nat) : outcome (sizes * @state V Ty _ _) :=
  '(g1, s) ← lookup_size s RequestBuffer (p RequestBuffer);
  '(g2, s) ← lookup_size s RequestBody (p RequestBody);
  '(g3, s) ← lookup_size s ResponseBuffer (p ResponseBuffer);
  '(g4, s) ← lookup_size s ResponseBody (p ResponseBody);
  _RequestSizeIniter s (fun w => match w with RequestBuffer => g1 | RequestBody => g2 | ResponseBuffer => g3 | ResponseBody => g4 end).

End copies.

End Cs.
