(* ===== verification/ConfigProps.v ===== *)
(** Configuration: the registry stays well typed, loading a document sets
    exactly the variables it names, listeners follow the value. *)

From stdpp Require Import gmap strings sorting.
From Stdlib Require Import Ascii.
From S2P Require Import Prelude Strs Config.

Import Cf.
Local Open Scope Z_scope.
#[local] Arguments String.append !_ _ /.

(** ** Names *)

Lemma lower_fixed c : str_mem c lookup_chars = true -> lower c = c.
Proof. destruct c as [[] [] [] [] [] [] [] []]; vm_compute; congruence. Qed.

Lemma tolower_fixed s : only lookup_chars s = true -> tolower s = s.
Proof.
  unfold only. induction s as [| c s IH]; [done |]. cbn [str_forall tolower]. intros [Hc Hs]%andb_true_iff.
  by rewrite (lower_fixed c Hc), (IH Hs).
Qed.

Lemma member_chars_lookup c : str_mem c member_chars = true -> str_mem c lookup_chars = true.
Proof. destruct c as [[] [] [] [] [] [] [] []]; vm_compute; congruence. Qed.

(** ** Containers *)

Section containers.
Context (Load : string -> option yaml) (emit : yaml -> string) (index : yaml -> nat -> yaml).
Context {T : Type} (cast : string -> option T) (show : T -> option string).
(** What yaml-cpp does with texts that need no quotes, with sequences of them and
    with the empty node. *)
Context (plain : string -> Prop).
Hypothesis emit_scalar : forall s, plain s -> emit (Scalar s) = s.
Hypothesis load_null : Load (emit Null) = Some Null.
Hypothesis load_sequence : forall l, Forall plain l -> Load (emit (Sequence (Scalar <$> l))) = Some (Sequence (Scalar <$> l)).
Hypothesis index_sequence : forall l i n, l !! i = Some n -> index (Sequence l) i = n.

Lemma push_all_spec v : forall l texts, Forall2 (fun x s => show x = Some s) v texts ->
  push_all show (Sequence (Scalar <$> l)) v = Some (Sequence (Scalar <$> l ++ texts)).
Proof.
  intros l texts H. revert l. induction H as [| x s v texts Hx _ IH]; intros l; cbn [push_all]; [by rewrite app_nil_r |].
  rewrite Hx. cbn [push_back]. replace ((Scalar <$> l) ++ [Scalar s]) with (Scalar <$> (l ++ [s])) by by rewrite fmap_app.
  rewrite IH. by rewrite <- app_assoc.
Qed.

Lemma cast_items_spec v texts : Forall2 (fun x s => plain s /\ cast s = Some x) v texts -> forall pre vec,
  cast_items emit index cast (Sequence (Scalar <$> pre ++ texts)) (length pre) (length texts) vec = Some (vec ++ v).
Proof.
  induction 1 as [| x s v texts [Hp Hc] _ IH]; intros pre vec; cbn [length cast_items]; [by rewrite app_nil_r |].
  rewrite (index_sequence _ _ (Scalar s)), (emit_scalar s Hp), Hc.
  - specialize (IH (pre ++ [s]) (vec ++ [x])). rewrite length_app, Nat.add_1_r, <- !app_assoc in IH. exact IH.
  - rewrite list_lookup_fmap, lookup_app_r, Nat.sub_diag by lia. reflexivity.
Qed.

(** A vector or list of values whose texts need no quotes is read back from its
    YAML text. *)
Theorem vector_roundtrip v :
  Forall (fun x => exists s, show x = Some s /\ plain s /\ cast s = Some x) v ->
  exists text, vector_to_string emit show v = Some text /\ string_to_vector Load emit index cast text = Some v.
Proof.
  intros Hv. assert (exists texts, Forall2 (fun x s => show x = Some s) v texts /\ Forall2 (fun x s => plain s /\ cast s = Some x) v texts) as (texts & H1 & H2).
  { induction Hv as [| x v (s & Hs & Hp & Hc) _ (texts & I1 & I2)]; [by exists [] |]. exists (s :: texts). split; by constructor. }
  unfold vector_to_string, string_to_vector. destruct H1 as [| x s v texts Hx H1].
  { cbn [push_all]. eexists. split; [reflexivity |]. by rewrite load_null. }
  assert (push_all show Null (x :: v) = Some (Sequence (Scalar <$> s :: texts))) as ->.
  { change (push_all show Null (x :: v)) with (push_all show (Sequence (Scalar <$> [])) (x :: v)). apply (push_all_spec (x :: v) [] (s :: texts)). by constructor. }
  eexists. split; [reflexivity |]. rewrite load_sequence.
  - rewrite <- (app_nil_l (x :: v)), <- (cast_items_spec (x :: v) (s :: texts) H2 [] []). cbn [size length]. by rewrite length_fmap.
  - clear -H2. induction H2 as [| ? ? ? ? [? _]]; by constructor.
Qed.
End containers.

Section props.
Context {V Ty : Type} `{EqDecision V} `{Countable Ty}.
Context (typeof : V -> Ty).
Context (FromStr : Ty -> string -> option V) (emit : yaml -> string).
(** A conversion to a type gives a value of the type. *)
Hypothesis FromStr_typed : forall t s x, FromStr t s = Some x -> typeof x = t.

Abbreviation state := (@state V Ty _ _).
Abbreviation ConfigVar := (@ConfigVar V Ty).
Abbreviation LoadFromYaml := (LoadFromYaml FromStr emit).
Abbreviation fromString := (fromString FromStr).

(** ** The invariant *)

Definition keys_sorted (l : list (Z * nat)) : Prop := StronglySorted (fun a b => a.1 < b.1) l.

Definition var_ok (v : ConfigVar) : Prop := typeof (m_val v) = m_type v /\ keys_sorted (m_cbs v).

Record conf_inv (s : state) : Prop := mkConf {
  inv_name : forall name p, datas s !! name = Some p ->
    exists v, vars s !! p = Some v /\ m_name v = name /\ only lookup_chars name = true;
  inv_var : forall p v, vars s !! p = Some v -> var_ok v /\ datas s !! m_name v = Some p;
}.

(** Operations on one variable keep its name and type. *)
Definition same_var (v v' : ConfigVar) : Prop := m_name v' = m_name v /\ m_type v' = m_type v.

Lemma conf_update s s' p v v' :
  conf_inv s -> vars s !! p = Some v -> same_var v v' -> var_ok v' -> datas s' = datas s -> vars s' = <[p := v']> (vars s) -> conf_inv s'.
Proof.
  intros [H1 H2] Hv [Hn Ht] Hok Hd Hvars. split.
  - intros name q Hq. rewrite Hd in Hq. destruct (H1 name q Hq) as (w & Hw & Hname & Hc). rewrite Hvars.
    destruct (decide (q = p)) as [-> | Hne]; [| rewrite lookup_insert_ne by done; eauto].
    rewrite lookup_insert_eq. exists v'. split_and!; [done | congruence | done].
  - intros q w. rewrite Hvars, Hd. destruct (decide (q = p)) as [-> | Hne].
    + rewrite lookup_insert_eq. intros [= <-]. split; [done |]. rewrite Hn. by apply H2.
    + rewrite lookup_insert_ne by done. apply H2.
Qed.

Lemma put_cb_sorted l k f : keys_sorted l -> keys_sorted (put_cb l k f).
Proof.
  unfold keys_sorted. induction 1 as [| [k1 g] l Hs IH Hall]; simpl; [by repeat constructor |].
  destruct (Z.ltb_spec k1 k); [| destruct (Z.eqb_spec k1 k) as [-> |]].
  - constructor; [done |]. clear IH Hs. induction Hall as [| [k2 g2] l H2 Hall IH]; simpl; [by repeat constructor |].
    destruct (k2 <? k); [by constructor |]. destruct (k2 =? k); [by constructor |]. constructor; [done |]. by constructor.
  - by constructor.
  - constructor; [by constructor |]. constructor; [cbn; lia |]. eapply Forall_impl; [exact Hall |]. intros [k2 g2] Hk. cbn in *. lia.
Qed.

Lemma filter_sorted l (f : Z * nat -> bool) : keys_sorted l -> keys_sorted (List.filter f l).
Proof.
  unfold keys_sorted. induction 1 as [| x l Hs IH Hall]; simpl; [constructor |]. destruct (f x); [| done]. constructor; [done |].
  apply Forall_forall. intros y [Hy _]%list_elem_of_In%filter_In. rewrite Forall_forall in Hall. by apply Hall, list_elem_of_In.
Qed.

(** ** Values and listeners *)

Lemma setValue_ok v x :
  var_ok v -> typeof x = m_type v -> same_var v (setValue v x).1 /\ var_ok (setValue v x).1 /\ m_val (setValue v x).1 = x
  /\ m_cbs (setValue v x).1 = m_cbs v.
Proof. intros [H1 H2] Hx. unfold setValue. case_decide; subst; by split_and!. Qed.

Lemma fromString_ok v s :
  var_ok v -> same_var v (fromString v s).1.2 /\ var_ok (fromString v s).1.2 /\ m_cbs (fromString v s).1.2 = m_cbs v.
Proof.
  intros Hv. unfold Cf.fromString. destruct (FromStr (m_type v) s) as [x|] eqn:E; [| by split_and!].
  destruct (setValue_ok v x Hv (FromStr_typed _ _ _ E)) as (H1 & H2 & _ & H4).
  destruct (setValue v x) as [v' calls]. by split_and!.
Qed.

(** The calls of one listener lead from one value to another, each from the
    value before to a different one. *)
Fixpoint leads (x : V) (l : list (@call V)) (y : V) : Prop :=
  match l with
  | [] => x = y
  | c :: l => c_old c = x /\ c_new c <> x /\ leads (c_new c) l y
  end.

Lemma leads_app x l1 y l2 z : leads x l1 y -> leads y l2 z -> leads x (l1 ++ l2) z.
Proof.
  revert x. induction l1 as [| c l1 IH]; intros x; simpl; [by intros -> |]. intros (H1 & H2 & H3) Hz. split_and!; auto.
Qed.

Definition calls_to (k : Z) (l : list (@call V)) : list (@call V) := List.filter (fun c => c_key c =? k) l.

Lemma calls_to_app k l1 l2 : calls_to k (l1 ++ l2) = calls_to k l1 ++ calls_to k l2.
Proof. unfold calls_to. apply List.filter_app. Qed.

(** One change is one call of each listener. *)
Lemma notify_once (l : list (Z * nat)) k f (x y : V) :
  keys_sorted l -> In (k, f) l -> calls_to k ((fun kc => mkCall kc.1 kc.2 x y) <$> l) = [mkCall k f x y].
Proof.
  unfold calls_to. induction 1 as [| [k1 g] l Hs IH Hall]; intros Hin; [done |]. rewrite fmap_cons. cbn [List.filter c_key fst].
  destruct Hin as [[= -> ->] | Hin].
  - rewrite Z.eqb_refl. f_equal. clear IH. induction Hall as [| [k2 g2] l H2 Hall IH]; [done |]. rewrite fmap_cons. cbn [List.filter c_key fst].
    apply StronglySorted_inv in Hs as [Hs _]. destruct (Z.eqb_spec k2 k); [cbn in H2; lia |]. by apply IH.
  - rewrite Forall_forall in Hall. specialize (Hall (k, f) (proj2 (list_elem_of_In _ _) Hin)). cbn in Hall.
    destruct (Z.eqb_spec k1 k); [lia |]. by apply IH.
Qed.

Lemma fromString_leads v s k f :
  var_ok v -> In (k, f) (m_cbs v) -> leads (m_val v) (calls_to k (fromString v s).2) (m_val (fromString v s).1.2).
Proof.
  intros [_ Hs] Hin. unfold Cf.fromString. destruct (FromStr (m_type v) s) as [x|]; [| done].
  unfold setValue. case_decide as E; [done |]. cbn [snd fst]. rewrite (notify_once _ _ _ _ _ Hs Hin). cbn. by split_and!.
Qed.

(** ** Loading *)

(** What a sequence of texts makes of a variable. *)
Fixpoint run_texts (v : ConfigVar) (l : list string) : ConfigVar * list (@call V) :=
  match l with
  | [] => (v, [])
  | t :: l => let '(_, v1, c1) := fromString v t in let '(v2, c2) := run_texts v1 l in (v2, c1 ++ c2)
  end.

(** The texts that nodes hold for a name. *)
Definition texts_for (name : string) (l : list (string * yaml)) : list string :=
  (fun kn => node_text emit kn.2) <$> List.filter (fun kn => negb (String.eqb kn.1 "") && String.eqb (tolower kn.1) name) l.

Definition calls_of (p : nat) (l : list (nat * @call V)) : list (@call V) := snd <$> List.filter (fun c => (c.1 =? p)%nat) l.

Lemma calls_of_app p l1 l2 : calls_of p (l1 ++ l2) = calls_of p l1 ++ calls_of p l2.
Proof. unfold calls_of. by rewrite List.filter_app, fmap_app. Qed.

Lemma calls_of_tagged p q l : calls_of p ((fun c => (q, c)) <$> l) = if (q =? p)%nat then l else [].
Proof.
  unfold calls_of. induction l as [| c l IH]; [by destruct (q =? p)%nat |]. rewrite fmap_cons. cbn [List.filter fst].
  destruct (q =? p)%nat; [rewrite fmap_cons; by f_equal | exact IH].
Qed.

Lemma load_one_spec s kn :
  conf_inv s ->
  exists s' calls, load_one FromStr emit s kn = Ok (s', calls) /\ conf_inv s' /\ datas s' = datas s /\ fun_id s' = fun_id s /\ modify s' = modify s
    /\ forall p v, vars s !! p = Some v ->
       vars s' !! p = Some (run_texts v (texts_for (m_name v) [kn])).1 /\ calls_of p calls = (run_texts v (texts_for (m_name v) [kn])).2.
Proof.
  intros Hi. unfold load_one, LookupBase. assert (Hskip : forall name, negb (String.eqb kn.1 "") && String.eqb (tolower kn.1) name = false ->
    texts_for name [kn] = []) by (intros name E; unfold texts_for; cbn [List.filter]; by rewrite E).
  destruct (String.eqb kn.1 "") eqn:E0.
  { exists s, []. split_and!; try done; intros p v Hv; rewrite Hskip; try done; by rewrite Hv. }
  destruct (datas s !! tolower kn.1) as [q|] eqn:Eq.
  2: { exists s, []. assert (Hno : forall p v, vars s !! p = Some v -> texts_for (m_name v) [kn] = []).
       { intros p v Hv. apply Hskip. cbn [negb andb]. destruct (String.eqb_spec (tolower kn.1) (m_name v)) as [E|]; [| done].
         destruct (inv_var s Hi p v Hv) as [_ Hd]. congruence. }
       split_and!; try done; intros p v Hv; rewrite (Hno p v Hv); done. }
  destruct (inv_name s Hi _ _ Eq) as (w & Hw & Hname & _). rewrite Hw. cbn [of_ptr mbind outcome_bind].
  destruct (inv_var s Hi q w Hw) as [Hok _]. destruct (fromString_ok w (node_text emit kn.2) Hok) as (Hsame & Hok' & _).
  destruct (fromString w (node_text emit kn.2)) as [[b w'] calls] eqn:Ef. cbn [fst snd] in *.
  eexists _, _. split; [reflexivity |]. split; [by apply (conf_update s _ q w w') |]. split_and!; try done; intros p v Hv; cbn [set_vars vars].
  destruct (decide (p = q)) as [-> | Hne].
  - assert (v = w) as -> by congruence. rewrite lookup_insert_eq, calls_of_tagged, Nat.eqb_refl. unfold texts_for. cbn [List.filter].
    rewrite E0, Hname, String.eqb_refl. cbn [negb andb fmap list_fmap run_texts]. rewrite Ef. by rewrite app_nil_r.
  - rewrite lookup_insert_ne, Hv by done. rewrite Hskip.
    + rewrite calls_of_tagged. by destruct (Nat.eqb_spec q p); [subst |].
    + cbn [negb andb]. destruct (String.eqb_spec (tolower kn.1) (m_name v)) as [E|]; [| done].
      destruct (inv_var s Hi p v Hv) as [_ Hd]. congruence.
Qed.

Lemma run_texts_app v l1 l2 :
  run_texts v (l1 ++ l2) = ((run_texts (run_texts v l1).1 l2).1, (run_texts v l1).2 ++ (run_texts (run_texts v l1).1 l2).2).
Proof.
  revert v. induction l1 as [| t l1 IH]; intros v; cbn [run_texts app fst snd]; [destruct (run_texts v l2) as [a b]; reflexivity |].
  destruct (fromString v t) as [[b v1] c1]. rewrite IH. destruct (run_texts v1 l1) as [v2 c2]. cbn [fst snd].
  by rewrite app_assoc.
Qed.

Lemma run_texts_ok l : forall v, var_ok v ->
  same_var v (run_texts v l).1 /\ var_ok (run_texts v l).1 /\ m_cbs (run_texts v l).1 = m_cbs v
  /\ forall k f, In (k, f) (m_cbs v) -> leads (m_val v) (calls_to k (run_texts v l).2) (m_val (run_texts v l).1).
Proof.
  induction l as [| t l IH]; intros v Hv; cbn [run_texts]; [by split_and!|].
  pose proof (fromString_ok v t Hv) as (H1 & H2 & H3). pose proof (fromString_leads v t) as Hlead.
  destruct (fromString v t) as [[b v1] c1]. cbn [fst snd] in *.
  destruct (IH v1 H2) as (I1 & I2 & I3 & I4). destruct (run_texts v1 l) as [v2 c2]. cbn [fst snd] in *.
  destruct H1 as [H1 H1'], I1 as [I1 I1']. split_and!; [split; congruence | done | congruence |]. intros k f Hin. rewrite calls_to_app.
  eapply leads_app; [by apply (Hlead k f) | apply (I4 k f)]. by rewrite H3.
Qed.

Lemma load_all_spec l : forall s, conf_inv s ->
  exists s' calls, load_all FromStr emit s l = Ok (s', calls) /\ conf_inv s' /\ datas s' = datas s /\ fun_id s' = fun_id s /\ modify s' = modify s
    /\ forall p v, vars s !! p = Some v ->
       vars s' !! p = Some (run_texts v (texts_for (m_name v) l)).1 /\ calls_of p calls = (run_texts v (texts_for (m_name v) l)).2.
Proof.
  induction l as [| kn l IH]; intros s Hi; [by exists s, [] |]. cbn [load_all].
  destruct (load_one_spec s kn Hi) as (s1 & c1 & -> & Hi1 & D1 & F1 & M1 & H1). cbn [mbind outcome_bind].
  destruct (IH s1 Hi1) as (s2 & c2 & -> & Hi2 & D2 & F2 & M2 & H2). cbn [mbind outcome_bind].
  eexists _, _. split; [reflexivity |]. split; [done |]. split_and!; try congruence.
  intros p v Hv. destruct (H1 p v Hv) as [E1 C1]. set (v1 := (run_texts v (texts_for (m_name v) [kn])).1) in *.
  destruct (run_texts_ok (texts_for (m_name v) [kn]) v (proj1 (inv_var s Hi p v Hv))) as ((Hn & _) & _). fold v1 in Hn.
  destruct (H2 p v1 E1) as [E2 C2]. rewrite Hn in E2, C2.
  assert (Et : texts_for (m_name v) (kn :: l) = texts_for (m_name v) [kn] ++ texts_for (m_name v) l).
  { unfold texts_for. rewrite <- fmap_app, <- List.filter_app. done. }
  rewrite Et, run_texts_app. cbn [fst snd]. fold v1. by rewrite calls_of_app, C1, C2, E2.
Qed.

(** ** What a document says, apart from how it is read *)

(** Every node of a document, with the keys that lead to it, in the order of the
    text. *)
Fixpoint positions (node : yaml) : list (list string * yaml) :=
  ([], node) ::
  match node with
  | Map l =>
      (fix go (l : list (string * yaml)) : list (list string * yaml) :=
         match l with
         | [] => []
         | (k, n) :: l => ((fun pn => (k :: pn.1, pn.2)) <$> positions n) ++ go l
         end) l
  | _ => []
  end.

(** The name that keys make: joined by dots, empty keys at the beginning aside. *)
Fixpoint dotted (path : list string) : string :=
  match path with
  | [] => ""
  | k :: path' => if String.eqb k "" then dotted path' else String.concat "." path
  end.

(** The texts that a document has for a variable: those of the nodes under its name,
    the scalar itself or the YAML text of the node. Names without characters have
    none, and neither have names with a 9, though it is a digit. *)
Definition own_texts (name : string) (root : yaml) : list string :=
  if String.eqb name "" || str_mem "9" name then []
  else (fun pn => match pn.2 with Scalar t => t | n => emit n end) <$> List.filter (fun pn => String.eqb (dotted pn.1) name) (positions root).

(** The values a variable goes through when texts are converted one after the other:
    the last one, and each change with the value before and after. Texts that do
    not convert, and texts that give the value it has, change nothing. *)
Fixpoint changes (t : Ty) (x : V) (texts : list string) : V * list (V * V) :=
  match texts with
  | [] => (x, [])
  | text :: texts =>
      match FromStr t text with
      | Some y => if decide (y = x) then changes t x texts else ((changes t y texts).1, (x, y) :: (changes t y texts).2)
      | None => changes t x texts
      end
  end.

Lemma concat_snoc k path x : String.concat "." ((k :: path) ++ [x]) = (String.concat "." (k :: path) ++ "." ++ x)%string.
Proof.
  revert k. induction path as [| k' path IH]; intros k; [done |].
  change (String.concat "." ((k :: k' :: path) ++ [x])) with (k ++ "." ++ String.concat "." ((k' :: path) ++ [x]))%string.
  rewrite IH. change (String.concat "." (k :: k' :: path)) with (k ++ "." ++ String.concat "." (k' :: path))%string.
  by rewrite !str_app_assoc.
Qed.

Lemma concat_nonempty k path : k <> ""%string -> String.concat "." (k :: path) <> ""%string.
Proof. destruct k; [done |]. intros _. by destruct path. Qed.

Lemma dotted_snoc path k : dotted (path ++ [k]) = if String.eqb (dotted path) "" then k else (dotted path ++ "." ++ k)%string.
Proof.
  induction path as [| x path IH]; [cbn; by destruct (String.eqb_spec k "") |]. cbn [app dotted].
  destruct (String.eqb_spec x ""); [exact IH |]. rewrite (proj2 (String.eqb_neq _ _)) by (by apply concat_nonempty).
  apply (concat_snoc x path k).
Qed.

Lemma dotted_valid set path : forall q, only set (dotted (path ++ q)) = true -> only set (dotted path) = true.
Proof.
  intros q. revert path. induction q as [| k q IH]; intros path; [by rewrite app_nil_r |].
  replace (path ++ k :: q) with ((path ++ [k]) ++ q) by (by rewrite <- app_assoc). intros Hv%IH. rewrite dotted_snoc in Hv.
  destruct (String.eqb_spec (dotted path) "") as [-> |]; [done |]. unfold only in *. rewrite str_forall_app in Hv. by apply andb_true_iff in Hv as [? _].
Qed.

Definition named (path : list string) (pn : list string * yaml) : string * yaml := (dotted (path ++ pn.1), pn.2).

Lemma filter_none {A} (f : A -> bool) l : (forall x, In x l -> f x = false) -> List.filter f l = [].
Proof. induction l as [| x l IH]; intros Hall; [done |]. cbn. rewrite (Hall x) by (by left). apply IH. intros y Hy. apply Hall. by right. Qed.

(** [ListAllMember] gives the nodes whose names have only the characters of its
    list. *)
Lemma members_named : forall node path,
  ListAllMember (dotted path) node = List.filter (fun kn => only member_chars kn.1) (named path <$> positions node).
Proof.
  fix IH 1. intros node path. destruct (only member_chars (dotted path)) eqn:E.
  - assert (Hhead : forall m, named path ([], m) = (dotted path, m)) by (intros m; unfold named; cbn; by rewrite app_nil_r).
    destruct node as [| t | l | l]; cbn [ListAllMember positions]; rewrite fmap_cons, Hhead; cbn [List.filter fst]; rewrite E; cbn [negb]; [done.. |].
    f_equal. induction l as [| [k n] l IHl]; [done |]. rewrite fmap_app, List.filter_app, <- IHl. f_equal. rewrite <- dotted_snoc, IH. f_equal.
    rewrite <- list_fmap_compose. apply list_fmap_ext. intros i [q m] _. unfold named. cbn. by rewrite <- app_assoc.
  - rewrite filter_none.
    + by destruct node; cbn [ListAllMember]; rewrite E.
    + intros x (pn & <- & _)%in_map_iff. cbn. destruct (only member_chars (dotted (path ++ pn.1))) eqn:E'; [| done].
      apply dotted_valid in E'. congruence.
Qed.

Lemma member_char_nine c : str_mem c lookup_chars = true -> str_mem c member_chars = negb (Ascii.eqb "9" c).
Proof. destruct c as [[] [] [] [] [] [] [] []]; vm_compute; congruence. Qed.

Lemma only_member_nine name : only lookup_chars name = true -> only member_chars name = negb (str_mem "9" name).
Proof.
  unfold only. induction name as [| c name IH]; [done |]. cbn [str_forall str_mem]. intros [Hc Hs]%andb_true_iff.
  rewrite (member_char_nine c Hc), (IH Hs). by rewrite negb_orb.
Qed.

Lemma texts_own name root : only lookup_chars name = true -> texts_for name (ListAllMember "" root) = own_texts name root.
Proof.
  intros Hn. change ""%string with (dotted []) at 1. rewrite members_named. unfold texts_for, own_texts. set (l := positions root). clearbody l.
  assert (Hf : forall k, only member_chars k && (negb (String.eqb k "") && String.eqb (tolower k) name)
                         = String.eqb k name && negb (String.eqb name "" || str_mem "9" name)).
  { intros k. destruct (String.eqb_spec k name) as [-> | Hne].
    - rewrite (tolower_fixed _ Hn), String.eqb_refl, (only_member_nine _ Hn), negb_orb, andb_true_r, andb_true_l. apply andb_comm.
    - destruct (only member_chars k) eqn:E; [| done]. rewrite tolower_fixed by (exact (str_forall_impl _ _ _ member_chars_lookup E)).
      by rewrite (proj2 (String.eqb_neq _ _) Hne), andb_false_r. }
  induction l as [| [q n] l IH]; [by destruct (_ || _) |]. rewrite fmap_cons. unfold named at 1. cbn [List.filter fst app]. specialize (Hf (dotted q)).
  destruct (only member_chars (dotted q)); cbn [List.filter fst andb] in *;
    [destruct (negb (String.eqb (dotted q) "") && String.eqb (tolower (dotted q)) name) |]; rewrite ?fmap_cons, IH;
    destruct (String.eqb (dotted q) name), (String.eqb name "" || str_mem "9" name); try done.
  rewrite fmap_cons. f_equal. by destruct n.
Qed.

(** Converting texts one after the other. *)
Lemma run_texts_changes l : forall v,
  run_texts v l = (set_val v (changes (m_type v) (m_val v) l).1,
                   (changes (m_type v) (m_val v) l).2 ≫= fun c => (fun kc => mkCall kc.1 kc.2 c.1 c.2) <$> m_cbs v).
Proof.
  induction l as [| t l IH]; intros v; cbn [run_texts changes]; [by destruct v |]. unfold Cf.fromString.
  destruct (FromStr (m_type v) t) as [x|]; [| rewrite IH; by destruct v]. unfold setValue. case_decide as E.
  - rewrite IH. by destruct v.
  - rewrite IH. by destruct v.
Qed.

(** C28: Loading a document sets exactly the variables it names. [LoadFromYaml]
    never fails on a consistent registry. A variable's own texts are those of the
    nodes of the document whose keys, joined by dots, are its name, in the order of
    the document ([own_texts]; they do not refer to how the code walks the tree).
    Every variable ends with the value that its own texts, and only they, make of
    it when they are converted one after the other, where a text that does not
    convert changes nothing; its name, type, description and listeners stay; and
    its listeners are called once for each change of the value, in the order of
    their keys, with the value before and after. A name with a 9 in it has no
    texts: names may have all of [0-9a-z_.], but the loader's list lacks the 9
    ([nine_not_loadable]). *)
Theorem load_sets_named s root :
  conf_inv s ->
  exists s' calls, LoadFromYaml s root = Ok (s', calls) /\ conf_inv s' /\ datas s' = datas s
    /\ forall p v, vars s !! p = Some v ->
       let '(x, chs) := changes (m_type v) (m_val v) (own_texts (m_name v) root) in
       vars s' !! p = Some (mkVar (m_name v) (m_description v) (m_type v) x (m_cbs v))
       /\ calls_of p calls = chs ≫= fun c => (fun kc => mkCall kc.1 kc.2 c.1 c.2) <$> m_cbs v.
Proof.
  intros Hi. destruct (load_all_spec (ListAllMember "" root) s Hi) as (s' & calls & E & Hi' & D & _ & _ & Hv).
  exists s', calls. split_and!; [exact E | done | done |]. intros p v Hp. destruct (Hv p v Hp) as [E1 E2].
  destruct (inv_var s Hi p v Hp) as [_ Hd]. destruct (inv_name s Hi _ _ Hd) as (_ & _ & _ & Hn).
  rewrite (texts_own _ _ Hn), run_texts_changes in E1, E2. destruct (changes _ _ _) as [x chs]. by split.
Qed.

(** ** Every sequence of operations *)

Lemma conf_ext (s s' : state) : conf_inv s -> datas s' = datas s -> vars s' = vars s -> conf_inv s'.
Proof. intros [H1 H2] Hd Hv. split; rewrite Hd, Hv; assumption. Qed.

Lemma load_file_ok s f : conf_inv s -> exists s' calls, load_file FromStr emit s f = Ok (s', calls) /\ conf_inv s'.
Proof.
  intros Hi. unfold load_file. case_match; [eexists _, _; split; [reflexivity |]; by apply (conf_ext s) |].
  destruct (f_root f) as [root|]; [| eexists _, _; split; [reflexivity |]; by apply (conf_ext s)].
  match goal with |- context [Cf.LoadFromYaml _ _ ?s1 _] => assert (Hi1 : conf_inv s1) by by apply (conf_ext s) end.
  destruct (load_all_spec (ListAllMember "" root) _ Hi1) as (s' & calls & E & Hi' & _). by exists s', calls.
Qed.

Lemma LoadFromConfDir_ok files : forall s, conf_inv s ->
  exists s' calls, LoadFromConfDir FromStr emit s files = Ok (s', calls) /\ conf_inv s'.
Proof.
  induction files as [| f files IH]; intros s Hi; [by exists s, [] |]. cbn [LoadFromConfDir].
  destruct (load_file_ok s f Hi) as (s1 & c1 & -> & Hi1). cbn [mbind outcome_bind].
  destruct (IH s1 Hi1) as (s2 & c2 & -> & Hi2). eexists _, _. split; [reflexivity | done].
Qed.

Inductive op :=
  | OLookup (name : string) (t : Ty) (x : V) (description : string) (p : nat)
  | OSet (p : nat) (x : V)
  | OFrom (p : nat) (text : string)
  | OAdd (p : nat) (f : nat)
  | ODel (p : nat) (key : Z)
  | OClear (p : nat)
  | OLoad (root : yaml)
  | ODir (files : list file).

Definition update (s : state) (p : nat) (f : ConfigVar -> ConfigVar) : outcome state :=
  v ← of_ptr (vars s !! p); Ok (set_vars s (<[p := f v]> (vars s))).

Definition apply_op (s : state) (o : op) : outcome state :=
  match o with
  | OLookup name t x d p => snd <$> Lookup s name t x d p
  | OSet p x => update s p (fun v => (setValue v x).1)
  | OFrom p text => update s p (fun v => (fromString v text).1.2)
  | OAdd p f => snd <$> addListener s p f
  | ODel p key => update s p (fun v => delListener v key)
  | OClear p => update s p clearListener
  | OLoad root => fst <$> LoadFromYaml s root
  | ODir files => fst <$> LoadFromConfDir FromStr emit s files
  end.

(** What the language's types and [new] see to: a typed handle sets values of its
    type, a handle is of an object, a new object is somewhere else. *)
Definition enabled (s : state) (o : op) : Prop :=
  match o with
  | OLookup name t x d p => typeof x = t /\ vars s !! p = None
  | OSet p x => exists v, vars s !! p = Some v /\ typeof x = m_type v
  | OFrom p _ | OAdd p _ | ODel p _ | OClear p => is_Some (vars s !! p)
  | OLoad _ | ODir _ => True
  end.

Definition empty_state : state := mkState ∅ ∅ ∅ ∅.

Inductive reachable : state -> Prop :=
  | r_init : reachable empty_state
  | r_step s o s' : reachable s -> enabled s o -> apply_op s o = Ok s' -> reachable s'.

Lemma update_ok s p v f :
  conf_inv s -> vars s !! p = Some v -> same_var v (f v) -> var_ok (f v) -> exists s', update s p f = Ok s' /\ conf_inv s'.
Proof.
  intros Hi Hv Hs Hok. unfold update. rewrite Hv. eexists. split; [reflexivity |]. by apply (conf_update s _ p v (f v)).
Qed.

Lemma lookup_op_ok s name t x d p :
  conf_inv s -> typeof x = t -> vars s !! p = None ->
  (exists s', apply_op s (OLookup name t x d p) = Ok s' /\ conf_inv s')
  \/ (apply_op s (OLookup name t x d p) = Fail InvalidArgument /\ datas s !! name = None /\ only lookup_chars name = false).
Proof.
  intros Hi Ht Hp. cbn [apply_op]. unfold Lookup. destruct (datas s !! name) as [q|] eqn:Eq.
  { destruct (inv_name s Hi _ _ Eq) as (w & -> & _). cbn [of_ptr mbind outcome_bind]. left. exists s. by case_decide. }
  destruct (only lookup_chars name) eqn:Eo; [left | by right]. cbn [negb]. eexists. split; [reflexivity |].
  destruct Hi as [H1 H2]. split; cbn [datas vars snd].
  - intros nm q. destruct (decide (nm = name)) as [-> | Hne].
    + rewrite lookup_insert_eq. intros [= <-]. rewrite lookup_insert_eq. eexists. split; [reflexivity |]. split; [| done].
      by apply tolower_fixed.
    + rewrite lookup_insert_ne by done. intros Hq. destruct (H1 _ _ Hq) as (w & Hw & ?). exists w.
      rewrite lookup_insert_ne by congruence. done.
  - intros q w. destruct (decide (q = p)) as [-> | Hne].
    + rewrite lookup_insert_eq. intros [= <-]. cbn. rewrite (tolower_fixed _ Eo), lookup_insert_eq. repeat split; [done | constructor].
    + rewrite lookup_insert_ne by done. intros Hw. destruct (H2 _ _ Hw) as [? Hd]. split; [done |].
      rewrite lookup_insert_ne; [done |]. intros E. congruence.
Qed.

Lemma op_ok s o :
  conf_inv s -> enabled s o ->
  (exists s', apply_op s o = Ok s' /\ conf_inv s')
  \/ (apply_op s o = Fail InvalidArgument
      /\ exists name t x d p, o = OLookup name t x d p /\ datas s !! name = None /\ only lookup_chars name = false).
Proof.
  intros Hi He. destruct o as [name t x d p | p x | p text | p f | p key | p | root | files]; cbn [enabled] in He.
  - destruct He as [Ht Hp]. destruct (lookup_op_ok s name t x d p Hi Ht Hp) as [? | (? & ? & ?)]; [by left | right].
    split; [done |]. by exists name, t, x, d, p.
  - left. destruct He as (v & Hv & Hx). destruct (inv_var s Hi p v Hv) as [Hok _].
    destruct (setValue_ok v x Hok Hx) as (? & ? & _). by apply (update_ok s p v).
  - left. destruct He as [v Hv]. destruct (inv_var s Hi p v Hv) as [Hok _].
    destruct (fromString_ok v text Hok) as (? & ? & _). by apply (update_ok s p v).
  - left. destruct He as [v Hv]. destruct (inv_var s Hi p v Hv) as [[Ht Hk] _]. cbn [apply_op]. unfold addListener. rewrite Hv.
    eexists. split; [reflexivity |]. eapply (conf_update s _ p v); [done | done | | | reflexivity | reflexivity]; [done |].
    split; [done |]. by apply put_cb_sorted.
  - left. destruct He as [v Hv]. destruct (inv_var s Hi p v Hv) as [[Ht Hk] _].
    apply (update_ok s p v); [done | done | done |]. split; [done |]. by apply filter_sorted.
  - left. destruct He as [v Hv]. destruct (inv_var s Hi p v Hv) as [[Ht Hk] _].
    apply (update_ok s p v); [done | done | done |]. split; [done | constructor].
  - left. destruct (load_all_spec (ListAllMember "" root) s Hi) as (s' & calls & E & Hi' & _). exists s'. split; [| done].
    cbn [apply_op]. unfold Cf.LoadFromYaml. by rewrite E.
  - left. destruct (LoadFromConfDir_ok files s Hi) as (s' & calls & E & Hi'). exists s'. split; [| done]. cbn [apply_op]. by rewrite E.
Qed.

Lemma conf_reachable_inv s : reachable s -> conf_inv s.
Proof.
  induction 1 as [| s o s' Hr IH He E]; [split; intros *; unfold empty_state; cbn [datas vars]; by rewrite lookup_empty |].
  destruct (op_ok s o IH He) as [(s1 & E1 & Hi) | [E1 _]]; congruence.
Qed.

(** C29: The registry is well typed. After any sequence of operations (creating
    variables, setting them, by value and from text, adding and removing
    listeners, loading documents and directories), a variable that
    [Lookup] returns for a name and a type carries the name and holds a value of
    the type; a look-up never meets a dangling object; and every operation
    goes through, except that [Lookup] of a new name with a character outside of
    [0-9a-z_.] throws. *)
Theorem config_well_typed s :
  reachable s ->
  (forall name t, exists r, Lookup_existing s name t = Ok r
     /\ forall p, r = Some p -> exists v, vars s !! p = Some v /\ m_name v = name /\ m_type v = t /\ typeof (getValue v) = t)
  /\ (forall o, enabled s o ->
     (exists s', apply_op s o = Ok s')
     \/ (apply_op s o = Fail InvalidArgument
         /\ exists name t x d p, o = OLookup name t x d p /\ datas s !! name = None /\ only lookup_chars name = false)).
Proof.
  intros Hi%conf_reachable_inv. split.
  - intros name t. unfold Lookup_existing. destruct (datas s !! name) as [q|] eqn:Eq; [| by exists None].
    destruct (inv_name s Hi _ _ Eq) as (v & Hv & Hn & _). rewrite Hv. cbn [of_ptr mbind outcome_bind]. eexists. split; [reflexivity |].
    intros p. case_decide as Ht; [| done]. intros [= <-]. exists v. split_and!; try done. unfold getValue. rewrite <- Ht. by apply (inv_var s Hi q v).
  - intros o He. destruct (op_ok s o Hi He) as [(s' & E & _) | Hf]; [left; by exists s' | by right].
Qed.

(** ** What loading cannot do *)

(** The names that [ListAllMember] gives have only the characters of its list. *)
Lemma members_checked : forall node prefix kn, In kn (ListAllMember prefix node) -> only member_chars kn.1 = true.
Proof.
  fix IH 1. intros node prefix kn. destruct node as [| t | l | l]; cbn [ListAllMember]; destruct (only member_chars prefix) eqn:E; cbn [negb]; try done.
  1-3: by intros [<- | []].
  intros [<- | Hin]; [done |]. induction l as [| [k n] l IHl]; [done |].
  apply in_app_or in Hin as [Hin | Hin]; [exact (IH n _ _ Hin) | exact (IHl Hin)].
Qed.

Lemma str_forall_mem P c s : str_forall P s = true -> str_mem c s = true -> P c = true.
Proof.
  induction s as [| d s IH]; [done |]. cbn [str_forall str_mem]. intros [H1 H2]%andb_true_iff [E | E]%orb_true_iff; [| by apply IH].
  apply Ascii.eqb_eq in E. by subst.
Qed.

(** The list lacks the digit 9: no document reaches a variable with a 9 in its
    name, though [Lookup] creates it. *)
Theorem nine_not_loadable s root p v :
  conf_inv s -> vars s !! p = Some v -> str_mem "9" (m_name v) = true ->
  exists s' calls, LoadFromYaml s root = Ok (s', calls) /\ vars s' !! p = Some v.
Proof.
  intros Hi Hv H9. destruct (load_all_spec (ListAllMember "" root) s Hi) as (s' & calls & E & _ & _ & _ & _ & Hvars).
  exists s', calls. split; [exact E |]. destruct (Hvars p v Hv) as [-> _].
  assert (texts_for (m_name v) (ListAllMember "" root) = []) as ->; [| done].
  clear E Hvars. unfold texts_for. generalize (members_checked root ""). induction (ListAllMember "" root) as [| kn l IH]; [done |]. intros Hm. cbn [List.filter].
  assert (negb (String.eqb kn.1 "") && String.eqb (tolower kn.1) (m_name v) = false) as ->; [| apply IH; intros q Hq; apply (Hm q); by right].
  apply andb_false_iff. right. apply String.eqb_neq. intros Hn. specialize (Hm kn (or_introl eq_refl)).
  pose proof (str_forall_impl _ _ _ member_chars_lookup Hm) as Hl.
  rewrite (tolower_fixed _ Hl) in Hn. rewrite <- Hn in H9. pose proof (str_forall_mem _ _ _ Hm H9). done.
Qed.

(** A file whose parse failed is taken as loaded: the next pass skips it though
    it could be parsed now, as long as its time stays. *)
Theorem failed_file_not_retried s name mtime root :
  u64 mtime <> default 0 (modify s !! name) ->
  exists s1, load_file FromStr emit s (mkFile name mtime None) = Ok (s1, [])
    /\ exists s2, load_file FromStr emit s1 (mkFile name mtime (Some root)) = Ok (s2, []) /\ vars s2 = vars s.
Proof.
  intros Hne. unfold load_file at 1. cbn [f_name f_mtime f_root]. destruct (Z.eqb_spec (default 0 (modify s !! name)) (u64 mtime)); [done |].
  eexists. split; [reflexivity |]. unfold load_file. cbn [f_name f_mtime f_root modify]. rewrite lookup_insert_eq. cbn [default].
  rewrite Z.eqb_refl. eexists. split; [reflexivity | done].
Qed.

(** [fromString] answers false also when the value was taken. *)
Theorem from_string_says_false v text x :
  FromStr (m_type v) text = Some x -> (fromString v text).1.1 = false /\ m_val (fromString v text).1.2 = x.
Proof. intros E. unfold Cf.fromString. rewrite E. unfold setValue. by case_decide. Qed.
End props.

(** ** The copied sizes follow their variables *)

Section copies.
Import Cs.
Context {V Ty : Type} `{EqDecision V} `{Countable Ty}.
Context (typeof : V -> Ty) (FromStr : Ty -> string -> option V) (emit : yaml -> string).
Context (u64_t : Ty) (of_u64 : Z -> V) (to_u64 : V -> Z).
Hypothesis FromStr_typed : forall t s x, FromStr t s = Some x -> typeof x = t.
Hypothesis of_u64_typed : forall z, typeof (of_u64 z) = u64_t.
Hypothesis to_of_u64 : forall z, to_u64 (of_u64 z) = z.

Abbreviation state := (@state V Ty _ _).
Abbreviation count s t := (default 0 (fun_id s !! t)).
Abbreviation labels v := ((m_cbs v).*2).
Abbreviation heard := (heard (V := V) to_u64).

(** A consistent registry whose listener keys are behind the counters and in
    which only the variables of the sizes have their listeners. *)
Record copy_base (s : state) : Prop := mkBase {
  b_conf : conf_inv typeof s;
  b_pos : forall t, 0 <= count s t;
  b_keys : forall p v kc, vars s !! p = Some v -> In kc (m_cbs v) -> kc.1 <= count s (m_type v);
  b_only : forall p v w, vars s !! p = Some v -> label w ∈ labels v -> m_name v = name_of w;
}.

(** The variable of a size is at [p] and holds [x]; [b]: its listener is there. *)
Definition holds (s : state) (w : which) (p : nat) (x : V) (b : bool) : Prop :=
  datas s !! name_of w = Some p
  /\ exists v, vars s !! p = Some v /\ m_type v = u64_t /\ m_val v = x /\ (b = true -> label w ∈ labels v).

Definition follows (s : state) (z : sizes) : Prop :=
  copy_base s /\ forall w, exists p x, holds s w p x true /\ get_size w z = to_u64 x.

Lemma of_label_label w : of_label (label w) = Some w.
Proof. by destruct w. Qed.

Lemma of_label_inv f w : of_label f = Some w -> f = label w.
Proof. destruct f as [| [| [| [|]]]]; intros [= <-]; done. Qed.

Lemma get_set_size w w' x z : get_size w (set_size w' x z) = if decide (w = w') then x else get_size w z.
Proof. by destruct z, w, w'. Qed.

Lemma name_of_inj w w' : name_of w = name_of w' -> w = w'.
Proof. by destruct w, w'. Qed.

(** After the listeners of one variable have run, the sizes whose listener is
    among them have the new value. *)
Lemma heard_all (l : list (Z * nat)) (x y : V) w z :
  get_size w (foldl heard z ((fun kc => mkCall kc.1 kc.2 x y) <$> l)) = if decide (label w ∈ l.*2) then to_u64 y else get_size w z.
Proof.
  revert z. induction l as [| [k f] l IH]; intros z; [by rewrite decide_False by by intros ?%not_elem_of_nil |].
  rewrite fmap_cons. cbn [foldl]. rewrite IH. rewrite fmap_cons. cbn [fst snd].
  destruct (decide (label w ∈ l.*2)) as [Hin | Hin]; [by rewrite decide_True by by right |].
  unfold Cs.heard. cbn [c_cb c_new]. destruct (of_label f) as [w'|] eqn:E.
  - apply of_label_inv in E as ->. rewrite get_set_size. case_decide as Hw; [subst; by rewrite decide_True by left |].
    rewrite decide_False; [done |]. intros [E | ?]%elem_of_cons; [| done]. apply Hw.
    by apply (f_equal of_label) in E; rewrite !of_label_label in E; injection E.
  - rewrite decide_False; [done |]. intros [<- | ?]%elem_of_cons; [| done]. by rewrite of_label_label in E.
Qed.

Lemma put_cb_last l k f : (forall kc, In kc l -> kc.1 < k) -> put_cb l k f = l ++ [(k, f)].
Proof.
  induction l as [| [k1 g] l IH]; intros Hl; [done |]. cbn [put_cb app]. pose proof (Hl _ (or_introl eq_refl)) as Hk. cbn in Hk.
  destruct (Z.ltb_spec k1 k); [| lia]. f_equal. apply IH. intros kc Hin. apply Hl. by right.
Qed.

Lemma base_update s s' p v v' :
  copy_base s -> vars s !! p = Some v -> same_var v v' -> var_ok typeof v' -> datas s' = datas s -> vars s' = <[p := v']> (vars s) ->
  (forall t, count s t <= count s' t) ->
  (forall kc, In kc (m_cbs v') -> kc.1 <= count s' (m_type v)) ->
  (forall w, label w ∈ labels v' -> m_name v = name_of w) -> copy_base s'.
Proof.
  intros [B1 B2 B3 B4] Hv Hs Hok Hd Hvars Hc Hk Hl. split.
  - by apply (conf_update typeof s s' p v v').
  - intros t. specialize (B2 t). specialize (Hc t). lia.
  - intros q u kc. rewrite Hvars. destruct (decide (q = p)) as [-> | Hne].
    + rewrite lookup_insert_eq. intros [= <-] Hin. destruct Hs as [_ ->]. by apply Hk.
    + rewrite lookup_insert_ne by done. intros Hu Hin. specialize (B3 q u kc Hu Hin). specialize (Hc (m_type u)). lia.
  - intros q u w. rewrite Hvars. destruct (decide (q = p)) as [-> | Hne].
    + rewrite lookup_insert_eq. intros [= <-] Hin. destruct Hs as [-> _]. by apply Hl.
    + rewrite lookup_insert_ne by done. apply B4.
Qed.

(** Setting a variable renews the copy, when it is one of the four. *)
Lemma set_follows s z p v x :
  follows s z -> vars s !! p = Some v -> typeof x = m_type v ->
  follows (set_vars s (<[p := (setValue v x).1]> (vars s))) (foldl heard z (setValue v x).2).
Proof.
  intros [B F] Hv Hx. pose proof (inv_var _ _ (b_conf s B) p v Hv) as [Hok Hd].
  destruct (setValue_ok typeof v x Hok Hx) as (Hs & Hok' & Hval & Hcb). split.
  { eapply (base_update s _ p v); [done | done | exact Hs | done | reflexivity | reflexivity | done |..]; rewrite Hcb.
    - intros kc. by apply (b_keys s B p).
    - intros w. by apply (b_only s B p). }
  intros w. destruct (F w) as (q & y & (Hq & u & Hu & Ht & Hy & Hlab) & Hz). unfold holds. cbn [set_vars datas vars].
  assert (Hget : get_size w (foldl heard z (setValue v x).2) = if decide (label w ∈ labels v) then to_u64 x else get_size w z).
  { unfold setValue. case_decide as E; cbn [snd]; [| apply heard_all]. cbn [foldl]. case_decide as Hin; [| done].
    pose proof (b_only s B p v w Hv Hin) as Hn. rewrite Hz, E. f_equal. rewrite Hn in Hd.
    assert (q = p) as -> by congruence. assert (u = v) as -> by congruence. done. }
  rewrite Hget. destruct (decide (q = p)) as [-> | Hne].
  - assert (u = v) as -> by congruence. exists p, x. rewrite decide_True by auto. split; [| done]. split; [done |].
    rewrite lookup_insert_eq. eexists. split; [reflexivity |]. destruct Hs as [_ ->]. by rewrite Hcb.
  - exists q, y. rewrite decide_False.
    + split; [| done]. split; [done |]. exists u. by rewrite lookup_insert_ne.
    + intros Hin. pose proof (b_only s B p v w Hv Hin) as Hn. rewrite Hn in Hd. congruence.
Qed.

Lemma load_one_follows s z kn :
  follows s z -> exists s' calls, load_one FromStr emit s kn = Ok (s', calls) /\ follows s' (foldl heard z calls.*2).
Proof.
  intros F. unfold load_one, LookupBase. destruct (String.eqb kn.1 ""); [by exists s, [] |].
  destruct (datas s !! tolower kn.1) as [p|] eqn:Ep; [| by exists s, []].
  destruct (inv_name _ _ (b_conf s (proj1 F)) _ _ Ep) as (v & Hv & _). rewrite Hv. cbn [of_ptr mbind outcome_bind].
  unfold Cf.fromString. destruct (FromStr (m_type v) (node_text emit kn.2)) as [x|] eqn:Ex.
  - pose proof (set_follows s z p v x F Hv (FromStr_typed _ _ _ Ex)) as Hf. destruct (setValue v x) as [v' calls].
    eexists _, _. split; [reflexivity |]. by rewrite <- list_fmap_compose, list_fmap_id.
  - eexists _, _. split; [reflexivity |]. cbn [fmap list_fmap foldl]. destruct s as [d vs fi mo]. cbn [set_vars vars datas fun_id modify] in *.
    rewrite insert_id by done. exact F.
Qed.

Lemma load_all_follows l : forall s z, follows s z ->
  exists s' calls, load_all FromStr emit s l = Ok (s', calls) /\ follows s' (foldl heard z calls.*2).
Proof.
  induction l as [| kn l IH]; intros s z F; [by exists s, [] |]. cbn [load_all].
  destruct (load_one_follows s z kn F) as (s1 & c1 & -> & F1). cbn [mbind outcome_bind].
  destruct (IH s1 _ F1) as (s2 & c2 & -> & F2). eexists _, _. split; [reflexivity |]. by rewrite fmap_app, foldl_app.
Qed.

Lemma follows_modify s z m : follows s z -> follows (mkState (datas s) (vars s) (fun_id s) m) z.
Proof. intros [[B1 B2 B3 B4] F]. split; [split; [by apply (conf_ext typeof s) | done..] | done]. Qed.

Lemma load_dir_follows files : forall s z, follows s z ->
  exists s' calls, LoadFromConfDir FromStr emit s files = Ok (s', calls) /\ follows s' (foldl heard z calls.*2).
Proof.
  induction files as [| f files IH]; intros s z F; [by exists s, [] |]. cbn [LoadFromConfDir].
  assert (exists s1 c1, load_file FromStr emit s f = Ok (s1, c1) /\ follows s1 (foldl heard z c1.*2)) as (s1 & c1 & -> & F1).
  { unfold load_file. case_match; [eexists _, _; split; [reflexivity |]; by apply follows_modify |].
    destruct (f_root f) as [root|]; [| eexists _, _; split; [reflexivity |]; by apply follows_modify].
    apply load_all_follows. by apply follows_modify. }
  cbn [mbind outcome_bind]. destruct (IH s1 _ F1) as (s2 & c2 & -> & F2). eexists _, _. split; [reflexivity |].
  by rewrite fmap_app, foldl_app.
Qed.

(** Adding a listener appends it. *)
Lemma add_listener_ok s p v f :
  copy_base s -> vars s !! p = Some v -> count s (m_type v) < 2 ^ 64 - 1 -> (forall w, f = label w -> m_name v = name_of w) ->
  exists s', addListener s p f = Ok (count s (m_type v) + 1, s') /\ copy_base s' /\ (forall w q x b, holds s w q x b -> holds s' w q x b)
    /\ (forall w x, f = label w -> holds s w p x false -> holds s' w p x true)
    /\ count s' (m_type v) = count s (m_type v) + 1.
Proof.
  intros B Hv Hc Hf. pose proof (b_pos s B (m_type v)) as Hpos. unfold addListener. rewrite Hv. cbn [of_ptr mbind outcome_bind].
  replace (u64 (count s (m_type v) + 1)) with (count s (m_type v) + 1) by (unfold u64; symmetry; apply Z.mod_small; lia).
  rewrite put_cb_last by (intros kc Hin; specialize (b_keys s B p v kc Hv Hin); lia).
  eexists. split; [reflexivity |]. set (v' := set_cbs v _). set (s' := mkState _ _ _ _).
  assert (Hlab : labels v' = labels v ++ [f]) by (unfold v'; cbn [m_cbs set_cbs]; by rewrite fmap_app).
  assert (Hcount : forall t, count s' t = if decide (t = m_type v) then count s (m_type v) + 1 else count s t).
  { intros t. unfold s'. cbn [fun_id]. case_decide; [subst; by rewrite lookup_insert_eq | by rewrite lookup_insert_ne]. }
  assert (Hkeep : forall w q x b, holds s w q x b -> holds s' w q x b).
  { intros w q x b (Hq & u & Hu & Ht & Hx & Hb). split; [done |]. unfold s'. cbn [vars]. destruct (decide (q = p)) as [-> | Hne].
    - assert (u = v) as -> by congruence. rewrite lookup_insert_eq. eexists. split; [reflexivity |]. split_and!; [done | done |].
      intros E. rewrite Hlab. apply elem_of_app. left. by apply Hb.
    - rewrite lookup_insert_ne by done. eauto. }
  split_and!; [| done | |].
  - pose proof (inv_var _ _ (b_conf s B) p v Hv) as [[Ht Hsort] _].
    eapply (base_update s s' p v v'); [done | done | done | | done | done |..].
    + split; [done |]. unfold v'. cbn [m_cbs set_cbs]. rewrite <- (put_cb_last _ _ f);
        [by apply put_cb_sorted | intros kc Hin; specialize (b_keys s B p v kc Hv Hin); lia].
    + intros t. rewrite Hcount. case_decide; subst; lia.
    + intros kc Hin. rewrite Hcount, decide_True by done. unfold v' in Hin. cbn [m_cbs set_cbs] in Hin.
      apply in_app_or in Hin as [Hin | [<- | []]]; [specialize (b_keys s B p v kc Hv Hin); lia | cbn; lia].
    + intros w. rewrite Hlab. intros [Hin | Hin%list_elem_of_singleton]%elem_of_app; [by apply (b_only s B p) | by apply Hf].
  - intros w x -> Hw. destruct (Hkeep _ _ _ _ Hw) as (Hq & u & Hu & ? & ? & _). split; [done |]. exists u. split_and!; try done. intros _.
    unfold s' in Hu. cbn [vars] in Hu. rewrite lookup_insert_eq in Hu. injection Hu as <-. rewrite Hlab. apply elem_of_app. right. by left.
  - by rewrite Hcount, decide_True.
Qed.

(** Looking up makes at most one variable, without listeners. *)
Lemma lookup_ok s name t x d p g s' :
  copy_base s -> typeof x = t -> vars s !! p = None -> Lookup s name t x d p = Ok (g, s') ->
  copy_base s' /\ fun_id s' = fun_id s /\ (forall w q y b, holds s w q y b -> holds s' w q y b)
  /\ (datas s !! name = None -> g = Some p /\ datas s' = <[name := p]> (datas s) /\ vars s' = <[p := new_ConfigVar name t x d]> (vars s)).
Proof.
  intros B Ht Hp E. assert (Hc : conf_inv typeof s').
  { destruct (lookup_op_ok typeof FromStr emit s name t x d p (b_conf s B) Ht Hp) as [(s1 & E1 & Hc) | (E1 & _)];
      cbn [apply_op] in E1; rewrite E in E1; [injection E1 as <-; done | done]. }
  unfold Lookup in E. destruct (datas s !! name) as [q|] eqn:Eq.
  { destruct (vars s !! q) as [u|]; [| done]. cbn in E. case_decide; injection E as <- <-; by split_and!. }
  destruct (negb (only lookup_chars name)); [done |]. injection E as <- <-. split_and!; [| done | | done].
  - split; [done | exact (b_pos s B) | |]; cbn [vars fun_id].
    + intros q u kc. destruct (decide (q = p)) as [-> | Hne]; [rewrite lookup_insert_eq; by intros [= <-] | rewrite lookup_insert_ne by done; apply (b_keys s B)].
    + intros q u w. destruct (decide (q = p)) as [-> | Hne]; [| rewrite lookup_insert_ne by done; apply (b_only s B)].
      rewrite lookup_insert_eq. intros [= <-]. by intros ?%not_elem_of_nil.
  - intros w q y b (Hq & u & Hu & Hrest). split; cbn [datas vars].
    + rewrite lookup_insert_ne; [done |]. intros ->. congruence.
    + exists u. rewrite lookup_insert_ne; [done |]. intros ->. congruence.
Qed.

(** What is still to be made: the name is free and so is the place. *)
Definition unmade (s : state) (p : which -> nat) (w : which) : Prop := datas s !! name_of w = None /\ vars s !! p w = None.

Lemma lookup_size_ok s p w :
  copy_base s -> (forall w1 w2, p w1 = p w2 -> w1 = w2) -> unmade s p w ->
  exists s', lookup_size u64_t of_u64 s w (p w) = Ok (Some (p w), s') /\ copy_base s' /\ fun_id s' = fun_id s
    /\ holds s' w (p w) (of_u64 (default_of w)) false /\ (forall w' q y b, holds s w' q y b -> holds s' w' q y b)
    /\ (forall w', w' <> w -> unmade s p w' -> unmade s' p w').
Proof.
  intros B Hp [Hn Hv]. unfold lookup_size.
  assert (exists g s', Lookup s (name_of w) u64_t (of_u64 (default_of w)) (description_of w) (p w) = Ok (g, s')) as (g & s' & E).
  { unfold Lookup. rewrite Hn. replace (only lookup_chars (name_of w)) with true by by destruct w. eexists _, _. reflexivity. }
  rewrite E. destruct (lookup_ok s _ _ _ _ _ _ _ B (of_u64_typed _) Hv E) as (B' & Hf & Hkeep & Hnew). destruct (Hnew Hn) as (-> & Hd & Hvs).
  exists s'. split_and!; try done.
  - split; [by rewrite Hd, lookup_insert_eq |]. rewrite Hvs, lookup_insert_eq. eexists. by split_and!.
  - intros w' Hw [H1 H2]. split; [rewrite Hd, lookup_insert_ne | rewrite Hvs, lookup_insert_ne]; try done.
    + intros E1. by apply Hw, name_of_inj.
    + intros E1. by apply Hw, Hp.
Qed.

Lemma copy_size_ok s w p x b z : holds s w p x b -> copy_size to_u64 s w (Some p) z = Ok (set_size w (to_u64 x) z).
Proof. intros (_ & v & Hv & _ & <- & _). unfold copy_size. cbn. by rewrite Hv. Qed.

Lemma follow_size_ok s w p x :
  copy_base s -> holds s w p x false -> count s u64_t < 2 ^ 64 - 1 ->
  exists s', follow_size s w (Some p) = Ok s' /\ copy_base s' /\ holds s' w p x true
    /\ (forall w' q y b, holds s w' q y b -> holds s' w' q y b) /\ count s' u64_t = count s u64_t + 1.
Proof.
  intros B Hh Hc. destruct Hh as (Hd & v & Hv & Ht & Hx & Hb) eqn:Eh. clear Eh.
  destruct (inv_name _ _ (b_conf s B) _ _ Hd) as (u & Hu & Hn & _). assert (u = v) as -> by congruence. rewrite <- Ht in Hc |- * .
  destruct (add_listener_ok s p v (label w) B Hv Hc) as (s' & E & B' & Hkeep & Hown & Hcnt).
  { intros w' E. rewrite Hn. f_equal. apply (f_equal of_label) in E. rewrite !of_label_label in E. by injection E. }
  exists s'. split_and!; [| done | by apply Hown | done | done]. unfold follow_size. cbn. by rewrite E.
Qed.

(** The start makes the four variables with their defaults and their copies. *)
Lemma start_follows s p :
  copy_base s -> (forall w1 w2, p w1 = p w2 -> w1 = w2) -> (forall w, unmade s p w) -> count s u64_t < 2 ^ 64 - 4 ->
  exists z s', start_sizes u64_t of_u64 to_u64 s p = Ok (z, s') /\ follows s' z /\ forall w, get_size w z = default_of w.
Proof.
  intros B Hp Hun Hc. unfold start_sizes.
  destruct (lookup_size_ok s p RequestBuffer B Hp (Hun _)) as (s1 & -> & B1 & F1 & O1 & _ & U1). cbn [mbind outcome_bind].
  destruct (lookup_size_ok s1 p RequestBody B1 Hp (U1 RequestBody ltac:(done) (Hun _))) as (s2 & -> & B2 & F2 & O2 & K2 & U2). cbn [mbind outcome_bind].
  destruct (lookup_size_ok s2 p ResponseBuffer B2 Hp (U2 ResponseBuffer ltac:(done) (U1 ResponseBuffer ltac:(done) (Hun _)))) as (s3 & -> & B3 & F3 & O3 & K3 & U3).
  cbn [mbind outcome_bind].
  destruct (lookup_size_ok s3 p ResponseBody B3 Hp (U3 ResponseBody ltac:(done) (U2 ResponseBody ltac:(done) (U1 ResponseBody ltac:(done) (Hun _))))) as (s4 & -> & B4 & F4 & O4 & K4 & _).
  cbn [mbind outcome_bind]. unfold _RequestSizeIniter.
  apply K2, K3, K4 in O1. apply K3, K4 in O2. apply K4 in O3. clear K2 K3 K4 U1 U2 U3.
  assert (Hc4 : count s4 u64_t < 2 ^ 64 - 4) by by rewrite F4, F3, F2, F1.
  rewrite (copy_size_ok _ _ _ _ _ _ O1). cbn [mbind outcome_bind]. rewrite (copy_size_ok _ _ _ _ _ _ O2). cbn [mbind outcome_bind].
  rewrite (copy_size_ok _ _ _ _ _ _ O3). cbn [mbind outcome_bind]. rewrite (copy_size_ok _ _ _ _ _ _ O4). cbn [mbind outcome_bind].
  destruct (follow_size_ok s4 _ _ _ B4 O1 ltac:(lia)) as (s5 & -> & B5 & L1 & K5 & C5). cbn [mbind outcome_bind]. apply K5 in O2, O3, O4.
  destruct (follow_size_ok s5 _ _ _ B5 O2 ltac:(lia)) as (s6 & -> & B6 & L2 & K6 & C6). cbn [mbind outcome_bind]. apply K6 in L1, O3, O4.
  destruct (follow_size_ok s6 _ _ _ B6 O3 ltac:(lia)) as (s7 & -> & B7 & L3 & K7 & C7). cbn [mbind outcome_bind]. apply K7 in L1, L2, O4.
  destruct (follow_size_ok s7 _ _ _ B7 O4 ltac:(lia)) as (s8 & -> & B8 & L4 & K8 & C8). cbn [mbind outcome_bind]. apply K8 in L1, L2, L3.
  eexists _, s8. split; [reflexivity |]. rewrite !to_of_u64. split; [split; [done |] | by intros []].
  intros []; eexists _, _; (split; [eassumption | by rewrite to_of_u64]).
Qed.

(** What the program does to the configuration once it runs, with the effect of
    the listeners on the copies: values are set, documents and directories
    loaded, variables looked up, listeners of others added. *)
Inductive conf_step : state * sizes -> state * sizes -> Prop :=
  | cs_set s z p v x : vars s !! p = Some v -> typeof x = m_type v ->
      conf_step (s, z) (set_vars s (<[p := (setValue v x).1]> (vars s)), foldl heard z (setValue v x).2)
  | cs_load s z root s' calls : LoadFromYaml FromStr emit s root = Ok (s', calls) -> conf_step (s, z) (s', foldl heard z calls.*2)
  | cs_dir s z files s' calls : LoadFromConfDir FromStr emit s files = Ok (s', calls) -> conf_step (s, z) (s', foldl heard z calls.*2)
  | cs_lookup s z name t x d p g s' : typeof x = t -> vars s !! p = None -> Lookup s name t x d p = Ok (g, s') -> conf_step (s, z) (s', z)
  | cs_add s z p f k s' : of_label f = None -> (forall t, count s t < 2 ^ 64 - 1) -> addListener s p f = Ok (k, s') -> conf_step (s, z) (s', z).

Lemma conf_step_follows a b : conf_step a b -> follows a.1 a.2 -> follows b.1 b.2.
Proof.
  destruct 1 as [s z p v x Hv Hx | s z root s' calls E | s z files s' calls E | s z name t x d p g s' Ht Hp E | s z p f k s' Hf Hc E]; cbn [fst snd]; intros F.
  - by apply set_follows.
  - destruct (load_all_follows (ListAllMember "" root) s z F) as (s1 & c1 & E1 & F1). unfold LoadFromYaml in E. congruence.
  - destruct (load_dir_follows files s z F) as (s1 & c1 & E1 & F1). congruence.
  - destruct F as [B F]. destruct (lookup_ok _ _ _ _ _ _ _ _ B Ht Hp E) as (B' & _ & Hkeep & _). split; [done |].
    intros w. destruct (F w) as (q & y & Hq & Hz). eauto.
  - destruct F as [B F]. destruct (vars s !! p) as [v|] eqn:Hv; [| unfold addListener in E; by rewrite Hv in E].
    destruct (add_listener_ok s p v f B Hv (Hc _)) as (s1 & E1 & B' & Hkeep & _).
    { intros w ->. by rewrite of_label_label in Hf. }
    rewrite E1 in E. injection E as <- <-. split; [done |]. intros w. destruct (F w) as (q & y & Hq & Hz). eauto.
Qed.

Lemma conf_steps_follow a b : rtc conf_step a b -> follows a.1 a.2 -> follows b.1 b.2.
Proof. induction 1 as [| a b c Hs _ IH]; [done |]. intros F. by apply IH, (conf_step_follows a b). Qed.

(** The parsers' sizes are the configured ones: the start succeeds with the
    defaults, and after whatever the program does to its configuration each copy
    is the value that its variable has. *)
Theorem sizes_follow_config s p :
  copy_base s -> (forall w1 w2, p w1 = p w2 -> w1 = w2) -> (forall w, unmade s p w) -> count s u64_t < 2 ^ 64 - 4 ->
  exists z s', start_sizes u64_t of_u64 to_u64 s p = Ok (z, s') /\ (forall w, get_size w z = default_of w)
    /\ forall s2 z2, rtc conf_step (s', z) (s2, z2) ->
       forall w, exists q v, Lookup_existing s2 (name_of w) u64_t = Ok (Some q) /\ vars s2 !! q = Some v /\ get_size w z2 = to_u64 (getValue v).
Proof.
  intros B Hp Hun Hc. destruct (start_follows s p B Hp Hun Hc) as (z & s' & E & F & Hz). exists z, s'. split_and!; [done | done |].
  intros s2 z2 Hr w. destruct (conf_steps_follow _ _ Hr F) as [_ F2]. cbn [fst snd] in F2. destruct (F2 w) as (q & x & (Hd & v & Hv & Ht & Hx & _) & Hg). exists q, v. unfold Lookup_existing. rewrite Hd, Hv. cbn.
  rewrite decide_True by done. split_and!; [done | done |]. by rewrite Hg, <- Hx.
Qed.

End copies.

(** Keys are folded to lower case only after [ListAllMember] has refused the ones
    with upper-case letters, with all that is below them. *)
Theorem upper_case_key_refused n :
  ListAllMember "" (Map [("Server", n)]) = [("", Map [("Server", n)])] /\ tolower "Server" = "server".
Proof. split; [cbn; by destruct n | reflexivity]. Qed.

(** ** A registry *)

(** Numbers and texts. *)
Definition demo_typeof (x : Z + string) : bool := match x with inl _ => true | inr _ => false end.
Definition demo_FromStr (t : bool) (s : string) : option (Z + string) :=
  if t then (if String.eqb s "80" then Some (inl 80) else if String.eqb s "81" then Some (inl 81) else None) else Some (inr s).
Definition demo_emit (n : yaml) : string := "".

Definition demo_doc : yaml :=
  Map [("server", Map [("port", Scalar "80"); ("name", Scalar "web"); ("port", Scalar "eighty"); ("port", Scalar "81")])].

Lemma demo_typed t s x : demo_FromStr t s = Some x -> demo_typeof x = t.
Proof. unfold demo_FromStr. destruct t; repeat case_match; intros [= <-]; done. Qed.

Definition demo_state : Cf.state (V := Z + string) (Ty := bool) :=
  mkState {["server.port" := 0%nat; "server.name" := 1%nat]}
    {[0%nat := mkVar "server.port" "" true (inl 8020) [(1, 7%nat)]; 1%nat := mkVar "server.name" "" false (inr "") []]} {[true := 1]} ∅.

Lemma demo_conf_reachable : reachable demo_typeof demo_FromStr demo_emit demo_state.
Proof.
  eapply (r_step _ _ _ _ (OAdd 0 7)); [eapply (r_step _ _ _ _ (OLookup "server.name" false (inr ""%string) "" 1)) |..];
    [eapply (r_step _ _ _ _ (OLookup "server.port" true (inl 8020) "" 0)); [constructor |..] |..];
    match goal with
    | |- enabled _ _ (OAdd _ _) => eexists; reflexivity
    | |- enabled _ _ _ => split; reflexivity
    | |- apply_op _ _ _ _ = _ => vm_compute; reflexivity
    end.
Qed.

(** The document's last port that is a number is taken, with a call of the
    listener for each change. *)
Lemma load_sets_named_witness :
  exists s' calls, LoadFromYaml demo_FromStr demo_emit demo_state demo_doc = Ok (s', calls)
    /\ exists v, vars s' !! 0%nat = Some v /\ m_val v = inl 81
    /\ calls_of 0 calls = [mkCall 1 7 (inl 8020) (inl 80); mkCall 1 7 (inl 80) (inl 81)].
Proof.
  destruct (load_sets_named demo_typeof demo_FromStr demo_emit demo_typed demo_state demo_doc
              (conf_reachable_inv _ _ _ demo_typed _ demo_conf_reachable)) as (s' & calls & E & _ & _ & Hv).
  exists s', calls. split; [exact E |]. specialize (Hv 0%nat _ eq_refl).
  match type of Hv with let '(_, _) := ?r in _ => let x := eval vm_compute in r in change r with x in Hv end.
  destruct Hv as [Hl Hc]. eexists. split; [exact Hl |]. split; [reflexivity | exact Hc].
Defined.

(** From an empty registry, a document sets the request buffer of the parsers. *)
Example sizes_follow_document :
  (z ← Cs.start_sizes true inl (fun x => match x with inl z => z | inr _ => 0 end) (empty_state (V := Z + string)) Cs.label;
   '(s, calls) ← LoadFromYaml demo_FromStr demo_emit z.2 (Map [("http", Map [("request", Map [("buffer_size", Scalar "80")])])]);
   Ok (foldl (Cs.heard (fun x => match x with inl z => z | inr _ => 0 end)) z.1 calls.*2))
  = Ok (Cs.mkSizes 80 67108864 4096 67108864).
Proof. vm_compute. reflexivity. Qed.

(** The port is found as a number and not as a text. *)
Lemma config_well_typed_witness :
  Lookup_existing demo_state "server.port" true = Ok (Some 0%nat) /\ Lookup_existing demo_state "server.port" false = Ok None
  /\ (exists r, Lookup_existing demo_state "server.port" true = Ok r
      /\ forall p, r = Some p -> exists v, vars demo_state !! p = Some v /\ m_name v = "server.port"%string /\ m_type v = true
           /\ demo_typeof (getValue v) = true)
  /\ apply_op demo_FromStr demo_emit demo_state (OLookup "Port" true (inl 1) "" 2) = Fail InvalidArgument.
Proof.
  split_and!; [vm_compute; reflexivity | vm_compute; reflexivity | | vm_compute; reflexivity].
  exact (proj1 (config_well_typed demo_typeof demo_FromStr demo_emit demo_typed demo_state demo_conf_reachable) "server.port"%string true).
Defined.
