(* ===== verification/Env.v ===== *)
(** The command line and its options, env.h and env.cc, and the start and
    supervision of the process, daemon.h and daemon.cc. *)

From stdpp Require Import gmap strings.
From Stdlib Require Import Ascii.
From S2P Require Import Prelude Strs.

Module En.

Local Open Scope Z_scope.
#[local] Arguments String.append !_ _ /.

Record Env := mkEnv {
  m_args : gmap string string;
  m_helps : list (string * string);
  m_program : string;
  m_exe : string;
  m_cwd : string;
}.

Definition empty_Env : Env := mkEnv ∅ [] "" "" "".

Definition set_args (e : Env) v := mkEnv v (m_helps e) (m_program e) (m_exe e) (m_cwd e).
Definition set_helps (e : Env) v := mkEnv (m_args e) v (m_program e) (m_exe e) (m_cwd e).

Definition add (e : Env) (key val : string) : Env := set_args e (<[key := val]> (m_args e)).
Definition has (e : Env) (key : string) : bool := match m_args e !! key with Some _ => true | None => false end.
Definition del (e : Env) (key : string) : Env := set_args e (delete key (m_args e)).
Definition get (e : Env) (key default_value : string) : string := default default_value (m_args e !! key).

(** The loop over the arguments behind the program; [now_key] is the option that
    waits for its value. *)
Fixpoint parse_args (e : Env) (now_key : option string) (argv : list string) : bool * Env :=
  match argv with
  | [] => (true, match now_key with Some k => add e k "" | None => e end)
  | String "-" key :: argv =>
      if String.eqb key "" then (false, e)
      else parse_args (match now_key with Some k => add e k "" | None => e end) (Some key) argv
  | arg :: argv =>
      match now_key with
      | Some k => parse_args (add e k arg) None argv
      | None => (false, e)
      end
  end.

(** [find_last_of("/")]: what is before it, or everything. *)
Fixpoint before_last_slash (s : string) : option string :=
  match s with
  | ""%string => None
  | String c s => match before_last_slash s with
                  | Some t => Some (String c t)
                  | None => if Ascii.eqb c "/" then Some ""%string else None
                  end
  end.

(** [init]; [exe] is the text that [readlink] left in the zeroed buffer, [argv] the
    arguments. *)
Definition init (exe : string) (e : Env) (argv : list string) : outcome (bool * Env) :=
  match argv with
  | [] => Fail NullDeref
  | program :: argv =>
      Ok (parse_args (mkEnv (m_args e) (m_helps e) program exe (default exe (before_last_slash exe) ++ "/")%string) None argv)
  end.

Definition removeHelp (e : Env) (key : string) : Env := set_helps e (List.filter (fun h => negb (String.eqb h.1 key)) (m_helps e)).
Definition addHelp (e : Env) (key desc : string) : Env :=
  let e := removeHelp e key in set_helps e (m_helps e ++ [(key, desc)]).

Definition printHelp (e : Env) : string :=
  ("Usage: " ++ m_program e ++ " [options]" ++ String "010" ""
   ++ fold_right (fun h t => "    -" ++ h.1 ++ " : " ++ h.2 ++ String "010" "" ++ t) "" (m_helps e))%string.

Definition getAbsolutePath (e : Env) (path : string) : string :=
  match path with
  | ""%string => "/"%string
  | String "/" _ => path
  | _ => (m_cwd e ++ path)%string
  end.

(** [FSUtil::IsRunningPidfile]: whether the file is there, its first line if it can
    be read, and whether a signal reaches the process. *)
Definition IsRunningPidfile (exists_ : bool) (line : option string) (atoi : string -> Z) (kill0 : Z -> bool) : bool :=
  if negb exists_ then false else
  match line with
  | None => false
  | Some line =>
      if String.eqb line "" then false else
      let pid := atoi line in
      if pid <=? 1 then false else kill0 pid
  end.

(** The process environment, as [setenv] and [getenv] show it; [setenv] refuses an
    empty name or one with [=]. *)
Definition setEnv (vars : gmap string string) (key val : string) : bool * gmap string string :=
  if String.eqb key "" || str_mem "=" key then (false, vars) else (true, <[key := val]> vars).
Definition getEnv (vars : gmap string string) (key default_value : string) : string := default default_value (vars !! key).

End En.

Module Da.

Local Open Scope Z_scope.

Record ProcessInfo := mkInfo {
  parent_id : Z;
  main_id : Z;
  parent_start_time : Z;
  main_start_time : Z;
  restart_count : Z;
}.

Definition set_parent (i : ProcessInfo) p t := mkInfo p (main_id i) t (main_start_time i) (restart_count i).
Definition set_main (i : ProcessInfo) p t := mkInfo (parent_id i) p (parent_start_time i) t (restart_count i).
Definition count_restart (i : ProcessInfo) :=
  mkInfo (parent_id i) (main_id i) (parent_start_time i) (main_start_time i) (u32 (restart_count i + 1)).

Section daemon.
(** The program: its result, from the process information it runs with. *)
Context (main_cb : ProcessInfo -> Z).

Definition real_start (i : ProcessInfo) (pid now : Z) : Z := main_cb (set_main i pid now).

(** One turn of the loop: what [fork] returned, and for the parent what
    [waitpid] stored, 0 when it stored nothing. *)
Inductive turn :=
  | Forked0 (pid now : Z)           (* in the child, with its number and the time *)
  | ForkFail
  | Child (pid status : Z).

(** Where a process is: it returned, or it waits for a child. *)
Inductive result := Returned (rt : Z) (i : ProcessInfo) | Waiting (i : ProcessInfo).

Fixpoint supervise (i : ProcessInfo) (script : list turn) : result :=
  match script with
  | [] => Waiting i
  | Forked0 pid now :: _ => let i := set_main i pid now in Returned (real_start i pid now) (set_main i pid now)
  | ForkFail :: _ => Returned (-1) i
  | Child pid status :: script =>
      if (status =? 0) || (status =? 9) then Returned 0 i
      else supervise (count_restart i) script
  end.

Definition real_daemon (i : ProcessInfo) (rt pid now : Z) (script : list turn) : result :=
  if rt =? -1 then Returned (-1) i else supervise (set_parent i pid now) script.

Definition start_daemon (is_daemon : bool) (i : ProcessInfo) (rt pid now : Z) (script : list turn) : result :=
  if negb is_daemon then
    let i := set_parent i pid now in Returned (real_start i pid now) (set_main i pid now)
  else real_daemon i rt pid now script.
End daemon.

End Da.
