(* ===== verification/EnvProps.v ===== *)
(** The command line: what is accepted is exactly a list of options, and the
    options are what was given; the supervisor restarts as it should. *)

From stdpp Require Import gmap strings.
From Stdlib Require Import Ascii.
From S2P Require Import Prelude Strs Env.

Import En.
Local Open Scope Z_scope.
#[local] Arguments String.append !_ _ /.

(** ** Options *)

(** An option with or without a value, and how it is written. *)
Definition options := list (string * option string).

Definition write_option (o : string * option string) : list string :=
  String "-" o.1 :: match o.2 with Some v => [v] | None => [] end.

Definition write_options (l : options) : list string := mjoin (write_option <$> l).

Definition is_value (v : string) : Prop := match v with String "-" _ => False | _ => True end.
Definition option_ok (o : string * option string) : Prop := o.1 <> ""%string /\ match o.2 with Some v => is_value v | None => True end.

(** The values that the options leave, the last one for each key. *)
Definition set_options (e : Env) (l : options) : Env := fold_left (fun e o => add e o.1 (default ""%string o.2)) l e.

Lemma write_options_cons o l : write_options (o :: l) = write_option o ++ write_options l.
Proof. reflexivity. Qed.

(** The two cases of the loop. *)
Lemma parse_dash e now key argv : key <> ""%string ->
  parse_args e now (String "-" key :: argv) = parse_args (match now with Some k => add e k "" | None => e end) (Some key) argv.
Proof. intros Hk. cbn [parse_args]. by rewrite (proj2 (String.eqb_neq key "") Hk). Qed.

Lemma parse_value e now v argv : is_value v ->
  parse_args e now (v :: argv) = match now with Some k => parse_args (add e k v) None argv | None => (false, e) end.
Proof.
  intros Hv. destruct v as [| c v]; [reflexivity |]. cbn [parse_args]. destruct c as [[] [] [] [] [] [] [] []]; try reflexivity. destruct Hv.
Qed.

Lemma value_dec v : {is_value v} + {exists key, v = String "-" key}.
Proof. destruct v as [| c v]; [by left |]. destruct c as [[] [] [] [] [] [] [] []]; try (left; exact I). right. by exists v. Qed.

(** Options written are options read. *)
Lemma parse_written l : forall e now, Forall option_ok l ->
  parse_args e now (write_options l) = (true, set_options (match now with Some k => add e k "" | None => e end) l).
Proof.
  induction l as [| [k v] l IH]; intros e now Hl; [by destruct now |]. apply Forall_cons in Hl as [[Hk Hv] Hl]. cbn [fst snd] in *.
  rewrite write_options_cons. unfold write_option. cbn [fst snd app]. rewrite parse_dash by done. destruct v as [v|]; cbn [app].
  - rewrite parse_value by done. rewrite IH by done. reflexivity.
  - rewrite IH by done. reflexivity.
Qed.

(** What is read was written: the option that is open takes the first value. *)
Lemma parse_accepted argv : forall e now e', parse_args e now argv = (true, e') ->
  exists l, Forall option_ok l /\
    match now with
    | None => argv = write_options l
    | Some k => argv = write_options l \/ exists v argv', is_value v /\ argv = v :: argv' /\ argv' = write_options l
    end.
Proof.
  induction argv as [| a argv IH]; intros e now e' E.
  { exists []. split; [constructor |]. destruct now; [by left | done]. }
  destruct (value_dec a) as [Hv | [key ->]].
  - rewrite parse_value in E by done. destruct now as [k|]; [| done]. destruct (IH _ _ _ E) as (l & Hl & ->). exists l. split; [done |].
    right. by exists a, (write_options l).
  - cbn [parse_args] in E. destruct (String.eqb_spec key "") as [Hk | Hk]; [discriminate E |]. destruct (IH _ _ _ E) as (l & Hl & Hor).
    assert (Hw : exists l', Forall option_ok l' /\ String "-" key :: argv = write_options l').
    { destruct Hor as [-> | (v & argv' & Hv & -> & ->)].
      - exists ((key, None) :: l). split; [constructor; [by split | done] | done].
      - exists ((key, Some v) :: l). split; [constructor; [by split | done] | done]. }
    destruct Hw as (l' & Hl' & ->). exists l'. split; [done |]. destruct now; [by left | done].
Qed.

(** What [init] accepts. *)
Lemma parse_args_iff exe e program argv :
  exists b e', init exe e (program :: argv) = Ok (b, e') /\ (b = true <-> exists l, Forall option_ok l /\ argv = write_options l).
Proof.
  cbn [init]. set (e0 := mkEnv _ _ _ _ _). destruct (parse_args e0 None argv) as [b e'] eqn:E. exists b, e'. split; [done |].
  split; [intros -> | intros (l & Hl & ->)].
  - destruct (parse_accepted _ _ _ _ E) as (l & Hl & Ha). by exists l.
  - rewrite parse_written in E by done. by injection E as <- _.
Qed.

(** The command line round-trips. [init] accepts an argument list exactly when
    it writes a list of options, each a non-empty name behind a dash with at
    most one value that does not start with a dash; and what it then knows is
    what those options say, a later one overriding an earlier one, an option
    without a value having the empty one. *)
Theorem options_parse_back exe e program argv :
  exists b e', init exe e (program :: argv) = Ok (b, e')
    /\ (b = true <-> exists l, Forall option_ok l /\ argv = write_options l)
    /\ forall l, Forall option_ok l -> argv = write_options l ->
         m_program e' = program /\ m_exe e' = exe /\ m_args e' = fold_left (fun m o => <[o.1 := default ""%string o.2]> m) l (m_args e).
Proof.
  destruct (parse_args_iff exe e program argv) as (b & e' & E & Hb). exists b, e'. split_and!; [exact E | exact Hb |].
  cbn [init] in E. injection E as E. set (e0 := mkEnv _ _ _ _ _) in E.
  intros l Hl ->. rewrite parse_written in E by done. injection E as _ <-. unfold set_options.
    assert (Hf : forall l (e1 : Env), let e2 := fold_left (fun e o => add e o.1 (default ""%string o.2)) l e1 in
      m_program e2 = m_program e1 /\ m_exe e2 = m_exe e1 /\ m_args e2 = fold_left (fun m o => <[o.1 := default ""%string o.2]> m) l (m_args e1)).
    { clear. induction l as [| o l IH]; intros e1; [done |]. cbn [fold_left]. exact (IH (add e1 o.1 (default ""%string o.2))). }
    exact (Hf l e0).
Qed.

(** A value that starts with a dash, such as a negative number, is taken for an
    option. *)
Theorem negative_value_lost e :
  (parse_args e None ["-offset"; "-5"]).2 = add (add e "offset" "") "5" "".
Proof. reflexivity. Qed.

(** ** Supervision *)

Import Da.

(** How often a script restarts the child. *)
Definition restarts (script : list turn) : Prop := Forall (fun t => exists pid status, t = Child pid status /\ status <> 0 /\ status <> 9) script.

(** The supervisor starts the child again after every crash, counts, and ends with
    the first child that finishes or is killed. *)
Theorem supervisor_restarts main_cb i crashes pid status rest :
  restarts crashes -> status = 0 \/ status = 9 -> in_unsigned 32 (restart_count i + Z.of_nat (length crashes)) -> 0 <= restart_count i ->
  exists i', supervise main_cb i (crashes ++ Child pid status :: rest) = Returned 0 i'
    /\ restart_count i' = restart_count i + Z.of_nat (length crashes) /\ parent_id i' = parent_id i.
Proof.
  intros Hc Hs. revert i. induction Hc as [| t crashes (p & st & -> & H0 & H9) _ IH]; intros i Hr Hp; cbn [app supervise].
  - assert ((status =? 0) || (status =? 9) = true) as -> by (destruct Hs as [-> | ->]; reflexivity). exists i. cbn. split_and!; [done | lia | done].
  - destruct (Z.eqb_spec st 0); [done |]. destruct (Z.eqb_spec st 9); [done |]. cbn [orb]. unfold in_unsigned in *. cbn [length] in *.
    assert (E : restart_count (count_restart i) = restart_count i + 1) by (unfold count_restart, u32, wrap; cbn [restart_count]; apply Z.mod_small; lia).
    destruct (IH (count_restart i)) as (i' & -> & Hi & Hpid); [rewrite E; lia | lia |]. exists i'. split_and!; [done | lia | done].
Qed.

(** The child runs with the number of restarts so far. *)
Theorem child_runs_main main_cb i crashes pid now rest :
  restarts crashes -> exists i', supervise main_cb i (crashes ++ Forked0 pid now :: rest) = Returned (main_cb i') i' /\ main_id i' = pid.
Proof.
  intros Hc. revert i. induction Hc as [| t crashes (p & st & -> & H0 & H9) _ IH]; intros i; cbn [app supervise]; [by eexists |].
  destruct (Z.eqb_spec st 0); [done |]. destruct (Z.eqb_spec st 9); [done |]. apply IH.
Qed.

(** A [waitpid] that fails stores nothing, which counts as a child that finished:
    the child goes on without a supervisor. *)
Theorem failed_wait_ends_supervision main_cb i pid rest : supervise main_cb i (Child pid 0 :: rest) = Returned 0 i.
Proof. reflexivity. Qed.
