(* ===== verification/ModuleMgr.v ===== *)
(** Modules and their manager, module.h and module.cc, and how they are loaded,
    library.cc. *)

From stdpp Require Import gmap strings sorting.
From Stdlib Require Import Ascii.
From S2P Require Import Prelude Strs Endian Address.

Module Mo.

Local Open Scope Z_scope.
#[local] Arguments String.append !_ _ /.

Definition MODULE : Z := 0.
Definition ROCK : Z := 1.

Record Mod := mkMod { m_name : string; m_version : string; m_filename : string; m_id : string; m_type : Z }.

Definition new_Module (name version filename : string) (type : Z) : Mod :=
  mkMod name version filename (name ++ "/" ++ version)%string type.

Definition setFilename (m : Mod) v := mkMod (m_name m) (m_version m) v (m_id m) (m_type m).

Definition statusString (m : Mod) : string :=
  ("Module name=" ++ m_name m ++ " version=" ++ m_version m ++ " filename=" ++ m_filename m ++ String "010" "")%string.

(** ** The manager *)

(** Modules are shared objects, known by their address. [unloaded] records the
    calls of [onUnload]. *)
Abbreviation ptr := nat.

Record ModuleManager := mkMgr {
  mods : gmap ptr Mod;
  m_modules : gmap string ptr;
  m_type2Modules : gmap Z (gmap string ptr);
  unloaded : list ptr;
}.

Definition new_ModuleManager (mods : gmap ptr Mod) : ModuleManager := mkMgr mods ∅ ∅ [].

Definition get (s : ModuleManager) (name : string) : option ptr := m_modules s !! name.

(** [m_type2Modules[t].erase(id)], and the entry of the type when it is empty. *)
Definition erase_type (m : gmap Z (gmap string ptr)) (t : Z) (id : string) : gmap Z (gmap string ptr) :=
  let inner := delete id (default ∅ (m !! t)) in
  if decide (inner = ∅) then delete t m else <[t := inner]> m.

Definition del (s : ModuleManager) (name : string) : outcome ModuleManager :=
  match m_modules s !! name with
  | None => Ok s
  | Some p =>
      m ← of_ptr (mods s !! p);
      Ok (mkMgr (mods s) (delete name (m_modules s)) (erase_type (m_type2Modules s) (m_type m) (m_id m)) (unloaded s ++ [p]))
  end.

(** The second half of [add], under the lock. *)
Definition insert_module (s : ModuleManager) (p : ptr) : outcome ModuleManager :=
  m ← of_ptr (mods s !! p);
  Ok (mkMgr (mods s) (<[m_id m := p]> (m_modules s))
        (<[m_type m := <[m_id m := p]> (default ∅ (m_type2Modules s !! m_type m))]> (m_type2Modules s)) (unloaded s)).

Definition add (s : ModuleManager) (p : ptr) : outcome ModuleManager :=
  m ← of_ptr (mods s !! p);
  s ← del s (m_id m);
  insert_module s p.

Fixpoint del_names (s : ModuleManager) (names : list string) : outcome ModuleManager :=
  match names with [] => Ok s | n :: names => s ← del s n; del_names s names end.

(** The traversals follow the order of the hash tables. *)
Section order.
Context (trav : gmap string ptr -> list (string * ptr)).

Definition delAll (s : ModuleManager) : outcome ModuleManager := del_names s (fst <$> trav (m_modules s)).

Definition listAll (s : ModuleManager) : list ptr := snd <$> trav (m_modules s).

Definition listByType (s : ModuleManager) (type : Z) : list ptr :=
  match m_type2Modules s !! type with None => [] | Some inner => snd <$> trav inner end.

(** [foreach], [onConnect] and [onDisconnect]: the modules whose function is
    called, in order. *)
Definition foreach (s : ModuleManager) (type : Z) : list ptr := listByType s type.
Definition onConnect (s : ModuleManager) : list ptr := listAll s.
Definition onDisconnect (s : ModuleManager) : list ptr := listAll s.
End order.

(** ** Loading *)

(** What [dlopen] and [dlsym] find in a file, and the module that its creator
    makes. *)
Record library := mkLib { has_create : bool; has_destory : bool; created : Mod }.

(** The handles that are open, by path; the closer of a module owns one. *)
Record loader := mkLoader { handles : list string; mgr : ModuleManager }.

(** [Library::GetModule]: [None] is a null pointer. *)
Definition GetModule (dlopen : string -> option library) (open : list string) (path : string) : option Mod * list string :=
  match dlopen path with
  | None => (None, open)
  | Some lib =>
      let handles := path :: open in
      if negb (has_create lib) then (None, open)
      else if negb (has_destory lib) then (None, open)
      else (Some (setFilename (created lib) path), handles)
  end.

(** [initModule], with the place that the new object gets. *)
Definition initModule (dlopen : string -> option library) (s : loader) (path : string) : outcome loader :=
  let '(m, handles) := GetModule dlopen (handles s) path in
  match m with
  | None => Ok (mkLoader handles (mgr s))
  | Some m =>
      let p := fresh (dom (mods (mgr s))) in
      g ← add (mkMgr (<[p := m]> (mods (mgr s))) (m_modules (mgr s)) (m_type2Modules (mgr s)) (unloaded (mgr s))) p;
      Ok (mkLoader handles g)
  end.

Fixpoint init_files (dlopen : string -> option library) (s : loader) (files : list string) : outcome loader :=
  match files with [] => Ok s | f :: files => s ← initModule dlopen s f; init_files dlopen s files end.

Definition str_le (a b : string) : Prop := String.leb a b = true.
#[global] Instance str_le_dec : RelDecision str_le.
Proof. intros a b. unfold str_le. apply _. Defined.

Definition init (dlopen : string -> option library) (s : loader) (files : list string) : outcome loader :=
  init_files dlopen s (merge_sort str_le files).

(** ** Services *)

(** [str.find(prefix) == 0] *)
Fixpoint starts_with (prefix s : string) : bool :=
  match prefix, s with
  | ""%string, _ => true
  | String a p, String b t => Ascii.eqb a b && starts_with p t
  | _, _ => false
  end.

(** [strncasecmp(name, "lo", 2) == 0] *)
Definition is_lo (name : string) : bool :=
  match name with
  | String a (String b _) => (Ascii.eqb a "l" || Ascii.eqb a "L") && (Ascii.eqb b "o" || Ascii.eqb b "O")
  | _ => false
  end.

(** [GetIPv4Inet]: the loop over what [getifaddrs] gives. *)
Fixpoint ipv4_loop (host localhost : Z) (l : list Ad.ifaddr) (ipv4 : Z) : Z :=
  match l with
  | [] => ipv4
  | i :: l =>
      match Ad.ifa_addr i with
      | None => ipv4
      | Some bs =>
          if negb (Ad.field host bs 0 2 =? Ad.AF_INET) then ipv4_loop host localhost l ipv4
          else if is_lo (Ad.ifa_name i) then ipv4_loop host localhost l ipv4
          else ipv4_loop host localhost l (Ad.field host bs 4 4)
      end
  end.

Definition GetIPv4Inet (host localhost : Z) (ifs : option (list Ad.ifaddr)) : Z :=
  match ifs with None => localhost | Some l => ipv4_loop host localhost l localhost end.

(** What [registerService] registers for the local address of a listening socket. *)
Definition service_address (host : Z) (own_ip : string) (local : Ad.Address) : option string :=
  match local with
  | Ad.IPv4Address a =>
      let str := Ad.insert4 host a in
      if starts_with "127.0.0.1" str then None
      else if starts_with "0.0.0.0" str then Some (own_ip ++ ":" ++ Ad.dec (Ad.getPort4 host a))%string
      else Some str
  | _ => None
  end.

Definition registerService (host : Z) (own_ip : string) (locals : list Ad.Address) : list string :=
  omap (service_address host own_ip) locals.

End Mo.

(** * Libraries of modules that are shared

    [GetModule] hands out a shared pointer whose deleter is a [ModuleCloser]; what
    is asked of the dynamic linker and of the library is recorded in order. *)
Module Ml.

Import Mo.

Inductive dlcall :=
  | DlOpen (path : string)
  | DlClose (path : string)
  | CreateModule (p : nat)
  | DestoryModule (p : nat) (path : string).

(** A module with the references to it and the handle of its closer. *)
Record shared := mkShared { sh_mod : Mod; sh_refs : nat; m_handle : string }.

Record libs := mkLibs { objs : gmap nat shared; next : nat; trace : list dlcall }.

Definition record (s : libs) (l : list dlcall) : libs := mkLibs (objs s) (next s) (trace s ++ l).

(** [Library::GetModule] *)
Definition load (dlopen : string -> option library) (s : libs) (path : string) : option nat * libs :=
  match dlopen path with
  | None => (None, s)
  | Some lib =>
      let s := record s [DlOpen path] in
      if negb (has_create lib) then (None, record s [DlClose path])
      else if negb (has_destory lib) then (None, record s [DlClose path])
      else
        let p := next s in
        let s := record s [CreateModule p] in
        (Some p, mkLibs (<[p := mkShared (setFilename (created lib) path) 1 path]> (objs s)) (S p) (trace s))
  end.

(** [ModuleCloser::operator()]: the library's function destroys the module, then
    the handle is closed. *)
Definition closer (s : libs) (p : nat) (o : shared) : libs :=
  record (mkLibs (delete p (objs s)) (next s) (trace s)) [DestoryModule p (m_handle o); DlClose (m_handle o)].

(** Copying and dropping a [Module::ptr]. *)
Definition copy (s : libs) (p : nat) : outcome libs :=
  o ← of_ptr (objs s !! p); Ok (mkLibs (<[p := mkShared (sh_mod o) (S (sh_refs o)) (m_handle o)]> (objs s)) (next s) (trace s)).

Definition drop_ref (s : libs) (p : nat) : outcome libs :=
  o ← of_ptr (objs s !! p);
  match sh_refs o with
  | S (S n) => Ok (mkLibs (<[p := mkShared (sh_mod o) (S n) (m_handle o)]> (objs s)) (next s) (trace s))
  | _ => Ok (closer s p o)
  end.

End Ml.
