(* ===== verification/ModuleMgrProps.v ===== *)
(** Modules: the two tables of the manager agree, every module that was added is
    registered or was unloaded, and loading leaves no handle behind. *)

From stdpp Require Import gmap strings sorting.
From S2P Require Import Prelude Strs Endian Address ModuleMgr.

Import Mo.
Local Open Scope Z_scope.

(** ** The tables agree *)

(** The entry of the table of types. *)
Definition by_type (s : ModuleManager) (t : Z) (id : string) : option nat := m_type2Modules s !! t ≫= (.!! id).

Record mgr_ok (s : ModuleManager) : Prop := {
  ok_get : forall id p, m_modules s !! id = Some p -> exists m, mods s !! p = Some m /\ m_id m = id;
  ok_type : forall t id p, by_type s t id = Some p <-> m_modules s !! id = Some p /\ m_type <$> mods s !! p = Some t;
  ok_full : forall t inner, m_type2Modules s !! t = Some inner -> inner <> ∅;
}.

Lemma erase_type_lookup m t id t' id' :
  (erase_type m t id !! t' ≫= (.!! id')) = if decide (t' = t /\ id' = id) then None else (m !! t' ≫= (.!! id')).
Proof.
  unfold erase_type. destruct (decide (t' = t)) as [-> | Hne].
  - assert (Hin : delete id (default ∅ (m !! t)) !! id' = if decide (t = t /\ id' = id) then None else (m !! t ≫= (.!! id'))).
    { destruct (decide (id' = id)) as [-> |]; [rewrite lookup_delete_eq, decide_True by done; done |].
      rewrite lookup_delete_ne, decide_False by naive_solver. destruct (m !! t); cbn; [done | apply lookup_empty]. }
    rewrite <- Hin. clear Hin. case_decide as E; [rewrite lookup_delete_eq, E; symmetry; apply lookup_empty | by rewrite lookup_insert_eq].
  - rewrite (decide_False (P := t' = t /\ id' = id)) by naive_solver. case_decide; [by rewrite lookup_delete_ne | by rewrite lookup_insert_ne].
Qed.

Lemma erase_type_full m t id t' inner :
  (forall t inner, m !! t = Some inner -> inner <> ∅) -> erase_type m t id !! t' = Some inner -> inner <> ∅.
Proof.
  intros Hf. unfold erase_type. case_decide as E.
  - intros [_ Hm]%lookup_delete_Some. by eapply Hf.
  - destruct (decide (t' = t)) as [-> | ?]; [rewrite lookup_insert_eq; by intros [= <-] | rewrite lookup_insert_ne by done; apply Hf].
Qed.

(** The values registered, and their calls of [onUnload]. *)
Definition registered (s : ModuleManager) : list nat := (map_to_list (m_modules s)).*2.

Lemma registered_delete (m : gmap string nat) id p : m !! id = Some p -> (map_to_list m).*2 ≡ₚ p :: (map_to_list (delete id m)).*2.
Proof. intros Hm. rewrite <- (map_to_list_delete m id p Hm). reflexivity. Qed.

Lemma del_ok s name : mgr_ok s ->
  exists s', del s name = Ok s' /\ mgr_ok s' /\ mods s' = mods s /\ m_modules s' = delete name (m_modules s)
    /\ unloaded s' ++ registered s' ≡ₚ unloaded s ++ registered s.
Proof.
  intros [H1 H2 H3]. unfold del. destruct (m_modules s !! name) as [p|] eqn:E.
  2: { exists s. split_and!; try done. by rewrite delete_id. }
  destruct (H1 name p E) as (m & Hm & Hid). rewrite Hm. cbn [of_ptr mbind outcome_bind]. eexists. split; [reflexivity |].
  split; [| split_and!; [done | done |]].
  - split; cbn [m_modules mods m_type2Modules].
    + intros id q [_ Hq]%lookup_delete_Some. by apply H1.
    + intros t id q. unfold by_type. cbn [m_type2Modules]. rewrite erase_type_lookup, Hid. fold (by_type s t id). case_decide as Hd.
      * destruct Hd as [-> ->]. rewrite lookup_delete_eq. naive_solver.
      * rewrite H2. destruct (decide (id = name)) as [-> | Hne]; [| by rewrite lookup_delete_ne].
        rewrite lookup_delete_eq, E. split; [| by intros []]. intros [[= <-] Ht]. rewrite Hm in Ht. cbn in Ht. naive_solver.
    + intros t inner. by apply erase_type_full.
  - unfold registered. cbn [unloaded m_modules]. rewrite (registered_delete _ _ _ E), <- app_assoc. reflexivity.
Qed.

Lemma insert_ok s p m : mgr_ok s -> mods s !! p = Some m -> m_modules s !! m_id m = None ->
  exists s', insert_module s p = Ok s' /\ mgr_ok s' /\ mods s' = mods s /\ m_modules s' = <[m_id m := p]> (m_modules s)
    /\ unloaded s' ++ registered s' ≡ₚ p :: unloaded s ++ registered s.
Proof.
  intros [H1 H2 H3] Hm Hn. unfold insert_module. rewrite Hm. cbn [of_ptr mbind outcome_bind]. eexists. split; [reflexivity |].
  split; [| split_and!; [done | done |]].
  - split; cbn [m_modules mods m_type2Modules].
    + intros id q. destruct (decide (id = m_id m)) as [-> | Hne]; [rewrite lookup_insert_eq; intros [= <-]; eauto | rewrite lookup_insert_ne by done; apply H1].
    + intros t id q. assert (Hb : by_type s t (m_id m) = None) by (destruct (by_type s t (m_id m)) as [q'|] eqn:Eb; [apply H2 in Eb as [Eb _]; congruence | done]).
      unfold by_type. cbn [m_type2Modules]. destruct (decide (t = m_type m)) as [-> | Ht].
      * rewrite lookup_insert_eq. cbn. destruct (decide (id = m_id m)) as [-> | Hne].
        -- rewrite !lookup_insert_eq. split; [intros [= <-]; by rewrite Hm | by intros [[= <-] _]].
        -- rewrite !lookup_insert_ne by done. rewrite <- H2. unfold by_type. destruct (m_type2Modules s !! m_type m); cbn; [done | by rewrite lookup_empty].
      * rewrite lookup_insert_ne by done. fold (by_type s t id). rewrite H2. destruct (decide (id = m_id m)) as [-> | Hne]; [| by rewrite lookup_insert_ne].
        rewrite lookup_insert_eq, Hn. split; [by intros [] |]. intros [[= <-] E]. rewrite Hm in E. cbn in E. congruence.
    + intros t inner. destruct (decide (t = m_type m)) as [-> | Ht]; [rewrite lookup_insert_eq; intros [= <-]; apply insert_non_empty | rewrite lookup_insert_ne by done; apply H3].
  - unfold registered. cbn [unloaded m_modules]. rewrite (map_to_list_insert _ _ _ Hn). cbn. symmetry. apply Permutation_middle.
Qed.

Lemma add_ok s p m : mgr_ok s -> mods s !! p = Some m ->
  exists s', add s p = Ok s' /\ mgr_ok s' /\ mods s' = mods s /\ m_modules s' = <[m_id m := p]> (m_modules s)
    /\ unloaded s' ++ registered s' ≡ₚ p :: unloaded s ++ registered s.
Proof.
  intros Hs Hm. unfold add. rewrite Hm. cbn [of_ptr mbind outcome_bind]. destruct (del_ok s (m_id m) Hs) as (s1 & -> & Hs1 & Em & Ed & Hp). cbn [mbind outcome_bind].
  destruct (insert_ok s1 p m Hs1) as (s2 & E & Hs2 & Em2 & Ed2 & Hp2); [by rewrite Em | by rewrite Ed, lookup_delete_eq |].
  exists s2. split_and!; [done | done | congruence | by rewrite Ed2, Ed, insert_delete_eq |]. by rewrite Hp2, Hp.
Qed.

Lemma del_names_ok names : forall s, mgr_ok s ->
  exists s', del_names s names = Ok s' /\ mgr_ok s' /\ mods s' = mods s /\ unloaded s' ++ registered s' ≡ₚ unloaded s ++ registered s
    /\ forall id, m_modules s' !! id = if decide (id ∈ names) then None else m_modules s !! id.
Proof.
  induction names as [| n names IH]; intros s Hs; cbn [del_names].
  { exists s. by split_and!. }
  destruct (del_ok s n Hs) as (s1 & -> & Hs1 & Em & Ed & Hp). cbn [mbind outcome_bind].
  destruct (IH s1 Hs1) as (s2 & E & Hs2 & Em2 & Hp2 & Hl). exists s2. split_and!; [done | done | congruence | by rewrite Hp2, Hp |].
  intros id. rewrite Hl, Ed. destruct (decide (id = n)) as [-> | Hne].
  - rewrite lookup_delete_eq, (decide_True (P := n ∈ n :: names)) by (by left). by case_decide.
  - rewrite lookup_delete_ne by done. destruct (decide (id ∈ names)); [rewrite decide_True by (by right) | rewrite decide_False by (rewrite elem_of_cons; naive_solver)]; done.
Qed.

(** ** Any sequence of operations *)

Section ops.
Context (trav : gmap string nat -> list (string * nat)).
(** A traversal meets every entry once. *)
Hypothesis trav_all : forall m, trav m ≡ₚ map_to_list m.

Inductive op := OAdd (p : nat) | ODel (name : string) | ODelAll.

Definition apply_op (s : ModuleManager) (o : op) : outcome ModuleManager :=
  match o with OAdd p => add s p | ODel name => del s name | ODelAll => delAll trav s end.

Fixpoint run_ops (s : ModuleManager) (l : list op) : outcome ModuleManager :=
  match l with [] => Ok s | o :: l => s ← apply_op s o; run_ops s l end.

(** The modules that were added. *)
Definition added (l : list op) : list nat := omap (fun o => match o with OAdd p => Some p | _ => None end) l.

Lemma apply_op_ok s o : mgr_ok s -> (forall p, o = OAdd p -> is_Some (mods s !! p)) ->
  exists s', apply_op s o = Ok s' /\ mgr_ok s' /\ mods s' = mods s /\ unloaded s' ++ registered s' ≡ₚ added [o] ++ unloaded s ++ registered s.
Proof.
  intros Hs Hp. destruct o as [p | name |]; cbn [apply_op].
  - destruct (Hp p eq_refl) as [m Hm]. destruct (add_ok s p m Hs Hm) as (s' & E & H1 & H2 & _ & H4). by exists s'.
  - destruct (del_ok s name Hs) as (s' & E & H1 & H2 & _ & H4). by exists s'.
  - destruct (del_names_ok (fst <$> trav (m_modules s)) s Hs) as (s' & E & H1 & H2 & H4 & _). by exists s'.
Qed.

Lemma run_ops_ok l : forall s, mgr_ok s -> (forall p, OAdd p ∈ l -> is_Some (mods s !! p)) ->
  exists s', run_ops s l = Ok s' /\ mgr_ok s' /\ mods s' = mods s /\ unloaded s' ++ registered s' ≡ₚ added l ++ unloaded s ++ registered s.
Proof.
  induction l as [| o l IH]; intros s Hs Hp; cbn [run_ops]; [by exists s |].
  destruct (apply_op_ok s o Hs) as (s1 & -> & Hs1 & Em & Hperm); [intros p ->; apply Hp; by left |]. cbn [mbind outcome_bind].
  destruct (IH s1 Hs1) as (s2 & E & Hs2 & Em2 & Hperm2); [intros p Hin; rewrite Em; apply Hp; by right |].
  exists s2. split_and!; [done | done | congruence |]. rewrite Hperm2, Hperm. change (added (o :: l)) with (added ([o] ++ l)).
  unfold added. rewrite omap_app, !(assoc_L (++)). f_equiv. f_equiv. apply Permutation_app_comm.
Qed.

Lemma elem_of_listed m p : p ∈ snd <$> trav m <-> exists id, m !! id = Some p.
Proof.
  rewrite trav_all, list_elem_of_fmap. split.
  - intros ([id q] & -> & Hin). exists id. by apply elem_of_map_to_list.
  - intros [id Hm]. exists (id, p). split; [done |]. by apply elem_of_map_to_list.
Qed.

Lemma listByType_spec s t p : mgr_ok s -> p ∈ listByType trav s t <-> p ∈ listAll trav s /\ m_type <$> mods s !! p = Some t.
Proof.
  intros [H1 H2 H3]. unfold listByType, listAll. rewrite elem_of_listed.
  assert (Hl : (p ∈ match m_type2Modules s !! t with None => [] | Some inner => snd <$> trav inner end) <-> exists id, by_type s t id = Some p).
  { unfold by_type. destruct (m_type2Modules s !! t); cbn; [apply elem_of_listed | split; [intros []%elem_of_nil | by intros []]]. }
  rewrite Hl. setoid_rewrite H2. naive_solver.
Qed.

(** C31: The manager's tables agree. After any sequence of adding modules, removing
    them by name and removing all of them, no operation having failed: a look-up
    by name finds a module of that name; the modules listed for a type are
    exactly the registered ones of the type; and every module that was added is
    either registered or was told once to unload, one more time for every time
    it was added again. *)
Theorem modules_stay_consistent objs l :
  (forall p, OAdd p ∈ l -> is_Some (objs !! p)) ->
  exists s, run_ops (new_ModuleManager objs) l = Ok s
    /\ (forall name p, get s name = Some p -> exists m, objs !! p = Some m /\ m_id m = name)
    /\ (forall t p, p ∈ listByType trav s t <-> p ∈ listAll trav s /\ m_type <$> objs !! p = Some t)
    /\ unloaded s ++ listAll trav s ≡ₚ added l.
Proof.
  intros Hp. destruct (run_ops_ok l (new_ModuleManager objs)) as (s & E & Hs & Em & Hperm); [| done |].
  - split; cbn; unfold by_type; cbn; intros *; rewrite ?lookup_empty; cbn; naive_solver.
  - exists s. cbn [mods new_ModuleManager] in Em. split_and!; [done | | |].
    + rewrite <- Em. exact (ok_get s Hs).
    + intros t p. rewrite <- Em. by apply listByType_spec.
    + unfold listAll. rewrite trav_all. fold (registered s). rewrite Hperm. unfold registered. cbn. rewrite map_to_list_empty. cbn.
      by rewrite app_nil_r.
Qed.

(** After [delAll] nothing is registered. *)
Theorem delAll_empties s : mgr_ok s -> exists s', delAll trav s = Ok s' /\ m_modules s' = ∅ /\ m_type2Modules s' = ∅.
Proof.
  intros Hs. destruct (del_names_ok (fst <$> trav (m_modules s)) s Hs) as (s' & E & [H1 H2 H3] & _ & _ & Hl). exists s'. split; [done |].
  assert (He : m_modules s' = ∅).
  { apply map_empty. intros id. rewrite Hl. case_decide as Hd; [done |]. destruct (m_modules s !! id) as [p|] eqn:Ep; [| done]. destruct Hd.
    rewrite trav_all, list_elem_of_fmap. exists (id, p). split; [done |]. by apply elem_of_map_to_list. }
  split; [done |]. apply map_empty. intros t. destruct (m_type2Modules s' !! t) as [inner|] eqn:Et; [| done].
  destruct (map_choose inner (H3 t inner Et)) as (id & p & Hi). assert (Hb : by_type s' t id = Some p) by (unfold by_type; by rewrite Et).
  apply H2 in Hb as [Hb _]. by rewrite He, lookup_empty in Hb.
Qed.
End ops.

(** Three modules, two of one name. *)
Definition demo_mods : gmap nat Mod :=
  {[0%nat := new_Module "echo" "1" "" ROCK; 1%nat := new_Module "echo" "1" "" MODULE; 2%nat := new_Module "chat" "2" "" ROCK]}.

Lemma modules_stay_consistent_witness :
  exists s, run_ops map_to_list (new_ModuleManager demo_mods) [OAdd 0; OAdd 2; OAdd 1; ODel "chat/2"] = Ok s
    /\ get s "echo/1" = Some 1%nat /\ unloaded s ++ listAll map_to_list s ≡ₚ [0; 2; 1]%nat.
Proof.
  destruct (modules_stay_consistent map_to_list (fun m => reflexivity _) demo_mods [OAdd 0; OAdd 2; OAdd 1; ODel "chat/2"]) as (s & E & _ & _ & Hp).
  - intros p Hin. repeat (apply elem_of_cons in Hin as [Hin | Hin]; [first [discriminate Hin | injection Hin as ->; by eexists] |]). by apply elem_of_nil in Hin.
  - exists s. split; [exact E |]. split; [vm_compute in E; injection E as <-; vm_compute; reflexivity | exact Hp].
Defined.

(** ** Races and loading *)

(** [add] gives the lock up between removing the old module and inserting the
    new one. Two threads that add modules of one name and different types leave
    one listed by its type that is not registered. *)
Theorem racing_adds_disagree :
  exists s, (s ← del (new_ModuleManager demo_mods) "echo/1"; s ← del s "echo/1"; s ← insert_module s 0; insert_module s 1) = Ok s
    /\ get s "echo/1" = Some 1%nat /\ listByType map_to_list s ROCK = [0%nat] /\ unloaded s = [].
Proof. eexists. split; [vm_compute; reflexivity |]. vm_compute. done. Qed.

(** Loading a file keeps a handle open exactly for a module. *)
Theorem handles_for_modules dlopen open path :
  match GetModule dlopen open path with
  | (Some m, handles) => handles = path :: open /\ m_filename m = path
  | (None, handles) => handles = open
  end.
Proof. unfold GetModule. destruct (dlopen path) as [lib|]; [| done]. by destruct (has_create lib), (has_destory lib). Qed.

(** An interface without an address ends the search for the machine's address, and
    a later interface wins also when its address is the local one. *)
Theorem own_address_missed host localhost name mask l :
  GetIPv4Inet host localhost (Some (Ad.mkIf name None mask :: l)) = localhost
  /\ forall first bs other bs', Ad.field host bs 0 2 = Ad.AF_INET -> Ad.field host bs' 0 2 = Ad.AF_INET -> is_lo first = false -> is_lo other = false ->
     Ad.field host bs' 4 4 = localhost ->
     GetIPv4Inet host localhost (Some [Ad.mkIf first (Some bs) []; Ad.mkIf other (Some bs') []]) = localhost.
Proof.
  split; [done |]. intros first bs other bs' H1 H2 H3 H4 H5. unfold GetIPv4Inet. cbn [ipv4_loop Ad.ifa_addr Ad.ifa_name]. by rewrite H1, H2, H3, H4.
Qed.

(** ** Libraries *)

Module Libs.

Import Ml.

Definition opened (t : list dlcall) : list string := omap (fun c => match c with DlOpen p => Some p | _ => None end) t.
Definition closed (t : list dlcall) : list string := omap (fun c => match c with DlClose p => Some p | _ => None end) t.
Definition made (t : list dlcall) : list nat := omap (fun c => match c with CreateModule p => Some p | _ => None end) t.
Definition destroyed (t : list dlcall) : list nat := omap (fun c => match c with DestoryModule p _ => Some p | _ => None end) t.

Definition live (m : gmap nat shared) : list nat := (map_to_list m).*1.
Definition held (m : gmap nat shared) : list string := m_handle <$> (map_to_list m).*2.

(** A module is destroyed while a handle of its library is open. *)
Definition mapped (t : list dlcall) : Prop :=
  forall t1 p path t2, t = t1 ++ DestoryModule p path :: t2 -> exists rest, opened t1 ≡ₚ closed t1 ++ path :: rest.

Record libs_ok (s : libs) : Prop := mkLibsOk {
  l_handles : opened (trace s) ≡ₚ closed (trace s) ++ held (objs s);
  l_objects : made (trace s) ≡ₚ destroyed (trace s) ++ live (objs s);
  l_fresh : Forall (fun p => p < next s)%nat (made (trace s));
  l_once : NoDup (made (trace s));
  l_mapped : mapped (trace s);
}.

Inductive lop := LLoad (path : string) | LCopy (p : nat) | LDrop (p : nat).

(** A pointer is copied or dropped by one who has it. *)
Definition lenabled (s : libs) (o : lop) : Prop :=
  match o with LLoad _ => True | LCopy p | LDrop p => is_Some (objs s !! p) end.

Definition apply_lop dlopen (s : libs) (o : lop) : outcome libs :=
  match o with LLoad path => Ok (load dlopen s path).2 | LCopy p => copy s p | LDrop p => drop_ref s p end.

Inductive libs_reach dlopen : libs -> Prop :=
  | lr_init : libs_reach dlopen (mkLibs ∅ 0 [])
  | lr_step s o s' : libs_reach dlopen s -> lenabled s o -> apply_lop dlopen s o = Ok s' -> libs_reach dlopen s'.

Lemma mapped_app t c : mapped t -> (forall p path, c = DestoryModule p path -> exists rest, opened t ≡ₚ closed t ++ path :: rest) -> mapped (t ++ [c]).
Proof.
  intros Ht Hc t1 p path t2 E. destruct t2 as [| d t2 _] using rev_ind.
  - apply app_inj_tail in E as [E1 E2]. subst. by apply (Hc p).
  - rewrite app_comm_cons, app_assoc in E. apply app_inj_tail in E as [-> _]. by apply (Ht t1 p path t2).
Qed.

(** Replacing an object by one with the same handle. *)
Lemma held_same m p o o' : m !! p = Some o -> m_handle o' = m_handle o -> held (<[p := o']> m) ≡ₚ held m /\ live (<[p := o']> m) ≡ₚ live m.
Proof.
  intros Hp Hh. unfold held, live. rewrite <- (insert_id m p o Hp) at 2 4. rewrite <- !(insert_delete_eq m p).
  rewrite !map_to_list_insert by apply lookup_delete_eq. cbn. by rewrite Hh.
Qed.

Lemma held_delete (m : gmap nat shared) p o : m !! p = Some o -> held m ≡ₚ m_handle o :: held (delete p m) /\ live m ≡ₚ p :: live (delete p m).
Proof.
  intros Hp. unfold held, live. rewrite <- (insert_id m p o Hp) at 1 3. rewrite <- !(insert_delete_eq m p).
  by rewrite !map_to_list_insert by apply lookup_delete_eq.
Qed.
Lemma app_two {A} (t : list A) a b : t ++ [a; b] = (t ++ [a]) ++ [b].
Proof. by rewrite <- app_assoc. Qed.

(** Recording [c] changes the four lists at their ends. *)
Lemma trace_app t c : opened (t ++ c) = opened t ++ opened c /\ closed (t ++ c) = closed t ++ closed c
  /\ made (t ++ c) = made t ++ made c /\ destroyed (t ++ c) = destroyed t ++ destroyed c.
Proof. unfold opened, closed, made, destroyed. by rewrite !omap_app. Qed.

Lemma load_ok dlopen s path : libs_ok s -> libs_ok (load dlopen s path).2.
Proof.
  intros [H1 H2 H3 H4 H5]. unfold load, record. destruct (dlopen path) as [lib|]; [| done]. cbn [objs next trace].
  assert (Hopen : mapped (trace s ++ [DlOpen path])) by by apply mapped_app.
  assert (Hfail : libs_ok (mkLibs (objs s) (next s) ((trace s ++ [DlOpen path]) ++ [DlClose path]))).
  { rewrite <- app_assoc. destruct (trace_app (trace s) ([DlOpen path] ++ [DlClose path])) as (E1 & E2 & E3 & E4).
    split; cbn [trace objs next]; rewrite ?E1, ?E2, ?E3, ?E4; cbn; rewrite ?app_nil_r; try done.
    - rewrite H1. solve_Permutation.
    - rewrite app_two. by apply mapped_app. }
  destruct (has_create lib); [| done]. destruct (has_destory lib); [| done]. cbn [negb snd].
  assert (Hnew : objs s !! next s = None).
  { destruct (objs s !! next s) as [o|] eqn:E; [| done]. rewrite Forall_forall in H3.
    assert (next s < next s)%nat; [| lia]. apply H3. rewrite H2. apply elem_of_app. right. unfold live. apply list_elem_of_fmap. exists (next s, o).
    split; [done |]. by apply elem_of_map_to_list. }
  destruct (trace_app (trace s) ([DlOpen path] ++ [CreateModule (next s)])) as (E1 & E2 & E3 & E4).
  rewrite <- app_assoc. split; cbn [trace objs next]; rewrite ?E1, ?E2, ?E3, ?E4; cbn; rewrite ?app_nil_r.
  - unfold held. rewrite map_to_list_insert by done. cbn. rewrite H1. unfold held. solve_Permutation.
  - unfold live. rewrite map_to_list_insert by done. cbn. rewrite H2. unfold live. solve_Permutation.
  - apply Forall_app. split; [| constructor; [lia | constructor]]. eapply Forall_impl; [exact H3 |]. cbn. lia.
  - apply NoDup_app. split_and!; [done | | apply NoDup_singleton]. intros q Hq ->%list_elem_of_singleton.
    rewrite Forall_forall in H3. specialize (H3 _ Hq). lia.
  - rewrite app_two. by apply mapped_app.
Qed.

Lemma drop_ok s p : libs_ok s -> is_Some (objs s !! p) -> exists s', drop_ref s p = Ok s' /\ libs_ok s'.
Proof.
  intros [H1 H2 H3 H4 H5] [o Ho]. unfold drop_ref. rewrite Ho. cbn [of_ptr mbind outcome_bind].
  assert (Hclose : libs_ok (closer s p o)).
  { destruct (held_delete _ _ _ Ho) as [Eh El]. unfold closer, record. cbn [objs next trace].
    destruct (trace_app (trace s) ([DestoryModule p (m_handle o)] ++ [DlClose (m_handle o)])) as (E1 & E2 & E3 & E4).
    split; cbn [trace objs next]; change [DestoryModule p (m_handle o); DlClose (m_handle o)] with ([DestoryModule p (m_handle o)] ++ [DlClose (m_handle o)]);
      rewrite ?E1, ?E2, ?E3, ?E4; cbn; rewrite ?app_nil_r; try done.
    - rewrite H1, Eh. solve_Permutation.
    - rewrite H2, El. solve_Permutation.
    - rewrite app_two. apply mapped_app; [| done]. apply mapped_app; [done |]. intros q path [= <- <-].
      exists (held (delete p (objs s))). by rewrite H1, Eh. }
  destruct (sh_refs o) as [| [| n]]; [eauto | eauto |]. eexists. split; [reflexivity |].
  destruct (held_same (objs s) p o (mkShared (sh_mod o) (S n) (m_handle o)) Ho eq_refl) as [Eh El].
  split; cbn [trace objs next]; rewrite ?Eh, ?El; done.
Qed.

Lemma copy_ok s p : libs_ok s -> is_Some (objs s !! p) -> exists s', copy s p = Ok s' /\ libs_ok s'.
Proof.
  intros [H1 H2 H3 H4 H5] [o Ho]. unfold copy. rewrite Ho. eexists. split; [reflexivity |].
  destruct (held_same (objs s) p o (mkShared (sh_mod o) (S (sh_refs o)) (m_handle o)) Ho eq_refl) as [Eh El].
  split; cbn [trace objs next]; rewrite ?Eh, ?El; done.
Qed.

Lemma libs_reach_ok dlopen s : libs_reach dlopen s -> libs_ok s.
Proof.
  induction 1 as [| s o s' _ IH He E].
  { split; try done; [apply NoDup_nil_2 |]. intros t1 p path t2. by destruct t1. }
  destruct o as [path | p | p]; cbn [apply_lop lenabled] in *.
  - injection E as <-. by apply load_ok.
  - destruct (copy_ok s p IH He) as (s1 & E1 & Hok). congruence.
  - destruct (drop_ok s p IH He) as (s1 & E1 & Hok). congruence.
Qed.

(** The life of loaded modules. However modules are loaded and pointers to them
    copied and dropped, no module is destroyed twice; a module is destroyed while
    the library that holds its code is open; the handles still open are
    exactly those of the living modules, so that all are closed when none lives. *)
Theorem modules_closed_once dlopen s :
  libs_reach dlopen s ->
  NoDup (destroyed (trace s)) /\ mapped (trace s) /\ opened (trace s) ≡ₚ closed (trace s) ++ held (objs s)
  /\ (objs s = ∅ -> opened (trace s) ≡ₚ closed (trace s) /\ made (trace s) ≡ₚ destroyed (trace s)).
Proof.
  intros [H1 H2 H3 H4 H5]%libs_reach_ok. split_and!; [| done | done |].
  - rewrite H2 in H4. by apply NoDup_app in H4 as [? _].
  - intros E. rewrite H1, H2, E. unfold held, live. rewrite map_to_list_empty. cbn. by rewrite !app_nil_r.
Qed.
End Libs.

(** A module that two hold is destroyed when the second lets it go. *)
Example module_life :
  (let lib := fun _ => Some (mkLib true true (new_Module "m" "1" "" MODULE)) in
   let s := (Ml.load lib (Ml.mkLibs ∅ 0 []) "m.so").2 in
   s ← Ml.copy s 0; s ← Ml.drop_ref s 0; t ← Ml.drop_ref s 0; Ok (length (Ml.trace s), Ml.trace t))
  = Ok (2%nat, [Ml.DlOpen "m.so"; Ml.CreateModule 0; Ml.DestoryModule 0 "m.so"; Ml.DlClose "m.so"]).
Proof. vm_compute. reflexivity. Qed.
