(* ===== verification/Application.v ===== *)
(** The application, application.cc: what it takes from the command line, the
    configuration of its HTTP servers, and how it sets them up. *)

From stdpp Require Import gmap strings pretty.
From Stdlib Require Import Ascii.
From S2P Require Import Prelude Strs Endian Address Socket TcpServer Config Env.

Module Ap.

Local Open Scope Z_scope.
#[local] Arguments String.append !_ _ /.

(** ** Configuration of a server *)

Record HttpServerConf := mkConf { address : list string; keepalive : Z; timeout : Z; name : string }.

Definition isValid (c : HttpServerConf) : bool := match address c with [] => false | _ => true end.

Section conf.
(** [YAML::Load], [ss << node], [node[i]], [node.as<T>()] and the text of an
    [int]. *)
Context (Load : string -> option Cf.yaml) (emit : Cf.yaml -> string) (index : Cf.yaml -> nat -> Cf.yaml).
Context (as_string : Cf.yaml -> option string) (as_int : Cf.yaml -> option Z) (int_text : Z -> string).

Fixpoint read_addresses (node : Cf.yaml) (i n : nat) (acc : list string) : option (list string) :=
  match n with
  | O => Some acc
  | S n => match as_string (index node i) with None => None | Some s => read_addresses node (S i) n (acc ++ [s]) end
  end.

(** [LexicalCast<std::string, HttpServerConf>] *)
Definition conf_of_node (node : Cf.yaml) : option HttpServerConf :=
  k ← Cf.as_at as_int node "keepalive";
  t ← Cf.as_at as_int node "timeout";
  n ← Cf.as_at as_string node "name";
  l ← Cf.at_key node "address";
  a ← match l with Some l => read_addresses l 0 (Cf.size l) [] | None => Some [] end;
  Some (mkConf a k t n).

Definition string_to_conf (v : string) : option HttpServerConf := node ← Load v; conf_of_node node.

(** [LexicalCast<HttpServerConf, std::string>] *)
Definition conf_to_node (c : HttpServerConf) : Cf.yaml :=
  Cf.Map ([("name"%string, Cf.Scalar (name c)); ("keepalive"%string, Cf.Scalar (int_text (keepalive c)));
           ("timeout"%string, Cf.Scalar (int_text (timeout c)))]
          ++ match address c with [] => [] | l => [("address"%string, Cf.Sequence (Cf.Scalar <$> l))] end).

Definition conf_to_string (c : HttpServerConf) : string := emit (conf_to_node c).
End conf.

(** ** Starting *)

(** The end of [init]: refused, or the configuration directory that was loaded. *)
Inductive started := Refused | Loaded (conf_path : string).

(** [init]: [exe] is the program's own path, [running] whether the process of the
    pid file runs, [mkdir] whether the work path could be made. *)
Definition init (exe : string) (e : En.Env) (argv : list string) (running mkdir : bool) : outcome (bool * started * En.Env) :=
  let e := En.addHelp e "s" "start with the terminal" in
  let e := En.addHelp e "d" "run as daemon" in
  let e := En.addHelp e "c" "conf path default: ./conf" in
  let e := En.addHelp e "p" "print help" in
  '(ok, e) ← En.init exe e argv;
  if negb ok then Ok (false, Refused, e) else
  if En.has e "p" then Ok (false, Refused, e) else
  let run_type := if En.has e "s" then 1 else 0 in
  let run_type := if En.has e "d" then 2 else run_type in
  if run_type =? 0 then Ok (false, Refused, e) else
  if running then Ok (false, Refused, e) else
  let conf_path := En.getAbsolutePath e (En.get e "c" "conf") in
  if negb mkdir then Ok (false, Loaded conf_path, e) else
  Ok (true, Loaded conf_path, e).

(** [run]: the result of the program as a [bool]. *)
Definition run (e : En.Env) (main_cb : Da.ProcessInfo -> Z) (i : Da.ProcessInfo) (rt pid now : Z) (script : list Da.turn) : option bool :=
  match Da.start_daemon main_cb (En.has e "d") i rt pid now script with
  | Da.Returned r _ => Some (negb (r =? 0))
  | Da.Waiting _ => None
  end.

(** ** The servers *)

Section servers.
Context {K : Type} `{So.KernelLaws K} (host : Z).
Context (getaddrinfo : string -> option string -> option (list (list Z))) (ifs : option (list Ad.ifaddr)) (atoi : string -> Z).

(** [dynamic_pointer_cast<IPAddress>], the port set. *)
Definition with_port (port : Z) (a : Ad.Address) : option Ad.Address :=
  if Ad.is_ip a then Some (Ad.setPort host a port) else None.

(** The addresses for one text of the configuration; [None] among them is a null
    pointer. *)
Definition resolve (a : string) : outcome (list (option Ad.Address)) :=
  match Ad.find_char ":" a with
  | None => Ok []
  | Some pos =>
      match Ad.LookupAny host getaddrinfo a with
      | Some addr => Ok [Some addr]
      | None =>
          found ← Ad.GetInterfaceAddresses host ifs (str_take pos a) Ad.AF_INET;
          let '(ok, result) := match found with Some l => (true, l) | None => (false, []) end in
          if ok then Ok [] else Ok (with_port (u16 (atoi (str_drop (S pos) a))) <$> result.*1)
      end
  end.

Fixpoint resolve_all (l : list string) : outcome (list (option Ad.Address)) :=
  match l with [] => Ok [] | a :: l => x ← resolve a; rest ← resolve_all l; Ok (x ++ rest) end.

(** One server: bound, named and started, or the process exits. *)
Definition run_server (k : K) (recv_timeout : Z) (c : HttpServerConf) : outcome (option (Ts.TcpServer (K := K))) :=
  addrs ← resolve_all (address c);
  addrs ← of_ptr (mapM (fun a => a) addrs);
  '(ok, _, server) ← Ts.bind_all host (Ts.new_TcpServer k recv_timeout) addrs [];
  if negb ok then Ok None else Ok (Some (Ts.start server).2).

(** What [run_fiber] keeps of a server. *)
Record HttpServer := mkHttpServer { h_name : string; m_isKeepalive : bool; h_server : Ts.TcpServer (K := K) }.

(** [run_fiber]: a server for each configuration, or the process exits ([None]).
    The accept loops that [start] schedules run after it. *)
Fixpoint run_fiber (k : K) (recv_timeout : Z) (confs : list HttpServerConf) : outcome (option (list HttpServer)) :=
  match confs with
  | [] => Ok (Some [])
  | c :: confs =>
      up ← run_server k recv_timeout c;
      match up with
      | None => Ok None
      | Some server =>
          rest ← run_fiber (Ts.kern server) recv_timeout confs;
          let server := mkHttpServer (if String.eqb (name c) "" then "sylar/1.0.0"%string else name c) (negb (keepalive c =? 0)) server in
          Ok (option_map (cons server) rest)
      end
  end.

End servers.

End Ap.
