(* ===== verification/ApplicationProps.v ===== *)
(** The application: when it starts, that the configuration of a server reads
    back, and what it does with the addresses it is given. *)

From stdpp Require Import gmap strings.
From Stdlib Require Import Ascii.
From S2P Require Import Prelude Strs Endian Address Socket TcpServer TcpServerProps Config Env EnvProps Application.

Import Ap.
Local Open Scope Z_scope.

(** ** Configuration *)

Section conf.
Context (Load : string -> option Cf.yaml) (emit : Cf.yaml -> string) (index : Cf.yaml -> nat -> Cf.yaml).
Context (as_string : Cf.yaml -> option string) (as_int : Cf.yaml -> option Z) (int_text : Z -> string).
(** yaml-cpp reads back what it printed, and numbers it printed. *)
Hypothesis load_emit : forall n, Load (emit n) = Some n.
Hypothesis as_int_text : forall z, as_int (Cf.Scalar (int_text z)) = Some z.
Hypothesis as_string_scalar : forall s, as_string (Cf.Scalar s) = Some s.
Hypothesis index_sequence : forall l i n, l !! i = Some n -> index (Cf.Sequence l) i = n.

Lemma read_addresses_spec l : forall pre acc,
  read_addresses index as_string (Cf.Sequence (Cf.Scalar <$> pre ++ l)) (length pre) (length l) acc = Some (acc ++ l).
Proof.
  induction l as [| s l IH]; intros pre acc; cbn [length read_addresses]; [by rewrite app_nil_r |].
  rewrite (index_sequence _ _ (Cf.Scalar s)); [| by rewrite list_lookup_fmap, lookup_app_r, Nat.sub_diag by lia]. rewrite as_string_scalar.
  specialize (IH (pre ++ [s]) (acc ++ [s])). rewrite length_app, Nat.add_1_r, <- !app_assoc in IH. exact IH.
Qed.

(** The configuration of a server is read back from its text. *)
Theorem server_conf_roundtrip c : string_to_conf Load index as_string as_int (conf_to_string emit int_text c) = Some c.
Proof.
  unfold string_to_conf, conf_to_string. rewrite load_emit. cbn. destruct c as [addrs k t n]. unfold conf_of_node, conf_to_node, Cf.as_at.
  destruct addrs as [| a addrs]; cbn; rewrite !as_int_text; cbn; rewrite as_string_scalar; cbn; [reflexivity |].
  pose proof (read_addresses_spec (a :: addrs) [] []) as Hr. rewrite length_fmap. cbn in Hr |- *. by rewrite Hr.
Qed.
End conf.

(** ** Starting *)

(** [init] lets the program start exactly when the arguments are options, help is
    not among them, [s] or [d] is, no other process of it runs and the work
    path can be made; it has then loaded the configuration from the path of
    option [c], [conf] if there is none. *)
Theorem application_starts exe e program argv running mkdir :
  exists b st e', init exe e (program :: argv) running mkdir = Ok (b, st, e')
    /\ (b = true <-> (exists l, Forall option_ok l /\ argv = write_options l) /\ En.has e' "p" = false
          /\ En.has e' "s" || En.has e' "d" = true /\ running = false /\ mkdir = true)
    /\ (b = true -> st = Loaded (En.getAbsolutePath e' (En.get e' "c" "conf"))).
Proof.
  unfold init. match goal with |- context [En.init exe ?x _] => set (e0 := x) end.
  destruct (parse_args_iff exe e0 program argv) as (b & e' & -> & Hb). cbn [mbind outcome_bind].
  destruct b; cbn [negb].
  - destruct (En.has e' "p") eqn:Ep; [eexists _, _, _; split; [reflexivity |]; split; [split; [done | naive_solver] | done] |].
    destruct (En.has e' "d") eqn:Ed, (En.has e' "s") eqn:Es; cbn [Z.eqb];
      try (eexists _, _, _; split; [reflexivity |]; split; [split; [done | naive_solver congruence] | done]).
    all: destruct running, mkdir; cbn [negb]; eexists _, _, _; (split; [reflexivity |]); (split; [| done]); rewrite ?Ep, ?Ed, ?Es; cbn; naive_solver.
  - eexists _, _, _. split; [reflexivity |]. split; [| done]. split; [done |]. intros [Hx _]. by apply Hb in Hx.
Qed.

(** ** Addresses *)

(** The test of [GetInterfaceAddresses] is the wrong way round: a text that names
    an interface never gives an address. *)
Theorem interface_addresses_dropped host getaddrinfo ifs atoi a l :
  Ad.LookupAny host getaddrinfo a = None -> resolve host getaddrinfo ifs atoi a = Ok l -> l = [].
Proof.
  intros Hl. unfold resolve. destruct (Ad.find_char ":" a); [| by intros [= <-]]. rewrite Hl.
  destruct (Ad.GetInterfaceAddresses host ifs (str_take n a) Ad.AF_INET) as [[found|]|]; cbn; [by intros [= <-] | by intros [= <-] | done].
Qed.

(** The configured timeout has no effect on the server. *)
Theorem configured_timeout_ignored {K} `{So.KernelLaws K} host getaddrinfo ifs atoi (k : K) recv_timeout addrs ka t1 t2 n :
  run_server host getaddrinfo ifs atoi k recv_timeout (mkConf addrs ka t1 n) = run_server host getaddrinfo ifs atoi k recv_timeout (mkConf addrs ka t2 n).
Proof. reflexivity. Qed.

(** ** The servers *)

Section servers.
Context {K : Type} `{So.KernelLaws K} (host : Z).
Context (getaddrinfo : string -> option string -> option (list (list Z))) (ifs : option (list Ad.ifaddr)) (atoi : string -> Z).

(** An address that was found is never null. *)
Lemma resolve_not_null a l : resolve host getaddrinfo ifs atoi a = Ok l -> exists l', l = Some <$> l'.
Proof.
  intros E. destruct (Ad.LookupAny host getaddrinfo a) as [addr|] eqn:El.
  - unfold resolve in E. rewrite El in E. destruct (Ad.find_char ":" a); injection E as <-; [by exists [addr] | by exists []].
  - exists []. by apply (interface_addresses_dropped _ _ _ _ _ _ El E).
Qed.

Lemma resolve_all_not_null texts : forall l, resolve_all host getaddrinfo ifs atoi texts = Ok l -> exists l', l = Some <$> l'.
Proof.
  induction texts as [| a texts IH]; intros l; cbn [resolve_all]; [intros [= <-]; by exists [] |].
  destruct (resolve host getaddrinfo ifs atoi a) as [x|] eqn:Ex; [| done]. cbn [mbind outcome_bind].
  destruct (resolve_all host getaddrinfo ifs atoi texts) as [rest|]; [| done]. cbn [mbind outcome_bind]. intros [= <-].
  destruct (resolve_not_null _ _ Ex) as [l1 ->]. destruct (IH _ eq_refl) as [l2 ->]. exists (l1 ++ l2). by rewrite fmap_app.
Qed.

Lemma mapM_somes (l : list Ad.Address) : mapM (fun a => a) (Some <$> l) = Some l.
Proof. induction l as [| a l IH]; [done |]. rewrite fmap_cons. cbn [mapM]. by rewrite IH. Qed.

(** A server that is up: not stopped, with a listening socket for each address of
    its configuration and an accept loop scheduled for each socket. *)
Definition is_up (c : HttpServerConf) (h : HttpServer (K := K)) : Prop :=
  exists addrs, resolve_all host getaddrinfo ifs atoi (address c) = Ok (Some <$> addrs)
    /\ Ts.m_isStop (h_server h) = false
    /\ Forall2 (serves host (h_server h)) (Ts.m_socks (h_server h)) addrs
    /\ Ts.tasks (h_server h) = Ts.TAccept <$> Ts.m_socks (h_server h)
    /\ m_isKeepalive h = negb (keepalive c =? 0)
    /\ h_name h = if String.eqb (name c) "" then "sylar/1.0.0"%string else name c.

Lemma run_server_ok k recv_timeout c addrs :
  resolve_all host getaddrinfo ifs atoi (address c) = Ok addrs ->
  run_server host getaddrinfo ifs atoi k recv_timeout c = Ok None
  \/ exists s, run_server host getaddrinfo ifs atoi k recv_timeout c = Ok (Some s)
     /\ is_up c (mkHttpServer (if String.eqb (name c) "" then "sylar/1.0.0"%string else name c) (negb (keepalive c =? 0)) s).
Proof.
  intros E. destruct (resolve_all_not_null _ _ E) as [l ->]. unfold run_server. rewrite E. cbn [mbind outcome_bind]. rewrite mapM_somes.
  cbn [of_ptr mbind outcome_bind]. unfold Ts.bind_all.
  destruct (bind_loop_ok host _ l (Ts.new_TcpServer k recv_timeout) [] (new_server_ok k recv_timeout)) as (ps & fails & s & -> & Hs & (R1 & R2 & R3 & R4) & Hm & _ & _ & Hall).
  rewrite app_nil_l. destruct fails as [| a fails].
  - right. cbn [mbind outcome_bind negb]. eexists. split; [reflexivity |]. exists l. unfold Ts.start. cbn in *.
    rewrite R1, R3. cbn. split_and!; try done. rewrite Hm. by apply Hall.
  - left. destruct (clear_socks_ok _ s Hs) as (s2 & -> & _). done.
Qed.

(** Every configured server comes up, in the order of the configuration, or the
    process exits because one of them could not bind all its addresses; no
    address is a null pointer. *)
Theorem application_serves confs : forall k recv_timeout,
  Forall (fun c => exists addrs, resolve_all host getaddrinfo ifs atoi (address c) = Ok addrs) confs ->
  exists r, run_fiber host getaddrinfo ifs atoi k recv_timeout confs = Ok r
    /\ forall servers, r = Some servers -> Forall2 is_up confs servers.
Proof.
  induction confs as [| c confs IH]; intros k recv_timeout Hall; cbn [run_fiber].
  { eexists. split; [reflexivity |]. intros ? [= <-]. constructor. }
  apply Forall_cons in Hall as [[addrs Ha] Hall].
  destruct (run_server_ok k recv_timeout c addrs Ha) as [-> | (s & -> & Hup)]; cbn [mbind outcome_bind]; [by exists None |].
  destruct (IH (Ts.kern s) recv_timeout Hall) as (r & -> & Hr). cbn [mbind outcome_bind]. eexists. split; [reflexivity |].
  intros servers Hs. destruct r as [rest|]; [| done]. injection Hs as <-. constructor; [exact Hup | by apply Hr].
Qed.
End servers.

(** An address that resolves gives a server with one accept loop. *)
Example application_serves_one :
  exists h, run_fiber 1 (fun _ _ => Some [Ad.bytes_in 1 (Ad.new_IPv4Address 1 0 80)]) None (fun _ => 0)
              (SocketProps.mkToy 1 {[0%Z]}) 1000 [mkConf ["0.0.0.0:80"%string] 1 0 ""] = Ok (Some [h])
    /\ h_name h = "sylar/1.0.0"%string /\ Ts.tasks (h_server h) = [Ts.TAccept 0].
Proof. vm_compute. eexists. split; [reflexivity |]. by split. Qed.
