(* ===== verification/Ragel.v ===== *)
(** The code that Ragel generates: a [switch] over the current state whose cases
    jump, on the next character, to a state or to a label that runs actions
    first.

    [block] lists such code as it stands in the generated files: the blocks of
    sylar/uri.rl.cc, http/http11_parser.rl.cc and http/httpclient_parser.rl.cc
    are in [UriTable], [Http11Table] and [HttpClientTable]. [run] executes it. *)

From stdpp Require Import strings.
From Stdlib Require Import Ascii FMapPositive.
From S2P Require Import Prelude Strs.

#[local] Arguments String.append !_ _ /.

Module Rg.

Local Open Scope Z_scope.

(** ** Generated code *)

(** [goto st<n>;] and [goto tr<n>;] *)
Inductive goto := St (n : N) | Tr (n : N).

#[global] Instance goto_eq_dec : EqDecision goto.
Proof. solve_decision. Defined.

Inductive block (act : Type) :=
  (** [st<n>: if (++p == pe) goto _test_eof<n>; case <n>:] and the selection on
      [*p]: the characters that are widened first, the ranges of the [switch]
      and the [if]s in order, and the final [goto]. *)
  | Case (n : N) (wide : list (Z * Z)) (sel : list (Z * Z * goto)) (dflt : goto)
  (** [tr<n>:], its actions, [goto st<next>;] *)
  | Label (n : N) (acts : list act) (next : N)
  (** [st0: cs = 0; goto _out;] *)
  | St0
  (** [_test_eof<n>: cs = <cs>; goto _test_eof;] *)
  | TestEof (n cs : N).

#[global] Arguments Case {act}.
#[global] Arguments Label {act}.
#[global] Arguments St0 {act}.
#[global] Arguments TestEof {act}.

Declare Scope ragel_scope.
Delimit Scope ragel_scope with ragel.
Notation "a ~> g" := ((a, a, g)%Z) (at level 60, no associativity) : ragel_scope.
Notation "a 'to' b ~> g" := ((a, b, g)%Z) (at level 60, b at level 59, no associativity) : ragel_scope.

(** A machine: its constants, its code indexed by the labels, and what it does
    at the end of the input. *)
Record row := mkRow { r_wide : list (Z * Z); r_sel : list (Z * Z * goto); r_dflt : goto }.

(** Tables indexed by state and label numbers. *)
Abbreviation table := PositiveMap.t.

Definition get {A} (t : table A) (n : N) : option A := PositiveMap.find (N.succ_pos n) t.
Definition put {A} (t : table A) (n : N) (a : A) : table A := PositiveMap.add (N.succ_pos n) a t.

Record machine (act : Type) := mkMachine {
  m_start : N;
  m_first_final : N;
  m_error : N;
  m_cases : table row;
  m_labels : table (list act * N);
  m_test_eof : table N;
  m_eof : list (list N * list act);
}.

#[global] Arguments m_start {act}.
#[global] Arguments m_first_final {act}.
#[global] Arguments m_error {act}.
#[global] Arguments m_cases {act}.
#[global] Arguments m_labels {act}.
#[global] Arguments m_test_eof {act}.
#[global] Arguments m_eof {act}.

Section build.
Context {act : Type}.

Fixpoint cases (code : list (block act)) : table row :=
  match code with
  | [] => PositiveMap.empty _
  | Case n w s d :: code => put (cases code) n (mkRow w s d)
  | _ :: code => cases code
  end.

Fixpoint labels (code : list (block act)) : table (list act * N) :=
  match code with
  | [] => PositiveMap.empty _
  | Label n a m :: code => put (labels code) n (a, m)
  | _ :: code => labels code
  end.

Fixpoint test_eofs (code : list (block act)) : table N :=
  match code with
  | [] => PositiveMap.empty _
  | TestEof n cs :: code => put (test_eofs code) n cs
  | _ :: code => test_eofs code
  end.

Definition build (start first_final error : N) (code : list (block act)) (eof : list (list N * list act)) : machine act :=
  mkMachine act start first_final error (cases code) (labels code) (test_eofs code) eof.

End build.

(** ** Execution *)

(** [*p] is a signed [char]. *)
Definition signed (c : ascii) : Z := i8 (Z.of_nat (nat_of_ascii c)).

Definition in_range (v : Z) (r : Z * Z) : bool := (r.1 <=? v) && (v <=? r.2).

Section exec.
Context {act S : Type} (M : machine act) (relaxed : bool).
(** What an action does at position [p]: the new state, and the value of [cs]
    when it leaves the machine. *)
Context (do : act -> nat -> S -> outcome (S * option N)).

(** [_widec]: characters with a condition are moved out of the way, and further
    when the condition holds. *)
Definition widec (r : row) (v : Z) : Z :=
  if existsb (in_range v) (r_wide r) then (if relaxed then 128 + (v - -128) + 256 else 128 + (v - -128)) else v.

Definition select (r : row) (v : Z) : goto :=
  let v := widec r v in
  match List.find (fun e => in_range v e.1) (r_sel r) with Some e => e.2 | None => r_dflt r end.

(** The actions and the next state for a character. *)
Definition next (cs : N) (c : ascii) : option (list act * N) :=
  match get (m_cases M) cs with
  | None => None
  | Some r => match select r (signed c) with
              | St n => Some ([], n)
              | Tr n => get (m_labels M) n
              end
  end.

Fixpoint do_all (acts : list act) (p : nat) (s : S) : outcome (S * option N) :=
  match acts with
  | [] => Ok (s, None)
  | a :: acts =>
      '(s, b) ← do a p s;
      match b with Some cs => Ok (s, Some cs) | None => do_all acts p s end
  end.

(** From state [cs] at position [p] with [data] left: the state, the position
    and the variables at the end. A state without a case leaves the [switch]
    at once. *)
Fixpoint run (cs : N) (p : nat) (data : string) (s : S) : outcome (N * nat * S) :=
  match data with
  | ""%string => Ok (default cs (get (m_test_eof M) cs), p, s)
  | String c data =>
      match next cs c with
      | None => Ok (cs, p, s)
      | Some (acts, n) =>
          '(s, b) ← do_all acts p s;
          match b with
          | Some cs => Ok (cs, Datatypes.S p, s)
          | None => if (n =? 0)%N then Ok (0%N, p, s) else run n (Datatypes.S p) data s
          end
      end
  end.

(** The actions at the end of the input. *)
Definition eof_acts (cs : N) : list act :=
  match List.find (fun e : list N * list act => existsb (N.eqb cs) e.1) (m_eof M) with Some e => e.2 | None => [] end.

End exec.

End Rg.
