(* ===== verification/RagelProps.v ===== *)
(** Reasoning about the machines of [Ragel].

    A set of states [Q] is followed through the machine: [edge] says that on
    the characters of a class all of them do the same actions and go to states
    of another set, which is decided by computation; a word of characters on
    which nothing is done stays in a set that is closed under them. [ways] lists
    the ways out of a case for checks of a whole machine. *)

From stdpp Require Import strings.
From Stdlib Require Import Ascii FMapPositive.
From S2P Require Import Prelude Strs Ragel.

Module RgP.

Import Rg.
Local Open Scope Z_scope.
#[local] Arguments String.append !_ _ /.

Definition chars : list ascii := ascii_of_nat <$> seq 0 256.

Lemma in_chars c : In c chars.
Proof.
  apply list_elem_of_In, list_elem_of_fmap. exists (nat_of_ascii c). rewrite ascii_nat_embedding. split; [done |].
  apply elem_of_seq. pose proof (nat_ascii_bounded c). lia.
Qed.

Definition mem (n : N) (Q : list N) : bool := existsb (N.eqb n) Q.

Lemma mem_In n Q : mem n Q = true <-> In n Q.
Proof.
  unfold mem. rewrite existsb_exists. split; [intros (x & ? & ->%N.eqb_eq); done |].
  intros H. exists n. by rewrite N.eqb_refl.
Qed.

(** Characters of [K] and percent-encoded bytes. *)
Definition xdigit (c : ascii) : bool :=
  let n := nat_of_ascii c in ((48 <=? n) && (n <=? 57) || (65 <=? n) && (n <=? 70) || (97 <=? n) && (n <=? 102))%nat.

Fixpoint word (K : ascii -> bool) (w : string) : bool :=
  match w with
  | ""%string => true
  | String c w =>
      (K c && word K w)
      || (Ascii.eqb c "%" && match w with
                             | String x (String y w) => xdigit x && xdigit y && word K w
                             | _ => false
                             end)
  end.

Section reason.
Context {act S : Type} `{EqDecision act} (M : machine act) (relaxed : bool).
Context (do : act -> nat -> S -> outcome (S * option N)).

Definition edge (Q : list N) (K : ascii -> bool) (acts : list act) (Q' : list N) : bool :=
  forallb (fun q => forallb (fun c => implb (K c)
    match next M relaxed q c with
    | Some (a, n) => bool_decide (a = acts) && negb (n =? 0)%N && mem n Q'
    | None => false
    end) chars) Q.

(** Where the states of [Q] go. *)
Definition succs (Q : list N) (K : ascii -> bool) : list N :=
  remove_dups (q ← Q; c ← List.filter K chars;
               match next M relaxed q c with Some (_, n) => [n] | None => [] end).

Lemma edge_spec Q K acts Q' q c :
  edge Q K acts Q' = true -> In q Q -> K c = true ->
  exists n, In n Q' /\ n <> 0%N /\ next M relaxed q c = Some (acts, n).
Proof.
  unfold edge. rewrite forallb_forall. intros H Hq Hc. specialize (H q Hq). rewrite forallb_forall in H.
  specialize (H c (in_chars c)). rewrite Hc in H. simpl in H.
  destruct (next M relaxed q c) as [[a n]|]; [| done].
  apply andb_true_iff in H as [[Ha Hn]%andb_true_iff Hm]. apply bool_decide_eq_true in Ha as ->.
  apply negb_true_iff, N.eqb_neq in Hn. apply mem_In in Hm. eauto.
Qed.

(** One character. *)
Lemma run_edge Q K acts Q' q c :
  edge Q K acts Q' = true -> In q Q -> K c = true ->
  exists n, In n Q' /\ forall p rest s,
    run M relaxed do q p (String c rest) s
    = ('(s', b) ← do_all do acts p s;
       match b with Some cs => Ok (cs, Datatypes.S p, s') | None => run M relaxed do n (Datatypes.S p) rest s' end).
Proof.
  intros He Hq Hc. destruct (edge_spec _ _ _ _ _ _ He Hq Hc) as (n & Hn & Hn0 & E). exists n. split; [done |].
  intros p rest s. cbn [run]. rewrite E. destruct (do_all do acts p s) as [[s' [b|]]|]; [done | | done].
  cbn [mbind outcome_bind]. by rewrite (proj2 (N.eqb_neq _ _) Hn0).
Qed.

Lemma run_quiet Q K Q' q c :
  edge Q K [] Q' = true -> In q Q -> K c = true ->
  exists n, In n Q' /\ forall p rest s,
    run M relaxed do q p (String c rest) s = run M relaxed do n (Datatypes.S p) rest s.
Proof. intros He Hq Hc. destruct (run_edge _ _ _ _ _ _ He Hq Hc) as (n & Hn & E). by exists n. Qed.

(** [Q] is closed under the characters of [K] and under percent-encoding. *)
Definition closed (K : ascii -> bool) (Q : list N) : bool :=
  edge Q K [] Q
  && (let P1 := succs Q (Ascii.eqb "%") in let P2 := succs P1 xdigit in
      edge Q (Ascii.eqb "%") [] P1 && edge P1 xdigit [] P2 && edge P2 xdigit [] Q).

Lemma run_word K Q w :
  closed K Q = true -> word K w = true -> forall q, In q Q ->
  exists n, In n Q /\ forall p rest s,
    run M relaxed do q p (w ++ rest) s = run M relaxed do n (p + String.length w) rest s.
Proof.
  unfold closed. intros [H1 [[H2 H3]%andb_true_iff H4]%andb_true_iff]%andb_true_iff.
  remember (String.length w) as k eqn:Ek. assert (Hk : (String.length w <= k)%nat) by lia. revert w Ek Hk.
  induction (lt_wf k) as [k _ IH]. intros w Ek Hk Hw q Hq. subst k.
  destruct w as [| c w]; [exists q; split; [done |]; intros; simpl; by rewrite Nat.add_0_r |].
  cbn [word] in Hw. apply orb_true_iff in Hw as [[Hc Hw]%andb_true_iff | [Hp Hw]%andb_true_iff].
  - destruct (run_quiet _ _ _ _ _ H1 Hq Hc) as (n & Hn & E).
    destruct (IH (String.length w) ltac:(simpl; lia) w eq_refl ltac:(lia) Hw n Hn) as (n' & Hn' & E').
    exists n'. split; [done |]. intros p rest s.
    transitivity (run M relaxed do n (Datatypes.S p) (w ++ rest) s); [apply E |]. rewrite E'. f_equal. simpl. lia.
  - destruct w as [| x [| y w]]; try done. apply andb_true_iff in Hw as [[Hx Hy]%andb_true_iff Hw].
    rewrite Ascii.eqb_sym in Hp.
    destruct (run_quiet _ _ _ _ _ H2 Hq Hp) as (n1 & Hn1 & E1).
    destruct (run_quiet _ _ _ _ _ H3 Hn1 Hx) as (n2 & Hn2 & E2).
    destruct (run_quiet _ _ _ _ _ H4 Hn2 Hy) as (n3 & Hn3 & E3).
    destruct (IH (String.length w) ltac:(simpl; lia) w eq_refl ltac:(lia) Hw n3 Hn3) as (n' & Hn' & E').
    exists n'. split; [done |]. intros p rest s.
    etransitivity; [apply E1 |]. etransitivity; [apply E2 |]. etransitivity; [apply E3 |].
    rewrite E'. f_equal. simpl. lia.
Qed.

(** Plain characters, without percent-encoding. *)
Lemma run_chars K Q w :
  edge Q K [] Q = true -> str_forall K w = true -> forall q, In q Q ->
  exists n, In n Q /\ forall p rest s,
    run M relaxed do q p (w ++ rest) s = run M relaxed do n (p + String.length w) rest s.
Proof.
  intros He. induction w as [| c w IH]; intros Hw q Hq.
  { exists q. split; [done |]. intros. simpl. by rewrite Nat.add_0_r. }
  simpl in Hw. apply andb_true_iff in Hw as [Hc Hw]. destruct (run_quiet _ _ _ _ _ He Hq Hc) as (n & Hn & E).
  destruct (IH Hw n Hn) as (n' & Hn' & E'). exists n'. split; [done |]. intros p rest s.
  etransitivity; [apply E |]. rewrite E'. f_equal. simpl. lia.
Qed.

(** …of which the first does something. *)
Lemma run_first K K' Q acts R c w q :
  edge Q K acts R = true -> edge R K' [] R = true -> K c = true -> str_forall K' w = true -> In q Q ->
  exists n, In n R /\ forall p rest s s', do_all do acts p s = Ok (s', None) ->
    run M relaxed do q p (String c (w ++ rest)) s = run M relaxed do n (p + String.length (String c w)) rest s'.
Proof.
  intros He HR Hc Hw Hq. destruct (run_edge _ _ _ _ _ _ He Hq Hc) as (n & Hn & E).
  destruct (run_chars K' R w HR Hw n Hn) as (n' & Hn' & E'). exists n'. split; [done |]. intros p rest s s' Hd.
  rewrite E, Hd. cbn [mbind outcome_bind]. rewrite E'. f_equal. simpl. lia.
Qed.

(** The same when the first character does something: [acts], and then nothing
    for the rest of the word. *)
Definition entry (K : ascii -> bool) (Q : list N) (acts : list act) (R : list N) : bool :=
  edge Q K acts R
  && (let P1 := succs Q (Ascii.eqb "%") in let P2 := succs P1 xdigit in
      edge Q (Ascii.eqb "%") acts P1 && edge P1 xdigit [] P2 && edge P2 xdigit [] R).

Lemma run_entry_first K1 K Q acts R c w q :
  entry K1 Q acts R = true -> closed K R = true -> (K c = true -> K1 c = true) -> word K (String c w) = true -> In q Q ->
  exists n, In n R /\ forall p rest s s', do_all do acts p s = Ok (s', None) ->
    run M relaxed do q p (String c w ++ rest) s = run M relaxed do n (p + String.length (String c w)) rest s'.
Proof.
  unfold entry. intros [H1 [[H2 H3]%andb_true_iff H4]%andb_true_iff]%andb_true_iff HR Hfirst Hw Hq.
  cbn [word] in Hw. apply orb_true_iff in Hw as [[Hc Hw]%andb_true_iff | [Hp Hw]%andb_true_iff]; [apply Hfirst in Hc |].
  - destruct (run_edge _ _ _ _ _ _ H1 Hq Hc) as (n & Hn & E). destruct (run_word K R w HR Hw n Hn) as (n' & Hn' & E').
    exists n'. split; [done |]. intros p rest s s' Hd. etransitivity; [apply E |]. rewrite Hd.
    cbn [mbind outcome_bind]. rewrite E'. f_equal. simpl. lia.
  - destruct w as [| x [| y w]]; try done. apply andb_true_iff in Hw as [[Hx Hy]%andb_true_iff Hw].
    rewrite Ascii.eqb_sym in Hp.
    destruct (run_edge _ _ _ _ _ _ H2 Hq Hp) as (n1 & Hn1 & E1).
    destruct (run_quiet _ _ _ _ _ H3 Hn1 Hx) as (n2 & Hn2 & E2).
    destruct (run_quiet _ _ _ _ _ H4 Hn2 Hy) as (n3 & Hn3 & E3).
    destruct (run_word K R w HR Hw n3 Hn3) as (n' & Hn' & E').
    exists n'. split; [done |]. intros p rest s s' Hd. etransitivity; [apply E1 |]. rewrite Hd.
    cbn [mbind outcome_bind]. etransitivity; [apply E2 |]. etransitivity; [apply E3 |].
    rewrite E'. f_equal. simpl. lia.
Qed.

Lemma run_entry K Q acts R w q :
  entry K Q acts R = true -> closed K R = true -> word K w = true -> w <> ""%string -> In q Q ->
  exists n, In n R /\ forall p rest s s', do_all do acts p s = Ok (s', None) ->
    run M relaxed do q p (w ++ rest) s = run M relaxed do n (p + String.length w) rest s'.
Proof. intros H1 H2 Hw Hne Hq. destruct w as [| c w]; [done |]. by apply (run_entry_first K K Q). Qed.

(** A given character. *)
Lemma run_char Q c acts Q' q :
  edge Q (Ascii.eqb c) acts Q' = true -> In q Q ->
  exists n, In n Q' /\ forall p rest s s', do_all do acts p s = Ok (s', None) ->
    run M relaxed do q p (String c rest) s = run M relaxed do n (Datatypes.S p) rest s'.
Proof.
  intros He Hq. destruct (run_edge _ _ _ _ _ c He Hq (Ascii.eqb_refl c)) as (n & Hn & E). exists n. split; [done |].
  intros p rest s s' Hd. by rewrite E, Hd.
Qed.

(** A given text on which nothing is done. *)
Fixpoint walk (q : N) (w : string) : option N :=
  match w with
  | ""%string => Some q
  | String c w => match next M relaxed q c with
                  | Some ([], n) => if (n =? 0)%N then None else walk n w
                  | _ => None
                  end
  end.

Lemma run_walk w q n p rest s :
  walk q w = Some n -> run M relaxed do q p (w ++ rest) s = run M relaxed do n (p + String.length w) rest s.
Proof.
  revert q p. induction w as [| c w IH]; intros q p; cbn [walk].
  - intros [= ->]. simpl. by rewrite Nat.add_0_r.
  - destruct (next M relaxed q c) as [[[| a acts] n']|] eqn:E; try done. destruct (N.eqb_spec n' 0); [done |].
    intros H. replace (p + String.length (String c w))%nat with (Datatypes.S p + String.length w)%nat by (simpl; lia).
    rewrite <- (IH n' (Datatypes.S p) H). cbn [run String.append]. rewrite E. cbn [do_all mbind outcome_bind]. by destruct (N.eqb_spec n' 0).
Qed.

(** A given step. *)
Lemma run_next q c acts n p rest s s' :
  next M relaxed q c = Some (acts, n) -> n <> 0%N -> do_all do acts p s = Ok (s', None) ->
  run M relaxed do q p (String c rest) s = run M relaxed do n (Datatypes.S p) rest s'.
Proof. intros E Hn Hd. cbn [run]. rewrite E, Hd. cbn [mbind outcome_bind]. by destruct (N.eqb_spec n 0). Qed.

(** The ways out of a case, as ranges of characters: those it selects, and the
    rest. *)
Definition ways (r : row) : list (Z * Z * goto) := r_sel r ++ [(-128, 127, r_dflt r)].

Definition resolve (g : goto) : option (list act * N) :=
  match g with St n => Some ([], n) | Tr n => get (m_labels M) n end.

Lemma signed_range c : -128 <= signed c <= 127.
Proof. unfold signed. pose proof (to_signed_range 8 (Z.of_nat (nat_of_ascii c)) ltac:(lia)) as H. unfold in_signed in H. unfold i8. lia. Qed.

Lemma next_way q c acts n :
  next M relaxed q c = Some (acts, n) -> exists r, get (m_cases M) q = Some r
    /\ (r_wide r = [] -> exists lo hi g, In (lo, hi, g) (ways r) /\ lo <= signed c <= hi /\ resolve g = Some (acts, n)).
Proof.
  unfold next. destruct (get (m_cases M) q) as [r|]; [| done]. intros E. exists r. split; [done |]. intros Hw.
  unfold select, widec in E. rewrite Hw in E. simpl in E. unfold ways.
  destruct (List.find _ (r_sel r)) as [[[lo hi] g]|] eqn:F.
  - apply find_some in F as [Hin Hr]. unfold in_range in Hr. simpl in Hr, E. exists lo, hi, g.
    split_and!; [apply in_or_app; by left | lia | lia | by destruct g].
  - pose proof (signed_range c). exists (-128), 127, (r_dflt r).
    split_and!; [apply in_or_app; right; by left | lia | lia | by destruct (r_dflt r)].
Qed.

(** The end of the input leaves every state of [Q] as it is. *)
Definition resting (Q : list N) : bool := forallb (fun q => (default q (get (m_test_eof M) q) =? q)%N) Q.

Lemma run_end Q q p s : resting Q = true -> In q Q -> run M relaxed do q p "" s = Ok (q, p, s).
Proof. unfold resting. rewrite forallb_forall. intros H Hq. simpl. by rewrite (proj1 (N.eqb_eq _ _) (H q Hq)). Qed.

End reason.

(** The entries of a table. *)
Lemma get_In {A} (t : table A) n a : get t n = Some a -> In (N.succ_pos n, a) (PositiveMap.elements t).
Proof. apply PositiveMap.elements_correct. Qed.

End RgP.
