(* ===== verification/UriTable.v ===== *)
(** The state machine of sylar/uri.rl.cc, block by block in the order of the
    file; each definition is named after its first line there. *)

From stdpp Require Import strings.
From S2P Require Import Prelude Ragel.

Module Ur.

Import Rg.
Local Open Scope Z_scope.
Local Open Scope ragel_scope.

(** The actions of the grammar in uri.rl. *)
Inductive action :=
  | marku | markh | save_scheme | save_port | save_userinfo | save_host | save_path | save_query | save_fragment.

#[global] Instance action_eq_dec : EqDecision action.
Proof. solve_decision. Defined.

Definition uri_L40 : list (block action) := [
  Case 451 [] [34 ~> St 0; 35 ~> St 453; 37 ~> St 3; 47 ~> St 458; 58 ~> St 0; 60 ~> St 0; 62 ~> St 0; 63 ~> St 456; 96 ~> St 0; 127 ~> St 0;
    65 to 90 ~> Tr 461; 0 to 32 ~> St 0; 123 to 125 ~> St 0; 97 to 122 ~> Tr 461; 91 to 94 ~> St 0] (St 452);
  Case 452 [] [34 ~> St 0; 35 ~> St 453; 37 ~> St 3; 47 ~> St 455; 58 ~> St 0; 60 ~> St 0; 62 ~> St 0; 63 ~> St 456; 96 ~> St 0; 127 ~> St 0;
    0 to 32 ~> St 0; 123 to 125 ~> St 0; 91 to 94 ~> St 0] (St 452);
  St0;
  Label 467 [marku; save_query] 453;
  Label 469 [save_query] 453;
  Label 474 [markh; save_host] 453;
  Label 485 [save_host] 453;
  Label 489 [markh; save_port] 453;
  Label 493 [save_port] 453;
  Label 548 [markh; save_host; save_path] 453;
  Label 559 [save_host; markh; save_path] 453].

Definition uri_L188 : list (block action) := [
  Label 563 [save_path] 453;
  Label 566 [markh; save_port; save_path] 453;
  Label 570 [save_port; markh; save_path] 453;
  Case 453 [] [37 ~> Tr 463; 60 ~> St 0; 62 ~> St 0; 96 ~> St 0; 127 ~> St 0; 0 to 32 ~> St 0; 123 to 125 ~> St 0; 91 to 94 ~> St 0;
    34 to 35 ~> St 0] (Tr 462);
  Label 462 [marku] 454;
  Case 454 [] [37 ~> St 1; 60 ~> St 0; 62 ~> St 0; 96 ~> St 0; 127 ~> St 0; 0 to 32 ~> St 0; 123 to 125 ~> St 0; 91 to 94 ~> St 0;
    34 to 35 ~> St 0] (St 454);
  Label 463 [marku] 1;
  Case 1 [] [48 to 57 ~> St 2; 97 to 102 ~> St 2; 65 to 70 ~> St 2] (St 0);
  Case 2 [] [48 to 57 ~> St 454; 97 to 102 ~> St 454; 65 to 70 ~> St 454] (St 0);
  Case 3 [] [48 to 57 ~> St 4; 97 to 102 ~> St 4; 65 to 70 ~> St 4] (St 0)].

Definition uri_L326 : list (block action) := [
  Case 4 [] [48 to 57 ~> St 452; 97 to 102 ~> St 452; 65 to 70 ~> St 452] (St 0);
  Label 476 [markh; save_host] 455;
  Label 486 [save_host] 455;
  Label 490 [markh; save_port] 455;
  Label 494 [save_port] 455;
  Case 455 [] [34 ~> St 0; 35 ~> St 453; 37 ~> St 5; 60 ~> St 0; 62 ~> St 0; 63 ~> St 456; 96 ~> St 0; 127 ~> St 0; 0 to 32 ~> St 0; 123 to 125 ~> St 0;
    91 to 94 ~> St 0] (St 455);
  Case 5 [] [48 to 57 ~> St 6; 97 to 102 ~> St 6; 65 to 70 ~> St 6] (St 0);
  Case 6 [] [48 to 57 ~> St 455; 97 to 102 ~> St 455; 65 to 70 ~> St 455] (St 0);
  Label 482 [markh; save_host] 456;
  Label 488 [save_host] 456;
  Label 492 [markh; save_port] 456;
  Label 496 [save_port] 456].

Definition uri_L469 : list (block action) := [
  Label 556 [markh; save_host; save_path] 456;
  Label 562 [save_host; markh; save_path] 456;
  Label 565 [save_path] 456;
  Label 569 [markh; save_port; save_path] 456;
  Label 573 [save_port; markh; save_path] 456;
  Case 456 [] [34 ~> St 0; 35 ~> Tr 467; 37 ~> Tr 468; 60 ~> St 0; 62 ~> St 0; 96 ~> St 0; 127 ~> St 0; 0 to 32 ~> St 0; 123 to 125 ~> St 0;
    91 to 94 ~> St 0] (Tr 466);
  Label 466 [marku] 457;
  Case 457 [] [34 ~> St 0; 35 ~> Tr 469; 37 ~> St 7; 60 ~> St 0; 62 ~> St 0; 96 ~> St 0; 127 ~> St 0; 0 to 32 ~> St 0; 123 to 125 ~> St 0;
    91 to 94 ~> St 0] (St 457);
  Label 468 [marku] 7;
  Case 7 [] [48 to 57 ~> St 8; 97 to 102 ~> St 8; 65 to 70 ~> St 8] (St 0)].

Definition uri_L613 : list (block action) := [
  Case 8 [] [48 to 57 ~> St 457; 97 to 102 ~> St 457; 65 to 70 ~> St 457] (St 0);
  Case 458 [] [34 ~> St 0; 35 ~> St 453; 37 ~> St 5; 47 ~> St 459; 60 ~> St 0; 62 ~> St 0; 63 ~> St 456; 96 ~> St 0; 127 ~> St 0; 0 to 32 ~> St 0;
    123 to 125 ~> St 0; 91 to 94 ~> St 0] (St 455);
  Case 459 [] [2 ~> Tr 472; 33 ~> Tr 473; 35 ~> Tr 474; 37 ~> Tr 475; 47 ~> Tr 476; 48 ~> Tr 477; 49 ~> Tr 478; 50 ~> Tr 479; 58 ~> Tr 481;
    59 ~> Tr 473; 61 ~> Tr 473; 63 ~> Tr 482; 64 ~> Tr 483; 91 ~> Tr 484; 95 ~> Tr 473; 126 ~> Tr 473; 36 to 46 ~> Tr 473; 97 to 122 ~> Tr 473;
    65 to 90 ~> Tr 473; 51 to 57 ~> Tr 480] (St 0);
  Label 472 [markh] 9;
  Case 9 [] [48 to 52 ~> St 10] (St 0);
  Case 10 [] [48 to 57 ~> St 11] (St 0);
  Case 11 [] [46 ~> St 12] (St 0);
  Case 12 [] [2 ~> St 13; 48 ~> St 15; 49 ~> St 27; 50 ~> St 29; 51 to 57 ~> St 28] (St 0);
  Case 13 [] [48 to 52 ~> St 14] (St 0);
  Case 14 [] [48 to 57 ~> St 15] (St 0);
  Case 15 [] [46 ~> St 16] (St 0);
  Case 16 [] [2 ~> St 17; 48 ~> St 19; 49 ~> St 23; 50 ~> St 25; 51 to 57 ~> St 24] (St 0)].

Definition uri_L757 : list (block action) := [
  Case 17 [] [48 to 52 ~> St 18] (St 0);
  Case 18 [] [48 to 57 ~> St 19] (St 0);
  Case 19 [] [46 ~> St 20] (St 0);
  Case 20 [] [2 ~> St 21; 48 ~> St 460; 49 ~> St 463; 50 ~> St 465; 51 to 57 ~> St 464] (St 0);
  Case 21 [] [48 to 52 ~> St 22] (St 0);
  Case 22 [] [48 to 57 ~> St 460] (St 0);
  Case 460 [] [35 ~> Tr 485; 47 ~> Tr 486; 58 ~> Tr 487; 63 ~> Tr 488] (St 0);
  Label 507 [markh; save_host] 461;
  Label 487 [save_host] 461;
  Case 461 [] [35 ~> Tr 489; 47 ~> Tr 490; 63 ~> Tr 492; 48 to 57 ~> Tr 491] (St 0);
  Label 491 [markh] 462;
  Case 462 [] [35 ~> Tr 493; 47 ~> Tr 494; 63 ~> Tr 496; 48 to 57 ~> St 462] (St 0);
  Case 463 [] [35 ~> Tr 485; 47 ~> Tr 486; 58 ~> Tr 487; 63 ~> Tr 488; 48 to 57 ~> St 464] (St 0);
  Case 464 [] [35 ~> Tr 485; 47 ~> Tr 486; 58 ~> Tr 487; 63 ~> Tr 488; 48 to 57 ~> St 460] (St 0);
  Case 465 [] [35 ~> Tr 485; 47 ~> Tr 486; 53 ~> St 466; 58 ~> Tr 487; 63 ~> Tr 488; 48 to 57 ~> St 460] (St 0)].

Definition uri_L906 : list (block action) := [
  Case 466 [] [35 ~> Tr 485; 47 ~> Tr 486; 58 ~> Tr 487; 63 ~> Tr 488; 48 to 53 ~> St 460] (St 0);
  Case 23 [] [46 ~> St 20; 48 to 57 ~> St 24] (St 0);
  Case 24 [] [46 ~> St 20; 48 to 57 ~> St 19] (St 0);
  Case 25 [] [46 ~> St 20; 53 ~> St 26; 48 to 57 ~> St 19] (St 0);
  Case 26 [] [46 ~> St 20; 48 to 53 ~> St 19] (St 0);
  Case 27 [] [46 ~> St 16; 48 to 57 ~> St 28] (St 0);
  Case 28 [] [46 ~> St 16; 48 to 57 ~> St 15] (St 0);
  Case 29 [] [46 ~> St 16; 53 ~> St 30; 48 to 57 ~> St 15] (St 0);
  Case 30 [] [46 ~> St 16; 48 to 53 ~> St 15] (St 0);
  Label 473 [markh] 467;
  Case 467 [] [33 ~> St 467; 35 ~> Tr 485; 37 ~> St 31; 47 ~> Tr 486; 58 ~> Tr 499; 61 ~> St 467; 63 ~> Tr 488; 64 ~> Tr 38; 95 ~> St 467;
    126 ~> St 467; 36 to 59 ~> St 467; 97 to 122 ~> St 467; 65 to 90 ~> St 467] (St 0);
  Label 475 [markh] 31;
  Case 31 [] [48 to 57 ~> St 32; 97 to 102 ~> St 32; 65 to 70 ~> St 32] (St 0);
  Case 32 [] [48 to 57 ~> St 467; 97 to 102 ~> St 467; 65 to 70 ~> St 467] (St 0)].

Definition uri_L1056 : list (block action) := [
  Label 481 [markh; save_host] 468;
  Label 499 [save_host] 468;
  Case 468 [] [33 ~> St 33; 35 ~> Tr 489; 37 ~> St 34; 47 ~> Tr 490; 61 ~> St 33; 63 ~> Tr 492; 64 ~> Tr 38; 95 ~> St 33; 126 ~> St 33;
    48 to 57 ~> Tr 500; 36 to 46 ~> St 33; 97 to 122 ~> St 33; 65 to 90 ~> St 33; 58 to 59 ~> St 33] (St 0);
  Case 33 [] [33 ~> St 33; 37 ~> St 34; 61 ~> St 33; 64 ~> Tr 38; 95 ~> St 33; 126 ~> St 33; 36 to 46 ~> St 33; 97 to 122 ~> St 33; 65 to 90 ~> St 33;
    48 to 59 ~> St 33] (St 0);
  Case 34 [] [48 to 57 ~> St 35; 97 to 102 ~> St 35; 65 to 70 ~> St 35] (St 0);
  Case 35 [] [48 to 57 ~> St 33; 97 to 102 ~> St 33; 65 to 70 ~> St 33] (St 0);
  Label 38 [save_userinfo] 469;
  Label 483 [markh; save_userinfo] 469].

Definition uri_L1179 : list (block action) := [
  Case 469 [] [2 ~> Tr 472; 33 ~> Tr 501; 35 ~> Tr 474; 37 ~> Tr 502; 47 ~> Tr 476; 48 ~> Tr 503; 49 ~> Tr 504; 50 ~> Tr 505; 58 ~> Tr 507;
    59 ~> Tr 501; 61 ~> Tr 501; 63 ~> Tr 482; 91 ~> Tr 484; 95 ~> Tr 501; 126 ~> Tr 501; 36 to 46 ~> Tr 501; 97 to 122 ~> Tr 501; 65 to 90 ~> Tr 501;
    51 to 57 ~> Tr 506] (St 0);
  Label 501 [markh] 470;
  Case 470 [] [33 ~> St 470; 35 ~> Tr 485; 37 ~> St 36; 47 ~> Tr 486; 58 ~> Tr 487; 61 ~> St 470; 63 ~> Tr 488; 95 ~> St 470; 126 ~> St 470;
    36 to 59 ~> St 470; 97 to 122 ~> St 470; 65 to 90 ~> St 470] (St 0);
  Label 502 [markh] 36;
  Case 36 [] [48 to 57 ~> St 37; 97 to 102 ~> St 37; 65 to 70 ~> St 37] (St 0);
  Case 37 [] [48 to 57 ~> St 470; 97 to 102 ~> St 470; 65 to 70 ~> St 470] (St 0);
  Label 503 [markh] 471;
  Case 471 [] [33 ~> St 470; 35 ~> Tr 485; 37 ~> St 36; 46 ~> St 472; 47 ~> Tr 486; 58 ~> Tr 487; 61 ~> St 470; 63 ~> Tr 488; 95 ~> St 470;
    126 ~> St 470; 36 to 59 ~> St 470; 97 to 122 ~> St 470; 65 to 90 ~> St 470] (St 0)].

Definition uri_L1303 : list (block action) := [
  Case 472 [] [2 ~> St 13; 33 ~> St 470; 35 ~> Tr 485; 37 ~> St 36; 47 ~> Tr 486; 48 ~> St 473; 49 ~> St 481; 50 ~> St 483; 58 ~> Tr 487; 59 ~> St 470;
    61 ~> St 470; 63 ~> Tr 488; 95 ~> St 470; 126 ~> St 470; 36 to 46 ~> St 470; 97 to 122 ~> St 470; 65 to 90 ~> St 470; 51 to 57 ~> St 482] (St 0);
  Case 473 [] [33 ~> St 470; 35 ~> Tr 485; 37 ~> St 36; 46 ~> St 474; 47 ~> Tr 486; 58 ~> Tr 487; 61 ~> St 470; 63 ~> Tr 488; 95 ~> St 470;
    126 ~> St 470; 36 to 59 ~> St 470; 97 to 122 ~> St 470; 65 to 90 ~> St 470] (St 0);
  Case 474 [] [2 ~> St 17; 33 ~> St 470; 35 ~> Tr 485; 37 ~> St 36; 47 ~> Tr 486; 48 ~> St 475; 49 ~> St 477; 50 ~> St 479; 58 ~> Tr 487; 59 ~> St 470;
    61 ~> St 470; 63 ~> Tr 488; 95 ~> St 470; 126 ~> St 470; 36 to 46 ~> St 470; 97 to 122 ~> St 470; 65 to 90 ~> St 470; 51 to 57 ~> St 478] (St 0);
  Case 475 [] [33 ~> St 470; 35 ~> Tr 485; 37 ~> St 36; 46 ~> St 476; 47 ~> Tr 486; 58 ~> Tr 487; 61 ~> St 470; 63 ~> Tr 488; 95 ~> St 470;
    126 ~> St 470; 36 to 59 ~> St 470; 97 to 122 ~> St 470; 65 to 90 ~> St 470] (St 0);
  Case 476 [] [2 ~> St 21; 33 ~> St 470; 35 ~> Tr 485; 37 ~> St 36; 47 ~> Tr 486; 58 ~> Tr 487; 61 ~> St 470; 63 ~> Tr 488; 95 ~> St 470; 126 ~> St 470;
    36 to 59 ~> St 470; 97 to 122 ~> St 470; 65 to 90 ~> St 470] (St 0)].

Definition uri_L1442 : list (block action) := [
  Case 477 [] [33 ~> St 470; 35 ~> Tr 485; 37 ~> St 36; 46 ~> St 476; 47 ~> Tr 486; 58 ~> Tr 487; 59 ~> St 470; 61 ~> St 470; 63 ~> Tr 488;
    95 ~> St 470; 126 ~> St 470; 36 to 45 ~> St 470; 97 to 122 ~> St 470; 65 to 90 ~> St 470; 48 to 57 ~> St 478] (St 0);
  Case 478 [] [33 ~> St 470; 35 ~> Tr 485; 37 ~> St 36; 46 ~> St 476; 47 ~> Tr 486; 58 ~> Tr 487; 59 ~> St 470; 61 ~> St 470; 63 ~> Tr 488;
    95 ~> St 470; 126 ~> St 470; 36 to 45 ~> St 470; 97 to 122 ~> St 470; 65 to 90 ~> St 470; 48 to 57 ~> St 475] (St 0);
  Case 479 [] [33 ~> St 470; 35 ~> Tr 485; 37 ~> St 36; 46 ~> St 476; 47 ~> Tr 486; 53 ~> St 480; 58 ~> Tr 487; 59 ~> St 470; 61 ~> St 470;
    63 ~> Tr 488; 95 ~> St 470; 126 ~> St 470; 36 to 45 ~> St 470; 97 to 122 ~> St 470; 65 to 90 ~> St 470; 48 to 57 ~> St 475] (St 0);
  Case 480 [] [33 ~> St 470; 35 ~> Tr 485; 37 ~> St 36; 46 ~> St 476; 47 ~> Tr 486; 58 ~> Tr 487; 61 ~> St 470; 63 ~> Tr 488; 95 ~> St 470;
    126 ~> St 470; 48 to 53 ~> St 475; 36 to 45 ~> St 470; 97 to 122 ~> St 470; 65 to 90 ~> St 470; 54 to 59 ~> St 470] (St 0);
  Case 481 [] [33 ~> St 470; 35 ~> Tr 485; 37 ~> St 36; 46 ~> St 474; 47 ~> Tr 486; 58 ~> Tr 487; 59 ~> St 470; 61 ~> St 470; 63 ~> Tr 488;
    95 ~> St 470; 126 ~> St 470; 36 to 45 ~> St 470; 97 to 122 ~> St 470; 65 to 90 ~> St 470; 48 to 57 ~> St 482] (St 0)].

Definition uri_L1590 : list (block action) := [
  Case 482 [] [33 ~> St 470; 35 ~> Tr 485; 37 ~> St 36; 46 ~> St 474; 47 ~> Tr 486; 58 ~> Tr 487; 59 ~> St 470; 61 ~> St 470; 63 ~> Tr 488;
    95 ~> St 470; 126 ~> St 470; 36 to 45 ~> St 470; 97 to 122 ~> St 470; 65 to 90 ~> St 470; 48 to 57 ~> St 473] (St 0);
  Case 483 [] [33 ~> St 470; 35 ~> Tr 485; 37 ~> St 36; 46 ~> St 474; 47 ~> Tr 486; 53 ~> St 484; 58 ~> Tr 487; 59 ~> St 470; 61 ~> St 470;
    63 ~> Tr 488; 95 ~> St 470; 126 ~> St 470; 36 to 45 ~> St 470; 97 to 122 ~> St 470; 65 to 90 ~> St 470; 48 to 57 ~> St 473] (St 0);
  Case 484 [] [33 ~> St 470; 35 ~> Tr 485; 37 ~> St 36; 46 ~> St 474; 47 ~> Tr 486; 58 ~> Tr 487; 61 ~> St 470; 63 ~> Tr 488; 95 ~> St 470;
    126 ~> St 470; 48 to 53 ~> St 473; 36 to 45 ~> St 470; 97 to 122 ~> St 470; 65 to 90 ~> St 470; 54 to 59 ~> St 470] (St 0);
  Label 504 [markh] 485;
  Case 485 [] [33 ~> St 470; 35 ~> Tr 485; 37 ~> St 36; 46 ~> St 472; 47 ~> Tr 486; 58 ~> Tr 487; 59 ~> St 470; 61 ~> St 470; 63 ~> Tr 488;
    95 ~> St 470; 126 ~> St 470; 36 to 45 ~> St 470; 97 to 122 ~> St 470; 65 to 90 ~> St 470; 48 to 57 ~> St 486] (St 0);
  Label 506 [markh] 486].

Definition uri_L1718 : list (block action) := [
  Case 486 [] [33 ~> St 470; 35 ~> Tr 485; 37 ~> St 36; 46 ~> St 472; 47 ~> Tr 486; 58 ~> Tr 487; 59 ~> St 470; 61 ~> St 470; 63 ~> Tr 488;
    95 ~> St 470; 126 ~> St 470; 36 to 45 ~> St 470; 97 to 122 ~> St 470; 65 to 90 ~> St 470; 48 to 57 ~> St 471] (St 0);
  Label 505 [markh] 487;
  Case 487 [] [33 ~> St 470; 35 ~> Tr 485; 37 ~> St 36; 46 ~> St 472; 47 ~> Tr 486; 53 ~> St 488; 58 ~> Tr 487; 59 ~> St 470; 61 ~> St 470;
    63 ~> Tr 488; 95 ~> St 470; 126 ~> St 470; 36 to 45 ~> St 470; 97 to 122 ~> St 470; 65 to 90 ~> St 470; 48 to 57 ~> St 471] (St 0);
  Case 488 [] [33 ~> St 470; 35 ~> Tr 485; 37 ~> St 36; 46 ~> St 472; 47 ~> Tr 486; 58 ~> Tr 487; 61 ~> St 470; 63 ~> Tr 488; 95 ~> St 470;
    126 ~> St 470; 48 to 53 ~> St 471; 36 to 45 ~> St 470; 97 to 122 ~> St 470; 65 to 90 ~> St 470; 54 to 59 ~> St 470] (St 0);
  Label 484 [markh] 38;
  Case 38 [] [58 ~> St 146; 118 ~> St 225; 48 to 57 ~> St 39; 97 to 102 ~> St 39; 65 to 70 ~> St 39] (St 0);
  Case 39 [] [58 ~> St 43; 48 to 57 ~> St 40; 97 to 102 ~> St 40; 65 to 70 ~> St 40] (St 0);
  Case 40 [] [58 ~> St 43; 48 to 57 ~> St 41; 97 to 102 ~> St 41; 65 to 70 ~> St 41] (St 0)].

Definition uri_L1866 : list (block action) := [
  Case 41 [] [58 ~> St 43; 48 to 57 ~> St 42; 97 to 102 ~> St 42; 65 to 70 ~> St 42] (St 0);
  Case 42 [] [58 ~> St 43] (St 0);
  Case 43 [] [58 ~> St 141; 48 to 57 ~> St 44; 97 to 102 ~> St 44; 65 to 70 ~> St 44] (St 0);
  Case 44 [] [58 ~> St 48; 48 to 57 ~> St 45; 97 to 102 ~> St 45; 65 to 70 ~> St 45] (St 0);
  Case 45 [] [58 ~> St 48; 48 to 57 ~> St 46; 97 to 102 ~> St 46; 65 to 70 ~> St 46] (St 0);
  Case 46 [] [58 ~> St 48; 48 to 57 ~> St 47; 97 to 102 ~> St 47; 65 to 70 ~> St 47] (St 0);
  Case 47 [] [58 ~> St 48] (St 0);
  Case 48 [] [58 ~> St 136; 48 to 57 ~> St 49; 97 to 102 ~> St 49; 65 to 70 ~> St 49] (St 0);
  Case 49 [] [58 ~> St 53; 48 to 57 ~> St 50; 97 to 102 ~> St 50; 65 to 70 ~> St 50] (St 0);
  Case 50 [] [58 ~> St 53; 48 to 57 ~> St 51; 97 to 102 ~> St 51; 65 to 70 ~> St 51] (St 0);
  Case 51 [] [58 ~> St 53; 48 to 57 ~> St 52; 97 to 102 ~> St 52; 65 to 70 ~> St 52] (St 0)].

Definition uri_L2015 : list (block action) := [
  Case 52 [] [58 ~> St 53] (St 0);
  Case 53 [] [58 ~> St 131; 48 to 57 ~> St 54; 97 to 102 ~> St 54; 65 to 70 ~> St 54] (St 0);
  Case 54 [] [58 ~> St 58; 48 to 57 ~> St 55; 97 to 102 ~> St 55; 65 to 70 ~> St 55] (St 0);
  Case 55 [] [58 ~> St 58; 48 to 57 ~> St 56; 97 to 102 ~> St 56; 65 to 70 ~> St 56] (St 0);
  Case 56 [] [58 ~> St 58; 48 to 57 ~> St 57; 97 to 102 ~> St 57; 65 to 70 ~> St 57] (St 0);
  Case 57 [] [58 ~> St 58] (St 0);
  Case 58 [] [58 ~> St 126; 48 to 57 ~> St 59; 97 to 102 ~> St 59; 65 to 70 ~> St 59] (St 0);
  Case 59 [] [58 ~> St 63; 48 to 57 ~> St 60; 97 to 102 ~> St 60; 65 to 70 ~> St 60] (St 0);
  Case 60 [] [58 ~> St 63; 48 to 57 ~> St 61; 97 to 102 ~> St 61; 65 to 70 ~> St 61] (St 0);
  Case 61 [] [58 ~> St 63; 48 to 57 ~> St 62; 97 to 102 ~> St 62; 65 to 70 ~> St 62] (St 0);
  Case 62 [] [58 ~> St 63] (St 0)].

Definition uri_L2156 : list (block action) := [
  Case 63 [] [58 ~> St 113; 48 to 57 ~> St 64; 97 to 102 ~> St 64; 65 to 70 ~> St 64] (St 0);
  Case 64 [] [58 ~> St 68; 48 to 57 ~> St 65; 97 to 102 ~> St 65; 65 to 70 ~> St 65] (St 0);
  Case 65 [] [58 ~> St 68; 48 to 57 ~> St 66; 97 to 102 ~> St 66; 65 to 70 ~> St 66] (St 0);
  Case 66 [] [58 ~> St 68; 48 to 57 ~> St 67; 97 to 102 ~> St 67; 65 to 70 ~> St 67] (St 0);
  Case 67 [] [58 ~> St 68] (St 0);
  Case 68 [] [2 ~> St 69; 48 ~> St 96; 49 ~> St 104; 50 ~> St 107; 58 ~> St 111; 51 to 57 ~> St 110; 97 to 102 ~> St 112; 65 to 70 ~> St 112] (St 0);
  Case 69 [] [48 to 52 ~> St 70] (St 0);
  Case 70 [] [48 to 57 ~> St 71] (St 0);
  Case 71 [] [46 ~> St 72] (St 0);
  Case 72 [] [2 ~> St 73; 48 ~> St 75; 49 ~> St 92; 50 ~> St 94; 51 to 57 ~> St 93] (St 0);
  Case 73 [] [48 to 52 ~> St 74] (St 0);
  Case 74 [] [48 to 57 ~> St 75] (St 0);
  Case 75 [] [46 ~> St 76] (St 0)].

Definition uri_L2298 : list (block action) := [
  Case 76 [] [2 ~> St 77; 48 ~> St 79; 49 ~> St 88; 50 ~> St 90; 51 to 57 ~> St 89] (St 0);
  Case 77 [] [48 to 52 ~> St 78] (St 0);
  Case 78 [] [48 to 57 ~> St 79] (St 0);
  Case 79 [] [46 ~> St 80] (St 0);
  Case 80 [] [2 ~> St 81; 48 ~> St 83; 49 ~> St 84; 50 ~> St 86; 51 to 57 ~> St 85] (St 0);
  Case 81 [] [48 to 52 ~> St 82] (St 0);
  Case 82 [] [48 to 57 ~> St 83] (St 0);
  Case 83 [] [93 ~> St 460] (St 0);
  Case 84 [] [93 ~> St 460; 48 to 57 ~> St 85] (St 0);
  Case 85 [] [93 ~> St 460; 48 to 57 ~> St 83] (St 0);
  Case 86 [] [53 ~> St 87; 93 ~> St 460; 48 to 57 ~> St 83] (St 0);
  Case 87 [] [93 ~> St 460; 48 to 53 ~> St 83] (St 0);
  Case 88 [] [46 ~> St 80; 48 to 57 ~> St 89] (St 0);
  Case 89 [] [46 ~> St 80; 48 to 57 ~> St 79] (St 0);
  Case 90 [] [46 ~> St 80; 53 ~> St 91; 48 to 57 ~> St 79] (St 0);
  Case 91 [] [46 ~> St 80; 48 to 53 ~> St 79] (St 0)].

Definition uri_L2442 : list (block action) := [
  Case 92 [] [46 ~> St 76; 48 to 57 ~> St 93] (St 0);
  Case 93 [] [46 ~> St 76; 48 to 57 ~> St 75] (St 0);
  Case 94 [] [46 ~> St 76; 53 ~> St 95; 48 to 57 ~> St 75] (St 0);
  Case 95 [] [46 ~> St 76; 48 to 53 ~> St 75] (St 0);
  Case 96 [] [46 ~> St 72; 58 ~> St 100; 48 to 57 ~> St 97; 97 to 102 ~> St 97; 65 to 70 ~> St 97] (St 0);
  Case 97 [] [58 ~> St 100; 48 to 57 ~> St 98; 97 to 102 ~> St 98; 65 to 70 ~> St 98] (St 0);
  Case 98 [] [58 ~> St 100; 48 to 57 ~> St 99; 97 to 102 ~> St 99; 65 to 70 ~> St 99] (St 0);
  Case 99 [] [58 ~> St 100] (St 0);
  Case 100 [] [58 ~> St 83; 48 to 57 ~> St 101; 97 to 102 ~> St 101; 65 to 70 ~> St 101] (St 0);
  Case 101 [] [93 ~> St 460; 48 to 57 ~> St 102; 97 to 102 ~> St 102; 65 to 70 ~> St 102] (St 0);
  Case 102 [] [93 ~> St 460; 48 to 57 ~> St 103; 97 to 102 ~> St 103; 65 to 70 ~> St 103] (St 0)].

Definition uri_L2579 : list (block action) := [
  Case 103 [] [93 ~> St 460; 48 to 57 ~> St 83; 97 to 102 ~> St 83; 65 to 70 ~> St 83] (St 0);
  Case 104 [] [46 ~> St 72; 58 ~> St 100; 48 to 57 ~> St 105; 97 to 102 ~> St 97; 65 to 70 ~> St 97] (St 0);
  Case 105 [] [46 ~> St 72; 58 ~> St 100; 48 to 57 ~> St 106; 97 to 102 ~> St 98; 65 to 70 ~> St 98] (St 0);
  Case 106 [] [46 ~> St 72; 58 ~> St 100; 48 to 57 ~> St 99; 97 to 102 ~> St 99; 65 to 70 ~> St 99] (St 0);
  Case 107 [] [46 ~> St 72; 53 ~> St 109; 58 ~> St 100; 48 to 57 ~> St 108; 97 to 102 ~> St 97; 65 to 70 ~> St 97] (St 0);
  Case 108 [] [46 ~> St 72; 58 ~> St 100; 48 to 57 ~> St 98; 97 to 102 ~> St 98; 65 to 70 ~> St 98] (St 0);
  Case 109 [] [46 ~> St 72; 58 ~> St 100; 48 to 53 ~> St 106; 97 to 102 ~> St 98; 65 to 70 ~> St 98; 54 to 57 ~> St 98] (St 0);
  Case 110 [] [46 ~> St 72; 58 ~> St 100; 48 to 57 ~> St 108; 97 to 102 ~> St 97; 65 to 70 ~> St 97] (St 0)].

Definition uri_L2717 : list (block action) := [
  Case 111 [] [48 to 57 ~> St 101; 97 to 102 ~> St 101; 65 to 70 ~> St 101] (St 0);
  Case 112 [] [58 ~> St 100; 48 to 57 ~> St 97; 97 to 102 ~> St 97; 65 to 70 ~> St 97] (St 0);
  Case 113 [] [2 ~> St 69; 48 ~> St 114; 49 ~> St 118; 50 ~> St 121; 51 to 57 ~> St 124; 97 to 102 ~> St 125; 65 to 70 ~> St 125] (St 0);
  Case 114 [] [46 ~> St 72; 58 ~> St 111; 48 to 57 ~> St 115; 97 to 102 ~> St 115; 65 to 70 ~> St 115] (St 0);
  Case 115 [] [58 ~> St 111; 48 to 57 ~> St 116; 97 to 102 ~> St 116; 65 to 70 ~> St 116] (St 0);
  Case 116 [] [58 ~> St 111; 48 to 57 ~> St 117; 97 to 102 ~> St 117; 65 to 70 ~> St 117] (St 0);
  Case 117 [] [58 ~> St 111] (St 0);
  Case 118 [] [46 ~> St 72; 58 ~> St 111; 48 to 57 ~> St 119; 97 to 102 ~> St 115; 65 to 70 ~> St 115] (St 0);
  Case 119 [] [46 ~> St 72; 58 ~> St 111; 48 to 57 ~> St 120; 97 to 102 ~> St 116; 65 to 70 ~> St 116] (St 0)].

Definition uri_L2852 : list (block action) := [
  Case 120 [] [46 ~> St 72; 58 ~> St 111; 48 to 57 ~> St 117; 97 to 102 ~> St 117; 65 to 70 ~> St 117] (St 0);
  Case 121 [] [46 ~> St 72; 53 ~> St 123; 58 ~> St 111; 48 to 57 ~> St 122; 97 to 102 ~> St 115; 65 to 70 ~> St 115] (St 0);
  Case 122 [] [46 ~> St 72; 58 ~> St 111; 48 to 57 ~> St 116; 97 to 102 ~> St 116; 65 to 70 ~> St 116] (St 0);
  Case 123 [] [46 ~> St 72; 58 ~> St 111; 48 to 53 ~> St 120; 97 to 102 ~> St 116; 65 to 70 ~> St 116; 54 to 57 ~> St 116] (St 0);
  Case 124 [] [46 ~> St 72; 58 ~> St 111; 48 to 57 ~> St 122; 97 to 102 ~> St 115; 65 to 70 ~> St 115] (St 0);
  Case 125 [] [58 ~> St 111; 48 to 57 ~> St 115; 97 to 102 ~> St 115; 65 to 70 ~> St 115] (St 0);
  Case 126 [] [48 to 57 ~> St 127; 97 to 102 ~> St 127; 65 to 70 ~> St 127] (St 0);
  Case 127 [] [58 ~> St 113; 48 to 57 ~> St 128; 97 to 102 ~> St 128; 65 to 70 ~> St 128] (St 0);
  Case 128 [] [58 ~> St 113; 48 to 57 ~> St 129; 97 to 102 ~> St 129; 65 to 70 ~> St 129] (St 0)].

Definition uri_L2999 : list (block action) := [
  Case 129 [] [58 ~> St 113; 48 to 57 ~> St 130; 97 to 102 ~> St 130; 65 to 70 ~> St 130] (St 0);
  Case 130 [] [58 ~> St 113] (St 0);
  Case 131 [] [48 to 57 ~> St 132; 97 to 102 ~> St 132; 65 to 70 ~> St 132] (St 0);
  Case 132 [] [58 ~> St 126; 48 to 57 ~> St 133; 97 to 102 ~> St 133; 65 to 70 ~> St 133] (St 0);
  Case 133 [] [58 ~> St 126; 48 to 57 ~> St 134; 97 to 102 ~> St 134; 65 to 70 ~> St 134] (St 0);
  Case 134 [] [58 ~> St 126; 48 to 57 ~> St 135; 97 to 102 ~> St 135; 65 to 70 ~> St 135] (St 0);
  Case 135 [] [58 ~> St 126] (St 0);
  Case 136 [] [48 to 57 ~> St 137; 97 to 102 ~> St 137; 65 to 70 ~> St 137] (St 0);
  Case 137 [] [58 ~> St 131; 48 to 57 ~> St 138; 97 to 102 ~> St 138; 65 to 70 ~> St 138] (St 0);
  Case 138 [] [58 ~> St 131; 48 to 57 ~> St 139; 97 to 102 ~> St 139; 65 to 70 ~> St 139] (St 0);
  Case 139 [] [58 ~> St 131; 48 to 57 ~> St 140; 97 to 102 ~> St 140; 65 to 70 ~> St 140] (St 0)].

Definition uri_L3144 : list (block action) := [
  Case 140 [] [58 ~> St 131] (St 0);
  Case 141 [] [48 to 57 ~> St 142; 97 to 102 ~> St 142; 65 to 70 ~> St 142] (St 0);
  Case 142 [] [58 ~> St 136; 48 to 57 ~> St 143; 97 to 102 ~> St 143; 65 to 70 ~> St 143] (St 0);
  Case 143 [] [58 ~> St 136; 48 to 57 ~> St 144; 97 to 102 ~> St 144; 65 to 70 ~> St 144] (St 0);
  Case 144 [] [58 ~> St 136; 48 to 57 ~> St 145; 97 to 102 ~> St 145; 65 to 70 ~> St 145] (St 0);
  Case 145 [] [58 ~> St 136] (St 0);
  Case 146 [] [58 ~> St 147] (St 0);
  Case 147 [] [2 ~> St 69; 48 ~> St 148; 49 ~> St 217; 50 ~> St 220; 93 ~> St 460; 51 to 57 ~> St 223; 97 to 102 ~> St 224; 65 to 70 ~> St 224] (St 0);
  Case 148 [] [46 ~> St 72; 58 ~> St 152; 93 ~> St 460; 48 to 57 ~> St 149; 97 to 102 ~> St 149; 65 to 70 ~> St 149] (St 0);
  Case 149 [] [58 ~> St 152; 93 ~> St 460; 48 to 57 ~> St 150; 97 to 102 ~> St 150; 65 to 70 ~> St 150] (St 0)].

Definition uri_L3278 : list (block action) := [
  Case 150 [] [58 ~> St 152; 93 ~> St 460; 48 to 57 ~> St 151; 97 to 102 ~> St 151; 65 to 70 ~> St 151] (St 0);
  Case 151 [] [58 ~> St 152; 93 ~> St 460] (St 0);
  Case 152 [] [2 ~> St 69; 48 ~> St 153; 49 ~> St 209; 50 ~> St 212; 51 to 57 ~> St 215; 97 to 102 ~> St 216; 65 to 70 ~> St 216] (St 0);
  Case 153 [] [46 ~> St 72; 58 ~> St 157; 93 ~> St 460; 48 to 57 ~> St 154; 97 to 102 ~> St 154; 65 to 70 ~> St 154] (St 0);
  Case 154 [] [58 ~> St 157; 93 ~> St 460; 48 to 57 ~> St 155; 97 to 102 ~> St 155; 65 to 70 ~> St 155] (St 0);
  Case 155 [] [58 ~> St 157; 93 ~> St 460; 48 to 57 ~> St 156; 97 to 102 ~> St 156; 65 to 70 ~> St 156] (St 0);
  Case 156 [] [58 ~> St 157; 93 ~> St 460] (St 0);
  Case 157 [] [2 ~> St 69; 48 ~> St 158; 49 ~> St 201; 50 ~> St 204; 51 to 57 ~> St 207; 97 to 102 ~> St 208; 65 to 70 ~> St 208] (St 0);
  Case 158 [] [46 ~> St 72; 58 ~> St 162; 93 ~> St 460; 48 to 57 ~> St 159; 97 to 102 ~> St 159; 65 to 70 ~> St 159] (St 0)].

Definition uri_L3421 : list (block action) := [
  Case 159 [] [58 ~> St 162; 93 ~> St 460; 48 to 57 ~> St 160; 97 to 102 ~> St 160; 65 to 70 ~> St 160] (St 0);
  Case 160 [] [58 ~> St 162; 93 ~> St 460; 48 to 57 ~> St 161; 97 to 102 ~> St 161; 65 to 70 ~> St 161] (St 0);
  Case 161 [] [58 ~> St 162; 93 ~> St 460] (St 0);
  Case 162 [] [2 ~> St 69; 48 ~> St 163; 49 ~> St 193; 50 ~> St 196; 51 to 57 ~> St 199; 97 to 102 ~> St 200; 65 to 70 ~> St 200] (St 0);
  Case 163 [] [46 ~> St 72; 58 ~> St 167; 93 ~> St 460; 48 to 57 ~> St 164; 97 to 102 ~> St 164; 65 to 70 ~> St 164] (St 0);
  Case 164 [] [58 ~> St 167; 93 ~> St 460; 48 to 57 ~> St 165; 97 to 102 ~> St 165; 65 to 70 ~> St 165] (St 0);
  Case 165 [] [58 ~> St 167; 93 ~> St 460; 48 to 57 ~> St 166; 97 to 102 ~> St 166; 65 to 70 ~> St 166] (St 0);
  Case 166 [] [58 ~> St 167; 93 ~> St 460] (St 0);
  Case 167 [] [2 ~> St 69; 48 ~> St 168; 49 ~> St 185; 50 ~> St 188; 51 to 57 ~> St 191; 97 to 102 ~> St 192; 65 to 70 ~> St 192] (St 0)].

Definition uri_L3563 : list (block action) := [
  Case 168 [] [46 ~> St 72; 58 ~> St 172; 93 ~> St 460; 48 to 57 ~> St 169; 97 to 102 ~> St 169; 65 to 70 ~> St 169] (St 0);
  Case 169 [] [58 ~> St 172; 93 ~> St 460; 48 to 57 ~> St 170; 97 to 102 ~> St 170; 65 to 70 ~> St 170] (St 0);
  Case 170 [] [58 ~> St 172; 93 ~> St 460; 48 to 57 ~> St 171; 97 to 102 ~> St 171; 65 to 70 ~> St 171] (St 0);
  Case 171 [] [58 ~> St 172; 93 ~> St 460] (St 0);
  Case 172 [] [2 ~> St 69; 48 ~> St 173; 49 ~> St 177; 50 ~> St 180; 51 to 57 ~> St 183; 97 to 102 ~> St 184; 65 to 70 ~> St 184] (St 0);
  Case 173 [] [46 ~> St 72; 58 ~> St 111; 93 ~> St 460; 48 to 57 ~> St 174; 97 to 102 ~> St 174; 65 to 70 ~> St 174] (St 0);
  Case 174 [] [58 ~> St 111; 93 ~> St 460; 48 to 57 ~> St 175; 97 to 102 ~> St 175; 65 to 70 ~> St 175] (St 0);
  Case 175 [] [58 ~> St 111; 93 ~> St 460; 48 to 57 ~> St 176; 97 to 102 ~> St 176; 65 to 70 ~> St 176] (St 0);
  Case 176 [] [58 ~> St 111; 93 ~> St 460] (St 0)].

Definition uri_L3704 : list (block action) := [
  Case 177 [] [46 ~> St 72; 58 ~> St 111; 93 ~> St 460; 48 to 57 ~> St 178; 97 to 102 ~> St 174; 65 to 70 ~> St 174] (St 0);
  Case 178 [] [46 ~> St 72; 58 ~> St 111; 93 ~> St 460; 48 to 57 ~> St 179; 97 to 102 ~> St 175; 65 to 70 ~> St 175] (St 0);
  Case 179 [] [46 ~> St 72; 58 ~> St 111; 93 ~> St 460; 48 to 57 ~> St 176; 97 to 102 ~> St 176; 65 to 70 ~> St 176] (St 0);
  Case 180 [] [46 ~> St 72; 53 ~> St 182; 58 ~> St 111; 93 ~> St 460; 48 to 57 ~> St 181; 97 to 102 ~> St 174; 65 to 70 ~> St 174] (St 0);
  Case 181 [] [46 ~> St 72; 58 ~> St 111; 93 ~> St 460; 48 to 57 ~> St 175; 97 to 102 ~> St 175; 65 to 70 ~> St 175] (St 0);
  Case 182 [] [46 ~> St 72; 58 ~> St 111; 93 ~> St 460; 48 to 53 ~> St 179; 97 to 102 ~> St 175; 65 to 70 ~> St 175; 54 to 57 ~> St 175] (St 0);
  Case 183 [] [46 ~> St 72; 58 ~> St 111; 93 ~> St 460; 48 to 57 ~> St 181; 97 to 102 ~> St 174; 65 to 70 ~> St 174] (St 0);
  Case 184 [] [58 ~> St 111; 93 ~> St 460; 48 to 57 ~> St 174; 97 to 102 ~> St 174; 65 to 70 ~> St 174] (St 0)].

Definition uri_L3851 : list (block action) := [
  Case 185 [] [46 ~> St 72; 58 ~> St 172; 93 ~> St 460; 48 to 57 ~> St 186; 97 to 102 ~> St 169; 65 to 70 ~> St 169] (St 0);
  Case 186 [] [46 ~> St 72; 58 ~> St 172; 93 ~> St 460; 48 to 57 ~> St 187; 97 to 102 ~> St 170; 65 to 70 ~> St 170] (St 0);
  Case 187 [] [46 ~> St 72; 58 ~> St 172; 93 ~> St 460; 48 to 57 ~> St 171; 97 to 102 ~> St 171; 65 to 70 ~> St 171] (St 0);
  Case 188 [] [46 ~> St 72; 53 ~> St 190; 58 ~> St 172; 93 ~> St 460; 48 to 57 ~> St 189; 97 to 102 ~> St 169; 65 to 70 ~> St 169] (St 0);
  Case 189 [] [46 ~> St 72; 58 ~> St 172; 93 ~> St 460; 48 to 57 ~> St 170; 97 to 102 ~> St 170; 65 to 70 ~> St 170] (St 0);
  Case 190 [] [46 ~> St 72; 58 ~> St 172; 93 ~> St 460; 48 to 53 ~> St 187; 97 to 102 ~> St 170; 65 to 70 ~> St 170; 54 to 57 ~> St 170] (St 0);
  Case 191 [] [46 ~> St 72; 58 ~> St 172; 93 ~> St 460; 48 to 57 ~> St 189; 97 to 102 ~> St 169; 65 to 70 ~> St 169] (St 0);
  Case 192 [] [58 ~> St 172; 93 ~> St 460; 48 to 57 ~> St 169; 97 to 102 ~> St 169; 65 to 70 ~> St 169] (St 0)].

Definition uri_L3998 : list (block action) := [
  Case 193 [] [46 ~> St 72; 58 ~> St 167; 93 ~> St 460; 48 to 57 ~> St 194; 97 to 102 ~> St 164; 65 to 70 ~> St 164] (St 0);
  Case 194 [] [46 ~> St 72; 58 ~> St 167; 93 ~> St 460; 48 to 57 ~> St 195; 97 to 102 ~> St 165; 65 to 70 ~> St 165] (St 0);
  Case 195 [] [46 ~> St 72; 58 ~> St 167; 93 ~> St 460; 48 to 57 ~> St 166; 97 to 102 ~> St 166; 65 to 70 ~> St 166] (St 0);
  Case 196 [] [46 ~> St 72; 53 ~> St 198; 58 ~> St 167; 93 ~> St 460; 48 to 57 ~> St 197; 97 to 102 ~> St 164; 65 to 70 ~> St 164] (St 0);
  Case 197 [] [46 ~> St 72; 58 ~> St 167; 93 ~> St 460; 48 to 57 ~> St 165; 97 to 102 ~> St 165; 65 to 70 ~> St 165] (St 0);
  Case 198 [] [46 ~> St 72; 58 ~> St 167; 93 ~> St 460; 48 to 53 ~> St 195; 97 to 102 ~> St 165; 65 to 70 ~> St 165; 54 to 57 ~> St 165] (St 0);
  Case 199 [] [46 ~> St 72; 58 ~> St 167; 93 ~> St 460; 48 to 57 ~> St 197; 97 to 102 ~> St 164; 65 to 70 ~> St 164] (St 0);
  Case 200 [] [58 ~> St 167; 93 ~> St 460; 48 to 57 ~> St 164; 97 to 102 ~> St 164; 65 to 70 ~> St 164] (St 0)].

Definition uri_L4145 : list (block action) := [
  Case 201 [] [46 ~> St 72; 58 ~> St 162; 93 ~> St 460; 48 to 57 ~> St 202; 97 to 102 ~> St 159; 65 to 70 ~> St 159] (St 0);
  Case 202 [] [46 ~> St 72; 58 ~> St 162; 93 ~> St 460; 48 to 57 ~> St 203; 97 to 102 ~> St 160; 65 to 70 ~> St 160] (St 0);
  Case 203 [] [46 ~> St 72; 58 ~> St 162; 93 ~> St 460; 48 to 57 ~> St 161; 97 to 102 ~> St 161; 65 to 70 ~> St 161] (St 0);
  Case 204 [] [46 ~> St 72; 53 ~> St 206; 58 ~> St 162; 93 ~> St 460; 48 to 57 ~> St 205; 97 to 102 ~> St 159; 65 to 70 ~> St 159] (St 0);
  Case 205 [] [46 ~> St 72; 58 ~> St 162; 93 ~> St 460; 48 to 57 ~> St 160; 97 to 102 ~> St 160; 65 to 70 ~> St 160] (St 0);
  Case 206 [] [46 ~> St 72; 58 ~> St 162; 93 ~> St 460; 48 to 53 ~> St 203; 97 to 102 ~> St 160; 65 to 70 ~> St 160; 54 to 57 ~> St 160] (St 0);
  Case 207 [] [46 ~> St 72; 58 ~> St 162; 93 ~> St 460; 48 to 57 ~> St 205; 97 to 102 ~> St 159; 65 to 70 ~> St 159] (St 0);
  Case 208 [] [58 ~> St 162; 93 ~> St 460; 48 to 57 ~> St 159; 97 to 102 ~> St 159; 65 to 70 ~> St 159] (St 0)].

Definition uri_L4292 : list (block action) := [
  Case 209 [] [46 ~> St 72; 58 ~> St 157; 93 ~> St 460; 48 to 57 ~> St 210; 97 to 102 ~> St 154; 65 to 70 ~> St 154] (St 0);
  Case 210 [] [46 ~> St 72; 58 ~> St 157; 93 ~> St 460; 48 to 57 ~> St 211; 97 to 102 ~> St 155; 65 to 70 ~> St 155] (St 0);
  Case 211 [] [46 ~> St 72; 58 ~> St 157; 93 ~> St 460; 48 to 57 ~> St 156; 97 to 102 ~> St 156; 65 to 70 ~> St 156] (St 0);
  Case 212 [] [46 ~> St 72; 53 ~> St 214; 58 ~> St 157; 93 ~> St 460; 48 to 57 ~> St 213; 97 to 102 ~> St 154; 65 to 70 ~> St 154] (St 0);
  Case 213 [] [46 ~> St 72; 58 ~> St 157; 93 ~> St 460; 48 to 57 ~> St 155; 97 to 102 ~> St 155; 65 to 70 ~> St 155] (St 0);
  Case 214 [] [46 ~> St 72; 58 ~> St 157; 93 ~> St 460; 48 to 53 ~> St 211; 97 to 102 ~> St 155; 65 to 70 ~> St 155; 54 to 57 ~> St 155] (St 0);
  Case 215 [] [46 ~> St 72; 58 ~> St 157; 93 ~> St 460; 48 to 57 ~> St 213; 97 to 102 ~> St 154; 65 to 70 ~> St 154] (St 0);
  Case 216 [] [58 ~> St 157; 93 ~> St 460; 48 to 57 ~> St 154; 97 to 102 ~> St 154; 65 to 70 ~> St 154] (St 0)].

Definition uri_L4439 : list (block action) := [
  Case 217 [] [46 ~> St 72; 58 ~> St 152; 93 ~> St 460; 48 to 57 ~> St 218; 97 to 102 ~> St 149; 65 to 70 ~> St 149] (St 0);
  Case 218 [] [46 ~> St 72; 58 ~> St 152; 93 ~> St 460; 48 to 57 ~> St 219; 97 to 102 ~> St 150; 65 to 70 ~> St 150] (St 0);
  Case 219 [] [46 ~> St 72; 58 ~> St 152; 93 ~> St 460; 48 to 57 ~> St 151; 97 to 102 ~> St 151; 65 to 70 ~> St 151] (St 0);
  Case 220 [] [46 ~> St 72; 53 ~> St 222; 58 ~> St 152; 93 ~> St 460; 48 to 57 ~> St 221; 97 to 102 ~> St 149; 65 to 70 ~> St 149] (St 0);
  Case 221 [] [46 ~> St 72; 58 ~> St 152; 93 ~> St 460; 48 to 57 ~> St 150; 97 to 102 ~> St 150; 65 to 70 ~> St 150] (St 0);
  Case 222 [] [46 ~> St 72; 58 ~> St 152; 93 ~> St 460; 48 to 53 ~> St 219; 97 to 102 ~> St 150; 65 to 70 ~> St 150; 54 to 57 ~> St 150] (St 0);
  Case 223 [] [46 ~> St 72; 58 ~> St 152; 93 ~> St 460; 48 to 57 ~> St 221; 97 to 102 ~> St 149; 65 to 70 ~> St 149] (St 0);
  Case 224 [] [58 ~> St 152; 93 ~> St 460; 48 to 57 ~> St 149; 97 to 102 ~> St 149; 65 to 70 ~> St 149] (St 0)].

Definition uri_L4586 : list (block action) := [
  Case 225 [] [48 to 57 ~> St 226; 97 to 102 ~> St 226; 65 to 70 ~> St 226] (St 0);
  Case 226 [] [46 ~> St 227; 48 to 57 ~> St 226; 97 to 102 ~> St 226; 65 to 70 ~> St 226] (St 0);
  Case 227 [] [33 ~> St 228; 36 ~> St 228; 61 ~> St 228; 95 ~> St 228; 126 ~> St 228; 38 to 46 ~> St 228; 97 to 122 ~> St 228; 65 to 90 ~> St 228;
    48 to 59 ~> St 228] (St 0);
  Case 228 [] [33 ~> St 228; 36 ~> St 228; 61 ~> St 228; 93 ~> St 460; 95 ~> St 228; 126 ~> St 228; 38 to 46 ~> St 228; 97 to 122 ~> St 228;
    65 to 90 ~> St 228; 48 to 59 ~> St 228] (St 0);
  Label 500 [markh] 489;
  Case 489 [] [33 ~> St 33; 35 ~> Tr 493; 37 ~> St 34; 47 ~> Tr 494; 61 ~> St 33; 63 ~> Tr 496; 64 ~> Tr 38; 95 ~> St 33; 126 ~> St 33;
    48 to 57 ~> St 489; 36 to 46 ~> St 33; 97 to 122 ~> St 33; 65 to 90 ~> St 33; 58 to 59 ~> St 33] (St 0);
  Label 477 [markh] 490;
  Case 490 [] [33 ~> St 467; 35 ~> Tr 485; 37 ~> St 31; 46 ~> St 491; 47 ~> Tr 486; 58 ~> Tr 499; 61 ~> St 467; 63 ~> Tr 488; 64 ~> Tr 38; 95 ~> St 467;
    126 ~> St 467; 36 to 59 ~> St 467; 97 to 122 ~> St 467; 65 to 90 ~> St 467] (St 0)].

Definition uri_L4727 : list (block action) := [
  Case 491 [] [2 ~> St 13; 33 ~> St 467; 35 ~> Tr 485; 37 ~> St 31; 47 ~> Tr 486; 48 ~> St 492; 49 ~> St 500; 50 ~> St 502; 58 ~> Tr 499; 59 ~> St 467;
    61 ~> St 467; 63 ~> Tr 488; 64 ~> Tr 38; 95 ~> St 467; 126 ~> St 467; 36 to 46 ~> St 467; 97 to 122 ~> St 467; 65 to 90 ~> St 467;
    51 to 57 ~> St 501] (St 0);
  Case 492 [] [33 ~> St 467; 35 ~> Tr 485; 37 ~> St 31; 46 ~> St 493; 47 ~> Tr 486; 58 ~> Tr 499; 61 ~> St 467; 63 ~> Tr 488; 64 ~> Tr 38; 95 ~> St 467;
    126 ~> St 467; 36 to 59 ~> St 467; 97 to 122 ~> St 467; 65 to 90 ~> St 467] (St 0);
  Case 493 [] [2 ~> St 17; 33 ~> St 467; 35 ~> Tr 485; 37 ~> St 31; 47 ~> Tr 486; 48 ~> St 494; 49 ~> St 496; 50 ~> St 498; 58 ~> Tr 499; 59 ~> St 467;
    61 ~> St 467; 63 ~> Tr 488; 64 ~> Tr 38; 95 ~> St 467; 126 ~> St 467; 36 to 46 ~> St 467; 97 to 122 ~> St 467; 65 to 90 ~> St 467;
    51 to 57 ~> St 497] (St 0);
  Case 494 [] [33 ~> St 467; 35 ~> Tr 485; 37 ~> St 31; 46 ~> St 495; 47 ~> Tr 486; 58 ~> Tr 499; 61 ~> St 467; 63 ~> Tr 488; 64 ~> Tr 38; 95 ~> St 467;
    126 ~> St 467; 36 to 59 ~> St 467; 97 to 122 ~> St 467; 65 to 90 ~> St 467] (St 0);
  Case 495 [] [2 ~> St 21; 33 ~> St 467; 35 ~> Tr 485; 37 ~> St 31; 47 ~> Tr 486; 58 ~> Tr 499; 61 ~> St 467; 63 ~> Tr 488; 64 ~> Tr 38; 95 ~> St 467;
    126 ~> St 467; 36 to 59 ~> St 467; 97 to 122 ~> St 467; 65 to 90 ~> St 467] (St 0)].

Definition uri_L4871 : list (block action) := [
  Case 496 [] [33 ~> St 467; 35 ~> Tr 485; 37 ~> St 31; 46 ~> St 495; 47 ~> Tr 486; 58 ~> Tr 499; 59 ~> St 467; 61 ~> St 467; 63 ~> Tr 488; 64 ~> Tr 38;
    95 ~> St 467; 126 ~> St 467; 36 to 45 ~> St 467; 97 to 122 ~> St 467; 65 to 90 ~> St 467; 48 to 57 ~> St 497] (St 0);
  Case 497 [] [33 ~> St 467; 35 ~> Tr 485; 37 ~> St 31; 46 ~> St 495; 47 ~> Tr 486; 58 ~> Tr 499; 59 ~> St 467; 61 ~> St 467; 63 ~> Tr 488; 64 ~> Tr 38;
    95 ~> St 467; 126 ~> St 467; 36 to 45 ~> St 467; 97 to 122 ~> St 467; 65 to 90 ~> St 467; 48 to 57 ~> St 494] (St 0);
  Case 498 [] [33 ~> St 467; 35 ~> Tr 485; 37 ~> St 31; 46 ~> St 495; 47 ~> Tr 486; 53 ~> St 499; 58 ~> Tr 499; 59 ~> St 467; 61 ~> St 467;
    63 ~> Tr 488; 64 ~> Tr 38; 95 ~> St 467; 126 ~> St 467; 36 to 45 ~> St 467; 97 to 122 ~> St 467; 65 to 90 ~> St 467; 48 to 57 ~> St 494] (St 0);
  Case 499 [] [33 ~> St 467; 35 ~> Tr 485; 37 ~> St 31; 46 ~> St 495; 47 ~> Tr 486; 58 ~> Tr 499; 61 ~> St 467; 63 ~> Tr 488; 64 ~> Tr 38; 95 ~> St 467;
    126 ~> St 467; 48 to 53 ~> St 494; 36 to 45 ~> St 467; 97 to 122 ~> St 467; 65 to 90 ~> St 467; 54 to 59 ~> St 467] (St 0)].

Definition uri_L4994 : list (block action) := [
  Case 500 [] [33 ~> St 467; 35 ~> Tr 485; 37 ~> St 31; 46 ~> St 493; 47 ~> Tr 486; 58 ~> Tr 499; 59 ~> St 467; 61 ~> St 467; 63 ~> Tr 488; 64 ~> Tr 38;
    95 ~> St 467; 126 ~> St 467; 36 to 45 ~> St 467; 97 to 122 ~> St 467; 65 to 90 ~> St 467; 48 to 57 ~> St 501] (St 0);
  Case 501 [] [33 ~> St 467; 35 ~> Tr 485; 37 ~> St 31; 46 ~> St 493; 47 ~> Tr 486; 58 ~> Tr 499; 59 ~> St 467; 61 ~> St 467; 63 ~> Tr 488; 64 ~> Tr 38;
    95 ~> St 467; 126 ~> St 467; 36 to 45 ~> St 467; 97 to 122 ~> St 467; 65 to 90 ~> St 467; 48 to 57 ~> St 492] (St 0);
  Case 502 [] [33 ~> St 467; 35 ~> Tr 485; 37 ~> St 31; 46 ~> St 493; 47 ~> Tr 486; 53 ~> St 503; 58 ~> Tr 499; 59 ~> St 467; 61 ~> St 467;
    63 ~> Tr 488; 64 ~> Tr 38; 95 ~> St 467; 126 ~> St 467; 36 to 45 ~> St 467; 97 to 122 ~> St 467; 65 to 90 ~> St 467; 48 to 57 ~> St 492] (St 0);
  Case 503 [] [33 ~> St 467; 35 ~> Tr 485; 37 ~> St 31; 46 ~> St 493; 47 ~> Tr 486; 58 ~> Tr 499; 61 ~> St 467; 63 ~> Tr 488; 64 ~> Tr 38; 95 ~> St 467;
    126 ~> St 467; 48 to 53 ~> St 492; 36 to 45 ~> St 467; 97 to 122 ~> St 467; 65 to 90 ~> St 467; 54 to 59 ~> St 467] (St 0);
  Label 478 [markh] 504].

Definition uri_L5121 : list (block action) := [
  Case 504 [] [33 ~> St 467; 35 ~> Tr 485; 37 ~> St 31; 46 ~> St 491; 47 ~> Tr 486; 58 ~> Tr 499; 59 ~> St 467; 61 ~> St 467; 63 ~> Tr 488; 64 ~> Tr 38;
    95 ~> St 467; 126 ~> St 467; 36 to 45 ~> St 467; 97 to 122 ~> St 467; 65 to 90 ~> St 467; 48 to 57 ~> St 505] (St 0);
  Label 480 [markh] 505;
  Case 505 [] [33 ~> St 467; 35 ~> Tr 485; 37 ~> St 31; 46 ~> St 491; 47 ~> Tr 486; 58 ~> Tr 499; 59 ~> St 467; 61 ~> St 467; 63 ~> Tr 488; 64 ~> Tr 38;
    95 ~> St 467; 126 ~> St 467; 36 to 45 ~> St 467; 97 to 122 ~> St 467; 65 to 90 ~> St 467; 48 to 57 ~> St 490] (St 0);
  Label 479 [markh] 506;
  Case 506 [] [33 ~> St 467; 35 ~> Tr 485; 37 ~> St 31; 46 ~> St 491; 47 ~> Tr 486; 53 ~> St 507; 58 ~> Tr 499; 59 ~> St 467; 61 ~> St 467;
    63 ~> Tr 488; 64 ~> Tr 38; 95 ~> St 467; 126 ~> St 467; 36 to 45 ~> St 467; 97 to 122 ~> St 467; 65 to 90 ~> St 467; 48 to 57 ~> St 490] (St 0);
  Case 507 [] [33 ~> St 467; 35 ~> Tr 485; 37 ~> St 31; 46 ~> St 491; 47 ~> Tr 486; 58 ~> Tr 499; 61 ~> St 467; 63 ~> Tr 488; 64 ~> Tr 38; 95 ~> St 467;
    126 ~> St 467; 48 to 53 ~> St 490; 36 to 45 ~> St 467; 97 to 122 ~> St 467; 65 to 90 ~> St 467; 54 to 59 ~> St 467] (St 0);
  Label 461 [marku] 508].

Definition uri_L5259 : list (block action) := [
  Case 508 [] [34 ~> St 0; 35 ~> St 453; 37 ~> St 3; 43 ~> St 508; 47 ~> St 455; 58 ~> Tr 543; 60 ~> St 0; 62 ~> St 0; 63 ~> St 456; 96 ~> St 0;
    127 ~> St 0; 45 to 57 ~> St 508; 0 to 32 ~> St 0; 91 to 94 ~> St 0; 123 to 125 ~> St 0; 97 to 122 ~> St 508; 65 to 90 ~> St 508] (St 452);
  Label 543 [save_scheme] 509;
  Case 509 [] [34 ~> St 0; 35 ~> St 453; 37 ~> St 5; 47 ~> St 510; 60 ~> St 0; 62 ~> St 0; 63 ~> St 456; 96 ~> St 0; 127 ~> St 0; 0 to 32 ~> St 0;
    123 to 125 ~> St 0; 91 to 94 ~> St 0] (St 455);
  Case 510 [] [34 ~> St 0; 35 ~> St 453; 37 ~> St 5; 47 ~> St 511; 60 ~> St 0; 62 ~> St 0; 63 ~> St 456; 96 ~> St 0; 127 ~> St 0; 0 to 32 ~> St 0;
    123 to 125 ~> St 0; 91 to 94 ~> St 0] (St 455);
  Case 511 [] [2 ~> Tr 546; 33 ~> Tr 547; 35 ~> Tr 548; 37 ~> Tr 549; 47 ~> Tr 550; 48 ~> Tr 551; 49 ~> Tr 552; 50 ~> Tr 553; 58 ~> Tr 555;
    59 ~> Tr 547; 61 ~> Tr 547; 63 ~> Tr 556; 64 ~> Tr 557; 91 ~> Tr 558; 95 ~> Tr 547; 126 ~> Tr 547; 36 to 46 ~> Tr 547; 97 to 122 ~> Tr 547;
    65 to 90 ~> Tr 547; 51 to 57 ~> Tr 554] (St 0);
  Label 546 [markh] 229;
  Case 229 [] [48 to 52 ~> St 230] (St 0);
  Case 230 [] [48 to 57 ~> St 231] (St 0)].

Definition uri_L5404 : list (block action) := [
  Case 231 [] [46 ~> St 232] (St 0);
  Case 232 [] [2 ~> St 233; 48 ~> St 235; 49 ~> St 249; 50 ~> St 251; 51 to 57 ~> St 250] (St 0);
  Case 233 [] [48 to 52 ~> St 234] (St 0);
  Case 234 [] [48 to 57 ~> St 235] (St 0);
  Case 235 [] [46 ~> St 236] (St 0);
  Case 236 [] [2 ~> St 237; 48 ~> St 239; 49 ~> St 245; 50 ~> St 247; 51 to 57 ~> St 246] (St 0);
  Case 237 [] [48 to 52 ~> St 238] (St 0);
  Case 238 [] [48 to 57 ~> St 239] (St 0);
  Case 239 [] [46 ~> St 240] (St 0);
  Case 240 [] [2 ~> St 241; 48 ~> St 512; 49 ~> St 516; 50 ~> St 518; 51 to 57 ~> St 517] (St 0);
  Case 241 [] [48 to 52 ~> St 242] (St 0);
  Case 242 [] [48 to 57 ~> St 512] (St 0);
  Case 512 [] [35 ~> Tr 559; 47 ~> Tr 560; 58 ~> Tr 561; 63 ~> Tr 562] (St 0);
  Label 550 [markh; save_host] 513;
  Label 567 [markh; save_port] 513;
  Label 560 [save_host; markh] 513].

Definition uri_L5550 : list (block action) := [
  Label 571 [save_port; markh] 513;
  Case 513 [] [34 ~> St 0; 35 ~> Tr 563; 37 ~> St 243; 60 ~> St 0; 62 ~> St 0; 63 ~> Tr 565; 96 ~> St 0; 127 ~> St 0; 0 to 32 ~> St 0;
    123 to 125 ~> St 0; 91 to 94 ~> St 0] (St 513);
  Case 243 [] [48 to 57 ~> St 244; 97 to 102 ~> St 244; 65 to 70 ~> St 244] (St 0);
  Case 244 [] [48 to 57 ~> St 513; 97 to 102 ~> St 513; 65 to 70 ~> St 513] (St 0);
  Label 584 [markh; save_host] 514;
  Label 561 [save_host] 514;
  Case 514 [] [35 ~> Tr 566; 47 ~> Tr 567; 63 ~> Tr 569; 48 to 57 ~> Tr 568] (St 0);
  Label 568 [markh] 515;
  Case 515 [] [35 ~> Tr 570; 47 ~> Tr 571; 63 ~> Tr 573; 48 to 57 ~> St 515] (St 0);
  Case 516 [] [35 ~> Tr 559; 47 ~> Tr 560; 58 ~> Tr 561; 63 ~> Tr 562; 48 to 57 ~> St 517] (St 0);
  Case 517 [] [35 ~> Tr 559; 47 ~> Tr 560; 58 ~> Tr 561; 63 ~> Tr 562; 48 to 57 ~> St 512] (St 0)].

Definition uri_L5687 : list (block action) := [
  Case 518 [] [35 ~> Tr 559; 47 ~> Tr 560; 53 ~> St 519; 58 ~> Tr 561; 63 ~> Tr 562; 48 to 57 ~> St 512] (St 0);
  Case 519 [] [35 ~> Tr 559; 47 ~> Tr 560; 58 ~> Tr 561; 63 ~> Tr 562; 48 to 53 ~> St 512] (St 0);
  Case 245 [] [46 ~> St 240; 48 to 57 ~> St 246] (St 0);
  Case 246 [] [46 ~> St 240; 48 to 57 ~> St 239] (St 0);
  Case 247 [] [46 ~> St 240; 53 ~> St 248; 48 to 57 ~> St 239] (St 0);
  Case 248 [] [46 ~> St 240; 48 to 53 ~> St 239] (St 0);
  Case 249 [] [46 ~> St 236; 48 to 57 ~> St 250] (St 0);
  Case 250 [] [46 ~> St 236; 48 to 57 ~> St 235] (St 0);
  Case 251 [] [46 ~> St 236; 53 ~> St 252; 48 to 57 ~> St 235] (St 0);
  Case 252 [] [46 ~> St 236; 48 to 53 ~> St 235] (St 0);
  Label 547 [markh] 520;
  Case 520 [] [33 ~> St 520; 35 ~> Tr 559; 37 ~> St 253; 47 ~> Tr 560; 58 ~> Tr 576; 61 ~> St 520; 63 ~> Tr 562; 64 ~> Tr 263; 95 ~> St 520;
    126 ~> St 520; 36 to 59 ~> St 520; 97 to 122 ~> St 520; 65 to 90 ~> St 520] (St 0);
  Label 549 [markh] 253].

Definition uri_L5824 : list (block action) := [
  Case 253 [] [48 to 57 ~> St 254; 97 to 102 ~> St 254; 65 to 70 ~> St 254] (St 0);
  Case 254 [] [48 to 57 ~> St 520; 97 to 102 ~> St 520; 65 to 70 ~> St 520] (St 0);
  Label 555 [markh; save_host] 521;
  Label 576 [save_host] 521;
  Case 521 [] [33 ~> St 255; 35 ~> Tr 566; 37 ~> St 256; 47 ~> Tr 567; 61 ~> St 255; 63 ~> Tr 569; 64 ~> Tr 263; 95 ~> St 255; 126 ~> St 255;
    48 to 57 ~> Tr 577; 36 to 46 ~> St 255; 97 to 122 ~> St 255; 65 to 90 ~> St 255; 58 to 59 ~> St 255] (St 0);
  Case 255 [] [33 ~> St 255; 37 ~> St 256; 61 ~> St 255; 64 ~> Tr 263; 95 ~> St 255; 126 ~> St 255; 36 to 46 ~> St 255; 97 to 122 ~> St 255;
    65 to 90 ~> St 255; 48 to 59 ~> St 255] (St 0);
  Case 256 [] [48 to 57 ~> St 257; 97 to 102 ~> St 257; 65 to 70 ~> St 257] (St 0);
  Case 257 [] [48 to 57 ~> St 255; 97 to 102 ~> St 255; 65 to 70 ~> St 255] (St 0);
  Label 263 [save_userinfo] 522;
  Label 557 [markh; save_userinfo] 522].

Definition uri_L5974 : list (block action) := [
  Case 522 [] [2 ~> Tr 546; 33 ~> Tr 578; 35 ~> Tr 548; 37 ~> Tr 579; 47 ~> Tr 550; 48 ~> Tr 580; 49 ~> Tr 581; 50 ~> Tr 582; 58 ~> Tr 584;
    59 ~> Tr 578; 61 ~> Tr 578; 63 ~> Tr 556; 91 ~> Tr 558; 95 ~> Tr 578; 126 ~> Tr 578; 36 to 46 ~> Tr 578; 97 to 122 ~> Tr 578; 65 to 90 ~> Tr 578;
    51 to 57 ~> Tr 583] (St 0);
  Label 578 [markh] 523;
  Case 523 [] [33 ~> St 523; 35 ~> Tr 559; 37 ~> St 258; 47 ~> Tr 560; 58 ~> Tr 561; 61 ~> St 523; 63 ~> Tr 562; 95 ~> St 523; 126 ~> St 523;
    36 to 59 ~> St 523; 97 to 122 ~> St 523; 65 to 90 ~> St 523] (St 0);
  Label 579 [markh] 258;
  Case 258 [] [48 to 57 ~> St 259; 97 to 102 ~> St 259; 65 to 70 ~> St 259] (St 0);
  Case 259 [] [48 to 57 ~> St 523; 97 to 102 ~> St 523; 65 to 70 ~> St 523] (St 0);
  Label 580 [markh] 524;
  Case 524 [] [33 ~> St 523; 35 ~> Tr 559; 37 ~> St 258; 46 ~> St 525; 47 ~> Tr 560; 58 ~> Tr 561; 61 ~> St 523; 63 ~> Tr 562; 95 ~> St 523;
    126 ~> St 523; 36 to 59 ~> St 523; 97 to 122 ~> St 523; 65 to 90 ~> St 523] (St 0)].

Definition uri_L6098 : list (block action) := [
  Case 525 [] [2 ~> St 233; 33 ~> St 523; 35 ~> Tr 559; 37 ~> St 258; 47 ~> Tr 560; 48 ~> St 526; 49 ~> St 534; 50 ~> St 536; 58 ~> Tr 561;
    59 ~> St 523; 61 ~> St 523; 63 ~> Tr 562; 95 ~> St 523; 126 ~> St 523; 36 to 46 ~> St 523; 97 to 122 ~> St 523; 65 to 90 ~> St 523;
    51 to 57 ~> St 535] (St 0);
  Case 526 [] [33 ~> St 523; 35 ~> Tr 559; 37 ~> St 258; 46 ~> St 527; 47 ~> Tr 560; 58 ~> Tr 561; 61 ~> St 523; 63 ~> Tr 562; 95 ~> St 523;
    126 ~> St 523; 36 to 59 ~> St 523; 97 to 122 ~> St 523; 65 to 90 ~> St 523] (St 0);
  Case 527 [] [2 ~> St 237; 33 ~> St 523; 35 ~> Tr 559; 37 ~> St 258; 47 ~> Tr 560; 48 ~> St 528; 49 ~> St 530; 50 ~> St 532; 58 ~> Tr 561;
    59 ~> St 523; 61 ~> St 523; 63 ~> Tr 562; 95 ~> St 523; 126 ~> St 523; 36 to 46 ~> St 523; 97 to 122 ~> St 523; 65 to 90 ~> St 523;
    51 to 57 ~> St 531] (St 0);
  Case 528 [] [33 ~> St 523; 35 ~> Tr 559; 37 ~> St 258; 46 ~> St 529; 47 ~> Tr 560; 58 ~> Tr 561; 61 ~> St 523; 63 ~> Tr 562; 95 ~> St 523;
    126 ~> St 523; 36 to 59 ~> St 523; 97 to 122 ~> St 523; 65 to 90 ~> St 523] (St 0);
  Case 529 [] [2 ~> St 241; 33 ~> St 523; 35 ~> Tr 559; 37 ~> St 258; 47 ~> Tr 560; 58 ~> Tr 561; 61 ~> St 523; 63 ~> Tr 562; 95 ~> St 523;
    126 ~> St 523; 36 to 59 ~> St 523; 97 to 122 ~> St 523; 65 to 90 ~> St 523] (St 0)].

Definition uri_L6237 : list (block action) := [
  Case 530 [] [33 ~> St 523; 35 ~> Tr 559; 37 ~> St 258; 46 ~> St 529; 47 ~> Tr 560; 58 ~> Tr 561; 59 ~> St 523; 61 ~> St 523; 63 ~> Tr 562;
    95 ~> St 523; 126 ~> St 523; 36 to 45 ~> St 523; 97 to 122 ~> St 523; 65 to 90 ~> St 523; 48 to 57 ~> St 531] (St 0);
  Case 531 [] [33 ~> St 523; 35 ~> Tr 559; 37 ~> St 258; 46 ~> St 529; 47 ~> Tr 560; 58 ~> Tr 561; 59 ~> St 523; 61 ~> St 523; 63 ~> Tr 562;
    95 ~> St 523; 126 ~> St 523; 36 to 45 ~> St 523; 97 to 122 ~> St 523; 65 to 90 ~> St 523; 48 to 57 ~> St 528] (St 0);
  Case 532 [] [33 ~> St 523; 35 ~> Tr 559; 37 ~> St 258; 46 ~> St 529; 47 ~> Tr 560; 53 ~> St 533; 58 ~> Tr 561; 59 ~> St 523; 61 ~> St 523;
    63 ~> Tr 562; 95 ~> St 523; 126 ~> St 523; 36 to 45 ~> St 523; 97 to 122 ~> St 523; 65 to 90 ~> St 523; 48 to 57 ~> St 528] (St 0);
  Case 533 [] [33 ~> St 523; 35 ~> Tr 559; 37 ~> St 258; 46 ~> St 529; 47 ~> Tr 560; 58 ~> Tr 561; 61 ~> St 523; 63 ~> Tr 562; 95 ~> St 523;
    126 ~> St 523; 48 to 53 ~> St 528; 36 to 45 ~> St 523; 97 to 122 ~> St 523; 65 to 90 ~> St 523; 54 to 59 ~> St 523] (St 0);
  Case 534 [] [33 ~> St 523; 35 ~> Tr 559; 37 ~> St 258; 46 ~> St 527; 47 ~> Tr 560; 58 ~> Tr 561; 59 ~> St 523; 61 ~> St 523; 63 ~> Tr 562;
    95 ~> St 523; 126 ~> St 523; 36 to 45 ~> St 523; 97 to 122 ~> St 523; 65 to 90 ~> St 523; 48 to 57 ~> St 535] (St 0)].

Definition uri_L6385 : list (block action) := [
  Case 535 [] [33 ~> St 523; 35 ~> Tr 559; 37 ~> St 258; 46 ~> St 527; 47 ~> Tr 560; 58 ~> Tr 561; 59 ~> St 523; 61 ~> St 523; 63 ~> Tr 562;
    95 ~> St 523; 126 ~> St 523; 36 to 45 ~> St 523; 97 to 122 ~> St 523; 65 to 90 ~> St 523; 48 to 57 ~> St 526] (St 0);
  Case 536 [] [33 ~> St 523; 35 ~> Tr 559; 37 ~> St 258; 46 ~> St 527; 47 ~> Tr 560; 53 ~> St 537; 58 ~> Tr 561; 59 ~> St 523; 61 ~> St 523;
    63 ~> Tr 562; 95 ~> St 523; 126 ~> St 523; 36 to 45 ~> St 523; 97 to 122 ~> St 523; 65 to 90 ~> St 523; 48 to 57 ~> St 526] (St 0);
  Case 537 [] [33 ~> St 523; 35 ~> Tr 559; 37 ~> St 258; 46 ~> St 527; 47 ~> Tr 560; 58 ~> Tr 561; 61 ~> St 523; 63 ~> Tr 562; 95 ~> St 523;
    126 ~> St 523; 48 to 53 ~> St 526; 36 to 45 ~> St 523; 97 to 122 ~> St 523; 65 to 90 ~> St 523; 54 to 59 ~> St 523] (St 0);
  Label 581 [markh] 538;
  Case 538 [] [33 ~> St 523; 35 ~> Tr 559; 37 ~> St 258; 46 ~> St 525; 47 ~> Tr 560; 58 ~> Tr 561; 59 ~> St 523; 61 ~> St 523; 63 ~> Tr 562;
    95 ~> St 523; 126 ~> St 523; 36 to 45 ~> St 523; 97 to 122 ~> St 523; 65 to 90 ~> St 523; 48 to 57 ~> St 539] (St 0);
  Label 583 [markh] 539].

Definition uri_L6513 : list (block action) := [
  Case 539 [] [33 ~> St 523; 35 ~> Tr 559; 37 ~> St 258; 46 ~> St 525; 47 ~> Tr 560; 58 ~> Tr 561; 59 ~> St 523; 61 ~> St 523; 63 ~> Tr 562;
    95 ~> St 523; 126 ~> St 523; 36 to 45 ~> St 523; 97 to 122 ~> St 523; 65 to 90 ~> St 523; 48 to 57 ~> St 524] (St 0);
  Label 582 [markh] 540;
  Case 540 [] [33 ~> St 523; 35 ~> Tr 559; 37 ~> St 258; 46 ~> St 525; 47 ~> Tr 560; 53 ~> St 541; 58 ~> Tr 561; 59 ~> St 523; 61 ~> St 523;
    63 ~> Tr 562; 95 ~> St 523; 126 ~> St 523; 36 to 45 ~> St 523; 97 to 122 ~> St 523; 65 to 90 ~> St 523; 48 to 57 ~> St 524] (St 0);
  Case 541 [] [33 ~> St 523; 35 ~> Tr 559; 37 ~> St 258; 46 ~> St 525; 47 ~> Tr 560; 58 ~> Tr 561; 61 ~> St 523; 63 ~> Tr 562; 95 ~> St 523;
    126 ~> St 523; 48 to 53 ~> St 524; 36 to 45 ~> St 523; 97 to 122 ~> St 523; 65 to 90 ~> St 523; 54 to 59 ~> St 523] (St 0);
  Label 558 [markh] 260;
  Case 260 [] [58 ~> St 368; 118 ~> St 447; 48 to 57 ~> St 261; 97 to 102 ~> St 261; 65 to 70 ~> St 261] (St 0);
  Case 261 [] [58 ~> St 265; 48 to 57 ~> St 262; 97 to 102 ~> St 262; 65 to 70 ~> St 262] (St 0);
  Case 262 [] [58 ~> St 265; 48 to 57 ~> St 263; 97 to 102 ~> St 263; 65 to 70 ~> St 263] (St 0)].

Definition uri_L6661 : list (block action) := [
  Case 263 [] [58 ~> St 265; 48 to 57 ~> St 264; 97 to 102 ~> St 264; 65 to 70 ~> St 264] (St 0);
  Case 264 [] [58 ~> St 265] (St 0);
  Case 265 [] [58 ~> St 363; 48 to 57 ~> St 266; 97 to 102 ~> St 266; 65 to 70 ~> St 266] (St 0);
  Case 266 [] [58 ~> St 270; 48 to 57 ~> St 267; 97 to 102 ~> St 267; 65 to 70 ~> St 267] (St 0);
  Case 267 [] [58 ~> St 270; 48 to 57 ~> St 268; 97 to 102 ~> St 268; 65 to 70 ~> St 268] (St 0);
  Case 268 [] [58 ~> St 270; 48 to 57 ~> St 269; 97 to 102 ~> St 269; 65 to 70 ~> St 269] (St 0);
  Case 269 [] [58 ~> St 270] (St 0);
  Case 270 [] [58 ~> St 358; 48 to 57 ~> St 271; 97 to 102 ~> St 271; 65 to 70 ~> St 271] (St 0);
  Case 271 [] [58 ~> St 275; 48 to 57 ~> St 272; 97 to 102 ~> St 272; 65 to 70 ~> St 272] (St 0);
  Case 272 [] [58 ~> St 275; 48 to 57 ~> St 273; 97 to 102 ~> St 273; 65 to 70 ~> St 273] (St 0);
  Case 273 [] [58 ~> St 275; 48 to 57 ~> St 274; 97 to 102 ~> St 274; 65 to 70 ~> St 274] (St 0)].

Definition uri_L6810 : list (block action) := [
  Case 274 [] [58 ~> St 275] (St 0);
  Case 275 [] [58 ~> St 353; 48 to 57 ~> St 276; 97 to 102 ~> St 276; 65 to 70 ~> St 276] (St 0);
  Case 276 [] [58 ~> St 280; 48 to 57 ~> St 277; 97 to 102 ~> St 277; 65 to 70 ~> St 277] (St 0);
  Case 277 [] [58 ~> St 280; 48 to 57 ~> St 278; 97 to 102 ~> St 278; 65 to 70 ~> St 278] (St 0);
  Case 278 [] [58 ~> St 280; 48 to 57 ~> St 279; 97 to 102 ~> St 279; 65 to 70 ~> St 279] (St 0);
  Case 279 [] [58 ~> St 280] (St 0);
  Case 280 [] [58 ~> St 348; 48 to 57 ~> St 281; 97 to 102 ~> St 281; 65 to 70 ~> St 281] (St 0);
  Case 281 [] [58 ~> St 285; 48 to 57 ~> St 282; 97 to 102 ~> St 282; 65 to 70 ~> St 282] (St 0);
  Case 282 [] [58 ~> St 285; 48 to 57 ~> St 283; 97 to 102 ~> St 283; 65 to 70 ~> St 283] (St 0);
  Case 283 [] [58 ~> St 285; 48 to 57 ~> St 284; 97 to 102 ~> St 284; 65 to 70 ~> St 284] (St 0);
  Case 284 [] [58 ~> St 285] (St 0)].

Definition uri_L6951 : list (block action) := [
  Case 285 [] [58 ~> St 335; 48 to 57 ~> St 286; 97 to 102 ~> St 286; 65 to 70 ~> St 286] (St 0);
  Case 286 [] [58 ~> St 290; 48 to 57 ~> St 287; 97 to 102 ~> St 287; 65 to 70 ~> St 287] (St 0);
  Case 287 [] [58 ~> St 290; 48 to 57 ~> St 288; 97 to 102 ~> St 288; 65 to 70 ~> St 288] (St 0);
  Case 288 [] [58 ~> St 290; 48 to 57 ~> St 289; 97 to 102 ~> St 289; 65 to 70 ~> St 289] (St 0);
  Case 289 [] [58 ~> St 290] (St 0);
  Case 290 [] [2 ~> St 291; 48 ~> St 318; 49 ~> St 326; 50 ~> St 329; 58 ~> St 333; 51 to 57 ~> St 332; 97 to 102 ~> St 334; 65 to 70 ~> St 334] (St 0);
  Case 291 [] [48 to 52 ~> St 292] (St 0);
  Case 292 [] [48 to 57 ~> St 293] (St 0);
  Case 293 [] [46 ~> St 294] (St 0);
  Case 294 [] [2 ~> St 295; 48 ~> St 297; 49 ~> St 314; 50 ~> St 316; 51 to 57 ~> St 315] (St 0);
  Case 295 [] [48 to 52 ~> St 296] (St 0);
  Case 296 [] [48 to 57 ~> St 297] (St 0);
  Case 297 [] [46 ~> St 298] (St 0)].

Definition uri_L7093 : list (block action) := [
  Case 298 [] [2 ~> St 299; 48 ~> St 301; 49 ~> St 310; 50 ~> St 312; 51 to 57 ~> St 311] (St 0);
  Case 299 [] [48 to 52 ~> St 300] (St 0);
  Case 300 [] [48 to 57 ~> St 301] (St 0);
  Case 301 [] [46 ~> St 302] (St 0);
  Case 302 [] [2 ~> St 303; 48 ~> St 305; 49 ~> St 306; 50 ~> St 308; 51 to 57 ~> St 307] (St 0);
  Case 303 [] [48 to 52 ~> St 304] (St 0);
  Case 304 [] [48 to 57 ~> St 305] (St 0);
  Case 305 [] [93 ~> St 512] (St 0);
  Case 306 [] [93 ~> St 512; 48 to 57 ~> St 307] (St 0);
  Case 307 [] [93 ~> St 512; 48 to 57 ~> St 305] (St 0);
  Case 308 [] [53 ~> St 309; 93 ~> St 512; 48 to 57 ~> St 305] (St 0);
  Case 309 [] [93 ~> St 512; 48 to 53 ~> St 305] (St 0);
  Case 310 [] [46 ~> St 302; 48 to 57 ~> St 311] (St 0);
  Case 311 [] [46 ~> St 302; 48 to 57 ~> St 301] (St 0);
  Case 312 [] [46 ~> St 302; 53 ~> St 313; 48 to 57 ~> St 301] (St 0);
  Case 313 [] [46 ~> St 302; 48 to 53 ~> St 301] (St 0)].

Definition uri_L7237 : list (block action) := [
  Case 314 [] [46 ~> St 298; 48 to 57 ~> St 315] (St 0);
  Case 315 [] [46 ~> St 298; 48 to 57 ~> St 297] (St 0);
  Case 316 [] [46 ~> St 298; 53 ~> St 317; 48 to 57 ~> St 297] (St 0);
  Case 317 [] [46 ~> St 298; 48 to 53 ~> St 297] (St 0);
  Case 318 [] [46 ~> St 294; 58 ~> St 322; 48 to 57 ~> St 319; 97 to 102 ~> St 319; 65 to 70 ~> St 319] (St 0);
  Case 319 [] [58 ~> St 322; 48 to 57 ~> St 320; 97 to 102 ~> St 320; 65 to 70 ~> St 320] (St 0);
  Case 320 [] [58 ~> St 322; 48 to 57 ~> St 321; 97 to 102 ~> St 321; 65 to 70 ~> St 321] (St 0);
  Case 321 [] [58 ~> St 322] (St 0);
  Case 322 [] [58 ~> St 305; 48 to 57 ~> St 323; 97 to 102 ~> St 323; 65 to 70 ~> St 323] (St 0);
  Case 323 [] [93 ~> St 512; 48 to 57 ~> St 324; 97 to 102 ~> St 324; 65 to 70 ~> St 324] (St 0);
  Case 324 [] [93 ~> St 512; 48 to 57 ~> St 325; 97 to 102 ~> St 325; 65 to 70 ~> St 325] (St 0)].

Definition uri_L7374 : list (block action) := [
  Case 325 [] [93 ~> St 512; 48 to 57 ~> St 305; 97 to 102 ~> St 305; 65 to 70 ~> St 305] (St 0);
  Case 326 [] [46 ~> St 294; 58 ~> St 322; 48 to 57 ~> St 327; 97 to 102 ~> St 319; 65 to 70 ~> St 319] (St 0);
  Case 327 [] [46 ~> St 294; 58 ~> St 322; 48 to 57 ~> St 328; 97 to 102 ~> St 320; 65 to 70 ~> St 320] (St 0);
  Case 328 [] [46 ~> St 294; 58 ~> St 322; 48 to 57 ~> St 321; 97 to 102 ~> St 321; 65 to 70 ~> St 321] (St 0);
  Case 329 [] [46 ~> St 294; 53 ~> St 331; 58 ~> St 322; 48 to 57 ~> St 330; 97 to 102 ~> St 319; 65 to 70 ~> St 319] (St 0);
  Case 330 [] [46 ~> St 294; 58 ~> St 322; 48 to 57 ~> St 320; 97 to 102 ~> St 320; 65 to 70 ~> St 320] (St 0);
  Case 331 [] [46 ~> St 294; 58 ~> St 322; 48 to 53 ~> St 328; 97 to 102 ~> St 320; 65 to 70 ~> St 320; 54 to 57 ~> St 320] (St 0);
  Case 332 [] [46 ~> St 294; 58 ~> St 322; 48 to 57 ~> St 330; 97 to 102 ~> St 319; 65 to 70 ~> St 319] (St 0)].

Definition uri_L7512 : list (block action) := [
  Case 333 [] [48 to 57 ~> St 323; 97 to 102 ~> St 323; 65 to 70 ~> St 323] (St 0);
  Case 334 [] [58 ~> St 322; 48 to 57 ~> St 319; 97 to 102 ~> St 319; 65 to 70 ~> St 319] (St 0);
  Case 335 [] [2 ~> St 291; 48 ~> St 336; 49 ~> St 340; 50 ~> St 343; 51 to 57 ~> St 346; 97 to 102 ~> St 347; 65 to 70 ~> St 347] (St 0);
  Case 336 [] [46 ~> St 294; 58 ~> St 333; 48 to 57 ~> St 337; 97 to 102 ~> St 337; 65 to 70 ~> St 337] (St 0);
  Case 337 [] [58 ~> St 333; 48 to 57 ~> St 338; 97 to 102 ~> St 338; 65 to 70 ~> St 338] (St 0);
  Case 338 [] [58 ~> St 333; 48 to 57 ~> St 339; 97 to 102 ~> St 339; 65 to 70 ~> St 339] (St 0);
  Case 339 [] [58 ~> St 333] (St 0);
  Case 340 [] [46 ~> St 294; 58 ~> St 333; 48 to 57 ~> St 341; 97 to 102 ~> St 337; 65 to 70 ~> St 337] (St 0);
  Case 341 [] [46 ~> St 294; 58 ~> St 333; 48 to 57 ~> St 342; 97 to 102 ~> St 338; 65 to 70 ~> St 338] (St 0)].

Definition uri_L7647 : list (block action) := [
  Case 342 [] [46 ~> St 294; 58 ~> St 333; 48 to 57 ~> St 339; 97 to 102 ~> St 339; 65 to 70 ~> St 339] (St 0);
  Case 343 [] [46 ~> St 294; 53 ~> St 345; 58 ~> St 333; 48 to 57 ~> St 344; 97 to 102 ~> St 337; 65 to 70 ~> St 337] (St 0);
  Case 344 [] [46 ~> St 294; 58 ~> St 333; 48 to 57 ~> St 338; 97 to 102 ~> St 338; 65 to 70 ~> St 338] (St 0);
  Case 345 [] [46 ~> St 294; 58 ~> St 333; 48 to 53 ~> St 342; 97 to 102 ~> St 338; 65 to 70 ~> St 338; 54 to 57 ~> St 338] (St 0);
  Case 346 [] [46 ~> St 294; 58 ~> St 333; 48 to 57 ~> St 344; 97 to 102 ~> St 337; 65 to 70 ~> St 337] (St 0);
  Case 347 [] [58 ~> St 333; 48 to 57 ~> St 337; 97 to 102 ~> St 337; 65 to 70 ~> St 337] (St 0);
  Case 348 [] [48 to 57 ~> St 349; 97 to 102 ~> St 349; 65 to 70 ~> St 349] (St 0);
  Case 349 [] [58 ~> St 335; 48 to 57 ~> St 350; 97 to 102 ~> St 350; 65 to 70 ~> St 350] (St 0);
  Case 350 [] [58 ~> St 335; 48 to 57 ~> St 351; 97 to 102 ~> St 351; 65 to 70 ~> St 351] (St 0)].

Definition uri_L7794 : list (block action) := [
  Case 351 [] [58 ~> St 335; 48 to 57 ~> St 352; 97 to 102 ~> St 352; 65 to 70 ~> St 352] (St 0);
  Case 352 [] [58 ~> St 335] (St 0);
  Case 353 [] [48 to 57 ~> St 354; 97 to 102 ~> St 354; 65 to 70 ~> St 354] (St 0);
  Case 354 [] [58 ~> St 348; 48 to 57 ~> St 355; 97 to 102 ~> St 355; 65 to 70 ~> St 355] (St 0);
  Case 355 [] [58 ~> St 348; 48 to 57 ~> St 356; 97 to 102 ~> St 356; 65 to 70 ~> St 356] (St 0);
  Case 356 [] [58 ~> St 348; 48 to 57 ~> St 357; 97 to 102 ~> St 357; 65 to 70 ~> St 357] (St 0);
  Case 357 [] [58 ~> St 348] (St 0);
  Case 358 [] [48 to 57 ~> St 359; 97 to 102 ~> St 359; 65 to 70 ~> St 359] (St 0);
  Case 359 [] [58 ~> St 353; 48 to 57 ~> St 360; 97 to 102 ~> St 360; 65 to 70 ~> St 360] (St 0);
  Case 360 [] [58 ~> St 353; 48 to 57 ~> St 361; 97 to 102 ~> St 361; 65 to 70 ~> St 361] (St 0);
  Case 361 [] [58 ~> St 353; 48 to 57 ~> St 362; 97 to 102 ~> St 362; 65 to 70 ~> St 362] (St 0)].

Definition uri_L7939 : list (block action) := [
  Case 362 [] [58 ~> St 353] (St 0);
  Case 363 [] [48 to 57 ~> St 364; 97 to 102 ~> St 364; 65 to 70 ~> St 364] (St 0);
  Case 364 [] [58 ~> St 358; 48 to 57 ~> St 365; 97 to 102 ~> St 365; 65 to 70 ~> St 365] (St 0);
  Case 365 [] [58 ~> St 358; 48 to 57 ~> St 366; 97 to 102 ~> St 366; 65 to 70 ~> St 366] (St 0);
  Case 366 [] [58 ~> St 358; 48 to 57 ~> St 367; 97 to 102 ~> St 367; 65 to 70 ~> St 367] (St 0);
  Case 367 [] [58 ~> St 358] (St 0);
  Case 368 [] [58 ~> St 369] (St 0);
  Case 369 [] [2 ~> St 291; 48 ~> St 370; 49 ~> St 439; 50 ~> St 442; 93 ~> St 512; 51 to 57 ~> St 445; 97 to 102 ~> St 446; 65 to 70 ~> St 446] (St 0);
  Case 370 [] [46 ~> St 294; 58 ~> St 374; 93 ~> St 512; 48 to 57 ~> St 371; 97 to 102 ~> St 371; 65 to 70 ~> St 371] (St 0);
  Case 371 [] [58 ~> St 374; 93 ~> St 512; 48 to 57 ~> St 372; 97 to 102 ~> St 372; 65 to 70 ~> St 372] (St 0)].

Definition uri_L8073 : list (block action) := [
  Case 372 [] [58 ~> St 374; 93 ~> St 512; 48 to 57 ~> St 373; 97 to 102 ~> St 373; 65 to 70 ~> St 373] (St 0);
  Case 373 [] [58 ~> St 374; 93 ~> St 512] (St 0);
  Case 374 [] [2 ~> St 291; 48 ~> St 375; 49 ~> St 431; 50 ~> St 434; 51 to 57 ~> St 437; 97 to 102 ~> St 438; 65 to 70 ~> St 438] (St 0);
  Case 375 [] [46 ~> St 294; 58 ~> St 379; 93 ~> St 512; 48 to 57 ~> St 376; 97 to 102 ~> St 376; 65 to 70 ~> St 376] (St 0);
  Case 376 [] [58 ~> St 379; 93 ~> St 512; 48 to 57 ~> St 377; 97 to 102 ~> St 377; 65 to 70 ~> St 377] (St 0);
  Case 377 [] [58 ~> St 379; 93 ~> St 512; 48 to 57 ~> St 378; 97 to 102 ~> St 378; 65 to 70 ~> St 378] (St 0);
  Case 378 [] [58 ~> St 379; 93 ~> St 512] (St 0);
  Case 379 [] [2 ~> St 291; 48 ~> St 380; 49 ~> St 423; 50 ~> St 426; 51 to 57 ~> St 429; 97 to 102 ~> St 430; 65 to 70 ~> St 430] (St 0);
  Case 380 [] [46 ~> St 294; 58 ~> St 384; 93 ~> St 512; 48 to 57 ~> St 381; 97 to 102 ~> St 381; 65 to 70 ~> St 381] (St 0)].

Definition uri_L8216 : list (block action) := [
  Case 381 [] [58 ~> St 384; 93 ~> St 512; 48 to 57 ~> St 382; 97 to 102 ~> St 382; 65 to 70 ~> St 382] (St 0);
  Case 382 [] [58 ~> St 384; 93 ~> St 512; 48 to 57 ~> St 383; 97 to 102 ~> St 383; 65 to 70 ~> St 383] (St 0);
  Case 383 [] [58 ~> St 384; 93 ~> St 512] (St 0);
  Case 384 [] [2 ~> St 291; 48 ~> St 385; 49 ~> St 415; 50 ~> St 418; 51 to 57 ~> St 421; 97 to 102 ~> St 422; 65 to 70 ~> St 422] (St 0);
  Case 385 [] [46 ~> St 294; 58 ~> St 389; 93 ~> St 512; 48 to 57 ~> St 386; 97 to 102 ~> St 386; 65 to 70 ~> St 386] (St 0);
  Case 386 [] [58 ~> St 389; 93 ~> St 512; 48 to 57 ~> St 387; 97 to 102 ~> St 387; 65 to 70 ~> St 387] (St 0);
  Case 387 [] [58 ~> St 389; 93 ~> St 512; 48 to 57 ~> St 388; 97 to 102 ~> St 388; 65 to 70 ~> St 388] (St 0);
  Case 388 [] [58 ~> St 389; 93 ~> St 512] (St 0);
  Case 389 [] [2 ~> St 291; 48 ~> St 390; 49 ~> St 407; 50 ~> St 410; 51 to 57 ~> St 413; 97 to 102 ~> St 414; 65 to 70 ~> St 414] (St 0)].

Definition uri_L8358 : list (block action) := [
  Case 390 [] [46 ~> St 294; 58 ~> St 394; 93 ~> St 512; 48 to 57 ~> St 391; 97 to 102 ~> St 391; 65 to 70 ~> St 391] (St 0);
  Case 391 [] [58 ~> St 394; 93 ~> St 512; 48 to 57 ~> St 392; 97 to 102 ~> St 392; 65 to 70 ~> St 392] (St 0);
  Case 392 [] [58 ~> St 394; 93 ~> St 512; 48 to 57 ~> St 393; 97 to 102 ~> St 393; 65 to 70 ~> St 393] (St 0);
  Case 393 [] [58 ~> St 394; 93 ~> St 512] (St 0);
  Case 394 [] [2 ~> St 291; 48 ~> St 395; 49 ~> St 399; 50 ~> St 402; 51 to 57 ~> St 405; 97 to 102 ~> St 406; 65 to 70 ~> St 406] (St 0);
  Case 395 [] [46 ~> St 294; 58 ~> St 333; 93 ~> St 512; 48 to 57 ~> St 396; 97 to 102 ~> St 396; 65 to 70 ~> St 396] (St 0);
  Case 396 [] [58 ~> St 333; 93 ~> St 512; 48 to 57 ~> St 397; 97 to 102 ~> St 397; 65 to 70 ~> St 397] (St 0);
  Case 397 [] [58 ~> St 333; 93 ~> St 512; 48 to 57 ~> St 398; 97 to 102 ~> St 398; 65 to 70 ~> St 398] (St 0);
  Case 398 [] [58 ~> St 333; 93 ~> St 512] (St 0)].

Definition uri_L8499 : list (block action) := [
  Case 399 [] [46 ~> St 294; 58 ~> St 333; 93 ~> St 512; 48 to 57 ~> St 400; 97 to 102 ~> St 396; 65 to 70 ~> St 396] (St 0);
  Case 400 [] [46 ~> St 294; 58 ~> St 333; 93 ~> St 512; 48 to 57 ~> St 401; 97 to 102 ~> St 397; 65 to 70 ~> St 397] (St 0);
  Case 401 [] [46 ~> St 294; 58 ~> St 333; 93 ~> St 512; 48 to 57 ~> St 398; 97 to 102 ~> St 398; 65 to 70 ~> St 398] (St 0);
  Case 402 [] [46 ~> St 294; 53 ~> St 404; 58 ~> St 333; 93 ~> St 512; 48 to 57 ~> St 403; 97 to 102 ~> St 396; 65 to 70 ~> St 396] (St 0);
  Case 403 [] [46 ~> St 294; 58 ~> St 333; 93 ~> St 512; 48 to 57 ~> St 397; 97 to 102 ~> St 397; 65 to 70 ~> St 397] (St 0);
  Case 404 [] [46 ~> St 294; 58 ~> St 333; 93 ~> St 512; 48 to 53 ~> St 401; 97 to 102 ~> St 397; 65 to 70 ~> St 397; 54 to 57 ~> St 397] (St 0);
  Case 405 [] [46 ~> St 294; 58 ~> St 333; 93 ~> St 512; 48 to 57 ~> St 403; 97 to 102 ~> St 396; 65 to 70 ~> St 396] (St 0);
  Case 406 [] [58 ~> St 333; 93 ~> St 512; 48 to 57 ~> St 396; 97 to 102 ~> St 396; 65 to 70 ~> St 396] (St 0)].

Definition uri_L8646 : list (block action) := [
  Case 407 [] [46 ~> St 294; 58 ~> St 394; 93 ~> St 512; 48 to 57 ~> St 408; 97 to 102 ~> St 391; 65 to 70 ~> St 391] (St 0);
  Case 408 [] [46 ~> St 294; 58 ~> St 394; 93 ~> St 512; 48 to 57 ~> St 409; 97 to 102 ~> St 392; 65 to 70 ~> St 392] (St 0);
  Case 409 [] [46 ~> St 294; 58 ~> St 394; 93 ~> St 512; 48 to 57 ~> St 393; 97 to 102 ~> St 393; 65 to 70 ~> St 393] (St 0);
  Case 410 [] [46 ~> St 294; 53 ~> St 412; 58 ~> St 394; 93 ~> St 512; 48 to 57 ~> St 411; 97 to 102 ~> St 391; 65 to 70 ~> St 391] (St 0);
  Case 411 [] [46 ~> St 294; 58 ~> St 394; 93 ~> St 512; 48 to 57 ~> St 392; 97 to 102 ~> St 392; 65 to 70 ~> St 392] (St 0);
  Case 412 [] [46 ~> St 294; 58 ~> St 394; 93 ~> St 512; 48 to 53 ~> St 409; 97 to 102 ~> St 392; 65 to 70 ~> St 392; 54 to 57 ~> St 392] (St 0);
  Case 413 [] [46 ~> St 294; 58 ~> St 394; 93 ~> St 512; 48 to 57 ~> St 411; 97 to 102 ~> St 391; 65 to 70 ~> St 391] (St 0);
  Case 414 [] [58 ~> St 394; 93 ~> St 512; 48 to 57 ~> St 391; 97 to 102 ~> St 391; 65 to 70 ~> St 391] (St 0)].

Definition uri_L8793 : list (block action) := [
  Case 415 [] [46 ~> St 294; 58 ~> St 389; 93 ~> St 512; 48 to 57 ~> St 416; 97 to 102 ~> St 386; 65 to 70 ~> St 386] (St 0);
  Case 416 [] [46 ~> St 294; 58 ~> St 389; 93 ~> St 512; 48 to 57 ~> St 417; 97 to 102 ~> St 387; 65 to 70 ~> St 387] (St 0);
  Case 417 [] [46 ~> St 294; 58 ~> St 389; 93 ~> St 512; 48 to 57 ~> St 388; 97 to 102 ~> St 388; 65 to 70 ~> St 388] (St 0);
  Case 418 [] [46 ~> St 294; 53 ~> St 420; 58 ~> St 389; 93 ~> St 512; 48 to 57 ~> St 419; 97 to 102 ~> St 386; 65 to 70 ~> St 386] (St 0);
  Case 419 [] [46 ~> St 294; 58 ~> St 389; 93 ~> St 512; 48 to 57 ~> St 387; 97 to 102 ~> St 387; 65 to 70 ~> St 387] (St 0);
  Case 420 [] [46 ~> St 294; 58 ~> St 389; 93 ~> St 512; 48 to 53 ~> St 417; 97 to 102 ~> St 387; 65 to 70 ~> St 387; 54 to 57 ~> St 387] (St 0);
  Case 421 [] [46 ~> St 294; 58 ~> St 389; 93 ~> St 512; 48 to 57 ~> St 419; 97 to 102 ~> St 386; 65 to 70 ~> St 386] (St 0);
  Case 422 [] [58 ~> St 389; 93 ~> St 512; 48 to 57 ~> St 386; 97 to 102 ~> St 386; 65 to 70 ~> St 386] (St 0)].

Definition uri_L8940 : list (block action) := [
  Case 423 [] [46 ~> St 294; 58 ~> St 384; 93 ~> St 512; 48 to 57 ~> St 424; 97 to 102 ~> St 381; 65 to 70 ~> St 381] (St 0);
  Case 424 [] [46 ~> St 294; 58 ~> St 384; 93 ~> St 512; 48 to 57 ~> St 425; 97 to 102 ~> St 382; 65 to 70 ~> St 382] (St 0);
  Case 425 [] [46 ~> St 294; 58 ~> St 384; 93 ~> St 512; 48 to 57 ~> St 383; 97 to 102 ~> St 383; 65 to 70 ~> St 383] (St 0);
  Case 426 [] [46 ~> St 294; 53 ~> St 428; 58 ~> St 384; 93 ~> St 512; 48 to 57 ~> St 427; 97 to 102 ~> St 381; 65 to 70 ~> St 381] (St 0);
  Case 427 [] [46 ~> St 294; 58 ~> St 384; 93 ~> St 512; 48 to 57 ~> St 382; 97 to 102 ~> St 382; 65 to 70 ~> St 382] (St 0);
  Case 428 [] [46 ~> St 294; 58 ~> St 384; 93 ~> St 512; 48 to 53 ~> St 425; 97 to 102 ~> St 382; 65 to 70 ~> St 382; 54 to 57 ~> St 382] (St 0);
  Case 429 [] [46 ~> St 294; 58 ~> St 384; 93 ~> St 512; 48 to 57 ~> St 427; 97 to 102 ~> St 381; 65 to 70 ~> St 381] (St 0);
  Case 430 [] [58 ~> St 384; 93 ~> St 512; 48 to 57 ~> St 381; 97 to 102 ~> St 381; 65 to 70 ~> St 381] (St 0)].

Definition uri_L9087 : list (block action) := [
  Case 431 [] [46 ~> St 294; 58 ~> St 379; 93 ~> St 512; 48 to 57 ~> St 432; 97 to 102 ~> St 376; 65 to 70 ~> St 376] (St 0);
  Case 432 [] [46 ~> St 294; 58 ~> St 379; 93 ~> St 512; 48 to 57 ~> St 433; 97 to 102 ~> St 377; 65 to 70 ~> St 377] (St 0);
  Case 433 [] [46 ~> St 294; 58 ~> St 379; 93 ~> St 512; 48 to 57 ~> St 378; 97 to 102 ~> St 378; 65 to 70 ~> St 378] (St 0);
  Case 434 [] [46 ~> St 294; 53 ~> St 436; 58 ~> St 379; 93 ~> St 512; 48 to 57 ~> St 435; 97 to 102 ~> St 376; 65 to 70 ~> St 376] (St 0);
  Case 435 [] [46 ~> St 294; 58 ~> St 379; 93 ~> St 512; 48 to 57 ~> St 377; 97 to 102 ~> St 377; 65 to 70 ~> St 377] (St 0);
  Case 436 [] [46 ~> St 294; 58 ~> St 379; 93 ~> St 512; 48 to 53 ~> St 433; 97 to 102 ~> St 377; 65 to 70 ~> St 377; 54 to 57 ~> St 377] (St 0);
  Case 437 [] [46 ~> St 294; 58 ~> St 379; 93 ~> St 512; 48 to 57 ~> St 435; 97 to 102 ~> St 376; 65 to 70 ~> St 376] (St 0);
  Case 438 [] [58 ~> St 379; 93 ~> St 512; 48 to 57 ~> St 376; 97 to 102 ~> St 376; 65 to 70 ~> St 376] (St 0)].

Definition uri_L9234 : list (block action) := [
  Case 439 [] [46 ~> St 294; 58 ~> St 374; 93 ~> St 512; 48 to 57 ~> St 440; 97 to 102 ~> St 371; 65 to 70 ~> St 371] (St 0);
  Case 440 [] [46 ~> St 294; 58 ~> St 374; 93 ~> St 512; 48 to 57 ~> St 441; 97 to 102 ~> St 372; 65 to 70 ~> St 372] (St 0);
  Case 441 [] [46 ~> St 294; 58 ~> St 374; 93 ~> St 512; 48 to 57 ~> St 373; 97 to 102 ~> St 373; 65 to 70 ~> St 373] (St 0);
  Case 442 [] [46 ~> St 294; 53 ~> St 444; 58 ~> St 374; 93 ~> St 512; 48 to 57 ~> St 443; 97 to 102 ~> St 371; 65 to 70 ~> St 371] (St 0);
  Case 443 [] [46 ~> St 294; 58 ~> St 374; 93 ~> St 512; 48 to 57 ~> St 372; 97 to 102 ~> St 372; 65 to 70 ~> St 372] (St 0);
  Case 444 [] [46 ~> St 294; 58 ~> St 374; 93 ~> St 512; 48 to 53 ~> St 441; 97 to 102 ~> St 372; 65 to 70 ~> St 372; 54 to 57 ~> St 372] (St 0);
  Case 445 [] [46 ~> St 294; 58 ~> St 374; 93 ~> St 512; 48 to 57 ~> St 443; 97 to 102 ~> St 371; 65 to 70 ~> St 371] (St 0);
  Case 446 [] [58 ~> St 374; 93 ~> St 512; 48 to 57 ~> St 371; 97 to 102 ~> St 371; 65 to 70 ~> St 371] (St 0)].

Definition uri_L9381 : list (block action) := [
  Case 447 [] [48 to 57 ~> St 448; 97 to 102 ~> St 448; 65 to 70 ~> St 448] (St 0);
  Case 448 [] [46 ~> St 449; 48 to 57 ~> St 448; 97 to 102 ~> St 448; 65 to 70 ~> St 448] (St 0);
  Case 449 [] [33 ~> St 450; 36 ~> St 450; 61 ~> St 450; 95 ~> St 450; 126 ~> St 450; 38 to 46 ~> St 450; 97 to 122 ~> St 450; 65 to 90 ~> St 450;
    48 to 59 ~> St 450] (St 0);
  Case 450 [] [33 ~> St 450; 36 ~> St 450; 61 ~> St 450; 93 ~> St 512; 95 ~> St 450; 126 ~> St 450; 38 to 46 ~> St 450; 97 to 122 ~> St 450;
    65 to 90 ~> St 450; 48 to 59 ~> St 450] (St 0);
  Label 577 [markh] 542;
  Case 542 [] [33 ~> St 255; 35 ~> Tr 570; 37 ~> St 256; 47 ~> Tr 571; 61 ~> St 255; 63 ~> Tr 573; 64 ~> Tr 263; 95 ~> St 255; 126 ~> St 255;
    48 to 57 ~> St 542; 36 to 46 ~> St 255; 97 to 122 ~> St 255; 65 to 90 ~> St 255; 58 to 59 ~> St 255] (St 0);
  Label 551 [markh] 543;
  Case 543 [] [33 ~> St 520; 35 ~> Tr 559; 37 ~> St 253; 46 ~> St 544; 47 ~> Tr 560; 58 ~> Tr 576; 61 ~> St 520; 63 ~> Tr 562; 64 ~> Tr 263;
    95 ~> St 520; 126 ~> St 520; 36 to 59 ~> St 520; 97 to 122 ~> St 520; 65 to 90 ~> St 520] (St 0)].

Definition uri_L9522 : list (block action) := [
  Case 544 [] [2 ~> St 233; 33 ~> St 520; 35 ~> Tr 559; 37 ~> St 253; 47 ~> Tr 560; 48 ~> St 545; 49 ~> St 553; 50 ~> St 555; 58 ~> Tr 576;
    59 ~> St 520; 61 ~> St 520; 63 ~> Tr 562; 64 ~> Tr 263; 95 ~> St 520; 126 ~> St 520; 36 to 46 ~> St 520; 97 to 122 ~> St 520; 65 to 90 ~> St 520;
    51 to 57 ~> St 554] (St 0);
  Case 545 [] [33 ~> St 520; 35 ~> Tr 559; 37 ~> St 253; 46 ~> St 546; 47 ~> Tr 560; 58 ~> Tr 576; 61 ~> St 520; 63 ~> Tr 562; 64 ~> Tr 263;
    95 ~> St 520; 126 ~> St 520; 36 to 59 ~> St 520; 97 to 122 ~> St 520; 65 to 90 ~> St 520] (St 0);
  Case 546 [] [2 ~> St 237; 33 ~> St 520; 35 ~> Tr 559; 37 ~> St 253; 47 ~> Tr 560; 48 ~> St 547; 49 ~> St 549; 50 ~> St 551; 58 ~> Tr 576;
    59 ~> St 520; 61 ~> St 520; 63 ~> Tr 562; 64 ~> Tr 263; 95 ~> St 520; 126 ~> St 520; 36 to 46 ~> St 520; 97 to 122 ~> St 520; 65 to 90 ~> St 520;
    51 to 57 ~> St 550] (St 0);
  Case 547 [] [33 ~> St 520; 35 ~> Tr 559; 37 ~> St 253; 46 ~> St 548; 47 ~> Tr 560; 58 ~> Tr 576; 61 ~> St 520; 63 ~> Tr 562; 64 ~> Tr 263;
    95 ~> St 520; 126 ~> St 520; 36 to 59 ~> St 520; 97 to 122 ~> St 520; 65 to 90 ~> St 520] (St 0);
  Case 548 [] [2 ~> St 241; 33 ~> St 520; 35 ~> Tr 559; 37 ~> St 253; 47 ~> Tr 560; 58 ~> Tr 576; 61 ~> St 520; 63 ~> Tr 562; 64 ~> Tr 263;
    95 ~> St 520; 126 ~> St 520; 36 to 59 ~> St 520; 97 to 122 ~> St 520; 65 to 90 ~> St 520] (St 0)].

Definition uri_L9666 : list (block action) := [
  Case 549 [] [33 ~> St 520; 35 ~> Tr 559; 37 ~> St 253; 46 ~> St 548; 47 ~> Tr 560; 58 ~> Tr 576; 59 ~> St 520; 61 ~> St 520; 63 ~> Tr 562;
    64 ~> Tr 263; 95 ~> St 520; 126 ~> St 520; 36 to 45 ~> St 520; 97 to 122 ~> St 520; 65 to 90 ~> St 520; 48 to 57 ~> St 550] (St 0);
  Case 550 [] [33 ~> St 520; 35 ~> Tr 559; 37 ~> St 253; 46 ~> St 548; 47 ~> Tr 560; 58 ~> Tr 576; 59 ~> St 520; 61 ~> St 520; 63 ~> Tr 562;
    64 ~> Tr 263; 95 ~> St 520; 126 ~> St 520; 36 to 45 ~> St 520; 97 to 122 ~> St 520; 65 to 90 ~> St 520; 48 to 57 ~> St 547] (St 0);
  Case 551 [] [33 ~> St 520; 35 ~> Tr 559; 37 ~> St 253; 46 ~> St 548; 47 ~> Tr 560; 53 ~> St 552; 58 ~> Tr 576; 59 ~> St 520; 61 ~> St 520;
    63 ~> Tr 562; 64 ~> Tr 263; 95 ~> St 520; 126 ~> St 520; 36 to 45 ~> St 520; 97 to 122 ~> St 520; 65 to 90 ~> St 520; 48 to 57 ~> St 547] (St 0);
  Case 552 [] [33 ~> St 520; 35 ~> Tr 559; 37 ~> St 253; 46 ~> St 548; 47 ~> Tr 560; 58 ~> Tr 576; 61 ~> St 520; 63 ~> Tr 562; 64 ~> Tr 263;
    95 ~> St 520; 126 ~> St 520; 48 to 53 ~> St 547; 36 to 45 ~> St 520; 97 to 122 ~> St 520; 65 to 90 ~> St 520; 54 to 59 ~> St 520] (St 0)].

Definition uri_L9789 : list (block action) := [
  Case 553 [] [33 ~> St 520; 35 ~> Tr 559; 37 ~> St 253; 46 ~> St 546; 47 ~> Tr 560; 58 ~> Tr 576; 59 ~> St 520; 61 ~> St 520; 63 ~> Tr 562;
    64 ~> Tr 263; 95 ~> St 520; 126 ~> St 520; 36 to 45 ~> St 520; 97 to 122 ~> St 520; 65 to 90 ~> St 520; 48 to 57 ~> St 554] (St 0);
  Case 554 [] [33 ~> St 520; 35 ~> Tr 559; 37 ~> St 253; 46 ~> St 546; 47 ~> Tr 560; 58 ~> Tr 576; 59 ~> St 520; 61 ~> St 520; 63 ~> Tr 562;
    64 ~> Tr 263; 95 ~> St 520; 126 ~> St 520; 36 to 45 ~> St 520; 97 to 122 ~> St 520; 65 to 90 ~> St 520; 48 to 57 ~> St 545] (St 0);
  Case 555 [] [33 ~> St 520; 35 ~> Tr 559; 37 ~> St 253; 46 ~> St 546; 47 ~> Tr 560; 53 ~> St 556; 58 ~> Tr 576; 59 ~> St 520; 61 ~> St 520;
    63 ~> Tr 562; 64 ~> Tr 263; 95 ~> St 520; 126 ~> St 520; 36 to 45 ~> St 520; 97 to 122 ~> St 520; 65 to 90 ~> St 520; 48 to 57 ~> St 545] (St 0);
  Case 556 [] [33 ~> St 520; 35 ~> Tr 559; 37 ~> St 253; 46 ~> St 546; 47 ~> Tr 560; 58 ~> Tr 576; 61 ~> St 520; 63 ~> Tr 562; 64 ~> Tr 263;
    95 ~> St 520; 126 ~> St 520; 48 to 53 ~> St 545; 36 to 45 ~> St 520; 97 to 122 ~> St 520; 65 to 90 ~> St 520; 54 to 59 ~> St 520] (St 0);
  Label 552 [markh] 557].

Definition uri_L9916 : list (block action) := [
  Case 557 [] [33 ~> St 520; 35 ~> Tr 559; 37 ~> St 253; 46 ~> St 544; 47 ~> Tr 560; 58 ~> Tr 576; 59 ~> St 520; 61 ~> St 520; 63 ~> Tr 562;
    64 ~> Tr 263; 95 ~> St 520; 126 ~> St 520; 36 to 45 ~> St 520; 97 to 122 ~> St 520; 65 to 90 ~> St 520; 48 to 57 ~> St 558] (St 0);
  Label 554 [markh] 558;
  Case 558 [] [33 ~> St 520; 35 ~> Tr 559; 37 ~> St 253; 46 ~> St 544; 47 ~> Tr 560; 58 ~> Tr 576; 59 ~> St 520; 61 ~> St 520; 63 ~> Tr 562;
    64 ~> Tr 263; 95 ~> St 520; 126 ~> St 520; 36 to 45 ~> St 520; 97 to 122 ~> St 520; 65 to 90 ~> St 520; 48 to 57 ~> St 543] (St 0);
  Label 553 [markh] 559;
  Case 559 [] [33 ~> St 520; 35 ~> Tr 559; 37 ~> St 253; 46 ~> St 544; 47 ~> Tr 560; 53 ~> St 560; 58 ~> Tr 576; 59 ~> St 520; 61 ~> St 520;
    63 ~> Tr 562; 64 ~> Tr 263; 95 ~> St 520; 126 ~> St 520; 36 to 45 ~> St 520; 97 to 122 ~> St 520; 65 to 90 ~> St 520; 48 to 57 ~> St 543] (St 0);
  Case 560 [] [33 ~> St 520; 35 ~> Tr 559; 37 ~> St 253; 46 ~> St 544; 47 ~> Tr 560; 58 ~> Tr 576; 61 ~> St 520; 63 ~> Tr 562; 64 ~> Tr 263;
    95 ~> St 520; 126 ~> St 520; 48 to 53 ~> St 543; 36 to 45 ~> St 520; 97 to 122 ~> St 520; 65 to 90 ~> St 520; 54 to 59 ~> St 520] (St 0)].

Definition uri_L10051 : list (block action) := [
  TestEof 452 452;
  TestEof 453 453;
  TestEof 454 454;
  TestEof 1 1;
  TestEof 2 2;
  TestEof 3 3;
  TestEof 4 4;
  TestEof 455 455;
  TestEof 5 5;
  TestEof 6 6;
  TestEof 456 456;
  TestEof 457 457;
  TestEof 7 7;
  TestEof 8 8;
  TestEof 458 458;
  TestEof 459 459;
  TestEof 9 9;
  TestEof 10 10;
  TestEof 11 11;
  TestEof 12 12;
  TestEof 13 13;
  TestEof 14 14;
  TestEof 15 15;
  TestEof 16 16;
  TestEof 17 17;
  TestEof 18 18;
  TestEof 19 19;
  TestEof 20 20;
  TestEof 21 21;
  TestEof 22 22;
  TestEof 460 460;
  TestEof 461 461;
  TestEof 462 462;
  TestEof 463 463;
  TestEof 464 464;
  TestEof 465 465;
  TestEof 466 466;
  TestEof 23 23;
  TestEof 24 24;
  TestEof 25 25;
  TestEof 26 26;
  TestEof 27 27;
  TestEof 28 28;
  TestEof 29 29;
  TestEof 30 30;
  TestEof 467 467;
  TestEof 31 31;
  TestEof 32 32;
  TestEof 468 468;
  TestEof 33 33;
  TestEof 34 34;
  TestEof 35 35;
  TestEof 469 469;
  TestEof 470 470;
  TestEof 36 36;
  TestEof 37 37;
  TestEof 471 471;
  TestEof 472 472;
  TestEof 473 473;
  TestEof 474 474;
  TestEof 475 475;
  TestEof 476 476;
  TestEof 477 477;
  TestEof 478 478;
  TestEof 479 479;
  TestEof 480 480;
  TestEof 481 481;
  TestEof 482 482;
  TestEof 483 483;
  TestEof 484 484;
  TestEof 485 485;
  TestEof 486 486;
  TestEof 487 487;
  TestEof 488 488;
  TestEof 38 38;
  TestEof 39 39;
  TestEof 40 40;
  TestEof 41 41;
  TestEof 42 42;
  TestEof 43 43;
  TestEof 44 44;
  TestEof 45 45;
  TestEof 46 46;
  TestEof 47 47;
  TestEof 48 48;
  TestEof 49 49;
  TestEof 50 50;
  TestEof 51 51;
  TestEof 52 52;
  TestEof 53 53;
  TestEof 54 54;
  TestEof 55 55;
  TestEof 56 56;
  TestEof 57 57;
  TestEof 58 58;
  TestEof 59 59;
  TestEof 60 60;
  TestEof 61 61;
  TestEof 62 62;
  TestEof 63 63;
  TestEof 64 64;
  TestEof 65 65;
  TestEof 66 66;
  TestEof 67 67;
  TestEof 68 68;
  TestEof 69 69;
  TestEof 70 70;
  TestEof 71 71;
  TestEof 72 72;
  TestEof 73 73;
  TestEof 74 74;
  TestEof 75 75;
  TestEof 76 76;
  TestEof 77 77;
  TestEof 78 78;
  TestEof 79 79;
  TestEof 80 80;
  TestEof 81 81;
  TestEof 82 82;
  TestEof 83 83;
  TestEof 84 84;
  TestEof 85 85;
  TestEof 86 86;
  TestEof 87 87;
  TestEof 88 88;
  TestEof 89 89;
  TestEof 90 90;
  TestEof 91 91;
  TestEof 92 92;
  TestEof 93 93;
  TestEof 94 94;
  TestEof 95 95;
  TestEof 96 96;
  TestEof 97 97;
  TestEof 98 98;
  TestEof 99 99;
  TestEof 100 100;
  TestEof 101 101;
  TestEof 102 102;
  TestEof 103 103;
  TestEof 104 104;
  TestEof 105 105;
  TestEof 106 106;
  TestEof 107 107;
  TestEof 108 108;
  TestEof 109 109;
  TestEof 110 110;
  TestEof 111 111;
  TestEof 112 112;
  TestEof 113 113].

Definition uri_L10201 : list (block action) := [
  TestEof 114 114;
  TestEof 115 115;
  TestEof 116 116;
  TestEof 117 117;
  TestEof 118 118;
  TestEof 119 119;
  TestEof 120 120;
  TestEof 121 121;
  TestEof 122 122;
  TestEof 123 123;
  TestEof 124 124;
  TestEof 125 125;
  TestEof 126 126;
  TestEof 127 127;
  TestEof 128 128;
  TestEof 129 129;
  TestEof 130 130;
  TestEof 131 131;
  TestEof 132 132;
  TestEof 133 133;
  TestEof 134 134;
  TestEof 135 135;
  TestEof 136 136;
  TestEof 137 137;
  TestEof 138 138;
  TestEof 139 139;
  TestEof 140 140;
  TestEof 141 141;
  TestEof 142 142;
  TestEof 143 143;
  TestEof 144 144;
  TestEof 145 145;
  TestEof 146 146;
  TestEof 147 147;
  TestEof 148 148;
  TestEof 149 149;
  TestEof 150 150;
  TestEof 151 151;
  TestEof 152 152;
  TestEof 153 153;
  TestEof 154 154;
  TestEof 155 155;
  TestEof 156 156;
  TestEof 157 157;
  TestEof 158 158;
  TestEof 159 159;
  TestEof 160 160;
  TestEof 161 161;
  TestEof 162 162;
  TestEof 163 163;
  TestEof 164 164;
  TestEof 165 165;
  TestEof 166 166;
  TestEof 167 167;
  TestEof 168 168;
  TestEof 169 169;
  TestEof 170 170;
  TestEof 171 171;
  TestEof 172 172;
  TestEof 173 173;
  TestEof 174 174;
  TestEof 175 175;
  TestEof 176 176;
  TestEof 177 177;
  TestEof 178 178;
  TestEof 179 179;
  TestEof 180 180;
  TestEof 181 181;
  TestEof 182 182;
  TestEof 183 183;
  TestEof 184 184;
  TestEof 185 185;
  TestEof 186 186;
  TestEof 187 187;
  TestEof 188 188;
  TestEof 189 189;
  TestEof 190 190;
  TestEof 191 191;
  TestEof 192 192;
  TestEof 193 193;
  TestEof 194 194;
  TestEof 195 195;
  TestEof 196 196;
  TestEof 197 197;
  TestEof 198 198;
  TestEof 199 199;
  TestEof 200 200;
  TestEof 201 201;
  TestEof 202 202;
  TestEof 203 203;
  TestEof 204 204;
  TestEof 205 205;
  TestEof 206 206;
  TestEof 207 207;
  TestEof 208 208;
  TestEof 209 209;
  TestEof 210 210;
  TestEof 211 211;
  TestEof 212 212;
  TestEof 213 213;
  TestEof 214 214;
  TestEof 215 215;
  TestEof 216 216;
  TestEof 217 217;
  TestEof 218 218;
  TestEof 219 219;
  TestEof 220 220;
  TestEof 221 221;
  TestEof 222 222;
  TestEof 223 223;
  TestEof 224 224;
  TestEof 225 225;
  TestEof 226 226;
  TestEof 227 227;
  TestEof 228 228;
  TestEof 489 489;
  TestEof 490 490;
  TestEof 491 491;
  TestEof 492 492;
  TestEof 493 493;
  TestEof 494 494;
  TestEof 495 495;
  TestEof 496 496;
  TestEof 497 497;
  TestEof 498 498;
  TestEof 499 499;
  TestEof 500 500;
  TestEof 501 501;
  TestEof 502 502;
  TestEof 503 503;
  TestEof 504 504;
  TestEof 505 505;
  TestEof 506 506;
  TestEof 507 507;
  TestEof 508 508;
  TestEof 509 509;
  TestEof 510 510;
  TestEof 511 511;
  TestEof 229 229;
  TestEof 230 230;
  TestEof 231 231;
  TestEof 232 232;
  TestEof 233 233;
  TestEof 234 234;
  TestEof 235 235;
  TestEof 236 236;
  TestEof 237 237;
  TestEof 238 238;
  TestEof 239 239;
  TestEof 240 240].

Definition uri_L10351 : list (block action) := [
  TestEof 241 241;
  TestEof 242 242;
  TestEof 512 512;
  TestEof 513 513;
  TestEof 243 243;
  TestEof 244 244;
  TestEof 514 514;
  TestEof 515 515;
  TestEof 516 516;
  TestEof 517 517;
  TestEof 518 518;
  TestEof 519 519;
  TestEof 245 245;
  TestEof 246 246;
  TestEof 247 247;
  TestEof 248 248;
  TestEof 249 249;
  TestEof 250 250;
  TestEof 251 251;
  TestEof 252 252;
  TestEof 520 520;
  TestEof 253 253;
  TestEof 254 254;
  TestEof 521 521;
  TestEof 255 255;
  TestEof 256 256;
  TestEof 257 257;
  TestEof 522 522;
  TestEof 523 523;
  TestEof 258 258;
  TestEof 259 259;
  TestEof 524 524;
  TestEof 525 525;
  TestEof 526 526;
  TestEof 527 527;
  TestEof 528 528;
  TestEof 529 529;
  TestEof 530 530;
  TestEof 531 531;
  TestEof 532 532;
  TestEof 533 533;
  TestEof 534 534;
  TestEof 535 535;
  TestEof 536 536;
  TestEof 537 537;
  TestEof 538 538;
  TestEof 539 539;
  TestEof 540 540;
  TestEof 541 541;
  TestEof 260 260;
  TestEof 261 261;
  TestEof 262 262;
  TestEof 263 263;
  TestEof 264 264;
  TestEof 265 265;
  TestEof 266 266;
  TestEof 267 267;
  TestEof 268 268;
  TestEof 269 269;
  TestEof 270 270;
  TestEof 271 271;
  TestEof 272 272;
  TestEof 273 273;
  TestEof 274 274;
  TestEof 275 275;
  TestEof 276 276;
  TestEof 277 277;
  TestEof 278 278;
  TestEof 279 279;
  TestEof 280 280;
  TestEof 281 281;
  TestEof 282 282;
  TestEof 283 283;
  TestEof 284 284;
  TestEof 285 285;
  TestEof 286 286;
  TestEof 287 287;
  TestEof 288 288;
  TestEof 289 289;
  TestEof 290 290;
  TestEof 291 291;
  TestEof 292 292;
  TestEof 293 293;
  TestEof 294 294;
  TestEof 295 295;
  TestEof 296 296;
  TestEof 297 297;
  TestEof 298 298;
  TestEof 299 299;
  TestEof 300 300;
  TestEof 301 301;
  TestEof 302 302;
  TestEof 303 303;
  TestEof 304 304;
  TestEof 305 305;
  TestEof 306 306;
  TestEof 307 307;
  TestEof 308 308;
  TestEof 309 309;
  TestEof 310 310;
  TestEof 311 311;
  TestEof 312 312;
  TestEof 313 313;
  TestEof 314 314;
  TestEof 315 315;
  TestEof 316 316;
  TestEof 317 317;
  TestEof 318 318;
  TestEof 319 319;
  TestEof 320 320;
  TestEof 321 321;
  TestEof 322 322;
  TestEof 323 323;
  TestEof 324 324;
  TestEof 325 325;
  TestEof 326 326;
  TestEof 327 327;
  TestEof 328 328;
  TestEof 329 329;
  TestEof 330 330;
  TestEof 331 331;
  TestEof 332 332;
  TestEof 333 333;
  TestEof 334 334;
  TestEof 335 335;
  TestEof 336 336;
  TestEof 337 337;
  TestEof 338 338;
  TestEof 339 339;
  TestEof 340 340;
  TestEof 341 341;
  TestEof 342 342;
  TestEof 343 343;
  TestEof 344 344;
  TestEof 345 345;
  TestEof 346 346;
  TestEof 347 347;
  TestEof 348 348;
  TestEof 349 349;
  TestEof 350 350;
  TestEof 351 351;
  TestEof 352 352;
  TestEof 353 353;
  TestEof 354 354;
  TestEof 355 355;
  TestEof 356 356;
  TestEof 357 357;
  TestEof 358 358;
  TestEof 359 359;
  TestEof 360 360].

Definition uri_L10501 : list (block action) := [
  TestEof 361 361;
  TestEof 362 362;
  TestEof 363 363;
  TestEof 364 364;
  TestEof 365 365;
  TestEof 366 366;
  TestEof 367 367;
  TestEof 368 368;
  TestEof 369 369;
  TestEof 370 370;
  TestEof 371 371;
  TestEof 372 372;
  TestEof 373 373;
  TestEof 374 374;
  TestEof 375 375;
  TestEof 376 376;
  TestEof 377 377;
  TestEof 378 378;
  TestEof 379 379;
  TestEof 380 380;
  TestEof 381 381;
  TestEof 382 382;
  TestEof 383 383;
  TestEof 384 384;
  TestEof 385 385;
  TestEof 386 386;
  TestEof 387 387;
  TestEof 388 388;
  TestEof 389 389;
  TestEof 390 390;
  TestEof 391 391;
  TestEof 392 392;
  TestEof 393 393;
  TestEof 394 394;
  TestEof 395 395;
  TestEof 396 396;
  TestEof 397 397;
  TestEof 398 398;
  TestEof 399 399;
  TestEof 400 400;
  TestEof 401 401;
  TestEof 402 402;
  TestEof 403 403;
  TestEof 404 404;
  TestEof 405 405;
  TestEof 406 406;
  TestEof 407 407;
  TestEof 408 408;
  TestEof 409 409;
  TestEof 410 410;
  TestEof 411 411;
  TestEof 412 412;
  TestEof 413 413;
  TestEof 414 414;
  TestEof 415 415;
  TestEof 416 416;
  TestEof 417 417;
  TestEof 418 418;
  TestEof 419 419;
  TestEof 420 420;
  TestEof 421 421;
  TestEof 422 422;
  TestEof 423 423;
  TestEof 424 424;
  TestEof 425 425;
  TestEof 426 426;
  TestEof 427 427;
  TestEof 428 428;
  TestEof 429 429;
  TestEof 430 430;
  TestEof 431 431;
  TestEof 432 432;
  TestEof 433 433;
  TestEof 434 434;
  TestEof 435 435;
  TestEof 436 436;
  TestEof 437 437;
  TestEof 438 438;
  TestEof 439 439;
  TestEof 440 440;
  TestEof 441 441;
  TestEof 442 442;
  TestEof 443 443;
  TestEof 444 444;
  TestEof 445 445;
  TestEof 446 446;
  TestEof 447 447;
  TestEof 448 448;
  TestEof 449 449;
  TestEof 450 450;
  TestEof 542 542;
  TestEof 543 543;
  TestEof 544 544;
  TestEof 545 545;
  TestEof 546 546;
  TestEof 547 547;
  TestEof 548 548;
  TestEof 549 549;
  TestEof 550 550;
  TestEof 551 551;
  TestEof 552 552;
  TestEof 553 553;
  TestEof 554 554;
  TestEof 555 555;
  TestEof 556 556;
  TestEof 557 557;
  TestEof 558 558;
  TestEof 559 559;
  TestEof 560 560].

Definition uri_eof_L10615 : list (list N * list action) := [
  ([462; 489], [save_port]);
  ([460; 463; 464; 465; 466; 467; 470; 471; 472; 473; 474; 475; 476; 477; 478; 479; 480; 481; 482; 483; 484; 485; 486; 487; 488; 490; 491; 492; 493;
    494; 495; 496; 497; 498; 499; 500; 501; 502; 503; 504; 505; 506; 507], [save_host]);
  ([513], [save_path]);
  ([457], [save_query]);
  ([454], [save_fragment]);
  ([456], [marku; save_query]);
  ([453], [marku; save_fragment]);
  ([461; 468], [markh; save_port]);
  ([459; 469], [markh; save_host]);
  ([514; 521], [markh; save_port; save_path])]%N.

Definition uri_eof_L10762 : list (list N * list action) := [
  ([511; 522], [markh; save_host; save_path]);
  ([515; 542], [save_port; markh; save_path]);
  ([512; 516; 517; 518; 519; 520; 523; 524; 525; 526; 527; 528; 529; 530; 531; 532; 533; 534; 535; 536; 537; 538; 539; 540; 541; 543; 544; 545; 546;
    547; 548; 549; 550; 551; 552; 553; 554; 555; 556; 557; 558; 559; 560], [save_host; markh; save_path])]%N.

Definition uri_code : list (block action) :=
  uri_L40 ++ uri_L188 ++ uri_L326 ++ uri_L469 ++ uri_L613 ++ uri_L757 ++ uri_L906 ++ uri_L1056 ++ uri_L1179 ++
  uri_L1303 ++ uri_L1442 ++ uri_L1590 ++ uri_L1718 ++ uri_L1866 ++ uri_L2015 ++ uri_L2156 ++ uri_L2298 ++ uri_L2442 ++
  uri_L2579 ++ uri_L2717 ++ uri_L2852 ++ uri_L2999 ++ uri_L3144 ++ uri_L3278 ++ uri_L3421 ++ uri_L3563 ++ uri_L3704 ++
  uri_L3851 ++ uri_L3998 ++ uri_L4145 ++ uri_L4292 ++ uri_L4439 ++ uri_L4586 ++ uri_L4727 ++ uri_L4871 ++ uri_L4994 ++
  uri_L5121 ++ uri_L5259 ++ uri_L5404 ++ uri_L5550 ++ uri_L5687 ++ uri_L5824 ++ uri_L5974 ++ uri_L6098 ++ uri_L6237 ++
  uri_L6385 ++ uri_L6513 ++ uri_L6661 ++ uri_L6810 ++ uri_L6951 ++ uri_L7093 ++ uri_L7237 ++ uri_L7374 ++ uri_L7512 ++
  uri_L7647 ++ uri_L7794 ++ uri_L7939 ++ uri_L8073 ++ uri_L8216 ++ uri_L8358 ++ uri_L8499 ++ uri_L8646 ++ uri_L8793 ++
  uri_L8940 ++ uri_L9087 ++ uri_L9234 ++ uri_L9381 ++ uri_L9522 ++ uri_L9666 ++ uri_L9789 ++ uri_L9916 ++ uri_L10051 ++
  uri_L10201 ++ uri_L10351 ++ uri_L10501.

Definition uri_machine : machine action :=
  build 451 451 0 uri_code (uri_eof_L10615 ++ uri_eof_L10762).

End Ur.
