(* ===== verification/Uri.v ===== *)
(** Uniform resource identifiers, sylar/uri.h and uri.rl.cc: the class [Uri] and
    its parser, the machine of [UriTable] with the actions that cut the text at
    the saved position [mark]. *)

From stdpp Require Import strings pretty.
From S2P Require Import Prelude Strs Cnum Ragel UriTable.

Module Uri.

Import Rg Ur.
Local Open Scope Z_scope.

Record Uri := mkUri {
  m_scheme : string;
  m_userinfo : string;
  m_host : string;
  m_path : string;
  m_query : string;
  m_fragment : string;
  m_port : Z;
}.

#[global] Instance Uri_eq_dec : EqDecision Uri.
Proof. solve_decision. Defined.

Definition new_Uri : Uri := mkUri "" "" "" "" "" "" 0.

Definition setScheme (u : Uri) v := mkUri v (m_userinfo u) (m_host u) (m_path u) (m_query u) (m_fragment u) (m_port u).
Definition setUserinfo (u : Uri) v := mkUri (m_scheme u) v (m_host u) (m_path u) (m_query u) (m_fragment u) (m_port u).
Definition setHost (u : Uri) v := mkUri (m_scheme u) (m_userinfo u) v (m_path u) (m_query u) (m_fragment u) (m_port u).
Definition setPath (u : Uri) v := mkUri (m_scheme u) (m_userinfo u) (m_host u) v (m_query u) (m_fragment u) (m_port u).
Definition setQuery (u : Uri) v := mkUri (m_scheme u) (m_userinfo u) (m_host u) (m_path u) v (m_fragment u) (m_port u).
Definition setFragment (u : Uri) v := mkUri (m_scheme u) (m_userinfo u) (m_host u) (m_path u) (m_query u) v (m_port u).
Definition setPort (u : Uri) v := mkUri (m_scheme u) (m_userinfo u) (m_host u) (m_path u) (m_query u) (m_fragment u) v.

(** ** The parser *)

(** The variables of [Create]: the object and [mark], an offset into the text or
    null. *)
Record vars := mkVars { v_uri : Uri; v_mark : option nat }.

Section actions.
Context (text : string).

(** [std::string(mark, p - mark)], which throws when the length is negative *)
Definition piece (mark : option nat) (p : nat) : outcome string :=
  m ← of_ptr mark; if (m <=? p)%nat then Ok (str_take (p - m) (str_drop m text)) else Fail LogicError.

Definition do_action (a : action) (p : nat) (v : vars) : outcome (vars * option N) :=
  let u := v_uri v in
  match a with
  | marku | markh => Ok (mkVars u (Some p), None)
  | save_scheme => s ← piece (v_mark v) p; Ok (mkVars (setScheme u s) None, None)
  | save_port =>
      if bool_decide (v_mark v = Some p) then Ok (mkVars u None, None)
      else m ← of_ptr (v_mark v); n ← Cn.atoi (str_drop m text); Ok (mkVars (setPort u n) None, None)
  | save_userinfo =>
      match v_mark v with
      | None => Ok (mkVars u None, None)
      | Some _ => s ← piece (v_mark v) p; Ok (mkVars (setUserinfo u s) None, None)
      end
  | save_host =>
      match v_mark v with
      | None => Ok (v, None)
      | Some _ => s ← piece (v_mark v) p; Ok (mkVars (setHost u s) (v_mark v), None)
      end
  | save_path => s ← piece (v_mark v) p; Ok (mkVars (setPath u s) None, None)
  | save_query => s ← piece (v_mark v) p; Ok (mkVars (setQuery u s) None, None)
  | save_fragment => s ← piece (v_mark v) p; Ok (mkVars (setFragment u s) None, None)
  end.

End actions.

(** [Uri::Create]: none for a text that is not a reference. *)
Definition Create (text : string) : outcome (option Uri) :=
  '(cs, p, v) ← run uri_machine false (do_action text) (m_start uri_machine) 0 text (mkVars new_Uri None);
  '(v, _) ← (if (p =? String.length text)%nat then do_all (do_action text) (eof_acts uri_machine cs) p v else Ok (v, None));
  if (cs =? m_error uri_machine)%N then Ok None
  else if (m_first_final uri_machine <=? cs)%N then Ok (Some (v_uri v))
  else Ok None.

(** ** The object *)

Definition isDefaultPort (u : Uri) : bool :=
  if m_port u =? 0 then true
  else if String.eqb (m_scheme u) "http" || String.eqb (m_scheme u) "ws" then m_port u =? 80
  else if String.eqb (m_scheme u) "https" || String.eqb (m_scheme u) "wss" then m_port u =? 443
  else false.

Definition getPath (u : Uri) : string := if String.eqb (m_path u) "" then "/" else m_path u.

Definition getPort (u : Uri) : Z :=
  if negb (m_port u =? 0) then m_port u
  else if String.eqb (m_scheme u) "http" || String.eqb (m_scheme u) "ws" then 80
  else if String.eqb (m_scheme u) "https" || String.eqb (m_scheme u) "wss" then 443
  else m_port u.

(** [dump] and [toString] *)
Definition dump (u : Uri) : string :=
  (m_scheme u ++ "://"
   ++ m_userinfo u ++ (if String.eqb (m_userinfo u) "" then "" else "@")
   ++ m_host u
   ++ (if isDefaultPort u then "" else ":" ++ pretty (m_port u))
   ++ getPath u
   ++ (if String.eqb (m_query u) "" then "" else "?") ++ m_query u
   ++ (if String.eqb (m_fragment u) "" then "" else "#") ++ m_fragment u)%string.

Section address.
(** [Address::LookupAnyIPAddress] and [IPAddress::setPort] *)
Context {Address : Type} (LookupAnyIPAddress : string -> option Address) (set_port : Address -> Z -> Address).

Definition createAddress (u : Uri) : option Address :=
  match LookupAnyIPAddress (m_host u) with
  | Some addr => Some (set_port addr (getPort u))
  | None => None
  end.
End address.

End Uri.
