(* ===== verification/UriRound.v ===== *)
(** What [Uri::dump] prints, [Uri::Create] reads back. *)

From stdpp Require Import strings pretty.
From Stdlib Require Import Ascii.
From S2P Require Import Prelude Strs Cnum Ragel RagelProps UriTable Uri.

Import Rg RgP Ur Uri.
Local Open Scope Z_scope.
#[local] Arguments String.append !_ _ /.

(** ** Characters of RFC 3986, with the bytes above 127 that the grammar adds *)

Definition between (a b : nat) (c : ascii) : bool := ((a <=? nat_of_ascii c) && (nat_of_ascii c <=? b))%nat.
Definition alpha (c : ascii) : bool := between 65 90 c || between 97 122 c.
Definition digit (c : ascii) : bool := between 48 57 c.
Definition unreserved (c : ascii) : bool := alpha c || digit c || str_mem c "-._~".
Definition sub_delims (c : ascii) : bool := str_mem c "!$&'()*+,;=".
Definition scheme_char (c : ascii) : bool := alpha c || digit c || str_mem c "+-.".
Definition reg_char (c : ascii) : bool := unreserved c || sub_delims c.
Definition pchar (c : ascii) : bool := between 128 255 c || unreserved c || sub_delims c || str_mem c ":@".
Definition path_char (c : ascii) : bool := pchar c || Ascii.eqb c "/".
Definition query_char (c : ascii) : bool := path_char c || Ascii.eqb c "?".

(** ** The rest of [Create] *)

Definition finish (text : string) (r : N * nat * vars) : outcome (option Uri) :=
  let '(cs, p, v) := r in
  '(v, _) ← (if (p =? String.length text)%nat then do_all (do_action text) (eof_acts uri_machine cs) p v else Ok (v, None));
  if (cs =? m_error uri_machine)%N then Ok None
  else if (m_first_final uri_machine <=? cs)%N then Ok (Some (v_uri v))
  else Ok None.

(** ** Facts of the machine *)

Abbreviation U := uri_machine.
Abbreviation on c := (Ascii.eqb c).

(** Ending in a final state. *)
Definition final_on (Q : list N) (acts : list action) : bool :=
  resting U Q
  && forallb (fun q => bool_decide (eof_acts U q = acts)
                       && negb (q =? m_error U)%N && (m_first_final U <=? q)%N) Q.

Lemma query_entry : entry U false query_char [456%N] [marku] [457%N] = true /\ closed U false query_char [457%N] = true.
Proof. split; vm_compute; reflexivity. Qed.

Lemma fragment_entry : entry U false query_char [453%N] [marku] [454%N] = true /\ closed U false query_char [454%N] = true.
Proof. split; vm_compute; reflexivity. Qed.

Lemma query_out : edge U false [457%N] (on "#") [save_query] [453%N] = true /\ final_on [457%N] [save_query] = true.
Proof. split; vm_compute; reflexivity. Qed.

Lemma fragment_out : final_on [454%N] [save_fragment] = true.
Proof. vm_compute. reflexivity. Qed.

Lemma path_facts :
  closed U false path_char [513%N] = true /\ edge U false [513%N] (on "#") [save_path] [453%N] = true
  /\ edge U false [513%N] (on "?") [save_path] [456%N] = true /\ final_on [513%N] [save_path] = true.
Proof. split_and!; vm_compute; reflexivity. Qed.

(** The states inside a user name or host, inside a host after a user name,
    before a port and inside a port. *)
Definition in_authority : list N := [520; 543; 544; 545; 546; 547; 548; 549; 550; 551; 552; 553; 554; 555; 556; 557; 558; 559; 560]%N.
Definition in_host : list N := [523; 524; 525; 526; 527; 528; 529; 530; 531; 532; 533; 534; 535; 536; 537; 538; 539; 540; 541]%N.
Definition before_port : list N := [514%N; 521%N].
Definition in_port : list N := [515; 542]%N.

(** How a host ends: with a slash or with a port. *)
Definition host_ends (Q : list N) : bool :=
  edge U false Q (on "/") [save_host; markh] [513%N] && edge U false Q (on ":") [save_host] before_port.

Lemma authority_facts :
  entry U false reg_char [511%N] [markh] in_authority = true /\ closed U false reg_char in_authority = true
  /\ edge U false in_authority (on "@") [save_userinfo] [522%N] = true
  /\ entry U false reg_char [522%N] [markh] in_host = true /\ closed U false reg_char in_host = true.
Proof. split_and!; vm_compute; reflexivity. Qed.

Lemma host_facts : host_ends in_authority = true /\ host_ends in_host = true.
Proof. split; vm_compute; reflexivity. Qed.

Lemma host_ends_spec Q :
  host_ends Q = true ->
  edge U false Q (on "/") [save_host; markh] [513%N] = true /\ edge U false Q (on ":") [save_host] before_port = true.
Proof. unfold host_ends. by intros [? ?]%andb_true_iff. Qed.

Lemma port_facts :
  edge U false before_port digit [markh] in_port = true /\ edge U false in_port digit [] in_port = true
  /\ edge U false in_port (on "/") [save_port; markh] [513%N] = true.
Proof. split_and!; vm_compute; reflexivity. Qed.

Lemma scheme_facts :
  edge U false [451%N] alpha [marku] [508%N] = true /\ edge U false [508%N] scheme_char [] [508%N] = true
  /\ edge U false [508%N] (on ":") [save_scheme] [509%N] = true /\ edge U false [509%N] (on "/") [] [510%N] = true
  /\ edge U false [510%N] (on "/") [] [511%N] = true.
Proof. split_and!; vm_compute; reflexivity. Qed.

Section stages.
Context (text : string).

Abbreviation exec := (run U false (do_action text)).

Lemma finish_on Q acts q v v' :
  final_on Q acts = true -> In q Q -> do_all (do_action text) acts (String.length text) v = Ok (v', None) ->
  (exec q (String.length text) "" v ≫= finish text) = Ok (Some (v_uri v')).
Proof.
  unfold final_on. intros [Hr Hf]%andb_true_iff Hq Hd. rewrite (run_end _ _ _ _ _ _ _ Hr Hq). rewrite forallb_forall in Hf.
  apply Hf in Hq. apply andb_true_iff in Hq as [[He Hn]%andb_true_iff Hl]. apply bool_decide_eq_true in He.
  cbn [mbind outcome_bind finish]. rewrite Nat.eqb_refl, He, Hd. cbn [mbind outcome_bind].
  apply negb_true_iff in Hn. by rewrite Hn, Hl.
Qed.

#[local] Opaque uri_machine edge entry closed final_on.

Lemma piece_at pre w rest :
  text = (pre ++ w ++ rest)%string -> piece text (Some (String.length pre)) (String.length pre + String.length w) = Ok w.
Proof.
  intros ->. unfold piece. cbn [of_ptr mbind outcome_bind]. destruct (Nat.leb_spec (String.length pre) (String.length pre + String.length w)); [| lia].
  f_equal. rewrite str_drop_app, str_drop_ge, Nat.sub_diag by lia. simpl.
  rewrite Nat.add_comm, Nat.add_sub, str_take_app, str_take_ge, Nat.sub_diag by lia. apply str_app_nil.
Qed.

(** A part that stands after its mark character, when it is not empty. *)
Definition marked (c : ascii) (s : string) : string := if String.eqb s "" then "" else String c s.

(** The fragment, up to the end. *)
Lemma fragment_stage pre f u m :
  text = (pre ++ f)%string -> f <> ""%string -> word query_char f = true ->
  (exec 453 (String.length pre) f (mkVars u m) ≫= finish text) = Ok (Some (setFragment u f)).
Proof.
  intros Ht Hne Hw.
  destruct (run_entry U false (do_action text) _ _ _ _ f 453 (proj1 fragment_entry) (proj2 fragment_entry) Hw Hne
              (or_introl eq_refl)) as (n & Hn & E).
  specialize (E (String.length pre) ""%string (mkVars u m) (mkVars u (Some (String.length pre))) eq_refl).
  rewrite str_app_nil in E. rewrite E.
  assert (Hl : (String.length pre + String.length f)%nat = String.length text) by (by rewrite Ht, length_str_app).
  rewrite Hl. apply (finish_on _ _ _ _ (mkVars (setFragment u f) None) fragment_out Hn).
  pose proof (piece_at pre f "" ltac:(by rewrite str_app_nil)) as Hp. rewrite Hl in Hp.
  cbn [do_all do_action v_mark v_uri]. by rewrite Hp.
Qed.

(** From a state where [acts] save a part: what follows is a fragment or
    nothing. *)
Lemma saved_then_fragment Q acts pre f v u :
  edge U false Q (Ascii.eqb "#") acts [453%N] = true -> final_on Q acts = true ->
  text = (pre ++ marked "#" f)%string -> word query_char f = true ->
  do_all (do_action text) acts (String.length pre) v = Ok (mkVars u None, None) -> m_fragment u = ""%string ->
  forall q, In q Q -> (exec q (String.length pre) (marked "#" f) v ≫= finish text) = Ok (Some (setFragment u f)).
Proof.
  intros He Hf Ht Hw Hd Hu q Hq. unfold marked in *. destruct (String.eqb_spec f "") as [-> | Hne].
  - rewrite str_app_nil in Ht. rewrite <- Ht in Hd |- *. rewrite (finish_on _ _ _ _ _ Hf Hq Hd).
    simpl. destruct u; simpl in *; by subst.
  - destruct (run_char U false (do_action text) _ _ _ _ _ He Hq) as (n & [<- | []] & E).
    rewrite (E _ _ _ _ Hd).
    replace (S (String.length pre)) with (String.length (pre ++ "#")) by (rewrite length_str_app; simpl; lia).
    apply fragment_stage; [| done | done]. by rewrite Ht, str_app_snoc.
Qed.

(** …and the query before it. *)
Lemma saved_then_query Q acts pre qu f v u :
  edge U false Q (Ascii.eqb "#") acts [453%N] = true -> edge U false Q (Ascii.eqb "?") acts [456%N] = true ->
  final_on Q acts = true -> text = (pre ++ marked "?" qu ++ marked "#" f)%string ->
  word query_char qu = true -> word query_char f = true ->
  do_all (do_action text) acts (String.length pre) v = Ok (mkVars u None, None) -> m_query u = ""%string -> m_fragment u = ""%string ->
  forall q, In q Q ->
  (exec q (String.length pre) (marked "?" qu ++ marked "#" f) v ≫= finish text) = Ok (Some (setFragment (setQuery u qu) f)).
Proof.
  intros He Hq' Hf Ht Hwq Hwf Hd Hu Hu' q Hq. destruct (String.eqb_spec qu "") as [-> | Hne].
  - rewrite (saved_then_fragment Q acts pre f v u) by done. destruct u; simpl in *; by subst.
  - assert (Em : marked "?" qu = String "?" qu) by (unfold marked; by destruct (String.eqb_spec qu "")).
    rewrite Em in Ht |- *. destruct (run_char U false (do_action text) _ _ _ _ _ Hq' Hq) as (n & [<- | []] & E).
    cbn [String.append]. rewrite (E _ _ _ _ Hd).
    destruct (run_entry U false (do_action text) _ _ _ _ qu 456 (proj1 query_entry) (proj2 query_entry) Hwq Hne
                (or_introl eq_refl)) as (n & Hn & E2).
    rewrite (E2 (S (String.length pre)) (marked "#" f) (mkVars u None) (mkVars u (Some (S (String.length pre)))) eq_refl).
    set (pre2 := (pre ++ "?")%string).
    replace (S (String.length pre)) with (String.length pre2) by (unfold pre2; rewrite length_str_app; simpl; lia).
    rewrite <- length_str_app.
    apply (saved_then_fragment _ _ _ _ _ _ (proj1 query_out) (proj2 query_out)); [| done | | done | done].
    + rewrite Ht. unfold pre2. by rewrite !str_app_assoc.
    + cbn [do_all do_action v_mark v_uri]. rewrite length_str_app, (piece_at pre2 qu (marked "#" f)); [done |].
      rewrite Ht. unfold pre2. by rewrite !str_app_assoc.
Qed.

(** What follows the path. *)
Abbreviation tail qu f := (marked "?" qu ++ marked "#" f)%string.

(** The path, whose slash has just been read. *)
Lemma path_stage pre w qu f u :
  text = (pre ++ String "/" (w ++ tail qu f))%string ->
  word path_char w = true -> word query_char qu = true -> word query_char f = true ->
  m_query u = ""%string -> m_fragment u = ""%string ->
  (exec 513 (S (String.length pre)) (w ++ tail qu f) (mkVars u (Some (String.length pre))) ≫= finish text)
  = Ok (Some (setFragment (setQuery (setPath u (String "/" w)) qu) f)).
Proof.
  intros Ht Hw Hq Hf Hu Hu'. destruct path_facts as (H1 & H2 & H3 & H4).
  destruct (run_word U false (do_action text) _ _ w H1 Hw 513 (or_introl eq_refl)) as (n & Hn & E). rewrite E.
  replace (S (String.length pre) + String.length w)%nat with (String.length (pre ++ String "/" w))
    by (rewrite length_str_app; simpl; lia).
  refine (saved_then_query _ _ (pre ++ String "/" w) qu f _ (setPath u (String "/" w)) H2 H3 H4 _ Hq Hf _ Hu Hu' n Hn).
  - rewrite Ht. by rewrite !str_app_assoc.
  - cbn [do_all do_action v_mark v_uri]. rewrite length_str_app, (piece_at pre (String "/" w) (tail qu f)); [done |].
    by rewrite Ht.
Qed.

(** The port, if there is one. *)
Definition port_part (ds : string) : string := if String.eqb ds "" then "" else String ":" ds.

(** A port, whose colon has just been read. *)
Lemma port_stage pre ds w qu f u m :
  text = (pre ++ ds ++ String "/" (w ++ tail qu f))%string ->
  str_forall digit ds = true -> ds <> ""%string -> 0 <= Cn.digits 10 ds 0 < 2 ^ 31 ->
  word path_char w = true -> word query_char qu = true -> word query_char f = true ->
  m_query u = ""%string -> m_fragment u = ""%string ->
  forall q, In q before_port ->
  (exec q (String.length pre) (ds ++ String "/" (w ++ tail qu f)) (mkVars u m) ≫= finish text)
  = Ok (Some (setFragment (setQuery (setPath (setPort u (Cn.digits 10 ds 0)) (String "/" w)) qu) f)).
Proof.
  intros Ht Hds Hne Hr Hw Hq Hf Hu Hu' q HQ.
  assert (Hn : Cn.atoi (str_drop (String.length pre) text) = Ok (Cn.digits 10 ds 0)).
  { rewrite Ht, str_drop_app, str_drop_ge, Nat.sub_diag by lia. simpl. unfold Cn.atoi.
    rewrite Cn.number_digits; [| done | | done].
    - by rewrite (proj2 (Z.leb_le _ _)), (proj2 (Z.ltb_lt _ _)) by lia.
    - apply str_forall_impl with digit; [| done]. intros c. destruct c as [[] [] [] [] [] [] [] []]; vm_compute; congruence. }
  destruct ds as [| d ds]; [done |]. simpl in Hds. apply andb_true_iff in Hds as [Hd Hds].
  destruct port_facts as (H1 & H2 & H3).
  destruct (run_first U false (do_action text) _ _ _ _ _ d ds q H1 H2 Hd Hds HQ) as (n & Hn' & E). cbn [String.append].
  rewrite (E (String.length pre) _ (mkVars u m) (mkVars u (Some (String.length pre))) eq_refl).
  destruct (run_char U false (do_action text) _ _ _ _ _ H3 Hn') as (n2 & [<- | []] & E2). clear H1 H2 H3 Hn'.
  rewrite (E2 _ _ _ (mkVars (setPort u (Cn.digits 10 (String d ds) 0)) (Some (String.length pre + String.length (String d ds))%nat))).
  - rewrite <- length_str_app. apply path_stage; try done. by rewrite Ht, str_app_assoc.
  - cbn [do_all do_action v_mark v_uri]. rewrite bool_decide_eq_false_2 by (intros [=]; simpl in *; lia).
    cbn [of_ptr mbind outcome_bind]. by rewrite Hn.
Qed.

(** The end of the host, with or without a port, and what follows. *)
Lemma host_stage Q pre h ds w qu f u :
  host_ends Q = true ->
  text = (pre ++ h ++ port_part ds ++ String "/" (w ++ tail qu f))%string ->
  str_forall digit ds = true -> 0 <= Cn.digits 10 ds 0 < 2 ^ 31 ->
  word path_char w = true -> word query_char qu = true -> word query_char f = true ->
  m_query u = ""%string -> m_fragment u = ""%string ->
  forall q, In q Q ->
  (exec q (String.length pre + String.length h) (port_part ds ++ String "/" (w ++ tail qu f)) (mkVars u (Some (String.length pre)))
   ≫= finish text)
  = Ok (Some (setFragment (setQuery (setPath (if String.eqb ds "" then setHost u h else setPort (setHost u h) (Cn.digits 10 ds 0))
       (String "/" w)) qu) f)).
Proof.
  intros [H1 H2]%host_ends_spec Ht Hds Hport Hw Hq Hf Hu Hu' q HQ.
  assert (Hp : piece text (Some (String.length pre)) (String.length pre + String.length h) = Ok h) by by eapply piece_at.
  unfold port_part in *. destruct (String.eqb_spec ds "") as [-> | Hne].
  - destruct (run_char U false (do_action text) _ _ _ _ _ H1 HQ) as (n & [<- | []] & E). clear H1 H2. cbn [String.append].
    rewrite (E _ _ _ (mkVars (setHost u h) (Some (String.length pre + String.length h)%nat))).
    2: { cbn [do_all do_action v_mark v_uri]. by rewrite Hp. }
    rewrite <- length_str_app. apply path_stage; try done. by rewrite Ht, str_app_assoc.
  - destruct (run_char U false (do_action text) _ _ _ _ _ H2 HQ) as (n & Hn & E). clear H1 H2. cbn [String.append].
    rewrite (E _ _ _ (mkVars (setHost u h) (Some (String.length pre)))).
    2: { cbn [do_all do_action v_mark v_uri]. by rewrite Hp. }
    replace (S (String.length pre + String.length h)) with (String.length ((pre ++ h) ++ ":"))
      by (rewrite !length_str_app; simpl; lia).
    apply port_stage; try done. by rewrite Ht, !str_app_assoc.
Qed.

(** The authority, with or without a user name. *)
Definition user_part (ui : string) : string := if String.eqb ui "" then "" else ui ++ "@".

Lemma mark_now p u m : do_all (do_action text) [markh] p (mkVars u m) = Ok (mkVars u (Some p), None).
Proof. done. Qed.

Lemma authority_stage pre ui h ds w qu f u m :
  text = (pre ++ user_part ui ++ h ++ port_part ds ++ String "/" (w ++ tail qu f))%string ->
  word reg_char ui = true -> word reg_char h = true -> h <> ""%string ->
  str_forall digit ds = true -> 0 <= Cn.digits 10 ds 0 < 2 ^ 31 ->
  word path_char w = true -> word query_char qu = true -> word query_char f = true ->
  m_userinfo u = ""%string -> m_query u = ""%string -> m_fragment u = ""%string ->
  (exec 511 (String.length pre) (user_part ui ++ h ++ port_part ds ++ String "/" (w ++ tail qu f)) (mkVars u m) ≫= finish text)
  = Ok (Some (setFragment (setQuery (setPath
       (let u := setHost (setUserinfo u ui) h in if String.eqb ds "" then u else setPort u (Cn.digits 10 ds 0))
       (String "/" w)) qu) f)).
Proof.
  intros Ht Hui Hh Hne Hds Hr Hw Hq Hf Hu0 Hu Hu'. unfold user_part in *.
  destruct authority_facts as (H1 & H2 & H3 & H4 & H5). destruct host_facts as [H6 H7].
  destruct (String.eqb_spec ui "") as [-> | Hne2].
  - cbn [String.append] in Ht |- *.
    destruct (run_entry U false (do_action text) _ _ _ _ h 511 H1 H2 Hh Hne (or_introl eq_refl)) as (n & Hn & E).
    rewrite (E _ _ _ _ (mark_now _ _ _)).
    rewrite (host_stage _ _ _ _ _ _ _ _ H6 Ht Hds Hr Hw Hq Hf Hu Hu' n Hn). clear - Hu0. destruct u; simpl in *; by subst.
  - destruct (run_entry U false (do_action text) _ _ _ _ ui 511 H1 H2 Hui Hne2 (or_introl eq_refl)) as (n & Hn & E).
    destruct (run_char U false (do_action text) _ _ _ _ _ H3 Hn) as (n2 & [<- | []] & E2).
    destruct (run_entry U false (do_action text) _ _ _ _ h 522 H4 H5 Hh Hne (or_introl eq_refl)) as (n3 & Hn3 & E3).
    rewrite !str_app_assoc in Ht |- *.
    rewrite (E _ _ _ _ (mark_now _ _ _)). cbn [String.append] in Ht |- *.
    rewrite (E2 _ _ _ (mkVars (setUserinfo u ui) None)).
    2: { cbn [do_all do_action v_mark v_uri]. rewrite (piece_at pre ui _ Ht). reflexivity. }
    rewrite (E3 _ _ _ _ (mark_now _ _ _)).
    replace (S (String.length pre + String.length ui)) with (String.length ((pre ++ ui) ++ "@"))
      by (rewrite !length_str_app; simpl; lia).
    refine (host_stage _ ((pre ++ ui) ++ "@") h ds w qu f (setUserinfo u ui) H7 _ Hds Hr Hw Hq Hf Hu Hu' n3 Hn3).
    rewrite Ht. clear. by rewrite !str_app_assoc.
Qed.

End stages.

(** ** The round trip *)

(** The parts of a reference that [dump] can print so that they are read back. *)
Definition uri_ok (u : Uri) : bool :=
  match m_scheme u with String c s => alpha c && str_forall scheme_char s | ""%string => false end
  && word reg_char (m_userinfo u)
  && negb (String.eqb (m_host u) "") && word reg_char (m_host u)
  && match m_path u with String c w => Ascii.eqb c "/" && word path_char w | ""%string => true end
  && word query_char (m_query u) && word query_char (m_fragment u)
  && (0 <=? m_port u) && (m_port u <? 2 ^ 31).

(** What [dump] leaves out: a port that is the default, and the empty path. *)
Definition printed (u : Uri) : Uri := setPort (setPath u (getPath u)) (if isDefaultPort u then 0 else m_port u).

Lemma port_digits u :
  0 <= m_port u < 2 ^ 31 ->
  exists ds, port_part ds = (if isDefaultPort u then "" else ":" ++ pretty (m_port u))%string
    /\ str_forall digit ds = true /\ 0 <= Cn.digits 10 ds 0 < 2 ^ 31
    /\ (if String.eqb ds "" then 0 else Cn.digits 10 ds 0) = (if isDefaultPort u then 0 else m_port u).
Proof.
  intros Hp. destruct (isDefaultPort u) eqn:E; [by exists ""%string |].
  assert (Hpos : m_port u <> 0) by (intros E'; unfold isDefaultPort in E; by rewrite E' in E).
  destruct (Cn.pretty_digits (Z.to_N (m_port u))) as (a & Ea & Hne & Ha & Hv). exists a.
  assert (Hz : pretty (m_port u) = a) by (rewrite <- Ea; clear - Hp Hpos; destruct (m_port u); [lia | done | lia]).
  rewrite Hz, Hv, Z2N.id by lia. unfold port_part. destruct (String.eqb_spec a ""); [done |]. split_and!; try done; try lia.
  apply str_forall_impl with (Cn.is_digit 10); [| done]. intros c. destruct c as [[] [] [] [] [] [] [] []]; vm_compute; congruence.
Qed.

(** The scheme and what follows it. *)
Lemma scheme_stage text c s rest :
  text = (String c (s ++ "://" ++ rest))%string -> alpha c = true -> str_forall scheme_char s = true ->
  Create text = (run U false (do_action text) 511 (String.length (String c s ++ "://")) rest
                   (mkVars (setScheme new_Uri (String c s)) None) ≫= finish text).
Proof.
  intros Ht Hc Hs. destruct scheme_facts as (H1 & H2 & H3 & H4 & H5).
  destruct (run_first U false (do_action text) _ _ _ _ _ c s 451 H1 H2 Hc Hs (or_introl eq_refl)) as (n & [<- | []] & E1).
  destruct (run_char U false (do_action text) _ _ _ _ 508 H3 (or_introl eq_refl)) as (n & [<- | []] & E2).
  destruct (run_char U false (do_action text) _ _ _ _ 509 H4 (or_introl eq_refl)) as (n & [<- | []] & E3).
  destruct (run_char U false (do_action text) _ _ _ _ 510 H5 (or_introl eq_refl)) as (n & [<- | []] & E4).
  clear H1 H2 H3 H4 H5. change (Create text) with (run U false (do_action text) 451 0 text (mkVars new_Uri None) ≫= finish text).
  replace (run U false (do_action text) 451 0 text) with (run U false (do_action text) 451 0 (String c (s ++ "://" ++ rest)))
    by (by rewrite <- Ht). cbn [String.append].
  rewrite (E1 0%nat _ (mkVars new_Uri None) (mkVars new_Uri (Some 0%nat)) eq_refl), (E2 _ _ _ (mkVars (setScheme new_Uri (String c s)) None)).
  2: { cbn [do_all do_action v_mark v_uri Nat.add String.length]. pose proof (piece_at text "" (String c s) ("://" ++ rest) Ht) as Hp. simpl in Hp. by rewrite Hp. }
  rewrite (E3 _ _ _ _ eq_refl), (E4 _ _ _ _ eq_refl). do 2 f_equal. cbn [String.length]. rewrite length_str_app. simpl. lia.
Qed.

Lemma path_form u :
  match m_path u with String c w => Ascii.eqb c "/" && word path_char w | ""%string => true end = true ->
  exists w, getPath u = String "/" w /\ word path_char w = true.
Proof.
  unfold getPath. destruct (m_path u) as [| c w]; [by exists ""%string |].
  intros [->%Ascii.eqb_eq ?]%andb_true_iff. by exists w.
Qed.

(** What is printed is the same before and after. *)
Lemma printed_same u : getPort (printed u) = getPort u /\ getPath (printed u) = getPath u /\ dump (printed u) = dump u.
Proof.
  assert (Hd : isDefaultPort (printed u) = isDefaultPort u).
  { unfold isDefaultPort at 1, printed. simpl. destruct (isDefaultPort u) eqn:E; [done |]. exact E. }
  assert (Hp : getPath (printed u) = getPath u) by (unfold printed, getPath; simpl; by destruct (m_path u)).
  split_and!; [| done |].
  - unfold printed, getPort, isDefaultPort. simpl. destruct (Z.eqb_spec (m_port u) 0) as [-> |]; [done |]. simpl.
    destruct (_ || _); [by destruct (Z.eqb_spec (m_port u) 80) as [-> |]; simpl; rewrite ?(proj2 (Z.eqb_neq _ _)) |].
    destruct (_ || _); [by destruct (Z.eqb_spec (m_port u) 443) as [-> |]; simpl; rewrite ?(proj2 (Z.eqb_neq _ _)) |].
    by rewrite (proj2 (Z.eqb_neq _ _)).
  - unfold dump. rewrite Hd, Hp. unfold printed. simpl. by destruct (isDefaultPort u).
Qed.

Lemma marked_form c s : ((if String.eqb s "" then "" else String c "") ++ s)%string = marked c s.
Proof. unfold marked. by destruct (String.eqb_spec s "") as [-> |]. Qed.

(** [dump], part by part. *)
Lemma dump_form u c s w ds :
  m_scheme u = String c s -> getPath u = String "/" w ->
  port_part ds = (if isDefaultPort u then "" else ":" ++ pretty (m_port u))%string ->
  dump u = String c (s ++ "://" ++ user_part (m_userinfo u) ++ m_host u ++ port_part ds
                     ++ String "/" (w ++ marked "?" (m_query u) ++ marked "#" (m_fragment u)))%string.
Proof.
  intros Es Ew Ed. unfold dump. rewrite Es, Ew, <- Ed, <- !marked_form. unfold user_part.
  destruct (String.eqb_spec (m_userinfo u) "") as [-> |]; simpl; by rewrite ?str_app_assoc.
Qed.

(** C19: What [Uri::dump] prints, [Uri::Create] reads back. For a scheme, a user
    name without colons, a host name (or address in dotted form), a port, a
    path, a query and a fragment made of the characters the grammar allows
    them, percent-encoded bytes included, parsing the printed text gives the
    same object, up to what is not printed: the port when it is the scheme's
    default and the path when it is empty, for which the accessors give the
    same answers; and the object read prints the same text. *)
Theorem uri_roundtrip (u : Uri) :
  uri_ok u = true ->
  Create (dump u) = Ok (Some (printed u))
  /\ getPort (printed u) = getPort u /\ getPath (printed u) = getPath u /\ dump (printed u) = dump u.
Proof.
  unfold uri_ok. rewrite !andb_true_iff, negb_true_iff, String.eqb_neq, Z.leb_le, Z.ltb_lt.
  intros [[[[[[[[Hs Hui] Hne] Hh] Hp] Hq] Hf] H0] Hlt].
  split; [| by destruct (printed_same u) as (? & ? & ?)].
  destruct (path_form u Hp) as (w & Ew & Hw). destruct (port_digits u (conj H0 Hlt)) as (ds & Ed & Hds & Hr & Hv).
  destruct (m_scheme u) as [| c s] eqn:Es; [done |]. apply andb_true_iff in Hs as [Hc Hs].
  pose proof (dump_form u c s w ds Es Ew Ed) as Ht.
  rewrite (scheme_stage (dump u) c s _ Ht Hc Hs).
  rewrite (authority_stage (dump u) (String c s ++ "://") (m_userinfo u) (m_host u) ds w (m_query u) (m_fragment u)); try assumption.
  - do 2 f_equal. unfold printed. rewrite Ew, <- Hv. rewrite <- Es. clear. destruct (String.eqb ds ""); by destruct u.
  - rewrite Ht. clear. by rewrite <- str_app_assoc.
  - done.
  - done.
  - done.
Qed.

Definition sample_uri : Uri := mkUri "http" "user" "www.sylar.top" "/test/a%20b" "id=100&name=sylar" "frg" 8080.

Lemma uri_roundtrip_witness :
  Create "http://user@www.sylar.top:8080/test/a%20b?id=100&name=sylar#frg" = Ok (Some sample_uri).
Proof. exact (proj1 (uri_roundtrip sample_uri eq_refl)). Defined.
