(* ===== verification/Util.v ===== *)
(** sylar/util.cc: percent-encoding of URLs, trimming, path names, conversions,
    and the file-system helpers over an interface to the operating system. *)

From stdpp Require Import strings.
From Stdlib Require Import Ascii.
From S2P Require Import Prelude Strs.

#[local] Arguments String.append !_ _ /.

Module Ut.

(** * Percent-encoding *)

Definition uri_chars : list nat :=
  [(* 0 *)
   0; 0; 0; 0; 0; 0; 0; 0;   0; 0; 0; 0; 0; 0; 0; 0;
   0; 0; 0; 0; 0; 0; 0; 0;   0; 0; 0; 0; 0; 0; 0; 0;
   0; 0; 0; 0; 0; 0; 0; 0;   0; 0; 0; 0; 0; 1; 1; 0;
   1; 1; 1; 1; 1; 1; 1; 1;   1; 1; 0; 0; 0; 1; 0; 0;
   (* 64 *)
   0; 1; 1; 1; 1; 1; 1; 1;   1; 1; 1; 1; 1; 1; 1; 1;
   1; 1; 1; 1; 1; 1; 1; 1;   1; 1; 1; 0; 0; 0; 0; 1;
   0; 1; 1; 1; 1; 1; 1; 1;   1; 1; 1; 1; 1; 1; 1; 1;
   1; 1; 1; 1; 1; 1; 1; 1;   1; 1; 1; 0; 0; 0; 1; 0;
   (* 128 *)
   0; 0; 0; 0; 0; 0; 0; 0;   0; 0; 0; 0; 0; 0; 0; 0;
   0; 0; 0; 0; 0; 0; 0; 0;   0; 0; 0; 0; 0; 0; 0; 0;
   0; 0; 0; 0; 0; 0; 0; 0;   0; 0; 0; 0; 0; 0; 0; 0;
   0; 0; 0; 0; 0; 0; 0; 0;   0; 0; 0; 0; 0; 0; 0; 0;
   (* 192 *)
   0; 0; 0; 0; 0; 0; 0; 0;   0; 0; 0; 0; 0; 0; 0; 0;
   0; 0; 0; 0; 0; 0; 0; 0;   0; 0; 0; 0; 0; 0; 0; 0;
   0; 0; 0; 0; 0; 0; 0; 0;   0; 0; 0; 0; 0; 0; 0; 0;
   0; 0; 0; 0; 0; 0; 0; 0;   0; 0; 0; 0; 0; 0; 0; 0].

Definition xdigit_chars : list nat :=
  [0; 0; 0; 0; 0; 0; 0; 0; 0; 0; 0; 0; 0; 0; 0; 0;
   0; 0; 0; 0; 0; 0; 0; 0; 0; 0; 0; 0; 0; 0; 0; 0;
   0; 0; 0; 0; 0; 0; 0; 0; 0; 0; 0; 0; 0; 0; 0; 0;
   0; 1; 2; 3; 4; 5; 6; 7; 8; 9; 0; 0; 0; 0; 0; 0;
   0; 10; 11; 12; 13; 14; 15; 0; 0; 0; 0; 0; 0; 0; 0; 0;
   0; 0; 0; 0; 0; 0; 0; 0; 0; 0; 0; 0; 0; 0; 0; 0;
   0; 10; 11; 12; 13; 14; 15; 0; 0; 0; 0; 0; 0; 0; 0; 0;
   0; 0; 0; 0; 0; 0; 0; 0; 0; 0; 0; 0; 0; 0; 0; 0;
   0; 0; 0; 0; 0; 0; 0; 0; 0; 0; 0; 0; 0; 0; 0; 0;
   0; 0; 0; 0; 0; 0; 0; 0; 0; 0; 0; 0; 0; 0; 0; 0;
   0; 0; 0; 0; 0; 0; 0; 0; 0; 0; 0; 0; 0; 0; 0; 0;
   0; 0; 0; 0; 0; 0; 0; 0; 0; 0; 0; 0; 0; 0; 0; 0;
   0; 0; 0; 0; 0; 0; 0; 0; 0; 0; 0; 0; 0; 0; 0; 0;
   0; 0; 0; 0; 0; 0; 0; 0; 0; 0; 0; 0; 0; 0; 0; 0;
   0; 0; 0; 0; 0; 0; 0; 0; 0; 0; 0; 0; 0; 0; 0; 0;
   0; 0; 0; 0; 0; 0; 0; 0; 0; 0; 0; 0; 0; 0; 0; 0].

Definition CHAR_IS_UNRESERVED (c : ascii) : bool :=
  negb (nth (nat_of_ascii c) uri_chars 0 =? 0).

(** [hexdigits[d]] *)
Definition hexdigit (d : nat) : ascii :=
  default "0"%char (String.get d "0123456789ABCDEF").

(** The buffer [ss] is allocated at the first character that is not copied,
    with the [i] characters before it. *)
Definition opened (str : string) (i : nat) (ss : option string) : string :=
  default (str_take i str) ss.

Fixpoint UrlEncode_loop (str : string) (space_as_plus : bool) (i : nat) (rest : string)
  (ss : option string) : option string :=
  match rest with
  | ""%string => ss
  | String c rest =>
      UrlEncode_loop str space_as_plus (S i) rest
        (if negb (CHAR_IS_UNRESERVED c) then
           let b := opened str i ss in
           Some (if Ascii.eqb c " " && space_as_plus then str_snoc b "+"
                 else str_snoc (str_snoc (str_snoc b "%") (hexdigit (nat_of_ascii c / 16)))
                        (hexdigit (nat_of_ascii c mod 16)))
         else option_map (fun b => str_snoc b c) ss)
  end.

(** [StringUtil::UrlEncode] *)
Definition UrlEncode (str : string) (space_as_plus : bool) : string :=
  default str (UrlEncode_loop str space_as_plus 0 str None).

(** [isxdigit] in the C locale. *)
Definition isxdigit (c : ascii) : bool :=
  let n := nat_of_ascii c in
  ((48 <=? n) && (n <=? 57)) || ((65 <=? n) && (n <=? 70)) || ((97 <=? n) && (n <=? 102)).

Definition xdigit (c : ascii) : nat := nth (nat_of_ascii c) xdigit_chars 0.

Fixpoint UrlDecode_loop (str : string) (space_as_plus : bool) (i : nat) (rest : string)
  (ss : option string) : option string :=
  match rest with
  | ""%string => ss
  | String c rest =>
      let keep := UrlDecode_loop str space_as_plus (S i) rest (option_map (fun b => str_snoc b c) ss) in
      if Ascii.eqb c "+" && space_as_plus then
        UrlDecode_loop str space_as_plus (S i) rest (Some (str_snoc (opened str i ss) " "))
      else match rest with
           | String h (String l rest2) =>
               if Ascii.eqb c "%" && isxdigit h && isxdigit l then
                 UrlDecode_loop str space_as_plus (3 + i) rest2
                   (Some (str_snoc (opened str i ss) (ascii_of_nat (xdigit h * 16 + xdigit l))))
               else keep
           | _ => keep
           end
  end.

(** [StringUtil::UrlDecode] *)
Definition UrlDecode (str : string) (space_as_plus : bool) : string :=
  default str (UrlDecode_loop str space_as_plus 0 str None).

(** * Trimming *)

(** [str.find_first_not_of(delimit)]; [None] is [npos]. *)
Fixpoint find_first_not_of (str delimit : string) : option nat :=
  match str with
  | ""%string => None
  | String c str =>
      if str_mem c delimit then option_map S (find_first_not_of str delimit) else Some 0
  end.

(** [str.find_last_not_of(delimit)] *)
Fixpoint find_last_not_of (str delimit : string) : option nat :=
  match str with
  | ""%string => None
  | String c str =>
      match find_last_not_of str delimit with
      | Some k => Some (S k)
      | None => if str_mem c delimit then None else Some 0
      end
  end.

(** [str.substr(pos, n)] with [pos] inside the string. *)
Definition substr (str : string) (pos n : nat) : string := str_take n (str_drop pos str).

Definition Trim (str delimit : string) : string :=
  match find_first_not_of str delimit with
  | None => ""
  | Some begin =>
      (* a first one exists, so a last one does *)
      substr str begin (default 0 (find_last_not_of str delimit) - begin + 1)
  end.

Definition TrimLeft (str delimit : string) : string :=
  match find_first_not_of str delimit with
  | None => ""
  | Some begin => str_drop begin str
  end.

Definition TrimRight (str delimit : string) : string :=
  match find_last_not_of str delimit with
  | None => ""
  | Some e => substr str 0 e
  end.

(** * Path names *)

(** [str.rfind(c)] *)
Fixpoint rfind (c : ascii) (str : string) : option nat :=
  match str with
  | ""%string => None
  | String x str =>
      match rfind c str with
      | Some k => Some (S k)
      | None => if Ascii.eqb x c then Some 0 else None
      end
  end.

Definition Dirname (filename : string) : string :=
  if String.eqb filename "" then "."
  else match rfind "/" filename with
       | Some 0 => "/"
       | None => "."
       | Some pos => substr filename 0 pos
       end.

Definition Basename (filename : string) : string :=
  if String.eqb filename "" then filename
  else match rfind "/" filename with
       | None => filename
       | Some pos => str_drop (pos + 1) filename
       end.

(** * Conversions *)

(** [TypeUtil::ToChar(const std::string&)] *)
Definition ToChar (str : string) : Z :=
  match str with
  | ""%string => 0%Z
  | String c _ => i8 (Z.of_nat (nat_of_ascii c))
  end.

(** [TypeUtil::ToChar] of a pointer: a C string, or the null pointer. *)
Definition ToChar_ptr (str : option string) : Z :=
  match str with
  | None => 0%Z
  | Some s => match s with ""%string => 0%Z | String c _ => i8 (Z.of_nat (nat_of_ascii c)) end
  end.


(** * The file system *)

(** Entry types of [readdir]. *)
Inductive d_type := DT_DIR | DT_REG | DT_OTHER.

(** What the operating system answers; [opendir] gives the entries that
    [readdir] will return, [lstat] the mode bits. Paths hold no NUL. *)
Record os (FS : Type) := {
  lstat : FS -> string -> option Z;
  access : FS -> string -> bool;
  opendir : FS -> string -> option (list (d_type * string));
  mkdir : FS -> string -> FS * bool;
  unlink : FS -> string -> FS * bool;
  rmdir : FS -> string -> FS * bool;
  rename : FS -> string -> string -> FS * bool;
  symlink : FS -> string -> string -> FS * bool
}.
Arguments lstat {FS}. Arguments access {FS}. Arguments opendir {FS}. Arguments mkdir {FS}.
Arguments unlink {FS}. Arguments rmdir {FS}. Arguments rename {FS}. Arguments symlink {FS}.

Definition S_IFDIR : Z := 0x4000%Z.

Section filesystem.
Context {FS : Type} (o : os FS).

(** Entries that are skipped: ["."] and [".."]. *)
Definition dots (name : string) : bool := String.eqb name "." || String.eqb name "..".

Definition child (path name : string) : string := (path ++ "/" ++ name)%string.

(** Does a file name end in [subfix]? *)
Definition has_subfix (filename subfix : string) : bool :=
  if String.eqb subfix "" then true
  else if String.length filename <? String.length subfix then false
  else String.eqb (str_drop (String.length filename - String.length subfix) filename) subfix.

Definition list_entries (rec : list string -> string -> outcome (list string))
  (path subfix : string) : list (d_type * string) -> list string -> outcome (list string) :=
  fix go ents files :=
    match ents with
    | [] => Ok files
    | (t, name) :: ents =>
        files ← match t with
                | DT_DIR => if dots name then Ok files else rec files (child path name)
                | DT_REG => Ok (if has_subfix name subfix then files ++ [child path name] else files)
                | DT_OTHER => Ok files
                end;
        go ents files
    end.

(** [FSUtil::ListAllFile] *)
Fixpoint ListAllFile (fuel : nat) (fs : FS) (subfix : string) (files : list string) (path : string)
  : outcome (list string) :=
  match fuel with
  | 0 => Fail OutOfFuel
  | S fuel =>
      if negb (access o fs path) then Ok files
      else match opendir o fs path with
           | None => Ok files
           | Some ents => list_entries (ListAllFile fuel fs subfix) path subfix ents files
           end
  end.

Definition __mkdir (fs : FS) (dirname : string) : FS * bool :=
  if access o fs dirname then (fs, true) else mkdir o fs dirname.

(** The loop over the slashes after the first character, then the whole path;
    [path] is what precedes the cursor. *)
Fixpoint mkdir_dirs (fs : FS) (path rest : string) : FS * bool :=
  match rest with
  | ""%string => __mkdir fs path
  | String c rest =>
      if Ascii.eqb c "/" then
        let '(fs, ok) := __mkdir fs path in
        if ok then mkdir_dirs fs (str_snoc path c) rest else (fs, false)
      else mkdir_dirs fs (str_snoc path c) rest
  end.

(** [FSUtil::Mkdir]; for the empty path the search for a slash starts behind
    the terminator. *)
Definition Mkdir (fs : FS) (dirname : string) : outcome (FS * bool) :=
  if bool_decide (is_Some (lstat o fs dirname)) then Ok (fs, true)
  else match dirname with
       | ""%string => Fail NullDeref
       | String c rest => Ok (mkdir_dirs fs (String c "") rest)
       end.

Definition Unlink (fs : FS) (filename : string) (exist : bool) : FS * bool :=
  if negb exist && negb (bool_decide (is_Some (lstat o fs filename))) then (fs, true)
  else unlink o fs filename.

Definition rm_entries (rec : FS -> string -> outcome (FS * bool)) (path : string)
  : list (d_type * string) -> FS -> bool -> outcome (FS * bool) :=
  fix go ents fs ret :=
    match ents with
    | [] => Ok (fs, ret)
    | (_, name) :: ents =>
        if dots name then go ents fs ret
        else '(fs, ret) ← rec fs (child path name); go ents fs ret
    end.

(** [FSUtil::Rm] *)
Fixpoint Rm (fuel : nat) (fs : FS) (path : string) : outcome (FS * bool) :=
  match fuel with
  | 0 => Fail OutOfFuel
  | S fuel =>
      match lstat o fs path with
      | None => Ok (fs, true)
      | Some st_mode =>
          if (Z.land st_mode S_IFDIR =? 0)%Z then Ok (Unlink fs path false)
          else match opendir o fs path with
               | None => Ok (fs, false)
               | Some ents =>
                   '(fs, ret) ← rm_entries (Rm fuel) path ents fs true;
                   let '(fs, ok) := rmdir o fs path in
                   Ok (fs, if ok then ret else false)
               end
      end
  end.

(** [FSUtil::Mv] *)
Definition Mv (fuel : nat) (fs : FS) (from to : string) : outcome (FS * bool) :=
  '(fs, ok) ← Rm fuel fs to;
  if negb ok then Ok (fs, false) else Ok (rename o fs from to).

(** [FSUtil::Symlink] *)
Definition Symlink (fuel : nat) (fs : FS) (from to : string) : outcome (FS * bool) :=
  '(fs, ok) ← Rm fuel fs to;
  if negb ok then Ok (fs, false) else Ok (symlink o fs from to).

End filesystem.

(** * Rate-limited transfer

    A stream is good or not and serves a number of bytes: [is.read] of [s]
    bytes delivers what is there and sets the failure state when that is less. *)

(** [std::max((uint64_t)ceil(speed / 100.0), (uint64_t)1024 * 64)]; the
    division is exact for speeds a double holds. *)
Definition per_round (speed : nat) : nat := Nat.max (div_up speed 100) (1024 * 64).

(** The loop of [ReadFixFromStreamWithSpeed] over what the stream still holds;
    the data read, and whether [offset == size] at the end. *)
Fixpoint ReadFix_loop (fuel : nat) {A} (good : bool) (avail : list A) (data : list A) (size per : nat)
  : outcome (list A * bool) :=
  match fuel with
  | 0 => Fail OutOfFuel
  | S fuel =>
      if good && (length data <? size) then
        let s := if per <? size - length data then per else size - length data in
        ReadFix_loop fuel (s <=? length avail) (drop s avail) (data ++ take s avail) size per
      else Ok (data, length data =? size)
  end.

Definition ReadFixFromStreamWithSpeed (fuel : nat) {A} (avail : list A) (size speed : nat)
  : outcome (list A * bool) := ReadFix_loop fuel true avail [] size (per_round speed).

(** The loop of [WriteFixToStreamWithSpeed]; the stream fails from the
    [room]-th byte on. The result is what was written and the value returned. *)
Fixpoint WriteFix_loop (fuel : nat) {A} (good : bool) (room : nat) (out : list A) (data : list A)
  (offset per : nat) : outcome (list A * bool) :=
  match fuel with
  | 0 => Fail OutOfFuel
  | S fuel =>
      let size := length data in
      if good && (offset <? size) then
        let s := if per <? size - offset then per else size - offset in
        WriteFix_loop fuel (s <=? room) (room - s) (out ++ take (Nat.min s room) (drop offset data))
          data (offset + s) per
      else Ok (out, offset =? size)
  end.

Definition WriteFixToStreamWithSpeed (fuel : nat) {A} (room : nat) (data : list A) (speed : nat)
  : outcome (list A * bool) := WriteFix_loop fuel true room [] data 0 (per_round speed).

End Ut.
