(* ===== verification/UtilProps.v ===== *)
(** Theorems on the helpers of sylar/util.cc: percent-encoding, trimming, path
    names, and the file-system walks under the documented behaviour of the
    system calls. *)

From stdpp Require Import strings.
From Stdlib Require Import Ascii.
From S2P Require Import Prelude Strs Util.
Import Ut.

#[local] Arguments String.append !_ _ /.

(** * Percent-encoding, one character at a time

    The reference is written without the tables of util.cc. *)

(** The characters that stand for themselves: those of the comment above
    [UrlEncode], which are the unreserved characters of RFC 3986, and the equals
    sign, which the comment does not list. *)
Definition documented_unreserved : string := "-.0123456789ABCDEFGHIJKLMNOPQRSTUVWXYZ_abcdefghijklmnopqrstuvwxyz~".

Definition stands_for_itself (c : ascii) : bool := str_mem c documented_unreserved || Ascii.eqb c "=".

(** Hexadecimal digits and their values. *)
Definition hex_char (d : nat) : ascii := ascii_of_nat (if (d <? 10)%nat then 48 + d else 55 + d).

Definition hex_value (c : ascii) : option nat :=
  let n := nat_of_ascii c in
  if (48 <=? n)%nat && (n <=? 57)%nat then Some (n - 48)%nat
  else if (65 <=? n)%nat && (n <=? 70)%nat then Some (n - 55)%nat
  else if (97 <=? n)%nat && (n <=? 102)%nat then Some (n - 87)%nat
  else None.

Definition encode_char (plus : bool) (c : ascii) : string :=
  if stands_for_itself c then String c ""
  else if Ascii.eqb c " " && plus then "+"
  else String "%" (String (hex_char (nat_of_ascii c / 16)) (String (hex_char (nat_of_ascii c mod 16)) "")).

Fixpoint encode_ref (plus : bool) (s : string) : string :=
  match s with
  | ""%string => ""
  | String c s => (encode_char plus c ++ encode_ref plus s)%string
  end.

(** An escape at the head of the string: the byte it stands for. *)
Definition escape (c : ascii) (rest : string) : option (ascii * string) :=
  match rest with
  | String h (String l rest2) =>
      match Ascii.eqb c "%", hex_value h, hex_value l with
      | true, Some x, Some y => Some (ascii_of_nat (x * 16 + y), rest2)
      | _, _, _ => None
      end
  | _ => None
  end.

Fixpoint decode_ref (plus : bool) (s : string) : string :=
  match s with
  | ""%string => ""
  | String c rest =>
      if Ascii.eqb c "+" && plus then String " " (decode_ref plus rest)
      else match rest with
           | String h (String l rest2) =>
               match Ascii.eqb c "%", hex_value h, hex_value l with
               | true, Some x, Some y => String (ascii_of_nat (x * 16 + y)) (decode_ref plus rest2)
               | _, _, _ => String c (decode_ref plus rest)
               end
           | _ => String c (decode_ref plus rest)
           end
  end.

(** The tables say the same. *)
Lemma unreserved_set c : CHAR_IS_UNRESERVED c = stands_for_itself c.
Proof.
  apply eqb_prop. revert c. apply (ascii_all (fun c => Bool.eqb (CHAR_IS_UNRESERVED c) (stands_for_itself c))).
  vm_compute. reflexivity.
Qed.

Lemma hexdigit_chars c :
  hexdigit (nat_of_ascii c / 16) = hex_char (nat_of_ascii c / 16)
  /\ hexdigit (nat_of_ascii c mod 16) = hex_char (nat_of_ascii c mod 16).
Proof.
  pose proof (ascii_all (fun c => Ascii.eqb (hexdigit (nat_of_ascii c / 16)) (hex_char (nat_of_ascii c / 16))
    && Ascii.eqb (hexdigit (nat_of_ascii c mod 16)) (hex_char (nat_of_ascii c mod 16))) eq_refl c) as H.
  apply andb_prop in H as [H1 H2]. split; by apply Ascii.eqb_eq.
Qed.

Lemma xdigit_value c : hex_value c = if isxdigit c then Some (xdigit c) else None.
Proof.
  pose proof (ascii_all (fun c => bool_decide (hex_value c = if isxdigit c then Some (xdigit c) else None)) eq_refl c) as H.
  by apply bool_decide_eq_true in H.
Qed.

(** The buffer of the loops, once open, is a prefix of the result. *)
Lemma str_snoc_app b c s : (str_snoc b c ++ s)%string = (b ++ String c s)%string.
Proof. apply str_app_snoc. Qed.

Lemma encode_open str plus i rest b :
  UrlEncode_loop str plus i rest (Some b) = Some (b ++ encode_ref plus rest)%string.
Proof.
  revert i b. induction rest as [| c rest IH]; intros i b; simpl; [by rewrite str_app_nil |].
  unfold encode_char, opened. destruct (hexdigit_chars c) as [<- <-]. rewrite unreserved_set.
  destruct (stands_for_itself c); simpl.
  - by rewrite IH, str_snoc_app.
  - destruct (Ascii.eqb c " " && plus); by rewrite IH, !str_snoc_app.
Qed.

Lemma str_take_snoc a c r : str_take (S (String.length a)) (a ++ String c r) = str_snoc a c.
Proof.
  unfold str_snoc. rewrite str_take_app, str_take_ge by lia.
  replace (S (String.length a) - String.length a) with 1 by lia. by destruct r.
Qed.

Lemma str_take_length a r : str_take (String.length a) (a ++ r) = a.
Proof. rewrite str_take_app, Nat.sub_diag, str_take_ge by lia. simpl. apply str_app_nil. Qed.

Lemma length_str_snoc a c : String.length (str_snoc a c) = S (String.length a).
Proof. unfold str_snoc. rewrite length_str_app. simpl. lia. Qed.

Lemma encode_closed plus pre rest :
  default (pre ++ rest)%string
    (UrlEncode_loop (pre ++ rest) plus (String.length pre) rest None)
  = (pre ++ encode_ref plus rest)%string.
Proof.
  revert pre. induction rest as [| c rest IH]; intros pre; [done |]. cbn [UrlEncode_loop encode_ref].
  unfold encode_char, opened. destruct (hexdigit_chars c) as [<- <-]. rewrite unreserved_set.
  destruct (stands_for_itself c) eqn:E; cbn [negb option_map].
  - specialize (IH (str_snoc pre c)). rewrite length_str_snoc, !str_snoc_app in IH. rewrite IH. done.
  - rewrite encode_open. cbn [default from_option]. rewrite str_take_length.
    destruct (Ascii.eqb c " " && plus); by rewrite !str_snoc_app.
Qed.

(** Strings by length: three characters at a time. *)
Lemma str_len_ind (P : string -> Prop) :
  (forall s, (forall s', (String.length s' < String.length s)%nat -> P s') -> P s) -> forall s, P s.
Proof. intros H. apply (induction_ltof1 _ String.length). intros s IH. apply H. exact IH. Qed.

Lemma decode_ref_cons plus c rest :
  decode_ref plus (String c rest) =
    if Ascii.eqb c "+" && plus then String " " (decode_ref plus rest)
    else match escape c rest with
         | Some (x, rest2) => String x (decode_ref plus rest2)
         | None => String c (decode_ref plus rest)
         end.
Proof.
  unfold escape. cbn [decode_ref]. destruct (Ascii.eqb c "+" && plus); [done |].
  destruct rest as [| h [| l rest2]]; [done.. |].
  by destruct (Ascii.eqb c "%"), (hex_value h), (hex_value l).
Qed.

Lemma decode_loop_cons str plus i c rest ss :
  UrlDecode_loop str plus i (String c rest) ss =
    if Ascii.eqb c "+" && plus then UrlDecode_loop str plus (S i) rest (Some (str_snoc (opened str i ss) " "))
    else match escape c rest with
         | Some (x, rest2) => UrlDecode_loop str plus (3 + i) rest2 (Some (str_snoc (opened str i ss) x))
         | None => UrlDecode_loop str plus (S i) rest (option_map (fun b => str_snoc b c) ss)
         end.
Proof.
  unfold escape. cbn [UrlDecode_loop]. destruct (Ascii.eqb c "+" && plus); [done |].
  destruct rest as [| h [| l rest2]]; [done.. |]. rewrite !xdigit_value.
  by destruct (Ascii.eqb c "%"), (isxdigit h), (isxdigit l).
Qed.

Lemma escape_shorter c rest x rest2 :
  escape c rest = Some (x, rest2) -> (String.length rest2 < String.length rest)%nat.
Proof.
  unfold escape. destruct rest as [| h [| l r]]; try done.
  destruct (Ascii.eqb c "%"), (hex_value h), (hex_value l); try done. intros [= _ <-]. simpl. lia.
Qed.

Lemma decode_open str plus i rest b :
  UrlDecode_loop str plus i rest (Some b) = Some (b ++ decode_ref plus rest)%string.
Proof.
  revert i b. induction rest as [rest IH] using str_len_ind; intros i b.
  destruct rest as [| c rest]; [simpl; by rewrite str_app_nil |].
  rewrite decode_loop_cons, decode_ref_cons. unfold opened. cbn [default from_option option_map].
  destruct (Ascii.eqb c "+" && plus); [rewrite IH by (simpl; lia); by rewrite str_snoc_app |].
  destruct (escape c rest) as [[x rest2] |] eqn:E.
  - apply escape_shorter in E. rewrite IH by (simpl; lia). by rewrite str_snoc_app.
  - rewrite IH by (simpl; lia). by rewrite str_snoc_app.
Qed.

Lemma decode_closed plus pre rest :
  default (pre ++ rest)%string
    (UrlDecode_loop (pre ++ rest) plus (String.length pre) rest None)
  = (pre ++ decode_ref plus rest)%string.
Proof.
  revert pre. induction rest as [rest IH] using str_len_ind; intros pre.
  destruct rest as [| c rest]; [done |].
  rewrite decode_loop_cons, decode_ref_cons. unfold opened. cbn [default from_option option_map].
  destruct (Ascii.eqb c "+" && plus).
  { rewrite decode_open. cbn [default from_option]. by rewrite str_take_length, str_snoc_app. }
  destruct (escape c rest) as [[x rest2] |].
  - rewrite decode_open. cbn [default from_option]. by rewrite str_take_length, str_snoc_app.
  - specialize (IH rest ltac:(simpl; lia) (str_snoc pre c)).
    rewrite length_str_snoc, !str_snoc_app in IH. exact IH.
Qed.

Lemma UrlEncode_ref s plus : UrlEncode s plus = encode_ref plus s.
Proof. apply (encode_closed plus "" s). Qed.

Lemma UrlDecode_ref s plus : UrlDecode s plus = decode_ref plus s.
Proof. apply (decode_closed plus "" s). Qed.

(** Decoding one encoded character, whatever follows. *)
Lemma escape_encoded c rest :
  escape "%" (String (hex_char (nat_of_ascii c / 16)) (String (hex_char (nat_of_ascii c mod 16)) rest))
  = Some (c, rest).
Proof.
  pose proof (ascii_all (fun c => bool_decide (escape "%" (String (hex_char (nat_of_ascii c / 16))
    (String (hex_char (nat_of_ascii c mod 16)) "")) = Some (c, ""%string))) eq_refl c) as H.
  apply bool_decide_eq_true in H. unfold escape in *. cbn [Ascii.eqb Bool.eqb] in *.
  destruct (hex_value _) as [x |]; [| done]. destruct (hex_value _) as [y |]; [| done]. by injection H as ->.
Qed.

(** Characters that stand for themselves are neither an escape nor a plus. *)
Lemma unreserved_plain c : stands_for_itself c = true -> Ascii.eqb c "+" = false /\ Ascii.eqb c "%" = false.
Proof.
  intros H. assert (G : implb (stands_for_itself c) (negb (Ascii.eqb c "+") && negb (Ascii.eqb c "%")) = true)
    by (clear H; revert c; apply ascii_all; vm_compute; reflexivity).
  rewrite H in G. simpl in G. by to_props.
Qed.

Lemma decode_encode_char p q c rest :
  (p = true -> q = true) -> decode_ref q (encode_char p c ++ rest) = String c (decode_ref q rest).
Proof.
  intros Hpq. unfold encode_char. destruct (stands_for_itself c) eqn:E.
  - apply unreserved_plain in E as [E1 E2]. simpl String.append. rewrite decode_ref_cons, E1. simpl.
    unfold escape. rewrite E2. by destruct rest as [| h [| l r]].
  - destruct (Ascii.eqb c " ") eqn:Es; simpl andb.
    + apply Ascii.eqb_eq in Es as ->. destruct p; [| reflexivity].
      rewrite (Hpq eq_refl). reflexivity.
    + cbn [String.append]. rewrite decode_ref_cons. cbn [Ascii.eqb Bool.eqb andb]. by rewrite escape_encoded.
Qed.

Lemma decode_encode_ref p q s : (p = true -> q = true) -> decode_ref q (encode_ref p s) = s.
Proof. intros Hpq. induction s as [| c s IH]; [done |]. simpl encode_ref. by rewrite decode_encode_char, IH. Qed.

(** C36: the percent-encoder and the decoder, which look characters up in tables and
    copy into a buffer that they allocate only at the first character that
    changes, compute what a reference does that translates one character after
    the other and uses neither the tables nor the buffer. The encoder keeps
    letters, digits and "-._~", which the comment above [UrlEncode] lists, and
    the equals sign, which it does not list; it writes every other byte as a
    percent sign and two upper-case hexadecimal digits, a space as a plus sign
    where asked to. The decoder reads the escape of any byte, in either case of
    the digits, and leaves a percent sign alone that no two hexadecimal digits
    follow. With the same setting for spaces decoding undoes encoding. *)
Theorem url_codec_reference (s : string) (plus : bool) :
  UrlEncode s plus = encode_ref plus s /\ UrlDecode s plus = decode_ref plus s
  /\ UrlDecode (UrlEncode s plus) plus = s.
Proof.
  split_and!; [apply UrlEncode_ref | apply UrlDecode_ref |]. rewrite UrlDecode_ref, UrlEncode_ref. by apply decode_encode_ref.
Qed.

(** Decoding an encoded string gives the string back, for every byte string;
    a decoder that reads a plus sign as a space also reads what an encoder
    without plus signs wrote. *)
Theorem url_roundtrip (s : string) (p q : bool) :
  (p = true -> q = true) -> UrlDecode (UrlEncode s p) q = s.
Proof.
  intros Hpq. rewrite UrlDecode_ref, UrlEncode_ref. by apply decode_encode_ref.
Qed.

(** The other mixture loses spaces. *)
Lemma url_mixed_flags : UrlDecode (UrlEncode "a b" true) false = "a+b"%string.
Proof. reflexivity. Qed.

(** The comment above [UrlEncode] lists the characters that are not encoded;
    the table has the equals sign besides. *)
Lemma equals_not_encoded :
  str_mem "=" documented_unreserved = false /\ UrlEncode "a=b&c" false = "a=b%26c"%string.
Proof. by split. Qed.

(** * Trimming *)

Definition all_in (d s : string) : Prop := str_forall (fun c => str_mem c d) s = true.

Lemma find_first_split s d :
  match find_first_not_of s d with
  | None => all_in d s
  | Some k => exists a c r, s = (a ++ String c r)%string /\ String.length a = k /\ all_in d a /\ str_mem c d = false
  end.
Proof.
  unfold all_in. induction s as [| x s IH]; simpl; [done |]. destruct (str_mem x d) eqn:E.
  - destruct (find_first_not_of s d) as [k |]; simpl; [| done].
    destruct IH as (a & c & r & -> & Hl & Ha & Hc). exists (String x a), c, r. simpl. rewrite E, Hl. done.
  - exists "", x, s. done.
Qed.

Lemma find_last_split s d :
  match find_last_not_of s d with
  | None => all_in d s
  | Some k => exists a c r, s = (a ++ String c r)%string /\ String.length a = k /\ all_in d r /\ str_mem c d = false
  end.
Proof.
  unfold all_in. induction s as [| x s IH]; simpl; [done |].
  destruct (find_last_not_of s d) as [k |].
  - destruct IH as (a & c & r & -> & Hl & Hr & Hc). exists (String x a), c, r. simpl. by rewrite Hl.
  - destruct (str_mem x d) eqn:E; [done |]. exists "", x, s. done.
Qed.

Lemma find_last_app a t d k :
  find_last_not_of t d = Some k -> find_last_not_of (a ++ t) d = Some (String.length a + k).
Proof. intros H. induction a as [| x a IH]; simpl; [done |]. by rewrite IH. Qed.

Lemma str_snoc_inj a b c e : str_snoc a c = str_snoc b e -> a = b /\ c = e.
Proof.
  revert b. induction a as [| x a IH]; intros [| y b] H; simpl in H.
  - by injection H as ->.
  - by destruct b.
  - by destruct a.
  - injection H as -> H. by apply IH in H as [-> ->].
Qed.

(** [Trim] removes a prefix and a suffix of delimiters, and what is left has
    none at its ends. *)
Theorem Trim_spec (s d : string) :
  exists l r, s = (l ++ Trim s d ++ r)%string /\ all_in d l /\ all_in d r
  /\ (forall c t, Trim s d = String c t -> str_mem c d = false)
  /\ (forall c t, Trim s d = str_snoc t c -> str_mem c d = false).
Proof.
  unfold Trim. pose proof (find_first_split s d) as F. destruct (find_first_not_of s d) as [k |].
  2: { exists s, "". simpl. rewrite str_app_nil. split_and!; try done. by intros c []. }
  destruct F as (a & c & r & -> & <- & Ha & Hc).
  pose proof (find_last_split (String c r) d) as G.
  destruct (find_last_not_of (String c r) d) as [j |] eqn:Ej.
  2: { unfold all_in in G. simpl in G. by rewrite Hc in G. }
  rewrite (find_last_app _ _ _ _ Ej). cbn [default from_option id].
  replace (String.length a + j - String.length a + 1) with (S j) by lia.
  unfold substr. rewrite str_drop_app, Nat.sub_diag, str_drop_ge by lia.
  change (("" ++ str_drop 0 (String c r))%string) with (String c r).
  destruct G as (a2 & c2 & r2 & Eq & <- & Hr & Hc2). rewrite Eq, str_take_snoc.
  exists a, r2. rewrite str_snoc_app. split_and!; try done.
  - intros x t. destruct a2; simpl in *; intros [= <- _]; by injection Eq as -> _.
  - intros x t H. destruct (str_snoc_inj _ _ _ _ H). by subst.
Qed.

(** [TrimRight] drops the last character that is no delimiter as well. *)
Theorem TrimRight_drops_one (s d : string) (a : string) (c : ascii) (r : string) :
  s = (a ++ String c r)%string -> str_mem c d = false -> all_in d r -> TrimRight s d = a.
Proof.
  intros -> Hc Hr. unfold TrimRight.
  assert (H : find_last_not_of (String c r) d = Some 0).
  { simpl. pose proof (find_last_split r d) as G. destruct (find_last_not_of r d); [| by rewrite Hc].
    destruct G as (a' & x & r' & -> & _ & _ & Hx). unfold all_in in Hr.
    rewrite str_forall_app in Hr. simpl in Hr. rewrite Hx in Hr. to_props. done. }
  rewrite (find_last_app _ _ _ _ H), Nat.add_0_r. apply str_take_length.
Qed.

Lemma TrimLeft_spec s d :
  exists l, s = (l ++ TrimLeft s d)%string /\ all_in d l
  /\ forall c t, TrimLeft s d = String c t -> str_mem c d = false.
Proof.
  unfold TrimLeft. pose proof (find_first_split s d) as F. destruct (find_first_not_of s d) as [k |].
  - destruct F as (a & c & r & -> & <- & Ha & Hc). exists a.
    rewrite str_drop_app, Nat.sub_diag, str_drop_ge by lia. split_and!; try done. simpl. by intros ? ? [= <- _].
  - exists s. rewrite str_app_nil. by split_and!.
Qed.

(** * Path names *)

Lemma rfind_split c s :
  match rfind c s with
  | None => str_mem c s = false
  | Some k => exists a r, s = (a ++ String c r)%string /\ String.length a = k /\ str_mem c r = false
  end.
Proof.
  induction s as [| x s IH]; simpl; [done |]. destruct (rfind c s) as [k |].
  - destruct IH as (a & r & -> & Hl & Hr). exists (String x a), r. simpl. by rewrite Hl.
  - destruct (Ascii.eqb x c) eqn:E; simpl; [| done].
    apply Ascii.eqb_eq in E as ->. by exists "", s.
Qed.

(** A path with a slash is its directory, a slash and its last component, which
    has none; the directory of a file in the root is the root itself. *)
Theorem path_split (f : string) :
  str_mem "/" (Basename f) = false
  /\ (str_mem "/" f = false -> Dirname f = "."%string /\ Basename f = f)
  /\ (str_mem "/" f = true ->
      (f = ("/" ++ Basename f)%string /\ Dirname f = "/"%string)
      \/ f = (Dirname f ++ "/" ++ Basename f)%string).
Proof.
  unfold Dirname, Basename. destruct (String.eqb f "") eqn:E0; [by apply String.eqb_eq in E0 as -> |].
  pose proof (rfind_split "/" f) as H. destruct (rfind "/" f) as [k |]; [| by rewrite H].
  destruct H as (a & r & -> & <- & Hr).
  rewrite str_drop_app, str_drop_ge by lia.
  replace (String.length a + 1 - String.length a) with 1 by lia.
  change (("" ++ str_drop 1 (String "/" r))%string) with r.
  assert (Hm : str_mem "/" (a ++ String "/" r) = true)
    by (clear; induction a; simpl; [done | by rewrite IHa, orb_true_r]).
  split_and!; [done | by rewrite Hm |]. intros _.
  destruct (String.length a) as [| n] eqn:El; [left; by destruct a |].
  right. rewrite <- El. unfold substr. change (str_drop 0 ?x) with x. by rewrite (str_take_length a (String "/" r)).
Qed.

(** * The file system *)

(** What the manual pages promise of the calls, as far as the helpers use it: a
    call that succeeds has done its work, nothing that exists vanishes by
    creating a directory, and what [access] sees [lstat] sees. *)
Class OsLaws {FS} (o : os FS) : Prop := {
  access_lstat fs p : access o fs p = true -> is_Some (lstat o fs p);
  mkdir_made fs fs' p : mkdir o fs p = (fs', true) -> is_Some (lstat o fs' p);
  unlink_gone fs fs' p : unlink o fs p = (fs', true) -> lstat o fs' p = None;
  rmdir_gone fs fs' p : rmdir o fs p = (fs', true) -> lstat o fs' p = None
}.

Section filesystem.
Context {FS : Type} (o : os FS) `{!OsLaws o}.

Lemma mkdir_made' fs fs' p : __mkdir o fs p = (fs', true) -> is_Some (lstat o fs' p).
Proof.
  unfold __mkdir. destruct (access o fs p) eqn:E; [intros [= <-]; by apply access_lstat | apply mkdir_made].
Qed.

Lemma mkdir_dirs_made fs path rest fs' :
  mkdir_dirs o fs path rest = (fs', true) -> is_Some (lstat o fs' (path ++ rest)%string).
Proof.
  revert fs path. induction rest as [| c rest IH]; intros fs path H; simpl in H.
  - rewrite str_app_nil. by apply mkdir_made' in H.
  - rewrite <- str_snoc_app. destruct (Ascii.eqb c "/"); [| by apply IH in H].
    destruct (__mkdir o fs path) as [fs1 []]; [by apply IH in H | done].
Qed.

(** A directory that [Mkdir] reports as made exists. *)
Theorem Mkdir_makes (fs fs' : FS) (p : string) :
  Mkdir o fs p = Ok (fs', true) -> is_Some (lstat o fs' p).
Proof.
  unfold Mkdir. case_bool_decide as E; [by intros [= <-] |].
  destruct p as [| c rest]; [done |]. intros [= H]. by apply mkdir_dirs_made in H.
Qed.

Lemma Rm_gone fuel fs p fs' : Rm o fuel fs p = Ok (fs', true) -> lstat o fs' p = None.
Proof.
  destruct fuel as [| fuel]; [done |]. simpl. destruct (lstat o fs p) as [mode |] eqn:E; [| by intros [= <-]].
  destruct (Z.land mode S_IFDIR =? 0)%Z.
  - unfold Unlink. rewrite E. simpl. intros [= H]. by apply unlink_gone in H.
  - destruct (opendir o fs p) as [ents |]; [| done]. intros H.
    apply bind_Ok_inv in H as ([fs1 ret] & _ & H).
    destruct (rmdir o fs1 p) as [fs2 []] eqn:Er; injection H as -> H; [| done].
    by apply rmdir_gone in Er.
Qed.

(** The walk of [Rm] ends where directories nest finitely: with more fuel than
    the depth it returns. *)
Lemma rm_entries_returns (rec : FS -> string -> outcome (FS * bool)) path ents fs ret :
  (forall fs t name, In (t, name) ents -> dots name = false -> is_ok (rec fs (child path name)) = true) ->
  is_ok (rm_entries rec path ents fs ret) = true.
Proof.
  revert fs ret. induction ents as [| [t name] ents IH]; intros fs ret H; simpl; [done |].
  destruct (dots name) eqn:E; [apply IH; intros; eapply H; [right |]; eauto |].
  specialize (H fs t name ltac:(by left) E) as Hr.
  destruct (rec fs (child path name)) as [[fs1 r1] |]; [simpl | done].
  apply IH. intros. eapply H; [right |]; eauto.
Qed.

Lemma Rm_returns (depth : string -> nat) fs p fuel :
  (forall fs p ents t name, opendir o fs p = Some ents -> In (t, name) ents -> dots name = false ->
     depth (child p name) < depth p) ->
  depth p < fuel -> is_ok (Rm o fuel fs p) = true.
Proof.
  intros Hd. revert fs p. induction fuel as [| fuel IH]; intros fs p Hf; [lia |]. simpl.
  destruct (lstat o fs p) as [mode |]; [| done]. destruct (Z.land mode S_IFDIR =? 0)%Z; [done |].
  destruct (opendir o fs p) as [ents |] eqn:E; [| done].
  assert (H : is_ok (rm_entries (Rm o fuel) p ents fs true) = true).
  { apply rm_entries_returns. intros fs1 t name Hin Hn. apply IH. specialize (Hd fs p ents t name E Hin Hn). lia. }
  destruct (rm_entries _ _ _ _ _) as [[fs1 r1] |]; [simpl | done]. by destruct (rmdir o fs1 p) as [? []].
Qed.

End filesystem.

(** * Rate-limited transfer *)

Lemma per_round_pos speed : 0 < per_round speed.
Proof. unfold per_round. lia. Qed.

Lemma ReadFix_loop_spec {A} fuel (good : bool) (avail data : list A) size per :
  0 < per -> length data <= size -> (good = false -> avail = []) ->
  (if good then size - length data + 1 else 0) < fuel ->
  ReadFix_loop fuel good avail data size per
  = Ok (data ++ take (size - length data) avail, bool_decide (size <= length data + length avail)).
Proof.
  intros Hper. revert good avail data. induction fuel as [| fuel IH]; intros good avail data Hle Hg Hf; [lia |].
  simpl. destruct good; simpl.
  - destruct (length data <? size) eqn:E; to_props.
    + set (s := if per <? size - length data then per else size - length data).
      assert (Hs : 0 < s <= size - length data) by (unfold s; case_tests; to_props; lia).
      rewrite IH.
      * rewrite <- app_assoc, length_app, length_take, length_drop. f_equal. f_equal.
        -- f_equal. destruct (Nat.le_gt_cases s (length avail)).
           ++ rewrite Nat.min_l by done. rewrite <- (take_drop s avail) at 3.
              rewrite take_app_ge by (rewrite length_take; lia). f_equal. f_equal. rewrite length_take. lia.
           ++ rewrite (drop_ge avail) by lia. rewrite take_nil, app_nil_r.
              rewrite !take_ge by lia. done.
        -- apply bool_decide_ext. lia.
      * rewrite length_app, length_take. lia.
      * intros Hb. to_props. apply drop_ge. lia.
      * rewrite length_app, length_take. destruct (s <=? length avail) eqn:Es; to_props; lia.
    + assert (length data = size) by lia. subst. rewrite Nat.sub_diag, take_0, app_nil_r, Nat.eqb_refl.
      rewrite bool_decide_true by lia. done.
  - rewrite (Hg eq_refl), take_nil, app_nil_r. do 2 f_equal. simpl. rewrite Nat.add_0_r.
    case_bool_decide; [apply Nat.eqb_eq | apply Nat.eqb_neq]; lia.
Qed.

(** The rate-limited read collects exactly the first [size] bytes of the stream,
    or everything there is, and tells which. *)
Theorem ReadFix_exact {A} (avail : list A) (size speed fuel : nat) :
  size + 1 < fuel ->
  ReadFixFromStreamWithSpeed fuel avail size speed = Ok (take size avail, bool_decide (size <= length avail)).
Proof.
  intros Hf. unfold ReadFixFromStreamWithSpeed.
  rewrite ReadFix_loop_spec; simpl; try lia; [by rewrite Nat.sub_0_r | apply per_round_pos].
Qed.

Lemma WriteFix_loop_good {A} fuel room (out data : list A) offset per :
  0 < per -> offset <= length data -> length data - offset <= room -> length data - offset < fuel ->
  WriteFix_loop fuel true room out data offset per = Ok (out ++ drop offset data, true).
Proof.
  intros Hper. revert room out offset. induction fuel as [| fuel IH]; intros room out offset Ho Hr Hf; [lia |].
  simpl. destruct (offset <? length data) eqn:E; to_props.
  - set (s := if per <? length data - offset then per else length data - offset).
    assert (Hs : 0 < s <= length data - offset) by (unfold s; case_tests; to_props; lia).
    rewrite (proj2 (Nat.leb_le s room)) by lia. rewrite IH by lia.
    rewrite Nat.min_l, <- app_assoc by lia. do 2 f_equal. f_equal.
    rewrite <- (take_drop s (drop offset data)) at 2. by rewrite drop_drop.
  - rewrite drop_ge, app_nil_r by lia. rewrite (proj2 (Nat.eqb_eq offset (length data))) by lia. done.
Qed.

(** A stream with enough room takes everything. *)
Theorem WriteFix_complete {A} (data : list A) (room speed fuel : nat) :
  length data <= room -> length data < fuel ->
  WriteFixToStreamWithSpeed fuel room data speed = Ok (data, true).
Proof.
  intros. unfold WriteFixToStreamWithSpeed.
  rewrite WriteFix_loop_good; try lia; [by rewrite drop_0 | apply per_round_pos].
Qed.

(** But success is reported when the last piece is lost: of at most 64 KiB
    written to a full stream nothing arrives. *)
Theorem WriteFix_lost {A} (data : list A) (speed fuel : nat) :
  0 < length data <= 64 * 1024 -> 1 < fuel ->
  WriteFixToStreamWithSpeed fuel 0 data speed = Ok ([], true).
Proof.
  intros Hd Hf. destruct fuel as [| [| fuel]]; [lia.. |].
  unfold WriteFixToStreamWithSpeed. set (per := per_round speed).
  assert (Hper : 64 * 1024 <= per) by (unfold per, per_round; lia).
  cbn [WriteFix_loop andb]. rewrite Nat.sub_0_r, (proj2 (Nat.ltb_lt 0 _)) by lia.
  rewrite (proj2 (Nat.ltb_ge per (length data))) by lia.
  rewrite (proj2 (Nat.leb_gt (length data) 0)) by lia. cbn [andb].
  rewrite Nat.min_0_r, take_0, Nat.add_0_l, Nat.eqb_refl. done.
Qed.

(** * A concrete file system

    Paths with their mode bits; a directory can be removed when nothing lies
    under it. *)

Definition toy_fs := list (string * Z).

Definition toy_find (fs : toy_fs) (p : string) : option Z :=
  snd <$> List.find (fun e => String.eqb (fst e) p) fs.

Definition toy_remove (fs : toy_fs) (p : string) : toy_fs :=
  List.filter (fun e => negb (String.eqb (fst e) p)) fs.

Definition toy_children (fs : toy_fs) (p : string) : list (d_type * string) :=
  omap (fun e => if String.eqb (fst e) (child p (Basename (fst e)))
                 then Some (if (Z.land (snd e) S_IFDIR =? 0)%Z then DT_REG else DT_DIR, Basename (fst e))
                 else None) fs.

Definition toy_os : os toy_fs := {|
  lstat := toy_find;
  access fs p := bool_decide (is_Some (toy_find fs p));
  opendir fs p := Some (toy_children fs p);
  mkdir fs p := ((p, S_IFDIR) :: fs, true);
  unlink fs p := (toy_remove fs p, true);
  rmdir fs p := if bool_decide (toy_children fs p = []) then (toy_remove fs p, true) else (fs, false);
  rename fs _ _ := (fs, false);
  symlink fs _ _ := (fs, false)
|}.

Lemma toy_remove_gone fs p : toy_find (toy_remove fs p) p = None.
Proof.
  unfold toy_find, toy_remove. induction fs as [| [q m] fs IH]; [done |]. simpl.
  destruct (String.eqb q p) eqn:E; simpl; [done |]. by rewrite E.
Qed.

#[global] Instance toy_laws : OsLaws toy_os.
Proof.
  split; intros fs; simpl.
  - intros p H. by apply bool_decide_eq_true in H.
  - intros fs' p [= <-]. unfold toy_find. simpl. rewrite String.eqb_refl. simpl. eauto.
  - intros fs' p [= <-]. apply toy_remove_gone.
  - intros fs' p. case_bool_decide; intros [= <-]. apply toy_remove_gone.
Qed.

(** When [Rm] reports success, the path is gone: the overwritten result of
    the entries does not matter, because a directory that still has an entry
    cannot be removed. *)
Theorem Rm_removes {FS} (o : os FS) (laws : OsLaws o) (fuel : nat) (fs fs' : FS) (p : string) :
  Rm o fuel fs p = Ok (fs', true) -> lstat o fs' p = None.
Proof. exact (Rm_gone o fuel fs p fs'). Qed.

(** The test of the mode bits takes a socket (mode 0140000) for a directory, and
    [Rm] then reports failure where [unlink] would do. *)
Lemma Rm_socket_fails {FS} (o : os FS) fuel fs p :
  lstat o fs p = Some 0xC000%Z -> opendir o fs p = None -> Rm o (S fuel) fs p = Ok (fs, false).
Proof. intros H1 H2. simpl. by rewrite H1, H2. Qed.

(** The empty path makes [Mkdir] search behind the terminator. *)
Lemma Mkdir_empty_path {FS} (o : os FS) fs :
  lstat o fs "" = None -> Mkdir o fs "" = Fail NullDeref.
Proof. intros H. unfold Mkdir. by rewrite H. Qed.
