(* ===== verification/Generic.v ===== *)
(** The templates and small classes of util.h, with the functions of util.cc that go
    with them: parameters by key, atomic operations, shared arrays, searching,
    joining and slicing, binary streams, and the speed limit.

    A type parameter is a type with the operations that the template uses of it;
    where it is copied as memory, it is the list of its bytes.

    The templates of util.h: searching and slicing are exact, shared arrays are freed
    once, binary streams read back what was written. *)

From stdpp Require Import gmap strings.
From Stdlib Require Import Ascii SpecFloat.
From S2P Require Import Prelude Strs Util.

Module Gn.

Local Open Scope Z_scope.

(** ** Parameters *)

Section params.
Context {K V : Type} `{Countable K} (lexical_cast : string -> option V).

Definition GetParamValue (m : gmap K string) (k : K) (def : V) : V :=
  match m !! k with
  | None => def
  | Some s => match lexical_cast s with Some v => v | None => def end
  end.

(** [None]: returns false and leaves its argument alone. *)
Definition CheckGetParamValue (m : gmap K string) (k : K) : option V :=
  match m !! k with None => None | Some s => lexical_cast s end.
End params.

(** ** Atomic operations *)

(** On a variable of [w] bits: the value returned and the new content. *)
Section atomic.
Context (w : Z).

Definition addFetch (t v : Z) : Z * Z := let n := wrap w (t + wrap w v) in (n, n).
Definition subFetch (t v : Z) : Z * Z := let n := wrap w (t - wrap w v) in (n, n).
Definition orFetch (t v : Z) : Z * Z := let n := Z.lor t (wrap w v) in (n, n).
Definition andFetch (t v : Z) : Z * Z := let n := Z.land t (wrap w v) in (n, n).
Definition xorFetch (t v : Z) : Z * Z := let n := Z.lxor t (wrap w v) in (n, n).
Definition nandFetch (t v : Z) : Z * Z := let n := wrap w (Z.lnot (Z.land t (wrap w v))) in (n, n).
Definition fetchAdd (t v : Z) : Z * Z := (t, wrap w (t + wrap w v)).
Definition fetchSub (t v : Z) : Z * Z := (t, wrap w (t - wrap w v)).
Definition fetchOr (t v : Z) : Z * Z := (t, Z.lor t (wrap w v)).
Definition fetchAnd (t v : Z) : Z * Z := (t, Z.land t (wrap w v)).
Definition fetchXor (t v : Z) : Z * Z := (t, Z.lxor t (wrap w v)).
Definition fetchNand (t v : Z) : Z * Z := (t, wrap w (Z.lnot (Z.land t (wrap w v)))).
Definition compareAndSwap (t old_val new_val : Z) : Z * Z := (t, if t =? wrap w old_val then wrap w new_val else t).
Definition compareAndSwapBool (t old_val new_val : Z) : bool * Z :=
  if t =? wrap w old_val then (true, wrap w new_val) else (false, t).
End atomic.

(** ** Shared arrays *)

(** A control block: the array, which may be null, and its owners. *)
Record block := mkBlock { b_ptr : option nat; b_count : nat }.

Record SharedArray := mkSA { m_size : Z; m_ptr : nat }.

(** The objects by name, the control blocks, and what [delete_array] has freed. *)
Record arrays := mkArrays { objs : gmap nat SharedArray; blocks : gmap nat block; freed : list nat }.

Definition delete_array (v : option nat) (freed : list nat) : list nat :=
  match v with Some a => freed ++ [a] | None => freed end.

(** What [std::shared_ptr] does with a block. *)
Definition retain (b : nat) (h : gmap nat block) : gmap nat block :=
  alter (fun x => mkBlock (b_ptr x) (S (b_count x))) b h.

Definition release (b : nat) (h : gmap nat block) (freed : list nat) : gmap nat block * list nat :=
  match h !! b with
  | None => (h, freed)
  | Some (mkBlock p (S (S n))) => (<[b := mkBlock p (S n)]> h, freed)
  | Some (mkBlock p _) => (delete b h, delete_array p freed)
  end.

(** The constructors, the assignment, [swap] and the destructor. *)
Definition sa_new (s : arrays) (x : nat) (size : Z) (p : option nat) : arrays :=
  let b := fresh (dom (blocks s)) in
  mkArrays (<[x := mkSA size b]> (objs s)) (<[b := mkBlock p 1]> (blocks s)) (freed s).

Definition sa_copy (s : arrays) (x : nat) (r : SharedArray) : arrays :=
  mkArrays (<[x := r]> (objs s)) (retain (m_ptr r) (blocks s)) (freed s).

Definition sa_assign (s : arrays) (x : nat) (old r : SharedArray) : arrays :=
  let '(h, f) := release (m_ptr old) (retain (m_ptr r) (blocks s)) (freed s) in
  mkArrays (<[x := r]> (objs s)) h f.

Definition sa_swap (s : arrays) (x y : nat) (a b : SharedArray) : arrays :=
  mkArrays (<[y := a]> (<[x := b]> (objs s))) (blocks s) (freed s).

Definition sa_destroy (s : arrays) (x : nat) (a : SharedArray) : arrays :=
  let '(h, f) := release (m_ptr a) (blocks s) (freed s) in mkArrays (delete x (objs s)) h f.

Definition sa_get (s : arrays) (a : SharedArray) : option nat := blocks s !! m_ptr a ≫= b_ptr.
Definition sa_use_count (s : arrays) (a : SharedArray) : nat := default 0%nat (b_count <$> blocks s !! m_ptr a).
Definition sa_unique (s : arrays) (a : SharedArray) : bool := (sa_use_count s a =? 1)%nat.
Definition sa_bool (s : arrays) (a : SharedArray) : bool := match sa_get s a with Some _ => true | None => false end.

(** ** Joining *)

(** The elements are what [operator<<] prints of them. *)
Definition Join (l : list string) (tag : string) : string :=
  match l with
  | [] => ""
  | x :: l => foldl (fun ss y => (ss ++ tag ++ y)%string) x l
  end.

(** ** Searching *)

Section search.
Context {T : Type} (lt : T -> T -> bool) (arr : list T) (v : T).

(** [arr[m]] *)
Definition at_ (m : Z) : outcome T :=
  if m <? 0 then Fail OutOfBounds else match arr !! Z.to_nat m with Some x => Ok x | None => Fail OutOfBounds end.

Fixpoint BinarySearch_loop (fuel : nat) (begin end_ : Z) : outcome Z :=
  match fuel with
  | O => Fail OutOfFuel
  | S fuel =>
      if begin <=? end_ then
        sum ← signed_op Strict 32 (begin + end_);
        let m := Z.quot sum 2 in
        x ← at_ m;
        if lt v x then BinarySearch_loop fuel begin (m - 1)
        else if lt x v then BinarySearch_loop fuel (m + 1) end_
        else Ok m
      else Ok (- begin - 1)
  end.

Definition BinarySearch (fuel : nat) (length : Z) : outcome Z := BinarySearch_loop fuel 0 (length - 1).
End search.

(** ** Slicing *)

Section slice.
Context {A : Type} (src : list A) (size : nat).

(** [src[pos + i]] for [i] below [n] *)
Definition part (pos n : nat) : list A := take n (drop pos src).

Fixpoint Slice_loop (fuel : nat) (dst : list (list A)) (pos left : nat) : outcome (list (list A)) :=
  match fuel with
  | O => Fail OutOfFuel
  | S fuel =>
      if (size <? left)%nat then Slice_loop fuel (dst ++ [part pos size]) (pos + size) (left - size)
      else Ok (if (0 <? left)%nat then dst ++ [part pos left] else dst)
  end.

Definition Slice (fuel : nat) (dst : list (list A)) : outcome (list (list A)) := Slice_loop fuel dst 0 (length src).
End slice.

(** ** Binary streams *)

(** An input stream: the bytes ahead, whether it is good, and [gcount]. *)
Record istream := mkIs { is_ahead : list Z; is_good : bool; is_gcount : nat }.

(** [is.read]: a stream that has too few bytes delivers them and fails. *)
Definition is_read (ist : istream) (n : nat) : istream * list Z :=
  if is_good ist then
    let got := take n (is_ahead ist) in
    (mkIs (drop n (is_ahead ist)) (n <=? length (is_ahead ist))%nat (length got), got)
  else (mkIs (is_ahead ist) false 0, []).

(** The bytes stored so far are [data]. *)
Fixpoint ReadFix (fuel : nat) (ist : istream) (data : list Z) (size : nat) : outcome (istream * list Z * bool) :=
  match fuel with
  | O => Fail OutOfFuel
  | S fuel =>
      if is_good ist && (length data <? size)%nat then
        let '(ist, got) := is_read ist (size - length data) in ReadFix fuel ist (data ++ got) size
      else Ok (ist, data, (length data =? size)%nat)
  end.

Definition ReadFixFromStream (fuel : nat) (ist : istream) (size : nat) : outcome (istream * list Z * bool) := ReadFix fuel ist [] size.

(** An object of [n] bytes, or a vector of [count] of them: what was not read stays
    as it was. *)
Definition store (old got : list Z) : list Z := got ++ drop (length got) old.

Definition ReadFromStream (fuel : nat) (ist : istream) (v : list Z) : outcome (istream * list Z * bool) :=
  '(ist, got, ok) ← ReadFixFromStream fuel ist (length v); Ok (ist, store v got, ok).

Fixpoint cut (sz count : nat) (bytes : list Z) : list (list Z) :=
  match count with O => [] | S count => take sz bytes :: cut sz count (drop sz bytes) end.

Definition ReadFromStream_vec (fuel : nat) (ist : istream) (sz : nat) (v : list (list Z)) : outcome (istream * list (list Z) * bool) :=
  '(ist, got, ok) ← ReadFixFromStream fuel ist (sz * length v); Ok (ist, cut sz (length v) (store (mjoin v) got), ok).

(** An output stream: what was written, the room left and whether it is good. *)
Record ostream := mkOs { os_out : list Z; os_room : nat; os_good : bool }.

Definition os_write (os : ostream) (data : list Z) : ostream :=
  if os_good os then mkOs (os_out os ++ take (os_room os) data) (os_room os - length data) (length data <=? os_room os)%nat else os.

Definition WriteToStream (os : ostream) (v : list Z) : ostream * bool :=
  if negb (os_good os) then (os, false) else let os := os_write os v in (os, os_good os).

Definition WriteToStream_vec (os : ostream) (v : list (list Z)) : ostream * bool :=
  if negb (os_good os) then (os, false) else let os := os_write os (mjoin v) in (os, os_good os).

(** The forms with a speed check the stream and call the functions of util.cc. *)
Definition WriteToStreamWithSpeed (fuel : nat) (os : ostream) (v : list Z) (speed : nat) : outcome (list Z * bool) :=
  if os_good os then Ut.WriteFixToStreamWithSpeed fuel (os_room os) v speed else Ok ([], false).

Definition ReadFromStreamWithSpeed (fuel : nat) (ist : istream) (n speed : nat) : outcome (list Z * bool) :=
  if is_good ist then Ut.ReadFixFromStreamWithSpeed fuel (is_ahead ist) n speed else Ok ([], false).

(** ** The speed limit *)

(** [float] and [double] as IEEE 754 has them. *)
Abbreviation flt := spec_float.
Definition flt_of_Z (z : Z) : flt := binary_normalize 24 128 z 0 false.
Definition dbl_of_Z (z : Z) : flt := binary_normalize 53 1024 z 0 false.
Definition flt_of_dbl (d : flt) : flt :=
  match d with S754_finite s m e => binary_normalize 24 128 (if s then Z.neg m else Z.pos m) e s | _ => d end.

(** A conversion to [int] drops the fraction; out of range it is undefined. *)
Definition int_of_flt (f : flt) : outcome Z :=
  match f with
  | S754_zero _ => Ok 0
  | S754_finite s m e =>
      let a := if 0 <=? e then Z.pos m * 2 ^ e else Z.pos m / 2 ^ (- e) in signed_op Strict 32 (if s then - a else a)
  | _ => Fail SignedOverflow
  end.

Record SpeedLimit := mkLimit { m_speed : Z; m_countPerMS : flt; m_curCount : Z; m_curSec : Z }.

Definition new_SpeedLimit (speed : Z) : SpeedLimit :=
  let speed := if speed =? 0 then u32 (-1) else speed in
  mkLimit speed (flt_of_dbl (SFdiv 53 1024 (dbl_of_Z speed) (dbl_of_Z 1000))) 0 0.

(** [add] at the time [curms]: the new state and the microseconds to sleep. *)
Definition add (l : SpeedLimit) (curms v : Z) : outcome (SpeedLimit * Z) :=
  if negb (curms / 1000 =? m_curSec l) then
    Ok (mkLimit (m_speed l) (m_countPerMS l) v (u32 (curms / 1000)), 0)
  else
    let count := u32 (m_curCount l + v) in
    let usedms := curms mod 1000 in
    limitms ← int_of_flt (SFdiv 24 128 (flt_of_Z count) (m_countPerMS l));
    let l := mkLimit (m_speed l) (m_countPerMS l) count (m_curSec l) in
    if usedms <? limitms then us ← signed_op Strict 32 (1000 * (limitms - usedms)); Ok (l, us) else Ok (l, 0).

(** The limit that the stream functions make of their 64-bit speed. *)
Definition limit_of (speed : Z) : SpeedLimit := new_SpeedLimit (u32 speed).

(** ** What is left of util.cc *)

(** [gettimeofday] *)
Definition GetCurrentMs (tv_sec tv_usec : Z) : Z := u64 (tv_sec * 1000 + tv_usec / 1000).
Definition GetCurrentUs (tv_sec tv_usec : Z) : Z := u64 (tv_sec * 1000 * 1000 + tv_usec).

(** [backtrace_symbols] gives the names of the frames or null. *)
Definition BackTrace (bt : list string) (strings : option (list string)) (skip : nat) (s : nat) : outcome (list string) :=
  match strings with
  | Some l => Ok (bt ++ drop skip l)
  | None => if (skip <? s)%nat then Fail NullDeref else Ok bt
  end.

Definition BackTraceToString (strings : option (list string)) (skip s : nat) (prefix : string) : outcome string :=
  bt ← BackTrace [] strings skip s;
  Ok (foldl (fun ss x => (ss ++ prefix ++ x ++ String "010"%char "")%string) ""%string bt).

Section files.
Context {FS : Type} (o : Ut.os FS).
(** [realpath], and [open] of a file stream in a mode: whether it is open *)
Context (realpath : FS -> string -> option string) (open_ : FS -> string -> FS * bool).

Definition Realpath (fs : FS) (path rpath : string) : bool * string :=
  match Ut.lstat o fs path with
  | None => (false, rpath)
  | Some _ => match realpath fs path with None => (false, rpath) | Some p => (true, p) end
  end.

Definition OpenForRead (fs : FS) (filename : string) : FS * bool := open_ fs filename.

Definition OpenForWrite (fs : FS) (filename : string) : outcome (FS * bool) :=
  let '(fs, ok) := open_ fs filename in
  if ok : bool then Ok (fs, true) else
  '(fs, _) ← Ut.Mkdir o fs (Ut.Dirname filename);
  Ok (open_ fs filename).
End files.

End Gn.

Import Gn.
Local Open Scope Z_scope.
#[local] Arguments String.append !_ _ /.

(** ** Searching *)

Section search.
Context {T : Type} (lt : T -> T -> bool) (arr : list T) (v : T).
(** An element is less than another or than what is greater: the order of a
    [operator<] that sorts. *)
Context (cotrans : forall a b c, lt a b = true -> lt a c = true \/ lt c b = true).
Context (sorted : forall i j x y, (i <= j)%nat -> arr !! i = Some x -> arr !! j = Some y -> lt y x = false).

Definition below (p : Z) : Prop := forall i x, arr !! i = Some x -> Z.of_nat i < p -> lt x v = true.
Definition above (p : Z) : Prop := forall i x, arr !! i = Some x -> p <= Z.of_nat i -> lt v x = true.

Definition found (r : Z) : Prop :=
  (0 <= r /\ exists x, arr !! Z.to_nat r = Some x /\ lt v x = false /\ lt x v = false)
  \/ (r < 0 /\ - r - 1 <= Z.of_nat (length arr) /\ below (- r - 1) /\ above (- r - 1)).

Lemma above_mid m x : arr !! m = Some x -> lt v x = true -> above (Z.of_nat m).
Proof.
  intros Hm Hv i y Hi Hle. destruct (cotrans v x y Hv) as [? | Hyx]; [done |]. rewrite (sorted m i x y) in Hyx; [done | lia | done | done].
Qed.

Lemma below_mid m x : arr !! m = Some x -> lt x v = true -> below (Z.of_nat m + 1).
Proof.
  intros Hm Hv i y Hi Hlt. destruct (cotrans x v y Hv) as [Hxy | ?]; [| done]. rewrite (sorted i m y x) in Hxy; [done | lia | done | done].
Qed.

Lemma search_loop fuel b e :
  Z.of_nat (length arr) <= 2 ^ 30 -> 0 <= b -> e < Z.of_nat (length arr) -> b <= e + 1 -> below b -> above (e + 1) -> e + 1 - b < Z.of_nat fuel ->
  exists r, BinarySearch_loop lt arr v fuel b e = Ok r /\ found r.
Proof.
  intros Hlen. revert b e. induction fuel as [| fuel IH]; intros b e Hb He Hbe Hlo Hhi Hf; [lia |]. cbn [BinarySearch_loop].
  destruct (Z.leb_spec b e) as [Hle | Hgt].
  2: { exists (- b - 1). split; [done |]. right. replace (- (- b - 1) - 1) with b by lia. replace b with (e + 1) at 4 by lia. split_and!; [lia | lia | done | done]. }
  rewrite signed_op_strict, decide_True by (unfold in_signed; lia). cbn [mbind outcome_bind]. rewrite Z.quot_div_nonneg by lia. set (m := (b + e) / 2).
  assert (Hm : b <= m <= e) by (unfold m; split; [apply Z.div_le_lower_bound | apply Z.div_le_upper_bound]; lia).
  unfold at_. destruct (Z.ltb_spec m 0); [lia |]. destruct (arr !! Z.to_nat m) as [x|] eqn:Ex.
  2: { apply lookup_ge_None in Ex. lia. }
  cbn [mbind outcome_bind]. destruct (lt v x) eqn:E1; [| destruct (lt x v) eqn:E2].
  - apply IH; try done; try lia. replace (m - 1 + 1) with (Z.of_nat (Z.to_nat m)) by lia. by eapply above_mid.
  - apply IH; try done; try lia. replace m with (Z.of_nat (Z.to_nat m)) by lia. by eapply below_mid.
  - exists m. split; [done |]. left. split; [lia |]. by exists x.
Qed.
End search.

(** The binary search is exact. On a sorted array of at most 2^30 elements, for any
    order in which what is less than one element is less than another or that is
    less than the first, the search returns: an index at which the element is
    equivalent to the value, or -(p + 1) where every element before p is less than
    the value and every element from p on greater. *)
Theorem binary_search_exact {T} (lt : T -> T -> bool) (arr : list T) (v : T) :
  (forall a b c, lt a b = true -> lt a c = true \/ lt c b = true) ->
  (forall i j x y, (i <= j)%nat -> arr !! i = Some x -> arr !! j = Some y -> lt y x = false) ->
  Z.of_nat (length arr) <= 2 ^ 30 ->
  exists r, BinarySearch lt arr v (S (length arr)) (Z.of_nat (length arr)) = Ok r /\ found lt arr v r.
Proof.
  intros Hco Hs Hl. unfold BinarySearch. apply search_loop; try done; try lia.
  - intros i x _ Hi. lia.
  - intros i x Hi Hge. apply lookup_lt_Some in Hi. lia.
Qed.

(** An array of 2^31 - 1 elements, all less than the value: the sum of the bounds
    leaves [int] in the second round. *)
Theorem binary_search_overflows {T} (lt : T -> T -> bool) (arr : list T) (v : T) fuel :
  Z.of_nat (length arr) = 2 ^ 31 - 1 -> (forall i x, arr !! i = Some x -> lt v x = false /\ lt x v = true) ->
  BinarySearch lt arr v (S (S fuel)) (Z.of_nat (length arr)) = Fail SignedOverflow.
Proof.
  intros Hl Hall. unfold BinarySearch. rewrite Hl. cbn [BinarySearch_loop]. change (0 <=? 2 ^ 31 - 1 - 1) with true. cbn [negb].
  change (signed_op Strict 32 (0 + (2 ^ 31 - 1 - 1))) with (Ok (A := Z) 2147483646). cbn [mbind outcome_bind].
  change (Z.quot 2147483646 2) with 1073741823. unfold at_. change (1073741823 <? 0) with false.
  destruct (arr !! Z.to_nat 1073741823) as [x|] eqn:Ex; [| apply lookup_ge_None in Ex; lia]. destruct (Hall _ _ Ex) as [H1 H2]. cbn [mbind outcome_bind].
  rewrite H1, H2. reflexivity.
Qed.

(** ** Slicing *)

Lemma slice_loop {A} (src : list A) size fuel dst pos left :
  (0 < size)%nat -> (left < fuel)%nat -> (pos + left = length src)%nat ->
  exists parts, Slice_loop src size fuel dst pos left = Ok (dst ++ parts) /\ mjoin parts = drop pos src
    /\ Forall (fun p => (0 < length p <= size)%nat) parts
    /\ forall i p, (S i < length parts)%nat -> parts !! i = Some p -> length p = size.
Proof.
  intros Hs. revert dst pos left. induction fuel as [| fuel IH]; intros dst pos left Hf Hl; [lia |]. cbn [Slice_loop].
  destruct (Nat.ltb_spec size left) as [Hlt | Hge].
  - destruct (IH (dst ++ [part src pos size]) (pos + size)%nat (left - size)%nat) as (parts & -> & Hj & Hp & Hi); [lia | lia |].
    assert (Hlen : length (part src pos size) = size) by (unfold part; rewrite length_take, length_drop; lia).
    exists (part src pos size :: parts). split_and!.
    + by rewrite <- app_assoc.
    + cbn. change (part src pos size ++ mjoin parts = drop pos src). rewrite Hj. unfold part. rewrite <- drop_drop. apply take_drop.
    + constructor; [lia | done].
    + intros [| i] p Hlt' E; cbn in *; [by simplify_eq | by apply (Hi i); [lia |]].
  - destruct (Nat.ltb_spec 0 left).
    + exists [part src pos left]. assert (Hlen : length (part src pos left) = left) by (unfold part; rewrite length_take, length_drop; lia).
      split_and!; [done | | by repeat constructor; lia | intros i p Hi; cbn in Hi; lia].
      cbn. rewrite app_nil_r. unfold part. apply take_ge. rewrite length_drop. lia.
    + exists []. rewrite app_nil_r. split_and!; [done | | done | intros i p Hi; cbn in Hi; lia]. cbn. rewrite drop_ge; [done | lia].
Qed.

(** The parts that [Slice] appends make up the source, none is empty, and all but the
    last have the size. *)
Theorem slice_exact {A} (src : list A) size dst : (0 < size)%nat ->
  exists parts, Slice src size (S (length src)) dst = Ok (dst ++ parts) /\ mjoin parts = src
    /\ Forall (fun p => (0 < length p <= size)%nat) parts
    /\ forall i p, (S i < length parts)%nat -> parts !! i = Some p -> length p = size.
Proof. intros Hs. unfold Slice. destruct (slice_loop src size (S (length src)) dst 0 (length src)) as (parts & ?); [done | lia | lia | by exists parts]. Qed.

(** With the size 0 the loop never ends. *)
Lemma slice_zero_loop {A} (src : list A) fuel dst pos left : (0 < left)%nat -> Slice_loop src 0 fuel dst pos left = Fail OutOfFuel.
Proof.
  intros Hl. revert dst pos. induction fuel as [| fuel IH]; intros dst pos; [done |]. cbn [Slice_loop]. destruct (Nat.ltb_spec 0 left); [| lia].
  rewrite Nat.sub_0_r. apply IH.
Qed.

Theorem slice_zero_loops {A} (src : list A) fuel dst : src <> [] -> Slice src 0 fuel dst = Fail OutOfFuel.
Proof. intros Hs. apply slice_zero_loop. destruct src; cbn; [done | lia]. Qed.

(** ** Atomic counters *)

(** The values that [n] calls of [fetchAdd(t, 1)] return, in whatever order threads
    make them. *)
Fixpoint tickets (w t : Z) (n : nat) : list Z :=
  match n with O => [] | S n => let '(r, t) := fetchAdd w t 1 in r :: tickets w t n end.

Lemma tickets_nth w t n : 0 < w -> 0 <= t < 2 ^ w -> tickets w t n = (fun k => wrap w (t + Z.of_nat k)) <$> seq 0 n.
Proof.
  intros Hw. revert t. induction n as [| n IH]; intros t Ht; [done |]. cbn [tickets seq fmap list_fmap]. f_equal.
  { unfold wrap. rewrite Z.add_0_r. symmetry. by apply Z.mod_small. }
  assert (Hp : 1 < 2 ^ w) by (apply Z.pow_gt_1; lia). rewrite IH by (unfold wrap; apply Z.mod_pos_bound; lia). rewrite <- fmap_S_seq, <- list_fmap_compose.
  apply list_fmap_ext. intros _ k _. cbn. unfold wrap. rewrite (Z.mod_small 1) by lia. rewrite Zplus_mod_idemp_l. f_equal. lia.
Qed.

(** Up to 2^w tickets are distinct. *)
Theorem tickets_distinct w t n : 0 < w -> 0 <= t < 2 ^ w -> Z.of_nat n <= 2 ^ w -> NoDup (tickets w t n).
Proof.
  intros Hw Ht Hn. rewrite tickets_nth by done. apply NoDup_fmap_2_strong; [| apply NoDup_seq]. intros i j Hi Hj E.
  apply elem_of_seq in Hi, Hj. unfold wrap in E.
  assert (Hd : (Z.of_nat i - Z.of_nat j) mod 2 ^ w = 0).
  { replace (Z.of_nat i - Z.of_nat j) with ((t + Z.of_nat i) - (t + Z.of_nat j)) by lia. rewrite Zminus_mod, E, Z.sub_diag. by apply Z.mod_0_l; lia. }
  apply Z.mod_divide in Hd as [k Hk]; [| lia]. assert (k = 0) by nia. lia.
Qed.

(** ** Binary streams *)

Lemma read_fix ist size fuel : (1 < fuel)%nat -> is_good ist = true ->
  exists ist', ReadFixFromStream fuel ist size = Ok (ist', take size (is_ahead ist), bool_decide (size <= length (is_ahead ist))%nat)
    /\ is_ahead ist' = drop size (is_ahead ist) /\ (is_good ist' = true <-> (size <= length (is_ahead ist))%nat).
Proof.
  intros Hf Hg. destruct fuel as [| [| fuel]]; [lia | lia |]. destruct ist as [a g n]. cbn in Hg. subst g.
  unfold ReadFixFromStream. cbn [ReadFix]. unfold is_read at 1. cbn [is_good is_ahead length app andb]. destruct (Nat.ltb_spec 0 size) as [Hs | Hs].
  - rewrite Nat.sub_0_r. assert (E : (length (take size a) <? size)%nat = negb (size <=? length a)%nat)
      by (rewrite length_take; destruct (Nat.ltb_spec (size `min` length a) size), (Nat.leb_spec size (length a)); done || lia).
    assert (Eb : (length (take size a) =? size)%nat = bool_decide (size <= length a)%nat).
    { rewrite length_take. destruct (Nat.leb_spec size (length a)); [rewrite bool_decide_true by done | rewrite bool_decide_false by lia];
        [apply Nat.eqb_eq | apply Nat.eqb_neq]; lia. }
    rewrite E, andb_negb_r, Eb. eexists. split; [reflexivity |]. split; [done |]. apply Nat.leb_le.
  - assert (size = 0%nat) as -> by lia. eexists. split; [rewrite bool_decide_true by lia; done |]. cbn. split; [by rewrite drop_0 | split; [lia | done]].
Qed.

Lemma cut_join sz (v : list (list Z)) rest : Forall (fun x => length x = sz) v -> cut sz (length v) (mjoin v ++ rest) = v.
Proof.
  induction 1 as [| x v Hx _ IH]; [done |]. cbn. change (mjoin (x :: v)) with (x ++ mjoin v). rewrite <- app_assoc, <- Hx.
  rewrite take_app_length, drop_app_length. rewrite Hx. f_equal. exact IH.
Qed.

Lemma length_join sz (v : list (list Z)) : Forall (fun x => length x = sz) v -> length (mjoin v) = (sz * length v)%nat.
Proof. induction 1 as [| x v Hx _ IH]; cbn; [lia |]. change (length (x ++ mjoin v) = (sz * S (length v))%nat). rewrite length_app. lia. Qed.

(** What is written to a stream with room for it is read back, as one object or as a
    vector, whatever the target held and whatever follows; a stream that is too short
    is reported. *)
Theorem binary_streams_roundtrip sz v old rest fuel os :
  Forall (fun x => length x = sz) v -> Forall (fun x => length x = sz) old -> length old = length v -> (1 < fuel)%nat ->
  os_good os = true -> (length (mjoin v) <= os_room os)%nat ->
  exists os' ist', WriteToStream_vec os v = (os', true) /\ os_out os' = os_out os ++ mjoin v
    /\ ReadFromStream_vec fuel (mkIs (mjoin v ++ rest) true 0) sz old = Ok (ist', v, true) /\ is_ahead ist' = rest.
Proof.
  intros Hv Hold Hlen Hf Hg Hroom. unfold WriteToStream_vec, os_write. rewrite Hg. cbn [negb].
  assert (Hj := length_join sz v Hv). assert (Hj' := length_join sz old Hold).
  destruct (read_fix (mkIs (mjoin v ++ rest) true 0) (sz * length old) fuel Hf eq_refl) as (ist' & E & Ha & _). cbn [is_ahead] in *.
  rewrite Hlen, <- Hj in E, Ha. rewrite take_app_length in E. rewrite drop_app_length in Ha. rewrite bool_decide_true in E by (rewrite length_app; lia).
  eexists _, ist'. split; [f_equal; cbn; by apply Nat.leb_le |]. cbn. split; [by rewrite take_ge |]. split; [| done].
  unfold ReadFromStream_vec. rewrite Hlen, <- Hj, E. cbn. unfold store. rewrite drop_ge, app_nil_r by lia. f_equal. f_equal. f_equal. rewrite <- (app_nil_r (mjoin v)). by apply cut_join.
Qed.

(** ** The speed limit *)

(** A speed just above 2^32 becomes 1. *)
Theorem speed_truncated : m_speed (limit_of (2 ^ 32 + 1)) = 1.
Proof. reflexivity. Qed.

(** At one byte a second, the second round of 64 KiB within a second asks for a sleep
    that does not fit in [int]. *)
Theorem slow_limit_overflows :
  exists l, add (limit_of 1) 5000 65536 = Ok (l, 0) /\ add l 5001 65536 = Fail SignedOverflow.
Proof. eexists. split; [reflexivity |]. vm_compute. reflexivity. Qed.

(** ** Shared arrays *)

Inductive sa_op := SNew (x : nat) (size : Z) (p : option nat) | SCopy (x y : nat) | SAssign (x y : nat) | SSwap (x y : nat) | SDestroy (x : nat).

(** An operation on objects that exist, or for a constructor on a name that is free. *)
Definition sa_step (s : arrays) (o : sa_op) : option arrays :=
  match o with
  | SNew x size p => match objs s !! x with None => Some (sa_new s x size p) | Some _ => None end
  | SCopy x y => match objs s !! x, objs s !! y with None, Some r => Some (sa_copy s x r) | _, _ => None end
  | SAssign x y => match objs s !! x, objs s !! y with Some a, Some r => Some (sa_assign s x a r) | _, _ => None end
  | SSwap x y => match objs s !! x, objs s !! y with Some a, Some b => Some (sa_swap s x y a b) | _, _ => None end
  | SDestroy x => match objs s !! x with Some a => Some (sa_destroy s x a) | None => None end
  end.

(** The arrays that an operation brings. *)
Definition brings (o : sa_op) : list nat := match o with SNew _ _ (Some a) => [a] | _ => [] end.

(** The objects that share a block, and the arrays of the blocks. *)
Definition refs (os : gmap nat SharedArray) (b : nat) : nat := length (map_to_list os ≫= fun p => if decide (m_ptr p.2 = b) then [p.1] else []).
Definition owned (h : gmap nat block) : list nat := map_to_list h ≫= fun p => option_list (b_ptr p.2).

Definition counted (h : gmap nat block) (r : nat -> nat) : Prop :=
  forall b, match h !! b with None => r b = 0%nat | Some k => b_count k = r b /\ (0 < r b)%nat end.

Lemma refs_insert x a os b : refs (<[x := a]> os) b = ((if decide (m_ptr a = b) then 1 else 0) + refs (delete x os) b)%nat.
Proof.
  unfold refs. rewrite <- insert_delete_eq. rewrite map_to_list_insert by apply lookup_delete_eq. cbn. rewrite length_app. by destruct (decide (m_ptr a = b)).
Qed.

Lemma refs_lookup x a os b : os !! x = Some a -> refs os b = ((if decide (m_ptr a = b) then 1 else 0) + refs (delete x os) b)%nat.
Proof. intros Hx. rewrite <- refs_insert. by rewrite insert_id. Qed.

Lemma owned_insert b k h : owned (<[b := k]> h) ≡ₚ option_list (b_ptr k) ++ owned (delete b h).
Proof. unfold owned. rewrite <- insert_delete_eq. by rewrite map_to_list_insert by apply lookup_delete_eq. Qed.

Lemma owned_lookup b k h : h !! b = Some k -> owned h ≡ₚ option_list (b_ptr k) ++ owned (delete b h).
Proof. intros Hb. rewrite <- owned_insert. by rewrite insert_id. Qed.

Definition bump (r : nat -> nat) (b : nat) : nat -> nat := fun b' => if decide (b = b') then S (r b') else r b'.

Lemma counted_ext h r r' : (forall b, r b = r' b) -> counted h r -> counted h r'.
Proof. intros E Hc b. specialize (Hc b). by rewrite (E b) in Hc. Qed.

Lemma retain_ok h r b : counted h r -> (0 < r b)%nat -> counted (retain b h) (bump r b) /\ owned (retain b h) ≡ₚ owned h.
Proof.
  intros Hc Hb. pose proof (Hc b) as Hcb. destruct (h !! b) as [k|] eqn:Ek; [| lia]. unfold retain. split.
  - intros b'. specialize (Hc b'). unfold bump. destruct (decide (b = b')) as [<- |].
    + rewrite lookup_alter_eq, Ek. cbn. destruct Hcb. split; lia.
    + by rewrite lookup_alter_ne.
  - assert (E : alter (fun x => mkBlock (b_ptr x) (S (b_count x))) b h = <[b := mkBlock (b_ptr k) (S (b_count k))]> h).
    { apply map_eq. intros b'. destruct (decide (b = b')) as [<- | Hne]; [by rewrite lookup_alter_eq, Ek, lookup_insert_eq | by rewrite lookup_alter_ne, lookup_insert_ne]. }
    by rewrite E, owned_insert, (owned_lookup b k h Ek).
Qed.

Lemma block_release_ok h r b f : counted h (bump r b) ->
  exists h' f', release b h f = (h', f') /\ counted h' r /\ f' ++ owned h' ≡ₚ f ++ owned h.
Proof.
  intros Hc. pose proof (Hc b) as Hb. unfold bump in Hb. rewrite decide_True in Hb by done. unfold release. destruct (h !! b) as [[p n]|] eqn:Eb; [| lia].
  destruct Hb as [Hn _]. cbn in Hn. subst n. destruct (r b) as [| n] eqn:Er.
  - eexists _, _. split; [reflexivity |]. split.
    + intros b'. specialize (Hc b'). unfold bump in Hc. destruct (decide (b = b')) as [<- |]; [by rewrite lookup_delete_eq | by rewrite lookup_delete_ne].
    + rewrite (owned_lookup b _ h Eb). cbn. unfold delete_array. destruct p; cbn; [by rewrite <- app_assoc | done].
  - eexists _, _. split; [reflexivity |]. split.
    + intros b'. specialize (Hc b'). unfold bump in Hc. destruct (decide (b = b')) as [<- |]; [rewrite lookup_insert_eq; cbn; lia | by rewrite lookup_insert_ne].
    + apply Permutation_app_head. rewrite (owned_lookup b _ h Eb). rewrite owned_insert. done.
Qed.

(** Every block is counted and every array that was brought is either in a block or
    freed. *)
Definition sa_ok (s : arrays) (made : list nat) : Prop := counted (blocks s) (refs (objs s)) /\ freed s ++ owned (blocks s) ≡ₚ made.

Lemma refs_pos os x a : os !! x = Some a -> (0 < refs os (m_ptr a))%nat.
Proof. intros Hx. rewrite (refs_lookup x a os) by done. rewrite decide_True by done. lia. Qed.

Lemma sa_step_ok s o s' made : sa_ok s made -> sa_step s o = Some s' -> sa_ok s' (made ++ brings o).
Proof.
  intros [Hc Hm] E. destruct o as [x size p | x y | x y | x y | x]; cbn [sa_step brings] in *; rewrite ?app_nil_r.
  - destruct (objs s !! x) eqn:Ex; [done |]. simplify_eq. unfold sa_new. set (b := fresh (dom (blocks s))).
    assert (Hb : blocks s !! b = None) by (apply not_elem_of_dom; apply is_fresh). split; cbn [blocks objs freed].
    + intros b'. rewrite refs_insert, delete_id by done. cbn. specialize (Hc b'). destruct (decide (b = b')) as [<- |].
      * rewrite lookup_insert_eq. rewrite Hb in Hc. cbn. lia.
      * by rewrite lookup_insert_ne.
    + rewrite owned_insert, delete_id by done. cbn. rewrite <- Hm. destruct p as [a|]; cbn; [| by rewrite app_nil_r].
      rewrite <- app_assoc. apply Permutation_app_head, Permutation_cons_append.
  - destruct (objs s !! x) eqn:Ex; [done |]. destruct (objs s !! y) as [r|] eqn:Ey; [| done]. simplify_eq. unfold sa_copy.
    destruct (retain_ok _ _ (m_ptr r) Hc (refs_pos _ _ _ Ey)) as [Hc' Ho]. split; cbn [blocks objs freed]; [| by rewrite Ho].
    eapply counted_ext; [| exact Hc']. intros b. unfold bump. rewrite refs_insert, delete_id by done. by destruct (decide (m_ptr r = b)).
  - destruct (objs s !! x) as [a|] eqn:Ex; [| done]. destruct (objs s !! y) as [r|] eqn:Ey; [| done]. simplify_eq. unfold sa_assign.
    destruct (retain_ok _ _ (m_ptr r) Hc (refs_pos _ _ _ Ey)) as [Hc' Ho].
    destruct (block_release_ok (retain (m_ptr r) (blocks s)) (refs (<[x := r]> (objs s))) (m_ptr a) (freed s)) as (h' & f' & -> & Hc2 & Hm2).
    { eapply counted_ext; [| exact Hc']. intros b. unfold bump. rewrite (refs_lookup x a _ b Ex), refs_insert. destruct (decide (m_ptr r = b)), (decide (m_ptr a = b)); lia. }
    split; cbn [blocks objs freed]; [done |]. by rewrite Hm2, Ho.
  - destruct (objs s !! x) as [a|] eqn:Ex; [| done]. destruct (objs s !! y) as [b|] eqn:Ey; [| done]. simplify_eq. split; [| done]. cbn.
    eapply counted_ext; [| exact Hc]. intros k. destruct (decide (x = y)) as [<- | Hne].
    + simplify_eq. by rewrite insert_insert_eq, insert_id.
    + rewrite refs_insert, delete_insert_ne, refs_insert by done. rewrite (refs_lookup x a _ k Ex), (refs_lookup y b (delete x (objs s)) k) by (by rewrite lookup_delete_ne).
      rewrite (delete_delete (objs s)). destruct (decide (m_ptr a = k)), (decide (m_ptr b = k)); lia.
  - destruct (objs s !! x) as [a|] eqn:Ex; [| done]. simplify_eq. unfold sa_destroy.
    destruct (block_release_ok (blocks s) (refs (delete x (objs s))) (m_ptr a) (freed s)) as (h' & f' & -> & Hc2 & Hm2).
    { eapply counted_ext; [| exact Hc]. intros b. unfold bump. rewrite (refs_lookup x a _ b Ex). destruct (decide (m_ptr a = b)); lia. }
    split; cbn [blocks objs freed]; [done |]. by rewrite Hm2.
Qed.

Inductive sa_runs : arrays -> list nat -> arrays -> Prop :=
  | sr_nil s : sa_runs s [] s
  | sr_cons s o s1 made s2 : sa_step s o = Some s1 -> sa_runs s1 made s2 -> sa_runs s (brings o ++ made) s2.

Lemma sa_runs_ok s made0 made s' : sa_ok s made0 -> sa_runs s made s' -> sa_ok s' (made0 ++ made).
Proof.
  intros Hs Hr. revert made0 Hs. induction Hr as [| s o s1 made s2 E _ IH]; intros made0 Hs; [by rewrite app_nil_r |].
  rewrite app_assoc. apply IH. by eapply sa_step_ok.
Qed.

Lemma sa_get_owned s a p : sa_get s a = Some p -> p ∈ owned (blocks s).
Proof.
  unfold sa_get. destruct (blocks s !! m_ptr a) as [k|] eqn:Ek; [| done]. cbn. intros Hp. rewrite (owned_lookup _ _ _ Ek), Hp. left.
Qed.

(** A shared array is freed once, with its last owner. However arrays are made
    from pointers that are given away only once, copied, assigned (to themselves
    too), swapped and destroyed: no array is freed twice; one that an object still
    refers to is not freed; [use_count] is the number of objects that share; and
    when no object is left, exactly the arrays that were brought are freed. *)
Theorem arrays_freed_once made s :
  sa_runs (mkArrays ∅ ∅ []) made s -> NoDup made ->
  NoDup (freed s)
  /\ (forall x a p, objs s !! x = Some a -> sa_get s a = Some p -> p ∉ freed s)
  /\ (forall x a, objs s !! x = Some a -> sa_use_count s a = refs (objs s) (m_ptr a))
  /\ (objs s = ∅ -> freed s ≡ₚ made).
Proof.
  intros Hr Hnd. assert (Hs : sa_ok s made) by (by apply (sa_runs_ok (mkArrays ∅ ∅ []) [] made s)). destruct Hs as [Hc Hm].
  assert (Hn : NoDup (freed s ++ owned (blocks s))) by (by rewrite Hm). apply NoDup_app in Hn as (Hf & Hdis & _). split_and!.
  - done.
  - intros x a p Hx Hp Hin. by apply (Hdis p Hin), (sa_get_owned _ a).
  - intros x a Hx. unfold sa_use_count. specialize (Hc (m_ptr a)). destruct (blocks s !! m_ptr a); cbn; [by destruct Hc | done].
  - intros He. assert (Hb : blocks s = ∅).
    { apply map_empty. intros b. specialize (Hc b). rewrite He in Hc. destruct (blocks s !! b); [| done]. destruct Hc as [_ Hc]. unfold refs in Hc. rewrite map_to_list_empty in Hc. cbn in Hc. lia. }
    rewrite <- Hm, Hb. unfold owned. rewrite map_to_list_empty. by rewrite app_nil_r.
Qed.

