(* ===== verification/Log.v ===== *)
(** Logging, sylar/log.h and log.cc: levels, the pattern parser and format items
    of [LogFormatter], appenders and loggers as shared objects, the manager and
    the listener that applies the configuration. *)

From stdpp Require Import strings pretty gmap.
From Stdlib Require Import Ascii.
From S2P Require Import Prelude Strs.

#[local] Arguments String.append !_ _ /.

Module Lg.

Local Open Scope string_scope.

(** * Levels

    Values of the enumeration as integers: an uninitialised level may hold any. *)

Definition Level := Z.
Definition UNKNOW : Level := 0%Z.
Definition DEBUG : Level := 1%Z.
Definition INFO : Level := 2%Z.
Definition WARN : Level := 3%Z.
Definition ERROR : Level := 4%Z.
Definition FATAL : Level := 5%Z.

(** [LogLevel::ToString] *)
Definition ToString (level : Level) : string :=
  match level with
  | 1%Z => "DEBUG"
  | 2%Z => "INFO"
  | 3%Z => "WARN"
  | 4%Z => "ERROR"
  | 5%Z => "FATAL"
  | _ => "UNKNOW"
  end.

(** [LogLevel::FromString] *)
Definition FromString (str : string) : Level :=
  if str =? "debug" then DEBUG
  else if str =? "info" then INFO
  else if str =? "warn" then WARN
  else if str =? "error" then ERROR
  else if str =? "fatal" then FATAL
  else if str =? "DEBUG" then DEBUG
  else if str =? "INFO" then INFO
  else if str =? "WARN" then WARN
  else if str =? "ERROR" then ERROR
  else if str =? "FATAL" then FATAL
  else UNKNOW.

(** * Formatters *)

Record LogEvent := {
  m_file : string;
  m_line : Z;
  m_elapse : Z;
  m_threadId : Z;
  m_fiberId : Z;
  m_time : Z;
  m_ss : string;
  m_thread_name : string;
  m_logger : nat;
  e_level : Level
}.

Inductive FormatItem :=
  | MessageFormatItem
  | LevelFormatItem
  | ElapseFormatItem
  | NameFormatItem
  | ThreadIdFormatItem
  | ThreadNameFormatItem
  | FiberIdFormatItem
  | DateTimeFormatItem (m_format : string)
  | FilenameFormatItem
  | StringFormatItem (m_string : string)
  | LineFormatItem
  | NewLineFormatItem
  | TabFormatItem.

#[global] Instance FormatItem_eq_dec : EqDecision FormatItem.
Proof. solve_decision. Defined.

(** The constructor of [DateTimeFormatItem] replaces an empty format. *)
Definition new_DateTimeFormatItem (format : string) : FormatItem :=
  DateTimeFormatItem (if format =? "" then "%Y-%m-%d %H:%M:%S" else format).

(** What [FormatItem::format] writes. [strftime fmt t] is the text of
    [localtime_r] and [strftime]; [name] the name of the logger. *)
Definition format_item (strftime : string -> Z -> string) (name : string) (level : Level)
  (event : LogEvent) (item : FormatItem) : string :=
  match item with
  | MessageFormatItem => m_ss event
  | LevelFormatItem => ToString level
  | ElapseFormatItem => pretty (m_elapse event)
  | NameFormatItem => name
  | ThreadIdFormatItem => pretty (m_threadId event)
  | ThreadNameFormatItem => m_thread_name event
  | FiberIdFormatItem => pretty (m_fiberId event)
  | DateTimeFormatItem fmt => strftime fmt (m_time event)
  | FilenameFormatItem => m_file event
  | StringFormatItem s => s
  | LineFormatItem => pretty (m_line event)
  | NewLineFormatItem => String "010" ""
  | TabFormatItem => String "009" ""
  end.

Record LogFormatter := {
  m_pattern : string;
  m_items : list FormatItem;
  m_error : bool
}.

#[global] Instance LogFormatter_eq_dec : EqDecision LogFormatter.
Proof. solve_decision. Defined.

(** [LogFormatter::format] *)
Definition format (strftime : string -> Z -> string) (f : LogFormatter) (name : string) (level : Level)
  (event : LogEvent) : string :=
  foldl (fun ss i => ss ++ format_item strftime name level event i) "" (m_items f).

(** [isalpha] in the C locale. *)
Definition isalpha (c : ascii) : bool :=
  let n := nat_of_ascii c in
  (((65 <=? n) && (n <=? 90)) || ((97 <=? n) && (n <=? 122)))%nat.

(** The inner loop of [init]: [rest] is the pattern from position [n] on. The
    format between braces is only recorded where the parser then ignores it. *)
Fixpoint scan (rest : string) (format_status n : nat) : nat * nat :=
  match rest with
  | "" => (format_status, n)
  | String c rest =>
      if negb (isalpha c) && negb (Ascii.eqb c "{") && negb (Ascii.eqb c "}") then (format_status, n)
      else if (format_status =? 0)%nat && Ascii.eqb c "{" then scan rest 1 (S n)
      else if (format_status =? 1)%nat && Ascii.eqb c "}" then (2, n)
      else scan rest format_status (S n)
  end.

(** Pieces: literal text (type 0) or the name of an item (type 1); the format
    that goes with an item is always empty. *)
Inductive piece := Text (s : string) | Item (s : string).

#[global] Instance piece_eq_dec : EqDecision piece.
Proof. solve_decision. Defined.

Definition flush (nstr : string) (vec : list piece) : list piece :=
  if nstr =? "" then vec else vec ++ [Text nstr].

(** The loop over the pattern; [rest] is the pattern from [i] on. The complaint
    printed for a brace that is not closed is left out. *)
Fixpoint init_loop (fuel : nat) (rest nstr : string) (vec : list piece) (error : bool)
  : outcome (list piece * bool) :=
  match fuel with
  | 0 => Fail OutOfFuel
  | S fuel =>
      match rest with
      | "" => Ok (flush nstr vec, error)
      | String c rest =>
          if negb (Ascii.eqb c "%") then init_loop fuel rest (str_snoc nstr c) vec error
          else if (match rest with String d _ => Ascii.eqb d "%" | "" => false end)
          then init_loop fuel rest (str_snoc nstr "%") vec error
          else match scan rest 0 0 with
               | (0, n) =>
                   init_loop fuel (str_drop n rest) "" (flush nstr vec ++ [Item (str_take n rest)]) error
               | (1, _) => init_loop fuel rest nstr (vec ++ [Text "<<pattern_error>>"]) true
               | _ => init_loop fuel rest nstr vec error
               end
      end
  end.

Definition s_format_items : list (string * (string -> FormatItem)) :=
  [("m", fun _ => MessageFormatItem);
   ("p", fun _ => LevelFormatItem);
   ("r", fun _ => ElapseFormatItem);
   ("c", fun _ => NameFormatItem);
   ("t", fun _ => ThreadIdFormatItem);
   ("n", fun _ => NewLineFormatItem);
   ("d", new_DateTimeFormatItem);
   ("f", fun _ => FilenameFormatItem);
   ("l", fun _ => LineFormatItem);
   ("T", fun _ => TabFormatItem);
   ("F", fun _ => FiberIdFormatItem);
   ("N", fun _ => ThreadNameFormatItem)].

Definition find_item (s : string) : option (string -> FormatItem) :=
  snd <$> List.find (fun e => fst e =? s) s_format_items.

(** The item a piece becomes, and whether it is an error. *)
Definition make_item (p : piece) : FormatItem * bool :=
  match p with
  | Text s => (StringFormatItem s, false)
  | Item s =>
      match find_item s with
      | None => (StringFormatItem ("<<error_format %" ++ s ++ ">>"), true)
      | Some f => (f "", false)
      end
  end.

(** [LogFormatter::LogFormatter] with [init] *)
Definition new_LogFormatter (pattern : string) : outcome LogFormatter :=
  '(vec, error) ← init_loop (S (String.length pattern)) pattern "" [] false;
  Ok {| m_pattern := pattern; m_items := map (fun p => fst (make_item p)) vec;
        m_error := foldl (fun e p => e || snd (make_item p)) error vec |}.


(** * Appenders and loggers

    Objects are shared: loggers and appenders live in heaps and are held by
    address; formatters never change after their construction. *)

Inductive appender_kind :=
  | StdoutLogAppender
  | FileLogAppender (m_filename : string) (m_good m_open : bool) (m_lastTime : Z).

Record LogAppender := {
  a_kind : appender_kind;
  a_level : Level;
  a_formatter : option LogFormatter;
  a_hasFormatter : bool
}.

Record Logger := {
  l_name : string;
  l_level : Level;
  l_appenders : list nat;
  l_formatter : option LogFormatter;
  l_root : option nat
}.

(** What becomes visible outside. *)
Inductive effect :=
  | Cout (s : string)
  | OpenFile (a : nat) (filename : string)   (* truncates *)
  | WriteFile (a : nat) (s : string).

#[global] Instance effect_eq_dec : EqDecision effect.
Proof. solve_decision. Defined.

Record world := {
  loggers : gmap nat Logger;
  appenders : gmap nat LogAppender;
  m_loggers : gmap string nat;
  m_root : nat;
  next : nat;                 (* next free address *)
  trace : list effect
}.

(** The surroundings: clock, calendar, which files can be opened and written,
    and what uninitialised fields hold. *)
Record env := {
  now : Z;
  strftime : string -> Z -> string;
  can_open : string -> bool;
  can_write : string -> bool;
  garbage_level : Level;
  garbage_time : Z
}.

Definition set_logger (l : nat) (lg : Logger) (w : world) : world :=
  {| loggers := <[l := lg]> (loggers w); appenders := appenders w; m_loggers := m_loggers w;
     m_root := m_root w; next := next w; trace := trace w |}.

Definition set_appender (a : nat) (ap : LogAppender) (w : world) : world :=
  {| loggers := loggers w; appenders := <[a := ap]> (appenders w); m_loggers := m_loggers w;
     m_root := m_root w; next := next w; trace := trace w |}.

Definition alloc (w : world) : world :=
  {| loggers := loggers w; appenders := appenders w; m_loggers := m_loggers w;
     m_root := m_root w; next := S (next w); trace := trace w |}.

Definition emit (e : effect) (w : world) : world :=
  {| loggers := loggers w; appenders := appenders w; m_loggers := m_loggers w;
     m_root := m_root w; next := next w; trace := trace w ++ [e] |}.

Definition set_name (name : string) (l : nat) (w : world) : world :=
  {| loggers := loggers w; appenders := appenders w; m_loggers := <[name := l]> (m_loggers w);
     m_root := m_root w; next := next w; trace := trace w |}.

Definition with_kind (ap : LogAppender) (k : appender_kind) : LogAppender :=
  {| a_kind := k; a_level := a_level ap; a_formatter := a_formatter ap; a_hasFormatter := a_hasFormatter ap |}.

Definition with_formatter (ap : LogAppender) (f : option LogFormatter) : LogAppender :=
  {| a_kind := a_kind ap; a_level := a_level ap; a_formatter := f; a_hasFormatter := a_hasFormatter ap |}.

Definition with_appenders (lg : Logger) (l : list nat) : Logger :=
  {| l_name := l_name lg; l_level := l_level lg; l_appenders := l; l_formatter := l_formatter lg;
     l_root := l_root lg |}.

(** [LogAppender::setLevel], [Logger::setLevel] *)
Definition appender_setLevel (ap : LogAppender) (v : Level) : LogAppender :=
  {| a_kind := a_kind ap; a_level := v; a_formatter := a_formatter ap; a_hasFormatter := a_hasFormatter ap |}.

Definition setLevel (lg : Logger) (v : Level) : Logger :=
  {| l_name := l_name lg; l_level := v; l_appenders := l_appenders lg; l_formatter := l_formatter lg;
     l_root := l_root lg |}.

(** [LogAppender::setFormatter] *)
Definition appender_setFormatter (ap : LogAppender) (val : option LogFormatter) : LogAppender :=
  {| a_kind := a_kind ap; a_level := a_level ap; a_formatter := val;
     a_hasFormatter := bool_decide (is_Some val) |}.

(** [FileLogAppender::reopen]: a stream without error is closed first; opening
    a stream that is still open fails. *)
Definition reopen (E : env) (a : nat) (filename : string) (good is_open : bool) (last : Z) (w : world)
  : appender_kind * world :=
  let is_open := if good then false else is_open in
  if is_open then (FileLogAppender filename false true last, w)
  else if can_open E filename then (FileLogAppender filename true true last, emit (OpenFile a filename) w)
  else (FileLogAppender filename false false last, w).

(** [m_filestream << text], with the message on failure. *)
Definition write_stream (E : env) (a : nat) (text : string) (k : appender_kind) (w : world)
  : appender_kind * world :=
  match k with
  | FileLogAppender filename true o last =>
      if can_write E filename then (k, emit (WriteFile a text) w)
      else (FileLogAppender filename false o last, emit (Cout ("error" ++ String "010" "")) w)
  | _ => (k, emit (Cout ("error" ++ String "010" "")) w)
  end.

(** [FileLogAppender::Log] and [StdoutLogAppender::Log] *)
Definition Appender_Log (E : env) (name : string) (level : Level) (event : LogEvent) (a : nat) (w : world)
  : outcome world :=
  ap ← of_ptr (appenders w !! a);
  if (level <? a_level ap)%Z then Ok w
  else match a_kind ap with
       | StdoutLogAppender =>
           f ← of_ptr (a_formatter ap);
           Ok (emit (Cout (format (strftime E) f name level event)) w)
       | FileLogAppender filename good o last =>
           let '(k, w) :=
             if (now E =? last)%Z then (a_kind ap, w)
             else reopen E a filename good o (now E) w in
           f ← of_ptr (a_formatter ap);
           let '(k, w) := write_stream E a (format (strftime E) f name level event) k w in
           Ok (set_appender a (with_kind ap k) w)
       end.

(** [for (auto& i : m_appenders) i->Log(...)] *)
Definition log_all (E : env) (name : string) (level : Level) (event : LogEvent)
  : list nat -> world -> outcome world :=
  fix go l w :=
    match l with
    | [] => Ok w
    | a :: l => w ← Appender_Log E name level event a w; go l w
    end.

(** [Logger::log]; the fuel bounds the chain of root loggers. *)
Fixpoint Logger_log (fuel : nat) (E : env) (l : nat) (level : Level) (event : LogEvent) (w : world)
  : outcome world :=
  match fuel with
  | 0 => Fail OutOfFuel
  | S fuel =>
      lg ← of_ptr (loggers w !! l);
      if (level <? l_level lg)%Z then Ok w
      else match l_appenders lg with
           | [] => match l_root lg with
                   | None => Ok w
                   | Some r => Logger_log fuel E r level event w
                   end
           | as_ => log_all E (l_name lg) level event as_ w
           end
  end.

(** [Logger::debug], [info], [warn], [error], [fatal] *)
Definition debug E l := Logger_log 2 E l DEBUG.
Definition info E l := Logger_log 2 E l INFO.
Definition warn E l := Logger_log 2 E l WARN.
Definition error E l := Logger_log 2 E l ERROR.
Definition fatal E l := Logger_log 2 E l FATAL.

(** [LogEventWrap::~LogEventWrap] *)
Definition LogEventWrap_destroy (E : env) (event : LogEvent) : world -> outcome world :=
  Logger_log 2 E (m_logger event) (e_level event) event.

(** [SYLAR_LOG_LEVEL(logger, level) << text]: the event is made, and logged by
    the destructor of its wrapper, when the logger's level admits it. *)
Definition SYLAR_LOG_LEVEL (E : env) (l : nat) (level : Level) (event : LogEvent) (w : world)
  : outcome world :=
  lg ← of_ptr (loggers w !! l);
  if (l_level lg <=? level)%Z
  then LogEventWrap_destroy E
         {| m_file := m_file event; m_line := m_line event; m_elapse := m_elapse event;
            m_threadId := m_threadId event; m_fiberId := m_fiberId event; m_time := m_time event;
            m_ss := m_ss event; m_thread_name := m_thread_name event; m_logger := l; e_level := level |} w
  else Ok w.

(** [Logger::addAppender] *)
Definition addAppender (l a : nat) (w : world) : outcome world :=
  lg ← of_ptr (loggers w !! l);
  ap ← of_ptr (appenders w !! a);
  let w := if a_formatter ap is Some _ then w else set_appender a (with_formatter ap (l_formatter lg)) w in
  Ok (set_logger l (with_appenders lg (l_appenders lg ++ [a])) w).

Fixpoint erase_first (a : nat) (l : list nat) : list nat :=
  match l with
  | [] => []
  | x :: l => if (x =? a)%nat then l else x :: erase_first a l
  end.

(** [Logger::delAppender] *)
Definition delAppender (l a : nat) (w : world) : outcome world :=
  lg ← of_ptr (loggers w !! l);
  Ok (set_logger l (with_appenders lg (erase_first a (l_appenders lg))) w).

(** [Logger::clearAppender] *)
Definition clearAppender (l : nat) (w : world) : outcome world :=
  lg ← of_ptr (loggers w !! l);
  Ok (set_logger l (with_appenders lg []) w).

(** The loop of [Logger::setFormatter] over the appenders. *)
Definition inherit_all (f : option LogFormatter) : list nat -> world -> outcome world :=
  fix go l w :=
    match l with
    | [] => Ok w
    | a :: l =>
        ap ← of_ptr (appenders w !! a);
        go l (if a_hasFormatter ap then w else set_appender a (with_formatter ap f) w)
    end.

(** [Logger::setFormatter] of a formatter object. *)
Definition setFormatter (l : nat) (val : option LogFormatter) (w : world) : outcome world :=
  lg ← of_ptr (loggers w !! l);
  let w := set_logger l {| l_name := l_name lg; l_level := l_level lg; l_appenders := l_appenders lg;
                           l_formatter := val; l_root := l_root lg |} w in
  inherit_all val (l_appenders lg) w.

(** [Logger::setFormatter] of a pattern; a complaint when it is not valid. *)
Definition setFormatter_str (l : nat) (val : string) (w : world) : outcome world :=
  f ← new_LogFormatter val;
  if m_error f then
    lg ← of_ptr (loggers w !! l);
    Ok (emit (Cout ("Logger setFormatter name = " ++ l_name lg ++ " value = " ++ val
                    ++ " invalid formatter" ++ String "010" "")) w)
  else setFormatter l (Some f) w.

(** * The manager *)

Definition default_pattern : string := "%d%T%t%T%N%T%F%T[%p]%T[%c]%T%f:%l%T%m%n".

(** [new Logger(name)] *)
Definition new_Logger (E : env) (name : string) (root : option nat) (w : world) : outcome (nat * world) :=
  f ← new_LogFormatter default_pattern;
  Ok (next w, set_logger (next w) {| l_name := name; l_level := garbage_level E; l_appenders := [];
                                     l_formatter := Some f; l_root := root |} (alloc w)).

(** [new StdoutLogAppender] *)
Definition new_StdoutLogAppender (w : world) : nat * world :=
  (next w, set_appender (next w) {| a_kind := StdoutLogAppender; a_level := DEBUG; a_formatter := None;
                                    a_hasFormatter := false |} (alloc w)).

(** [new FileLogAppender(filename)]: the first [reopen] closes a stream that was
    never open, which fails, and opening then clears the error. *)
Definition new_FileLogAppender (E : env) (filename : string) (w : world) : nat * world :=
  let a := next w in
  let '(k, w) := reopen E a filename true false (garbage_time E) (alloc w) in
  (a, set_appender a {| a_kind := k; a_level := DEBUG; a_formatter := None; a_hasFormatter := false |} w).

(** [LoggerManager::LoggerManager] *)
Definition new_LoggerManager (E : env) : outcome world :=
  let w := {| loggers := ∅; appenders := ∅; m_loggers := ∅; m_root := 0; next := 0; trace := [] |} in
  '(r, w) ← new_Logger E "root" None w;
  let '(a, w) := new_StdoutLogAppender w in
  w ← addAppender r a w;
  Ok (set_name "root" r w).

(** [LoggerManager::getLogger] *)
Definition getLogger (E : env) (name : string) (w : world) : outcome (nat * world) :=
  match m_loggers w !! name with
  | Some l => Ok (l, w)
  | None =>
      '(l, w) ← new_Logger E name (Some (m_root w)) w;
      Ok (l, set_name name l w)
  end.

(** * Configuration *)

Record LogAppenderDefine := {
  ad_type : nat;   (* 1 File, 2 Stdout *)
  ad_level : Level;
  ad_formatter : string;
  ad_file : string
}.

Record LogDefine := {
  ld_name : string;
  ld_level : Level;
  ld_formatter : string;
  ld_appenders : list LogAppenderDefine
}.

(** [LogAppenderDefine::operator==] *)
Definition LogAppenderDefine_eq (x y : LogAppenderDefine) : bool :=
  (ad_type x =? ad_type y)%nat && (ad_level x =? ad_level y)%Z
  && (ad_formatter x =? ad_formatter y) && (ad_file x =? ad_file y).

Fixpoint appenders_eq (x y : list LogAppenderDefine) : bool :=
  match x, y with
  | [], [] => true
  | a :: x, b :: y => LogAppenderDefine_eq a b && appenders_eq x y
  | _, _ => false
  end.

(** [LogDefine::operator==]: the appenders are compared with themselves. *)
Definition LogDefine_eq (x oth : LogDefine) : bool :=
  (ld_name x =? ld_name oth) && (ld_level x =? ld_level oth)%Z
  && (ld_formatter x =? ld_formatter oth) && appenders_eq (ld_appenders x) (ld_appenders x).

(** [std::set<LogDefine>::find]: definitions are ordered by their names. *)
Definition find_define (d : LogDefine) (s : list LogDefine) : option LogDefine :=
  List.find (fun x => ld_name x =? ld_name d) s.

(** [logger->addAppender] of a new appender made from its definition. *)
Definition apply_appender (E : env) (l : nat) (w : world) (a : LogAppenderDefine) : outcome world :=
  '(ap, w) ← match ad_type a with
             | 1 => Ok (new_FileLogAppender E (ad_file a) w)
             | 2 => Ok (new_StdoutLogAppender w)
             | _ => Fail NullDeref
             end;
  o ← of_ptr (appenders w !! ap);
  let w := set_appender ap (appender_setLevel o (ad_level a)) w in
  w ← (if ad_formatter a =? "" then Ok w
       else f ← new_LogFormatter (ad_formatter a);
            if m_error f then
              lg ← of_ptr (loggers w !! l);
              Ok (emit (Cout ("log.name=" ++ l_name lg ++ " appender type=" ++ pretty (Z.of_nat (ad_type a))
                              ++ " formatter=" ++ ad_formatter a ++ " is invalid" ++ String "010" "")) w)
            else o ← of_ptr (appenders w !! ap);
                 Ok (set_appender ap (appender_setFormatter o (Some f)) w));
  addAppender l ap w.

Definition apply_appenders (E : env) (l : nat) : list LogAppenderDefine -> world -> outcome world :=
  fix go ds w :=
    match ds with
    | [] => Ok w
    | d :: ds => w ← apply_appender E l w d; go ds w
    end.

(** One definition of the new value that is new or differs. *)
Definition apply_define (E : env) (w : world) (d : LogDefine) : outcome world :=
  '(l, w) ← getLogger E (ld_name d) w;
  lg ← of_ptr (loggers w !! l);
  let w := set_logger l (setLevel lg (ld_level d)) w in
  w ← (if ld_formatter d =? "" then Ok w else setFormatter_str l (ld_formatter d) w);
  w ← clearAppender l w;
  apply_appenders E l (ld_appenders d) w.

Definition apply_new (E : env) (old : list LogDefine) : list LogDefine -> world -> outcome world :=
  fix go new w :=
    match new with
    | [] => Ok w
    | d :: new =>
        w ← match find_define d old with
            | None => apply_define E w d
            | Some o => if negb (LogDefine_eq d o) then apply_define E w d else Ok w
            end;
        go new w
    end.

(** The loggers whose definition is gone. *)
Definition apply_gone (E : env) (new : list LogDefine) : list LogDefine -> world -> outcome world :=
  fix go old w :=
    match old with
    | [] => Ok w
    | d :: old =>
        w ← match find_define d new with
            | Some _ => Ok w
            | None =>
                '(l, w) ← getLogger E (ld_name d) w;
                lg ← of_ptr (loggers w !! l);
                clearAppender l (set_logger l (setLevel lg UNKNOW) w)
            end;
        go old w
    end.

(** The listener of [LogIniter]. *)
Definition on_log_defines (E : env) (old_value new_value : list LogDefine) (w : world) : outcome world :=
  w ← apply_new E old_value new_value w;
  apply_gone E new_value old_value w.

End Lg.
