(* ===== verification/LogProps.v ===== *)
(** Theorems on the pattern parser of log formatters and on the text a formatter
    writes. *)

From stdpp Require Import strings pretty gmap.
From Stdlib Require Import Ascii.
From S2P Require Import Prelude Strs Log.
Import Lg.

#[local] Arguments String.append !_ _ /.
Local Open Scope string_scope.

(** * The pattern parser *)

Lemma scan_status rest st n : st <= 1 -> fst (scan rest st n) <= 2.
Proof.
  revert st n. induction rest as [| c rest IH]; intros st n H; simpl; [lia |].
  destruct (_ && _ && _); [simpl; lia |]. destruct ((st =? 0)%nat && _); [apply IH; lia |].
  destruct ((st =? 1)%nat && _); [simpl; lia | by apply IH].
Qed.

Lemma init_loop_returns fuel rest nstr vec e :
  (String.length rest < fuel)%nat -> exists r, init_loop fuel rest nstr vec e = Ok r.
Proof.
  revert rest nstr vec e. induction fuel as [| fuel IH]; intros rest nstr vec e H; [lia |].
  destruct rest as [| c rest]; [simpl; eauto |]. cbn [init_loop]. simpl in H.
  destruct (negb (Ascii.eqb c "%")); [apply IH; lia |].
  destruct (match rest with "" => false | String d _ => Ascii.eqb d "%" end); [apply IH; lia |].
  destruct (scan rest 0 0) as [[| [| st]] n]; [| apply IH; lia..].
  apply IH. rewrite length_str_drop. lia.
Qed.

Lemma new_formatter_ok pattern : exists f, new_LogFormatter pattern = Ok f.
Proof.
  unfold new_LogFormatter. destruct (init_loop_returns (S (String.length pattern)) pattern "" [] false) as [[v e] ->];
    [lia |]. simpl. eauto.
Qed.

(** Patterns as sequences of literal text and items. *)
Definition print_piece (p : piece) : string :=
  match p with Text s => s | Item s => String "%" s end.

Fixpoint print (ps : list piece) : string :=
  match ps with [] => "" | p :: ps => print_piece p ++ print ps end.

(** A character that may stand in an item's name without ending the name. *)
Definition name_char (c : ascii) : bool := isalpha c || Ascii.eqb c "}".

(** The character after an item's name ends the name. *)
Definition ends_name (s : string) : bool :=
  match s with "" => true | String c _ => negb (name_char c) && negb (Ascii.eqb c "{") end.

(** Texts without a percent sign, items with a name, and after an item a
    character that cannot belong to it. *)
Fixpoint wf_pieces (ps : list piece) : bool :=
  match ps with
  | [] => true
  | Text s :: ps =>
      negb (s =? "") && str_forall (fun c => negb (Ascii.eqb c "%")) s
      && (match ps with Text _ :: _ => false | _ => true end) && wf_pieces ps
  | Item s :: ps => negb (s =? "") && str_forall name_char s && ends_name (print ps) && wf_pieces ps
  end.

(** What the parser makes of pieces when [nstr] is pending. *)
Fixpoint collect (nstr : string) (vec : list piece) (ps : list piece) : list piece :=
  match ps with
  | [] => flush nstr vec
  | Text s :: ps => collect (nstr ++ s) vec ps
  | Item s :: ps => collect "" (flush nstr vec ++ [Item s]) ps
  end.

Lemma scan_name s rest n :
  str_forall name_char s = true -> ends_name rest = true ->
  scan (s ++ rest) 0 n = (0, (n + String.length s)%nat).
Proof.
  intros Hs He. revert n. induction s as [| c s IH]; intros n; simpl.
  - rewrite Nat.add_0_r. destruct rest as [| c rest]; simpl in *; [done |]. unfold name_char in He. to_props.
    by repeat match goal with H : _ = false |- _ => rewrite H; clear H end.
  - simpl in Hs. to_props. rewrite IH by done. unfold name_char in H.
    assert (Hb : Ascii.eqb c "{" = false).
    { destruct (Ascii.eqb c "{") eqn:E; [| done]. by apply Ascii.eqb_eq in E as ->. }
    rewrite Hb. simpl. destruct (isalpha c); simpl in *; [f_equal; lia |]. rewrite H. simpl. f_equal. lia.
Qed.

Lemma init_text fuel s rest nstr vec e :
  str_forall (fun c => negb (Ascii.eqb c "%")) s = true ->
  init_loop (String.length s + fuel) (s ++ rest) nstr vec e = init_loop fuel rest (nstr ++ s) vec e.
Proof.
  intros Hs. revert nstr. induction s as [| c s IH]; intros nstr; [by rewrite str_app_nil |].
  simpl in Hs. to_props. cbn [String.length Nat.add String.append init_loop]. rewrite H. cbn [negb].
  rewrite IH by done. unfold str_snoc. by rewrite str_app_snoc.
Qed.

Lemma init_item fuel s rest nstr vec e :
  s <> "" -> str_forall name_char s = true -> ends_name rest = true ->
  init_loop (S fuel) (String "%" s ++ rest) nstr vec e
  = init_loop fuel rest "" (flush nstr vec ++ [Item s]) e.
Proof.
  intros Hne Hs He. change (String "%" s ++ rest) with (String "%" (s ++ rest)).
  cbn [init_loop]. change (negb (Ascii.eqb "%" "%")) with false. cbn iota.
  destruct s as [| c s]; [done |]. simpl in Hs. to_props.
  assert (Hc : Ascii.eqb c "%" = false).
  { destruct (Ascii.eqb c "%") eqn:E; [| done]. by apply Ascii.eqb_eq in E as ->. }
  change ((String c s ++ rest)) with (String c (s ++ rest)) at 1. cbn iota. rewrite Hc.
  rewrite scan_name; [| simpl; by rewrite H, H0 | done].
  rewrite Nat.add_0_l, str_take_app, str_drop_app, Nat.sub_diag, str_take_ge, str_drop_ge by lia.
  by rewrite str_app_nil.
Qed.

Lemma init_collect ps fuel nstr vec e :
  wf_pieces ps = true -> (String.length (print ps) < fuel)%nat ->
  init_loop fuel (print ps) nstr vec e = Ok (collect nstr vec ps, e).
Proof.
  revert fuel nstr vec. induction ps as [| [s | s] ps IH]; intros fuel nstr vec Hw Hf; simpl in Hw, Hf.
  - by destruct fuel; [lia |].
  - rewrite length_str_app in Hf. to_props. simpl print.
    replace fuel with (String.length s + (fuel - String.length s))%nat by lia.
    rewrite init_text by done. apply IH; [done | lia].
  - rewrite length_str_app in Hf. to_props. destruct fuel as [| fuel]; [lia |].
    change (print (Item s :: ps)) with (String "%" s ++ print ps).
    rewrite init_item; [apply IH; [done | lia] | | done..]. by apply String.eqb_neq.
Qed.

Lemma collect_wf ps vec : wf_pieces ps = true -> collect "" vec ps = (vec ++ ps)%list.
Proof.
  remember (length ps) as n eqn:Hn. assert (Hle : length ps <= n) by lia. clear Hn.
  revert ps vec Hle. induction n as [| n IH]; intros ps vec Hle Hw.
  { destruct ps; simpl in *; [by rewrite app_nil_r | lia]. }
  destruct ps as [| [s | s] ps]; simpl in *; [by rewrite app_nil_r | |]; to_props.
  - unfold flush. destruct ps as [| [t | t] ps]; simpl in *; try done.
    + unfold flush. by rewrite H.
    + to_props. rewrite IH by (done || lia). unfold flush. rewrite H. by rewrite <- !app_assoc.
  - rewrite IH by (done || lia). unfold flush. simpl. by rewrite <- app_assoc.
Qed.

Definition items_of (ps : list piece) : list FormatItem := map (fun p => fst (make_item p)) ps.

Definition unknown_item (p : piece) : bool := snd (make_item p).

Lemma foldl_orb {A} (f : A -> bool) l e : foldl (fun e p => e || f p) e l = e || existsb f l.
Proof.
  revert e. induction l as [| x l IH]; intros e; simpl; [by rewrite orb_false_r |].
  by rewrite IH, orb_assoc.
Qed.

(** A pattern written from texts and items is parsed back into exactly these,
    and it counts as an error exactly when an item has an unknown name. *)
Theorem pattern_parses_back (ps : list piece) :
  wf_pieces ps = true ->
  new_LogFormatter (print ps)
  = Ok {| m_pattern := print ps; m_items := items_of ps; m_error := existsb unknown_item ps |}.
Proof.
  intros Hw. unfold new_LogFormatter. rewrite init_collect by (done || lia).
  rewrite collect_wf by done. simpl. by rewrite foldl_orb.
Qed.

(** * What a pattern means, from the documentation of [LogFormatter] *)

(** The list of item names in log.h, with the text each stands for: message,
    level, elapsed milliseconds, name of the logger, thread, line break, time,
    file, line, tab, fiber, name of the thread. A name that is not in the list is
    answered with a text that reports it. *)
Definition shown (strftime : string -> Z -> string) (logger : string) (level : Level) (event : LogEvent)
    (p : piece) : string :=
  match p with
  | Text s => s
  | Item "m" => m_ss event
  | Item "p" => ToString level
  | Item "r" => pretty (m_elapse event)
  | Item "c" => logger
  | Item "t" => pretty (m_threadId event)
  | Item "n" => String "010" ""
  | Item "d" => strftime "%Y-%m-%d %H:%M:%S" (m_time event)
  | Item "f" => m_file event
  | Item "l" => pretty (m_line event)
  | Item "T" => String "009" ""
  | Item "F" => pretty (m_fiberId event)
  | Item "N" => m_thread_name event
  | Item s => "<<error_format %" ++ s ++ ">>"
  end.

Definition undocumented (p : piece) : bool :=
  match p with
  | Text _ => false
  | Item s => negb (existsb (String.eqb s) ["m"; "p"; "r"; "c"; "t"; "n"; "d"; "f"; "l"; "T"; "F"; "N"])
  end.

(** Names longer than one character are not in the table. *)
Lemma letter_eqb x a b s :
  (String x "" =? String a (String b s)) = false /\ (String a (String b s) =? String x "") = false.
Proof. cbn [String.eqb]. by destruct (Ascii.eqb x a), (Ascii.eqb a x). Qed.

Lemma find_item_long a b s : find_item (String a (String b s)) = None.
Proof. unfold find_item, s_format_items. cbn [List.find fst]. by rewrite !(proj1 (letter_eqb _ _ _ _)). Qed.

Lemma undocumented_long a b s : undocumented (Item (String a (String b s))) = true.
Proof. cbn [undocumented existsb]. by rewrite !(proj2 (letter_eqb _ _ _ _)). Qed.

Lemma unknown_undocumented p : unknown_item p = undocumented p.
Proof.
  destruct p as [s | s]; [done |]. destruct s as [| a [| b s]]; [done | by destruct a as [[] [] [] [] [] [] [] []] |].
  rewrite undocumented_long. unfold unknown_item, make_item. by rewrite find_item_long.
Qed.

Lemma item_shown strftime logger level event p :
  format_item strftime logger level event (fst (make_item p)) = shown strftime logger level event p.
Proof.
  destruct p as [s | s]; [done |]. destruct s as [| a [| b s]]; [done | by destruct a as [[] [] [] [] [] [] [] []] |].
  unfold make_item. rewrite find_item_long. simpl. by destruct a as [[] [] [] [] [] [] [] []].
Qed.

Lemma format_concat strftime f logger level event :
  format strftime f logger level event = String.concat "" (map (format_item strftime logger level event) (m_items f)).
Proof.
  unfold format. assert (H : forall l a, foldl (fun ss i => ss ++ format_item strftime logger level event i) a l
                         = a ++ String.concat "" (map (format_item strftime logger level event) l)).
  { induction l as [| x l IH]; intros a; simpl; [by rewrite str_app_nil |].
    rewrite IH, str_app_assoc. by destruct l; simpl; [rewrite !str_app_nil |]. }
  apply H.
Qed.

(** C37: parsing a pattern always ends, and a pattern means what the documentation
    of [LogFormatter] says. Every pattern, however malformed, yields a formatter
    that remembers it. When the pattern is written from texts without percent
    sign and items [%name], each item followed by a character that is neither a
    letter nor a brace (or by nothing), the formatter renders a log event as the
    texts and what the names stand for, one after the other; it counts as
    erroneous exactly when a name is not one of the twelve documented ones. The
    two other documented forms, [%%] and [%name{format}], are outside this and do
    not work ([double_percent_is_error], [braces_are_text]). *)
Theorem pattern_means_what_it_says (pattern : string) :
  exists f, new_LogFormatter pattern = Ok f /\ m_pattern f = pattern /\
    forall ps, wf_pieces ps = true -> pattern = print ps ->
      m_error f = existsb undocumented ps /\
      forall strftime logger level event,
        format strftime f logger level event = String.concat "" (map (shown strftime logger level event) ps).
Proof.
  destruct (new_formatter_ok pattern) as [f Hf]. exists f. split; [done |]. split.
  { unfold new_LogFormatter in Hf. apply bind_Ok_inv in Hf as ([v e] & _ & Hf). by injection Hf as <-. }
  intros ps Hw ->. rewrite pattern_parses_back in Hf by done. injection Hf as <-. cbn [m_error]. split.
  - clear Hw. induction ps as [| p ps IH]; simpl; [done |]. by rewrite unknown_undocumented, IH.
  - intros. rewrite format_concat. cbn [m_items]. unfold items_of. rewrite map_map. f_equal. apply map_ext.
    intros p. apply item_shown.
Qed.

Definition sample_event : LogEvent :=
  {| m_file := "main.cc"; m_line := 12; m_elapse := 5; m_threadId := 1; m_fiberId := 0; m_time := 0;
     m_ss := "started"; m_thread_name := "main"; m_logger := 0; e_level := INFO |}.

Lemma pattern_means_what_it_says_witness :
  exists f, new_LogFormatter "[%p] %f:%l %m%x" = Ok f /\ m_error f = true
    /\ format (fun _ _ => "") f "root" INFO sample_event = "[INFO] main.cc:12 started<<error_format %x>>".
Proof.
  destruct (pattern_means_what_it_says "[%p] %f:%l %m%x") as (f & Hf & _ & H).
  destruct (H [Text "["; Item "p"; Text "] "; Item "f"; Text ":"; Item "l"; Text " "; Item "m"; Item "x"]) as [He Hs];
    [reflexivity.. |].
  exists f. split; [exact Hf |]. split; [exact He |]. rewrite Hs. reflexivity.
Defined.

(** A doubled percent sign is documented to stand for one; the parser comes back
    to the second sign and takes it for an item. *)
Lemma double_percent_is_error :
  m_error <$> new_LogFormatter "100%% done" = Ok true
  /\ m_items <$> new_LogFormatter "%%m" = Ok [StringFormatItem "%"; MessageFormatItem].
Proof. by split; vm_compute. Qed.

(** An item with a format in braces is documented as well; it is printed as it
    stands. *)
Lemma braces_are_text :
  m_items <$> new_LogFormatter "%d{abc}" = Ok [StringFormatItem "d{abc}"].
Proof. by vm_compute. Qed.
