(* ===== verification/LogInv.v ===== *)
(** Theorems on loggers and appenders: their consistency under every operation
    and under reconfiguration, and the dispatch of events. *)

From stdpp Require Import strings pretty gmap.
From Stdlib Require Import Ascii.
From S2P Require Import Prelude Strs Log LogProps.
Import Lg.

Local Open Scope string_scope.

(** * Consistency of loggers and appenders *)

(** An appender as its logger [lg] needs it: it has a formatter, and the
    logger's own one unless a formatter was set for it. *)
Definition served (lg : Logger) (ap : LogAppender) : Prop :=
  is_Some (a_formatter ap) /\ (a_hasFormatter ap = false -> a_formatter ap = l_formatter lg).

Definition in_logger (w : world) (l a : nat) : Prop :=
  exists lg, loggers w !! l = Some lg /\ a ∈ l_appenders lg.

Record wf (w : world) : Prop := {
  wf_fresh_l l lg : loggers w !! l = Some lg -> l < next w;
  wf_fresh_a a ap : appenders w !! a = Some ap -> a < next w;
  wf_names n l : m_loggers w !! n = Some l -> exists lg, loggers w !! l = Some lg /\ l_name lg = n;
  wf_root : exists r, loggers w !! m_root w = Some r /\ l_root r = None;
  wf_roots l lg r : loggers w !! l = Some lg -> l_root lg = Some r -> r = m_root w;
  wf_formatter l lg : loggers w !! l = Some lg -> is_Some (l_formatter lg);
  wf_nodup l lg : loggers w !! l = Some lg -> NoDup (l_appenders lg);
  wf_served l lg a : loggers w !! l = Some lg -> a ∈ l_appenders lg ->
    exists ap, appenders w !! a = Some ap /\ served lg ap;
  wf_owner l1 l2 a : in_logger w l1 a -> in_logger w l2 a -> l1 = l2
}.

(** The parts of a world that only grow. *)
Definition grows (w w' : world) : Prop :=
  m_root w' = m_root w /\ (forall l, is_Some (loggers w !! l) -> is_Some (loggers w' !! l)).

#[global] Instance grows_preorder : PreOrder grows.
Proof. split; [by intros w |]. intros a b c [H1 H2] [H3 H4]. split; [congruence | auto]. Qed.

(** Which entry a lookup in an updated heap found. *)
Ltac split_lookup H :=
  apply lookup_insert_Some in H as [[<- <-] | [? H]].

Lemma in_logger_set w l lg lg' l' a :
  loggers w !! l = Some lg -> l_appenders lg' ⊆ l_appenders lg ->
  in_logger (set_logger l lg' w) l' a -> in_logger w l' a.
Proof.
  intros Hl Hs (x & Hx & Ha). simpl in Hx. split_lookup Hx; [exists lg; set_solver | by exists x].
Qed.

Lemma grows_set_logger w l lg' : grows w (set_logger l lg' w).
Proof. split; [done |]. intros l' Hl'. simpl. rewrite lookup_insert_is_Some'. tauto. Qed.

(** The parts of the invariant that do not concern appenders survive when a
    logger is replaced by one of the same name and root. *)
Definition same_identity (lg lg' : Logger) : Prop := l_name lg' = l_name lg /\ l_root lg' = l_root lg.

Lemma wf_names_set w l lg lg' :
  wf w -> loggers w !! l = Some lg -> same_identity lg lg' ->
  (forall n l', m_loggers w !! n = Some l' ->
     exists x, <[l := lg']> (loggers w) !! l' = Some x /\ l_name x = n)
  /\ (exists r, <[l := lg']> (loggers w) !! m_root w = Some r /\ l_root r = None)
  /\ (forall l' x r, <[l := lg']> (loggers w) !! l' = Some x -> l_root x = Some r -> r = m_root w)
  /\ (forall l' x, <[l := lg']> (loggers w) !! l' = Some x -> l' < next w).
Proof.
  intros W Hl [Hn Hr]. split_and!.
  - intros n l' Hnl. destruct (wf_names _ W _ _ Hnl) as (x & Hx & Hname).
    destruct (decide (l = l')) as [<- |]; [| rewrite lookup_insert_ne by done; eauto].
    rewrite lookup_insert_eq. exists lg'. split; [done | congruence].
  - destruct (wf_root _ W) as (r & Hroot & Hnone). destruct (decide (l = m_root w)) as [-> |].
    + rewrite lookup_insert_eq. exists lg'. split; [done | congruence].
    + rewrite lookup_insert_ne by done. eauto.
  - intros l' x r Hx Hxr. split_lookup Hx; [| by eapply wf_roots].
    apply (wf_roots _ W l lg); congruence.
  - intros l' x Hx. split_lookup Hx; by eapply wf_fresh_l.
Qed.

(** A logger may change its level and lose appenders. *)
Lemma wf_set_logger w l lg lg' :
  wf w -> loggers w !! l = Some lg -> same_identity lg lg' ->
  l_formatter lg' = l_formatter lg -> sublist (l_appenders lg') (l_appenders lg) ->
  wf (set_logger l lg' w).
Proof.
  intros W Hl Hid Hf Hsub. pose proof (sublist_subseteq _ _ Hsub) as Hs.
  destruct (wf_names_set w l lg lg' W Hl Hid) as (Hnames & Hroot & Hroots & Hfresh).
  split; simpl; try done.
  - intros a ap. by apply wf_fresh_a.
  - intros l' x Hx. split_lookup Hx; [rewrite Hf |]; by eapply wf_formatter.
  - intros l' x Hx. split_lookup Hx; [| by eapply wf_nodup].
    eapply sublist_NoDup; [| done]. by eapply wf_nodup.
  - intros l' x a Hx Ha. split_lookup Hx; [| by eapply wf_served].
    destruct (wf_served _ W _ _ a Hl (Hs _ Ha)) as (ap & Hap & Hserv & Hinh).
    exists ap. unfold served. by rewrite Hf.
  - intros l1 l2 a H1 H2. eapply wf_owner; eauto using in_logger_set.
Qed.

(** An appender may change everything but its formatter. *)
Lemma wf_set_appender w a ap ap' :
  wf w -> appenders w !! a = Some ap -> a_formatter ap' = a_formatter ap ->
  a_hasFormatter ap' = a_hasFormatter ap -> wf (set_appender a ap' w).
Proof.
  intros W Ha Hf Hh. split; simpl; try apply W.
  - intros b x Hx. split_lookup Hx; by eapply wf_fresh_a.
  - intros l lg b Hl Hb. destruct (wf_served _ W _ _ b Hl Hb) as (x & Hx & Hs).
    destruct (decide (a = b)) as [<- |].
    + rewrite lookup_insert_eq. exists ap'. split; [done |]. simplify_eq. unfold served. by rewrite Hf, Hh.
    + rewrite lookup_insert_ne by done. eauto.
Qed.

Lemma wf_emit w e : wf w -> wf (emit e w).
Proof. intros W. split; simpl; apply W. Qed.

(** A new appender belongs to nobody. *)
Lemma fresh_not_in w l a : wf w -> next w <= a -> ~ in_logger w l a.
Proof.
  intros W Ha (lg & Hl & Hin). destruct (wf_served _ W _ _ _ Hl Hin) as (ap & Hap & _).
  apply (wf_fresh_a _ W) in Hap. lia.
Qed.

Lemma wf_new_appender w ap : wf w -> wf (set_appender (next w) ap (alloc w)).
Proof.
  intros W. split; simpl; try apply W.
  - intros l lg H. apply (wf_fresh_l _ W) in H. lia.
  - intros a x Hx. split_lookup Hx; [lia |]. apply (wf_fresh_a _ W) in Hx. lia.
  - intros l lg a Hl Ha. rewrite lookup_insert_ne; [by eapply wf_served |].
    intros <-. apply (fresh_not_in w l (next w) W); [lia | by exists lg].
Qed.

(** An appender that belongs to nobody may change in any way. *)
Lemma wf_set_free w a ap :
  wf w -> a < next w -> (forall l, ~ in_logger w l a) -> wf (set_appender a ap w).
Proof.
  intros W Hlt Hfree. split; simpl; try apply W.
  - intros b x Hx. split_lookup Hx; [done | by eapply wf_fresh_a].
  - intros l lg b Hl Hb. rewrite lookup_insert_ne; [by eapply wf_served |].
    intros <-. apply (Hfree l). by exists lg.
Qed.

Lemma owner_add w l lg a :
  wf w -> loggers w !! l = Some lg -> (forall l', ~ in_logger w l' a) ->
  let w' := set_logger l (with_appenders lg (l_appenders lg ++ [a])) w in
  forall l1 l2 b, in_logger w' l1 b -> in_logger w' l2 b -> l1 = l2.
Proof.
  intros W Hl Hfree w' l1 l2 b H1 H2.
  assert (H : forall l', in_logger w' l' b -> in_logger w l' b \/ (l' = l /\ b = a)).
  { intros l' (x & Hx & Hb). simpl in Hx. split_lookup Hx; [| left; by exists x].
    simpl in Hb. apply elem_of_app in Hb as [Hb | Hb]; [left; by exists lg |].
    apply list_elem_of_singleton in Hb as ->. by right. }
  destruct (H _ H1) as [H1' | [-> ->]], (H _ H2) as [H2' | [-> Hb]]; subst; try done.
  - by eapply wf_owner.
  - by apply Hfree in H1'.
  - by apply Hfree in H2'.
Qed.

(** Adding an appender that belongs to nobody and has either a formatter of its
    own or none. *)
Lemma wf_addAppender w l lg a ap :
  wf w -> loggers w !! l = Some lg -> appenders w !! a = Some ap ->
  (forall l', ~ in_logger w l' a) -> (a_formatter ap = None \/ a_hasFormatter ap = true) ->
  exists w', addAppender l a w = Ok w' /\ wf w' /\ grows w w'
    /\ loggers w' = <[l := with_appenders lg (l_appenders lg ++ [a])]> (loggers w)
    /\ trace w' = trace w.
Proof.
  intros W Hl Ha Hfree Hfmt. unfold addAppender. rewrite Hl. simpl. rewrite Ha. simpl.
  set (w1 := if a_formatter ap is Some _ then w else _).
  assert (W1 : wf w1 /\ loggers w1 = loggers w /\ trace w1 = trace w /\ m_root w1 = m_root w
               /\ exists ap', appenders w1 !! a = Some ap' /\ served lg ap').
  { destruct (wf_formatter _ W _ _ Hl) as [f Hf]. unfold w1, served. destruct (a_formatter ap) as [g |] eqn:Eg.
    - destruct Hfmt as [| Hh]; [done |]. split_and!; try done. exists ap. rewrite Eg, Hh. by split_and!; eauto.
    - split_and!; try done; [by apply wf_set_free; [| eapply wf_fresh_a |] |].
      exists (with_formatter ap (l_formatter lg)). simpl. rewrite lookup_insert_eq, Hf. by split_and!; eauto. }
  destruct W1 as (W1 & El & Et & Er & ap' & Hap' & Hserv). clearbody w1.
  eexists. split; [reflexivity |]. rewrite <- El in Hl.
  destruct (wf_names_set w1 l lg (with_appenders lg (l_appenders lg ++ [a])) W1 Hl) as (? & ? & ? & ?); [done |].
  assert (Hfree1 : forall l', ~ in_logger w1 l' a) by (intros l'; unfold in_logger; rewrite El; apply Hfree).
  split_and!; [split; simpl; try done | | simpl; by rewrite El | done].
  - intros b x. by apply wf_fresh_a.
  - intros l' x Hx. split_lookup Hx; simpl; by eapply wf_formatter.
  - intros l' x Hx. split_lookup Hx; simpl; [| by eapply wf_nodup]. apply NoDup_app. split_and!.
    + by eapply wf_nodup.
    + intros y Hy Hy'. apply list_elem_of_singleton in Hy' as ->. apply (Hfree1 l). by exists lg.
    + apply NoDup_singleton.
  - intros l' x b Hx Hb. split_lookup Hx; [| by eapply wf_served]. simpl in Hb.
    apply elem_of_app in Hb as [Hb | Hb].
    + destruct (wf_served _ W1 _ _ b Hl Hb) as (x & Hx & Hxs). by exists x.
    + apply list_elem_of_singleton in Hb as ->. by exists ap'.
  - by apply owner_add.
  - split; [done |]. intros l' Hl'. simpl. rewrite lookup_insert_is_Some', El. tauto.
Qed.

(** An operation returns and keeps the invariant. *)
Definition keeps (w : world) (m : outcome world) : Prop :=
  exists w', m = Ok w' /\ wf w' /\ grows w w'.

Lemma keeps_refl w : wf w -> keeps w (Ok w).
Proof. intros W. by exists w. Qed.

Lemma keeps_bind w m (k : world -> outcome world) :
  keeps w m -> (forall w', m = Ok w' -> wf w' -> grows w w' -> keeps w' (k w')) -> keeps w (m ≫= k).
Proof.
  intros (w1 & E & W1 & G1) H. destruct (H w1 E W1 G1) as (w2 & E2 & W2 & G2).
  exists w2. rewrite E. split_and!; [done.. | by etransitivity].
Qed.

Lemma keeps_grows w w1 m : grows w w1 -> keeps w1 m -> keeps w m.
Proof. intros G (w2 & -> & W2 & G2). exists w2. split_and!; [done.. | by etransitivity]. Qed.

Definition inherit (f : option LogFormatter) (ap : LogAppender) : LogAppender :=
  if a_hasFormatter ap then ap else with_formatter ap f.

Lemma inherit_all_spec f l w :
  Forall (fun a => is_Some (appenders w !! a)) l ->
  exists w', inherit_all f l w = Ok w' /\ loggers w' = loggers w /\ m_loggers w' = m_loggers w
    /\ m_root w' = m_root w /\ next w' = next w /\ trace w' = trace w
    /\ forall a, appenders w' !! a = (if decide (a ∈ l) then inherit f <$> appenders w !! a else appenders w !! a).
Proof.
  revert w. induction l as [| x l IH]; intros w Hl; [by exists w |].
  apply Forall_cons in Hl as [[ap Hap] Hl]. simpl. rewrite Hap. simpl.
  set (w1 := if a_hasFormatter ap then w else set_appender x (with_formatter ap f) w).
  assert (H1 : appenders w1 = <[x := inherit f ap]> (appenders w) /\ loggers w1 = loggers w
    /\ m_loggers w1 = m_loggers w /\ m_root w1 = m_root w /\ next w1 = next w /\ trace w1 = trace w).
  { unfold w1, inherit. destruct (a_hasFormatter ap); [by rewrite insert_id | done]. }
  destruct H1 as (Ea & E1 & E2 & E3 & E4 & E5). clearbody w1.
  destruct (IH w1) as (w' & E & F1 & F2 & F3 & F4 & F5 & Fa).
  { rewrite Ea. eapply Forall_impl; [done |]. simpl. intros y Hy. rewrite lookup_insert_is_Some'. by right. }
  exists w'. rewrite E. split_and!; try congruence. intros a. rewrite Fa, Ea.
  destruct (decide (x = a)) as [<- | Hne].
  - rewrite lookup_insert_eq, Hap, (decide_True (P := x ∈ x :: l)) by set_solver. simpl.
    case_decide; [| done]. f_equal. unfold inherit. destruct (a_hasFormatter ap) eqn:Eh; simpl; by rewrite ?Eh.
  - rewrite lookup_insert_ne by done. destruct (decide (a ∈ l)).
    + rewrite decide_True by set_solver. done.
    + rewrite decide_False by set_solver. done.
Qed.

Lemma setFormatter_keeps w l lg f :
  wf w -> loggers w !! l = Some lg -> keeps w (setFormatter l (Some f) w).
Proof.
  intros W Hl. unfold setFormatter. rewrite Hl. simpl.
  set (lg' := {| l_name := _ |}).
  destruct (wf_names_set w l lg lg' W Hl) as (Hnames & Hroot & Hroots & Hfresh); [done |].
  destruct (inherit_all_spec (Some f) (l_appenders lg) (set_logger l lg' w)) as (w' & E & F1 & F2 & F3 & F4 & F5 & Fa).
  { apply Forall_forall. intros a Ha. destruct (wf_served _ W _ _ a Hl) as (ap & Hap & _); [done |]. by exists ap. }
  exists w'. simpl in *. split_and!; [done | |].
  2: { destruct (grows_set_logger w l lg') as [G1 G2]. split; [congruence |]. intros l'. rewrite F1. apply G2. }
  assert (Hin : forall l' a, in_logger w' l' a -> in_logger w l' a).
  { intros l' a (x & Hx & Ha). rewrite F1 in Hx. eapply (in_logger_set w l lg lg'); [done | done |]. by exists x. }
  split; rewrite ?F1, ?F2, ?F3, ?F4; try done.
  - intros a ap Hap. rewrite Fa in Hap. case_decide; [| by eapply wf_fresh_a].
    apply fmap_Some in Hap as (x & Hx & _). by eapply wf_fresh_a.
  - intros l' x Hx. split_lookup Hx; [simpl; eauto | by eapply wf_formatter].
  - intros l' x Hx. split_lookup Hx; simpl; by eapply wf_nodup.
  - intros l' x a Hx Ha. rewrite Fa. split_lookup Hx.
    + rewrite decide_True by done. destruct (wf_served _ W _ _ a Hl Ha) as (ap & -> & Hs1 & Hs2).
      eexists. split; [reflexivity |]. unfold served, inherit.
      destruct (a_hasFormatter ap) eqn:Eh; simpl; rewrite ?Eh; by split; eauto.
    + rewrite decide_False; [by eapply wf_served |]. intros Ha'.
      apply H. by apply (wf_owner _ W l l' a); [exists lg | exists x].
  - intros l1 l2 a H1 H2. eapply wf_owner; eauto.
Qed.

Lemma setFormatter_str_keeps w l lg val :
  wf w -> loggers w !! l = Some lg -> keeps w (setFormatter_str l val w).
Proof.
  intros W Hl. unfold setFormatter_str. destruct (new_formatter_ok val) as [f ->]. simpl.
  destruct (m_error f); [| by eapply setFormatter_keeps].
  rewrite Hl. simpl. eexists. split_and!; [done | by apply wf_emit | done].
Qed.

Lemma setLevel_keeps w l lg v :
  wf w -> loggers w !! l = Some lg -> wf (set_logger l (setLevel lg v) w).
Proof. intros W Hl. by apply (wf_set_logger w l lg). Qed.

Lemma clearAppender_keeps w l lg :
  wf w -> loggers w !! l = Some lg -> keeps w (clearAppender l w).
Proof.
  intros W Hl. unfold clearAppender. rewrite Hl. simpl. eexists. split_and!; [done | | apply grows_set_logger].
  apply (wf_set_logger w l lg); try done. apply sublist_nil_l.
Qed.

Lemma erase_first_sublist a l : sublist (erase_first a l) l.
Proof. induction l as [| x l IH]; simpl; [done |]. destruct (x =? a)%nat; [by apply sublist_cons | by constructor]. Qed.

Lemma delAppender_keeps w l lg a :
  wf w -> loggers w !! l = Some lg -> keeps w (delAppender l a w).
Proof.
  intros W Hl. unfold delAppender. rewrite Hl. simpl. eexists. split_and!; [done | | apply grows_set_logger].
  apply (wf_set_logger w l lg); try done. apply erase_first_sublist.
Qed.

(** * The manager and the configuration *)

Lemma wf_new_logger w name f :
  wf w -> m_loggers w !! name = None ->
  let lg := fun v => {| l_name := name; l_level := v; l_appenders := []; l_formatter := Some f;
                        l_root := Some (m_root w) |} in
  forall v, wf (set_name name (next w) (set_logger (next w) (lg v) (alloc w)))
    /\ grows w (set_name name (next w) (set_logger (next w) (lg v) (alloc w))).
Proof.
  intros W Hn lg v.
  assert (Hne : forall l x, loggers w !! l = Some x -> next w <> l).
  { intros l x Hx <-. apply (wf_fresh_l _ W) in Hx. lia. }
  split; [split; simpl |].
  - intros l x Hx. split_lookup Hx; [lia |]. apply (wf_fresh_l _ W) in Hx. lia.
  - intros a ap Ha. apply (wf_fresh_a _ W) in Ha. lia.
  - intros n l Hl. split_lookup Hl; [rewrite lookup_insert_eq; eauto |].
    destruct (wf_names _ W _ _ Hl) as (x & Hx & Hxn). rewrite lookup_insert_ne by eauto. eauto.
  - destruct (wf_root _ W) as (r & Hr & Hnone). rewrite lookup_insert_ne by eauto. eauto.
  - intros l x r Hx Hr. split_lookup Hx; [by injection Hr as <- | by eapply wf_roots].
  - intros l x Hx. split_lookup Hx; [simpl; eauto | by eapply wf_formatter].
  - intros l x Hx. split_lookup Hx; [constructor | by eapply wf_nodup].
  - intros l x a Hx Ha. split_lookup Hx; [by apply not_elem_of_nil in Ha | by eapply wf_served].
  - intros l1 l2 a (x1 & H1 & A1) (x2 & H2 & A2). simpl in *.
    split_lookup H1; [by apply not_elem_of_nil in A1 |].
    split_lookup H2; [by apply not_elem_of_nil in A2 |].
    by apply (wf_owner _ W l1 l2 a); [exists x1 | exists x2].
  - split; [done |]. intros l Hl. simpl. rewrite lookup_insert_is_Some'. by right.
Qed.

Lemma getLogger_keeps E name w :
  wf w -> exists l w', getLogger E name w = Ok (l, w') /\ wf w' /\ grows w w'
    /\ exists lg, loggers w' !! l = Some lg /\ l_name lg = name.
Proof.
  intros W. unfold getLogger. destruct (m_loggers w !! name) as [l |] eqn:En.
  - exists l, w. split_and!; try done. by eapply wf_names.
  - unfold new_Logger. destruct (new_formatter_ok default_pattern) as [f ->]. simpl.
    eexists _, _. split; [done |].
    destruct (wf_new_logger w name f W En (garbage_level E)) as [W' G']. split_and!; [done.. |].
    simpl. rewrite lookup_insert_eq. eauto.
Qed.

Lemma new_LoggerManager_wf E : exists w, new_LoggerManager E = Ok w /\ wf w.
Proof.
  unfold new_LoggerManager, new_Logger. destruct (new_formatter_ok default_pattern) as [f ->]. simpl.
  eexists. split; [done |]. split; simpl.
  - intros l x Hx. do 2 (split_lookup Hx; [lia |]). by rewrite lookup_empty in Hx.
  - intros a ap Ha. do 2 (split_lookup Ha; [lia |]). by rewrite lookup_empty in Ha.
  - intros n l Hl. split_lookup Hl; [rewrite lookup_insert_eq; eauto | by rewrite lookup_empty in Hl].
  - rewrite lookup_insert_eq. eauto.
  - intros l x r Hx Hr. do 2 (split_lookup Hx; [done |]). by rewrite lookup_empty in Hx.
  - intros l x Hx. do 2 (split_lookup Hx; [simpl; eauto |]). by rewrite lookup_empty in Hx.
  - intros l x Hx. split_lookup Hx; [apply NoDup_singleton |].
    split_lookup Hx; [constructor | by rewrite lookup_empty in Hx].
  - intros l x a Hx Ha. split_lookup Hx; [| split_lookup Hx; [done | by rewrite lookup_empty in Hx]].
    apply list_elem_of_singleton in Ha as ->. rewrite lookup_insert_eq. eexists. by split_and!; eauto.
  - intros l1 l2 a (x & Hx & _) (y & Hy & _). simpl in *.
    transitivity 0; [symmetry |]; [do 2 (split_lookup Hx; [done |]) | do 2 (split_lookup Hy; [done |])];
      by rewrite lookup_empty in *.
Qed.

(** Making an appender from its definition. *)
Definition valid_define (d : LogAppenderDefine) : Prop := ad_type d = 1 \/ ad_type d = 2.

Definition fresh_in (w : world) (a : nat) (o : LogAppender) (w' : world) : Prop :=
  wf w' /\ grows w w' /\ loggers w' = loggers w /\ appenders w' !! a = Some o
  /\ forall l, ~ in_logger w' l a.

Lemma fresh_appender w o : wf w -> fresh_in w (next w) o (set_appender (next w) o (alloc w)).
Proof.
  intros W. unfold fresh_in. split_and!; [by apply wf_new_appender | | done | apply lookup_insert_eq |].
  - by split.
  - intros l H. eapply (fresh_not_in w l (next w)); [done | lia | exact H].
Qed.

Lemma fresh_emit w a o w' e : fresh_in w a o w' -> fresh_in w a o (emit e w').
Proof. intros (H1 & H2 & H3 & H4 & H5). unfold fresh_in. split_and!; try done. by apply wf_emit. Qed.

Lemma new_appender_keeps E d w :
  wf w -> valid_define d ->
  exists ap w' o, match ad_type d with
                | 1 => Ok (new_FileLogAppender E (ad_file d) w)
                | 2 => Ok (new_StdoutLogAppender w)
                | _ => Fail NullDeref
                end = Ok (ap, w')
    /\ fresh_in w ap o w' /\ a_formatter o = None /\ a_hasFormatter o = false.
Proof.
  intros W [-> | ->].
  - unfold new_FileLogAppender, reopen. simpl.
    destruct (can_open E (ad_file d)); eexists _, _, _; (split; [done |]).
    + split; [by apply (fresh_emit _ _ _ (set_appender _ _ (alloc w))), fresh_appender | done].
    + split; [by apply fresh_appender | done].
  - unfold new_StdoutLogAppender. eexists _, _, _. split; [done |]. split; [by apply fresh_appender | done].
Qed.

Lemma apply_appender_keeps E l lg w d :
  wf w -> valid_define d -> loggers w !! l = Some lg -> keeps w (apply_appender E l w d).
Proof.
  intros W Hd Hl. unfold apply_appender.
  destruct (new_appender_keeps E d w W Hd) as (a & w1 & o & -> & (W1 & G1 & El & Ho & Hfree) & Hnone & Hno).
  rewrite bind_Ok. cbn beta iota. rewrite Ho. cbn [of_ptr mbind outcome_bind]. cbv zeta.
  set (o1 := appender_setLevel o (ad_level d)). set (w2 := set_appender a o1 w1).
  assert (W2 : wf w2) by (by apply wf_set_free; [| eapply wf_fresh_a |]).
  assert (Ho1 : appenders w2 !! a = Some o1) by apply lookup_insert_eq.
  assert (Hfree2 : forall l', ~ in_logger w2 l' a) by exact Hfree.
  assert (Hl2 : loggers w2 !! l = Some lg) by (simpl; by rewrite El).
  assert (G2 : grows w w2) by (by transitivity w1). clearbody w2.
  destruct (ad_formatter d =? "").
  { rewrite bind_Ok. destruct (wf_addAppender w2 l lg a o1) as (w3 & -> & W3 & G3 & _); try done; [by left |].
    exists w3. split_and!; [done.. | by transitivity w2]. }
  destruct (new_formatter_ok (ad_formatter d)) as [f ->]. simpl. destruct (m_error f).
  - rewrite Hl2. simpl. set (w3 := emit _ w2).
    destruct (wf_addAppender w3 l lg a o1) as (w4 & -> & W4 & G4 & _); try done; [by apply wf_emit | by left |].
    exists w4. split_and!; [done.. | by transitivity w2].
  - rewrite Ho1. simpl. set (o2 := appender_setFormatter o1 (Some f)). set (w3 := set_appender a o2 w2).
    assert (W3 : wf w3) by (apply wf_set_free; [done | by eapply wf_fresh_a | done]).
    destruct (wf_addAppender w3 l lg a o2) as (w4 & -> & W4 & G4 & _); try done.
    + apply lookup_insert_eq.
    + by right.
    + exists w4. split_and!; [done.. | by transitivity w2].
Qed.

Lemma apply_appenders_keeps E l ds w :
  wf w -> Forall valid_define ds -> is_Some (loggers w !! l) -> keeps w (apply_appenders E l ds w).
Proof.
  intros W Hds Hl. revert w W Hl. induction Hds as [| d ds Hd Hds IH]; intros w W Hl; simpl; [by apply keeps_refl |].
  destruct Hl as [lg Hl]. apply keeps_bind; [by eapply apply_appender_keeps |].
  intros w' _ W' G'. apply IH; [done |]. apply G'. by exists lg.
Qed.

Lemma apply_define_keeps E w d :
  wf w -> Forall valid_define (ld_appenders d) -> keeps w (apply_define E w d).
Proof.
  intros W Hd. unfold apply_define. destruct (getLogger_keeps E (ld_name d) w W) as (l & w1 & -> & W1 & G1 & lg & Hl & _).
  simpl. rewrite Hl. simpl. apply (keeps_grows _ w1); [done |]. set (w2 := set_logger l (setLevel lg (ld_level d)) w1).
  assert (W2 : wf w2) by (by apply setLevel_keeps). assert (G2 : grows w1 w2) by apply grows_set_logger.
  assert (Hl2 : loggers w2 !! l = Some (setLevel lg (ld_level d))) by apply lookup_insert_eq.
  apply (keeps_grows _ w2); [done |]. clearbody w2. apply keeps_bind.
  { destruct (ld_formatter d =? ""); [by apply keeps_refl | by eapply setFormatter_str_keeps]. }
  intros w3 _ W3 G3. destruct (proj2 G3 l) as [lg3 Hl3]; [eauto |].
  apply keeps_bind; [by eapply clearAppender_keeps |].
  intros w4 _ W4 G4. apply apply_appenders_keeps; [done.. |]. apply G4. eauto.
Qed.

Definition valid_defines (ds : list LogDefine) : Prop := Forall (fun d => Forall valid_define (ld_appenders d)) ds.

Lemma apply_new_keeps E old new w : wf w -> valid_defines new -> keeps w (apply_new E old new w).
Proof.
  intros W Hds. revert w W. induction Hds as [| d ds Hd Hds IH]; intros w W; simpl; [by apply keeps_refl |].
  apply keeps_bind; [| intros w' _ W' _; by apply IH].
  destruct (find_define d old) as [o |]; [destruct (negb (LogDefine_eq d o)) |];
    [by apply apply_define_keeps | by apply keeps_refl | by apply apply_define_keeps].
Qed.

Lemma apply_gone_keeps E new old w : wf w -> keeps w (apply_gone E new old w).
Proof.
  revert w. induction old as [| d old IH]; intros w W; simpl; [by apply keeps_refl |].
  apply keeps_bind; [| intros w' _ W' _; by apply IH].
  destruct (find_define d new); [by apply keeps_refl |].
  destruct (getLogger_keeps E (ld_name d) w W) as (l & w1 & -> & W1 & G1 & lg & Hl & _). simpl. rewrite Hl. simpl.
  apply (keeps_grows _ w1); [done |]. eapply keeps_grows; [apply grows_set_logger |].
  eapply clearAppender_keeps; [by apply setLevel_keeps | apply lookup_insert_eq].
Qed.

(** * Dispatch *)

(** What one appender makes visible of an event it admits. *)
Definition visible (E : env) (name : string) (level : Level) (event : LogEvent) (a : nat) (ap : LogAppender)
  : list effect :=
  if (level <? a_level ap)%Z then []
  else
    let text := match a_formatter ap with Some f => format (strftime E) f name level event | None => "" end in
    match a_kind ap with
    | StdoutLogAppender => [Cout text]
    | FileLogAppender filename good o last =>
        let opens := negb (now E =? last)%Z && (good || negb o) && can_open E filename in
        let ready := if (now E =? last)%Z then good else opens in
        (if opens then [OpenFile a filename] else [])
        ++ [if ready && can_write E filename then WriteFile a text else Cout ("error" ++ String "010" "")]
    end.

Lemma set_same_appender a ap w : appenders w !! a = Some ap -> set_appender a (with_kind ap (a_kind ap)) w = w.
Proof.
  intros H. unfold set_appender. replace (with_kind ap (a_kind ap)) with ap by (by destruct ap).
  rewrite insert_id by done. by destruct w.
Qed.

Lemma Appender_Log_spec E name level event a ap w :
  appenders w !! a = Some ap -> is_Some (a_formatter ap) ->
  exists k, Appender_Log E name level event a w
    = Ok (foldl (fun w e => emit e w) (set_appender a (with_kind ap k) w) (visible E name level event a ap)).
Proof.
  intros Ha [f Hf]. unfold Appender_Log, visible. rewrite Ha. simpl.
  destruct (level <? a_level ap)%Z; [exists (a_kind ap); simpl; by rewrite set_same_appender |].
  rewrite Hf. simpl. destruct (a_kind ap) as [| filename good o last] eqn:Ek; simpl.
  { exists (a_kind ap). by rewrite set_same_appender. }
  unfold reopen, write_stream. destruct (now E =? last)%Z; simpl.
  - destruct good; [destruct (can_write E filename) |]; simpl; eexists; by f_equal.
  - destruct good, o, (can_open E filename), (can_write E filename); simpl; eexists; by f_equal.
Qed.

Lemma emit_all_trace es w : trace (foldl (fun w e => emit e w) w es) = (trace w ++ es)%list.
Proof.
  revert w. induction es as [| e es IH]; intros w; simpl; [by rewrite app_nil_r |].
  rewrite IH. simpl. by rewrite <- app_assoc.
Qed.

Lemma emit_all_same es w : let w' := foldl (fun w e => emit e w) w es in
  loggers w' = loggers w /\ m_loggers w' = m_loggers w /\ m_root w' = m_root w /\ next w' = next w
  /\ appenders w' = appenders w.
Proof. revert w. induction es as [| e es IH]; intros w; simpl; [done |]. apply (IH (emit e w)). Qed.

Lemma wf_emit_all es w : wf w -> wf (foldl (fun w e => emit e w) w es).
Proof. revert w. induction es as [| e es IH]; intros w W; simpl; [done |]. by apply IH, wf_emit. Qed.

(** What the appenders of a list make visible, in order. *)
Definition visible_all (E : env) (w : world) (name : string) (level : Level) (event : LogEvent) (l : list nat)
  : list effect :=
  flat_map (fun a => match appenders w !! a with Some ap => visible E name level event a ap | None => [] end) l.

Lemma visible_all_ext E w w' name level event l :
  (forall a, a ∈ l -> appenders w' !! a = appenders w !! a) ->
  visible_all E w' name level event l = visible_all E w name level event l.
Proof.
  intros H. unfold visible_all. induction l as [| a l IH]; simpl; [done |].
  rewrite H by set_solver. f_equal. apply IH. intros b Hb. apply H. set_solver.
Qed.

Lemma log_all_spec E name level event l w :
  wf w -> NoDup l -> Forall (fun a => exists ap, appenders w !! a = Some ap /\ is_Some (a_formatter ap)) l ->
  exists w', log_all E name level event l w = Ok w' /\ wf w' /\ loggers w' = loggers w
    /\ m_loggers w' = m_loggers w /\ m_root w' = m_root w
    /\ trace w' = (trace w ++ visible_all E w name level event l)%list.
Proof.
  intros W Hnd. revert w W. induction Hnd as [| a l Hn Hnd IH]; intros w W Hl.
  { exists w. split_and!; try done. simpl. by rewrite app_nil_r. }
  apply Forall_cons in Hl as [(ap & Ha & Hf) Hl]. cbn [log_all].
  destruct (Appender_Log_spec E name level event a ap w Ha Hf) as [k ->]. rewrite bind_Ok.
  set (w0 := set_appender a (with_kind ap k) w). set (es := visible E name level event a ap).
  destruct (emit_all_same es w0) as (E1 & E2 & E3 & E4 & E5). pose proof (emit_all_trace es w0) as Et.
  assert (W1 : wf (foldl (fun w e => emit e w) w0 es)) by (by apply wf_emit_all, (wf_set_appender w a ap)).
  set (w1 := foldl _ w0 es) in *. clearbody w1. change (loggers w1 = loggers w) in E1.
  change (m_loggers w1 = m_loggers w) in E2. change (m_root w1 = m_root w) in E3.
  assert (Hsame : forall b, b ∈ l -> appenders w1 !! b = appenders w !! b).
  { intros b Hb. rewrite E5. simpl. apply lookup_insert_ne. by intros <-. }
  destruct (IH w1 W1) as (w' & Eq & W' & F1 & F2 & F3 & F4).
  { rewrite Forall_forall in Hl |- *. intros b Hb. rewrite Hsame by done. by apply Hl. }
  exists w'. split_and!; [done | done | congruence.. |].
  rewrite F4, Et, <- app_assoc, (visible_all_ext E w w1) by done. simpl. by rewrite Ha.
Qed.

(** Who gets an event of a logger: its own appenders, or those of the root when
    it has none, as the levels admit. *)
Definition routed (w : world) (l : nat) (level : Level) : string * list nat :=
  match loggers w !! l with
  | None => ("", [])
  | Some lg =>
      if (level <? l_level lg)%Z then (l_name lg, [])
      else match l_appenders lg, l_root lg with
           | [], Some r =>
               match loggers w !! r with
               | Some rg => if (level <? l_level rg)%Z then (l_name rg, []) else (l_name rg, l_appenders rg)
               | None => ("", [])
               end
           | as_, _ => (l_name lg, as_)
           end
  end.

Lemma wf_logable w l lg :
  wf w -> loggers w !! l = Some lg ->
  Forall (fun a => exists ap, appenders w !! a = Some ap /\ is_Some (a_formatter ap)) (l_appenders lg).
Proof.
  intros W Hl. apply Forall_forall. intros a Ha.
  destruct (wf_served _ W _ _ a Hl Ha) as (ap & Hap & Hs & _). by exists ap.
Qed.

Lemma Logger_log_spec E w l level event :
  wf w -> is_Some (loggers w !! l) ->
  exists w', Logger_log 2 E l level event w = Ok w' /\ wf w' /\ loggers w' = loggers w
    /\ m_loggers w' = m_loggers w /\ m_root w' = m_root w
    /\ trace w' = (trace w ++ visible_all E w (fst (routed w l level)) level event (snd (routed w l level)))%list.
Proof.
  intros W [lg Hl]. unfold routed. cbn [Logger_log]. rewrite Hl. cbn [of_ptr mbind outcome_bind].
  destruct (level <? l_level lg)%Z; [exists w; split_and!; try done; simpl; by rewrite app_nil_r |].
  pose proof (wf_logable w l lg W Hl) as Hs. pose proof (wf_nodup _ W _ _ Hl) as Hnd.
  destruct (l_appenders lg) as [| a as_] eqn:Ea; [| by apply log_all_spec].
  destruct (l_root lg) as [r |] eqn:Er; [| exists w; split_and!; try done; simpl; by rewrite app_nil_r].
  apply (wf_roots _ W _ _ _ Hl) in Er as ->. destruct (wf_root _ W) as (rg & Hr & Hnone).
  rewrite Hr. cbn [of_ptr mbind outcome_bind].
  destruct (level <? l_level rg)%Z; [exists w; split_and!; try done; simpl; by rewrite app_nil_r |].
  pose proof (wf_logable w _ rg W Hr) as Hrs. pose proof (wf_nodup _ W _ _ Hr) as Hrnd.
  destruct (l_appenders rg) as [| b bs] eqn:Eb; [| by apply log_all_spec].
  rewrite Hnone. exists w; split_and!; try done; simpl; by rewrite app_nil_r.
Qed.

(** * The uses of the loggers *)

(** The public operations on the manager's loggers, by the name of the logger, and on
    appenders, by their address. *)
Inductive op :=
  | OGet (name : string)
  | OSetLevel (name : string) (v : Level)
  | OSetPattern (name pattern : string)
  | OSetFormatter (name : string) (val : option LogFormatter)
  | OClear (name : string)
  | ODel (name : string) (a : nat)
  | OAdd (name : string) (a : nat)
  | ONewAppender (filename : option string)
  | OAppenderLevel (a : nat) (v : Level)
  | OAppenderFormatter (a : nat) (val : option LogFormatter)
  | OLog (name : string) (level : Level) (event : LogEvent)
  | OConfig (old new : list LogDefine).

Definition on_logger (E : env) (name : string) (w : world) (k : nat -> world -> outcome world) : outcome world :=
  '(l, w) ← getLogger E name w; k l w.

Definition on_appender (a : nat) (w : world) (k : LogAppender -> LogAppender) : outcome world :=
  ap ← of_ptr (appenders w !! a); Ok (set_appender a (k ap) w).

Definition run_op (E : env) (o : op) (w : world) : outcome world :=
  match o with
  | OGet name => on_logger E name w (fun _ w => Ok w)
  | OSetLevel name v => on_logger E name w (fun l w => lg ← of_ptr (loggers w !! l); Ok (set_logger l (setLevel lg v) w))
  | OSetPattern name pattern => on_logger E name w (fun l w => setFormatter_str l pattern w)
  | OSetFormatter name val => on_logger E name w (fun l w => setFormatter l val w)
  | OClear name => on_logger E name w clearAppender
  | ODel name a => on_logger E name w (fun l w => delAppender l a w)
  | OAdd name a => on_logger E name w (fun l w => addAppender l a w)
  | ONewAppender None => Ok (new_StdoutLogAppender w).2
  | ONewAppender (Some filename) => Ok (new_FileLogAppender E filename w).2
  | OAppenderLevel a v => on_appender a w (fun ap => appender_setLevel ap v)
  | OAppenderFormatter a val => on_appender a w (fun ap => appender_setFormatter ap val)
  | OLog name level event => on_logger E name w (fun l w => Logger_log 2 E l level event w)
  | OConfig old new => on_log_defines E old new w
  end.

(** An appender that may be added: it belongs to no logger, and it has a formatter of
    its own or none, so that it gets the logger's. *)
Definition unshared (w : world) (a : nat) : Prop :=
  (forall l, ~ in_logger w l a)
  /\ exists ap, appenders w !! a = Some ap /\ (a_formatter ap = None \/ a_hasFormatter ap = true).

(** The uses that the loggers are made for. Formatters are taken away from no
    logger and from no appender in use; configurations have known types of
    appenders. *)
Definition allowed (w : world) (o : op) : Prop :=
  match o with
  | OSetFormatter _ val => val <> None
  | OAdd _ a => unshared w a
  | OAppenderLevel a _ => is_Some (appenders w !! a)
  | OAppenderFormatter a val => is_Some (appenders w !! a) /\ (val = None -> forall l, ~ in_logger w l a)
  | OConfig _ new => valid_defines new
  | _ => True
  end.

(** The states that they lead to, each operation at its own time and in its own
    surroundings. *)
Inductive reachable : world -> Prop :=
  | r_new E w : new_LoggerManager E = Ok w -> reachable w
  | r_op E o w w' : reachable w -> allowed w o -> run_op E o w = Ok w' -> reachable w'.

Lemma on_logger_keeps E name w k :
  wf w -> (forall l lg w', wf w' -> loggers w' !! l = Some lg -> appenders w' = appenders w ->
             (forall l a, in_logger w' l a -> in_logger w l a) -> keeps w' (k l w')) ->
  keeps w (on_logger E name w k).
Proof.
  intros W Hk. unfold on_logger. destruct (getLogger_keeps E name w W) as (l & w1 & E1 & W1 & G1 & lg & Hl & _).
  rewrite E1, bind_Ok. eapply keeps_grows; [done |].
  assert (Hsame : appenders w1 = appenders w /\ forall l a, in_logger w1 l a -> in_logger w l a); [| destruct Hsame; by eapply Hk].
  unfold getLogger in E1. destruct (m_loggers w !! name); [by injection E1 as <- <- |].
  unfold new_Logger in E1. destruct (new_formatter_ok default_pattern) as [f Ef]. rewrite Ef in E1. simpl in E1. injection E1 as <- <-.
  split; [done |]. intros l' a (x & Hx & Ha). simpl in Hx. split_lookup Hx; [by apply not_elem_of_nil in Ha | by exists x].
Qed.

Lemma on_appender_keeps w a k ap : wf w -> appenders w !! a = Some ap -> wf (set_appender a (k ap) w) -> keeps w (on_appender a w k).
Proof. intros W Ha Hk. unfold on_appender. rewrite Ha. simpl. eexists. by split_and!. Qed.

(** An appender in use gets a formatter of its own. *)
Lemma wf_own_formatter w a ap f : wf w -> appenders w !! a = Some ap -> wf (set_appender a (appender_setFormatter ap (Some f)) w).
Proof.
  intros W Ha. split; simpl; try apply W.
  - intros b x Hx. split_lookup Hx; by eapply wf_fresh_a.
  - intros l lg b Hl Hb. destruct (decide (a = b)) as [<- |]; [| rewrite lookup_insert_ne by done; by eapply wf_served].
    rewrite lookup_insert_eq. eexists. split; [done |]. split; [by eexists | done].
Qed.

Lemma run_op_keeps E o w : wf w -> allowed w o -> keeps w (run_op E o w).
Proof.
  intros W Ho. destruct o as [name | name v | name pattern | name val | name | name a | name a | [filename |] | a v | a val | name level event | old new];
    cbn [run_op allowed] in *; try (apply on_logger_keeps; [done |]; intros l lg w' W' Hl Ea Ein).
  - by apply keeps_refl.
  - rewrite Hl. simpl. eexists. split_and!; [done | by apply setLevel_keeps | apply grows_set_logger].
  - by eapply setFormatter_str_keeps.
  - destruct val as [f|]; [by eapply setFormatter_keeps | done].
  - by eapply clearAppender_keeps.
  - by eapply delAppender_keeps.
  - destruct Ho as (Hfree & ap & Ha & Hf). rewrite <- Ea in Ha.
    destruct (wf_addAppender w' l lg a ap W' Hl Ha) as (w2 & -> & W2 & G2 & _); [by intros l' ?%Ein%Hfree | done |]. by exists w2.
  - destruct (new_appender_keeps E {| ad_type := 1; ad_level := 0%Z; ad_formatter := ""; ad_file := filename |} w W) as (a & w' & ap & Eq & (W' & G' & _) & _);
      [by left |]. simpl in Eq. injection Eq as Eq. rewrite Eq. by exists w'.
  - destruct (new_appender_keeps E {| ad_type := 2; ad_level := 0%Z; ad_formatter := ""; ad_file := "" |} w W) as (a & w' & ap & Eq & (W' & G' & _) & _);
      [by right |]. simpl in Eq. injection Eq as _ Eq. exists w'. split_and!; [f_equal; exact Eq | done | done].
  - destruct Ho as [ap Ha]. apply (on_appender_keeps w a _ ap); [done | done |]. by apply (wf_set_appender w a ap).
  - destruct Ho as [[ap Ha] Hn]. apply (on_appender_keeps w a _ ap); [done | done |]. destruct val as [f|]; [by apply wf_own_formatter |].
    apply wf_set_free; [done | by eapply wf_fresh_a | by apply Hn].
  - destruct (Logger_log_spec E w' l level event W') as (w2 & -> & W2 & El & _ & Er & _); [eauto |].
    exists w2. split_and!; [done.. |]. split; [done |]. by rewrite El.
  - unfold on_log_defines. apply keeps_bind; [by apply apply_new_keeps |]. intros. by apply apply_gone_keeps.
Qed.

Lemma reachable_wf w : reachable w -> wf w.
Proof.
  induction 1 as [E w H | E o w w' _ IH Ho H].
  - destruct (new_LoggerManager_wf E) as (w0 & E0 & W0). congruence.
  - destruct (run_op_keeps E o w IH Ho) as (w1 & E1 & W1 & _). congruence.
Qed.

(** C32: the manager's loggers stay consistent, as long as appenders are not shared.
    The public operations on loggers and appenders and the reconfigurations are
    done in any order, where: an appender that is added belongs to no logger at
    that time, and has no formatter or one that was set for it; no null
    formatter is given to a logger, nor to an appender that belongs to one; and
    a configuration names only the two known types of appenders ([allowed]).
    Then no such operation fails; and every logger is found under its name and
    has a formatter, every appender of a logger exists, belongs to that logger
    alone, once, and has a formatter: the logger's current one unless one was
    set for the appender ([wf]). The conditions are needed: an appender that was
    in another logger keeps that one's formatter ([moved_appender_keeps_formatter]),
    and without a formatter logging follows a null pointer
    ([null_formatter_dereferenced]). *)
Theorem loggers_stay_consistent :
  (forall E, exists w, new_LoggerManager E = Ok w)
  /\ forall w, reachable w -> wf w /\ forall E o, allowed w o -> exists w', run_op E o w = Ok w'.
Proof.
  split; [intros E; destruct (new_LoggerManager_wf E) as (w & Ew & _); eauto |].
  intros w Hr. pose proof (reachable_wf w Hr) as W. split; [done |]. intros E o Ho.
  destruct (run_op_keeps E o w W Ho) as (w' & Ew & _). eauto.
Qed.

(** An appender without a formatter of its own that is taken from one logger and put
    into another goes on with the formatter of the first. *)
Lemma moved_appender_keeps_formatter l lg a ap f w :
  loggers w !! l = Some lg -> appenders w !! a = Some ap -> a_formatter ap = Some f -> l_formatter lg <> Some f -> a_hasFormatter ap = false ->
  exists w', addAppender l a w = Ok w' /\ appenders w' !! a = Some ap /\ in_logger w' l a /\ ~ served lg ap.
Proof.
  intros Hl Ha Hf Hne Hh. unfold addAppender. rewrite Hl. simpl. rewrite Ha. simpl. rewrite Hf. eexists. split; [done |]. split_and!; [done | |].
  - eexists. simpl. rewrite lookup_insert_eq. split; [done |]. simpl. apply elem_of_app. right. by left.
  - intros [_ Hs]. specialize (Hs Hh). congruence.
Qed.

(** Setting a null formatter is possible, also on an appender in use; the next event
    follows the null pointer. *)
Lemma null_formatter_dereferenced E name level event a ap w :
  appenders w !! a = Some ap -> (a_level ap <= level)%Z ->
  (w ← on_appender a w (fun ap => appender_setFormatter ap None); Appender_Log E name level event a w) = Fail NullDeref.
Proof.
  intros Ha Hl. unfold on_appender. rewrite Ha. cbn [of_ptr mbind outcome_bind]. unfold Appender_Log. cbn [appenders set_appender].
  rewrite lookup_insert_eq. cbn [of_ptr mbind outcome_bind a_level appender_setFormatter a_kind a_formatter].
  rewrite (proj2 (Z.ltb_ge _ _)) by lia. destruct (a_kind ap) as [| fn g o last]; [done |]. destruct (if (now E =? last)%Z then _ else _). done.
Qed.

Definition env0 : env := {| now := 100%Z; strftime := fun _ _ => "now"; can_open := fun _ => true;
  can_write := fun _ => true; garbage_level := 0%Z; garbage_time := 7%Z |}.

Definition event0 : LogEvent := {| m_file := "a.cc"; m_line := 12%Z; m_elapse := 0%Z; m_threadId := 1%Z; m_fiberId := 2%Z;
  m_time := 100%Z; m_ss := "hello"; m_thread_name := "t"; m_logger := 0; e_level := INFO |}.

Definition config0 : list LogDefine :=
  [{| ld_name := "system"; ld_level := INFO; ld_formatter := "%m%n";
      ld_appenders := [{| ad_type := 1; ad_level := DEBUG; ad_formatter := ""; ad_file := "s.log" |};
                       {| ad_type := 2; ad_level := ERROR; ad_formatter := "[%p]%m"; ad_file := "" |}] |}].

(** A logger is configured and gets a further appender. *)
Definition after (o : op) (w : world) : world := match run_op env0 o w with Ok w' => w' | Fail _ => w end.
Definition world0 : world :=
  match new_LoggerManager env0 with
  | Ok w => w
  | Fail _ => {| loggers := ∅; appenders := ∅; m_loggers := ∅; m_root := 0; next := 0; trace := [] |}
  end.
Definition world1 : world := after (OConfig [] config0) world0.
Definition world2 : world := after (ONewAppender None) world1.
Definition world3 : world := after (OAdd "system" 5) world2.

Lemma loggers_stay_consistent_witness :
  run_op env0 (OAdd "system" 5) world2 = Ok world3 /\ in_logger world3 2 5 /\ wf world3
  /\ exists w', run_op env0 (OLog "system" FATAL event0) world3 = Ok w'.
Proof.
  assert (R1 : reachable world1).
  { apply (r_op env0 (OConfig [] config0) world0); [apply (r_new env0); vm_compute; reflexivity | | vm_compute; reflexivity].
    repeat constructor; simpl; (by left) || (by right). }
  assert (R2 : reachable world2) by (apply (r_op env0 (ONewAppender None) world1); [exact R1 | exact I | vm_compute; reflexivity]).
  assert (E3 : run_op env0 (OAdd "system" 5) world2 = Ok world3) by (vm_compute; reflexivity).
  assert (R3 : reachable world3).
  { apply (r_op env0 (OAdd "system" 5) world2); [exact R2 | | exact E3]. split; [| eexists; split; [vm_compute; reflexivity | by left]].
    intros l Hl. apply (fresh_not_in world1 l 5); [by apply loggers_stay_consistent | vm_compute; lia | exact Hl]. }
  destruct (proj2 loggers_stay_consistent world3 R3) as [W Hop]. split; [exact E3 |]. split; [| split; [exact W | by apply Hop]].
  eexists. split; [vm_compute; reflexivity |]. simpl. right. right. left.
Defined.

(** Logging an event appends to the output exactly what the appenders that
    admit its level make of it, one after the other: those of the logger, or
    those of the root when it has none; loggers and their names stay as they
    are. *)
Theorem log_dispatch_exact (E : env) (w : world) (l : nat) (level : Level) (event : LogEvent) :
  wf w -> is_Some (loggers w !! l) ->
  exists w', Logger_log 2 E l level event w = Ok w' /\ loggers w' = loggers w /\ m_loggers w' = m_loggers w
    /\ trace w' = (trace w ++ visible_all E w (fst (routed w l level)) level event (snd (routed w l level)))%list.
Proof.
  intros W Hl. destruct (Logger_log_spec E w l level event W Hl) as (w' & ? & _ & ? & ? & _ & ?). eauto 10.
Qed.

(** * Where the code goes wrong *)

(** The comparison of definitions does not look at their appenders: changing
    only these has no effect. *)
Lemma appenders_eq_refl l : appenders_eq l l = true.
Proof.
  induction l as [| a l IH]; [done |]. simpl. rewrite IH, andb_true_r. unfold LogAppenderDefine_eq.
  by rewrite Nat.eqb_refl, Z.eqb_refl, !String.eqb_refl.
Qed.

Lemma appender_change_ignored E d d' w :
  ld_name d' = ld_name d -> ld_level d' = ld_level d -> ld_formatter d' = ld_formatter d ->
  on_log_defines E [d] [d'] w = Ok w.
Proof.
  intros Hn Hl Hf. unfold on_log_defines, apply_new, apply_gone, find_define, LogDefine_eq. simpl.
  rewrite Hn, String.eqb_refl, Hl, Hf, Z.eqb_refl, String.eqb_refl, appenders_eq_refl. simpl.
  by rewrite ?Hn, String.eqb_refl.
Qed.

(** What a file holds after a trace of one process. *)
Definition content (a : nat) (t : list effect) : string :=
  foldl (fun s e => match e with
                    | OpenFile b _ => if (b =? a)%nat then "" else s
                    | WriteFile b x => if (b =? a)%nat then s ++ x else s
                    | Cout _ => s
                    end) "" t.

(** The first event of a second opens the file anew, which empties it: what was
    logged before is lost. *)
Lemma file_truncated E name level event a ap w f filename o last :
  appenders w !! a = Some ap -> a_formatter ap = Some f -> a_kind ap = FileLogAppender filename true o last ->
  (a_level ap <= level)%Z -> now E <> last -> can_open E filename = true -> can_write E filename = true ->
  exists w', Appender_Log E name level event a w = Ok w'
    /\ content a (trace w') = format (strftime E) f name level event.
Proof.
  intros Ha Hf Hk Hl Hn Ho Hw. destruct (Appender_Log_spec E name level event a ap w Ha) as [k ->]; [eauto |].
  eexists. split; [done |]. rewrite emit_all_trace. unfold visible.
  rewrite (proj2 (Z.ltb_ge _ _)), Hk, Hf, (proj2 (Z.eqb_neq _ _) Hn), Ho, Hw by lia. simpl.
  unfold content. rewrite foldl_app. simpl. by rewrite Nat.eqb_refl.
Qed.

(** After one failed write the stream is never closed, so it can never be opened
    again and nothing more is written. *)
Lemma failed_stream_stays_failed E name level event a ap w f filename last :
  appenders w !! a = Some ap -> a_formatter ap = Some f -> a_kind ap = FileLogAppender filename false true last ->
  (a_level ap <= level)%Z ->
  exists w' last', Appender_Log E name level event a w = Ok w'
    /\ trace w' = (trace w ++ [Cout ("error" ++ String "010" "")])%list
    /\ (a_kind <$> appenders w' !! a) = Some (FileLogAppender filename false true last').
Proof.
  intros Ha Hf Hk Hl. unfold Appender_Log. rewrite Ha. simpl. rewrite (proj2 (Z.ltb_ge _ _)), Hk by lia.
  unfold reopen. destruct (now E =? last)%Z; simpl; rewrite Hf; simpl; eexists _, _;
    (split; [done |]); simpl; by rewrite lookup_insert_eq.
Qed.

(** The level of a new logger is whatever its memory held, so it may drop every
    event. *)
Lemma uninitialised_level_drops E name w l w' level event :
  m_loggers w !! name = None -> getLogger E name w = Ok (l, w') -> (level < garbage_level E)%Z ->
  Logger_log 2 E l level event w' = Ok w'.
Proof.
  intros Hn H Hg. unfold getLogger, new_Logger in H. rewrite Hn in H.
  destruct (new_formatter_ok default_pattern) as [f Hf]. rewrite Hf in H. simpl in H. injection H as <- <-.
  cbn [Logger_log]. unfold set_name at 1. simpl loggers. rewrite lookup_insert_eq. simpl of_ptr. rewrite bind_Ok.
  cbn [l_level]. by rewrite (proj2 (Z.ltb_lt _ _)).
Qed.
