(* ===== verification/LogConf.v ===== *)
(** The logging configuration as YAML text, log.cc: the conversions between a
    [LogDefine] and its document, whose values the listener of Log.v applies.

    The logging configuration reads back from its text, except for what the
    reader does not look at. *)

From stdpp Require Import strings.
From S2P Require Import Prelude Strs Config Log.

Module Lc.

Import Lg.
Local Open Scope string_scope.

Section conf.
(** yaml-cpp's [Load], [ss << node], [node[i]] and [node.as<std::string>()]. *)
Context (Load : string -> option Cf.yaml) (emit : Cf.yaml -> string) (index : Cf.yaml -> nat -> Cf.yaml).
Context (as_string : Cf.yaml -> option string).

(** The text at a key that need not be there: [None] when something throws. *)
Definition text_or_empty (n : Cf.yaml) (key : string) : option string :=
  match Cf.at_key n key with
  | None => None
  | Some None => Some ""
  | Some (Some m) => as_string m
  end.

(** An appender's node: an exception, nothing to add, or an appender. *)
Definition read_appender (a : Cf.yaml) : option (option LogAppenderDefine) :=
  match Cf.at_key a "type" with
  | None => None
  | Some None => Some None
  | Some (Some t) =>
      match as_string t with
      | None => None
      | Some type =>
          if type =? "FileLogAppender" then
            match Cf.at_key a "file" with
            | None => None
            | Some None => Some None
            | Some (Some f) =>
                match as_string f, text_or_empty a "formatter" with
                | Some file, Some fmt => Some (Some {| ad_type := 1; ad_level := UNKNOW; ad_formatter := fmt; ad_file := file |})
                | _, _ => None
                end
            end
          else if type =? "StdoutLogAppender" then
            match text_or_empty a "formatter" with
            | Some fmt => Some (Some {| ad_type := 2; ad_level := UNKNOW; ad_formatter := fmt; ad_file := "" |})
            | None => None
            end
          else Some None
      end
  end.

Fixpoint read_appenders (n : Cf.yaml) (x count : nat) (acc : list LogAppenderDefine) : option (list LogAppenderDefine) :=
  match count with
  | O => Some acc
  | S count =>
      match read_appender (index n x) with
      | None => None
      | Some None => read_appenders n (S x) count acc
      | Some (Some a) => read_appenders n (S x) count (acc ++ [a])
      end
  end.

(** [LexicalCast<std::string, LogDefine>] *)
Definition define_of_node (n : Cf.yaml) : option LogDefine :=
  match Cf.as_at as_string n "name" with
  | None => None
  | Some name =>
      match text_or_empty n "level", text_or_empty n "formatter", Cf.at_key n "appenders" with
      | Some level, Some fmt, Some apps =>
          match match apps with Some l => read_appenders l 0 (Cf.size l) [] | None => Some [] end with
          | Some l => Some {| ld_name := name; ld_level := FromString level; ld_formatter := fmt; ld_appenders := l |}
          | None => None
          end
      | _, _, _ => None
      end
  end.

Definition string_to_define (v : string) : option LogDefine :=
  match Load v with Some n => define_of_node n | None => None end.

(** A node that nothing was put into is null. *)
Definition map_node (l : list (string * Cf.yaml)) : Cf.yaml := match l with [] => Cf.Null | l => Cf.Map l end.

(** [LexicalCast<LogDefine, std::string>] *)
Definition appender_node (a : LogAppenderDefine) : Cf.yaml :=
  map_node (match ad_type a with
          | 1 => [("type", Cf.Scalar "FileLogAppender"); ("file", Cf.Scalar (ad_file a))]
          | 2 => [("type", Cf.Scalar "StdoutLogAppender")]
          | _ => []
          end%nat
          ++ (if (ad_level a =? UNKNOW)%Z then [] else [("level", Cf.Scalar (ToString (ad_level a)))])
          ++ (if ad_formatter a =? "" then [] else [("formatter", Cf.Scalar (ad_formatter a))])).

Definition define_node (d : LogDefine) : Cf.yaml :=
  map_node ([("name", Cf.Scalar (ld_name d))]
          ++ (if (ld_level d =? UNKNOW)%Z then [] else [("level", Cf.Scalar (ToString (ld_level d)))])
          ++ (if ld_formatter d =? "" then [] else [("formatter", Cf.Scalar (ld_formatter d))])
          ++ match ld_appenders d with [] => [] | l => [("appenders", Cf.Sequence (appender_node <$> l))] end).

Definition define_to_string (d : LogDefine) : string := emit (define_node d).
End conf.

End Lc.

Import Lg Lc.
Local Open Scope string_scope.

Section conf.
Context (Load : string -> option Cf.yaml) (emit : Cf.yaml -> string) (index : Cf.yaml -> nat -> Cf.yaml).
Context (as_string : Cf.yaml -> option string).
(** yaml-cpp reads back what it printed. *)
Hypothesis load_emit : forall n, Load (emit n) = Some n.
Hypothesis as_string_scalar : forall s, as_string (Cf.Scalar s) = Some s.
Hypothesis index_sequence : forall l i n, l !! i = Some n -> index (Cf.Sequence l) i = n.

(** What the text can say: an appender has a type, a file only if it is a file
    appender, and no level of its own. *)
Definition appender_plain (a : LogAppenderDefine) : Prop :=
  ad_level a = UNKNOW /\ (ad_type a = 1%nat \/ ad_type a = 2%nat /\ ad_file a = "").

Definition level_known (l : Level) : Prop := (0 <= l <= 5)%Z.

Lemma level_roundtrip l : level_known l -> FromString (if (l =? UNKNOW)%Z then "" else ToString l) = l.
Proof.
  intros Hl. unfold level_known in Hl. assert (Hor : (l = 0 \/ l = 1 \/ l = 2 \/ l = 3 \/ l = 4 \/ l = 5)%Z) by lia.
  destruct Hor as [-> | [-> | [-> | [-> | [-> | ->]]]]]; reflexivity.
Qed.

Lemma appender_roundtrip a : appender_plain a -> read_appender as_string (appender_node a) = Some (Some a).
Proof.
  destruct a as [t l fmt file]. intros [Hl Ht]. cbn in Hl, Ht. subst l. unfold read_appender, appender_node, text_or_empty. cbn [ad_level ad_formatter ad_type ad_file].
  destruct Ht as [-> | [-> ->]]; destruct (String.eqb_spec fmt "") as [-> |]; cbn; rewrite !as_string_scalar; cbn; rewrite ?as_string_scalar; reflexivity.
Qed.

Lemma appenders_roundtrip l : Forall appender_plain l -> forall pre acc,
  read_appenders index as_string (Cf.Sequence (appender_node <$> (pre ++ l)%list)) (length pre) (length l) acc = Some (acc ++ l)%list.
Proof.
  induction 1 as [| a l Ha _ IH]; intros pre acc; cbn [length read_appenders]; [by rewrite app_nil_r |].
  rewrite (index_sequence _ _ (appender_node a)); [| by rewrite list_lookup_fmap, lookup_app_r, Nat.sub_diag by lia].
  rewrite (appender_roundtrip a Ha). specialize (IH (pre ++ [a])%list (acc ++ [a])%list). rewrite length_app, Nat.add_1_r, <- !app_assoc in IH. exact IH.
Qed.

(** A definition is read back from its text. *)
Theorem log_define_roundtrip d :
  level_known (ld_level d) -> Forall appender_plain (ld_appenders d) ->
  string_to_define Load index as_string (define_to_string emit d) = Some d.
Proof.
  destruct d as [name level fmt apps]. cbn [ld_level ld_appenders]. intros Hl Ha. unfold string_to_define, define_to_string. rewrite load_emit.
  unfold define_of_node, define_node, Cf.as_at, text_or_empty. cbn [ld_name ld_level ld_formatter ld_appenders].
  pose proof (level_roundtrip level Hl) as Hlev. pose proof (appenders_roundtrip apps Ha [] []) as Hr. cbn [length app] in Hr.
  destruct (level =? UNKNOW)%Z; destruct (String.eqb_spec fmt "") as [-> |]; destruct apps as [| a apps]; cbn; rewrite !as_string_scalar; cbn;
    rewrite ?as_string_scalar; cbn; rewrite ?length_fmap; cbn in Hr; rewrite ?Hr; cbn in Hlev; rewrite ?Hlev; reflexivity.
Qed.

(** The level of an appender is written but not read. *)
Theorem appender_level_lost a b :
  read_appender as_string (appender_node a) = Some (Some b) -> ad_level b = UNKNOW.
Proof.
  unfold read_appender. repeat case_match; intros; simplify_eq/=; done.
Qed.
End conf.
