(* ===== verification/Http.v ===== *)
(** HTTP messages of sylar/http/http.h and http.cc: methods, status codes, the
    case-insensitive header maps, requests and responses and their
    serialisation. *)

From stdpp Require Import strings pretty sorting.
From Stdlib Require Import Ascii.
From S2P Require Import Prelude.

Module Http.

Local Open Scope string_scope.

(** ** Methods and status codes *)

Inductive HttpMethod :=
  | DELETE | GET | HEAD | POST | PUT | CONNECT | OPTIONS | TRACE | COPY | LOCK | MKCOL | MOVE
  | PROPFIND | PROPPATCH | SEARCH | UNLOCK | BIND | REBIND | UNBIND | ACL | REPORT | MKACTIVITY
  | CHECKOUT | MERGE | MSEARCH | NOTIFY | SUBSCRIBE | UNSUBSCRIBE | PATCH | PURGE | MKCALENDAR
  | LINK | UNLINK | SOURCE | INVALID_METHOD.

#[global] Instance HttpMethod_eq_dec : EqDecision HttpMethod.
Proof. solve_decision. Defined.

(** [HTTP_METHOD_MAP]: number, enumerator, name. *)
Definition HTTP_METHOD_MAP : list (nat * HttpMethod * string) := [
  (0, DELETE, "DELETE");
  (1, GET, "GET");
  (2, HEAD, "HEAD");
  (3, POST, "POST");
  (4, PUT, "PUT");
  (5, CONNECT, "CONNECT");
  (6, OPTIONS, "OPTIONS");
  (7, TRACE, "TRACE");
  (8, COPY, "COPY");
  (9, LOCK, "LOCK");
  (10, MKCOL, "MKCOL");
  (11, MOVE, "MOVE");
  (12, PROPFIND, "PROPFIND");
  (13, PROPPATCH, "PROPPATCH");
  (14, SEARCH, "SEARCH");
  (15, UNLOCK, "UNLOCK");
  (16, BIND, "BIND");
  (17, REBIND, "REBIND");
  (18, UNBIND, "UNBIND");
  (19, ACL, "ACL");
  (20, REPORT, "REPORT");
  (21, MKACTIVITY, "MKACTIVITY");
  (22, CHECKOUT, "CHECKOUT");
  (23, MERGE, "MERGE");
  (24, MSEARCH, "M-SEARCH");
  (25, NOTIFY, "NOTIFY");
  (26, SUBSCRIBE, "SUBSCRIBE");
  (27, UNSUBSCRIBE, "UNSUBSCRIBE");
  (28, PATCH, "PATCH");
  (29, PURGE, "PURGE");
  (30, MKCALENDAR, "MKCALENDAR");
  (31, LINK, "LINK");
  (32, UNLINK, "UNLINK");
  (33, SOURCE, "SOURCE")]%nat.

(** [HTTP_STATUS_MAP]: code and description. A status is its code, since the
    parser casts any number it reads to the enumeration. *)
Definition HTTP_STATUS_MAP : list (Z * string) := [
  (100, "Continue");
  (101, "Switching Protocols");
  (102, "Processing");
  (200, "OK");
  (201, "Created");
  (202, "Accepted");
  (203, "Non-Authoritative Information");
  (204, "No Content");
  (205, "Reset Content");
  (206, "Partial Content");
  (207, "Multi-Status");
  (208, "Already Reported");
  (226, "IM Used");
  (300, "Multiple Choices");
  (301, "Moved Permanently");
  (302, "Found");
  (303, "See Other");
  (304, "Not Modified");
  (305, "Use Proxy");
  (307, "Temporary Redirect");
  (308, "Permanent Redirect");
  (400, "Bad Request");
  (401, "Unauthorized");
  (402, "Payment Required");
  (403, "Forbidden");
  (404, "Not Found");
  (405, "Method Not Allowed");
  (406, "Not Acceptable");
  (407, "Proxy Authentication Required");
  (408, "Request Timeout");
  (409, "Conflict");
  (410, "Gone");
  (411, "Length Required");
  (412, "Precondition Failed");
  (413, "Payload Too Large");
  (414, "URI Too Long");
  (415, "Unsupported Media Type");
  (416, "Range Not Satisfiable");
  (417, "Expectation Failed");
  (421, "Misdirected Request");
  (422, "Unprocessable Entity");
  (423, "Locked");
  (424, "Failed Dependency");
  (426, "Upgrade Required");
  (428, "Precondition Required");
  (429, "Too Many Requests");
  (431, "Request Header Fields Too Large");
  (451, "Unavailable For Legal Reasons");
  (500, "Internal Server Error");
  (501, "Not Implemented");
  (502, "Bad Gateway");
  (503, "Service Unavailable");
  (504, "Gateway Timeout");
  (505, "HTTP Version Not Supported");
  (506, "Variant Also Negotiates");
  (507, "Insufficient Storage");
  (508, "Loop Detected");
  (510, "Not Extended");
  (511, "Network Authentication Required")]%Z.

Definition OK : Z := 200.
Definition NOT_FOUND : Z := 404.

(** A [char*] ends at the first NUL. *)
Fixpoint c_str (s : string) : string :=
  match s with
  | "" => ""
  | String c s' => if (c =? "000")%char then "" else String c (c_str s')
  end.

Definition StringToHttpMethod (m : string) : HttpMethod :=
  match find (fun e => String.eqb e.2 (c_str m)) HTTP_METHOD_MAP with
  | Some e => e.1.2
  | None => INVALID_METHOD
  end.

(** [strncmp(name, m, strlen(name)) == 0]: [name] is a prefix. *)
Definition CharsToHttpMethod (m : string) : HttpMethod :=
  match find (fun e => String.prefix e.2 m) HTTP_METHOD_MAP with
  | Some e => e.1.2
  | None => INVALID_METHOD
  end.

(** The enumerator's number; [INVALID_METHOD] is the one after the last. *)
Definition method_num (m : HttpMethod) : nat :=
  match find (fun e => bool_decide (e.1.2 = m)) HTTP_METHOD_MAP with
  | Some e => e.1.1
  | None => length HTTP_METHOD_MAP
  end.

Definition s_method_string : list string := (fun e => e.2) <$> HTTP_METHOD_MAP.

Definition HttpMethodToString (m : HttpMethod) : string :=
  match s_method_string !! method_num m with Some s => s | None => "<unknown>" end.

Definition HttpStatusToString (s : Z) : string :=
  match find (fun e => Z.eqb e.1 s) HTTP_STATUS_MAP with
  | Some e => e.2
  | None => "<unknown>"
  end.

(** ** Case-insensitive maps *)

Definition tolower (c : ascii) : nat :=
  let n := nat_of_ascii c in if ((65 <=? n) && (n <=? 90))%nat then (n + 32)%nat else n.

Fixpoint codes (s : string) : list nat :=
  match s with "" => [] | String c s' => tolower c :: codes s' end.

(** What [strcasecmp] compares. *)
Definition fold_case (s : string) : list nat := codes (c_str s).

Fixpoint lex_lt (a b : list nat) : bool :=
  match a, b with
  | _, [] => false
  | [], _ :: _ => true
  | x :: a', y :: b' => (x <? y)%nat || ((x =? y)%nat && lex_lt a' b')
  end.

Definition CaseInsensitiveLess (lhs rhs : string) : bool := lex_lt (fold_case lhs) (fold_case rhs).

Definition strcasecmp_eq (a b : string) : bool := bool_decide (fold_case a = fold_case b).

(** [std::map] with that comparison: the entries in order. *)
Definition MapType := list (string * string).

Fixpoint map_find (m : MapType) (key : string) : option string :=
  match m with
  | [] => None
  | (k, v) :: m' => if CaseInsensitiveLess k key then map_find m' key
                    else if CaseInsensitiveLess key k then None else Some v
  end.

(** [m[key] = val]: an existing entry keeps its spelling of the key. *)
Fixpoint map_set (m : MapType) (key val : string) : MapType :=
  match m with
  | [] => [(key, val)]
  | (k, v) :: m' => if CaseInsensitiveLess k key then (k, v) :: map_set m' key val
                    else if CaseInsensitiveLess key k then (key, val) :: m else (k, val) :: m'
  end.

Fixpoint map_erase (m : MapType) (key : string) : MapType :=
  match m with
  | [] => []
  | (k, v) :: m' => if CaseInsensitiveLess k key then (k, v) :: map_erase m' key
                    else if CaseInsensitiveLess key k then m else m'
  end.

(** [hasHeader] and its like: found or not, and the value stored through [val]. *)
Definition map_has (m : MapType) (key : string) (val : option string) : bool * option string :=
  match map_find m key with
  | None => (false, val)
  | Some v => (true, (fun _ => v) <$> val)
  end.

Section conversions.
(** [boost::lexical_cast<T>] on a string: [None] when it throws. *)
Context {T : Type} (lexical_cast : string -> option T).

Definition checkGetAs (m : MapType) (key : string) (def : T) : bool * T :=
  match map_find m key with
  | None => (false, def)
  | Some v => match lexical_cast v with Some x => (true, x) | None => (false, def) end
  end.

Definition getAs (m : MapType) (key : string) (def : T) : T :=
  match map_find m key with
  | None => def
  | Some v => match lexical_cast v with Some x => x | None => def end
  end.
End conversions.

(** ** Requests *)

Record HttpRequest := mkReq {
  m_method : HttpMethod;
  m_version : Z;
  m_close : bool;
  m_path : string;
  m_query : string;
  m_fragment : string;
  m_body : string;
  m_headers : MapType;
  m_params : MapType;
  m_cookies : MapType;
}.

Definition new_HttpRequest (version : Z) (close : bool) : HttpRequest := mkReq GET version close "/" "" "" "" [] [] [].

Definition setMethod (r : HttpRequest) v := mkReq v (m_version r) (m_close r) (m_path r) (m_query r) (m_fragment r) (m_body r) (m_headers r) (m_params r) (m_cookies r).
Definition setVersion (r : HttpRequest) v := mkReq (m_method r) v (m_close r) (m_path r) (m_query r) (m_fragment r) (m_body r) (m_headers r) (m_params r) (m_cookies r).
Definition setClose (r : HttpRequest) v := mkReq (m_method r) (m_version r) v (m_path r) (m_query r) (m_fragment r) (m_body r) (m_headers r) (m_params r) (m_cookies r).
Definition setPath (r : HttpRequest) v := mkReq (m_method r) (m_version r) (m_close r) v (m_query r) (m_fragment r) (m_body r) (m_headers r) (m_params r) (m_cookies r).
Definition setQuery (r : HttpRequest) v := mkReq (m_method r) (m_version r) (m_close r) (m_path r) v (m_fragment r) (m_body r) (m_headers r) (m_params r) (m_cookies r).
Definition setFragment (r : HttpRequest) v := mkReq (m_method r) (m_version r) (m_close r) (m_path r) (m_query r) v (m_body r) (m_headers r) (m_params r) (m_cookies r).
Definition setBody (r : HttpRequest) v := mkReq (m_method r) (m_version r) (m_close r) (m_path r) (m_query r) (m_fragment r) v (m_headers r) (m_params r) (m_cookies r).
Definition set_headers (r : HttpRequest) v := mkReq (m_method r) (m_version r) (m_close r) (m_path r) (m_query r) (m_fragment r) (m_body r) v (m_params r) (m_cookies r).
Definition set_params (r : HttpRequest) v := mkReq (m_method r) (m_version r) (m_close r) (m_path r) (m_query r) (m_fragment r) (m_body r) (m_headers r) v (m_cookies r).
Definition set_cookies (r : HttpRequest) v := mkReq (m_method r) (m_version r) (m_close r) (m_path r) (m_query r) (m_fragment r) (m_body r) (m_headers r) (m_params r) v.

Definition getHeader (r : HttpRequest) key def := default def (map_find (m_headers r) key).
Definition getParam (r : HttpRequest) key def := default def (map_find (m_params r) key).
Definition getCookie (r : HttpRequest) key def := default def (map_find (m_cookies r) key).
Definition setHeader (r : HttpRequest) key val := set_headers r (map_set (m_headers r) key val).
Definition setParam (r : HttpRequest) key val := set_params r (map_set (m_params r) key val).
Definition setCookie (r : HttpRequest) key val := set_cookies r (map_set (m_cookies r) key val).
Definition delHeader (r : HttpRequest) key := set_headers r (map_erase (m_headers r) key).
Definition delParam (r : HttpRequest) key := set_params r (map_erase (m_params r) key).
Definition delCookie (r : HttpRequest) key := set_cookies r (map_erase (m_cookies r) key).
Definition hasHeader (r : HttpRequest) key val := map_has (m_headers r) key val.
Definition hasParam (r : HttpRequest) key val := map_has (m_params r) key val.
Definition hasCookie (r : HttpRequest) key val := map_has (m_cookies r) key val.

(** ** Serialisation *)

Definition crlf : string := String "013" (String "010" "").

(** [os << n] of an unsigned number. *)
Definition show (n : Z) : string := pretty (Z.to_N n).

Definition version_string (v : Z) : string := show (Z.shiftr v 4) ++ "." ++ show (Z.land v 15).

Definition header_line (kv : string * string) : string := kv.1 ++ ": " ++ kv.2 ++ crlf.

Definition connection_line (close : bool) : string := header_line ("connection", if close then "close" else "keep-alive").

(** The header entries written out, [connection] left out. *)
Definition plain_headers (m : MapType) : MapType :=
  List.filter (fun kv : string * string => negb (strcasecmp_eq kv.1 "connection")) m.

Definition lines (m : MapType) : string := String.concat "" (header_line <$> m).

Definition body_part (body : string) : string :=
  if String.eqb body "" then crlf
  else header_line ("content-length", show (Z.of_nat (String.length body))) ++ crlf ++ body.

Definition marked (mark s : string) : string := (if String.eqb s "" then "" else mark) ++ s.

Definition dump_request (r : HttpRequest) : string :=
  HttpMethodToString (m_method r) ++ " " ++ m_path r ++ marked "?" (m_query r) ++ marked "#" (m_fragment r)
  ++ " HTTP/" ++ version_string (m_version r) ++ crlf
  ++ connection_line (m_close r) ++ lines (plain_headers (m_headers r)) ++ body_part (m_body r).

(** ** Responses *)

Record HttpResponse := mkRsp {
  r_status : Z;
  r_version : Z;
  r_close : bool;
  r_websocket : bool;
  r_body : string;
  r_reason : string;
  r_headers : MapType;
  r_cookies : list string;
}.

(** The constructor leaves [m_websocket] alone: [garbage] is what the memory
    held. *)
Definition new_HttpResponse (garbage : bool) (version : Z) (close : bool) : HttpResponse := mkRsp OK version close garbage "" "" [] [].

Definition rsp_setStatus (r : HttpResponse) v := mkRsp v (r_version r) (r_close r) (r_websocket r) (r_body r) (r_reason r) (r_headers r) (r_cookies r).
Definition rsp_setVersion (r : HttpResponse) v := mkRsp (r_status r) v (r_close r) (r_websocket r) (r_body r) (r_reason r) (r_headers r) (r_cookies r).
Definition rsp_setClose (r : HttpResponse) v := mkRsp (r_status r) (r_version r) v (r_websocket r) (r_body r) (r_reason r) (r_headers r) (r_cookies r).
Definition rsp_setBody (r : HttpResponse) v := mkRsp (r_status r) (r_version r) (r_close r) (r_websocket r) v (r_reason r) (r_headers r) (r_cookies r).
Definition rsp_setReason (r : HttpResponse) v := mkRsp (r_status r) (r_version r) (r_close r) (r_websocket r) (r_body r) v (r_headers r) (r_cookies r).
Definition rsp_setWebsocket (r : HttpResponse) v := mkRsp (r_status r) (r_version r) (r_close r) v (r_body r) (r_reason r) (r_headers r) (r_cookies r).
Definition rsp_set_headers (r : HttpResponse) v := mkRsp (r_status r) (r_version r) (r_close r) (r_websocket r) (r_body r) (r_reason r) v (r_cookies r).

Definition rsp_getHeader (r : HttpResponse) key def := default def (map_find (r_headers r) key).
Definition rsp_setHeader (r : HttpResponse) key val := rsp_set_headers r (map_set (r_headers r) key val).
Definition rsp_delHeader (r : HttpResponse) key := rsp_set_headers r (map_erase (r_headers r) key).

(** The status line. *)
Definition status_line (r : HttpResponse) : string :=
  "HTTP/" ++ version_string (r_version r) ++ " " ++ show (r_status r) ++ " "
  ++ (if String.eqb (r_reason r) "" then HttpStatusToString (r_status r) else r_reason r) ++ crlf.

(** Header lines after it: headers, cookies, connection. *)
Definition response_lines (r : HttpResponse) : string :=
  lines (if r_websocket r then r_headers r else plain_headers (r_headers r))
  ++ lines ((fun c => ("Set-Cookie", c)) <$> r_cookies r)
  ++ (if r_websocket r then "" else connection_line (r_close r)).

Definition dump_response (r : HttpResponse) : string := status_line r ++ response_lines r ++ body_part (r_body r).

(** ** The order *)

Definition sorted_map (m : MapType) : Prop := StronglySorted (fun a b => CaseInsensitiveLess a.1 b.1 = true) m.

Lemma lex_lt_irrefl a : lex_lt a a = false.
Proof. induction a as [| x a IH]; simpl; [done |]. by rewrite Nat.ltb_irrefl, Nat.eqb_refl, IH. Qed.

Lemma lex_lt_trans a b c : lex_lt a b = true -> lex_lt b c = true -> lex_lt a c = true.
Proof.
  revert b c. induction a as [| x a IH]; intros [| y b] [| z c]; simpl; try done.
  rewrite !orb_true_iff, !andb_true_iff, !Nat.ltb_lt, !Nat.eqb_eq.
  intros [H1 | [-> H1]] [H2 | [-> H2]]; [left; lia | left; lia | left; lia | right; eauto].
Qed.

Lemma lex_lt_total a b : lex_lt a b = false -> lex_lt b a = false -> a = b.
Proof.
  revert b. induction a as [| x a IH]; intros [| y b]; simpl; try done.
  rewrite !orb_false_iff, !andb_false_iff, !Nat.ltb_ge, !Nat.eqb_neq. intros [H1 H1'] [H2 H2'].
  assert (x = y) as -> by lia. f_equal. apply IH; tauto.
Qed.

Lemma less_false_iff a b : CaseInsensitiveLess a b = false /\ CaseInsensitiveLess b a = false <-> fold_case a = fold_case b.
Proof.
  unfold CaseInsensitiveLess. split; [intros []; by apply lex_lt_total |]. intros ->. by rewrite lex_lt_irrefl.
Qed.

(** Two keys are the same entry exactly when they agree up to case. *)
Lemma less_same a b c : fold_case a = fold_case b ->
  CaseInsensitiveLess a c = CaseInsensitiveLess b c /\ CaseInsensitiveLess c a = CaseInsensitiveLess c b.
Proof. unfold CaseInsensitiveLess. by intros ->. Qed.

Lemma ci_less_asym a b : CaseInsensitiveLess a b = true -> CaseInsensitiveLess b a = false.
Proof.
  unfold CaseInsensitiveLess. intros H. destruct (lex_lt (fold_case b) (fold_case a)) eqn:E; [| done].
  pose proof (lex_lt_trans _ _ _ H E) as Hx. by rewrite lex_lt_irrefl in Hx.
Qed.

Lemma map_find_same m k k' : fold_case k = fold_case k' -> map_find m k = map_find m k'.
Proof.
  intros H. induction m as [| [k1 v] m IH]; simpl; [done |]. destruct (less_same k k' k1 H) as [-> ->]. by rewrite IH.
Qed.

Lemma map_find_below m k : sorted_map m -> Forall (fun e => CaseInsensitiveLess k e.1 = true) m -> map_find m k = None.
Proof.
  intros _ H. destruct H as [| [k1 v] m H _]; simpl; [done |]. simpl in H. by rewrite (ci_less_asym _ _ H), H.
Qed.

(** Look up after a store, with no side condition on the order. *)
Lemma map_find_set m key val k :
  sorted_map m -> map_find (map_set m key val) k = if strcasecmp_eq k key then Some val else map_find m k.
Proof.
  intros Hs. unfold strcasecmp_eq. induction m as [| [k1 v1] m IH]; simpl.
  - case_bool_decide as E.
    + destruct (proj2 (less_false_iff k key) E) as [H1 H2]. by rewrite H1, H2.
    + destruct (CaseInsensitiveLess key k) eqn:E1; [done |]. destruct (CaseInsensitiveLess k key) eqn:E2; [done |].
      destruct E. by apply less_false_iff.
  - apply StronglySorted_inv in Hs as [Hs Hall]. specialize (IH Hs).
    destruct (CaseInsensitiveLess k1 key) eqn:E1; simpl.
    + rewrite IH. case_bool_decide as E; [| done]. destruct (less_same k key k1 E) as [_ ->]. by rewrite E1.
    + destruct (CaseInsensitiveLess key k1) eqn:E2; simpl.
      * case_bool_decide as E.
        -- destruct (proj2 (less_false_iff k key) E) as [H1 H2]. by rewrite H1, H2.
        -- destruct (CaseInsensitiveLess key k) eqn:E3; [done |]. destruct (CaseInsensitiveLess k key) eqn:E4.
           ++ unfold CaseInsensitiveLess in *. rewrite (lex_lt_trans _ _ _ E4 E2).
              destruct (lex_lt (fold_case k1) (fold_case k)) eqn:E5; [| done].
              pose proof (lex_lt_trans _ _ _ E5 (lex_lt_trans _ _ _ E4 E2)) as Hx. by rewrite lex_lt_irrefl in Hx.
           ++ destruct E. by apply less_false_iff.
      * assert (Ek : fold_case k1 = fold_case key) by by apply less_false_iff.
        destruct (less_same k1 key k Ek) as [-> ->]. case_bool_decide as E.
        -- destruct (proj2 (less_false_iff k key) E) as [H1 H2]. by rewrite H1, H2.
        -- destruct (CaseInsensitiveLess key k) eqn:E3; [done |]. destruct (CaseInsensitiveLess k key) eqn:E4; [done |].
           destruct E. by apply less_false_iff.
Qed.

Lemma map_set_sorted m key val : sorted_map m -> sorted_map (map_set m key val).
Proof.
  unfold sorted_map. intros Hs. induction m as [| [k1 v1] m IH]; simpl; [by repeat constructor |].
  apply StronglySorted_inv in Hs as [Hs Hall]. specialize (IH Hs).
  destruct (CaseInsensitiveLess k1 key) eqn:E1; [| destruct (CaseInsensitiveLess key k1) eqn:E2].
  - constructor; [done |]. clear IH Hs. induction Hall as [| [k2 v2] m H2 Hall IH]; simpl; [by repeat constructor |].
    destruct (CaseInsensitiveLess k2 key); [by constructor |].
    destruct (CaseInsensitiveLess key k2); [constructor; [done |]; by constructor | by constructor].
  - constructor; [by constructor |]. constructor; [done |]. eapply Forall_impl; [exact Hall |].
    intros [k2 v2] H2. simpl in *. unfold CaseInsensitiveLess in *. by eapply lex_lt_trans.
  - by constructor.
Qed.

Lemma map_erase_spec m key :
  sorted_map m -> sorted_map (map_erase m key) /\
  (forall k, map_find (map_erase m key) k = if strcasecmp_eq k key then None else map_find m k)
  /\ (forall e, e ∈ map_erase m key -> e ∈ m).
Proof.
  unfold sorted_map, strcasecmp_eq. intros Hs. induction m as [| [k1 v1] m IH]; simpl.
  { split_and!; [constructor | by intros; case_bool_decide | done]. }
  pose proof Hs as Hs0. apply StronglySorted_inv in Hs as [Hs Hall]. destruct (IH Hs) as (IH1 & IH2 & IH3).
  destruct (CaseInsensitiveLess k1 key) eqn:E1; [| destruct (CaseInsensitiveLess key k1) eqn:E2].
  - split_and!.
    + constructor; [done |]. apply Forall_forall. intros e He. rewrite Forall_forall in Hall. auto.
    + intros k. simpl. rewrite IH2. case_bool_decide as E; [| done]. destruct (less_same k key k1 E) as [_ ->]. by rewrite E1.
    + intros e [-> | He]%elem_of_cons; [by left | right; auto].
  - split_and!; [done | | done]. intros k. simpl. case_bool_decide as E; [| done]. destruct (less_same k key k1 E) as [-> ->]. by rewrite E1, E2.
  - assert (Ek : fold_case k1 = fold_case key) by by apply less_false_iff. split_and!; [done | | by right].
    intros k. simpl. case_bool_decide as E.
    + apply map_find_below; [done |]. eapply Forall_impl; [exact Hall |]. intros e He. simpl in He.
      destruct (less_same k k1 e.1) as [-> _]; [congruence | done].
    + destruct (less_same k1 key k Ek) as [Hl Hr]. rewrite Hl, Hr.
      destruct (CaseInsensitiveLess key k) eqn:E3; [done |]. destruct (CaseInsensitiveLess k key) eqn:E4.
      * apply map_find_below; [done |]. eapply Forall_impl; [exact Hall |]. intros e He. simpl in He.
        unfold CaseInsensitiveLess in *. rewrite Ek in He. exact (lex_lt_trans _ _ _ E4 He).
      * destruct E. by apply less_false_iff.
Qed.

End Http.
