(* ===== verification/HttpSession.v ===== *)
(** Serving HTTP: the fixed-size transfers of sylar/stream.cc, the parser
    callbacks of http/http_parser.cc, [HttpSession], the servlets of
    http/servlet.cc and the loop of http/http_server.cc.

    The automaton that drives the callbacks is generated from a grammar; it is
    an interface here. *)

From stdpp Require Import gmap strings pretty.
From S2P Require Import Prelude Strs Http.

Module Srv.

Import Http.
Local Open Scope Z_scope.
#[local] Arguments String.append !_ _ /.

(** ** Streams *)

(** What arrives on a connection: data in segments, or an error of [recv]; the
    end of the list is the peer's close. *)
Inductive event := Data (bytes : string) | Error.

Abbreviation net := (list event).

(** [SocketStream::read]: at most [want] bytes of the next segment. *)
Definition read (n : net) (want : nat) : Z * string * net :=
  match n with
  | [] => (0, ""%string, [])
  | Error :: n => (-1, ""%string, n)
  | Data b :: n =>
      if (String.length b <=? want)%nat then (Z.of_nat (String.length b), b, n)
      else (Z.of_nat want, str_take want b, Data (str_drop want b) :: n)
  end.

(** [Stream::readFixSize]: the result of [read] is kept in a [size_t], so only
    zero ends the loop early. [stored] is what was stored where, [left] and
    [offset] the loop's counters. *)
Fixpoint readFixSize_loop (fuel : nat) (n : net) (len offset left : Z) (stored : list (Z * string)) :
    outcome (Z * list (Z * string) * net) :=
  if left =? 0 then Ok (i32 len, stored, n) else
  match fuel with
  | O => Fail OutOfFuel
  | S fuel =>
      let '(r, bytes, n) := read n (Z.to_nat left) in
      let got := u64 r in
      if got =? 0 then Ok (i32 got, stored, n)
      else readFixSize_loop fuel n len (u64 (offset + got)) (u64 (left - got)) (stored ++ [(offset, bytes)])
  end.

Definition readFixSize (fuel : nat) (n : net) (len : Z) : outcome (Z * list (Z * string) * net) :=
  readFixSize_loop fuel n len 0 len [].

(** The buffer the stores fill, when they are one after the other. *)
Fixpoint contents (stored : list (Z * string)) : string :=
  match stored with [] => ""%string | e :: l => (e.2 ++ contents l)%string end.

(** [Stream::writeFixSize] against a peer that takes the given numbers of bytes
    at each [write]; a count of at most 0 is the error it reports. *)
Fixpoint writeFixSize_loop (takes : list Z) (data : string) (len offset left : Z) (sent : string) : outcome (Z * string) :=
  if left =? 0 then Ok (i32 len, sent) else
  match takes with
  | [] => Fail OutOfFuel
  | r :: takes =>
      let got := u64 r in
      if got =? 0 then Ok (i32 got, sent)
      else writeFixSize_loop takes data len (u64 (offset + got)) (u64 (left - got))
             (sent ++ str_take (Z.to_nat got) (str_drop (Z.to_nat offset) data))%string
  end.

Definition writeFixSize (takes : list Z) (data : string) : outcome (Z * string) :=
  writeFixSize_loop takes data (Z.of_nat (String.length data)) 0 (Z.of_nat (String.length data)) "".

(** ** The request parser *)

(** What the automaton reports; [at_] is the data from the token on, [len] the
    token's length, a [size_t]. *)
Inductive pevent :=
  | OnMethod (at_ : string) (len : Z)
  | OnUri (at_ : string) (len : Z)
  | OnFragment (at_ : string) (len : Z)
  | OnPath (at_ : string) (len : Z)
  | OnQuery (at_ : string) (len : Z)
  | OnVersion (at_ : string) (len : Z)
  | OnHeaderDone
  | OnField (field : string) (flen : Z) (value : string) (vlen : Z).

(** The generated automaton; [Hm.http_automaton] is the one of
    http11_parser.rl.cc. *)
Record automaton := mkAuto {
  a_state : Type;
  a_init : a_state;
  a_execute : a_state -> string -> outcome (a_state * nat * list pevent);
  a_finish : a_state -> bool;
  a_has_error : a_state -> bool;
}.

(** [std::string(at, length)] inside the data: a length above the largest string
    throws, one beyond the data reads what is not there. *)
Definition cpp_string (at_ : string) (len : Z) : outcome string :=
  if len <=? Z.of_nat (String.length at_) then Ok (str_take (Z.to_nat len) at_)
  else if 2 ^ 62 <? len then Fail LogicError else Fail Indeterminate.

Section parser.
Context (A : automaton) (lexical_cast : string -> option Z).

Record HttpRequestParser := mkParser {
  m_parser : a_state A;
  m_data : HttpRequest;
  m_error : Z;
}.

Definition set_data (p : HttpRequestParser) d := mkParser (m_parser p) d (m_error p).
Definition setError (p : HttpRequestParser) e := mkParser (m_parser p) (m_data p) e.

(** [strncmp(at, name, len) == 0] for a token inside the data. *)
Definition token_is (at_ : string) (len : Z) (name : string) : bool :=
  let len := Z.to_nat (Z.min len (Z.of_nat (String.length at_ + String.length name))) in
  String.eqb (c_str (str_take len at_)) (str_take len name).

Definition on_request_method (p : HttpRequestParser) (at_ : string) : HttpRequestParser :=
  let m := CharsToHttpMethod at_ in
  if bool_decide (m = INVALID_METHOD) then setError p 1000 else set_data p (setMethod (m_data p) m).

Definition on_request_version (p : HttpRequestParser) (at_ : string) (len : Z) : HttpRequestParser :=
  if token_is at_ len "HTTP/1.1" then set_data p (setVersion (m_data p) 17)
  else if token_is at_ len "HTTP/1.0" then set_data p (setVersion (m_data p) 16)
  else setError p 1001.

Definition on_request_http_field (p : HttpRequestParser) (field : string) (flen : Z) (value : string) (vlen : Z) :
    outcome HttpRequestParser :=
  if flen =? 0 then Ok p
  else f ← cpp_string field flen; v ← cpp_string value vlen; Ok (set_data p (setHeader (m_data p) f v)).

Definition on_event (p : HttpRequestParser) (e : pevent) : outcome HttpRequestParser :=
  match e with
  | OnMethod at_ _ => Ok (on_request_method p at_)
  | OnUri _ _ => Ok p
  | OnFragment at_ len => s ← cpp_string at_ len; Ok (set_data p (setFragment (m_data p) s))
  | OnPath at_ len => s ← cpp_string at_ len; Ok (set_data p (setPath (m_data p) s))
  | OnQuery at_ len => s ← cpp_string at_ len; Ok (set_data p (setQuery (m_data p) s))
  | OnVersion at_ len => Ok (on_request_version p at_ len)
  | OnHeaderDone => Ok p
  | OnField f flen v vlen => on_request_http_field p f flen v vlen
  end.

Fixpoint on_events (p : HttpRequestParser) (evs : list pevent) : outcome HttpRequestParser :=
  match evs with
  | [] => Ok p
  | e :: evs => p ← on_event p e; on_events p evs
  end.

(** The constructor leaves [m_error] alone: [garbage] is what the memory held. *)
Definition new_HttpRequestParser (garbage : Z) : HttpRequestParser :=
  mkParser (a_init A) (new_HttpRequest 17 true) garbage.

(** [execute], with the data left after the bytes it consumed moved to the
    front. *)
Definition execute (p : HttpRequestParser) (data : string) : outcome (HttpRequestParser * nat * string) :=
  '(a, n, evs) ← a_execute A (m_parser p) data;
  p ← on_events (mkParser a (m_data p) (m_error p)) evs;
  Ok (p, n, str_drop n data).

Definition isFinished (p : HttpRequestParser) : bool := a_finish A (m_parser p).
Definition hasError (p : HttpRequestParser) : bool := negb (m_error p =? 0) || a_has_error A (m_parser p).
Definition getContentLength (p : HttpRequestParser) : Z := getAs lexical_cast (m_headers (m_data p)) "content-length" 0.

(** ** HttpSession *)

(** What [recvRequest] does: a request, or none with the session closed or not. *)
Inductive received :=
  | Request (r : HttpRequest)
  | Nothing (closed : bool).

(** The loop up to the end of the header; [data] is what is in the buffer. *)
Fixpoint recv_head (fuel : nat) (buffer_size : nat) (p : HttpRequestParser) (data : string) (n : net) :
    outcome ((HttpRequestParser * string + bool) * net) :=
  match fuel with
  | O => Fail OutOfFuel
  | S fuel =>
      let '(len, bytes, n) := read n (buffer_size - String.length data) in
      if len <=? 0 then Ok (inr true, n) else
      '(p, _, data) ← execute p (data ++ bytes);
      if hasError p then Ok (inr true, n) else
      if (String.length data =? buffer_size)%nat then Ok (inr false, n) else
      if isFinished p then Ok (inl (p, data), n) else recv_head fuel buffer_size p data n
  end.

(** The body: what is already in the buffer, then the rest from the stream. *)
Definition recv_body (fuel : nat) (length_ : Z) (data : string) (n : net) : outcome (option string * net) :=
  let offset := Z.of_nat (String.length data) in
  let first := if offset <=? length_ then data else str_take (Z.to_nat length_) data in
  let left := length_ - offset in
  if 0 <? left then
    '(r, stored, n) ← readFixSize fuel n left;
    if r <=? 0 then Ok (None, n) else Ok (Some (first ++ contents stored)%string, n)
  else Ok (Some first, n).

Definition recvRequest (fuel : nat) (garbage : Z) (buffer_size : nat) (n : net) : outcome (received * net) :=
  '(h, n) ← recv_head fuel buffer_size (new_HttpRequestParser garbage) "" n;
  match h with
  | inr closed => Ok (Nothing closed, n)
  | inl (p, data) =>
      let length_ := i64 (getContentLength p) in
      if 0 <? length_ then
        '(b, n) ← recv_body fuel length_ data n;
        match b with
        | None => Ok (Nothing true, n)
        | Some body => Ok (Request (setBody (m_data p) body), n)
        end
      else Ok (Request (m_data p), n)
  end.

End parser.

(** ** Servlets *)

(** A servlet: what it does to the response for a request. *)
Definition Servlet := HttpRequest -> HttpResponse -> HttpResponse.

Definition NotFoundServlet (name : string) : Servlet := fun _ rsp =>
  let rsp := rsp_setStatus rsp NOT_FOUND in
  let rsp := rsp_setHeader rsp "Server" "sylar/1.0.0" in
  let rsp := rsp_setHeader rsp "Content-Type" "text/html" in
  rsp_setBody rsp ("<html><head><title>404 Not Found" ++ "</title></head><body><center><h1>404 Not Found</h1></center>"
                   ++ "<hr><center>" ++ name ++ "</center></body></html>")%string.

Record ServletDispatch := mkDispatch {
  m_datas : gmap string Servlet;
  m_globs : list (string * Servlet);
  m_default : Servlet;
}.

Definition new_ServletDispatch : ServletDispatch := mkDispatch ∅ [] (NotFoundServlet "ServletDispatch").

Definition addServlet (d : ServletDispatch) (uri : string) (slt : Servlet) : ServletDispatch :=
  mkDispatch (<[uri := slt]> (m_datas d)) (m_globs d) (m_default d).

(** Drop the first entry for [uri]. *)
Fixpoint erase_glob (l : list (string * Servlet)) (uri : string) : list (string * Servlet) :=
  match l with
  | [] => []
  | e :: l => if String.eqb e.1 uri then l else e :: erase_glob l uri
  end.

Definition addGlobServlet (d : ServletDispatch) (uri : string) (slt : Servlet) : ServletDispatch :=
  mkDispatch (m_datas d) (erase_glob (m_globs d) uri ++ [(uri, slt)]) (m_default d).

Definition delServlet (d : ServletDispatch) (uri : string) : ServletDispatch :=
  mkDispatch (delete uri (m_datas d)) (m_globs d) (m_default d).

Definition delGlobServlet (d : ServletDispatch) (uri : string) : ServletDispatch :=
  mkDispatch (m_datas d) (erase_glob (m_globs d) uri) (m_default d).

Definition getServlet (d : ServletDispatch) (uri : string) : option Servlet := m_datas d !! uri.

Definition getGlobServlet (d : ServletDispatch) (uri : string) : option Servlet :=
  snd <$> List.find (fun e => String.eqb e.1 uri) (m_globs d).

Section dispatch.
(** [fnmatch(pattern, string, 0) == 0] *)
Context (fnmatch : string -> string -> bool).

Definition getMatchedServlet (d : ServletDispatch) (uri : string) : Servlet :=
  match m_datas d !! uri with
  | Some s => s
  | None => match List.find (fun e => fnmatch e.1 uri) (m_globs d) with
            | Some e => e.2
            | None => m_default d
            end
  end.

Definition handle (d : ServletDispatch) (req : HttpRequest) (rsp : HttpResponse) : HttpResponse :=
  getMatchedServlet d (m_path req) req rsp.

(** ** The server's loop *)

Context (A : automaton) (lexical_cast : string -> option Z).

(** [HttpServer::handleClient]: the responses sent on one connection, with
    [garbage] and [ws] the contents of the fields that are never initialised. *)
Fixpoint handleClient (fuel : nat) (d : ServletDispatch) (keepalive : bool) (name : string) (garbage : Z) (ws : bool)
    (buffer_size : nat) (n : net) : outcome (list string * net) :=
  match fuel with
  | O => Fail OutOfFuel
  | S fuel' =>
      '(r, n) ← recvRequest A lexical_cast fuel garbage buffer_size n;
      match r with
      | Nothing _ => Ok ([], n)
      | Request req =>
          let rsp := new_HttpResponse ws (m_version req) (m_close req || negb keepalive) in
          let rsp := rsp_setHeader rsp "Server" name in
          let rsp := handle d req rsp in
          let out := dump_response rsp in
          if negb keepalive || m_close req then Ok ([out], n)
          else '(outs, n) ← handleClient fuel' d keepalive name garbage ws buffer_size n; Ok (out :: outs, n)
      end
  end.

End dispatch.

(** ** What is on the wire *)

(** Data only, in non-empty segments. *)
Definition good_net (n : net) : Prop := Forall (fun e => exists b, e = Data b /\ b <> ""%string) n.

Fixpoint flat (n : net) : string :=
  match n with
  | Data b :: n => (b ++ flat n)%string
  | _ :: n => flat n
  | [] => ""%string
  end.

Lemma good_net_empty n : good_net n -> flat n = ""%string -> n = [].
Proof. destruct 1 as [| e n (b & -> & Hb) _]; simpl; [done |]. by destruct b. Qed.

(** Reading takes a non-empty prefix of what is on the wire. *)
Lemma read_good n want :
  good_net n -> (0 < want)%nat -> flat n <> ""%string ->
  exists b n', read n want = (Z.of_nat (String.length b), b, n') /\ (0 < String.length b <= want)%nat
    /\ good_net n' /\ flat n = (b ++ flat n')%string.
Proof.
  intros Hg Hw Hf. destruct Hg as [| e n (b & -> & Hb) Hg]; [done |]. simpl.
  destruct (Nat.leb_spec (String.length b) want).
  - exists b, n. apply str_nonempty in Hb. split_and!; try done; lia.
  - exists (str_take want b), (Data (str_drop want b) :: n). rewrite length_str_take.
    split_and!; try lia; [f_equal; f_equal; lia | |].
    + constructor; [| done]. exists (str_drop want b). split; [done |]. apply str_nonempty. rewrite length_str_drop. lia.
    + simpl. by rewrite <- str_app_assoc, take_drop_str.
Qed.

Lemma contents_snoc stored o b : contents (stored ++ [(o, b)]) = (contents stored ++ b)%string.
Proof.
  induction stored as [| [o' b'] stored IH]; simpl; [apply str_app_nil |]. by rewrite IH, str_app_assoc.
Qed.

(** [readFixSize] fills the buffer however the data is cut into segments. *)
Lemma readFixSize_good fuel n len offset left stored :
  good_net n -> 0 <= offset -> offset + left < 2 ^ 63 -> 0 <= left ->
  (Z.to_nat left <= String.length (flat n))%nat -> (Z.to_nat left <= fuel)%nat ->
  exists stored' n', readFixSize_loop fuel n len offset left stored = Ok (i32 len, stored', n')
    /\ contents stored' = (contents stored ++ str_take (Z.to_nat left) (flat n))%string
    /\ good_net n' /\ flat n' = str_drop (Z.to_nat left) (flat n).
Proof.
  revert n offset left stored. induction fuel as [| fuel IH]; intros n offset left stored Hg Ho Hb Hl Hlen Hf.
  - assert (left = 0) as -> by lia. simpl. exists stored, n. simpl. by rewrite str_app_nil.
  - simpl. destruct (Z.eqb_spec left 0) as [->|Hne].
    { exists stored, n. simpl. by rewrite str_app_nil. }
    destruct (read_good n (Z.to_nat left) Hg ltac:(lia)) as (b & n1 & -> & Hbl & Hg1 & Hfl).
    { apply str_nonempty. lia. }
    assert (Hu : u64 (Z.of_nat (String.length b)) = Z.of_nat (String.length b)) by (apply wrap_small; unfold in_unsigned; lia).
    rewrite Hu. destruct (Z.eqb_spec (Z.of_nat (String.length b)) 0); [lia |].
    rewrite (wrap_small 64 (offset + _)), (wrap_small 64 (left - _)) by (unfold in_unsigned; lia).
    destruct (IH n1 (offset + Z.of_nat (String.length b)) (left - Z.of_nat (String.length b)) (stored ++ [(offset, b)]))
      as (st & n' & E & Hc & Hg' & Hf'); try done; try lia.
    { rewrite Hfl, length_str_app in Hlen. lia. }
    exists st, n'. split; [exact E |]. rewrite Hc, contents_snoc, Hf', Hfl, str_take_app, str_drop_app.
    rewrite (str_take_ge _ b), (str_drop_ge _ b) by lia. rewrite str_app_assoc.
    replace (Z.to_nat left - String.length b)%nat with (Z.to_nat (left - Z.of_nat (String.length b))) by lia. done.
Qed.

End Srv.
