(* ===== verification/HttpProps.v ===== *)
(** The properties of HTTP messages and of serving them. *)

From stdpp Require Import gmap strings pretty.
From Stdlib Require Import Ascii.
From S2P Require Import Prelude Strs Http HttpSession.

Import Http Srv.
Local Open Scope Z_scope.
#[local] Arguments String.append !_ _ /.

(** ** Lines *)

Fixpoint no_cr (s : string) : bool :=
  match s with
  | ""%string => true
  | String c s => negb (Ascii.eqb c "013") && no_cr s
  end.

(** Lines, each ended by CRLF. *)
Fixpoint render (ls : list string) : string :=
  match ls with [] => ""%string | l :: ls => (l ++ crlf ++ render ls)%string end.

Lemma no_cr_app a b : no_cr (a ++ b) = no_cr a && no_cr b.
Proof. induction a as [| c a IH]; simpl; [done |]. by rewrite IH, andb_assoc. Qed.

(** ** Digits and tables hold no carriage return *)

Lemma no_cr_pretty_go (x : N) s : no_cr s = true -> no_cr (pretty_N_go x s) = true.
Proof.
  revert s. induction (N.lt_wf_0 x) as [x _ IH]; intros s Hs.
  destruct (decide (0 < x)%N) as [Hx|Hx].
  - rewrite pretty_N_go_step by done. apply IH; [by apply N.div_lt |]. simpl. rewrite Hs, andb_true_r.
    unfold pretty_N_char. by repeat case_match.
  - assert (x = 0%N) as -> by lia. by rewrite pretty_N_go_0.
Qed.

Lemma no_cr_show n : no_cr (show n) = true.
Proof. unfold show, pretty, pretty_N. case_decide; [done | by apply no_cr_pretty_go]. Qed.

Lemma no_cr_status n : no_cr (HttpStatusToString n) = true.
Proof.
  unfold HttpStatusToString. destruct (find _ _) as [e|] eqn:E; [| done]. apply find_some in E as [Hin _].
  assert (Hall : forallb (fun e => no_cr e.2) HTTP_STATUS_MAP = true) by (vm_compute; reflexivity).
  rewrite forallb_forall in Hall. by apply Hall.
Qed.

Lemma no_cr_method m : no_cr (HttpMethodToString m) = true.
Proof. by destruct m. Qed.

(** ** Messages as lines *)

(** The start line of a request. *)
Definition request_text (r : HttpRequest) : string :=
  (HttpMethodToString (m_method r) ++ " " ++ m_path r ++ marked "?" (m_query r) ++ marked "#" (m_fragment r)
   ++ " HTTP/" ++ version_string (m_version r))%string.

Definition connection_field (close : bool) : string * string :=
  ("connection", if close then "close" else "keep-alive")%string.

Definition length_field (body : string) : MapType :=
  if String.eqb body "" then [] else [("content-length", show (Z.of_nat (String.length body)))%string].

(** The fields of a request, in the order they are written. *)
Definition request_fields (r : HttpRequest) : MapType :=
  connection_field (m_close r) :: plain_headers (m_headers r) ++ length_field (m_body r).

Definition status_text (r : HttpResponse) : string :=
  ("HTTP/" ++ version_string (r_version r) ++ " " ++ show (r_status r) ++ " "
   ++ (if String.eqb (r_reason r) "" then HttpStatusToString (r_status r) else r_reason r))%string.

Definition header_text (kv : string * string) : string := (kv.1 ++ ": " ++ kv.2)%string.

(** The fields of a response, in the order they are written. *)
Definition response_fields (r : HttpResponse) : MapType :=
  (if r_websocket r then r_headers r else plain_headers (r_headers r))
  ++ ((fun c => ("Set-Cookie"%string, c)) <$> r_cookies r)
  ++ (if r_websocket r then [] else [connection_field (r_close r)]) ++ length_field (r_body r).

Lemma lines_render m : lines m = render (header_text <$> m).
Proof.
  unfold lines. induction m as [| kv m IH]; [done |]. rewrite !fmap_cons. cbn [render].
  assert (E : String.concat "" (header_line kv :: (header_line <$> m)) = (header_line kv ++ String.concat "" (header_line <$> m))%string).
  { simpl. destruct (header_line <$> m); [by rewrite str_app_nil | done]. }
  rewrite E, IH. unfold header_line, header_text. by rewrite !str_app_assoc.
Qed.

Lemma render_app a b : render (a ++ b) = (render a ++ render b)%string.
Proof. induction a as [| l a IH]; cbn [render app]; [done |]. by rewrite IH, !str_app_assoc. Qed.

Lemma body_part_render body :
  body_part body = (render (header_text <$> length_field body) ++ crlf ++ body)%string.
Proof.
  unfold body_part, length_field. destruct (String.eqb_spec body "") as [->|Hb]; [done |].
  cbn [fmap list_fmap render]. unfold header_line, header_text. by rewrite !str_app_assoc.
Qed.

Lemma connection_render c : connection_line c = render (header_text <$> [connection_field c]).
Proof. unfold connection_line, connection_field. by destruct c. Qed.

Lemma request_as_lines r :
  dump_request r = (render (request_text r :: (header_text <$> request_fields r)) ++ crlf ++ m_body r)%string.
Proof.
  unfold dump_request, request_fields, request_text. rewrite connection_render, lines_render, body_part_render.
  rewrite !fmap_cons, fmap_app. cbn [render fmap list_fmap]. rewrite !render_app. by rewrite !str_app_assoc.
Qed.

Lemma response_as_lines r :
  dump_response r = (render (status_text r :: (header_text <$> response_fields r)) ++ crlf ++ r_body r)%string.
Proof.
  unfold dump_response, response_fields, response_lines, status_line, status_text. cbn [render].
  rewrite !fmap_app, !render_app, !lines_render, body_part_render, !str_app_assoc.
  destruct (r_websocket r); [done |]. by rewrite connection_render.
Qed.

(** ** Reading a message back *)

Fixpoint no_char (x : ascii) (s : string) : bool :=
  match s with
  | ""%string => true
  | String c s => negb (Ascii.eqb c x) && no_char x s
  end.

(** Split at the first CRLF. *)
Fixpoint split_line (s : string) : option (string * string) :=
  match s with
  | String "013" (String "010" rest) => Some (""%string, rest)
  | String c s' => match split_line s' with Some (l, rest) => Some (String c l, rest) | None => None end
  | ""%string => None
  end.

(** A field is a name, a colon, a space and a value. *)
Fixpoint read_field (l : string) : option (string * string) :=
  match l with
  | String ":" (String " " v) => Some (""%string, v)
  | String c l' => match read_field l' with Some (k, v) => Some (String c k, v) | None => None end
  | ""%string => None
  end.

(** The fields up to the blank line, then the body. *)
Fixpoint read_fields (fuel : nat) (s : string) : option (MapType * string) :=
  match fuel with
  | O => None
  | S fuel =>
      '(l, rest) ← split_line s;
      if String.eqb l "" then Some ([], rest)
      else f ← read_field l; '(fs, b) ← read_fields fuel rest; Some (f :: fs, b)
  end.

(** A receiver's view of a message: start line, fields, body. *)
Definition read_message (s : string) : option (string * MapType * string) :=
  '(l, rest) ← split_line s; '(fs, b) ← read_fields (String.length s) rest; Some (l, fs, b).

#[local] Arguments split_line : simpl never.
#[local] Arguments read_field : simpl never.

Lemma split_line_step c s : c <> "013"%char ->
  split_line (String c s) = match split_line s with Some (l, rest) => Some (String c l, rest) | None => None end.
Proof. intros Hc. destruct c as [[] [] [] [] [] [] [] []]; try reflexivity; by destruct Hc. Qed.

Lemma split_line_crlf l s : no_cr l = true -> split_line (l ++ crlf ++ s) = Some (l, s).
Proof.
  induction l as [| c l IH]; [done |]. cbn [no_cr]. intros [Hc Hl]%andb_prop.
  change (String c l ++ crlf ++ s)%string with (String c (l ++ crlf ++ s)). rewrite split_line_step by (intros ->; done). by rewrite IH.
Qed.

Lemma read_field_text kv : no_char ":" kv.1 = true -> read_field (header_text kv) = Some kv.
Proof.
  destruct kv as [k v]. unfold header_text. simpl. induction k as [| c k IH]; [done |]. simpl. intros [Hc Hk]%andb_prop.
  specialize (IH Hk). assert (c <> ":"%char) by (intros ->; done).
  assert (E : forall s, read_field (String c s) = match read_field s with Some (k, v) => Some (String c k, v) | None => None end)
    by (intros s; destruct c as [[] [] [] [] [] [] [] []]; try reflexivity; by destruct H).
  by rewrite E, IH.
Qed.

(** A field that survives the trip: no line break in it, no colon in its name. *)
Definition field_ok (kv : string * string) : Prop :=
  no_cr kv.1 = true /\ no_cr kv.2 = true /\ no_char ":" kv.1 = true.

Lemma header_text_ok kv : field_ok kv -> no_cr (header_text kv) = true /\ header_text kv <> ""%string.
Proof.
  intros (H1 & H2 & _). unfold header_text. rewrite !no_cr_app, H1, H2. split; [done |]. by destruct kv.1.
Qed.

Lemma read_fields_render fs body fuel :
  Forall field_ok fs -> (length fs < fuel)%nat ->
  read_fields fuel (render (header_text <$> fs) ++ crlf ++ body) = Some (fs, body).
Proof.
  intros H. revert fuel. induction H as [| f fs Hf Hfs IH]; intros [| fuel] Hlen; simpl in Hlen; try lia; [done |].
  rewrite fmap_cons. cbn [render read_fields]. destruct (header_text_ok f Hf) as [Hc Hn].
  rewrite !str_app_assoc, split_line_crlf by done. simpl. destruct (String.eqb_spec (header_text f) ""); [done |].
  rewrite read_field_text by apply Hf. simpl. rewrite IH by lia. done.
Qed.

Lemma length_render fs : (length fs <= String.length (render fs))%nat.
Proof. induction fs as [| f fs IH]; cbn [render length]; [lia |]. rewrite !length_str_app. simpl. lia. Qed.

Lemma read_message_render first fs body :
  no_cr first = true -> Forall field_ok fs ->
  read_message (render (first :: (header_text <$> fs)) ++ crlf ++ body) = Some (first, fs, body).
Proof.
  intros Hf Hfs. unfold read_message. cbn [render]. rewrite !str_app_assoc, split_line_crlf by done.
  cbn [mbind option_bind]. rewrite read_fields_render; [done | done |]. rewrite !length_str_app. pose proof (length_render (header_text <$> fs)) as H.
  rewrite length_fmap in H. simpl. lia.
Qed.

Lemma length_field_ok body : Forall field_ok (length_field body).
Proof. unfold length_field. destruct (String.eqb body ""); constructor; [| constructor]. by split_and!; [| apply no_cr_show |]. Qed.

Lemma plain_headers_ok m : Forall field_ok m -> Forall field_ok (plain_headers m).
Proof.
  unfold plain_headers. rewrite !List.Forall_forall. intros H x [Hx _]%filter_In. by apply H.
Qed.

Lemma connection_field_ok c : field_ok (connection_field c).
Proof. by destruct c. Qed.

(** What a peer may be sent: no line break inside a line, no colon in a name. *)
Definition request_ok (r : HttpRequest) : Prop :=
  no_cr (m_path r) = true /\ no_cr (m_query r) = true /\ no_cr (m_fragment r) = true /\ Forall field_ok (m_headers r).

Definition response_ok (r : HttpResponse) : Prop :=
  no_cr (r_reason r) = true /\ Forall field_ok (r_headers r) /\ Forall (fun c => no_cr c = true) (r_cookies r).

Lemma version_no_cr v : no_cr (version_string v) = true.
Proof. unfold version_string. by rewrite !no_cr_app, !no_cr_show. Qed.

Lemma marked_no_cr m s : no_cr m = true -> no_cr s = true -> no_cr (marked m s) = true.
Proof. intros Hm Hs. unfold marked. rewrite no_cr_app, Hs. by destruct (String.eqb s ""); rewrite ?Hm. Qed.

Lemma request_text_ok r : request_ok r -> no_cr (request_text r) = true.
Proof.
  intros (H1 & H2 & H3 & _). unfold request_text.
  by rewrite !no_cr_app, no_cr_method, version_no_cr, H1, !marked_no_cr by done.
Qed.

Lemma status_text_ok r : response_ok r -> no_cr (status_text r) = true.
Proof.
  intros (H1 & _). unfold status_text. rewrite !no_cr_app, version_no_cr, no_cr_show.
  destruct (String.eqb _ _); by rewrite ?no_cr_status, ?H1.
Qed.

Lemma response_fields_ok r : response_ok r -> Forall field_ok (response_fields r).
Proof.
  intros (_ & H1 & H2). unfold response_fields. rewrite !Forall_app. split_and!.
  - destruct (r_websocket r); [done | by apply plain_headers_ok].
  - apply Forall_fmap. eapply Forall_impl; [exact H2 |]. intros c Hc. by split_and!.
  - destruct (r_websocket r); repeat constructor. apply connection_field_ok.
  - apply length_field_ok.
Qed.

(** Requests and responses are framed correctly. What [HttpRequest::dump]
    and [HttpResponse::dump] write is read back by a receiver that splits
    lines at CRLF, fields at the first colon and takes what follows the blank
    line as the body: it sees the start line, exactly the fields of the
    message in order with the generated [connection] and [content-length]
    fields, and the body, provided no value holds a carriage return and no
    field name a colon. *)
Theorem messages_read_back :
  (forall req, request_ok req -> read_message (dump_request req) = Some (request_text req, request_fields req, m_body req))
  /\ (forall rsp, response_ok rsp ->
        read_message (dump_response rsp) = Some (status_text rsp, response_fields rsp, r_body rsp)).
Proof.
  split.
  - intros req H. rewrite request_as_lines. apply read_message_render; [by apply request_text_ok |].
    unfold request_fields. constructor; [apply connection_field_ok |]. rewrite Forall_app.
    split; [by apply plain_headers_ok, H | apply length_field_ok].
  - intros rsp H. rewrite response_as_lines.
    apply read_message_render; [by apply status_text_ok | by apply response_fields_ok].
Qed.

(** ** Methods and status codes *)

Lemma find_unique {A} (f : A -> bool) l e :
  e ∈ l -> f e = true -> (forall e', e' ∈ l -> f e' = true -> e' = e) -> List.find f l = Some e.
Proof.
  intros He Hf Hu. destruct (List.find f l) as [e'|] eqn:E.
  - apply find_some in E as [Hin Hf']. by rewrite (Hu e') by (rewrite ?list_elem_of_In; done).
  - apply list_elem_of_In in He. pose proof (find_none _ _ E _ He). congruence.
Qed.

Lemma prefix_nested a b s : String.prefix a s = true -> String.prefix b s = true ->
  String.prefix a b = true \/ String.prefix b a = true.
Proof.
  revert b s. induction a as [| x a IH]; intros [| y b] [| z s]; simpl; try (by left); try (by right); try done.
  destruct (ascii_dec x z) as [->|]; [| done]. destruct (ascii_dec y z) as [->|]; [| done].
  destruct (ascii_dec z z); [| done]. apply IH.
Qed.

Lemma prefix_app a b : String.prefix a (a ++ b) = true.
Proof. induction a as [| x a IH]; simpl; [by destruct b |]. by destruct (ascii_dec x x). Qed.

(** No method's name is the beginning of another's. *)
Lemma methods_prefix_free e e' :
  e ∈ HTTP_METHOD_MAP -> e' ∈ HTTP_METHOD_MAP -> String.prefix e.2 e'.2 = true -> e = e'.
Proof.
  intros He He' Hp.
  assert (Hall : forallb (fun e => forallb (fun e' => negb (String.prefix e.2 e'.2) || bool_decide (e = e')) HTTP_METHOD_MAP)
                   HTTP_METHOD_MAP = true) by (vm_compute; reflexivity).
  rewrite forallb_forall in Hall. specialize (Hall e). rewrite forallb_forall in Hall.
  rewrite list_elem_of_In in He, He'. specialize (Hall He e' He'). rewrite Hp in Hall. simpl in Hall. by apply bool_decide_eq_true in Hall.
Qed.

Lemma method_entry m : m <> INVALID_METHOD -> exists n, (n, m, HttpMethodToString m) ∈ HTTP_METHOD_MAP.
Proof. intros Hm. destruct m; try done; eexists; rewrite list_elem_of_In; cbv; repeat (try (left; reflexivity); right). Qed.

Lemma entry_name n m s : (n, m, s) ∈ HTTP_METHOD_MAP -> s = HttpMethodToString m.
Proof.
  assert (Hall : forallb (fun e => String.eqb e.2 (HttpMethodToString e.1.2)) HTTP_METHOD_MAP = true) by (vm_compute; reflexivity).
  rewrite forallb_forall in Hall. rewrite list_elem_of_In. intros H%Hall. by apply String.eqb_eq in H.
Qed.

(** The request parser recognises methods exactly. A method name read by
    [CharsToHttpMethod] at the start of the data, whatever follows it, gives
    [m] exactly when [HttpMethodToString(m)] stands there;
    [StringToHttpMethod] inverts [HttpMethodToString]; and every code of the
    status table prints as its own description. *)
Lemma methods_and_statuses_exact :
  (forall m s, m <> INVALID_METHOD ->
     (CharsToHttpMethod s = m <-> String.prefix (HttpMethodToString m) s = true)
     /\ StringToHttpMethod (HttpMethodToString m) = m)
  /\ (forall c d, (c, d) ∈ HTTP_STATUS_MAP -> HttpStatusToString c = d).
Proof.
  split.
  - intros m s Hm. split; [| destruct m; try done; vm_compute; reflexivity]. unfold CharsToHttpMethod. split.
    + destruct (List.find _ _) as [[[n m'] nm]|] eqn:E; [| congruence]. intros <-. apply find_some in E as [Hin Hp].
      apply list_elem_of_In, entry_name in Hin as ->. done.
    + intros Hp. destruct (method_entry m Hm) as [n Hn]. rewrite (find_unique _ _ _ Hn Hp); [done |]. intros e' He' Hp'.
      destruct (prefix_nested _ _ _ Hp Hp'); [symmetry |]; by apply methods_prefix_free.
  - intros c d Hin.
    assert (Hall : forallb (fun e => String.eqb (HttpStatusToString e.1) e.2) HTTP_STATUS_MAP = true) by (vm_compute; reflexivity).
    rewrite forallb_forall in Hall. apply list_elem_of_In, Hall in Hin. by apply String.eqb_eq in Hin.
Qed.
