(* ===== verification/HttpServeProps.v ===== *)
(** The properties of header maps, of servlet dispatch and of the session that
    receives requests. *)

From stdpp Require Import gmap strings.
From Stdlib Require Import Ascii.
From S2P Require Import Prelude Strs Http HttpSession.

Import Http Srv.
Local Open Scope Z_scope.
#[local] Arguments String.append !_ _ /.

(** ** Header maps *)

(** Which of a request's three maps. *)
Inductive which := Headers | Params | Cookies.

#[global] Instance which_eq_dec : EqDecision which.
Proof. solve_decision. Defined.

Inductive map_op := MSet (w : which) (key val : string) | MDel (w : which) (key : string).

Definition map_step (r : HttpRequest) (o : map_op) : HttpRequest :=
  match o with
  | MSet Headers k v => setHeader r k v
  | MSet Params k v => setParam r k v
  | MSet Cookies k v => setCookie r k v
  | MDel Headers k => delHeader r k
  | MDel Params k => delParam r k
  | MDel Cookies k => delCookie r k
  end.

Definition get_of (r : HttpRequest) (w : which) : string -> string -> string :=
  match w with Headers => getHeader r | Params => getParam r | Cookies => getCookie r end.

Definition has_of (r : HttpRequest) (w : which) : string -> option string -> bool * option string :=
  match w with Headers => hasHeader r | Params => hasParam r | Cookies => hasCookie r end.

Definition map_of (r : HttpRequest) (w : which) : MapType :=
  match w with Headers => m_headers r | Params => m_params r | Cookies => m_cookies r end.

(** The abstract state: a finite map on folded keys for each of the three. *)
Abbreviation abstract := (which -> gmap (list nat) string).

Definition abs_step (a : abstract) (o : map_op) : abstract := fun w =>
  match o with
  | MSet w' k v => if decide (w = w') then <[fold_case k := v]> (a w) else a w
  | MDel w' k => if decide (w = w') then delete (fold_case k) (a w) else a w
  end.

Definition represents (r : HttpRequest) (a : abstract) : Prop :=
  forall w, sorted_map (map_of r w) /\ forall k, map_find (map_of r w) k = a w !! fold_case k.

Lemma same_key_dec k key : strcasecmp_eq k key = bool_decide (fold_case key = fold_case k).
Proof. unfold strcasecmp_eq. apply bool_decide_ext. done. Qed.

Lemma map_step_spec r o w :
  map_of (map_step r o) w =
  match o with
  | MSet w' k v => if decide (w = w') then map_set (map_of r w) k v else map_of r w
  | MDel w' k => if decide (w = w') then map_erase (map_of r w) k else map_of r w
  end.
Proof. by destruct o as [[] k v|[] k], w. Qed.

Lemma represents_step r a o : represents r a -> represents (map_step r o) (abs_step a o).
Proof.
  intros H w. destruct (H w) as [Hs Hf]. rewrite map_step_spec. destruct o as [w' k v|w' k]; simpl; (case_decide; [| done]).
  - split; [by apply map_set_sorted |]. intros k'. rewrite map_find_set, same_key_dec, lookup_insert, Hf by done.
    by case_bool_decide; case_decide.
  - destruct (map_erase_spec (map_of r w) k Hs) as (Hs' & He & _). split; [done |]. intros k'.
    rewrite He, same_key_dec, lookup_delete, Hf. by case_bool_decide; case_decide.
Qed.

(** Headers, parameters and cookies are maps up to the case of the key.
    After any sequence of [setHeader], [setParam], [setCookie], [delHeader],
    [delParam] and [delCookie] on a new request, each [get] and [has] answers
    as a finite map on case-folded keys, on which the operations are insertion
    and deletion; the three maps do not interfere, and the entries stay
    strictly ordered, one per key up to case. *)
Theorem headers_refine_map version close (ops : list map_op) :
  let r := foldl map_step (new_HttpRequest version close) ops in
  let a := foldl abs_step (fun _ => ∅) ops in
  forall w, sorted_map (map_of r w)
    /\ forall key, (forall def, get_of r w key def = default def (a w !! fold_case key))
    /\ forall val, has_of r w key val = match a w !! fold_case key with
                                        | Some v => (true, (fun _ => v) <$> val)
                                        | None => (false, val)
                                        end.
Proof.
  intros r a. assert (H : represents r a).
  { subst r a. assert (H : represents (new_HttpRequest version close) (fun _ => ∅)).
    { intros []; (split; [constructor | intros k; by rewrite lookup_empty]). }
    revert H. generalize (new_HttpRequest version close), (fun _ : which => (∅ : gmap (list nat) string)).
    induction ops as [| o ops IH]; intros r a H; [done |]. simpl. by apply IH, represents_step. }
  intros w. destruct (H w) as [Hs Hf]. split; [done |]. intros key. rewrite <- Hf. by destruct w.
Qed.

(** ** Servlet dispatch *)

Inductive slt_op :=
  | AddServlet (uri : string) (s : Servlet)
  | AddGlob (uri : string) (s : Servlet)
  | DelServlet (uri : string)
  | DelGlob (uri : string).

Definition slt_step (d : ServletDispatch) (o : slt_op) : ServletDispatch :=
  match o with
  | AddServlet u s => addServlet d u s
  | AddGlob u s => addGlobServlet d u s
  | DelServlet u => delServlet d u
  | DelGlob u => delGlobServlet d u
  end.

(** What the history says: the last word on an exact address… *)
Fixpoint exact_of (ops : list slt_op) (uri : string) (before : option Servlet) : option Servlet :=
  match ops with
  | [] => before
  | AddServlet u s :: ops => exact_of ops uri (if String.eqb u uri then Some s else before)
  | DelServlet u :: ops => exact_of ops uri (if String.eqb u uri then None else before)
  | _ :: ops => exact_of ops uri before
  end.

(** …and the patterns still in force, in the order they were last added. *)
Definition touches (uri : string) (o : slt_op) : bool :=
  match o with AddGlob u _ | DelGlob u => String.eqb u uri | _ => false end.

Fixpoint globs_of (ops : list slt_op) : list (string * Servlet) :=
  match ops with
  | [] => []
  | AddGlob u s :: ops => if existsb (touches u) ops then globs_of ops else (u, s) :: globs_of ops
  | _ :: ops => globs_of ops
  end.

Lemma exact_run ops d uri : m_datas (foldl slt_step d ops) !! uri = exact_of ops uri (m_datas d !! uri).
Proof.
  revert d. induction ops as [| o ops IH]; intros d; [done |]. simpl. rewrite IH.
  destruct o as [u s|u s|u|u]; simpl; try done; f_equal; rewrite ?lookup_insert, ?lookup_delete;
    by destruct (String.eqb_spec u uri); case_decide.
Qed.

(** The entries of [l] that no later operation touches. *)
Definition survivors (ops : list slt_op) (l : list (string * Servlet)) : list (string * Servlet) :=
  List.filter (fun e => negb (existsb (touches e.1) ops)) l.

Lemma erase_filter l u :
  NoDup (fst <$> l) -> erase_glob l u = List.filter (fun e : string * Servlet => negb (String.eqb u e.1)) l.
Proof.
  induction l as [| e l IH]; [done |]. rewrite fmap_cons. intros [Hn Hd]%NoDup_cons. simpl.
  rewrite (String.eqb_sym u). destruct (String.eqb_spec e.1 u) as [He|He]; simpl; [| by rewrite IH].
  symmetry. apply forallb_filter_id, forallb_forall. intros e' Hin%list_elem_of_In.
  destruct (String.eqb_spec u e'.1) as [E|]; [| done]. destruct Hn. rewrite He, E. by apply list_elem_of_fmap_2.
Qed.

Lemma filter_filter {A} (f g : A -> bool) l :
  List.filter f (List.filter g l) = List.filter (fun x => g x && f x) l.
Proof. induction l as [| x l IH]; simpl; [done |]. destruct (g x); simpl; [| done]. destruct (f x); by rewrite IH. Qed.

Lemma erase_nodup l u : NoDup (fst <$> l) -> NoDup (fst <$> erase_glob l u) /\ u ∉ fst <$> erase_glob l u.
Proof.
  intros Hd. split.
  - clear - Hd. induction l as [| e l IH]; [done |]. rewrite fmap_cons in Hd. apply NoDup_cons in Hd as [Hn Hd]. simpl.
    destruct (String.eqb e.1 u); [done |]. rewrite fmap_cons. apply NoDup_cons. split; [| auto]. intros Hin. apply Hn.
    clear - Hin. induction l as [| e' l IH]; [done |]. simpl in Hin. destruct (String.eqb e'.1 u); rewrite fmap_cons in *.
    + by right.
    + apply elem_of_cons in Hin as [->|Hin]; [left | right; auto].
  - rewrite erase_filter by done. intros ([] & -> & Hin)%list_elem_of_fmap. apply list_elem_of_In, filter_In in Hin as [_ Hin].
    by rewrite String.eqb_refl in Hin.
Qed.

Lemma globs_run ops d :
  NoDup (fst <$> m_globs d) ->
  m_globs (foldl slt_step d ops) = survivors ops (m_globs d) ++ globs_of ops
  /\ NoDup (fst <$> m_globs (foldl slt_step d ops)).
Proof.
  revert d. induction ops as [| o ops IH]; intros d Hd.
  { unfold survivors. simpl. rewrite app_nil_r. split; [| done]. symmetry. by apply forallb_filter_id, forallb_forall. }
  simpl. assert (Hd' : NoDup (fst <$> m_globs (slt_step d o))).
  { destruct o as [u s|u s|u|u]; simpl; try done; destruct (erase_nodup (m_globs d) u Hd) as [H1 H2]; [| done].
    rewrite fmap_app. apply NoDup_app. split_and!; [done | | apply NoDup_singleton]. intros x Hx ->%list_elem_of_singleton. done. }
  destruct (IH _ Hd') as [-> ?]. split; [| done]. unfold survivors. destruct o as [u s|u s|u|u]; simpl; try done.
  - rewrite erase_filter, List.filter_app, filter_filter, <- app_assoc by done. f_equal.
    + apply filter_ext. intros e. by rewrite negb_orb.
    + simpl. by destruct (existsb (touches u) ops).
  - rewrite erase_filter, filter_filter by done. f_equal. apply filter_ext. intros e. by rewrite negb_orb.
Qed.

Lemma default_run ops d : m_default (foldl slt_step d ops) = m_default d.
Proof. revert d. induction ops as [| o ops IH]; intros d; [done |]. simpl. rewrite IH. by destruct o. Qed.

(** The dispatcher serves the servlet that the registrations determine.
    After any sequence of [addServlet], [addGlobServlet], [delServlet] and
    [delGlobServlet] on a new [ServletDispatch], an address goes to the
    servlet last registered for it exactly and not removed since; failing
    that, to the first pattern that [fnmatch] accepts among those still
    registered, taken in the order of their last registration; failing that,
    to the 404 servlet. *)
Theorem dispatch_follows_registrations fnmatch (ops : list slt_op) uri :
  let d := foldl slt_step new_ServletDispatch ops in
  getServlet d uri = exact_of ops uri None
  /\ getMatchedServlet fnmatch d uri =
     match exact_of ops uri None with
     | Some s => s
     | None => match List.find (fun e => fnmatch e.1 uri) (globs_of ops) with
               | Some e => e.2
               | None => NotFoundServlet "ServletDispatch"
               end
     end.
Proof.
  intros d. assert (Ex : m_datas d !! uri = exact_of ops uri None) by apply exact_run.
  split; [exact Ex |]. unfold getMatchedServlet. rewrite Ex.
  assert (Eg : m_globs d = globs_of ops) by (apply (proj1 (globs_run ops new_ServletDispatch NoDup_nil_2))).
  rewrite Eg. subst d. by rewrite (default_run ops new_ServletDispatch).
Qed.

(** ** Receiving a request *)

(** The callbacks leave the body, the close flag and an error alone. *)
Lemma on_event_keeps A (p p' : HttpRequestParser A) e :
  on_event A p e = Ok p' ->
  m_body (m_data A p') = m_body (m_data A p) /\ m_close (m_data A p') = m_close (m_data A p)
  /\ (m_error A p <> 0 -> m_error A p' <> 0).
Proof.
  destruct e; simpl; unfold on_request_method, on_request_version, on_request_http_field;
    intros H; repeat (apply bind_Ok_inv in H as (? & _ & H)); repeat case_match; simplify_eq; try done;
    repeat (apply bind_Ok_inv in H as (? & _ & H)); by simplify_eq.
Qed.

Lemma on_events_keeps A evs (p p' : HttpRequestParser A) :
  on_events A p evs = Ok p' ->
  m_body (m_data A p') = m_body (m_data A p) /\ m_close (m_data A p') = m_close (m_data A p)
  /\ (m_error A p <> 0 -> m_error A p' <> 0).
Proof.
  revert p. induction evs as [| e evs IH]; intros p; simpl; [by intros [= <-] |].
  intros (p1 & H1%on_event_keeps & (H2 & H3 & H4)%IH)%bind_Ok_inv. destruct H1 as (H1 & H1' & H1'').
  rewrite H2, H3. auto.
Qed.

Lemma execute_keeps A (p p' : HttpRequestParser A) data n rest :
  execute A p data = Ok (p', n, rest) ->
  m_body (m_data A p') = m_body (m_data A p) /\ m_close (m_data A p') = m_close (m_data A p) /\ rest = str_drop n data.
Proof.
  unfold execute. intros ([[a k] evs] & _ & (q & H%on_events_keeps & [= <- <- <-])%bind_Ok_inv)%bind_Ok_inv.
  destruct H as (-> & -> & _). done.
Qed.

(** A stream that ends before the buffer is full gives 0. *)
Lemma readFixSize_short fuel n len offset left stored :
  good_net n -> 0 <= offset -> offset + left < 2 ^ 63 -> (String.length (flat n) < Z.to_nat left)%nat ->
  (Z.to_nat left <= fuel)%nat ->
  exists stored' n', readFixSize_loop fuel n len offset left stored = Ok (0, stored', n').
Proof.
  revert n offset left stored. induction fuel as [| fuel IH]; intros n offset left stored Hg Ho Hb Hlen Hf; [lia |].
  simpl. destruct (Z.eqb_spec left 0) as [->|Hne]; [simpl in *; lia |].
  destruct (decide (flat n = ""%string)) as [E|E].
  { rewrite (good_net_empty n Hg E). simpl. by eexists _, _. }
  destruct (read_good n (Z.to_nat left) Hg ltac:(lia) E) as (b & n1 & -> & Hbl & Hg1 & Hfl).
  rewrite Hfl, length_str_app in Hlen.
  assert (Hu : u64 (Z.of_nat (String.length b)) = Z.of_nat (String.length b)) by (apply wrap_small; unfold in_unsigned; lia).
  rewrite Hu. destruct (Z.eqb_spec (Z.of_nat (String.length b)) 0); [lia |].
  rewrite (wrap_small 64 (offset + _)), (wrap_small 64 (left - _)) by (unfold in_unsigned; lia).
  apply IH; try done; lia.
Qed.

Lemma i32_small v : 0 <= v < 2 ^ 31 -> i32 v = v.
Proof. intros. apply to_signed_small; [lia |]. unfold in_signed. lia. Qed.

(** The body, from what is in the buffer and what is on the wire. *)
Lemma recv_body_spec fuel L data n :
  good_net n -> 0 <= L < 2 ^ 31 -> (Z.to_nat L <= fuel)%nat ->
  if (Z.to_nat L <=? String.length (data ++ flat n))%nat
  then exists n', recv_body fuel L data n = Ok (Some (str_take (Z.to_nat L) (data ++ flat n)), n')
         /\ good_net n' /\ flat n' = str_drop (Z.to_nat L - String.length data) (flat n)
  else exists n', recv_body fuel L data n = Ok (None, n').
Proof.
  intros Hg HL Hf. unfold recv_body. rewrite length_str_app. set (k := String.length data).
  destruct (Z.ltb_spec 0 (L - Z.of_nat k)) as [Hlt|Hge].
  - destruct (Z.leb_spec (Z.of_nat k) L); [| lia]. replace (Z.to_nat L - k)%nat with (Z.to_nat (L - Z.of_nat k)) by lia.
    destruct (Nat.leb_spec (Z.to_nat L) (k + String.length (flat n))).
    + destruct (readFixSize_good fuel n (L - Z.of_nat k) 0 (L - Z.of_nat k) []) as (st & n' & E & Hc & Hg' & Hf'); try done; try lia.
      exists n'. unfold readFixSize. rewrite E. simpl. rewrite i32_small by lia.
      destruct (Z.leb_spec (L - Z.of_nat k) 0); [lia |]. rewrite Hc. split; [| done]. simpl. do 3 f_equal.
      rewrite str_take_app, (str_take_ge (Z.to_nat L) data) by (unfold k in *; lia). do 2 f_equal. unfold k in *. lia.
    + destruct (readFixSize_short fuel n (L - Z.of_nat k) 0 (L - Z.of_nat k) []) as (st & n' & E); try done; try lia.
      exists n'. unfold readFixSize. rewrite E. done.
  - destruct (Nat.leb_spec (Z.to_nat L) (k + String.length (flat n))); [| lia]. exists n.
    rewrite str_take_app. replace (Z.to_nat L - String.length data)%nat with 0%nat by (unfold k in *; lia).
    replace (Z.to_nat L - k)%nat with 0%nat by lia. simpl. rewrite str_app_nil. split; [| by destruct (flat n)].
    destruct (Z.leb_spec (Z.of_nat k) L) as [Hle|]; [| done]. rewrite str_take_ge by (unfold k in *; lia). done.
Qed.

Section receive.
Context (A : automaton) (lexical_cast : string -> option Z) (buffer_size : nat).

(** The header arrives in segments, all consumed by the parser until, in the
    last one, it is complete with [extra] left over. *)
Inductive head_run (p : HttpRequestParser A) : list string -> string -> HttpRequestParser A -> Prop :=
  | head_last seg n extra p' :
      execute A p seg = Ok (p', n, extra) -> seg <> ""%string -> (0 < n)%nat -> (String.length seg <= buffer_size)%nat ->
      hasError A p' = false -> isFinished A p' = true -> head_run p [seg] extra p'
  | head_more seg segs p1 extra p' :
      execute A p seg = Ok (p1, String.length seg, ""%string) -> seg <> ""%string -> (String.length seg <= buffer_size)%nat ->
      hasError A p1 = false -> isFinished A p1 = false -> head_run p1 segs extra p' -> head_run p (seg :: segs) extra p'.

Lemma read_segment seg n : (String.length seg <= buffer_size)%nat ->
  read (Data seg :: n) (buffer_size - String.length "") = (Z.of_nat (String.length seg), seg, n).
Proof. intros H. simpl. rewrite Nat.sub_0_r. by destruct (Nat.leb_spec (String.length seg) buffer_size); [| lia]. Qed.

Lemma recv_head_run p segs extra p' rest fuel :
  head_run p segs extra p' -> (length segs <= fuel)%nat ->
  recv_head A fuel buffer_size p "" ((Data <$> segs) ++ rest) = Ok (inl (p', extra), rest)
  /\ m_body (m_data A p') = m_body (m_data A p).
Proof.
  intros H. revert fuel. induction H as [p seg n extra p' E Hne Hn Hlen He Hfin|p seg segs p1 extra p' E Hne Hlen He Hfin Hrun IH];
    intros fuel Hfuel; (destruct fuel as [| fuel]; [simpl in Hfuel; lia |]);
    apply str_nonempty in Hne; destruct (execute_keeps A _ _ _ _ _ E) as (Hb & _ & Hx);
    rewrite fmap_cons; cbn [recv_head app]; rewrite read_segment by done;
    (destruct (Z.leb_spec (Z.of_nat (String.length seg)) 0); [lia |]); cbn [String.append]; rewrite E; cbn [mbind outcome_bind]; rewrite He, Hfin.
  - split; [| done]. destruct (Nat.eqb_spec (String.length extra) buffer_size) as [Hl|]; [| done].
    rewrite Hx, length_str_drop in Hl. lia.
  - cbn [String.length]. destruct (Nat.eqb_spec 0 buffer_size); [lia |].
    destruct (IH fuel) as [-> ->]; [simpl in Hfuel; lia |]. done.
Qed.

(** [HttpSession::recvRequest] returns exactly the request that was sent.
    When the header arrives in segments that the parser accepts and says a
    content length of [L] bytes, the request returned carries as its body the
    [L] bytes after the header, wherever the network cut the rest of the
    stream and whatever part of it came with the header, and the stream is
    left after the body (bytes that came with the header and are past the body
    are dropped); when the peer closes early, no request is returned and the
    session is closed. The model needs no more steps than [L] and the number
    of header segments. *)
Lemma recv_request_run fuel segs extra p' rest :
  let L := getContentLength A lexical_cast p' in
  let wire := (extra ++ flat rest)%string in
  head_run (new_HttpRequestParser A 0) segs extra p' -> good_net rest -> 0 <= L < 2 ^ 31 ->
  (length segs <= fuel)%nat -> (Z.to_nat L <= fuel)%nat ->
  exists n', recvRequest A lexical_cast fuel 0 buffer_size ((Data <$> segs) ++ rest)
    = Ok (if (Z.to_nat L <=? String.length wire)%nat
          then Request (setBody (m_data A p') (str_take (Z.to_nat L) wire)) else Nothing true, n')
  /\ ((Z.to_nat L <= String.length wire)%nat -> flat n' = str_drop (Z.to_nat L - String.length extra) (flat rest)).
Proof.
  intros L wire Hrun Hg HL Hs Hf. unfold recvRequest.
  destruct (recv_head_run _ _ _ _ rest fuel Hrun Hs) as [-> Hb]. cbn [mbind outcome_bind].
  change (getContentLength A lexical_cast p') with L.
  assert (E64 : i64 L = L) by (apply to_signed_small; [lia | unfold in_signed; lia]). rewrite E64.
  pose proof (recv_body_spec fuel L extra rest Hg HL Hf) as Hbody. fold wire in Hbody.
  destruct (Z.ltb_spec 0 L) as [Hpos|Hz].
  - destruct (Nat.leb_spec (Z.to_nat L) (String.length wire)).
    + destruct Hbody as (n' & -> & _ & Hfl). by exists n'.
    + destruct Hbody as (n' & ->). exists n'. split; [done | lia].
  - assert (HL0 : L = 0) by lia. clearbody L. subst L. exists rest. split; [| by destruct (flat rest)].
    change (str_take (Z.to_nat 0) wire) with ""%string. simpl in Hb |- *. destruct (m_data A p'). simpl in Hb. by rewrite Hb.
Qed.

End receive.

(** ** Serving a connection *)

Lemma recv_head_close A fuel bs p data n r n' :
  m_close (m_data A p) = true -> recv_head A fuel bs p data n = Ok (inl r, n') -> m_close (m_data A r.1) = true.
Proof.
  revert p data n. induction fuel as [| fuel IH]; intros p data n Hp; [done |]. cbn [recv_head].
  destruct (read n (bs - String.length data)) as [[len bytes] n1]. destruct (len <=? 0); [done |].
  intros ([[p1 k] data1] & (_ & Ec & _)%execute_keeps & H)%bind_Ok_inv. revert H.
  destruct (hasError A p1); [done |]. destruct (_ =? _)%nat; [done |].
  destruct (isFinished A p1); [| apply IH; by rewrite Ec]. intros [= <- <-]. simpl. by rewrite Ec.
Qed.

Lemma recvRequest_close A cast fuel g bs n req n' :
  recvRequest A cast fuel g bs n = Ok (Request req, n') -> m_close req = true.
Proof.
  unfold recvRequest. intros ([h n1] & Eh & H)%bind_Ok_inv. destruct h as [[p data]|c]; [| done].
  apply recv_head_close in Eh as Hc; [| done]. simpl in Hc. destruct (0 <? _).
  - apply bind_Ok_inv in H as ([[b|] n2] & _ & H); [| done]. by injection H as <- <-.
  - by injection H as <- <-.
Qed.

(** [HttpServer::handleClient] answers one request per connection. The
    close flag of a request is never set from its headers, so that it keeps
    the constructor's [true]: whatever the configuration says of keep-alive,
    the loop receives one request, sends the response the dispatcher fills in
    for it, created with the [close] flag set, and leaves; and it sends
    nothing when no request is received. *)
Theorem one_response_per_connection fnmatch A cast fuel d keepalive name g ws bs n :
  handleClient fnmatch A cast (S fuel) d keepalive name g ws bs n
  = ('(r, n') ← recvRequest A cast (S fuel) g bs n;
     Ok (match r with
         | Nothing _ => []
         | Request req =>
             [dump_response (handle fnmatch d req (rsp_setHeader (new_HttpResponse ws (m_version req) true) "Server" name))]
         end, n')).
Proof.
  cbn [handleClient]. destruct (recvRequest A cast (S fuel) g bs n) as [[[req|c] n']|f] eqn:E; [| done | done].
  cbn [mbind outcome_bind]. rewrite (recvRequest_close _ _ _ _ _ _ _ _ E). by rewrite orb_true_r.
Qed.

(** ** What goes wrong *)

(** An error of [recv] is not noticed: [readFixSize] keeps its [-1] in a
    [size_t], goes on with the offset one before the buffer and one more byte
    to read, and reports success. *)
Theorem readFixSize_error_ignored len b :
  0 < len < 2 ^ 31 -> String.length b = Z.to_nat (len + 1) ->
  readFixSize 2 [Error; Data b] len = Ok (len, [(0, ""%string); (UINT64_MAX, b)], []).
Proof.
  intros Hl Hb. unfold readFixSize. cbn [readFixSize_loop read]. destruct (Z.eqb_spec len 0); [lia |].
  change (u64 (-1)) with UINT64_MAX. change (UINT64_MAX =? 0) with false. cbn [app].
  change (u64 (0 + UINT64_MAX)) with UINT64_MAX.
  assert (El : u64 (len - UINT64_MAX) = len + 1).
  { unfold u64, wrap, UINT64_MAX. replace (len - (2 ^ 64 - 1)) with (len + 1 + (-1) * 2 ^ 64) by lia.
    rewrite Z_mod_plus_full. apply Z.mod_small. lia. }
  rewrite El. destruct (Z.eqb_spec (len + 1) 0); [lia |]. rewrite Hb, Nat.leb_refl, Z2Nat.id by lia.
  unfold u64. rewrite (wrap_small 64 (len + 1)) by (unfold in_unsigned; lia). destruct (Z.eqb_spec (len + 1) 0); [lia |].
  rewrite Z.sub_diag. cbn. by rewrite i32_small by lia.
Qed.

(** The callbacks succeed whatever the error flag is. *)
Lemma on_events_any_error A evs : forall a d e e' p, on_events A (mkParser A a d e) evs = Ok p -> exists p', on_events A (mkParser A a d e') evs = Ok p'.
Proof.
  induction evs as [| ev evs IH]; intros a d e e' p; cbn [on_events]; [intros _; by eexists |].
  assert (Hev : forall q, on_event A (mkParser A a d e) ev = Ok q ->
    exists a1 d1 e1 e2, q = mkParser A a1 d1 e1 /\ on_event A (mkParser A a d e') ev = Ok (mkParser A a1 d1 e2)).
  { intros q. destruct ev; simpl; unfold on_request_method, on_request_version, on_request_http_field; simpl;
      intros H; repeat (apply bind_Ok_inv in H as (? & -> & H)); repeat case_match; simplify_eq; simpl;
      repeat (apply bind_Ok_inv in H as (? & -> & H)); simplify_eq; simpl; eexists _, _, _, _; split; reflexivity. }
  intros (q & Hq & H)%bind_Ok_inv. destruct (Hev q Hq) as (a1 & d1 & e1 & e2 & -> & ->). cbn [mbind outcome_bind]. by apply (IH _ _ e1 e2 p).
Qed.

(** The error flag is never initialised: when the memory held anything but
    zero, the first segment is refused whatever it says. *)
Theorem uninitialised_error_refuses A cast fuel g bs b n :
  g <> 0 -> b <> ""%string -> (String.length b <= bs)%nat ->
  (exists r, execute A (new_HttpRequestParser A g) b = Ok r) ->
  recvRequest A cast (S fuel) g bs (Data b :: n) = Ok (Nothing true, n).
Proof.
  intros Hg Hb Hl [[[p k] rest] E]. unfold recvRequest. cbn [recv_head]. rewrite read_segment by done. apply str_nonempty in Hb.
  destruct (Z.leb_spec (Z.of_nat (String.length b)) 0); [lia |]. cbn [String.append]. rewrite E. cbn [mbind outcome_bind].
  unfold execute in E. apply bind_Ok_inv in E as ([[a k'] evs] & _ & (q & (_ & _ & He)%on_events_keeps & [= <- <- <-])%bind_Ok_inv).
  unfold hasError. by rewrite (proj2 (Z.eqb_neq _ _) (He Hg)).
Qed.
