(* ===== verification/Http11Table.v ===== *)
(** The state machine of http/http11_parser.rl.cc, block by block in the order
    of the file; each definition is named after its first line there. *)

From stdpp Require Import strings.
From S2P Require Import Prelude Ragel.

Module H11.

Import Rg.
Local Open Scope Z_scope.
Local Open Scope ragel_scope.

(** The actions of the grammar in http11_parser.rl; [done] leaves the machine
    with the given state. *)
Inductive action :=
  | mark | start_field | write_field | start_value | write_value | request_method | request_uri | fragment
  | start_query | query_string | http_version | request_path | done (cs : N) | xml | json.

#[global] Instance action_eq_dec : EqDecision action.
Proof. solve_decision. Defined.

Definition http_L117 : list (block action) := [
  Case 1 [] [60 ~> Tr 2; 64 ~> Tr 3; 65 to 90 ~> Tr 0; 48 to 57 ~> Tr 0] (St 0);
  St0;
  Label 0 [mark] 2;
  Case 2 [] [32 ~> Tr 4; 65 to 90 ~> St 175; 48 to 57 ~> St 175] (St 0);
  Label 4 [request_method] 3;
  Case 3 [(94, 94); (125, 125); (123, 123)] [32 ~> Tr 6; 33 ~> Tr 7; 35 ~> Tr 8; 37 ~> Tr 9; 47 ~> Tr 10; 59 ~> Tr 7; 61 ~> Tr 7; 63 ~> Tr 11;
    64 ~> Tr 7; 95 ~> Tr 7; 126 ~> Tr 7; 606 ~> Tr 7; 635 ~> Tr 7; 637 ~> Tr 7; 36 to 57 ~> Tr 7; 97 to 122 ~> Tr 12; 65 to 90 ~> Tr 12] (St 0);
  Label 6 [mark; request_path; request_uri] 4;
  Label 37 [request_path; request_uri] 4;
  Label 44 [mark; fragment] 4;
  Label 47 [fragment] 4;
  Label 54 [start_query; query_string; request_uri] 4].

Definition http_L262 : list (block action) := [
  Label 58 [query_string; request_uri] 4;
  Case 4 [] [72 ~> Tr 13] (St 0);
  Label 13 [mark] 5;
  Case 5 [] [84 ~> St 6] (St 0);
  Case 6 [] [84 ~> St 7] (St 0);
  Case 7 [] [80 ~> St 8] (St 0);
  Case 8 [] [47 ~> St 9] (St 0);
  Case 9 [] [49 ~> St 10] (St 0);
  Case 10 [] [46 ~> St 11] (St 0);
  Case 11 [] [48 to 49 ~> St 12] (St 0);
  Case 12 [] [10 ~> Tr 21; 13 ~> Tr 22] (St 0);
  Label 21 [http_version] 13;
  Label 30 [start_value; write_value] 13;
  Label 33 [write_value] 13;
  Case 13 [] [10 ~> Tr 24; 13 ~> Tr 25; 33 ~> Tr 23; 124 ~> Tr 23; 126 ~> Tr 23; 1 to 8 ~> Tr 23; 35 to 39 ~> Tr 23; 11 to 31 ~> Tr 23;
    45 to 46 ~> Tr 23; 94 to 122 ~> Tr 23; 65 to 90 ~> Tr 23; 48 to 57 ~> Tr 23; 42 to 43 ~> Tr 23] (St 0);
  Label 23 [start_field] 14].

Definition http_L410 : list (block action) := [
  Case 14 [] [33 ~> St 14; 58 ~> Tr 27; 124 ~> St 14; 126 ~> St 14; 1 to 8 ~> St 14; 35 to 39 ~> St 14; 10 to 31 ~> St 14; 45 to 46 ~> St 14;
    94 to 122 ~> St 14; 65 to 90 ~> St 14; 48 to 57 ~> St 14; 42 to 43 ~> St 14] (St 0);
  Label 27 [write_field] 15;
  Label 29 [start_value] 15;
  Case 15 [] [0 ~> St 0; 9 ~> Tr 29; 10 ~> Tr 30; 13 ~> Tr 31; 32 ~> Tr 29; 127 ~> St 0] (Tr 28);
  Label 28 [start_value] 16;
  Case 16 [] [0 ~> St 0; 10 ~> Tr 33; 13 ~> Tr 34; 127 ~> St 0] (St 16);
  Label 22 [http_version] 17;
  Label 31 [start_value; write_value] 17;
  Label 34 [write_value] 17;
  Case 17 [] [10 ~> St 13] (St 0);
  Label 24 [start_field; done 348] 348;
  Label 36 [done 348] 348].

Definition http_L554 : list (block action) := [
  Case 348 [] [33 ~> St 14; 58 ~> Tr 27; 124 ~> St 14; 126 ~> St 14; 1 to 8 ~> St 14; 35 to 39 ~> St 14; 10 to 31 ~> St 14; 45 to 46 ~> St 14;
    94 to 122 ~> St 14; 65 to 90 ~> St 14; 48 to 57 ~> St 14; 42 to 43 ~> St 14] (St 0);
  Label 25 [start_field] 18;
  Case 18 [] [10 ~> Tr 36; 33 ~> St 14; 58 ~> Tr 27; 124 ~> St 14; 126 ~> St 14; 1 to 8 ~> St 14; 35 to 39 ~> St 14; 11 to 31 ~> St 14;
    45 to 46 ~> St 14; 94 to 122 ~> St 14; 65 to 90 ~> St 14; 48 to 57 ~> St 14; 42 to 43 ~> St 14] (St 0);
  Label 7 [mark] 19;
  Case 19 [(94, 94); (125, 125); (123, 123)] [32 ~> Tr 37; 33 ~> St 19; 35 ~> Tr 39; 37 ~> St 24; 47 ~> St 26; 59 ~> St 19; 61 ~> St 19; 63 ~> Tr 42;
    95 ~> St 19; 126 ~> St 19; 606 ~> St 19; 635 ~> St 19; 637 ~> St 19; 36 to 57 ~> St 19; 97 to 122 ~> St 19; 64 to 90 ~> St 19] (St 0);
  Label 8 [mark; request_path; request_uri] 20].

Definition http_L697 : list (block action) := [
  Label 39 [request_path; request_uri] 20;
  Label 55 [start_query; query_string; request_uri] 20;
  Label 59 [query_string; request_uri] 20;
  Case 20 [(94, 94); (125, 125); (123, 123)] [32 ~> Tr 44; 33 ~> Tr 43; 37 ~> Tr 45; 61 ~> Tr 43; 95 ~> Tr 43; 126 ~> Tr 43; 606 ~> Tr 43; 635 ~> Tr 43;
    637 ~> Tr 43; -128 to -1 ~> Tr 43; 97 to 122 ~> Tr 43; 63 to 90 ~> Tr 43; 36 to 59 ~> Tr 43] (St 0);
  Label 43 [mark] 21;
  Case 21 [(94, 94); (125, 125); (123, 123)] [32 ~> Tr 47; 33 ~> St 21; 37 ~> St 22; 61 ~> St 21; 95 ~> St 21; 126 ~> St 21; 606 ~> St 21; 635 ~> St 21;
    637 ~> St 21; -128 to -1 ~> St 21; 97 to 122 ~> St 21; 63 to 90 ~> St 21; 36 to 59 ~> St 21] (St 0);
  Label 45 [mark] 22].

Definition http_L841 : list (block action) := [
  Case 22 [] [48 to 57 ~> St 23; 97 to 102 ~> St 23; 65 to 70 ~> St 23] (St 0);
  Case 23 [] [48 to 57 ~> St 21; 97 to 102 ~> St 21; 65 to 70 ~> St 21] (St 0);
  Label 9 [mark] 24;
  Case 24 [] [48 to 57 ~> St 25; 97 to 102 ~> St 25; 65 to 70 ~> St 25] (St 0);
  Case 25 [] [48 to 57 ~> St 19; 97 to 102 ~> St 19; 65 to 70 ~> St 19] (St 0);
  Label 203 [mark] 26;
  Case 26 [(94, 94); (125, 125); (123, 123)] [32 ~> Tr 37; 33 ~> St 26; 35 ~> Tr 39; 37 ~> St 27; 61 ~> St 26; 63 ~> Tr 42; 95 ~> St 26; 126 ~> St 26;
    606 ~> St 26; 635 ~> St 26; 637 ~> St 26; -128 to -1 ~> St 26; 97 to 122 ~> St 26; 64 to 90 ~> St 26; 36 to 59 ~> St 26] (St 0);
  Label 204 [mark] 27;
  Case 27 [] [48 to 57 ~> St 28; 97 to 102 ~> St 28; 65 to 70 ~> St 28] (St 0);
  Case 28 [] [48 to 57 ~> St 26; 97 to 102 ~> St 26; 65 to 70 ~> St 26] (St 0)].

Definition http_L985 : list (block action) := [
  Label 11 [mark; request_path] 29;
  Label 42 [request_path] 29;
  Case 29 [(94, 94); (125, 125); (123, 123)] [32 ~> Tr 54; 33 ~> Tr 53; 35 ~> Tr 55; 37 ~> Tr 56; 61 ~> Tr 53; 95 ~> Tr 53; 126 ~> Tr 53; 606 ~> Tr 53;
    635 ~> Tr 53; 637 ~> Tr 53; -128 to -1 ~> Tr 53; 97 to 122 ~> Tr 53; 63 to 90 ~> Tr 53; 36 to 59 ~> Tr 53] (St 0);
  Label 53 [start_query] 30;
  Case 30 [(94, 94); (125, 125); (123, 123)] [32 ~> Tr 58; 33 ~> St 30; 35 ~> Tr 59; 37 ~> St 31; 61 ~> St 30; 95 ~> St 30; 126 ~> St 30; 606 ~> St 30;
    635 ~> St 30; 637 ~> St 30; -128 to -1 ~> St 30; 97 to 122 ~> St 30; 63 to 90 ~> St 30; 36 to 59 ~> St 30] (St 0);
  Label 56 [start_query] 31;
  Case 31 [] [48 to 57 ~> St 32; 97 to 102 ~> St 32; 65 to 70 ~> St 32] (St 0)].

Definition http_L1123 : list (block action) := [
  Case 32 [] [48 to 57 ~> St 30; 97 to 102 ~> St 30; 65 to 70 ~> St 30] (St 0);
  Label 10 [mark] 33;
  Case 33 [(94, 94); (125, 125); (123, 123)] [32 ~> Tr 37; 33 ~> St 26; 35 ~> Tr 39; 37 ~> St 27; 47 ~> St 34; 61 ~> St 26; 63 ~> Tr 42; 95 ~> St 26;
    126 ~> St 26; 606 ~> St 26; 635 ~> St 26; 637 ~> St 26; -128 to -1 ~> St 26; 97 to 122 ~> St 26; 64 to 90 ~> St 26; 36 to 59 ~> St 26] (St 0);
  Case 34 [(94, 94); (125, 125); (123, 123)] [32 ~> Tr 37; 33 ~> St 35; 35 ~> Tr 39; 37 ~> St 36; 47 ~> St 26; 58 ~> St 38; 61 ~> St 35; 63 ~> Tr 42;
    64 ~> St 42; 91 ~> St 47; 95 ~> St 35; 126 ~> St 35; 606 ~> St 35; 635 ~> St 35; 637 ~> St 35; 36 to 59 ~> St 35; 97 to 122 ~> St 35;
    65 to 90 ~> St 35] (St 0)].

Definition http_L1243 : list (block action) := [
  Case 35 [(94, 94); (125, 125); (123, 123)] [32 ~> Tr 37; 33 ~> St 35; 35 ~> Tr 39; 37 ~> St 36; 47 ~> St 26; 58 ~> St 38; 61 ~> St 35; 63 ~> Tr 42;
    64 ~> St 42; 95 ~> St 35; 126 ~> St 35; 606 ~> St 35; 635 ~> St 35; 637 ~> St 35; 36 to 59 ~> St 35; 97 to 122 ~> St 35; 65 to 90 ~> St 35] (St 0);
  Case 36 [] [48 to 57 ~> St 37; 97 to 102 ~> St 37; 65 to 70 ~> St 37] (St 0);
  Case 37 [] [48 to 57 ~> St 35; 97 to 102 ~> St 35; 65 to 70 ~> St 35] (St 0);
  Case 38 [(94, 94); (125, 125); (123, 123)] [32 ~> Tr 37; 33 ~> St 39; 35 ~> Tr 39; 37 ~> St 40; 47 ~> St 26; 61 ~> St 39; 63 ~> Tr 42; 64 ~> St 42;
    95 ~> St 39; 126 ~> St 39; 606 ~> St 39; 635 ~> St 39; 637 ~> St 39; 48 to 57 ~> St 38; 36 to 46 ~> St 39; 97 to 122 ~> St 39; 65 to 90 ~> St 39;
    58 to 59 ~> St 39] (St 0)].

Definition http_L1374 : list (block action) := [
  Case 39 [(94, 94); (125, 125); (123, 123)] [33 ~> St 39; 37 ~> St 40; 61 ~> St 39; 64 ~> St 42; 95 ~> St 39; 126 ~> St 39; 606 ~> St 39; 635 ~> St 39;
    637 ~> St 39; 36 to 46 ~> St 39; 97 to 122 ~> St 39; 65 to 90 ~> St 39; 48 to 59 ~> St 39] (St 0);
  Case 40 [] [48 to 57 ~> St 41; 97 to 102 ~> St 41; 65 to 70 ~> St 41] (St 0);
  Case 41 [] [48 to 57 ~> St 39; 97 to 102 ~> St 39; 65 to 70 ~> St 39] (St 0);
  Case 42 [(94, 94); (125, 125); (123, 123)] [32 ~> Tr 37; 33 ~> St 43; 35 ~> Tr 39; 37 ~> St 44; 47 ~> St 26; 58 ~> St 46; 61 ~> St 43; 63 ~> Tr 42;
    91 ~> St 47; 95 ~> St 43; 126 ~> St 43; 606 ~> St 43; 635 ~> St 43; 637 ~> St 43; 36 to 59 ~> St 43; 97 to 122 ~> St 43; 65 to 90 ~> St 43] (St 0)].

Definition http_L1498 : list (block action) := [
  Case 43 [(94, 94); (125, 125); (123, 123)] [32 ~> Tr 37; 33 ~> St 43; 35 ~> Tr 39; 37 ~> St 44; 47 ~> St 26; 58 ~> St 46; 61 ~> St 43; 63 ~> Tr 42;
    95 ~> St 43; 126 ~> St 43; 606 ~> St 43; 635 ~> St 43; 637 ~> St 43; 36 to 59 ~> St 43; 97 to 122 ~> St 43; 65 to 90 ~> St 43] (St 0);
  Case 44 [] [48 to 57 ~> St 45; 97 to 102 ~> St 45; 65 to 70 ~> St 45] (St 0);
  Case 45 [] [48 to 57 ~> St 43; 97 to 102 ~> St 43; 65 to 70 ~> St 43] (St 0);
  Case 46 [] [32 ~> Tr 37; 35 ~> Tr 39; 47 ~> St 26; 63 ~> Tr 42; 48 to 57 ~> St 46] (St 0);
  Case 47 [] [6 ~> St 48; 58 ~> St 167; 118 ~> St 169; 48 to 57 ~> St 91; 97 to 102 ~> St 91; 65 to 70 ~> St 91] (St 0);
  Case 48 [] [48 to 57 ~> St 49; 97 to 102 ~> St 49; 65 to 70 ~> St 49] (St 0);
  Case 49 [] [58 ~> St 53; 48 to 57 ~> St 50; 97 to 102 ~> St 50; 65 to 70 ~> St 50] (St 0);
  Case 50 [] [58 ~> St 53; 48 to 57 ~> St 51; 97 to 102 ~> St 51; 65 to 70 ~> St 51] (St 0)].

Definition http_L1647 : list (block action) := [
  Case 51 [] [58 ~> St 53; 48 to 57 ~> St 52; 97 to 102 ~> St 52; 65 to 70 ~> St 52] (St 0);
  Case 52 [] [58 ~> St 53] (St 0);
  Case 53 [] [49 ~> St 84; 50 ~> St 87; 48 to 57 ~> St 54; 97 to 102 ~> St 90; 65 to 70 ~> St 90] (St 0);
  Case 54 [] [46 ~> St 55; 58 ~> St 80; 48 to 57 ~> St 77; 97 to 102 ~> St 77; 65 to 70 ~> St 77] (St 0);
  Case 55 [] [49 ~> St 72; 50 ~> St 74; 48 to 57 ~> St 56] (St 0);
  Case 56 [] [46 ~> St 57] (St 0);
  Case 57 [] [49 ~> St 67; 50 ~> St 69; 48 to 57 ~> St 58] (St 0);
  Case 58 [] [46 ~> St 59] (St 0);
  Case 59 [] [49 ~> St 62; 50 ~> St 64; 48 to 57 ~> St 60] (St 0);
  Case 60 [] [93 ~> St 61] (St 0);
  Case 61 [] [32 ~> Tr 37; 35 ~> Tr 39; 47 ~> St 26; 58 ~> St 46; 63 ~> Tr 42] (St 0);
  Case 62 [] [93 ~> St 61; 48 to 57 ~> St 63] (St 0);
  Case 63 [] [93 ~> St 61; 48 to 57 ~> St 60] (St 0);
  Case 64 [] [48 ~> St 65; 53 ~> St 66; 93 ~> St 61] (St 0)].

Definition http_L1797 : list (block action) := [
  Case 65 [] [48 to 57 ~> St 60] (St 0);
  Case 66 [] [48 ~> St 60] (St 0);
  Case 67 [] [46 ~> St 59; 48 to 57 ~> St 68] (St 0);
  Case 68 [] [46 ~> St 59; 48 to 57 ~> St 58] (St 0);
  Case 69 [] [46 ~> St 59; 48 ~> St 70; 53 ~> St 71] (St 0);
  Case 70 [] [48 to 57 ~> St 58] (St 0);
  Case 71 [] [48 ~> St 58] (St 0);
  Case 72 [] [46 ~> St 57; 48 to 57 ~> St 73] (St 0);
  Case 73 [] [46 ~> St 57; 48 to 57 ~> St 56] (St 0);
  Case 74 [] [46 ~> St 57; 48 ~> St 75; 53 ~> St 76] (St 0);
  Case 75 [] [48 to 57 ~> St 56] (St 0);
  Case 76 [] [48 ~> St 56] (St 0);
  Case 77 [] [58 ~> St 80; 48 to 57 ~> St 78; 97 to 102 ~> St 78; 65 to 70 ~> St 78] (St 0);
  Case 78 [] [58 ~> St 80; 48 to 57 ~> St 79; 97 to 102 ~> St 79; 65 to 70 ~> St 79] (St 0);
  Case 79 [] [58 ~> St 80] (St 0);
  Case 80 [] [48 to 57 ~> St 81; 97 to 102 ~> St 81; 65 to 70 ~> St 81] (St 0)].

Definition http_L1945 : list (block action) := [
  Case 81 [] [93 ~> St 61; 48 to 57 ~> St 82; 97 to 102 ~> St 82; 65 to 70 ~> St 82] (St 0);
  Case 82 [] [93 ~> St 61; 48 to 57 ~> St 83; 97 to 102 ~> St 83; 65 to 70 ~> St 83] (St 0);
  Case 83 [] [93 ~> St 61; 48 to 57 ~> St 60; 97 to 102 ~> St 60; 65 to 70 ~> St 60] (St 0);
  Case 84 [] [46 ~> St 55; 58 ~> St 80; 48 to 57 ~> St 85; 97 to 102 ~> St 77; 65 to 70 ~> St 77] (St 0);
  Case 85 [] [46 ~> St 55; 58 ~> St 80; 48 to 57 ~> St 86; 97 to 102 ~> St 78; 65 to 70 ~> St 78] (St 0);
  Case 86 [] [46 ~> St 55; 58 ~> St 80; 48 to 57 ~> St 79; 97 to 102 ~> St 79; 65 to 70 ~> St 79] (St 0);
  Case 87 [] [46 ~> St 55; 48 ~> St 88; 53 ~> St 89; 58 ~> St 80; 49 to 57 ~> St 77; 97 to 102 ~> St 77; 65 to 70 ~> St 77] (St 0);
  Case 88 [] [58 ~> St 80; 48 to 57 ~> St 86; 97 to 102 ~> St 78; 65 to 70 ~> St 78] (St 0);
  Case 89 [] [48 ~> St 86; 58 ~> St 80; 49 to 57 ~> St 78; 97 to 102 ~> St 78; 65 to 70 ~> St 78] (St 0)].

Definition http_L2092 : list (block action) := [
  Case 90 [] [58 ~> St 80; 48 to 57 ~> St 77; 97 to 102 ~> St 77; 65 to 70 ~> St 77] (St 0);
  Case 91 [] [58 ~> St 95; 48 to 57 ~> St 92; 97 to 102 ~> St 92; 65 to 70 ~> St 92] (St 0);
  Case 92 [] [58 ~> St 95; 48 to 57 ~> St 93; 97 to 102 ~> St 93; 65 to 70 ~> St 93] (St 0);
  Case 93 [] [58 ~> St 95; 48 to 57 ~> St 94; 97 to 102 ~> St 94; 65 to 70 ~> St 94] (St 0);
  Case 94 [] [58 ~> St 95] (St 0);
  Case 95 [] [58 ~> St 166; 48 to 57 ~> St 96; 97 to 102 ~> St 96; 65 to 70 ~> St 96] (St 0);
  Case 96 [] [58 ~> St 100; 48 to 57 ~> St 97; 97 to 102 ~> St 97; 65 to 70 ~> St 97] (St 0);
  Case 97 [] [58 ~> St 100; 48 to 57 ~> St 98; 97 to 102 ~> St 98; 65 to 70 ~> St 98] (St 0);
  Case 98 [] [58 ~> St 100; 48 to 57 ~> St 99; 97 to 102 ~> St 99; 65 to 70 ~> St 99] (St 0);
  Case 99 [] [58 ~> St 100] (St 0);
  Case 100 [] [58 ~> St 165; 48 to 57 ~> St 101; 97 to 102 ~> St 101; 65 to 70 ~> St 101] (St 0)].

Definition http_L2241 : list (block action) := [
  Case 101 [] [58 ~> St 105; 48 to 57 ~> St 102; 97 to 102 ~> St 102; 65 to 70 ~> St 102] (St 0);
  Case 102 [] [58 ~> St 105; 48 to 57 ~> St 103; 97 to 102 ~> St 103; 65 to 70 ~> St 103] (St 0);
  Case 103 [] [58 ~> St 105; 48 to 57 ~> St 104; 97 to 102 ~> St 104; 65 to 70 ~> St 104] (St 0);
  Case 104 [] [58 ~> St 105] (St 0);
  Case 105 [] [58 ~> St 164; 48 to 57 ~> St 106; 97 to 102 ~> St 106; 65 to 70 ~> St 106] (St 0);
  Case 106 [] [58 ~> St 110; 48 to 57 ~> St 107; 97 to 102 ~> St 107; 65 to 70 ~> St 107] (St 0);
  Case 107 [] [58 ~> St 110; 48 to 57 ~> St 108; 97 to 102 ~> St 108; 65 to 70 ~> St 108] (St 0);
  Case 108 [] [58 ~> St 110; 48 to 57 ~> St 109; 97 to 102 ~> St 109; 65 to 70 ~> St 109] (St 0);
  Case 109 [] [58 ~> St 110] (St 0);
  Case 110 [] [58 ~> St 163; 48 to 57 ~> St 111; 97 to 102 ~> St 111; 65 to 70 ~> St 111] (St 0);
  Case 111 [] [58 ~> St 115; 48 to 57 ~> St 112; 97 to 102 ~> St 112; 65 to 70 ~> St 112] (St 0)].

Definition http_L2390 : list (block action) := [
  Case 112 [] [58 ~> St 115; 48 to 57 ~> St 113; 97 to 102 ~> St 113; 65 to 70 ~> St 113] (St 0);
  Case 113 [] [58 ~> St 115; 48 to 57 ~> St 114; 97 to 102 ~> St 114; 65 to 70 ~> St 114] (St 0);
  Case 114 [] [58 ~> St 115] (St 0);
  Case 115 [] [58 ~> St 151; 48 to 57 ~> St 116; 97 to 102 ~> St 116; 65 to 70 ~> St 116] (St 0);
  Case 116 [] [58 ~> St 120; 48 to 57 ~> St 117; 97 to 102 ~> St 117; 65 to 70 ~> St 117] (St 0);
  Case 117 [] [58 ~> St 120; 48 to 57 ~> St 118; 97 to 102 ~> St 118; 65 to 70 ~> St 118] (St 0);
  Case 118 [] [58 ~> St 120; 48 to 57 ~> St 119; 97 to 102 ~> St 119; 65 to 70 ~> St 119] (St 0);
  Case 119 [] [58 ~> St 120] (St 0);
  Case 120 [] [58 ~> St 150; 48 to 57 ~> St 121; 97 to 102 ~> St 121; 65 to 70 ~> St 121] (St 0);
  Case 121 [] [58 ~> St 125; 48 to 57 ~> St 122; 97 to 102 ~> St 122; 65 to 70 ~> St 122] (St 0);
  Case 122 [] [58 ~> St 125; 48 to 57 ~> St 123; 97 to 102 ~> St 123; 65 to 70 ~> St 123] (St 0)].

Definition http_L2539 : list (block action) := [
  Case 123 [] [58 ~> St 125; 48 to 57 ~> St 124; 97 to 102 ~> St 124; 65 to 70 ~> St 124] (St 0);
  Case 124 [] [58 ~> St 125] (St 0);
  Case 125 [] [58 ~> St 126; 48 to 57 ~> St 121; 97 to 102 ~> St 121; 65 to 70 ~> St 121] (St 0);
  Case 126 [] [49 ~> St 143; 50 ~> St 146; 93 ~> St 61; 2 to 3 ~> St 48; 97 to 102 ~> St 149; 65 to 70 ~> St 149; 48 to 57 ~> St 127] (St 0);
  Case 127 [] [46 ~> St 55; 58 ~> St 131; 93 ~> St 61; 48 to 57 ~> St 128; 97 to 102 ~> St 128; 65 to 70 ~> St 128] (St 0);
  Case 128 [] [58 ~> St 131; 93 ~> St 61; 48 to 57 ~> St 129; 97 to 102 ~> St 129; 65 to 70 ~> St 129] (St 0);
  Case 129 [] [58 ~> St 131; 93 ~> St 61; 48 to 57 ~> St 130; 97 to 102 ~> St 130; 65 to 70 ~> St 130] (St 0);
  Case 130 [] [58 ~> St 131; 93 ~> St 61] (St 0);
  Case 131 [] [49 ~> St 136; 50 ~> St 139; 48 to 57 ~> St 132; 97 to 102 ~> St 142; 65 to 70 ~> St 142] (St 0)].

Definition http_L2675 : list (block action) := [
  Case 132 [] [46 ~> St 55; 58 ~> St 80; 93 ~> St 61; 48 to 57 ~> St 133; 97 to 102 ~> St 133; 65 to 70 ~> St 133] (St 0);
  Case 133 [] [58 ~> St 80; 93 ~> St 61; 48 to 57 ~> St 134; 97 to 102 ~> St 134; 65 to 70 ~> St 134] (St 0);
  Case 134 [] [58 ~> St 80; 93 ~> St 61; 48 to 57 ~> St 135; 97 to 102 ~> St 135; 65 to 70 ~> St 135] (St 0);
  Case 135 [] [58 ~> St 80; 93 ~> St 61] (St 0);
  Case 136 [] [46 ~> St 55; 58 ~> St 80; 93 ~> St 61; 48 to 57 ~> St 137; 97 to 102 ~> St 133; 65 to 70 ~> St 133] (St 0);
  Case 137 [] [46 ~> St 55; 58 ~> St 80; 93 ~> St 61; 48 to 57 ~> St 138; 97 to 102 ~> St 134; 65 to 70 ~> St 134] (St 0);
  Case 138 [] [46 ~> St 55; 58 ~> St 80; 93 ~> St 61; 48 to 57 ~> St 135; 97 to 102 ~> St 135; 65 to 70 ~> St 135] (St 0);
  Case 139 [] [46 ~> St 55; 48 ~> St 140; 53 ~> St 141; 58 ~> St 80; 93 ~> St 61; 49 to 57 ~> St 133; 97 to 102 ~> St 133; 65 to 70 ~> St 133] (St 0)].

Definition http_L2810 : list (block action) := [
  Case 140 [] [58 ~> St 80; 93 ~> St 61; 48 to 57 ~> St 138; 97 to 102 ~> St 134; 65 to 70 ~> St 134] (St 0);
  Case 141 [] [48 ~> St 138; 58 ~> St 80; 93 ~> St 61; 49 to 57 ~> St 134; 97 to 102 ~> St 134; 65 to 70 ~> St 134] (St 0);
  Case 142 [] [58 ~> St 80; 93 ~> St 61; 48 to 57 ~> St 133; 97 to 102 ~> St 133; 65 to 70 ~> St 133] (St 0);
  Case 143 [] [46 ~> St 55; 58 ~> St 131; 93 ~> St 61; 48 to 57 ~> St 144; 97 to 102 ~> St 128; 65 to 70 ~> St 128] (St 0);
  Case 144 [] [46 ~> St 55; 58 ~> St 131; 93 ~> St 61; 48 to 57 ~> St 145; 97 to 102 ~> St 129; 65 to 70 ~> St 129] (St 0);
  Case 145 [] [46 ~> St 55; 58 ~> St 131; 93 ~> St 61; 48 to 57 ~> St 130; 97 to 102 ~> St 130; 65 to 70 ~> St 130] (St 0);
  Case 146 [] [46 ~> St 55; 48 ~> St 147; 53 ~> St 148; 58 ~> St 131; 93 ~> St 61; 49 to 57 ~> St 128; 97 to 102 ~> St 128; 65 to 70 ~> St 128] (St 0);
  Case 147 [] [58 ~> St 131; 93 ~> St 61; 48 to 57 ~> St 145; 97 to 102 ~> St 129; 65 to 70 ~> St 129] (St 0)].

Definition http_L2953 : list (block action) := [
  Case 148 [] [48 ~> St 145; 58 ~> St 131; 93 ~> St 61; 49 to 57 ~> St 129; 97 to 102 ~> St 129; 65 to 70 ~> St 129] (St 0);
  Case 149 [] [58 ~> St 131; 93 ~> St 61; 48 to 57 ~> St 128; 97 to 102 ~> St 128; 65 to 70 ~> St 128] (St 0);
  Case 150 [] [49 ~> St 143; 50 ~> St 146; 2 to 3 ~> St 48; 97 to 102 ~> St 149; 65 to 70 ~> St 149; 48 to 57 ~> St 127] (St 0);
  Case 151 [] [49 ~> St 156; 50 ~> St 159; 2 to 3 ~> St 48; 97 to 102 ~> St 162; 65 to 70 ~> St 162; 48 to 57 ~> St 152] (St 0);
  Case 152 [] [46 ~> St 55; 58 ~> St 131; 48 to 57 ~> St 153; 97 to 102 ~> St 153; 65 to 70 ~> St 153] (St 0);
  Case 153 [] [58 ~> St 131; 48 to 57 ~> St 154; 97 to 102 ~> St 154; 65 to 70 ~> St 154] (St 0);
  Case 154 [] [58 ~> St 131; 48 to 57 ~> St 155; 97 to 102 ~> St 155; 65 to 70 ~> St 155] (St 0);
  Case 155 [] [58 ~> St 131] (St 0);
  Case 156 [] [46 ~> St 55; 58 ~> St 131; 48 to 57 ~> St 157; 97 to 102 ~> St 153; 65 to 70 ~> St 153] (St 0)].

Definition http_L3099 : list (block action) := [
  Case 157 [] [46 ~> St 55; 58 ~> St 131; 48 to 57 ~> St 158; 97 to 102 ~> St 154; 65 to 70 ~> St 154] (St 0);
  Case 158 [] [46 ~> St 55; 58 ~> St 131; 48 to 57 ~> St 155; 97 to 102 ~> St 155; 65 to 70 ~> St 155] (St 0);
  Case 159 [] [46 ~> St 55; 48 ~> St 160; 53 ~> St 161; 58 ~> St 131; 49 to 57 ~> St 153; 97 to 102 ~> St 153; 65 to 70 ~> St 153] (St 0);
  Case 160 [] [58 ~> St 131; 48 to 57 ~> St 158; 97 to 102 ~> St 154; 65 to 70 ~> St 154] (St 0);
  Case 161 [] [48 ~> St 158; 58 ~> St 131; 49 to 57 ~> St 154; 97 to 102 ~> St 154; 65 to 70 ~> St 154] (St 0);
  Case 162 [] [58 ~> St 131; 48 to 57 ~> St 153; 97 to 102 ~> St 153; 65 to 70 ~> St 153] (St 0);
  Case 163 [] [2 to 3 ~> St 48; 97 to 102 ~> St 49; 65 to 70 ~> St 49; 48 to 57 ~> St 49] (St 0);
  Case 164 [] [2 to 3 ~> St 48] (St 0);
  Case 165 [] [3 ~> St 48] (St 0);
  Case 166 [] [4 ~> St 48] (St 0);
  Case 167 [] [58 ~> St 168] (St 0)].

Definition http_L3243 : list (block action) := [
  Case 168 [] [49 ~> St 143; 50 ~> St 146; 93 ~> St 61; 2 to 5 ~> St 48; 97 to 102 ~> St 149; 65 to 70 ~> St 149; 48 to 57 ~> St 127] (St 0);
  Case 169 [] [48 to 57 ~> St 170; 97 to 102 ~> St 170; 65 to 70 ~> St 170] (St 0);
  Case 170 [] [46 ~> St 171; 48 to 57 ~> St 170; 97 to 102 ~> St 170; 65 to 70 ~> St 170] (St 0);
  Case 171 [(94, 94); (125, 125); (123, 123)] [33 ~> St 172; 36 ~> St 172; 61 ~> St 172; 95 ~> St 172; 126 ~> St 172; 606 ~> St 172; 635 ~> St 172;
    637 ~> St 172; 38 to 46 ~> St 172; 97 to 122 ~> St 172; 65 to 90 ~> St 172; 48 to 59 ~> St 172] (St 0);
  Case 172 [(94, 94); (125, 125); (123, 123)] [33 ~> St 172; 36 ~> St 172; 61 ~> St 172; 93 ~> St 61; 95 ~> St 172; 126 ~> St 172; 606 ~> St 172;
    635 ~> St 172; 637 ~> St 172; 38 to 46 ~> St 172; 97 to 122 ~> St 172; 65 to 90 ~> St 172; 48 to 59 ~> St 172] (St 0);
  Label 12 [mark] 173].

Definition http_L3391 : list (block action) := [
  Case 173 [(94, 94); (125, 125); (123, 123)] [32 ~> Tr 37; 33 ~> St 19; 35 ~> Tr 39; 37 ~> St 24; 43 ~> St 173; 47 ~> St 26; 58 ~> St 174; 59 ~> St 19;
    61 ~> St 19; 63 ~> Tr 42; 64 ~> St 19; 95 ~> St 19; 126 ~> St 19; 606 ~> St 19; 635 ~> St 19; 637 ~> St 19; 36 to 44 ~> St 19;
    97 to 122 ~> St 173; 65 to 90 ~> St 173; 45 to 57 ~> St 173] (St 0);
  Case 174 [(94, 94); (125, 125); (123, 123)] [32 ~> Tr 6; 33 ~> Tr 203; 35 ~> Tr 8; 37 ~> Tr 204; 47 ~> Tr 10; 61 ~> Tr 203; 63 ~> Tr 11; 95 ~> Tr 203;
    126 ~> Tr 203; 606 ~> Tr 203; 635 ~> Tr 203; 637 ~> Tr 203; -128 to -1 ~> Tr 203; 97 to 122 ~> Tr 203; 64 to 90 ~> Tr 203;
    36 to 59 ~> Tr 203] (St 0);
  Case 175 [] [32 ~> Tr 4; 65 to 90 ~> St 176; 48 to 57 ~> St 176] (St 0);
  Case 176 [] [32 ~> Tr 4; 65 to 90 ~> St 177; 48 to 57 ~> St 177] (St 0);
  Case 177 [] [32 ~> Tr 4; 65 to 90 ~> St 178; 48 to 57 ~> St 178] (St 0)].

Definition http_L3534 : list (block action) := [
  Case 178 [] [32 ~> Tr 4; 65 to 90 ~> St 179; 48 to 57 ~> St 179] (St 0);
  Case 179 [] [32 ~> Tr 4; 65 to 90 ~> St 180; 48 to 57 ~> St 180] (St 0);
  Case 180 [] [32 ~> Tr 4; 65 to 90 ~> St 181; 48 to 57 ~> St 181] (St 0);
  Case 181 [] [32 ~> Tr 4; 65 to 90 ~> St 182; 48 to 57 ~> St 182] (St 0);
  Case 182 [] [32 ~> Tr 4; 65 to 90 ~> St 183; 48 to 57 ~> St 183] (St 0);
  Case 183 [] [32 ~> Tr 4; 65 to 90 ~> St 184; 48 to 57 ~> St 184] (St 0);
  Case 184 [] [32 ~> Tr 4; 65 to 90 ~> St 185; 48 to 57 ~> St 185] (St 0);
  Case 185 [] [32 ~> Tr 4; 65 to 90 ~> St 186; 48 to 57 ~> St 186] (St 0);
  Case 186 [] [32 ~> Tr 4; 65 to 90 ~> St 187; 48 to 57 ~> St 187] (St 0);
  Case 187 [] [32 ~> Tr 4; 65 to 90 ~> St 188; 48 to 57 ~> St 188] (St 0);
  Case 188 [] [32 ~> Tr 4; 65 to 90 ~> St 189; 48 to 57 ~> St 189] (St 0);
  Case 189 [] [32 ~> Tr 4; 65 to 90 ~> St 190; 48 to 57 ~> St 190] (St 0)].

Definition http_L3678 : list (block action) := [
  Case 190 [] [32 ~> Tr 4; 65 to 90 ~> St 191; 48 to 57 ~> St 191] (St 0);
  Case 191 [] [32 ~> Tr 4; 65 to 90 ~> St 192; 48 to 57 ~> St 192] (St 0);
  Case 192 [] [32 ~> Tr 4; 65 to 90 ~> St 193; 48 to 57 ~> St 193] (St 0);
  Case 193 [] [32 ~> Tr 4] (St 0);
  Label 2 [mark] 194;
  Case 194 [] [45 to 46 ~> St 195; 97 to 122 ~> St 195; 65 to 90 ~> St 195; 48 to 57 ~> St 195] (St 0);
  Case 195 [] [32 ~> Tr 224; 47 ~> Tr 224; 62 ~> Tr 224; 9 to 13 ~> Tr 224; 97 to 122 ~> St 195; 65 to 90 ~> St 195; 45 to 57 ~> St 195] (St 0);
  Label 224 [request_path] 196;
  Case 196 [] [62 ~> St 197] (St 196);
  Case 197 [] [0 ~> Tr 227; 62 ~> St 197] (St 196);
  Label 227 [xml; done 349] 349].

Definition http_L3808 : list (block action) := [
  Label 235 [json; done 349] 349;
  Case 349 [] [] (St 0);
  Label 3 [mark] 198;
  Case 198 [(94, 94); (125, 125); (123, 123)] [32 ~> Tr 228; 33 ~> St 202; 37 ~> St 203; 47 ~> St 208; 59 ~> St 202; 61 ~> St 202; 95 ~> St 202;
    126 ~> St 202; 606 ~> St 202; 635 ~> St 202; 637 ~> St 202; 36 to 57 ~> St 202; 97 to 122 ~> St 202; 64 to 90 ~> St 202] (St 0);
  Label 228 [request_path] 199;
  Case 199 [] [123 ~> Tr 232] (St 0);
  Label 232 [mark] 200;
  Case 200 [] [125 ~> St 201] (St 200);
  Case 201 [] [0 ~> Tr 235; 125 ~> St 201] (St 200)].

Definition http_L3923 : list (block action) := [
  Case 202 [(94, 94); (125, 125); (123, 123)] [32 ~> Tr 228; 33 ~> St 202; 37 ~> St 203; 47 ~> St 205; 59 ~> St 202; 61 ~> St 202; 95 ~> St 202;
    126 ~> St 202; 606 ~> St 202; 635 ~> St 202; 637 ~> St 202; 36 to 57 ~> St 202; 97 to 122 ~> St 202; 64 to 90 ~> St 202] (St 0);
  Case 203 [] [48 to 57 ~> St 204; 97 to 102 ~> St 204; 65 to 70 ~> St 204] (St 0);
  Case 204 [] [48 to 57 ~> St 202; 97 to 102 ~> St 202; 65 to 70 ~> St 202] (St 0);
  Case 205 [(94, 94); (125, 125); (123, 123)] [32 ~> Tr 228; 33 ~> St 205; 37 ~> St 206; 61 ~> St 205; 95 ~> St 205; 126 ~> St 205; 606 ~> St 205;
    635 ~> St 205; 637 ~> St 205; -128 to -1 ~> St 205; 97 to 122 ~> St 205; 64 to 90 ~> St 205; 36 to 59 ~> St 205] (St 0);
  Case 206 [] [48 to 57 ~> St 207; 97 to 102 ~> St 207; 65 to 70 ~> St 207] (St 0);
  Case 207 [] [48 to 57 ~> St 205; 97 to 102 ~> St 205; 65 to 70 ~> St 205] (St 0)].

Definition http_L4070 : list (block action) := [
  Case 208 [(94, 94); (125, 125); (123, 123)] [32 ~> Tr 228; 33 ~> St 205; 37 ~> St 206; 47 ~> St 209; 61 ~> St 205; 95 ~> St 205; 126 ~> St 205;
    606 ~> St 205; 635 ~> St 205; 637 ~> St 205; -128 to -1 ~> St 205; 97 to 122 ~> St 205; 64 to 90 ~> St 205; 36 to 59 ~> St 205] (St 0);
  Case 209 [(94, 94); (125, 125); (123, 123)] [32 ~> Tr 228; 33 ~> St 210; 37 ~> St 211; 47 ~> St 205; 58 ~> St 213; 61 ~> St 210; 64 ~> St 217;
    91 ~> St 222; 95 ~> St 210; 126 ~> St 210; 606 ~> St 210; 635 ~> St 210; 637 ~> St 210; 36 to 59 ~> St 210; 97 to 122 ~> St 210;
    65 to 90 ~> St 210] (St 0);
  Case 210 [(94, 94); (125, 125); (123, 123)] [32 ~> Tr 228; 33 ~> St 210; 37 ~> St 211; 47 ~> St 205; 58 ~> St 213; 61 ~> St 210; 64 ~> St 217;
    95 ~> St 210; 126 ~> St 210; 606 ~> St 210; 635 ~> St 210; 637 ~> St 210; 36 to 59 ~> St 210; 97 to 122 ~> St 210; 65 to 90 ~> St 210] (St 0)].

Definition http_L4216 : list (block action) := [
  Case 211 [] [48 to 57 ~> St 212; 97 to 102 ~> St 212; 65 to 70 ~> St 212] (St 0);
  Case 212 [] [48 to 57 ~> St 210; 97 to 102 ~> St 210; 65 to 70 ~> St 210] (St 0);
  Case 213 [(94, 94); (125, 125); (123, 123)] [32 ~> Tr 228; 33 ~> St 214; 37 ~> St 215; 47 ~> St 205; 61 ~> St 214; 64 ~> St 217; 95 ~> St 214;
    126 ~> St 214; 606 ~> St 214; 635 ~> St 214; 637 ~> St 214; 48 to 57 ~> St 213; 36 to 46 ~> St 214; 97 to 122 ~> St 214; 65 to 90 ~> St 214;
    58 to 59 ~> St 214] (St 0);
  Case 214 [(94, 94); (125, 125); (123, 123)] [33 ~> St 214; 37 ~> St 215; 61 ~> St 214; 64 ~> St 217; 95 ~> St 214; 126 ~> St 214; 606 ~> St 214;
    635 ~> St 214; 637 ~> St 214; 36 to 46 ~> St 214; 97 to 122 ~> St 214; 65 to 90 ~> St 214; 48 to 59 ~> St 214] (St 0);
  Case 215 [] [48 to 57 ~> St 216; 97 to 102 ~> St 216; 65 to 70 ~> St 216] (St 0)].

Definition http_L4356 : list (block action) := [
  Case 216 [] [48 to 57 ~> St 214; 97 to 102 ~> St 214; 65 to 70 ~> St 214] (St 0);
  Case 217 [(94, 94); (125, 125); (123, 123)] [32 ~> Tr 228; 33 ~> St 218; 37 ~> St 219; 47 ~> St 205; 58 ~> St 221; 61 ~> St 218; 91 ~> St 222;
    95 ~> St 218; 126 ~> St 218; 606 ~> St 218; 635 ~> St 218; 637 ~> St 218; 36 to 59 ~> St 218; 97 to 122 ~> St 218; 65 to 90 ~> St 218] (St 0);
  Case 218 [(94, 94); (125, 125); (123, 123)] [32 ~> Tr 228; 33 ~> St 218; 37 ~> St 219; 47 ~> St 205; 58 ~> St 221; 61 ~> St 218; 95 ~> St 218;
    126 ~> St 218; 606 ~> St 218; 635 ~> St 218; 637 ~> St 218; 36 to 59 ~> St 218; 97 to 122 ~> St 218; 65 to 90 ~> St 218] (St 0);
  Case 219 [] [48 to 57 ~> St 220; 97 to 102 ~> St 220; 65 to 70 ~> St 220] (St 0);
  Case 220 [] [48 to 57 ~> St 218; 97 to 102 ~> St 218; 65 to 70 ~> St 218] (St 0);
  Case 221 [] [32 ~> Tr 228; 47 ~> St 205; 48 to 57 ~> St 221] (St 0)].

Definition http_L4501 : list (block action) := [
  Case 222 [] [6 ~> St 223; 58 ~> St 342; 118 ~> St 344; 48 to 57 ~> St 266; 97 to 102 ~> St 266; 65 to 70 ~> St 266] (St 0);
  Case 223 [] [48 to 57 ~> St 224; 97 to 102 ~> St 224; 65 to 70 ~> St 224] (St 0);
  Case 224 [] [58 ~> St 228; 48 to 57 ~> St 225; 97 to 102 ~> St 225; 65 to 70 ~> St 225] (St 0);
  Case 225 [] [58 ~> St 228; 48 to 57 ~> St 226; 97 to 102 ~> St 226; 65 to 70 ~> St 226] (St 0);
  Case 226 [] [58 ~> St 228; 48 to 57 ~> St 227; 97 to 102 ~> St 227; 65 to 70 ~> St 227] (St 0);
  Case 227 [] [58 ~> St 228] (St 0);
  Case 228 [] [49 ~> St 259; 50 ~> St 262; 48 to 57 ~> St 229; 97 to 102 ~> St 265; 65 to 70 ~> St 265] (St 0);
  Case 229 [] [46 ~> St 230; 58 ~> St 255; 48 to 57 ~> St 252; 97 to 102 ~> St 252; 65 to 70 ~> St 252] (St 0);
  Case 230 [] [49 ~> St 247; 50 ~> St 249; 48 to 57 ~> St 231] (St 0);
  Case 231 [] [46 ~> St 232] (St 0);
  Case 232 [] [49 ~> St 242; 50 ~> St 244; 48 to 57 ~> St 233] (St 0)].

Definition http_L4647 : list (block action) := [
  Case 233 [] [46 ~> St 234] (St 0);
  Case 234 [] [49 ~> St 237; 50 ~> St 239; 48 to 57 ~> St 235] (St 0);
  Case 235 [] [93 ~> St 236] (St 0);
  Case 236 [] [32 ~> Tr 228; 47 ~> St 205; 58 ~> St 221] (St 0);
  Case 237 [] [93 ~> St 236; 48 to 57 ~> St 238] (St 0);
  Case 238 [] [93 ~> St 236; 48 to 57 ~> St 235] (St 0);
  Case 239 [] [48 ~> St 240; 53 ~> St 241; 93 ~> St 236] (St 0);
  Case 240 [] [48 to 57 ~> St 235] (St 0);
  Case 241 [] [48 ~> St 235] (St 0);
  Case 242 [] [46 ~> St 234; 48 to 57 ~> St 243] (St 0);
  Case 243 [] [46 ~> St 234; 48 to 57 ~> St 233] (St 0);
  Case 244 [] [46 ~> St 234; 48 ~> St 245; 53 ~> St 246] (St 0);
  Case 245 [] [48 to 57 ~> St 233] (St 0);
  Case 246 [] [48 ~> St 233] (St 0);
  Case 247 [] [46 ~> St 232; 48 to 57 ~> St 248] (St 0);
  Case 248 [] [46 ~> St 232; 48 to 57 ~> St 231] (St 0);
  Case 249 [] [46 ~> St 232; 48 ~> St 250; 53 ~> St 251] (St 0)].

Definition http_L4794 : list (block action) := [
  Case 250 [] [48 to 57 ~> St 231] (St 0);
  Case 251 [] [48 ~> St 231] (St 0);
  Case 252 [] [58 ~> St 255; 48 to 57 ~> St 253; 97 to 102 ~> St 253; 65 to 70 ~> St 253] (St 0);
  Case 253 [] [58 ~> St 255; 48 to 57 ~> St 254; 97 to 102 ~> St 254; 65 to 70 ~> St 254] (St 0);
  Case 254 [] [58 ~> St 255] (St 0);
  Case 255 [] [48 to 57 ~> St 256; 97 to 102 ~> St 256; 65 to 70 ~> St 256] (St 0);
  Case 256 [] [93 ~> St 236; 48 to 57 ~> St 257; 97 to 102 ~> St 257; 65 to 70 ~> St 257] (St 0);
  Case 257 [] [93 ~> St 236; 48 to 57 ~> St 258; 97 to 102 ~> St 258; 65 to 70 ~> St 258] (St 0);
  Case 258 [] [93 ~> St 236; 48 to 57 ~> St 235; 97 to 102 ~> St 235; 65 to 70 ~> St 235] (St 0);
  Case 259 [] [46 ~> St 230; 58 ~> St 255; 48 to 57 ~> St 260; 97 to 102 ~> St 252; 65 to 70 ~> St 252] (St 0);
  Case 260 [] [46 ~> St 230; 58 ~> St 255; 48 to 57 ~> St 261; 97 to 102 ~> St 253; 65 to 70 ~> St 253] (St 0)].

Definition http_L4937 : list (block action) := [
  Case 261 [] [46 ~> St 230; 58 ~> St 255; 48 to 57 ~> St 254; 97 to 102 ~> St 254; 65 to 70 ~> St 254] (St 0);
  Case 262 [] [46 ~> St 230; 48 ~> St 263; 53 ~> St 264; 58 ~> St 255; 49 to 57 ~> St 252; 97 to 102 ~> St 252; 65 to 70 ~> St 252] (St 0);
  Case 263 [] [58 ~> St 255; 48 to 57 ~> St 261; 97 to 102 ~> St 253; 65 to 70 ~> St 253] (St 0);
  Case 264 [] [48 ~> St 261; 58 ~> St 255; 49 to 57 ~> St 253; 97 to 102 ~> St 253; 65 to 70 ~> St 253] (St 0);
  Case 265 [] [58 ~> St 255; 48 to 57 ~> St 252; 97 to 102 ~> St 252; 65 to 70 ~> St 252] (St 0);
  Case 266 [] [58 ~> St 270; 48 to 57 ~> St 267; 97 to 102 ~> St 267; 65 to 70 ~> St 267] (St 0);
  Case 267 [] [58 ~> St 270; 48 to 57 ~> St 268; 97 to 102 ~> St 268; 65 to 70 ~> St 268] (St 0);
  Case 268 [] [58 ~> St 270; 48 to 57 ~> St 269; 97 to 102 ~> St 269; 65 to 70 ~> St 269] (St 0);
  Case 269 [] [58 ~> St 270] (St 0);
  Case 270 [] [58 ~> St 341; 48 to 57 ~> St 271; 97 to 102 ~> St 271; 65 to 70 ~> St 271] (St 0)].

Definition http_L5087 : list (block action) := [
  Case 271 [] [58 ~> St 275; 48 to 57 ~> St 272; 97 to 102 ~> St 272; 65 to 70 ~> St 272] (St 0);
  Case 272 [] [58 ~> St 275; 48 to 57 ~> St 273; 97 to 102 ~> St 273; 65 to 70 ~> St 273] (St 0);
  Case 273 [] [58 ~> St 275; 48 to 57 ~> St 274; 97 to 102 ~> St 274; 65 to 70 ~> St 274] (St 0);
  Case 274 [] [58 ~> St 275] (St 0);
  Case 275 [] [58 ~> St 340; 48 to 57 ~> St 276; 97 to 102 ~> St 276; 65 to 70 ~> St 276] (St 0);
  Case 276 [] [58 ~> St 280; 48 to 57 ~> St 277; 97 to 102 ~> St 277; 65 to 70 ~> St 277] (St 0);
  Case 277 [] [58 ~> St 280; 48 to 57 ~> St 278; 97 to 102 ~> St 278; 65 to 70 ~> St 278] (St 0);
  Case 278 [] [58 ~> St 280; 48 to 57 ~> St 279; 97 to 102 ~> St 279; 65 to 70 ~> St 279] (St 0);
  Case 279 [] [58 ~> St 280] (St 0);
  Case 280 [] [58 ~> St 339; 48 to 57 ~> St 281; 97 to 102 ~> St 281; 65 to 70 ~> St 281] (St 0);
  Case 281 [] [58 ~> St 285; 48 to 57 ~> St 282; 97 to 102 ~> St 282; 65 to 70 ~> St 282] (St 0)].

Definition http_L5236 : list (block action) := [
  Case 282 [] [58 ~> St 285; 48 to 57 ~> St 283; 97 to 102 ~> St 283; 65 to 70 ~> St 283] (St 0);
  Case 283 [] [58 ~> St 285; 48 to 57 ~> St 284; 97 to 102 ~> St 284; 65 to 70 ~> St 284] (St 0);
  Case 284 [] [58 ~> St 285] (St 0);
  Case 285 [] [58 ~> St 338; 48 to 57 ~> St 286; 97 to 102 ~> St 286; 65 to 70 ~> St 286] (St 0);
  Case 286 [] [58 ~> St 290; 48 to 57 ~> St 287; 97 to 102 ~> St 287; 65 to 70 ~> St 287] (St 0);
  Case 287 [] [58 ~> St 290; 48 to 57 ~> St 288; 97 to 102 ~> St 288; 65 to 70 ~> St 288] (St 0);
  Case 288 [] [58 ~> St 290; 48 to 57 ~> St 289; 97 to 102 ~> St 289; 65 to 70 ~> St 289] (St 0);
  Case 289 [] [58 ~> St 290] (St 0);
  Case 290 [] [58 ~> St 326; 48 to 57 ~> St 291; 97 to 102 ~> St 291; 65 to 70 ~> St 291] (St 0);
  Case 291 [] [58 ~> St 295; 48 to 57 ~> St 292; 97 to 102 ~> St 292; 65 to 70 ~> St 292] (St 0);
  Case 292 [] [58 ~> St 295; 48 to 57 ~> St 293; 97 to 102 ~> St 293; 65 to 70 ~> St 293] (St 0)].

Definition http_L5385 : list (block action) := [
  Case 293 [] [58 ~> St 295; 48 to 57 ~> St 294; 97 to 102 ~> St 294; 65 to 70 ~> St 294] (St 0);
  Case 294 [] [58 ~> St 295] (St 0);
  Case 295 [] [58 ~> St 325; 48 to 57 ~> St 296; 97 to 102 ~> St 296; 65 to 70 ~> St 296] (St 0);
  Case 296 [] [58 ~> St 300; 48 to 57 ~> St 297; 97 to 102 ~> St 297; 65 to 70 ~> St 297] (St 0);
  Case 297 [] [58 ~> St 300; 48 to 57 ~> St 298; 97 to 102 ~> St 298; 65 to 70 ~> St 298] (St 0);
  Case 298 [] [58 ~> St 300; 48 to 57 ~> St 299; 97 to 102 ~> St 299; 65 to 70 ~> St 299] (St 0);
  Case 299 [] [58 ~> St 300] (St 0);
  Case 300 [] [58 ~> St 301; 48 to 57 ~> St 296; 97 to 102 ~> St 296; 65 to 70 ~> St 296] (St 0);
  Case 301 [] [49 ~> St 318; 50 ~> St 321; 93 ~> St 236; 2 to 3 ~> St 223; 97 to 102 ~> St 324; 65 to 70 ~> St 324; 48 to 57 ~> St 302] (St 0);
  Case 302 [] [46 ~> St 230; 58 ~> St 306; 93 ~> St 236; 48 to 57 ~> St 303; 97 to 102 ~> St 303; 65 to 70 ~> St 303] (St 0)].

Definition http_L5528 : list (block action) := [
  Case 303 [] [58 ~> St 306; 93 ~> St 236; 48 to 57 ~> St 304; 97 to 102 ~> St 304; 65 to 70 ~> St 304] (St 0);
  Case 304 [] [58 ~> St 306; 93 ~> St 236; 48 to 57 ~> St 305; 97 to 102 ~> St 305; 65 to 70 ~> St 305] (St 0);
  Case 305 [] [58 ~> St 306; 93 ~> St 236] (St 0);
  Case 306 [] [49 ~> St 311; 50 ~> St 314; 48 to 57 ~> St 307; 97 to 102 ~> St 317; 65 to 70 ~> St 317] (St 0);
  Case 307 [] [46 ~> St 230; 58 ~> St 255; 93 ~> St 236; 48 to 57 ~> St 308; 97 to 102 ~> St 308; 65 to 70 ~> St 308] (St 0);
  Case 308 [] [58 ~> St 255; 93 ~> St 236; 48 to 57 ~> St 309; 97 to 102 ~> St 309; 65 to 70 ~> St 309] (St 0);
  Case 309 [] [58 ~> St 255; 93 ~> St 236; 48 to 57 ~> St 310; 97 to 102 ~> St 310; 65 to 70 ~> St 310] (St 0);
  Case 310 [] [58 ~> St 255; 93 ~> St 236] (St 0);
  Case 311 [] [46 ~> St 230; 58 ~> St 255; 93 ~> St 236; 48 to 57 ~> St 312; 97 to 102 ~> St 308; 65 to 70 ~> St 308] (St 0)].

Definition http_L5667 : list (block action) := [
  Case 312 [] [46 ~> St 230; 58 ~> St 255; 93 ~> St 236; 48 to 57 ~> St 313; 97 to 102 ~> St 309; 65 to 70 ~> St 309] (St 0);
  Case 313 [] [46 ~> St 230; 58 ~> St 255; 93 ~> St 236; 48 to 57 ~> St 310; 97 to 102 ~> St 310; 65 to 70 ~> St 310] (St 0);
  Case 314 [] [46 ~> St 230; 48 ~> St 315; 53 ~> St 316; 58 ~> St 255; 93 ~> St 236; 49 to 57 ~> St 308; 97 to 102 ~> St 308; 65 to 70 ~> St 308] (St 0);
  Case 315 [] [58 ~> St 255; 93 ~> St 236; 48 to 57 ~> St 313; 97 to 102 ~> St 309; 65 to 70 ~> St 309] (St 0);
  Case 316 [] [48 ~> St 313; 58 ~> St 255; 93 ~> St 236; 49 to 57 ~> St 309; 97 to 102 ~> St 309; 65 to 70 ~> St 309] (St 0);
  Case 317 [] [58 ~> St 255; 93 ~> St 236; 48 to 57 ~> St 308; 97 to 102 ~> St 308; 65 to 70 ~> St 308] (St 0);
  Case 318 [] [46 ~> St 230; 58 ~> St 306; 93 ~> St 236; 48 to 57 ~> St 319; 97 to 102 ~> St 303; 65 to 70 ~> St 303] (St 0);
  Case 319 [] [46 ~> St 230; 58 ~> St 306; 93 ~> St 236; 48 to 57 ~> St 320; 97 to 102 ~> St 304; 65 to 70 ~> St 304] (St 0)].

Definition http_L5811 : list (block action) := [
  Case 320 [] [46 ~> St 230; 58 ~> St 306; 93 ~> St 236; 48 to 57 ~> St 305; 97 to 102 ~> St 305; 65 to 70 ~> St 305] (St 0);
  Case 321 [] [46 ~> St 230; 48 ~> St 322; 53 ~> St 323; 58 ~> St 306; 93 ~> St 236; 49 to 57 ~> St 303; 97 to 102 ~> St 303; 65 to 70 ~> St 303] (St 0);
  Case 322 [] [58 ~> St 306; 93 ~> St 236; 48 to 57 ~> St 320; 97 to 102 ~> St 304; 65 to 70 ~> St 304] (St 0);
  Case 323 [] [48 ~> St 320; 58 ~> St 306; 93 ~> St 236; 49 to 57 ~> St 304; 97 to 102 ~> St 304; 65 to 70 ~> St 304] (St 0);
  Case 324 [] [58 ~> St 306; 93 ~> St 236; 48 to 57 ~> St 303; 97 to 102 ~> St 303; 65 to 70 ~> St 303] (St 0);
  Case 325 [] [49 ~> St 318; 50 ~> St 321; 2 to 3 ~> St 223; 97 to 102 ~> St 324; 65 to 70 ~> St 324; 48 to 57 ~> St 302] (St 0);
  Case 326 [] [49 ~> St 331; 50 ~> St 334; 2 to 3 ~> St 223; 97 to 102 ~> St 337; 65 to 70 ~> St 337; 48 to 57 ~> St 327] (St 0);
  Case 327 [] [46 ~> St 230; 58 ~> St 306; 48 to 57 ~> St 328; 97 to 102 ~> St 328; 65 to 70 ~> St 328] (St 0)].

Definition http_L5958 : list (block action) := [
  Case 328 [] [58 ~> St 306; 48 to 57 ~> St 329; 97 to 102 ~> St 329; 65 to 70 ~> St 329] (St 0);
  Case 329 [] [58 ~> St 306; 48 to 57 ~> St 330; 97 to 102 ~> St 330; 65 to 70 ~> St 330] (St 0);
  Case 330 [] [58 ~> St 306] (St 0);
  Case 331 [] [46 ~> St 230; 58 ~> St 306; 48 to 57 ~> St 332; 97 to 102 ~> St 328; 65 to 70 ~> St 328] (St 0);
  Case 332 [] [46 ~> St 230; 58 ~> St 306; 48 to 57 ~> St 333; 97 to 102 ~> St 329; 65 to 70 ~> St 329] (St 0);
  Case 333 [] [46 ~> St 230; 58 ~> St 306; 48 to 57 ~> St 330; 97 to 102 ~> St 330; 65 to 70 ~> St 330] (St 0);
  Case 334 [] [46 ~> St 230; 48 ~> St 335; 53 ~> St 336; 58 ~> St 306; 49 to 57 ~> St 328; 97 to 102 ~> St 328; 65 to 70 ~> St 328] (St 0);
  Case 335 [] [58 ~> St 306; 48 to 57 ~> St 333; 97 to 102 ~> St 329; 65 to 70 ~> St 329] (St 0);
  Case 336 [] [48 ~> St 333; 58 ~> St 306; 49 to 57 ~> St 329; 97 to 102 ~> St 329; 65 to 70 ~> St 329] (St 0)].

Definition http_L6097 : list (block action) := [
  Case 337 [] [58 ~> St 306; 48 to 57 ~> St 328; 97 to 102 ~> St 328; 65 to 70 ~> St 328] (St 0);
  Case 338 [] [2 to 3 ~> St 223; 97 to 102 ~> St 224; 65 to 70 ~> St 224; 48 to 57 ~> St 224] (St 0);
  Case 339 [] [2 to 3 ~> St 223] (St 0);
  Case 340 [] [3 ~> St 223] (St 0);
  Case 341 [] [4 ~> St 223] (St 0);
  Case 342 [] [58 ~> St 343] (St 0);
  Case 343 [] [49 ~> St 318; 50 ~> St 321; 93 ~> St 236; 2 to 5 ~> St 223; 97 to 102 ~> St 324; 65 to 70 ~> St 324; 48 to 57 ~> St 302] (St 0);
  Case 344 [] [48 to 57 ~> St 345; 97 to 102 ~> St 345; 65 to 70 ~> St 345] (St 0);
  Case 345 [] [46 ~> St 346; 48 to 57 ~> St 345; 97 to 102 ~> St 345; 65 to 70 ~> St 345] (St 0)].

Definition http_L6205 : list (block action) := [
  Case 346 [(94, 94); (125, 125); (123, 123)] [33 ~> St 347; 36 ~> St 347; 61 ~> St 347; 95 ~> St 347; 126 ~> St 347; 606 ~> St 347; 635 ~> St 347;
    637 ~> St 347; 38 to 46 ~> St 347; 97 to 122 ~> St 347; 65 to 90 ~> St 347; 48 to 59 ~> St 347] (St 0);
  Case 347 [(94, 94); (125, 125); (123, 123)] [33 ~> St 347; 36 ~> St 347; 61 ~> St 347; 93 ~> St 236; 95 ~> St 347; 126 ~> St 347; 606 ~> St 347;
    635 ~> St 347; 637 ~> St 347; 38 to 46 ~> St 347; 97 to 122 ~> St 347; 65 to 90 ~> St 347; 48 to 59 ~> St 347] (St 0)].

Definition http_L6301 : list (block action) := [
  TestEof 2 2;
  TestEof 3 3;
  TestEof 4 4;
  TestEof 5 5;
  TestEof 6 6;
  TestEof 7 7;
  TestEof 8 8;
  TestEof 9 9;
  TestEof 10 10;
  TestEof 11 11;
  TestEof 12 12;
  TestEof 13 13;
  TestEof 14 14;
  TestEof 15 15;
  TestEof 16 16;
  TestEof 17 17;
  TestEof 348 348;
  TestEof 18 18;
  TestEof 19 19;
  TestEof 20 20;
  TestEof 21 21;
  TestEof 22 22;
  TestEof 23 23;
  TestEof 24 24;
  TestEof 25 25;
  TestEof 26 26;
  TestEof 27 27;
  TestEof 28 28;
  TestEof 29 29;
  TestEof 30 30;
  TestEof 31 31;
  TestEof 32 32;
  TestEof 33 33;
  TestEof 34 34;
  TestEof 35 35;
  TestEof 36 36;
  TestEof 37 37;
  TestEof 38 38;
  TestEof 39 39;
  TestEof 40 40;
  TestEof 41 41;
  TestEof 42 42;
  TestEof 43 43;
  TestEof 44 44;
  TestEof 45 45;
  TestEof 46 46;
  TestEof 47 47;
  TestEof 48 48;
  TestEof 49 49;
  TestEof 50 50;
  TestEof 51 51;
  TestEof 52 52;
  TestEof 53 53;
  TestEof 54 54;
  TestEof 55 55;
  TestEof 56 56;
  TestEof 57 57;
  TestEof 58 58;
  TestEof 59 59;
  TestEof 60 60;
  TestEof 61 61;
  TestEof 62 62;
  TestEof 63 63;
  TestEof 64 64;
  TestEof 65 65;
  TestEof 66 66;
  TestEof 67 67;
  TestEof 68 68;
  TestEof 69 69;
  TestEof 70 70;
  TestEof 71 71;
  TestEof 72 72;
  TestEof 73 73;
  TestEof 74 74;
  TestEof 75 75;
  TestEof 76 76;
  TestEof 77 77;
  TestEof 78 78;
  TestEof 79 79;
  TestEof 80 80;
  TestEof 81 81;
  TestEof 82 82;
  TestEof 83 83;
  TestEof 84 84;
  TestEof 85 85;
  TestEof 86 86;
  TestEof 87 87;
  TestEof 88 88;
  TestEof 89 89;
  TestEof 90 90;
  TestEof 91 91;
  TestEof 92 92;
  TestEof 93 93;
  TestEof 94 94;
  TestEof 95 95;
  TestEof 96 96;
  TestEof 97 97;
  TestEof 98 98;
  TestEof 99 99;
  TestEof 100 100;
  TestEof 101 101;
  TestEof 102 102;
  TestEof 103 103;
  TestEof 104 104;
  TestEof 105 105;
  TestEof 106 106;
  TestEof 107 107;
  TestEof 108 108;
  TestEof 109 109;
  TestEof 110 110;
  TestEof 111 111;
  TestEof 112 112;
  TestEof 113 113;
  TestEof 114 114;
  TestEof 115 115;
  TestEof 116 116;
  TestEof 117 117;
  TestEof 118 118;
  TestEof 119 119;
  TestEof 120 120;
  TestEof 121 121;
  TestEof 122 122;
  TestEof 123 123;
  TestEof 124 124;
  TestEof 125 125;
  TestEof 126 126;
  TestEof 127 127;
  TestEof 128 128;
  TestEof 129 129;
  TestEof 130 130;
  TestEof 131 131;
  TestEof 132 132;
  TestEof 133 133;
  TestEof 134 134;
  TestEof 135 135;
  TestEof 136 136;
  TestEof 137 137;
  TestEof 138 138;
  TestEof 139 139;
  TestEof 140 140;
  TestEof 141 141;
  TestEof 142 142;
  TestEof 143 143;
  TestEof 144 144;
  TestEof 145 145;
  TestEof 146 146;
  TestEof 147 147;
  TestEof 148 148;
  TestEof 149 149;
  TestEof 150 150].

Definition http_L6451 : list (block action) := [
  TestEof 151 151;
  TestEof 152 152;
  TestEof 153 153;
  TestEof 154 154;
  TestEof 155 155;
  TestEof 156 156;
  TestEof 157 157;
  TestEof 158 158;
  TestEof 159 159;
  TestEof 160 160;
  TestEof 161 161;
  TestEof 162 162;
  TestEof 163 163;
  TestEof 164 164;
  TestEof 165 165;
  TestEof 166 166;
  TestEof 167 167;
  TestEof 168 168;
  TestEof 169 169;
  TestEof 170 170;
  TestEof 171 171;
  TestEof 172 172;
  TestEof 173 173;
  TestEof 174 174;
  TestEof 175 175;
  TestEof 176 176;
  TestEof 177 177;
  TestEof 178 178;
  TestEof 179 179;
  TestEof 180 180;
  TestEof 181 181;
  TestEof 182 182;
  TestEof 183 183;
  TestEof 184 184;
  TestEof 185 185;
  TestEof 186 186;
  TestEof 187 187;
  TestEof 188 188;
  TestEof 189 189;
  TestEof 190 190;
  TestEof 191 191;
  TestEof 192 192;
  TestEof 193 193;
  TestEof 194 194;
  TestEof 195 195;
  TestEof 196 196;
  TestEof 197 197;
  TestEof 349 349;
  TestEof 198 198;
  TestEof 199 199;
  TestEof 200 200;
  TestEof 201 201;
  TestEof 202 202;
  TestEof 203 203;
  TestEof 204 204;
  TestEof 205 205;
  TestEof 206 206;
  TestEof 207 207;
  TestEof 208 208;
  TestEof 209 209;
  TestEof 210 210;
  TestEof 211 211;
  TestEof 212 212;
  TestEof 213 213;
  TestEof 214 214;
  TestEof 215 215;
  TestEof 216 216;
  TestEof 217 217;
  TestEof 218 218;
  TestEof 219 219;
  TestEof 220 220;
  TestEof 221 221;
  TestEof 222 222;
  TestEof 223 223;
  TestEof 224 224;
  TestEof 225 225;
  TestEof 226 226;
  TestEof 227 227;
  TestEof 228 228;
  TestEof 229 229;
  TestEof 230 230;
  TestEof 231 231;
  TestEof 232 232;
  TestEof 233 233;
  TestEof 234 234;
  TestEof 235 235;
  TestEof 236 236;
  TestEof 237 237;
  TestEof 238 238;
  TestEof 239 239;
  TestEof 240 240;
  TestEof 241 241;
  TestEof 242 242;
  TestEof 243 243;
  TestEof 244 244;
  TestEof 245 245;
  TestEof 246 246;
  TestEof 247 247;
  TestEof 248 248;
  TestEof 249 249;
  TestEof 250 250;
  TestEof 251 251;
  TestEof 252 252;
  TestEof 253 253;
  TestEof 254 254;
  TestEof 255 255;
  TestEof 256 256;
  TestEof 257 257;
  TestEof 258 258;
  TestEof 259 259;
  TestEof 260 260;
  TestEof 261 261;
  TestEof 262 262;
  TestEof 263 263;
  TestEof 264 264;
  TestEof 265 265;
  TestEof 266 266;
  TestEof 267 267;
  TestEof 268 268;
  TestEof 269 269;
  TestEof 270 270;
  TestEof 271 271;
  TestEof 272 272;
  TestEof 273 273;
  TestEof 274 274;
  TestEof 275 275;
  TestEof 276 276;
  TestEof 277 277;
  TestEof 278 278;
  TestEof 279 279;
  TestEof 280 280;
  TestEof 281 281;
  TestEof 282 282;
  TestEof 283 283;
  TestEof 284 284;
  TestEof 285 285;
  TestEof 286 286;
  TestEof 287 287;
  TestEof 288 288;
  TestEof 289 289;
  TestEof 290 290;
  TestEof 291 291;
  TestEof 292 292;
  TestEof 293 293;
  TestEof 294 294;
  TestEof 295 295;
  TestEof 296 296;
  TestEof 297 297;
  TestEof 298 298;
  TestEof 299 299].

Definition http_L6601 : list (block action) := [
  TestEof 300 300;
  TestEof 301 301;
  TestEof 302 302;
  TestEof 303 303;
  TestEof 304 304;
  TestEof 305 305;
  TestEof 306 306;
  TestEof 307 307;
  TestEof 308 308;
  TestEof 309 309;
  TestEof 310 310;
  TestEof 311 311;
  TestEof 312 312;
  TestEof 313 313;
  TestEof 314 314;
  TestEof 315 315;
  TestEof 316 316;
  TestEof 317 317;
  TestEof 318 318;
  TestEof 319 319;
  TestEof 320 320;
  TestEof 321 321;
  TestEof 322 322;
  TestEof 323 323;
  TestEof 324 324;
  TestEof 325 325;
  TestEof 326 326;
  TestEof 327 327;
  TestEof 328 328;
  TestEof 329 329;
  TestEof 330 330;
  TestEof 331 331;
  TestEof 332 332;
  TestEof 333 333;
  TestEof 334 334;
  TestEof 335 335;
  TestEof 336 336;
  TestEof 337 337;
  TestEof 338 338;
  TestEof 339 339;
  TestEof 340 340;
  TestEof 341 341;
  TestEof 342 342;
  TestEof 343 343;
  TestEof 344 344;
  TestEof 345 345;
  TestEof 346 346;
  TestEof 347 347].

Definition http_code : list (block action) :=
  http_L117 ++ http_L262 ++ http_L410 ++ http_L554 ++ http_L697 ++ http_L841 ++ http_L985 ++ http_L1123 ++
  http_L1243 ++ http_L1374 ++ http_L1498 ++ http_L1647 ++ http_L1797 ++ http_L1945 ++ http_L2092 ++ http_L2241 ++
  http_L2390 ++ http_L2539 ++ http_L2675 ++ http_L2810 ++ http_L2953 ++ http_L3099 ++ http_L3243 ++ http_L3391 ++
  http_L3534 ++ http_L3678 ++ http_L3808 ++ http_L3923 ++ http_L4070 ++ http_L4216 ++ http_L4356 ++ http_L4501 ++
  http_L4647 ++ http_L4794 ++ http_L4937 ++ http_L5087 ++ http_L5236 ++ http_L5385 ++ http_L5528 ++ http_L5667 ++
  http_L5811 ++ http_L5958 ++ http_L6097 ++ http_L6205 ++ http_L6301 ++ http_L6451 ++ http_L6601.

Definition http_machine : machine action :=
  build 1 348 0 http_code [].

End H11.
