(* ===== verification/HttpMachine.v ===== *)
(** The request automaton of http/http11_parser.rl.cc: the structure of
    http11_parser.h, the actions of the grammar, [http_parser_init],
    [http_parser_execute] and its relatives, and the instance of the interface
    that the session uses. *)

From stdpp Require Import strings.
From S2P Require Import Prelude Strs Ragel Http11Table Http HttpSession.

Module Hm.

Import Rg H11 Srv.
Local Open Scope Z_scope.

(** Offsets are counted from the start of the buffer; [field_len] is a
    [size_t]. *)
Record http_parser := mkHttpParser {
  cs : N;
  body_start : nat;
  content_len : Z;
  nread : nat;
  mark : nat;
  field_start : nat;
  field_len : Z;
  query_start : nat;
  xml_sent : bool;
  json_sent : bool;
  uri_relaxed : bool;
}.

Definition set_mark (h : http_parser) v := mkHttpParser (cs h) (body_start h) (content_len h) (nread h) v (field_start h) (field_len h) (query_start h) (xml_sent h) (json_sent h) (uri_relaxed h).
Definition set_field_start (h : http_parser) v := mkHttpParser (cs h) (body_start h) (content_len h) (nread h) (mark h) v (field_len h) (query_start h) (xml_sent h) (json_sent h) (uri_relaxed h).
Definition set_field_len (h : http_parser) v := mkHttpParser (cs h) (body_start h) (content_len h) (nread h) (mark h) (field_start h) v (query_start h) (xml_sent h) (json_sent h) (uri_relaxed h).
Definition set_query_start (h : http_parser) v := mkHttpParser (cs h) (body_start h) (content_len h) (nread h) (mark h) (field_start h) (field_len h) v (xml_sent h) (json_sent h) (uri_relaxed h).
Definition set_body (h : http_parser) b c := mkHttpParser (cs h) b c (nread h) (mark h) (field_start h) (field_len h) (query_start h) (xml_sent h) (json_sent h) (uri_relaxed h).
Definition set_xml (h : http_parser) := mkHttpParser (cs h) (body_start h) (content_len h) (nread h) (mark h) (field_start h) (field_len h) (query_start h) true (json_sent h) (uri_relaxed h).
Definition set_json (h : http_parser) := mkHttpParser (cs h) (body_start h) (content_len h) (nread h) (mark h) (field_start h) (field_len h) (query_start h) (xml_sent h) true (uri_relaxed h).

(** [http_parser_init] leaves [query_start] and [uri_relaxed] alone: [qs] and
    [relaxed] are what the memory held. *)
Definition http_parser_init (qs : nat) (relaxed : bool) : http_parser :=
  mkHttpParser (m_start http_machine) 0 0 0 0 0 0 qs false false relaxed.

Section actions.
Context (buffer : string).

(** [LEN(AT, FPC)]: the difference of the offsets, as a [size_t]. *)
Definition LEN (at_ p : nat) : Z := u64 (Z.of_nat p - Z.of_nat at_).
(** [PTR_TO(F)]: the buffer from there on. *)
Definition PTR_TO (f : nat) : string := str_drop f buffer.

(** The variables of the run: the structure and what was reported. *)
Abbreviation vars := (http_parser * list pevent)%type.

Definition do_action (a : action) (p : nat) (v : vars) : outcome (vars * option N) :=
  let h := v.1 in
  let report e := Ok ((h, v.2 ++ [e]), None) in
  match a with
  | H11.mark | start_value => Ok ((set_mark h p, v.2), None)
  | start_field => Ok ((set_field_start h p, v.2), None)
  | write_field => Ok ((set_field_len h (LEN (field_start h) p), v.2), None)
  | write_value => report (OnField (PTR_TO (field_start h)) (field_len h) (PTR_TO (mark h)) (LEN (mark h) p))
  | request_method => report (OnMethod (PTR_TO (mark h)) (LEN (mark h) p))
  | request_uri => report (OnUri (PTR_TO (mark h)) (LEN (mark h) p))
  | fragment => report (OnFragment (PTR_TO (mark h)) (LEN (mark h) p))
  | start_query => Ok ((set_query_start h p, v.2), None)
  | query_string => report (OnQuery (PTR_TO (query_start h)) (LEN (query_start h) p))
  | http_version => report (OnVersion (PTR_TO (mark h)) (LEN (mark h) p))
  | request_path => report (OnPath (PTR_TO (mark h)) (LEN (mark h) p))
  | done cs' =>
      if xml_sent h || json_sent h
      then Ok ((set_body h (mark h) (i32 (Z.of_nat p - Z.of_nat (mark h) + 1)), v.2), Some cs')
      else Ok ((set_body h (S p) (content_len h), v.2 ++ [OnHeaderDone]), Some cs')
  | xml => Ok ((set_xml h, v.2), None)
  | json => Ok ((set_json h, v.2), None)
  end.

End actions.

Definition http_parser_has_error (h : http_parser) : bool := (cs h =? Rg.m_error http_machine)%N.
Definition http_parser_is_finished (h : http_parser) : bool := (m_first_final http_machine <=? cs h)%N.

Definition http_parser_finish (h : http_parser) : Z :=
  if http_parser_has_error h then -1 else if http_parser_is_finished h then 1 else 0.

(** [http_parser_execute] with offset 0; the return value is [nread]. The
    distance of the pointers is compared with the length converted to [int]. *)
Definition http_parser_execute (h : http_parser) (buffer : string) : outcome (http_parser * nat * list pevent) :=
  let len := String.length buffer in
  if (len =? 0)%nat then Ok (h, 0%nat, []) else
  let h := mkHttpParser (cs h) (body_start h) (content_len h) 0 0 0 0 (query_start h) (xml_sent h) (json_sent h) (uri_relaxed h) in
  _ ← sylar_assert (Z.of_nat len =? i32 (Z.of_nat len));
  '(cs', p, (h, evs)) ← run http_machine (uri_relaxed h) (do_action buffer) (cs h) 0 buffer (h, []);
  _ ← sylar_assert (p <=? len)%nat;
  let cs' := if http_parser_has_error h then cs h else cs' in
  let h := mkHttpParser cs' (body_start h) (content_len h) (nread h + p) (mark h) (field_start h) (field_len h)
             (query_start h) (xml_sent h) (json_sent h) (uri_relaxed h) in
  _ ← sylar_assert (nread h <=? len)%nat;
  _ ← sylar_assert (body_start h <=? len)%nat;
  _ ← sylar_assert (mark h <? len)%nat;
  _ ← sylar_assert (field_len h <=? Z.of_nat len);
  _ ← sylar_assert (field_start h <? len)%nat;
  Ok (h, nread h, evs).

(** The automaton of the session. *)
Definition http_automaton (qs : nat) (relaxed : bool) : automaton :=
  mkAuto http_parser (http_parser_init qs relaxed) http_parser_execute
    (fun h => negb (http_parser_finish h =? 0)) http_parser_has_error.

End Hm.
