(* ===== verification/HttpMachineProps.v ===== *)
(** The request automaton on arbitrary input: its assertions hold, and what it
    makes of headers that arrive in pieces. *)

From stdpp Require Import strings.
From Stdlib Require Import Ascii FMapPositive.
From S2P Require Import Prelude Strs Ragel RagelProps Http11Table Http HttpSession HttpMachine.

Import Rg RgP H11 Http Srv Hm.
Local Open Scope Z_scope.
#[local] Arguments String.append !_ _ /.

(** ** The assertions of [http_parser_execute] *)

(** The machine leaves only into final states, and has no case for the error
    state. *)
Definition http_machine_ok : bool :=
  forallb (fun e : positive * (list action * N) =>
    forallb (fun a => match a with done n => (m_first_final http_machine <=? n)%N | _ => true end) e.2.1)
    (PositiveMap.elements (m_labels http_machine))
  && match get (m_cases http_machine) 0 with None => true | _ => false end.

Lemma http_machine_checked : http_machine_ok = true.
Proof. vm_compute. reflexivity. Qed.

Section asserts.
Context (buffer : string) (relaxed : bool).
Abbreviation len := (String.length buffer).

(** What holds of the offsets at position [p]. *)
Definition offsets_ok (p : nat) (h : http_parser) : Prop :=
  (mark h <= p)%nat /\ (mark h < len)%nat /\ (field_start h <= p)%nat /\ (field_start h < len)%nat
  /\ 0 <= field_len h <= Z.of_nat len.

Lemma do_action_offsets a p h evs :
  (p < len)%nat -> Z.of_nat len < 2 ^ 64 -> offsets_ok p h -> body_start h = 0%nat ->
  exists h' evs' b, do_action buffer a p (h, evs) = Ok ((h', evs'), b) /\ offsets_ok p h' /\ cs h' = cs h /\ nread h' = nread h
    /\ match b with
       | None => body_start h' = 0%nat
       | Some n => a = done n /\ (body_start h' <= S p)%nat
       end.
Proof.
  intros Hp Hl (H1 & H2 & H3 & H4 & H5) Hb. unfold offsets_ok.
  destruct a; simpl; try (eexists _, _, _; split_and!; [reflexivity | ..]; simpl; try done; lia).
  - eexists _, _, _. split_and!; [reflexivity | ..]; simpl; try done; unfold LEN, u64;
      rewrite wrap_small by (unfold in_unsigned; lia); lia.
  - destruct (xml_sent h || json_sent h); (eexists _, _, _; split_and!; [reflexivity | ..]; simpl; try done; (lia || (split; [done | lia]))).
Qed.

Lemma do_all_offsets acts p h evs :
  (p < len)%nat -> Z.of_nat len < 2 ^ 64 -> offsets_ok p h -> body_start h = 0%nat ->
  exists h' evs' b, do_all (do_action buffer) acts p (h, evs) = Ok ((h', evs'), b)
    /\ offsets_ok p h' /\ cs h' = cs h /\ nread h' = nread h
    /\ match b with
       | None => body_start h' = 0%nat
       | Some n => In (done n) acts /\ (body_start h' <= S p)%nat
       end.
Proof.
  intros Hp Hl. revert h evs. induction acts as [| a acts IH]; intros h evs Ho Hb; cbn [do_all].
  { eexists _, _, _. by split_and!. }
  destruct (do_action_offsets a p h evs Hp Hl Ho Hb) as (h1 & evs1 & b & -> & Ho1 & Hc1 & Hr1 & Hb1). cbn [mbind outcome_bind].
  destruct b as [n|].
  - destruct Hb1 as [-> Hb1]. eexists _, _, _. split_and!; [reflexivity | done | done | done | split; [by left | done]].
  - destruct (IH h1 evs1 Ho1 Hb1) as (h2 & evs2 & b & -> & Ho2 & Hc2 & Hr2 & Hb2). eexists _, _, _. rewrite Hc2, Hc1, Hr2, Hr1.
    split_and!; [reflexivity | done | done | done |]. destruct b; [| done]. destruct Hb2. split; [by right | done].
Qed.

Lemma next_error c : next http_machine relaxed 0 c = None.
Proof.
  unfold next. pose proof http_machine_checked as H. apply andb_true_iff in H as [_ H]. by destruct (get (m_cases http_machine) 0).
Qed.

Lemma next_done q c acts n k :
  next http_machine relaxed q c = Some (acts, n) -> In (done k) acts -> (m_first_final http_machine <= k)%N.
Proof.
  intros E Hin. destruct (next_way _ _ _ _ _ _ E) as (r & _ & _). unfold next in E.
  destruct (get (m_cases http_machine) q) as [r'|]; [| done]. destruct (select relaxed r' (signed c)) as [m|m].
  - by injection E as <- <-.
  - apply get_In in E. pose proof http_machine_checked as H. apply andb_true_iff in H as [H _]. rewrite forallb_forall in H.
    apply H in E. rewrite forallb_forall in E. apply E in Hin. by apply N.leb_le in Hin.
Qed.

Lemma run_offsets data q p h evs :
  (p + String.length data = len)%nat -> (0 < len)%nat -> Z.of_nat len < 2 ^ 64 -> offsets_ok p h -> body_start h = 0%nat ->
  exists q' p' h' evs', run http_machine relaxed (do_action buffer) q p data (h, evs) = Ok (q', p', (h', evs'))
    /\ nread h' = nread h /\ (q = 0%N -> body_start h' = 0%nat) /\ (p' <= len)%nat /\ offsets_ok p' h' /\ cs h' = cs h /\ (body_start h' <= len)%nat
    /\ ((m_first_final http_machine <= q')%N \/ body_start h' = 0%nat).
Proof.
  revert q p h evs. induction data as [| c data IH]; intros q p h evs Hp Hpos Hl Ho Hb; cbn [run].
  { eexists _, _, _, _. split_and!; [reflexivity | done | done | simpl in Hp; lia | done | done | lia | by right]. }
  simpl in Hp. destruct (next http_machine relaxed q c) as [[acts n]|] eqn:E.
  2: { eexists _, _, _, _. split_and!; [reflexivity | done | done | lia | done | done | lia | by right]. }
  destruct (do_all_offsets acts p h evs ltac:(lia) Hl Ho Hb) as (h1 & evs1 & b & -> & Ho1 & Hc1 & Hr1 & Hb1). cbn [mbind outcome_bind].
  assert (Ho2 : offsets_ok (S p) h1) by (destruct Ho1 as (? & ? & ? & ? & ?); unfold offsets_ok; split_and!; lia).
  assert (Hq : q <> 0%N) by (intros ->; by rewrite next_error in E).
  destruct b as [k|].
  - destruct Hb1 as [Hin Hb1]. eexists _, _, _, _. split_and!; [reflexivity | done | done | lia | done | done | lia |].
    left. by eapply next_done.
  - destruct (N.eqb_spec n 0).
    + eexists _, _, _, _. split_and!; try done; [lia | lia | by right].
    + destruct (IH n (S p) h1 evs1) as (q' & p' & h' & evs' & E' & Hr & _ & ? & ? & Hc & ? & ?); try done; [lia |].
      eexists _, _, _, _. rewrite Hc, Hc1, Hr, Hr1 in *. by split_and!.
Qed.

End asserts.

(** C33: The assertions in [http_parser_execute] hold exactly for buffers below 2
    GiB. Whatever bytes arrive, and in whatever pieces of less than 2^31 bytes, a
    parser that has not reached the end of a header passes all of them: it
    consumes at most the bytes of the buffer, with its saved offsets and the
    length of the field inside it; and unless it has reached the end it is again
    such a parser. A buffer of 2^31 bytes or more, which a configured size allows,
    fails the comparison of the pointers with the length as an [int]. *)
Theorem http_asserts_hold (h : http_parser) (buffer : string) :
  body_start h = 0%nat -> Z.of_nat (String.length buffer) < 2 ^ 64 ->
  (Z.of_nat (String.length buffer) < 2 ^ 31 ->
   exists h' n evs, http_parser_execute h buffer = Ok (h', n, evs) /\ (n <= String.length buffer)%nat
     /\ (http_parser_is_finished h' = true \/ body_start h' = 0%nat))
  /\ (2 ^ 31 <= Z.of_nat (String.length buffer) -> http_parser_execute h buffer = Fail AssertFail).
Proof.
  intros Hb Hl. unfold http_parser_execute. destruct (Nat.eqb_spec (String.length buffer) 0) as [|Hpos].
  { split; [| lia]. exists h, 0%nat, []. split_and!; [done | lia | by right]. }
  rewrite int_length by lia. split; intros H31; [rewrite (proj2 (Z.ltb_lt _ _) H31) | by rewrite (proj2 (Z.ltb_ge _ _) H31)]. cbn [sylar_assert mbind outcome_bind].
  set (h0 := mkHttpParser _ _ _ _ _ _ _ _ _ _ _).
  destruct (run_offsets buffer (uri_relaxed h0) buffer (cs h0) 0 h0 []) as (q' & p' & h' & evs' & -> & Hr & Hq & Hp & Ho & Hc & Hbs & Hfin);
    [done | lia | done | unfold offsets_ok, h0; simpl; lia | done |].
  destruct Ho as (Hm1 & Hm & Hf1 & Hf & Hfl). cbn [mbind outcome_bind nread body_start mark field_len field_start].
  assert (Hn : (nread h' + p' <= String.length buffer)%nat) by (rewrite Hr; unfold h0; simpl; lia).
  rewrite (proj2 (Nat.leb_le _ _) Hp), (proj2 (Nat.leb_le _ _) Hn), (proj2 (Nat.leb_le _ _) Hbs), (proj2 (Nat.ltb_lt _ _) Hm),
    (proj2 (Z.leb_le _ _) (proj2 Hfl)), (proj2 (Nat.ltb_lt _ _) Hf).
  eexists _, _, _. split_and!; [reflexivity | done |]. unfold http_parser_is_finished. cbn [cs body_start].
  destruct Hfin as [Hfin | ->]; [| by right].
  destruct (http_parser_has_error h') eqn:He; [right | left; by apply N.leb_le].
  apply Hq. rewrite <- Hc. by apply N.eqb_eq in He.
Qed.

Lemma http_asserts_hold_witness :
  exists h' n evs, http_parser_execute (http_parser_init 7 true) "GET /a?b" = Ok (h', n, evs) /\ (n <= 8)%nat
    /\ (http_parser_is_finished h' = true \/ body_start h' = 0%nat).
Proof. apply (proj1 (http_asserts_hold (http_parser_init 7 true) "GET /a?b" ltac:(vm_compute; reflexivity) ltac:(vm_compute; reflexivity))); vm_compute; reflexivity. Defined.

(** ** Headers in pieces

    [http_parser_execute] consumes every byte it is given and forgets its
    offsets at the next call, while [execute] discards what was consumed: a
    token that two segments share is cut. *)

Definition no_cast (_ : string) : option Z := None.

Definition received_from (segs : list string) : outcome received :=
  fst <$> recvRequest (http_automaton 0 false) no_cast 10 0 4096 (Data <$> segs).

Abbreviation tail_of s := (s ++ crlf ++ crlf)%string.

(** A path cut in two loses its first part. *)
Theorem split_path_truncated :
  match received_from ["GET /ab"%string; tail_of "cd HTTP/1.1"] with Ok (Request r) => m_path r = "cd"%string | _ => False end.
Proof. vm_compute. reflexivity. Qed.

(** A query cut in two: the offset of its start is kept from the first buffer
    and lies behind the end in the second; the length wraps around and the
    string constructor throws. *)
Theorem split_query_throws : received_from ["GET /ab?x"%string; tail_of "=1 HTTP/1.1"] = Fail LogicError.
Proof. vm_compute. reflexivity. Qed.

(** A method cut in two is refused. *)
Theorem split_method_refused : received_from ["GE"%string; tail_of "T / HTTP/1.1"] = Ok (Nothing true).
Proof. vm_compute. reflexivity. Qed.

(** A field cut in two is dropped, or stored under the rest of its name. *)
Theorem split_field_lost :
  match received_from ["GET / HTTP/1.1" ++ crlf ++ "Host: ab"; tail_of "cd"]%string with
  | Ok (Request r) => m_headers r = [] | _ => False end
  /\ match received_from ["GET / HTTP/1.1" ++ crlf ++ "Ho"; tail_of "st: abcd"]%string with
     | Ok (Request r) => m_headers r = [("st", "abcd")%string] | _ => False end.
Proof. split; vm_compute; reflexivity. Qed.

(** ** The grammar *)

(** The method table has M-SEARCH, the grammar has no dash in a method. *)
Theorem msearch_refused : received_from [dump_request (setMethod (new_HttpRequest 17 true) MSEARCH)] = Ok (Nothing true).
Proof. vm_compute. reflexivity. Qed.

(** The control characters were meant to be excluded, [(0 - 31)], but the
    operator is a difference in the grammar: a line feed may stand in the name
    of a field. *)
Theorem line_feed_in_name :
  match received_from [tail_of ("GET / HTTP/1.1" ++ crlf ++ "A" ++ String "010" "B: x")]%string with
  | Ok (Request r) => m_headers r = [("A" ++ String "010" "B", "x")%string] | _ => False end.
Proof. vm_compute. reflexivity. Qed.
