(* ===== verification/HttpRequestRound.v ===== *)
(** From the client's [HttpRequest::dump] to the server's [recvRequest]: the
    request that is printed goes through the generated automaton, the callbacks
    and the session, and comes out the same. *)

From stdpp Require Import strings pretty sorting.
From Stdlib Require Import Ascii.
From S2P Require Import Prelude Strs Cnum Ragel RagelProps Http11Table Http HttpSession HttpMachine HttpProps HttpServeProps UriRound.

Import Rg RgP H11 Http Srv Hm.
Local Open Scope Z_scope.
#[local] Arguments String.append !_ _ /.

(** ** Facts of the machine *)

Abbreviation HM := http_machine.
Abbreviation on c := (Ascii.eqb c).

(** Names of fields: the characters of an HTTP token. *)
Definition token_char (c : ascii) : bool := alpha c || digit c || str_mem c "!#$%&'*+-.^_`|~".

(** Values of fields: no control character that ends or breaks a line. *)
Definition value_char (c : ascii) : bool := negb (str_mem c (String "000" (String "010" (String "013" (String "127" ""))))).
Definition value_first (c : ascii) : bool := value_char c && negb (Ascii.eqb c " ") && negb (Ascii.eqb c "009").

(** The automaton takes capital letters and digits for a method. *)
Definition method_ok (relaxed : bool) (m : HttpMethod) : bool :=
  bool_decide (m = INVALID_METHOD) || bool_decide (m = MSEARCH)
  || match HttpMethodToString m with
     | String c w =>
         match next HM relaxed 1 c with
         | Some ([H11.mark], q1) =>
             negb (q1 =? 0)%N && match walk HM relaxed q1 w with
                                 | Some q2 => bool_decide (next HM relaxed q2 " " = Some ([request_method], 3%N))
                                 | None => false
                                 end
         | _ => false
         end
     | ""%string => false
     end.

Lemma methods_ok : forallb (fun e => method_ok true e.1.2 && method_ok false e.1.2) HTTP_METHOD_MAP = true.
Proof. vm_compute. reflexivity. Qed.

Lemma method_facts relaxed m :
  m <> INVALID_METHOD -> m <> MSEARCH ->
  exists c w q1 q2, HttpMethodToString m = String c w /\ next HM relaxed 1 c = Some ([H11.mark], q1) /\ q1 <> 0%N
    /\ walk HM relaxed q1 w = Some q2 /\ next HM relaxed q2 " " = Some ([request_method], 3%N).
Proof.
  intros H1 H2. destruct (method_entry m H1) as [n Hn%list_elem_of_In]. pose proof methods_ok as H.
  rewrite forallb_forall in H. apply H in Hn. simpl in Hn. assert (Hm : method_ok relaxed m = true).
  { apply andb_true_iff in Hn as [? ?]. by destruct relaxed. }
  unfold method_ok in Hm. rewrite !bool_decide_eq_false_2 in Hm by done. cbn [orb] in Hm.
  destruct (HttpMethodToString m) as [| c w]; [done |]. exists c, w.
  destruct (next HM relaxed 1 c) as [[[| [] [|]] q1]|] eqn:E; try done. apply andb_true_iff in Hm as [Hq Hm].
  destruct (walk HM relaxed q1 w) as [q2|] eqn:Ew; [| done]. exists q1, q2. apply bool_decide_eq_true in Hm. clear H H1 H2 Hn.
  apply negb_true_iff, N.eqb_neq in Hq. auto 10.
Qed.

Lemma target_path_facts relaxed :
  edge HM relaxed [3%N] (on "/") [H11.mark] [33%N] = true /\ entry HM relaxed pchar [33%N] [] [26%N] = true
  /\ closed HM relaxed path_char [26%N] = true
  /\ edge HM relaxed [33%N; 26%N] (on "?") [request_path] [29%N] = true
  /\ edge HM relaxed [33%N; 26%N] (on "#") [request_path; request_uri] [20%N] = true
  /\ edge HM relaxed [33%N; 26%N] (on " ") [request_path; request_uri] [4%N] = true.
Proof. destruct relaxed; split_and!; vm_compute; reflexivity. Qed.

Lemma query_facts relaxed :
  entry HM relaxed query_char [29%N] [start_query] [30%N] = true /\ closed HM relaxed query_char [30%N] = true
  /\ edge HM relaxed [30%N] (on "#") [query_string; request_uri] [20%N] = true
  /\ edge HM relaxed [30%N] (on " ") [query_string; request_uri] [4%N] = true.
Proof. destruct relaxed; split_and!; vm_compute; reflexivity. Qed.

Lemma fragment_facts relaxed :
  entry HM relaxed query_char [20%N] [H11.mark] [21%N] = true /\ closed HM relaxed query_char [21%N] = true
  /\ edge HM relaxed [21%N] (on " ") [fragment] [4%N] = true.
Proof. destruct relaxed; split_and!; vm_compute; reflexivity. Qed.

Lemma version_facts relaxed (v : Z) :
  v = 17 \/ v = 16 ->
  exists w, version_string v = ("1." ++ w)%string /\ next HM relaxed 4 "H" = Some ([H11.mark], 5%N)
    /\ walk HM relaxed 5 ("TTP/1." ++ w) = Some 12%N.
Proof.
  intros [-> | ->]; [exists "1"%string | exists "0"%string]; (split; [done |]); destruct relaxed; split; vm_compute; reflexivity.
Qed.

Lemma line_facts relaxed :
  edge HM relaxed [12%N] (on "013") [http_version] [17%N] = true /\ edge HM relaxed [17%N] (on "010") [] [13%N] = true
  /\ edge HM relaxed [13%N] (on "013") [start_field] [18%N] = true
  /\ next HM relaxed 18 "010" = Some ([done 348], 348%N).
Proof. destruct relaxed; split_and!; vm_compute; reflexivity. Qed.

Lemma field_facts relaxed :
  edge HM relaxed [13%N] token_char [start_field] [14%N] = true /\ edge HM relaxed [14%N] token_char [] [14%N] = true
  /\ edge HM relaxed [14%N] (on ":") [write_field] [15%N] = true /\ edge HM relaxed [15%N] (on " ") [start_value] [15%N] = true
  /\ edge HM relaxed [15%N] value_first [start_value] [16%N] = true /\ edge HM relaxed [16%N] value_char [] [16%N] = true
  /\ edge HM relaxed [15%N] (on "013") [start_value; write_value] [17%N] = true
  /\ edge HM relaxed [16%N] (on "013") [write_value] [17%N] = true.
Proof. destruct relaxed; split_and!; vm_compute; reflexivity. Qed.

Lemma start_facts : m_start HM = 1%N /\ Rg.m_error HM = 0%N /\ m_first_final HM = 348%N.
Proof. split_and!; reflexivity. Qed.

(** A field that is read back as it is written. *)
Definition value_ok (v : string) : bool :=
  match v with ""%string => true | String c v => value_first c && str_forall value_char v end.

Definition wire_field (kv : string * string) : bool :=
  negb (String.eqb kv.1 "") && str_forall token_char kv.1 && value_ok kv.2.

#[local] Opaque http_machine edge entry closed.

(** ** What was reported

    The events reported so far make of a new request the request [d]. *)

Definition d0 : HttpRequest := new_HttpRequest 17 true.

Definition reports (evs : list pevent) (d : HttpRequest) : Prop :=
  forall A (a : a_state A), on_events A (mkParser A a d0 0) evs = Ok (mkParser A a d 0).

Lemma on_events_snoc A (p : HttpRequestParser A) evs e :
  on_events A p (evs ++ [e]) = (p ← on_events A p evs; on_event A p e).
Proof.
  revert p. induction evs as [| e' evs IH]; intros p; simpl; [by destruct (on_event A p e) |].
  destruct (on_event A p e'); [apply IH | done].
Qed.

Lemma reports_snoc evs d e d' :
  reports evs d -> (forall A (a : a_state A), on_event A (mkParser A a d 0) e = Ok (mkParser A a d' 0)) ->
  reports (evs ++ [e]) d'.
Proof. intros H He A a. rewrite on_events_snoc, H. apply He. Qed.

Lemma token_is_app w rest name :
  token_is (w ++ rest) (Z.of_nat (String.length w)) name = String.eqb (c_str w) (str_take (String.length w) name).
Proof.
  unfold token_is. rewrite Z.min_l by (rewrite length_str_app; lia).
  by rewrite Nat2Z.id, str_take_app, str_take_ge, Nat.sub_diag, str_app_nil by lia.
Qed.

Section stages.
Context (buffer : string) (relaxed : bool).
Hypothesis Hbuf : Z.of_nat (String.length buffer) < 2 ^ 31.

Abbreviation exec := (run HM relaxed (do_action buffer)).

(** The structure while the header is read. *)
Definition HP (m fs : nat) (fl : Z) (qs : nat) : http_parser := mkHttpParser 1 0 0 0 m fs fl qs false false relaxed.

Lemma len_at (pre w : string) (rest : string) :
  buffer = (pre ++ w ++ rest)%string -> LEN (String.length pre) (String.length pre + String.length w) = Z.of_nat (String.length w).
Proof.
  intros E. rewrite E, !length_str_app in Hbuf. unfold LEN.
  replace (Z.of_nat (String.length pre + String.length w) - Z.of_nat (String.length pre)) with (Z.of_nat (String.length w)) by lia.
  apply wrap_small. unfold in_unsigned. lia.
Qed.

(** A token that stands in the buffer. *)
Lemma token_at pre w rest :
  buffer = (pre ++ w ++ rest)%string ->
  cpp_string (PTR_TO buffer (String.length pre)) (LEN (String.length pre) (String.length pre + String.length w)) = Ok w.
Proof.
  intros E. rewrite (len_at pre w rest E). unfold cpp_string, PTR_TO.
  rewrite E, str_drop_app, str_drop_ge, Nat.sub_diag by lia. cbn [String.append str_drop]. rewrite length_str_app.
  destruct (Z.leb_spec (Z.of_nat (String.length w)) (Z.of_nat (String.length w + String.length rest))); [| lia].
  rewrite Nat2Z.id, str_take_app, str_take_ge, Nat.sub_diag by lia. by rewrite str_app_nil.
Qed.

(** The method and the space after it. *)
Lemma method_stage m rest qs :
  m <> INVALID_METHOD -> m <> MSEARCH -> buffer = (HttpMethodToString m ++ String " " rest)%string ->
  exists evs, reports evs (setMethod d0 m)
    /\ exec 1 0 buffer (HP 0 0 0 qs, []) = exec 3 (S (String.length (HttpMethodToString m))) rest (HP 0 0 0 qs, evs).
Proof.
  intros H1 H2 Eb. destruct (method_facts relaxed m H1 H2) as (c & w & q1 & q2 & En & E1 & Hq & E2 & E3).
  exists [OnMethod (PTR_TO buffer 0) (LEN 0 (String.length (HttpMethodToString m)))]. split.
  - apply (reports_snoc [] d0); [done |]. intros A a. simpl. unfold on_request_method, PTR_TO. cbn [str_drop].
    destruct (proj1 (methods_and_statuses_exact)  m buffer H1) as [[_ Hm] _].
    rewrite Hm; [by case_bool_decide |]. rewrite Eb. apply prefix_app.
  - replace (exec 1 0 buffer) with (exec 1 0 (HttpMethodToString m ++ String " " rest)) by (by rewrite <- Eb).
    rewrite En. cbn [String.append]. erewrite (run_next _ _ _ _ _ _ _ _ _ _ _ E1); [| exact Hq | reflexivity].
    rewrite (run_walk _ _ _ _ _ _ _ _ _ E2). erewrite (run_next _ _ _ _ _ _ _ _ _ _ _ E3); [| done | reflexivity].
    reflexivity.
Qed.

(** From a state where [acts] report a part: what follows is a fragment or
    nothing, and a space. *)
Lemma target_fragment_stage Q acts pre f rest m fs fl qs evs0 evs d :
  edge HM relaxed Q (on "#") acts [20%N] = true -> edge HM relaxed Q (on " ") acts [4%N] = true ->
  buffer = (pre ++ marked "#" f ++ String " " rest)%string -> word query_char f = true ->
  do_all (do_action buffer) acts (String.length pre) (HP m fs fl qs, evs0) = Ok ((HP m fs fl qs, evs), None) ->
  reports evs d -> m_fragment d = ""%string -> (m <= String.length pre)%nat ->
  forall q, In q Q -> exists m' evs', (m' <= String.length (pre ++ marked "#" f))%nat /\ reports evs' (setFragment d f)
    /\ exec q (String.length pre) (marked "#" f ++ String " " rest) (HP m fs fl qs, evs0)
       = exec 4 (S (String.length (pre ++ marked "#" f))) rest (HP m' fs fl qs, evs').
Proof.
  intros H1 H2 Eb Hw Hd Hr Hf Hm q Hq. unfold marked in *. destruct (String.eqb_spec f "") as [-> | Hne]; cbn [String.append] in *.
  - exists m, evs. rewrite str_app_nil. split_and!; [done | by destruct d; simpl in *; subst |].
    destruct (run_char HM relaxed (do_action buffer) _ _ _ _ _ H2 Hq) as (n & [<- | []] & E). by rewrite (E _ _ _ _ Hd).
  - destruct (run_char HM relaxed (do_action buffer) _ _ _ _ _ H1 Hq) as (n & [<- | []] & E). clear H1 H2 Hq.
    destruct (fragment_facts relaxed) as (F1 & F2 & F3).
    destruct (run_entry HM relaxed (do_action buffer) _ _ _ _ f 20 F1 F2 Hw Hne (or_introl eq_refl)) as (n & [<- | []] & E2).
    destruct (run_char HM relaxed (do_action buffer) _ _ _ _ 21 F3 (or_introl eq_refl)) as (n & [<- | []] & E3). clear F1 F2 F3.
    set (pre2 := (pre ++ "#")%string).
    assert (L : S (String.length pre) = String.length pre2) by (unfold pre2; rewrite length_str_app; simpl; lia).
    exists (String.length pre2), (evs ++ [OnFragment (PTR_TO buffer (String.length pre2))
                                            (LEN (String.length pre2) (String.length pre2 + String.length f))]).
    split_and!.
    + rewrite length_str_app. simpl. unfold pre2. rewrite length_str_app. simpl. lia.
    + apply (reports_snoc _ d); [done |]. intros A a. simpl.
      by rewrite (token_at pre2 f (String " " rest)) by (rewrite Eb; unfold pre2; by rewrite str_app_snoc).
    + rewrite (E _ _ _ _ Hd), L, (E2 _ _ _ (HP (String.length pre2) fs fl qs, evs)) by done.
      erewrite E3; [| reflexivity]. do 2 f_equal. rewrite <- L, length_str_app. simpl. lia.
Qed.

(** The query in front of it. *)
Lemma query_stage pre qu f rest m fs fl qs evs0 evs d :
  buffer = (pre ++ marked "?" qu ++ marked "#" f ++ String " " rest)%string ->
  word query_char qu = true -> word query_char f = true ->
  (exists evs1, reports evs1 d /\ do_all (do_action buffer) [request_path] (String.length pre) (HP m fs fl qs, evs0)
     = Ok ((HP m fs fl qs, evs1), None)) ->
  do_all (do_action buffer) [request_path; request_uri] (String.length pre) (HP m fs fl qs, evs0) = Ok ((HP m fs fl qs, evs), None) ->
  reports evs d -> m_query d = ""%string -> m_fragment d = ""%string -> (m <= String.length pre)%nat ->
  forall q, In q [33%N; 26%N] ->
  exists m' qs' evs', (m' <= String.length (pre ++ marked "?" qu ++ marked "#" f))%nat
    /\ reports evs' (setFragment (setQuery d qu) f)
    /\ exec q (String.length pre) (marked "?" qu ++ marked "#" f ++ String " " rest) (HP m fs fl qs, evs0)
       = exec 4 (S (String.length (pre ++ marked "?" qu ++ marked "#" f))) rest (HP m' fs fl qs', evs').
Proof.
  intros Eb Hwq Hwf (evs1 & Hr1 & Hd1) Hd Hr Hq Hf Hm q HQ.
  destruct (String.eqb_spec qu "") as [-> | Hne]; [destruct (target_path_facts relaxed) as (_ & _ & _ & _ & H2 & H3) |].
  - destruct (target_fragment_stage _ _ pre f rest m fs fl qs evs0 evs d H2 H3) with (q := q) as (m' & evs' & ? & ? & E); try assumption.
    exists m', qs, evs'. split_and!; [done | by destruct d; simpl in *; subst | exact E].
  - assert (Em : marked "?" qu = String "?" qu) by (unfold marked; by destruct (String.eqb_spec qu "")).
    rewrite Em in Eb |- *. clear Em. cbn [String.append] in Eb |- *. destruct (target_path_facts relaxed) as (_ & _ & _ & H1 & _ & _).
    destruct (run_char HM relaxed (do_action buffer) _ _ _ _ _ H1 HQ) as (n & [<- | []] & E). clear H1 HQ.
    destruct (query_facts relaxed) as (F1 & F2 & F3 & F4).
    destruct (run_entry HM relaxed (do_action buffer) _ _ _ _ qu 29 F1 F2 Hwq Hne (or_introl eq_refl)) as (n & [<- | []] & E2).
    clear F1 F2. set (pre2 := (pre ++ "?")%string).
    assert (L : S (String.length pre) = String.length pre2) by (unfold pre2; rewrite length_str_app; simpl; lia).
    assert (Eb2 : buffer = (pre2 ++ qu ++ marked "#" f ++ String " " rest)%string) by (rewrite Eb; unfold pre2; by rewrite str_app_snoc).
    set (e1 := OnQuery (PTR_TO buffer (String.length pre2)) (LEN (String.length pre2) (String.length pre2 + String.length qu))).
    set (e2 := OnUri (PTR_TO buffer m) (LEN m (String.length pre2 + String.length qu))).
    pose proof (target_fragment_stage _ _ (pre2 ++ qu) f rest m fs fl (String.length pre2) evs1 (evs1 ++ [e1] ++ [e2]) (setQuery d qu) F3 F4) as FS.
    clear F3 F4. destruct FS with (q := 30%N) as (m' & evs' & Hm' & Hr' & E3); try done.
    + by rewrite Eb2, str_app_assoc.
    + unfold e1, e2. rewrite <- !length_str_app. cbn. by rewrite <- app_assoc.
    + rewrite app_assoc. apply (reports_snoc _ (setQuery d qu)); [| done]. apply (reports_snoc _ d); [done |].
      intros A a. unfold e1. simpl. by rewrite (token_at pre2 qu _ Eb2).
    + rewrite length_str_app, <- L. lia.
    + by left.
    + exists m', (String.length pre2), evs'. assert (Ep : ((pre2 ++ qu) ++ marked "#" f = pre ++ String "?" (qu ++ marked "#" f))%string).
      { unfold pre2. by rewrite !str_app_assoc. }
      rewrite Ep in Hm', E3. split_and!; [done | done |].
      rewrite (E _ _ _ _ Hd1), L, (E2 _ _ _ (HP m fs fl (String.length pre2), evs1)) by done.
      rewrite <- length_str_app. exact E3.
Qed.

(** The path moves to one of two states. *)
Lemma path_runs pre w m fs fl qs :
  match w with String c _ => Ascii.eqb c "/" = false | ""%string => True end -> word path_char w = true ->
  exists q, In q [33%N; 26%N] /\ forall evs rest,
    exec 3 (String.length pre) (String "/" (w ++ rest)) (HP m fs fl qs, evs)
    = exec q (String.length (pre ++ String "/" w)) rest (HP (String.length pre) fs fl qs, evs).
Proof.
  intros Hs Hw. destruct (target_path_facts relaxed) as (H1 & H2 & H3 & _).
  destruct (run_char HM relaxed (do_action buffer) _ _ _ _ 3 H1 (or_introl eq_refl)) as (n & [<- | []] & E). clear H1.
  destruct w as [| c w].
  - exists 33%N. split; [by left |]. intros evs rest. cbn [String.append]. erewrite E; [| reflexivity].
    rewrite length_str_app. do 2 f_equal. simpl. lia.
  - assert (Hfirst : path_char c = true -> pchar c = true) by (unfold path_char; rewrite Hs; by destruct (pchar c)).
    destruct (run_entry_first HM relaxed (do_action buffer) _ _ _ _ _ c w 33 H2 H3 Hfirst Hw (or_introl eq_refl))
      as (n & [<- | []] & E2).
    exists 26%N. split; [right; by left |]. intros evs rest. erewrite E; [| reflexivity]. erewrite E2; [| reflexivity]. do 2 f_equal. rewrite length_str_app. simpl. lia.
Qed.

(** The target of the request: path, query, fragment, and the space after it. *)
Lemma target_stage pre w qu f rest m fs fl qs evs d :
  buffer = (pre ++ String "/" w ++ marked "?" qu ++ marked "#" f ++ String " " rest)%string ->
  match w with String c _ => Ascii.eqb c "/" = false | ""%string => True end ->
  word path_char w = true -> word query_char qu = true -> word query_char f = true ->
  reports evs d -> m_query d = ""%string -> m_fragment d = ""%string ->
  exists m' qs' evs', (m' <= String.length (pre ++ String "/" w ++ marked "?" qu ++ marked "#" f))%nat
    /\ reports evs' (setFragment (setQuery (setPath d (String "/" w)) qu) f)
    /\ exec 3 (String.length pre) (String "/" (w ++ marked "?" qu ++ marked "#" f ++ String " " rest)) (HP m fs fl qs, evs)
       = exec 4 (S (String.length (pre ++ String "/" w ++ marked "?" qu ++ marked "#" f))) rest (HP m' fs fl qs', evs').
Proof.
  intros Eb Hs Hw Hwq Hwf Hr Hq Hf.
  assert (Hpath : exists q, In q [33%N; 26%N] /\ forall evs' rest',
    exec 3 (String.length pre) (String "/" (w ++ rest')) (HP m fs fl qs, evs')
    = exec q (String.length (pre ++ String "/" w)) rest' (HP (String.length pre) fs fl qs, evs')).
  { apply path_runs; assumption. }
  destruct Hpath as (q & HQ & Hrun). rewrite Hrun. clear Hrun.
  set (pre2 := (pre ++ String "/" w)%string). set (e1 := OnPath (PTR_TO buffer (String.length pre)) (LEN (String.length pre) (String.length pre2))).
  set (e2 := OnUri (PTR_TO buffer (String.length pre)) (LEN (String.length pre) (String.length pre2))).
  assert (Hr1 : reports (evs ++ [e1]) (setPath d (String "/" w))).
  { apply (reports_snoc _ d); [done |]. intros A a. unfold e1, pre2. simpl.
    by rewrite length_str_app, (token_at pre (String "/" w) _ Eb). }
  destruct (query_stage pre2 qu f rest (String.length pre) fs fl qs evs (evs ++ [e1] ++ [e2]) (setPath d (String "/" w)))
    with (q := q) as (m' & qs' & evs' & Hm' & Hr' & E); try assumption.
  - rewrite Eb. unfold pre2. clear. by rewrite str_app_assoc.
  - exists (evs ++ [e1]). split; [assumption |]. reflexivity.
  - cbn. rewrite <- app_assoc. reflexivity.
  - rewrite app_assoc. apply (reports_snoc _ (setPath d (String "/" w))); [assumption |]. reflexivity.
  - unfold pre2. rewrite length_str_app. lia.
  - exists m', qs', evs'. assert (Ep : (pre2 ++ marked "?" qu ++ marked "#" f = pre ++ String "/" w ++ marked "?" qu ++ marked "#" f)%string).
    { unfold pre2. clear. by rewrite str_app_assoc. }
    rewrite Ep in Hm', E. auto.
Qed.

(** The version and the end of the first line. *)
Lemma version_stage pre v rest m fs fl qs evs d :
  buffer = (pre ++ "HTTP/" ++ version_string v ++ crlf ++ rest)%string -> v = 17 \/ v = 16 -> reports evs d ->
  exists evs', reports evs' (setVersion d v)
    /\ exec 4 (String.length pre) ("HTTP/" ++ version_string v ++ crlf ++ rest) (HP m fs fl qs, evs)
       = exec 13 (String.length (pre ++ "HTTP/" ++ version_string v ++ crlf)) rest (HP (String.length pre) fs fl qs, evs').
Proof.
  intros Eb Hv Hr. destruct (version_facts relaxed v Hv) as (w & Ev & E1 & E2). destruct (line_facts relaxed) as (F1 & F2 & _).
  destruct (run_char HM relaxed (do_action buffer) _ _ _ _ 12 F1 (or_introl eq_refl)) as (n & [<- | []] & E3).
  destruct (run_char HM relaxed (do_action buffer) _ _ _ _ 17 F2 (or_introl eq_refl)) as (n & [<- | []] & E4). clear F1 F2.
  assert (L : S (String.length pre + 6 + String.length w) = (String.length pre + String.length ("HTTP/" ++ version_string v))%nat).
  { rewrite Ev. simpl. lia. }
  exists (evs ++ [OnVersion (PTR_TO buffer (String.length pre)) (LEN (String.length pre) (S (String.length pre + 6 + String.length w)))]).
  split.
  - apply (reports_snoc _ d); [done |]. intros A a. cbn [on_event]. unfold on_request_version. do 2 f_equal.
    rewrite L, (len_at pre ("HTTP/" ++ version_string v) (crlf ++ rest)) by (rewrite Eb; clear; by rewrite !str_app_assoc).
    unfold PTR_TO. rewrite Eb, str_drop_app, str_drop_ge, Nat.sub_diag by lia. cbn [str_drop]. clear - Hv.
    rewrite <- (str_app_assoc "HTTP/"). change ("" ++ ?x)%string with x. rewrite !token_is_app.
    destruct Hv as [-> | ->]; reflexivity.
  - rewrite Ev. unfold crlf. cbn [String.append].
    erewrite (run_next _ _ _ _ _ _ _ _ _ _ _ E1); [| done | reflexivity].
    etransitivity; [apply (run_walk HM relaxed (do_action buffer) ("TTP/1." ++ w) 5 12 (S (String.length pre))
                             (String "013" (String "010" rest)) _ E2) |].
    replace (S (String.length pre) + String.length ("TTP/1." ++ w))%nat with (S (String.length pre + 6 + String.length w)) by (simpl; lia).
    erewrite E3; [| reflexivity]. erewrite E4; [| reflexivity]. f_equal.
    rewrite length_str_app. simpl. rewrite length_str_app. simpl. lia.
Qed.

(** The value of a field, from the space in front of it to the end of the
    line. *)
Lemma value_stage pre v rest m fs fl qs evs :
  buffer = (pre ++ v ++ crlf ++ rest)%string -> value_ok v = true ->
  exec 15 (String.length pre) (v ++ crlf ++ rest) (HP m fs fl qs, evs)
  = exec 13 (String.length (pre ++ v ++ crlf)) rest
      (HP (String.length pre) fs fl qs,
       evs ++ [OnField (PTR_TO buffer fs) fl (PTR_TO buffer (String.length pre)) (LEN (String.length pre) (String.length pre + String.length v))]).
Proof.
  intros Eb Hv. destruct (line_facts relaxed) as (_ & F & _). destruct (field_facts relaxed) as (_ & _ & _ & _ & F1 & F2 & F3 & F4).
  destruct (run_char HM relaxed (do_action buffer) _ _ _ _ 17 F (or_introl eq_refl)) as (n & [<- | []] & E). clear F.
  destruct v as [| c v].
  - destruct (run_char HM relaxed (do_action buffer) _ _ _ _ 15 F3 (or_introl eq_refl)) as (n & [<- | []] & E1). clear F1 F2 F3 F4.
    unfold crlf. cbn [String.append]. erewrite E1; [| reflexivity]. erewrite E; [| reflexivity].
    rewrite length_str_app, Nat.add_0_r. f_equal. simpl. lia.
  - cbn [value_ok] in Hv. apply andb_true_iff in Hv as [Hc Hv].
    destruct (run_first HM relaxed (do_action buffer) _ _ _ _ _ c v 15 F1 F2 Hc Hv (or_introl eq_refl)) as (n & [<- | []] & E1).
    destruct (run_char HM relaxed (do_action buffer) _ _ _ _ 16 F4 (or_introl eq_refl)) as (n & [<- | []] & E2). clear F1 F2 F3 F4.
    unfold crlf. cbn [String.append]. erewrite E1; [| reflexivity]. erewrite E2; [| reflexivity]. erewrite E; [| reflexivity].
    rewrite length_str_app. f_equal. simpl. rewrite length_str_app. simpl. lia.
Qed.

(** One field. *)
Lemma field_stage pre kv rest m fs fl qs evs d :
  buffer = (pre ++ header_text kv ++ crlf ++ rest)%string -> wire_field kv = true -> reports evs d ->
  exists m' fs' fl' evs', (m' < String.length buffer)%nat /\ (fs' < String.length buffer)%nat
    /\ fl' <= Z.of_nat (String.length buffer) /\ reports evs' (setHeader d kv.1 kv.2)
    /\ exec 13 (String.length pre) (header_text kv ++ crlf ++ rest) (HP m fs fl qs, evs)
       = exec 13 (String.length (pre ++ header_text kv ++ crlf)) rest (HP m' fs' fl' qs, evs').
Proof.
  unfold wire_field, header_text. destruct kv as [k v]. cbn [fst snd].
  intros Eb [[Hne%negb_true_iff%String.eqb_neq Hk]%andb_true_iff Hv]%andb_true_iff Hr.
  destruct k as [| c k]; [done |]. destruct (field_facts relaxed) as (F1 & F2 & F3 & F4 & _).
  cbn [str_forall] in Hk. apply andb_true_iff in Hk as [Hc Hk].
  destruct (run_first HM relaxed (do_action buffer) _ _ _ _ _ c k 13 F1 F2 Hc Hk (or_introl eq_refl)) as (n & [<- | []] & E1).
  destruct (run_char HM relaxed (do_action buffer) _ _ _ _ 14 F3 (or_introl eq_refl)) as (n & [<- | []] & E2).
  destruct (run_char HM relaxed (do_action buffer) _ _ _ _ 15 F4 (or_introl eq_refl)) as (n & [<- | []] & E3). clear F1 F2 F3 F4.
  set (K := String c k) in *. set (pre2 := (pre ++ K ++ ": ")%string).
  assert (Eb1 : buffer = (pre ++ K ++ ": " ++ v ++ crlf ++ rest)%string) by (rewrite Eb; clear; by rewrite !str_app_assoc).
  assert (Eb2 : buffer = (pre2 ++ v ++ crlf ++ rest)%string) by (rewrite Eb1; unfold pre2; clear; by rewrite !str_app_assoc).
  assert (HL : (String.length pre2 + 2 <= String.length buffer)%nat).
  { rewrite Eb2, !length_str_app. simpl. lia. }
  assert (HL2 : (String.length pre2 = String.length pre + String.length K + 2)%nat).
  { unfold pre2. rewrite !length_str_app. simpl. lia. }
  eexists (String.length pre2), (String.length pre), (LEN (String.length pre) (String.length pre + String.length K)), _.
  split_and!; [lia | lia | rewrite (len_at pre K _ Eb1); lia | |].
  2: { rewrite !str_app_assoc. unfold K at 1. cbn [String.append]. fold K.
       rewrite (E1 _ _ _ (HP m (String.length pre) fl qs, evs)) by reflexivity. fold K. set (fl' := LEN _ _).
       rewrite (E2 _ _ _ (HP m (String.length pre) fl' qs, evs)) by reflexivity.
       rewrite (E3 _ _ _ (HP (S (String.length pre + String.length K)) (String.length pre) fl' qs, evs)) by reflexivity.
       replace (S (S (String.length pre + String.length K))) with (String.length pre2) by lia.
       rewrite (value_stage _ _ _ _ _ _ _ _ Eb2 Hv). f_equal. unfold pre2. rewrite !length_str_app. simpl. rewrite ?length_str_app. simpl. lia. }
  apply (reports_snoc _ d); [done |]. intros A a. cbn [on_event]. unfold on_request_http_field.
  rewrite (token_at pre K _ Eb1), (token_at pre2 v _ Eb2), (len_at pre K _ Eb1).
  destruct (Z.eqb_spec (Z.of_nat (String.length K)) 0) as [E0|]; [simpl in E0; lia | done].
Qed.

(** All of them. *)
Lemma fields_stage fields pre rest m fs fl qs evs d :
  buffer = (pre ++ render (header_text <$> fields) ++ crlf ++ rest)%string -> forallb wire_field fields = true -> reports evs d ->
  (m < String.length buffer)%nat -> (fs < String.length buffer)%nat -> fl <= Z.of_nat (String.length buffer) ->
  exists m' fs' fl' evs', (m' < String.length buffer)%nat /\ (fs' < String.length buffer)%nat
    /\ fl' <= Z.of_nat (String.length buffer) /\ reports evs' (foldl (fun d kv => setHeader d kv.1 kv.2) d fields)
    /\ exec 13 (String.length pre) (render (header_text <$> fields) ++ crlf ++ rest) (HP m fs fl qs, evs)
       = exec 13 (String.length (pre ++ render (header_text <$> fields))) (crlf ++ rest) (HP m' fs' fl' qs, evs').
Proof.
  revert pre m fs fl evs d. induction fields as [| kv fields IH]; intros pre m fs fl evs d Eb Hok Hr Hm Hfs Hfl.
  { exists m, fs, fl, evs. split_and!; try done. cbn. by rewrite str_app_nil. }
  cbn [forallb] in Hok. apply andb_true_iff in Hok as [Hkv Hok]. rewrite fmap_cons in Eb |- *. cbn [render foldl] in *.
  rewrite !str_app_assoc in Eb |- *.
  destruct (field_stage pre kv (render (header_text <$> fields) ++ crlf ++ rest) m fs fl qs evs d Eb Hkv Hr)
    as (m1 & fs1 & fl1 & evs1 & H1 & H2 & H3 & H4 & E1).
  destruct (IH (pre ++ header_text kv ++ crlf)%string m1 fs1 fl1 evs1 (setHeader d kv.1 kv.2))
    as (m2 & fs2 & fl2 & evs2 & ? & ? & ? & ? & E2); try done.
  { rewrite Eb. clear. by rewrite !str_app_assoc. }
  exists m2, fs2, fl2, evs2. split_and!; try done. rewrite E1, E2. f_equal. by rewrite !str_app_assoc.
Qed.

(** The empty line. *)
Lemma end_stage pre rest m fs fl qs evs :
  exec 13 (String.length pre) (crlf ++ rest) (HP m fs fl qs, evs)
  = Ok (348%N, S (S (String.length pre)),
        (set_body (HP m (String.length pre) fl qs) (S (S (String.length pre))) 0, evs ++ [OnHeaderDone])).
Proof.
  destruct (line_facts relaxed) as (_ & _ & F1 & F2).
  destruct (run_char HM relaxed (do_action buffer) _ _ _ _ 13 F1 (or_introl eq_refl)) as (n & [<- | []] & E). clear F1.
  unfold crlf. cbn [String.append]. erewrite E; [| reflexivity]. cbn [run]. rewrite F2. reflexivity.
Qed.

End stages.

(** ** The whole header *)

(** Requests whose parts the automaton takes. *)
Definition request_wire (r : HttpRequest) : bool :=
  negb (bool_decide (m_method r = INVALID_METHOD)) && negb (bool_decide (m_method r = MSEARCH))
  && ((m_version r =? 17) || (m_version r =? 16))
  && match m_path r with
     | String c w => Ascii.eqb c "/" && word path_char w && match w with String c _ => negb (Ascii.eqb c "/") | ""%string => true end
     | ""%string => false
     end
  && word query_char (m_query r) && word query_char (m_fragment r) && forallb wire_field (m_headers r).

(** The request that the callbacks build. *)
Definition parsed_request (r : HttpRequest) : HttpRequest :=
  foldl (fun d kv => setHeader d kv.1 kv.2)
    (setVersion (setFragment (setQuery (setPath (setMethod d0 (m_method r)) (m_path r)) (m_query r)) (m_fragment r)) (m_version r))
    (request_fields r).

Definition request_head (r : HttpRequest) : string := (render (request_text r :: (header_text <$> request_fields r)) ++ crlf)%string.

Lemma dump_head r : dump_request r = (request_head r ++ m_body r)%string.
Proof. unfold request_head. by rewrite request_as_lines, str_app_assoc. Qed.

Lemma digits_value a : str_forall (Cn.is_digit 10) a = true -> value_ok a = true.
Proof.
  assert (H : forall c, Cn.is_digit 10 c = true -> value_first c = true /\ value_char c = true).
  { intros [[] [] [] [] [] [] [] []]; vm_compute; auto. }
  destruct a as [| c a]; [done |]. cbn [str_forall value_ok]. intros [Hc Ha]%andb_true_iff.
  rewrite (proj1 (H c Hc)). apply (str_forall_impl (Cn.is_digit 10)); [| done]. intros x Hx. by apply H.
Qed.

Lemma request_fields_wire r : forallb wire_field (m_headers r) = true -> forallb wire_field (request_fields r) = true.
Proof.
  intros H. unfold request_fields. cbn [forallb]. rewrite forallb_app.
  assert (Hp : forallb wire_field (plain_headers (m_headers r)) = true).
  { unfold plain_headers. rewrite forallb_forall in H |- *. intros kv [Hin _]%filter_In. auto. }
  rewrite Hp. assert (Hc : wire_field (connection_field (m_close r)) = true) by by destruct (m_close r).
  rewrite Hc. cbn [andb]. unfold length_field. destruct (String.eqb (m_body r) ""); [done |]. cbn [forallb]. rewrite andb_true_r.
  unfold wire_field, show. cbn [fst snd].
  destruct (Cn.pretty_digits (Z.to_N (Z.of_nat (String.length (m_body r))))) as (a & -> & _ & Ha & _). by rewrite digits_value.
Qed.

(** The buffer, part by part. *)
Lemma buffer_form r w extra :
  m_path r = String "/" w ->
  (request_head r ++ extra = HttpMethodToString (m_method r) ++ String " " (String "/" (w ++ marked "?" (m_query r)
     ++ marked "#" (m_fragment r) ++ String " " ("HTTP/" ++ version_string (m_version r) ++ crlf
     ++ render (header_text <$> request_fields r) ++ crlf ++ extra))))%string.
Proof.
  intros Ew. unfold request_head, request_text. rewrite Ew. cbn [render]. by str_norm.
Qed.

(** The run of the machine over the header. *)
Lemma run_request r qs relaxed extra :
  let buffer := (request_head r ++ extra)%string in
  request_wire r = true -> Z.of_nat (String.length buffer) < 2 ^ 31 ->
  exists m fs fl qs' evs, (m < String.length buffer)%nat /\ (S (S fs) <= String.length buffer)%nat
    /\ fl <= Z.of_nat (String.length buffer) /\ reports (evs ++ [OnHeaderDone]) (parsed_request r)
    /\ run HM relaxed (do_action buffer) 1 0 buffer (HP relaxed 0 0 0 qs, [])
       = Ok (348%N, String.length (request_head r), (set_body (HP relaxed m fs fl qs') (String.length (request_head r)) 0, evs ++ [OnHeaderDone])).
Proof.
  intros buffer Hr Hlen. unfold request_wire in Hr.
  rewrite !andb_true_iff, !negb_true_iff, !bool_decide_eq_false, orb_true_iff, !Z.eqb_eq in Hr.
  destruct Hr as [[[[[[H1 H2] Hv] Hp] Hq] Hf] Hh]. destruct (m_path r) as [| c w] eqn:Ep; [done |].
  apply andb_true_iff in Hp as [[->%Ascii.eqb_eq Hw]%andb_true_iff Hs].
  pose proof (buffer_form r w extra Ep) as Eb. fold buffer in Eb.
  set (fields := request_fields r) in *. set (M := HttpMethodToString (m_method r)) in *.
  set (T := (String "/" w ++ marked "?" (m_query r) ++ marked "#" (m_fragment r))%string).
  set (V := ("HTTP/" ++ version_string (m_version r) ++ crlf)%string).
  set (F := render (header_text <$> fields)) in *.
  destruct (method_stage buffer relaxed (m_method r) _ qs H1 H2 Eb) as (evs1 & R1 & E1).
  set (pre1 := (M ++ " ")%string). assert (L1 : S (String.length M) = String.length pre1) by (unfold pre1; rewrite length_str_app; simpl; lia).
  destruct (target_stage buffer relaxed Hlen pre1 w (m_query r) (m_fragment r) (V ++ F ++ crlf ++ extra) 0 0 0 qs evs1
    (setMethod d0 (m_method r))) as (m2 & qs2 & evs2 & L2 & R2 & E2); try assumption; try reflexivity.
  { rewrite Eb. unfold pre1, V. by str_norm. }
  { destruct w; [done |]. by apply negb_true_iff in Hs. }
  set (pre2 := (pre1 ++ T ++ " ")%string).
  assert (L2' : S (String.length (pre1 ++ T)) = String.length pre2) by (unfold pre2; rewrite !length_str_app; simpl; lia).
  assert (Eb2 : buffer = (pre2 ++ "HTTP/" ++ version_string (m_version r) ++ crlf ++ F ++ crlf ++ extra)%string)
    by (rewrite Eb; unfold pre2, pre1, T; by str_norm).
  destruct (version_stage buffer relaxed Hlen pre2 _ _ m2 0 0 qs2 evs2 _ Eb2 Hv R2) as (evs3 & R3 & E3).
  assert (EV : (V ++ F ++ crlf ++ extra = "HTTP/" ++ version_string (m_version r) ++ crlf ++ F ++ crlf ++ extra)%string)
    by (unfold V; by str_norm).
  set (pre3 := (pre2 ++ V)%string). pose proof (request_fields_wire r Hh) as Hfw.
  assert (Eb3 : buffer = (pre3 ++ F ++ crlf ++ extra)%string) by (rewrite Eb; unfold pre3, pre2, pre1, T, V; by str_norm).
  assert (HV : (0 < String.length V)%nat) by (unfold V; simpl; lia).
  assert (L3 : (String.length pre3 = String.length pre2 + String.length V)%nat) by (unfold pre3; by rewrite length_str_app).
  assert (LB : (String.length buffer = String.length pre3 + String.length F + 2 + String.length extra)%nat).
  { rewrite Eb3, !length_str_app. simpl. lia. }
  destruct (fields_stage buffer relaxed Hlen fields pre3 extra (String.length pre2) 0 0 qs2 evs3 _ Eb3 Hfw R3)
    as (m4 & fs4 & fl4 & evs4 & Hm4 & Hfs4 & Hfl4 & R4 & E4); [lia | lia | lia |].
  pose proof (end_stage buffer relaxed (pre3 ++ F) extra m4 fs4 fl4 qs2 evs4) as E5.
  assert (LH : S (S (String.length (pre3 ++ F))) = String.length (request_head r)).
  { transitivity (String.length buffer - String.length extra)%nat; [rewrite LB, length_str_app; lia |].
    unfold buffer. rewrite length_str_app. lia. }
  exists m4, (String.length (pre3 ++ F)), fl4, qs2, evs4. split_and!; [done | rewrite length_str_app; lia | done | |].
  - apply (reports_snoc _ (parsed_request r)); [| done]. unfold parsed_request. rewrite Ep. exact R4.
  - rewrite <- LH, <- E5, E1, <- EV. fold M. rewrite L1. etransitivity; [exact E2 |]. fold T. rewrite L2', EV.
    etransitivity; [exact E3 | exact E4].
Qed.

Lemma execute_request r qs relaxed extra :
  request_wire r = true -> Z.of_nat (String.length (request_head r ++ extra)) < 2 ^ 31 ->
  exists h evs, http_parser_execute (http_parser_init qs relaxed) (request_head r ++ extra)
    = Ok (h, String.length (request_head r), evs) /\ reports evs (parsed_request r) /\ cs h = 348%N.
Proof.
  intros Hr Hlen. destruct (run_request r qs relaxed extra Hr Hlen) as (m & fs & fl & qs' & evs & Hm & Hfs & Hfl & R & E).
  destruct start_facts as (S1 & S2 & S3). unfold http_parser_execute.
  set (buffer := (request_head r ++ extra)%string) in *.
  destruct (Nat.eqb_spec (String.length buffer) 0); [lia |]. unfold http_parser_init. rewrite S1.
  cbn [cs body_start content_len query_start xml_sent json_sent uri_relaxed]. change (mkHttpParser 1 0 0 0 0 0 0 qs false false relaxed) with (HP relaxed 0 0 0 qs).
  rewrite int_length, (proj2 (Z.ltb_lt _ _) Hlen) by lia. cbn [sylar_assert mbind outcome_bind].
  rewrite E. clear E. unfold http_parser_has_error. rewrite S2.
  assert (HL : (String.length (request_head r) <= String.length buffer)%nat) by (unfold buffer; rewrite length_str_app; lia).
  revert HL Hm Hfs Hfl. generalize (String.length (request_head r)) (String.length buffer). intros hl bl HL Hm Hfs Hfl.
  cbn [mbind outcome_bind cs body_start nread mark field_start field_len set_body HP Nat.add N.eqb].
  rewrite !(proj2 (Nat.leb_le _ _) HL), (proj2 (Nat.ltb_lt _ _) Hm), (proj2 (Z.leb_le _ _) Hfl), (proj2 (Nat.ltb_lt fs _)) by lia.
  cbn. eexists _, _. split_and!; [reflexivity | exact R | reflexivity].
Qed.

(** ** Through the session *)

(** Storing the entries of a map, in order, into another. *)
Lemma find_foldl (l m0 : MapType) k :
  sorted_map l -> sorted_map m0 ->
  map_find (foldl (fun m kv => map_set m kv.1 kv.2) m0 l) k
  = match map_find l k with Some v => Some v | None => map_find m0 k end.
Proof.
  intros Hl. revert m0. induction l as [| [k1 v1] l IH]; intros m0 H0; [done |].
  apply StronglySorted_inv in Hl as [Hl Hall]. cbn [foldl fst snd]. rewrite IH, map_find_set by (done || by apply map_set_sorted).
  cbn [map_find]. unfold strcasecmp_eq. destruct (CaseInsensitiveLess k1 k) eqn:E1.
  - destruct (map_find l k); [done |]. case_bool_decide as E; [| done].
    destruct (proj2 (less_false_iff k k1) E) as [_ ?]. congruence.
  - assert (Hn : map_find l k = None).
    { apply map_find_below; [done |]. eapply Forall_impl; [exact Hall |]. intros [k2 v2] H. simpl in *.
      destruct (CaseInsensitiveLess k k1) eqn:E2; [unfold CaseInsensitiveLess in *; by eapply lex_lt_trans |].
      assert (Ek : fold_case k = fold_case k1) by by apply less_false_iff. by destruct (less_same k k1 k2 Ek) as [-> _]. }
    rewrite Hn. destruct (CaseInsensitiveLess k k1) eqn:E2.
    + case_bool_decide as E; [| done]. destruct (proj2 (less_false_iff k k1) E) as [? _]. congruence.
    + rewrite bool_decide_eq_true_2; [done |]. by apply less_false_iff.
Qed.

Lemma plain_sorted m : sorted_map m -> sorted_map (plain_headers m).
Proof.
  induction 1 as [| kv m Hm IH Hall]; simpl; [constructor |]. case_match; [| done]. constructor; [done |].
  apply Forall_forall. intros x Hx%list_elem_of_In. apply filter_In in Hx as [Hx%list_elem_of_In _]. by eapply Forall_forall in Hall.
Qed.

Lemma plain_find m k :
  sorted_map m -> map_find (plain_headers m) k = if strcasecmp_eq k "connection" then None else map_find m k.
Proof.
  induction 1 as [| [k1 v1] m Hm IH Hall]; simpl; [by destruct (strcasecmp_eq k "connection") |].
  destruct (strcasecmp_eq k1 "connection") eqn:E1; cbn [negb map_find].
  - rewrite IH. destruct (strcasecmp_eq k "connection") eqn:E2; [done |].
    unfold strcasecmp_eq in *. apply bool_decide_eq_true in E1. apply bool_decide_eq_false in E2. rewrite <- E1 in E2.
    destruct (CaseInsensitiveLess k1 k) eqn:L1; [done |]. destruct (CaseInsensitiveLess k k1) eqn:L2.
    + apply map_find_below; [done |]. eapply Forall_impl; [exact Hall |]. intros [k2 v2] H. simpl in *.
      unfold CaseInsensitiveLess in *. by eapply lex_lt_trans.
    + destruct E2. by apply less_false_iff.
  - rewrite IH. destruct (strcasecmp_eq k "connection") eqn:E2; [| done].
    destruct (CaseInsensitiveLess k1 k) eqn:L1; [done |]. destruct (CaseInsensitiveLess k k1) eqn:L2; [done |].
    unfold strcasecmp_eq in *. apply bool_decide_eq_false in E1. apply bool_decide_eq_true in E2. destruct E1. rewrite <- E2.
    by apply less_false_iff.
Qed.

(** The header of the request that comes out. *)
Lemma parsed_headers r key def :
  sorted_map (m_headers r) ->
  getHeader (parsed_request r) key def
  = if strcasecmp_eq key "content-length" && negb (String.eqb (m_body r) "") then show (Z.of_nat (String.length (m_body r)))
    else if strcasecmp_eq key "connection" then (if m_close r then "close" else "keep-alive")%string
    else getHeader r key def.
Proof.
  intros Hs. unfold getHeader. assert (Hh : forall l d, m_headers (foldl (fun d kv => setHeader d kv.1 kv.2) d l)
                    = foldl (fun m kv => map_set m kv.1 kv.2) (m_headers d) l).
  { intros l. induction l as [| kv l IH]; intros d; [done |]. cbn [foldl]. apply IH. }
  unfold parsed_request. rewrite Hh. cbn [m_headers setVersion setFragment setQuery setPath setMethod d0 new_HttpRequest].
  unfold request_fields. cbn [foldl]. rewrite foldl_app.
  set (m0 := map_set [] _ _). assert (S0 : sorted_map m0) by (apply map_set_sorted; constructor).
  set (m1 := foldl _ m0 _).
  assert (S1 : sorted_map m1).
  { unfold m1. clear Hh. generalize (plain_headers (m_headers r)) as l. intros l. revert S0. generalize m0 as m.
    induction l as [| kv l IH]; intros m Hm; [done |]. cbn [foldl]. by apply IH, map_set_sorted. }
  assert (F1 : map_find m1 key = if strcasecmp_eq key "connection" then Some (if m_close r then "close" else "keep-alive")%string
                                 else map_find (m_headers r) key).
  { unfold m1. rewrite find_foldl, plain_find by (done || by apply plain_sorted). unfold m0. rewrite map_find_set by constructor.
    change (connection_field (m_close r)).1 with "connection"%string. destruct (strcasecmp_eq key "connection"); [done |].
    by destruct (map_find (m_headers r) key). }
  unfold length_field. destruct (String.eqb (m_body r) ""); cbn [foldl fst snd negb]; rewrite ?andb_false_r, ?andb_true_r.
  - rewrite F1. by destruct (strcasecmp_eq key "connection").
  - rewrite map_find_set, F1 by done. destruct (strcasecmp_eq key "content-length"); [done |].
    by destruct (strcasecmp_eq key "connection").
Qed.

Lemma parsed_parts r :
  let r' := parsed_request r in
  m_method r' = m_method r /\ m_version r' = m_version r /\ m_path r' = m_path r /\ m_query r' = m_query r
  /\ m_fragment r' = m_fragment r /\ m_body r' = ""%string /\ m_close r' = true.
Proof.
  intros r'. subst r'. unfold parsed_request. set (d := setVersion _ _).
  assert (H : forall l x, let y := foldl (fun d kv => setHeader d kv.1 kv.2) x l in
    m_method y = m_method x /\ m_version y = m_version x /\ m_path y = m_path x /\ m_query y = m_query x
    /\ m_fragment y = m_fragment x /\ m_body y = m_body x /\ m_close y = m_close x).
  { intros l. induction l as [| kv l IH]; intros x; [done |]. cbn [foldl]. apply (IH (setHeader x kv.1 kv.2)). }
  destruct (H (request_fields r) d) as (-> & -> & -> & -> & -> & -> & ->). done.
Qed.

(** The header is one run of the session's parser. *)
Lemma request_head_run qs relaxed bs r seg extra :
  let A := http_automaton qs relaxed in
  request_wire r = true -> seg = (request_head r ++ extra)%string -> (String.length seg <= bs)%nat -> Z.of_nat bs < 2 ^ 31 ->
  exists p, head_run A bs (new_HttpRequestParser A 0) [seg] extra p /\ m_data A p = parsed_request r.
Proof.
  intros A Hr -> Hl Hbs. destruct (execute_request r qs relaxed extra Hr) as (h & evs & E & R & Hc); [lia |].
  exists (mkParser A h (parsed_request r) 0). split; [| done].
  assert (Hpos : (0 < String.length (request_head r))%nat) by (unfold request_head; rewrite length_str_app; simpl; lia).
  apply (head_last _ _ _ _ (String.length (request_head r))); try done.
  - unfold execute.
    change (a_execute A (m_parser A (new_HttpRequestParser A 0)) (request_head r ++ extra))
      with (http_parser_execute (http_parser_init qs relaxed) (request_head r ++ extra)).
    rewrite E. cbn [mbind outcome_bind].
    change (mkParser A h (m_data A (new_HttpRequestParser A 0)) (m_error A (new_HttpRequestParser A 0))) with (mkParser A h d0 0).
    rewrite (R A h). cbn [mbind outcome_bind]. do 2 f_equal.
    rewrite str_drop_app, str_drop_ge, Nat.sub_diag by lia. by cbn.
  - apply str_nonempty. rewrite length_str_app. lia.
  - unfold hasError, A. cbn. unfold http_parser_has_error. destruct start_facts as (_ & -> & _). by rewrite Hc.
  - unfold isFinished, A. cbn. unfold http_parser_finish, http_parser_has_error, http_parser_is_finished.
    destruct start_facts as (_ & -> & ->). by rewrite Hc.
Qed.

(** Two ways to cut a text, the first later than the second. *)
Lemma split_prefix (a b c d : string) :
  (a ++ b = c ++ d)%string -> (String.length c <= String.length a)%nat -> exists e, a = (c ++ e)%string /\ d = (e ++ b)%string.
Proof.
  revert a. induction c as [| x c IH]; intros a H Hl; [by exists a |].
  destruct a as [| y a]; [simpl in Hl; lia |]. simpl in H. injection H as -> H.
  destruct (IH a H ltac:(simpl in *; lia)) as (e & -> & ->). by exists e.
Qed.

(** The length that the session will read. *)
Lemma parsed_length lexical_cast qs relaxed r p :
  m_data (http_automaton qs relaxed) p = parsed_request r -> sorted_map (m_headers r) ->
  map_find (m_headers r) "content-length" = None ->
  lexical_cast (show (Z.of_nat (String.length (m_body r)))) = Some (Z.of_nat (String.length (m_body r))) ->
  getContentLength (http_automaton qs relaxed) lexical_cast p = Z.of_nat (String.length (m_body r)).
Proof.
  intros Hp Hs Hcl Hcast. unfold getContentLength, getAs. rewrite Hp.
  pose proof (parsed_headers r "content-length" "none" Hs) as H. unfold getHeader in H. rewrite Hcl in H.
  change (strcasecmp_eq "content-length" "content-length") with true in H.
  change (strcasecmp_eq "content-length" "connection") with false in H. cbn [andb] in H.
  pose proof (parsed_headers r "content-length" "other" Hs) as H'. unfold getHeader in H'. rewrite Hcl in H'.
  change (strcasecmp_eq "content-length" "content-length") with true in H'.
  change (strcasecmp_eq "content-length" "connection") with false in H'. cbn [andb] in H'.
  clear Hcl. destruct (String.eqb_spec (m_body r) "") as [Eb|]; cbn [negb] in H, H'.
  - rewrite Eb. destruct (map_find _ _); simpl in H, H'; [congruence | done].
  - destruct (map_find _ _); simpl in H, H'; [by rewrite H, Hcast |]. exfalso. congruence.
Qed.

(** What [recvRequest] makes of a dumped request. *)
Lemma recv_dumped lexical_cast qs relaxed bs fuel r seg rest :
  request_wire r = true -> sorted_map (m_headers r) -> map_find (m_headers r) "content-length" = None ->
  let L := Z.of_nat (String.length (m_body r)) in
  lexical_cast (show L) = Some L -> L < 2 ^ 31 ->
  (seg ++ flat rest = dump_request r)%string -> good_net rest ->
  (String.length (request_head r) <= String.length seg <= bs)%nat -> Z.of_nat bs < 2 ^ 31 ->
  (String.length (m_body r) < fuel)%nat ->
  exists n', recvRequest (http_automaton qs relaxed) lexical_cast fuel 0 bs (Data seg :: rest) = Ok (Request (setBody (parsed_request r) (m_body r)), n')
    /\ flat n' = ""%string.
Proof.
  intros Hw Hs Hcl L Hcast HL Hseg Hg Hlen Hbs Hf. rewrite dump_head in Hseg.
  destruct (split_prefix seg (flat rest) (request_head r) (m_body r) Hseg ltac:(lia)) as (extra & Es & Eb).
  destruct (request_head_run qs relaxed bs r seg extra Hw Es) as (p & Hrun & Hp); [lia | done |].
  assert (Hc : getContentLength (http_automaton qs relaxed) lexical_cast p = L).
  { apply parsed_length; done. }
  destruct (recv_request_run _ lexical_cast bs fuel [seg] extra p rest Hrun Hg) as (n' & E & Hn); try (rewrite Hc; unfold L; lia); [simpl; lia |].
  rewrite Hc, <- Eb in E, Hn. unfold L in E, Hn. rewrite Nat2Z.id in E, Hn. rewrite Nat.leb_refl, str_take_ge in E by lia.
  rewrite Hp in E. exists n'. split; [exact E |].
  rewrite Hn, Eb, length_str_app, Nat.add_comm, Nat.add_sub by lia. by apply str_drop_ge.
Qed.

(** The parser whose error flag holds something else executes, too. *)
Lemma execute_any_error A g g' data r :
  execute A (new_HttpRequestParser A g) data = Ok r -> exists r', execute A (new_HttpRequestParser A g') data = Ok r'.
Proof.
  unfold execute. cbn [new_HttpRequestParser m_parser m_data m_error]. intros ([[a n] evs] & -> & (p & Hp & _)%bind_Ok_inv)%bind_Ok_inv.
  cbn [mbind outcome_bind]. destruct (on_events_any_error A evs _ _ _ g' p Hp) as (p' & ->). by eexists.
Qed.

(** With an error flag that is not 0, a dumped request is refused. *)
Lemma dumped_refused lexical_cast qs relaxed bs fuel g r seg rest :
  g <> 0 -> request_wire r = true -> (seg ++ flat rest = dump_request r)%string ->
  (String.length (request_head r) <= String.length seg <= bs)%nat -> Z.of_nat bs < 2 ^ 31 -> (String.length (m_body r) < fuel)%nat ->
  recvRequest (http_automaton qs relaxed) lexical_cast fuel g bs (Data seg :: rest) = Ok (Nothing true, rest).
Proof.
  intros Hne Hw Hseg Hlen Hbs Hf. destruct fuel as [| fuel]; [lia |].
  assert (Hpos : (0 < String.length (request_head r))%nat) by (unfold request_head; rewrite length_str_app; simpl; lia).
  rewrite dump_head in Hseg. destruct (split_prefix seg (flat rest) (request_head r) (m_body r) Hseg ltac:(lia)) as (extra & Es & _).
  apply uninitialised_error_refuses; [done | intros ->; simpl in Hlen; lia | lia |].
  destruct (request_head_run qs relaxed bs r seg extra Hw Es) as (p & Hrun & _); [lia | done |].
  inversion Hrun; subst; eapply execute_any_error; eassumption.
Qed.

(** C17: A request sent is the request received, or every request is refused. The
    parser's [m_error] is never initialised; [g] is what the memory held. When it
    is 0, what [HttpRequest::dump] writes for a request with a method, path,
    query, fragment and header fields that the grammar takes goes through the
    generated automaton, the parser's callbacks and [HttpSession::recvRequest],
    and comes out with the same method, version, path, query, fragment and body;
    every header field is looked up as in the request sent, with the [connection]
    and [content-length] fields that [dump] adds. When it is anything else, the
    request is refused and the session closed. The header must arrive whole in
    the first segment (the parser loses the tokens that two segments share,
    [split_path_truncated]) and fit in the buffer, which is below 2 GiB; the
    body, also below 2 GiB, may be cut anywhere. The request has no
    content-length field of its own. boost::lexical_cast reads a printed length
    back. *)
Theorem request_received lexical_cast qs relaxed bs fuel g r seg rest :
  request_wire r = true -> sorted_map (m_headers r) -> map_find (m_headers r) "content-length" = None ->
  let L := Z.of_nat (String.length (m_body r)) in
  lexical_cast (show L) = Some L -> L < 2 ^ 31 ->
  (seg ++ flat rest = dump_request r)%string -> good_net rest ->
  (String.length (request_head r) <= String.length seg <= bs)%nat -> Z.of_nat bs < 2 ^ 31 ->
  (String.length (m_body r) < fuel)%nat ->
  let received := recvRequest (http_automaton qs relaxed) lexical_cast fuel g bs (Data seg :: rest) in
  (g <> 0 -> received = Ok (Nothing true, rest))
  /\ (g = 0 -> exists r' n', received = Ok (Request r', n')
    /\ m_method r' = m_method r /\ m_version r' = m_version r /\ m_path r' = m_path r /\ m_query r' = m_query r
    /\ m_fragment r' = m_fragment r /\ m_body r' = m_body r /\ flat n' = ""%string
    /\ forall key def, getHeader r' key def
       = if strcasecmp_eq key "content-length" && negb (String.eqb (m_body r) "") then show L
         else if strcasecmp_eq key "connection" then (if m_close r then "close" else "keep-alive")%string
         else getHeader r key def).
Proof.
  intros Hw Hs Hcl L Hcast HL Hseg Hg Hlen Hbs Hf received. unfold received. split.
  - intros Hne. by apply (dumped_refused lexical_cast qs relaxed bs fuel g r seg rest).
  - intros ->. destruct (recv_dumped lexical_cast qs relaxed bs fuel r seg rest Hw Hs Hcl Hcast HL Hseg Hg Hlen Hbs Hf) as (n' & E & Hn).
    destruct (parsed_parts r) as (P1 & P2 & P3 & P4 & P5 & P6 & P7).
    exists (setBody (parsed_request r) (m_body r)), n'. split_and!; try done. intros key def. apply (parsed_headers r key def Hs).
Qed.

Definition sample_request : HttpRequest :=
  setBody (setHeader (setQuery (setPath (setMethod (new_HttpRequest 17 false) POST) "/a/b%20c") "x=1&y=2") "Host" "www.sylar.top") "hello".

Lemma request_received_witness :
  exists r' n', recvRequest (http_automaton 0 false) (fun s => if String.eqb s "5" then Some 5 else None) 6 0 4096
      [Data (request_head sample_request ++ "he"); Data "l"; Data "lo"] = Ok (Request r', n')
    /\ m_path r' = "/a/b%20c"%string /\ m_body r' = "hello"%string /\ getHeader r' "HOST" "" = "www.sylar.top"%string.
Proof.
  destruct (request_received (fun s => if String.eqb s "5" then Some 5 else None) 0 false 4096 6 0 sample_request
    (request_head sample_request ++ "he") [Data "l"; Data "lo"]) as [_ Hz];
    try (vm_compute; reflexivity); try (vm_compute; lia).
  - repeat constructor.
  - repeat constructor; eexists; split; (reflexivity || discriminate).
  - destruct (Hz eq_refl) as (r' & n' & E & _ & _ & Hp & _ & _ & Hb & _ & Hh). exists r', n'. split_and!; [exact E | exact Hp | exact Hb | rewrite Hh; vm_compute; reflexivity].
Defined.
