(* ===== verification/HttpClientTable.v ===== *)
(** The state machine of http/httpclient_parser.rl.cc, block by block in the
    order of the file; each definition is named after its first line there. *)

From stdpp Require Import strings.
From S2P Require Import Prelude Ragel.

Module Hc.

Import Rg.
Local Open Scope Z_scope.
Local Open Scope ragel_scope.

(** The actions of the grammar in httpclient_parser.rl; [done] leaves the
    machine with the given state. *)
Inductive action :=
  | mark | start_field | write_field | start_value | write_content_len | write_connection_close | write_value
  | reason_phrase | status_code | http_version | chunk_size | trans_chunked | done (cs : N).

#[global] Instance action_eq_dec : EqDecision action.
Proof. solve_decision. Defined.

Definition client_L122 : list (block action) := [
  Case 1 [] [72 ~> Tr 2; 48 to 57 ~> Tr 0; 97 to 102 ~> Tr 0; 65 to 70 ~> Tr 0] (St 0);
  St0;
  Label 0 [mark] 2;
  Case 2 [] [10 ~> Tr 3; 13 ~> Tr 4; 59 ~> Tr 6; 48 to 57 ~> St 2; 97 to 102 ~> St 2; 65 to 70 ~> St 2] (St 0);
  Label 3 [chunk_size; done 120] 120;
  Label 7 [done 120] 120;
  Label 9 [write_field; start_value; write_value; done 120] 120;
  Label 15 [write_value; done 120] 120;
  Label 74 [write_connection_close; done 120] 120;
  Case 120 [] [] (St 0);
  Label 4 [chunk_size] 3].

Definition client_L259 : list (block action) := [
  Label 10 [write_field; start_value; write_value] 3;
  Label 16 [write_value] 3;
  Label 75 [write_connection_close] 3;
  Case 3 [] [10 ~> Tr 7] (St 0);
  Label 6 [chunk_size] 4;
  Label 12 [write_field; start_value; write_value] 4;
  Label 18 [write_value] 4;
  Case 4 [] [33 ~> Tr 8; 124 ~> Tr 8; 126 ~> Tr 8; 42 to 43 ~> Tr 8; 35 to 39 ~> Tr 8; 48 to 57 ~> Tr 8; 94 to 122 ~> Tr 8; 65 to 90 ~> Tr 8;
    45 to 46 ~> Tr 8] (St 0);
  Label 8 [start_field] 5;
  Case 5 [] [10 ~> Tr 9; 13 ~> Tr 10; 33 ~> St 5; 59 ~> Tr 12; 61 ~> Tr 13; 124 ~> St 5; 126 ~> St 5; 42 to 43 ~> St 5; 35 to 39 ~> St 5;
    48 to 57 ~> St 5; 94 to 122 ~> St 5; 65 to 90 ~> St 5; 45 to 46 ~> St 5] (St 0);
  Label 13 [write_field; start_value] 6].

Definition client_L403 : list (block action) := [
  Case 6 [] [33 ~> Tr 14; 124 ~> Tr 14; 126 ~> Tr 14; 42 to 43 ~> Tr 14; 35 to 39 ~> Tr 14; 48 to 57 ~> Tr 14; 94 to 122 ~> Tr 14; 65 to 90 ~> Tr 14;
    45 to 46 ~> Tr 14] (St 0);
  Label 14 [start_value] 7;
  Case 7 [] [10 ~> Tr 15; 13 ~> Tr 16; 33 ~> St 7; 59 ~> Tr 18; 124 ~> St 7; 126 ~> St 7; 42 to 43 ~> St 7; 35 to 39 ~> St 7; 48 to 57 ~> St 7;
    94 to 122 ~> St 7; 65 to 90 ~> St 7; 45 to 46 ~> St 7] (St 0);
  Label 2 [mark] 8;
  Case 8 [] [84 ~> St 9] (St 0);
  Case 9 [] [84 ~> St 10] (St 0);
  Case 10 [] [80 ~> St 11] (St 0);
  Case 11 [] [47 ~> St 12] (St 0);
  Case 12 [] [48 to 57 ~> St 13] (St 0);
  Case 13 [] [46 ~> St 14; 48 to 57 ~> St 13] (St 0);
  Case 14 [] [48 to 57 ~> St 15] (St 0);
  Case 15 [] [32 ~> Tr 26; 48 to 57 ~> St 15] (St 0);
  Label 26 [http_version] 16;
  Case 16 [] [48 to 57 ~> Tr 27] (St 0);
  Label 27 [mark] 17].

Definition client_L550 : list (block action) := [
  Case 17 [] [32 ~> Tr 28; 48 to 57 ~> St 17] (St 0);
  Label 28 [status_code] 18;
  Case 18 [] [10 ~> St 0] (Tr 30);
  Label 30 [mark] 19;
  Case 19 [] [10 ~> Tr 32; 13 ~> Tr 33] (St 19);
  Label 45 [write_value] 20;
  Label 32 [reason_phrase] 20;
  Label 42 [start_value; write_value] 20;
  Label 111 [write_value; trans_chunked] 20;
  Label 113 [trans_chunked] 20;
  Label 158 [write_content_len; write_value] 20;
  Case 20 [] [10 ~> Tr 7; 13 ~> St 3; 33 ~> Tr 35; 67 ~> Tr 36; 84 ~> Tr 37; 99 ~> Tr 36; 116 ~> Tr 37; 124 ~> Tr 35; 126 ~> Tr 35; 42 to 43 ~> Tr 35;
    35 to 39 ~> Tr 35; 48 to 57 ~> Tr 35; 94 to 122 ~> Tr 35; 65 to 90 ~> Tr 35; 45 to 46 ~> Tr 35] (St 0);
  Label 35 [start_field] 21;
  Label 76 [write_connection_close; start_field] 21].

Definition client_L692 : list (block action) := [
  Case 21 [] [33 ~> St 21; 58 ~> Tr 39; 124 ~> St 21; 126 ~> St 21; 42 to 43 ~> St 21; 35 to 39 ~> St 21; 48 to 57 ~> St 21; 94 to 122 ~> St 21;
    65 to 90 ~> St 21; 45 to 46 ~> St 21] (St 0);
  Label 41 [start_value] 22;
  Label 39 [write_field] 22;
  Case 22 [] [10 ~> Tr 42; 13 ~> Tr 43; 32 ~> Tr 41; 9 to 12 ~> Tr 41] (Tr 40);
  Label 40 [start_value] 23;
  Case 23 [] [10 ~> Tr 45; 13 ~> Tr 46] (St 23);
  Label 46 [write_value] 24;
  Label 33 [reason_phrase] 24;
  Label 43 [start_value; write_value] 24;
  Label 159 [write_content_len; write_value] 24;
  Case 24 [] [10 ~> St 20] (St 0);
  Label 36 [start_field] 25;
  Label 77 [write_connection_close; start_field] 25].

Definition client_L815 : list (block action) := [
  Case 25 [] [33 ~> St 21; 58 ~> Tr 39; 79 ~> St 26; 111 ~> St 26; 124 ~> St 21; 126 ~> St 21; 42 to 43 ~> St 21; 35 to 39 ~> St 21; 48 to 57 ~> St 21;
    94 to 122 ~> St 21; 65 to 90 ~> St 21; 45 to 46 ~> St 21] (St 0);
  Case 26 [] [33 ~> St 21; 58 ~> Tr 39; 78 ~> St 27; 110 ~> St 27; 124 ~> St 21; 126 ~> St 21; 42 to 43 ~> St 21; 35 to 39 ~> St 21; 48 to 57 ~> St 21;
    94 to 122 ~> St 21; 65 to 90 ~> St 21; 45 to 46 ~> St 21] (St 0);
  Case 27 [] [33 ~> St 21; 58 ~> Tr 39; 78 ~> St 28; 84 ~> St 101; 110 ~> St 28; 116 ~> St 101; 124 ~> St 21; 126 ~> St 21; 42 to 43 ~> St 21;
    35 to 39 ~> St 21; 48 to 57 ~> St 21; 94 to 122 ~> St 21; 65 to 90 ~> St 21; 45 to 46 ~> St 21] (St 0);
  Case 28 [] [33 ~> St 21; 58 ~> Tr 39; 69 ~> St 29; 101 ~> St 29; 124 ~> St 21; 126 ~> St 21; 42 to 43 ~> St 21; 35 to 39 ~> St 21; 48 to 57 ~> St 21;
    94 to 122 ~> St 21; 65 to 90 ~> St 21; 45 to 46 ~> St 21] (St 0)].

Definition client_L938 : list (block action) := [
  Case 29 [] [33 ~> St 21; 58 ~> Tr 39; 67 ~> St 30; 99 ~> St 30; 124 ~> St 21; 126 ~> St 21; 42 to 43 ~> St 21; 35 to 39 ~> St 21; 48 to 57 ~> St 21;
    94 to 122 ~> St 21; 65 to 90 ~> St 21; 45 to 46 ~> St 21] (St 0);
  Case 30 [] [33 ~> St 21; 58 ~> Tr 39; 84 ~> St 31; 116 ~> St 31; 124 ~> St 21; 126 ~> St 21; 42 to 43 ~> St 21; 35 to 39 ~> St 21; 48 to 57 ~> St 21;
    94 to 122 ~> St 21; 65 to 90 ~> St 21; 45 to 46 ~> St 21] (St 0);
  Case 31 [] [33 ~> St 21; 58 ~> Tr 39; 73 ~> St 32; 105 ~> St 32; 124 ~> St 21; 126 ~> St 21; 42 to 43 ~> St 21; 35 to 39 ~> St 21; 48 to 57 ~> St 21;
    94 to 122 ~> St 21; 65 to 90 ~> St 21; 45 to 46 ~> St 21] (St 0);
  Case 32 [] [33 ~> St 21; 58 ~> Tr 39; 79 ~> St 33; 111 ~> St 33; 124 ~> St 21; 126 ~> St 21; 42 to 43 ~> St 21; 35 to 39 ~> St 21; 48 to 57 ~> St 21;
    94 to 122 ~> St 21; 65 to 90 ~> St 21; 45 to 46 ~> St 21] (St 0);
  Case 33 [] [33 ~> St 21; 58 ~> Tr 39; 78 ~> St 34; 110 ~> St 34; 124 ~> St 21; 126 ~> St 21; 42 to 43 ~> St 21; 35 to 39 ~> St 21; 48 to 57 ~> St 21;
    94 to 122 ~> St 21; 65 to 90 ~> St 21; 45 to 46 ~> St 21] (St 0)].

Definition client_L1088 : list (block action) := [
  Case 34 [] [33 ~> St 21; 58 ~> Tr 58; 124 ~> St 21; 126 ~> St 21; 42 to 43 ~> St 21; 35 to 39 ~> St 21; 48 to 57 ~> St 21; 94 to 122 ~> St 21;
    65 to 90 ~> St 21; 45 to 46 ~> St 21] (St 0);
  Label 59 [start_value] 35;
  Label 58 [write_field] 35;
  Case 35 [] [10 ~> Tr 60; 13 ~> Tr 61; 32 ~> Tr 59; 67 ~> Tr 62; 99 ~> Tr 62; 9 to 12 ~> Tr 59] (Tr 40);
  Label 60 [start_value; write_value] 36;
  Case 36 [] [10 ~> Tr 64; 13 ~> St 89; 32 ~> St 37; 33 ~> Tr 35; 67 ~> Tr 66; 84 ~> Tr 37; 99 ~> Tr 66; 116 ~> Tr 37; 124 ~> Tr 35; 126 ~> Tr 35;
    9 to 12 ~> St 37; 42 to 43 ~> Tr 35; 35 to 39 ~> Tr 35; 48 to 57 ~> Tr 35; 94 to 122 ~> Tr 35; 65 to 90 ~> Tr 35; 45 to 46 ~> Tr 35] (St 0);
  Case 37 [] [32 ~> St 37; 67 ~> St 38; 99 ~> St 38; 9 to 13 ~> St 37] (St 0);
  Case 38 [] [76 ~> St 39; 108 ~> St 39] (St 0);
  Case 39 [] [79 ~> St 40; 111 ~> St 40] (St 0);
  Case 40 [] [83 ~> St 41; 115 ~> St 41] (St 0);
  Case 41 [] [69 ~> St 42; 101 ~> St 42] (St 0)].

Definition client_L1237 : list (block action) := [
  Case 42 [] [10 ~> St 43; 13 ~> St 88] (St 0);
  Label 136 [write_value] 43;
  Case 43 [] [10 ~> Tr 74; 13 ~> Tr 75; 33 ~> Tr 76; 67 ~> Tr 77; 84 ~> Tr 78; 99 ~> Tr 77; 116 ~> Tr 78; 124 ~> Tr 76; 126 ~> Tr 76; 42 to 43 ~> Tr 76;
    35 to 39 ~> Tr 76; 48 to 57 ~> Tr 76; 94 to 122 ~> Tr 76; 65 to 90 ~> Tr 76; 45 to 46 ~> Tr 76] (St 0);
  Label 37 [start_field] 44;
  Label 78 [write_connection_close; start_field] 44;
  Case 44 [] [33 ~> St 21; 58 ~> Tr 39; 82 ~> St 45; 114 ~> St 45; 124 ~> St 21; 126 ~> St 21; 42 to 43 ~> St 21; 35 to 39 ~> St 21; 48 to 57 ~> St 21;
    94 to 122 ~> St 21; 65 to 90 ~> St 21; 45 to 46 ~> St 21] (St 0);
  Case 45 [] [33 ~> St 21; 58 ~> Tr 39; 65 ~> St 46; 97 ~> St 46; 124 ~> St 21; 126 ~> St 21; 42 to 43 ~> St 21; 35 to 39 ~> St 21; 48 to 57 ~> St 21;
    94 to 122 ~> St 21; 66 to 90 ~> St 21; 45 to 46 ~> St 21] (St 0)].

Definition client_L1361 : list (block action) := [
  Case 46 [] [33 ~> St 21; 58 ~> Tr 39; 78 ~> St 47; 110 ~> St 47; 124 ~> St 21; 126 ~> St 21; 42 to 43 ~> St 21; 35 to 39 ~> St 21; 48 to 57 ~> St 21;
    94 to 122 ~> St 21; 65 to 90 ~> St 21; 45 to 46 ~> St 21] (St 0);
  Case 47 [] [33 ~> St 21; 58 ~> Tr 39; 83 ~> St 48; 115 ~> St 48; 124 ~> St 21; 126 ~> St 21; 42 to 43 ~> St 21; 35 to 39 ~> St 21; 48 to 57 ~> St 21;
    94 to 122 ~> St 21; 65 to 90 ~> St 21; 45 to 46 ~> St 21] (St 0);
  Case 48 [] [33 ~> St 21; 58 ~> Tr 39; 70 ~> St 49; 102 ~> St 49; 124 ~> St 21; 126 ~> St 21; 42 to 43 ~> St 21; 35 to 39 ~> St 21; 48 to 57 ~> St 21;
    94 to 122 ~> St 21; 65 to 90 ~> St 21; 45 to 46 ~> St 21] (St 0);
  Case 49 [] [33 ~> St 21; 58 ~> Tr 39; 69 ~> St 50; 101 ~> St 50; 124 ~> St 21; 126 ~> St 21; 42 to 43 ~> St 21; 35 to 39 ~> St 21; 48 to 57 ~> St 21;
    94 to 122 ~> St 21; 65 to 90 ~> St 21; 45 to 46 ~> St 21] (St 0);
  Case 50 [] [33 ~> St 21; 58 ~> Tr 39; 82 ~> St 51; 114 ~> St 51; 124 ~> St 21; 126 ~> St 21; 42 to 43 ~> St 21; 35 to 39 ~> St 21; 48 to 57 ~> St 21;
    94 to 122 ~> St 21; 65 to 90 ~> St 21; 45 to 46 ~> St 21] (St 0)].

Definition client_L1511 : list (block action) := [
  Case 51 [] [33 ~> St 21; 45 ~> St 52; 46 ~> St 21; 58 ~> Tr 39; 124 ~> St 21; 126 ~> St 21; 42 to 43 ~> St 21; 35 to 39 ~> St 21; 94 to 122 ~> St 21;
    65 to 90 ~> St 21; 48 to 57 ~> St 21] (St 0);
  Case 52 [] [33 ~> St 21; 58 ~> Tr 39; 69 ~> St 53; 101 ~> St 53; 124 ~> St 21; 126 ~> St 21; 42 to 43 ~> St 21; 35 to 39 ~> St 21; 48 to 57 ~> St 21;
    94 to 122 ~> St 21; 65 to 90 ~> St 21; 45 to 46 ~> St 21] (St 0);
  Case 53 [] [33 ~> St 21; 58 ~> Tr 39; 78 ~> St 54; 110 ~> St 54; 124 ~> St 21; 126 ~> St 21; 42 to 43 ~> St 21; 35 to 39 ~> St 21; 48 to 57 ~> St 21;
    94 to 122 ~> St 21; 65 to 90 ~> St 21; 45 to 46 ~> St 21] (St 0);
  Case 54 [] [33 ~> St 21; 58 ~> Tr 39; 67 ~> St 55; 99 ~> St 55; 124 ~> St 21; 126 ~> St 21; 42 to 43 ~> St 21; 35 to 39 ~> St 21; 48 to 57 ~> St 21;
    94 to 122 ~> St 21; 65 to 90 ~> St 21; 45 to 46 ~> St 21] (St 0);
  Case 55 [] [33 ~> St 21; 58 ~> Tr 39; 79 ~> St 56; 111 ~> St 56; 124 ~> St 21; 126 ~> St 21; 42 to 43 ~> St 21; 35 to 39 ~> St 21; 48 to 57 ~> St 21;
    94 to 122 ~> St 21; 65 to 90 ~> St 21; 45 to 46 ~> St 21] (St 0)].

Definition client_L1658 : list (block action) := [
  Case 56 [] [33 ~> St 21; 58 ~> Tr 39; 68 ~> St 57; 100 ~> St 57; 124 ~> St 21; 126 ~> St 21; 42 to 43 ~> St 21; 35 to 39 ~> St 21; 48 to 57 ~> St 21;
    94 to 122 ~> St 21; 65 to 90 ~> St 21; 45 to 46 ~> St 21] (St 0);
  Case 57 [] [33 ~> St 21; 58 ~> Tr 39; 73 ~> St 58; 105 ~> St 58; 124 ~> St 21; 126 ~> St 21; 42 to 43 ~> St 21; 35 to 39 ~> St 21; 48 to 57 ~> St 21;
    94 to 122 ~> St 21; 65 to 90 ~> St 21; 45 to 46 ~> St 21] (St 0);
  Case 58 [] [33 ~> St 21; 58 ~> Tr 39; 78 ~> St 59; 110 ~> St 59; 124 ~> St 21; 126 ~> St 21; 42 to 43 ~> St 21; 35 to 39 ~> St 21; 48 to 57 ~> St 21;
    94 to 122 ~> St 21; 65 to 90 ~> St 21; 45 to 46 ~> St 21] (St 0);
  Case 59 [] [33 ~> St 21; 58 ~> Tr 39; 71 ~> St 60; 103 ~> St 60; 124 ~> St 21; 126 ~> St 21; 42 to 43 ~> St 21; 35 to 39 ~> St 21; 48 to 57 ~> St 21;
    94 to 122 ~> St 21; 65 to 90 ~> St 21; 45 to 46 ~> St 21] (St 0);
  Case 60 [] [33 ~> St 21; 58 ~> Tr 95; 124 ~> St 21; 126 ~> St 21; 42 to 43 ~> St 21; 35 to 39 ~> St 21; 48 to 57 ~> St 21; 94 to 122 ~> St 21;
    65 to 90 ~> St 21; 45 to 46 ~> St 21] (St 0)].

Definition client_L1806 : list (block action) := [
  Label 96 [start_value] 61;
  Label 95 [write_field] 61;
  Case 61 [] [10 ~> Tr 97; 13 ~> Tr 98; 32 ~> Tr 96; 67 ~> Tr 99; 99 ~> Tr 99; 9 to 12 ~> Tr 96] (Tr 40);
  Label 97 [start_value; write_value] 62;
  Case 62 [] [10 ~> Tr 101; 13 ~> St 72; 32 ~> St 63; 33 ~> Tr 35; 67 ~> Tr 103; 84 ~> Tr 37; 99 ~> Tr 103; 116 ~> Tr 37; 124 ~> Tr 35; 126 ~> Tr 35;
    9 to 12 ~> St 63; 42 to 43 ~> Tr 35; 35 to 39 ~> Tr 35; 48 to 57 ~> Tr 35; 94 to 122 ~> Tr 35; 65 to 90 ~> Tr 35; 45 to 46 ~> Tr 35] (St 0);
  Case 63 [] [32 ~> St 63; 67 ~> Tr 104; 99 ~> Tr 104; 9 to 13 ~> St 63] (St 0);
  Label 104 [start_value] 64;
  Case 64 [] [72 ~> St 65; 104 ~> St 65] (St 0);
  Case 65 [] [85 ~> St 66; 117 ~> St 66] (St 0);
  Case 66 [] [78 ~> St 67; 110 ~> St 67] (St 0);
  Case 67 [] [75 ~> St 68; 107 ~> St 68] (St 0);
  Case 68 [] [69 ~> St 69; 101 ~> St 69] (St 0);
  Case 69 [] [68 ~> St 70; 100 ~> St 70] (St 0)].

Definition client_L1950 : list (block action) := [
  Case 70 [] [10 ~> Tr 111; 13 ~> Tr 112] (St 0);
  Label 112 [write_value] 71;
  Case 71 [] [10 ~> Tr 113] (St 0);
  Label 101 [done 121] 121;
  Case 121 [] [32 ~> St 63; 67 ~> Tr 104; 99 ~> Tr 104; 9 to 13 ~> St 63] (St 0);
  Case 72 [] [10 ~> Tr 101; 32 ~> St 63; 67 ~> Tr 104; 99 ~> Tr 104; 9 to 13 ~> St 63] (St 0);
  Label 103 [start_value; start_field] 73;
  Case 73 [] [33 ~> St 21; 58 ~> Tr 39; 72 ~> St 74; 79 ~> St 26; 104 ~> St 74; 111 ~> St 26; 124 ~> St 21; 126 ~> St 21; 42 to 43 ~> St 21;
    35 to 39 ~> St 21; 48 to 57 ~> St 21; 94 to 122 ~> St 21; 65 to 90 ~> St 21; 45 to 46 ~> St 21] (St 0);
  Case 74 [] [33 ~> St 21; 58 ~> Tr 39; 85 ~> St 75; 117 ~> St 75; 124 ~> St 21; 126 ~> St 21; 42 to 43 ~> St 21; 35 to 39 ~> St 21; 48 to 57 ~> St 21;
    94 to 122 ~> St 21; 65 to 90 ~> St 21; 45 to 46 ~> St 21] (St 0)].

Definition client_L2079 : list (block action) := [
  Case 75 [] [33 ~> St 21; 58 ~> Tr 39; 78 ~> St 76; 110 ~> St 76; 124 ~> St 21; 126 ~> St 21; 42 to 43 ~> St 21; 35 to 39 ~> St 21; 48 to 57 ~> St 21;
    94 to 122 ~> St 21; 65 to 90 ~> St 21; 45 to 46 ~> St 21] (St 0);
  Case 76 [] [33 ~> St 21; 58 ~> Tr 39; 75 ~> St 77; 107 ~> St 77; 124 ~> St 21; 126 ~> St 21; 42 to 43 ~> St 21; 35 to 39 ~> St 21; 48 to 57 ~> St 21;
    94 to 122 ~> St 21; 65 to 90 ~> St 21; 45 to 46 ~> St 21] (St 0);
  Case 77 [] [33 ~> St 21; 58 ~> Tr 39; 69 ~> St 78; 101 ~> St 78; 124 ~> St 21; 126 ~> St 21; 42 to 43 ~> St 21; 35 to 39 ~> St 21; 48 to 57 ~> St 21;
    94 to 122 ~> St 21; 65 to 90 ~> St 21; 45 to 46 ~> St 21] (St 0);
  Case 78 [] [33 ~> St 21; 58 ~> Tr 39; 68 ~> St 79; 100 ~> St 79; 124 ~> St 21; 126 ~> St 21; 42 to 43 ~> St 21; 35 to 39 ~> St 21; 48 to 57 ~> St 21;
    94 to 122 ~> St 21; 65 to 90 ~> St 21; 45 to 46 ~> St 21] (St 0);
  Case 79 [] [10 ~> Tr 111; 13 ~> Tr 112; 33 ~> St 21; 58 ~> Tr 39; 124 ~> St 21; 126 ~> St 21; 42 to 43 ~> St 21; 35 to 39 ~> St 21; 48 to 57 ~> St 21;
    94 to 122 ~> St 21; 65 to 90 ~> St 21; 45 to 46 ~> St 21] (St 0)].

Definition client_L2229 : list (block action) := [
  Label 98 [start_value; write_value] 80;
  Case 80 [] [10 ~> St 62; 32 ~> St 63; 67 ~> Tr 104; 99 ~> Tr 104; 9 to 13 ~> St 63] (St 0);
  Label 99 [start_value] 81;
  Case 81 [] [10 ~> Tr 45; 13 ~> Tr 46; 72 ~> St 82; 104 ~> St 82] (St 23);
  Case 82 [] [10 ~> Tr 45; 13 ~> Tr 46; 85 ~> St 83; 117 ~> St 83] (St 23);
  Case 83 [] [10 ~> Tr 45; 13 ~> Tr 46; 78 ~> St 84; 110 ~> St 84] (St 23);
  Case 84 [] [10 ~> Tr 45; 13 ~> Tr 46; 75 ~> St 85; 107 ~> St 85] (St 23);
  Case 85 [] [10 ~> Tr 45; 13 ~> Tr 46; 69 ~> St 86; 101 ~> St 86] (St 23);
  Case 86 [] [10 ~> Tr 45; 13 ~> Tr 46; 68 ~> St 87; 100 ~> St 87] (St 23);
  Case 87 [] [10 ~> Tr 111; 13 ~> Tr 112] (St 23);
  Label 137 [write_value] 88;
  Case 88 [] [10 ~> St 43] (St 0);
  Label 64 [done 122] 122;
  Case 122 [] [32 ~> St 37; 67 ~> St 38; 99 ~> St 38; 9 to 13 ~> St 37] (St 0)].

Definition client_L2371 : list (block action) := [
  Case 89 [] [10 ~> Tr 64; 32 ~> St 37; 67 ~> St 38; 99 ~> St 38; 9 to 13 ~> St 37] (St 0);
  Label 66 [start_field] 90;
  Case 90 [] [33 ~> St 21; 58 ~> Tr 39; 76 ~> St 91; 79 ~> St 26; 108 ~> St 91; 111 ~> St 26; 124 ~> St 21; 126 ~> St 21; 42 to 43 ~> St 21;
    35 to 39 ~> St 21; 48 to 57 ~> St 21; 94 to 122 ~> St 21; 65 to 90 ~> St 21; 45 to 46 ~> St 21] (St 0);
  Case 91 [] [33 ~> St 21; 58 ~> Tr 39; 79 ~> St 92; 111 ~> St 92; 124 ~> St 21; 126 ~> St 21; 42 to 43 ~> St 21; 35 to 39 ~> St 21; 48 to 57 ~> St 21;
    94 to 122 ~> St 21; 65 to 90 ~> St 21; 45 to 46 ~> St 21] (St 0);
  Case 92 [] [33 ~> St 21; 58 ~> Tr 39; 83 ~> St 93; 115 ~> St 93; 124 ~> St 21; 126 ~> St 21; 42 to 43 ~> St 21; 35 to 39 ~> St 21; 48 to 57 ~> St 21;
    94 to 122 ~> St 21; 65 to 90 ~> St 21; 45 to 46 ~> St 21] (St 0);
  Case 93 [] [33 ~> St 21; 58 ~> Tr 39; 69 ~> St 94; 101 ~> St 94; 124 ~> St 21; 126 ~> St 21; 42 to 43 ~> St 21; 35 to 39 ~> St 21; 48 to 57 ~> St 21;
    94 to 122 ~> St 21; 65 to 90 ~> St 21; 45 to 46 ~> St 21] (St 0)].

Definition client_L2511 : list (block action) := [
  Case 94 [] [10 ~> St 43; 13 ~> St 88; 33 ~> St 21; 58 ~> Tr 39; 124 ~> St 21; 126 ~> St 21; 42 to 43 ~> St 21; 35 to 39 ~> St 21; 48 to 57 ~> St 21;
    94 to 122 ~> St 21; 65 to 90 ~> St 21; 45 to 46 ~> St 21] (St 0);
  Label 61 [start_value; write_value] 95;
  Case 95 [] [10 ~> St 36; 32 ~> St 37; 67 ~> St 38; 99 ~> St 38; 9 to 13 ~> St 37] (St 0);
  Label 62 [start_value] 96;
  Case 96 [] [10 ~> Tr 45; 13 ~> Tr 46; 76 ~> St 97; 108 ~> St 97] (St 23);
  Case 97 [] [10 ~> Tr 45; 13 ~> Tr 46; 79 ~> St 98; 111 ~> St 98] (St 23);
  Case 98 [] [10 ~> Tr 45; 13 ~> Tr 46; 83 ~> St 99; 115 ~> St 99] (St 23);
  Case 99 [] [10 ~> Tr 45; 13 ~> Tr 46; 69 ~> St 100; 101 ~> St 100] (St 23);
  Case 100 [] [10 ~> Tr 136; 13 ~> Tr 137] (St 23);
  Case 101 [] [33 ~> St 21; 58 ~> Tr 39; 69 ~> St 102; 101 ~> St 102; 124 ~> St 21; 126 ~> St 21; 42 to 43 ~> St 21; 35 to 39 ~> St 21;
    48 to 57 ~> St 21; 94 to 122 ~> St 21; 65 to 90 ~> St 21; 45 to 46 ~> St 21] (St 0)].

Definition client_L2653 : list (block action) := [
  Case 102 [] [33 ~> St 21; 58 ~> Tr 39; 78 ~> St 103; 110 ~> St 103; 124 ~> St 21; 126 ~> St 21; 42 to 43 ~> St 21; 35 to 39 ~> St 21;
    48 to 57 ~> St 21; 94 to 122 ~> St 21; 65 to 90 ~> St 21; 45 to 46 ~> St 21] (St 0);
  Case 103 [] [33 ~> St 21; 58 ~> Tr 39; 84 ~> St 104; 116 ~> St 104; 124 ~> St 21; 126 ~> St 21; 42 to 43 ~> St 21; 35 to 39 ~> St 21;
    48 to 57 ~> St 21; 94 to 122 ~> St 21; 65 to 90 ~> St 21; 45 to 46 ~> St 21] (St 0);
  Case 104 [] [33 ~> St 21; 45 ~> St 105; 46 ~> St 21; 58 ~> Tr 39; 124 ~> St 21; 126 ~> St 21; 42 to 43 ~> St 21; 35 to 39 ~> St 21;
    94 to 122 ~> St 21; 65 to 90 ~> St 21; 48 to 57 ~> St 21] (St 0);
  Case 105 [] [33 ~> St 21; 58 ~> Tr 39; 76 ~> St 106; 108 ~> St 106; 124 ~> St 21; 126 ~> St 21; 42 to 43 ~> St 21; 35 to 39 ~> St 21;
    48 to 57 ~> St 21; 94 to 122 ~> St 21; 65 to 90 ~> St 21; 45 to 46 ~> St 21] (St 0);
  Case 106 [] [33 ~> St 21; 58 ~> Tr 39; 69 ~> St 107; 101 ~> St 107; 124 ~> St 21; 126 ~> St 21; 42 to 43 ~> St 21; 35 to 39 ~> St 21;
    48 to 57 ~> St 21; 94 to 122 ~> St 21; 65 to 90 ~> St 21; 45 to 46 ~> St 21] (St 0)].

Definition client_L2800 : list (block action) := [
  Case 107 [] [33 ~> St 21; 58 ~> Tr 39; 78 ~> St 108; 110 ~> St 108; 124 ~> St 21; 126 ~> St 21; 42 to 43 ~> St 21; 35 to 39 ~> St 21;
    48 to 57 ~> St 21; 94 to 122 ~> St 21; 65 to 90 ~> St 21; 45 to 46 ~> St 21] (St 0);
  Case 108 [] [33 ~> St 21; 58 ~> Tr 39; 71 ~> St 109; 103 ~> St 109; 124 ~> St 21; 126 ~> St 21; 42 to 43 ~> St 21; 35 to 39 ~> St 21;
    48 to 57 ~> St 21; 94 to 122 ~> St 21; 65 to 90 ~> St 21; 45 to 46 ~> St 21] (St 0);
  Case 109 [] [33 ~> St 21; 58 ~> Tr 39; 84 ~> St 110; 116 ~> St 110; 124 ~> St 21; 126 ~> St 21; 42 to 43 ~> St 21; 35 to 39 ~> St 21;
    48 to 57 ~> St 21; 94 to 122 ~> St 21; 65 to 90 ~> St 21; 45 to 46 ~> St 21] (St 0);
  Case 110 [] [33 ~> St 21; 58 ~> Tr 39; 72 ~> St 111; 104 ~> St 111; 124 ~> St 21; 126 ~> St 21; 42 to 43 ~> St 21; 35 to 39 ~> St 21;
    48 to 57 ~> St 21; 94 to 122 ~> St 21; 65 to 90 ~> St 21; 45 to 46 ~> St 21] (St 0);
  Case 111 [] [33 ~> St 21; 58 ~> Tr 148; 124 ~> St 21; 126 ~> St 21; 42 to 43 ~> St 21; 35 to 39 ~> St 21; 48 to 57 ~> St 21; 94 to 122 ~> St 21;
    65 to 90 ~> St 21; 45 to 46 ~> St 21] (St 0)].

Definition client_L2948 : list (block action) := [
  Label 149 [start_value] 112;
  Label 148 [write_field] 112;
  Case 112 [] [10 ~> Tr 150; 13 ~> Tr 151; 32 ~> Tr 149; 48 to 57 ~> Tr 152; 9 to 12 ~> Tr 149] (Tr 40);
  Label 150 [start_value; write_value] 113;
  Case 113 [] [10 ~> Tr 154; 13 ~> St 116; 32 ~> St 114; 33 ~> Tr 35; 67 ~> Tr 36; 84 ~> Tr 37; 99 ~> Tr 36; 116 ~> Tr 37; 124 ~> Tr 35; 126 ~> Tr 35;
    9 to 12 ~> St 114; 42 to 43 ~> Tr 35; 35 to 39 ~> Tr 35; 48 to 57 ~> Tr 156; 94 to 122 ~> Tr 35; 65 to 90 ~> Tr 35; 45 to 46 ~> Tr 35] (St 0);
  Case 114 [] [32 ~> St 114; 48 to 57 ~> Tr 157; 9 to 13 ~> St 114] (St 0);
  Label 157 [start_value] 115;
  Case 115 [] [10 ~> Tr 158; 13 ~> Tr 159; 48 to 57 ~> St 115] (St 0);
  Label 154 [done 123] 123;
  Case 123 [] [32 ~> St 114; 48 to 57 ~> Tr 157; 9 to 13 ~> St 114] (St 0);
  Case 116 [] [10 ~> Tr 154; 32 ~> St 114; 48 to 57 ~> Tr 157; 9 to 13 ~> St 114] (St 0);
  Label 156 [start_value; start_field] 117].

Definition client_L3092 : list (block action) := [
  Case 117 [] [10 ~> Tr 158; 13 ~> Tr 159; 33 ~> St 21; 58 ~> Tr 39; 124 ~> St 21; 126 ~> St 21; 42 to 43 ~> St 21; 35 to 39 ~> St 21;
    48 to 57 ~> St 117; 94 to 122 ~> St 21; 65 to 90 ~> St 21; 45 to 46 ~> St 21] (St 0);
  Label 151 [start_value; write_value] 118;
  Case 118 [] [10 ~> St 113; 32 ~> St 114; 48 to 57 ~> Tr 157; 9 to 13 ~> St 114] (St 0);
  Label 152 [start_value] 119;
  Case 119 [] [10 ~> Tr 158; 13 ~> Tr 159; 48 to 57 ~> St 119] (St 23)].

Definition client_L3165 : list (block action) := [
  TestEof 2 2;
  TestEof 120 120;
  TestEof 3 3;
  TestEof 4 4;
  TestEof 5 5;
  TestEof 6 6;
  TestEof 7 7;
  TestEof 8 8;
  TestEof 9 9;
  TestEof 10 10;
  TestEof 11 11;
  TestEof 12 12;
  TestEof 13 13;
  TestEof 14 14;
  TestEof 15 15;
  TestEof 16 16;
  TestEof 17 17;
  TestEof 18 18;
  TestEof 19 19;
  TestEof 20 20;
  TestEof 21 21;
  TestEof 22 22;
  TestEof 23 23;
  TestEof 24 24;
  TestEof 25 25;
  TestEof 26 26;
  TestEof 27 27;
  TestEof 28 28;
  TestEof 29 29;
  TestEof 30 30;
  TestEof 31 31;
  TestEof 32 32;
  TestEof 33 33;
  TestEof 34 34;
  TestEof 35 35;
  TestEof 36 36;
  TestEof 37 37;
  TestEof 38 38;
  TestEof 39 39;
  TestEof 40 40;
  TestEof 41 41;
  TestEof 42 42;
  TestEof 43 43;
  TestEof 44 44;
  TestEof 45 45;
  TestEof 46 46;
  TestEof 47 47;
  TestEof 48 48;
  TestEof 49 49;
  TestEof 50 50;
  TestEof 51 51;
  TestEof 52 52;
  TestEof 53 53;
  TestEof 54 54;
  TestEof 55 55;
  TestEof 56 56;
  TestEof 57 57;
  TestEof 58 58;
  TestEof 59 59;
  TestEof 60 60;
  TestEof 61 61;
  TestEof 62 62;
  TestEof 63 63;
  TestEof 64 64;
  TestEof 65 65;
  TestEof 66 66;
  TestEof 67 67;
  TestEof 68 68;
  TestEof 69 69;
  TestEof 70 70;
  TestEof 71 71;
  TestEof 121 121;
  TestEof 72 72;
  TestEof 73 73;
  TestEof 74 74;
  TestEof 75 75;
  TestEof 76 76;
  TestEof 77 77;
  TestEof 78 78;
  TestEof 79 79;
  TestEof 80 80;
  TestEof 81 81;
  TestEof 82 82;
  TestEof 83 83;
  TestEof 84 84;
  TestEof 85 85;
  TestEof 86 86;
  TestEof 87 87;
  TestEof 88 88;
  TestEof 122 122;
  TestEof 89 89;
  TestEof 90 90;
  TestEof 91 91;
  TestEof 92 92;
  TestEof 93 93;
  TestEof 94 94;
  TestEof 95 95;
  TestEof 96 96;
  TestEof 97 97;
  TestEof 98 98;
  TestEof 99 99;
  TestEof 100 100;
  TestEof 101 101;
  TestEof 102 102;
  TestEof 103 103;
  TestEof 104 104;
  TestEof 105 105;
  TestEof 106 106;
  TestEof 107 107;
  TestEof 108 108;
  TestEof 109 109;
  TestEof 110 110;
  TestEof 111 111;
  TestEof 112 112;
  TestEof 113 113;
  TestEof 114 114;
  TestEof 115 115;
  TestEof 123 123;
  TestEof 116 116;
  TestEof 117 117;
  TestEof 118 118;
  TestEof 119 119].

Definition client_code : list (block action) :=
  client_L122 ++ client_L259 ++ client_L403 ++ client_L550 ++ client_L692 ++ client_L815 ++ client_L938 ++
  client_L1088 ++ client_L1237 ++ client_L1361 ++ client_L1511 ++ client_L1658 ++ client_L1806 ++ client_L1950 ++
  client_L2079 ++ client_L2229 ++ client_L2371 ++ client_L2511 ++ client_L2653 ++ client_L2800 ++ client_L2948 ++
  client_L3092 ++ client_L3165.

Definition client_machine : machine action :=
  build 1 120 0 client_code [].

End Hc.
