(* ===== verification/HttpClientMachine.v ===== *)
(** The response automaton of http/httpclient_parser.rl.cc: the structure of
    httpclient_parser.h, the actions of the grammar and the entry points. *)

From stdpp Require Import strings.
From S2P Require Import Prelude Strs Cnum Ragel HttpClientTable HttpMachine.

Module Hcm.

Import Rg Hc.
Local Open Scope Z_scope.

(** What the automaton reports, as in the request automaton. *)
Inductive revent :=
  | OnReason (at_ : string) (len : Z)
  | OnStatus (at_ : string) (len : Z)
  | OnChunk (at_ : string) (len : Z)
  | OnRspVersion (at_ : string) (len : Z)
  | OnRspHeaderDone
  | OnLastChunk (at_ : string) (len : Z)
  | OnRspField (field : string) (flen : Z) (value : string) (vlen : Z).

Record httpclient_parser := mkClientParser {
  cs : N;
  body_start : nat;
  content_len : Z;
  status : Z;
  chunked : bool;
  chunks_done : bool;
  close : bool;
  nread : nat;
  mark : nat;
  field_start : nat;
  field_len : Z;
}.

Definition set_mark (h : httpclient_parser) v := mkClientParser (cs h) (body_start h) (content_len h) (status h) (chunked h) (chunks_done h) (close h) (nread h) v (field_start h) (field_len h).
Definition set_field_start (h : httpclient_parser) v := mkClientParser (cs h) (body_start h) (content_len h) (status h) (chunked h) (chunks_done h) (close h) (nread h) (mark h) v (field_len h).
Definition set_field_len (h : httpclient_parser) v := mkClientParser (cs h) (body_start h) (content_len h) (status h) (chunked h) (chunks_done h) (close h) (nread h) (mark h) (field_start h) v.
Definition set_body_start (h : httpclient_parser) v := mkClientParser (cs h) v (content_len h) (status h) (chunked h) (chunks_done h) (close h) (nread h) (mark h) (field_start h) (field_len h).
Definition set_content_len (h : httpclient_parser) v := mkClientParser (cs h) (body_start h) v (status h) (chunked h) (chunks_done h) (close h) (nread h) (mark h) (field_start h) (field_len h).
Definition set_status (h : httpclient_parser) v := mkClientParser (cs h) (body_start h) (content_len h) v (chunked h) (chunks_done h) (close h) (nread h) (mark h) (field_start h) (field_len h).
Definition set_chunked (h : httpclient_parser) := mkClientParser (cs h) (body_start h) (content_len h) (status h) true (chunks_done h) (close h) (nread h) (mark h) (field_start h) (field_len h).
Definition set_chunks_done (h : httpclient_parser) v := mkClientParser (cs h) (body_start h) (content_len h) (status h) (chunked h) v (close h) (nread h) (mark h) (field_start h) (field_len h).
Definition set_close (h : httpclient_parser) := mkClientParser (cs h) (body_start h) (content_len h) (status h) (chunked h) (chunks_done h) true (nread h) (mark h) (field_start h) (field_len h).

(** [httpclient_parser_init] leaves [status] alone: [st] is what it was. *)
Definition httpclient_parser_init (st : Z) : httpclient_parser :=
  mkClientParser (m_start client_machine) 0 (-1) st false false false 0 0 0 0.

Section actions.
Context (buffer : string).

Abbreviation vars := (httpclient_parser * list revent)%type.
Abbreviation LEN := Hm.LEN.
Abbreviation PTR_TO := (Hm.PTR_TO buffer).

Definition do_action (a : action) (p : nat) (v : vars) : outcome (vars * option N) :=
  let h := v.1 in
  let report e := Ok ((h, v.2 ++ [e]), None) in
  match a with
  | Hc.mark | start_value => Ok ((set_mark h p, v.2), None)
  | start_field => Ok ((set_field_start h p, v.2), None)
  | write_field => Ok ((set_field_len h (LEN (field_start h) p), v.2), None)
  | write_content_len => Ok ((set_content_len h (i32 (Cn.strtol (PTR_TO (mark h)) 10)), v.2), None)
  | write_connection_close => Ok ((set_close h, v.2), None)
  | write_value => report (OnRspField (PTR_TO (field_start h)) (field_len h) (PTR_TO (mark h)) (LEN (mark h) p))
  | reason_phrase => report (OnReason (PTR_TO (mark h)) (LEN (mark h) p))
  | status_code =>
      Ok ((set_status h (i32 (Cn.strtol (PTR_TO (mark h)) 10)), v.2 ++ [OnStatus (PTR_TO (mark h)) (LEN (mark h) p)]), None)
  | http_version => report (OnRspVersion (PTR_TO (mark h)) (LEN (mark h) p))
  | chunk_size =>
      let n := i32 (Cn.strtol (PTR_TO (mark h)) 16) in
      let h := set_chunks_done (set_content_len (set_chunked h) n) (n <=? 0) in
      Ok ((h, v.2 ++ [if chunks_done h then OnLastChunk (PTR_TO (mark h)) (LEN (mark h) p)
                      else OnChunk (PTR_TO (mark h)) (LEN (mark h) p)]), None)
  | trans_chunked => Ok ((set_chunked h, v.2), None)
  | done cs' => Ok ((set_body_start h (S p), v.2 ++ [OnRspHeaderDone]), Some cs')
  end.

End actions.

Definition httpclient_parser_has_error (h : httpclient_parser) : bool := (cs h =? m_error client_machine)%N.
Definition httpclient_parser_is_finished (h : httpclient_parser) : bool := (cs h =? m_first_final client_machine)%N.

Definition httpclient_parser_finish (h : httpclient_parser) : Z :=
  if httpclient_parser_has_error h then -1 else if httpclient_parser_is_finished h then 1 else 0.

(** [httpclient_parser_execute] with offset 0: the bytes consumed, or -1 when a
    check fails. The caller has stored the NUL behind the data that is asserted
    first. *)
Definition httpclient_parser_execute (h : httpclient_parser) (buffer : string) : outcome (httpclient_parser * Z * list revent) :=
  let len := String.length buffer in
  let h := mkClientParser (cs h) (body_start h) (content_len h) (status h) (chunked h) (chunks_done h) (close h) 0 0 0 0 in
  _ ← sylar_assert (Z.of_nat len =? i32 (Z.of_nat len));
  '(cs', p, (h, evs)) ← run client_machine false (do_action buffer) (cs h) 0 buffer (h, []);
  let h := mkClientParser cs' (body_start h) (content_len h) (status h) (chunked h) (chunks_done h) (close h) (nread h + p)
             (mark h) (field_start h) (field_len h) in
  _ ← sylar_assert (p <=? len)%nat;
  _ ← sylar_assert (nread h <=? len)%nat;
  _ ← sylar_assert (body_start h <=? len)%nat;
  if (mark h <? len)%nat && (field_len h <=? Z.of_nat len) && (field_start h <? len)%nat
  then Ok (h, Z.of_nat (nread h), evs) else Ok (h, -1, evs).

End Hcm.
