(* ===== verification/HttpClient.v ===== *)
(** The HTTP client: the response parser of http/http_parser.cc around the
    generated automaton, and [HttpConnection] of http/http_connection.cc. *)

From stdpp Require Import strings pretty.
From S2P Require Import Prelude Strs Cnum Ragel Uri Http HttpSession HttpClientTable HttpMachine HttpClientMachine.

Module Cl.

Import Http Hcm.
Local Open Scope Z_scope.
#[local] Arguments String.append !_ _ /.

Abbreviation net := Srv.net.

(** ** The response parser *)

Record HttpResponseParser := mkRspParser {
  m_parser : httpclient_parser;
  m_data : HttpResponse;
  m_error : Z;
}.

Definition set_data (p : HttpResponseParser) d := mkRspParser (m_parser p) d (m_error p).
Definition setError (p : HttpResponseParser) e := mkRspParser (m_parser p) (m_data p) e.

Definition on_response_reason (p : HttpResponseParser) (at_ : string) (len : Z) : outcome HttpResponseParser :=
  s ← Srv.cpp_string at_ len; Ok (set_data p (rsp_setReason (m_data p) s)).

Definition on_response_status (p : HttpResponseParser) (at_ : string) : outcome HttpResponseParser :=
  s ← Cn.atoi at_; Ok (set_data p (rsp_setStatus (m_data p) s)).

Definition on_response_version (p : HttpResponseParser) (at_ : string) (len : Z) : HttpResponseParser :=
  if Srv.token_is at_ len "HTTP/1.1" then set_data p (rsp_setVersion (m_data p) 17)
  else if Srv.token_is at_ len "HTTP/1.0" then set_data p (rsp_setVersion (m_data p) 16)
  else setError p 1001.

Definition on_response_http_field (p : HttpResponseParser) (field : string) (flen : Z) (value : string) (vlen : Z) :
    outcome HttpResponseParser :=
  if flen =? 0 then Ok p
  else f ← Srv.cpp_string field flen; v ← Srv.cpp_string value vlen; Ok (set_data p (rsp_setHeader (m_data p) f v)).

(** The callbacks that do nothing: chunk sizes and the end of the header. *)
Definition on_event (p : HttpResponseParser) (e : revent) : outcome HttpResponseParser :=
  match e with
  | OnReason at_ len => on_response_reason p at_ len
  | OnStatus at_ _ => on_response_status p at_
  | OnRspVersion at_ len => Ok (on_response_version p at_ len)
  | OnRspField f flen v vlen => on_response_http_field p f flen v vlen
  | OnChunk _ _ | OnRspHeaderDone | OnLastChunk _ _ => Ok p
  end.

Fixpoint on_events (p : HttpResponseParser) (evs : list revent) : outcome HttpResponseParser :=
  match evs with
  | [] => Ok p
  | e :: evs => p ← on_event p e; on_events p evs
  end.

(** What the constructor leaves uninitialised: [m_error], the automaton's
    [status] and the response's websocket flag. *)
Record garbage := mkGarbage { g_error : Z; g_status : Z; g_websocket : bool }.

Definition new_HttpResponseParser (g : garbage) : HttpResponseParser :=
  mkRspParser (httpclient_parser_init (g_status g)) (new_HttpResponse (g_websocket g) 17 true) (g_error g).

Definition getContentLength (lexical_cast : string -> option Z) (p : HttpResponseParser) : Z :=
  getAs lexical_cast (r_headers (m_data p)) "content-length" 0.

(** [execute], with the data left moved to the front. When the automaton
    answers -1 the move starts before the buffer. *)
Definition execute (p : HttpResponseParser) (data : string) (chunck : bool) : outcome (HttpResponseParser * nat * string) :=
  let a := if chunck then httpclient_parser_init (status (m_parser p)) else m_parser p in
  '(a, n, evs) ← httpclient_parser_execute a data;
  p ← on_events (mkRspParser a (m_data p) (m_error p)) evs;
  if n <? 0 then Fail Indeterminate else Ok (p, Z.to_nat n, str_drop (Z.to_nat n) data).

Definition isFinished (p : HttpResponseParser) : bool := negb (httpclient_parser_finish (m_parser p) =? 0).
Definition hasError (p : HttpResponseParser) : bool := negb (m_error p =? 0) || httpclient_parser_has_error (m_parser p).

(** ** Receiving a response *)

Section receive.
Context (lexical_cast : string -> option Z) (buffer_size : nat).

(** Read once more behind [data] and parse; [None] when the connection is
    closed and nothing returned. *)
Definition read_and_parse (p : HttpResponseParser) (data : string) (chunck : bool) (n : net) :
    outcome (option (HttpResponseParser * string) * net) :=
  let '(len, bytes, n) := Srv.read n (buffer_size - String.length data) in
  if len <=? 0 then Ok (None, n) else
  '(p, _, data) ← execute p (data ++ bytes) chunck;
  if hasError p then Ok (None, n) else
  if (String.length data =? buffer_size)%nat then Ok (None, n) else Ok (Some (p, data), n).

(** The loop until the parser is finished. *)
Fixpoint parse_loop (fuel : nat) (p : HttpResponseParser) (data : string) (chunck : bool) (n : net) :
    outcome (option (HttpResponseParser * string) * net) :=
  match fuel with
  | O => Fail OutOfFuel
  | S fuel =>
      '(r, n) ← read_and_parse p data chunck n;
      match r with
      | None => Ok (None, n)
      | Some (p, data) => if isFinished p then Ok (Some (p, data), n) else parse_loop fuel p data chunck n
      end
  end.

(** [body.append(data, len)] with the first [len] bytes of the buffer; the
    length is converted to a [size_t]. *)
Definition append (body data : string) (len : Z) : outcome string :=
  s ← Srv.cpp_string data (u64 len); Ok (body ++ s)%string.

(** The bytes of one chunk after its header: [len] has been reduced by two for
    the line end, the loop that would read the rest of the chunk runs while the
    number of missing bytes is negative, that is never. *)
Definition take_chunk (p : HttpResponseParser) (body data : string) : outcome (string * string) :=
  let len := Z.of_nat (String.length data) - 2 in
  let content_len := content_len (m_parser p) in
  if content_len <=? len then
    body ← append body data content_len;
    Ok (body, str_take (Z.to_nat (len - content_len)) (str_drop (Z.to_nat content_len) data))
  else
    body ← append body data len; Ok (body, ""%string).

(** The chunks up to the last; a read comes before each of them. *)
Fixpoint recv_chunks (fuel : nat) (p : HttpResponseParser) (body data : string) (n : net) :
    outcome (option (HttpResponseParser * string) * net) :=
  match fuel with
  | O => Fail OutOfFuel
  | S fuel =>
      '(r, n) ← parse_loop (S fuel) p data true n;
      match r with
      | None => Ok (None, n)
      | Some (p, data) =>
          '(body, data) ← take_chunk p body data;
          if chunks_done (m_parser p) then Ok (Some (p, body), n) else recv_chunks fuel p body data n
      end
  end.

(** [HttpConnection::recvResponse]: the response, or none with the connection
    closed. *)
Definition recvResponse (fuel : nat) (g : garbage) (n : net) : outcome (option HttpResponse * net) :=
  '(r, n) ← parse_loop fuel (new_HttpResponseParser g) "" false n;
  match r with
  | None => Ok (None, n)
  | Some (p, data) =>
      if chunked (m_parser p) then
        '(r, n) ← recv_chunks fuel p "" data n;
        Ok (option_map (fun pb => rsp_setBody (m_data pb.1) pb.2) r, n)
      else
        let length_ := i64 (getContentLength lexical_cast p) in
        if 0 <? length_ then
          '(b, n) ← Srv.recv_body fuel length_ data n;
          Ok (option_map (rsp_setBody (m_data p)) b, n)
        else Ok (Some (m_data p), n)
  end.

End receive.

(** ** Requests *)

(** [HttpResult::Error] *)
Inductive Error :=
  | OK | INVALID_URL | INVALID_HOST | CONNECT_FAIL | SEND_CLOSE_BY_PEER | SEND_SOCKET_ERROR | TIMEOUT
  | CREATE_SOCKET_ERROR | POOL_GET_CONNECTION | POOL_INVALID_CONNECTION.

#[global] Instance Error_eq_dec : EqDecision Error.
Proof. solve_decision. Defined.

Definition code (e : Error) : Z :=
  match e with
  | OK => 0 | INVALID_URL => 1 | INVALID_HOST => 2 | CONNECT_FAIL => 3 | SEND_CLOSE_BY_PEER => 4
  | SEND_SOCKET_ERROR => 5 | TIMEOUT => 6 | CREATE_SOCKET_ERROR => 7 | POOL_GET_CONNECTION => 8
  | POOL_INVALID_CONNECTION => 9
  end.

Record HttpResult := mkResult { result : Z; response : option HttpResponse; error : string }.

(** The loop over the header fields given by the caller: [connection] only
    chooses keep-alive, and a [host] that is not empty is noted. *)
Fixpoint add_headers (headers : list (string * string)) (req : HttpRequest) (has_host : bool) : HttpRequest * bool :=
  match headers with
  | [] => (req, has_host)
  | (k, v) :: headers =>
      if strcasecmp_eq k "connection" then
        add_headers headers (if strcasecmp_eq v "keep-alive" then setClose req false else req) has_host
      else
        let has_host := if negb has_host && strcasecmp_eq k "host" then negb (String.eqb v "") else has_host in
        add_headers headers (setHeader req k v) has_host
  end.

(** The request that [DoRequest] builds from its arguments. *)
Definition build_request (method : HttpMethod) (uri : Uri.Uri) (headers : list (string * string)) (body : string) : HttpRequest :=
  let req := new_HttpRequest 17 true in
  let req := setPath req (Uri.getPath uri) in
  let req := setQuery req (Uri.m_query uri) in
  let req := setFragment req (Uri.m_fragment uri) in
  let req := setMethod req method in
  let '(req, has_host) := add_headers headers req false in
  let req := if has_host then req else setHeader req "Host" (Uri.m_host uri) in
  setBody req body.

Section connection.
Context (lexical_cast : string -> option Z) (buffer_size : nat).

(** [sendRequest] against a peer that takes the given numbers of bytes. *)
Definition sendRequest (takes : list Z) (req : HttpRequest) : outcome (Z * string) :=
  Srv.writeFixSize takes (dump_request req).

(** The rest of the exchange on a connected socket: send, receive, and the
    error of each. [peer] is the peer's address as text, [errno_text] errno with
    its description, [sent] what went out. *)
Definition exchange (fuel : nat) (g : garbage) (peer errno_text : string) (timeout_ms : Z) (takes : list Z) (n : net)
    (req : HttpRequest) : outcome (HttpResult * string * net) :=
  '(rt, sent) ← sendRequest takes req;
  if rt =? 0 then Ok (mkResult (code SEND_CLOSE_BY_PEER) None ("send request closed by peer: " ++ peer), sent, n) else
  if rt <? 0 then Ok (mkResult (code SEND_SOCKET_ERROR) None ("send request socket error errno=" ++ errno_text), sent, n) else
  '(rsp, n) ← recvResponse lexical_cast buffer_size fuel g n;
  match rsp with
  | None => Ok (mkResult (code TIMEOUT) None ("recv response timeout: " ++ peer ++ " timeout_ms:" ++ show timeout_ms), sent, n)
  | Some rsp => Ok (mkResult (code OK) (Some rsp) "ok", sent, n)
  end.

(** What the system answers to one request: the address as text when the host
    resolves, the socket and the connection made or not, and the traffic. *)
Record world := mkWorld {
  w_resolve : string -> option string;
  w_socket : bool;
  w_connect : bool;
  w_errno : string;
  w_takes : list Z;
  w_net : net;
}.

(** [Uri::createAddress], with the port in the address's text. *)
Definition address_of (w : world) (uri : Uri.Uri) : option string :=
  Uri.createAddress (w_resolve w) (fun a port => (a ++ ":" ++ show port)%string) uri.

(** [DoRequest(req, uri, timeout_ms)] *)
Definition DoRequest_req (fuel : nat) (g : garbage) (w : world) (req : HttpRequest) (uri : Uri.Uri) (timeout_ms : Z) :
    outcome (HttpResult * string * net) :=
  match address_of w uri with
  | None => Ok (mkResult (code INVALID_HOST) None ("invalid host: " ++ Uri.m_host uri), ""%string, w_net w)
  | Some addr =>
      if negb (w_socket w) then
        Ok (mkResult (code CREATE_SOCKET_ERROR) None ("create socket fail: " ++ addr ++ " errno=" ++ w_errno w), ""%string, w_net w)
      else if negb (w_connect w) then
        Ok (mkResult (code CONNECT_FAIL) None ("connect fail: " ++ addr), ""%string, w_net w)
      else exchange fuel g addr (w_errno w) timeout_ms (w_takes w) (w_net w) req
  end.

(** [DoRequest(method, uri, ...)] *)
Definition DoRequest_uri (fuel : nat) (g : garbage) (w : world) (method : HttpMethod) (uri : Uri.Uri) (timeout_ms : Z)
    (headers : list (string * string)) (body : string) : outcome (HttpResult * string * net) :=
  DoRequest_req fuel g w (build_request method uri headers body) uri timeout_ms.

(** [DoRequest(method, url, ...)] *)
Definition DoRequest (fuel : nat) (g : garbage) (w : world) (method : HttpMethod) (url : string) (timeout_ms : Z)
    (headers : list (string * string)) (body : string) : outcome (HttpResult * string * net) :=
  uri ← Uri.Create url;
  match uri with
  | None => Ok (mkResult (code INVALID_URL) None ("invalid url: " ++ url), ""%string, w_net w)
  | Some uri => DoRequest_uri fuel g w method uri timeout_ms headers body
  end.

(** [DoGet] and [DoPost] *)
Definition DoGet (fuel : nat) (g : garbage) (w : world) (url : string) (timeout_ms : Z)
    (headers : list (string * string)) (body : string) : outcome (HttpResult * string * net) :=
  uri ← Uri.Create url;
  match uri with
  | None => Ok (mkResult (code INVALID_URL) None ("invalid url: " ++ url), ""%string, w_net w)
  | Some uri => DoRequest_uri fuel g w GET uri timeout_ms headers body
  end.

Definition DoPost (fuel : nat) (g : garbage) (w : world) (url : string) (timeout_ms : Z)
    (headers : list (string * string)) (body : string) : outcome (HttpResult * string * net) :=
  uri ← Uri.Create url;
  match uri with
  | None => Ok (mkResult (code INVALID_URL) None ("invalid url: " ++ url), ""%string, w_net w)
  | Some uri => DoRequest_uri fuel g w POST uri timeout_ms headers body
  end.

End connection.

End Cl.
