(* ===== verification/HttpResponseRound.v ===== *)
(** From the server's [HttpResponse::dump] to the client's [recvResponse]: the
    response that is printed goes through the generated automaton, the
    callbacks and the connection, and comes out the same. *)

From stdpp Require Import strings pretty sorting.
From Stdlib Require Import Ascii.
From S2P Require Import Prelude Strs Cnum Ragel RagelProps HttpClientTable Http HttpSession HttpMachine HttpClientMachine HttpClient HttpProps HttpServeProps UriRound HttpRequestRound.

Import Rg RgP Hc Http Hcm Cl.
Local Open Scope Z_scope.
#[local] Arguments String.append !_ _ /.

(** ** Facts of the machine *)

Abbreviation CMach := client_machine.
Abbreviation at_char c := (Ascii.eqb c).

(** States at the start of a line, inside a name, after the colon, inside a
    value and after its carriage return, leaving out those that a
    transfer-encoding field goes through. *)
Definition st_line : list N := [20; 43]%N.
Definition st_name : list N := (N.of_nat <$> seq 25 10) ++ (N.of_nat <$> seq 44 17) ++ (N.of_nat <$> seq 101 11) ++ [21%N].
Definition st_colon : list N := [35; 112; 22]%N.
Definition st_value : list N := [96; 97; 98; 99; 100; 23]%N.
Definition st_cr : list N := [88; 24]%N.

(** The first character of a value is no white space. *)
Definition value_start (c : ascii) : bool := value_char c && negb (Cn.isspace c).

(** The states 44 to 60 spell transfer-encoding. *)
Definition te : list nat := codes "transfer-encoding".
Definition in_te (q : N) : bool := ((44 <=? q) && (q <=? 60))%N.
Definition te_step (q : N) (c : ascii) (n : N) : bool :=
  implb (in_te n) (in_te q && (n =? q + 1)%N && bool_decide (te !! (N.to_nat q - 43)%nat = Some (tolower c))).
Definition te_first (c : ascii) (n : N) : bool :=
  implb (in_te n) ((n =? 44)%N && bool_decide ([tolower c] = take 1 te)).

Definition name_check : bool :=
  forallb (fun q => forallb (fun c => implb (token_char c)
    match next CMach false q c with
    | Some ([], n) => negb (n =? 0)%N && mem n st_name && te_step q c n
    | _ => false
    end) chars) st_name.

Definition line_check : bool :=
  forallb (fun c => implb (token_char c)
    match next CMach false 20 c, next CMach false 43 c with
    | Some ([start_field], n), Some ([write_connection_close; start_field], n') =>
        negb (n =? 0)%N && mem n st_name && te_first c n && (n =? n')%N
    | _, _ => false
    end) chars.

Lemma name_checks : name_check = true /\ line_check = true.
Proof. split; vm_compute; reflexivity. Qed.

Lemma head_checks :
  next CMach false 1 "H" = Some ([Hc.mark], 8%N) /\ walk CMach false 8 "TTP/1.1" = Some 15%N /\ walk CMach false 8 "TTP/1.0" = Some 15%N
  /\ edge CMach false [15%N] (at_char " ") [Hc.http_version] [16%N] = true
  /\ edge CMach false [16%N] (Cn.is_digit 10) [Hc.mark] [17%N] = true /\ edge CMach false [17%N] (Cn.is_digit 10) [] [17%N] = true
  /\ edge CMach false [17%N] (at_char " ") [Hc.status_code] [18%N] = true
  /\ edge CMach false [18%N] value_char [Hc.mark] [19%N] = true /\ edge CMach false [19%N] value_char [] [19%N] = true
  /\ edge CMach false [19%N] (at_char "013") [Hc.reason_phrase] [24%N] = true /\ edge CMach false [24%N] (at_char "010") [] [20%N] = true.
Proof. split_and!; vm_compute; reflexivity. Qed.

Lemma value_checks :
  edge CMach false (List.filter (fun q => negb (q =? 60)%N) st_name) (at_char ":") [Hc.write_field] st_colon = true
  /\ edge CMach false st_colon (at_char " ") [Hc.start_value] st_colon = true
  /\ edge CMach false st_colon value_start [Hc.start_value] (119%N :: st_value) = true
  /\ edge CMach false (119%N :: st_value) value_char [] (119%N :: st_value) = true
  /\ edge CMach false st_value (at_char "013") [Hc.write_value] st_cr = true
  /\ edge CMach false [119%N] (at_char "013") [Hc.write_content_len; Hc.write_value] st_cr = true
  /\ edge CMach false st_cr (at_char "010") [] st_line = true.
Proof. split_and!; vm_compute; reflexivity. Qed.

Lemma end_checks :
  next CMach false 20 "013" = Some ([], 3%N) /\ next CMach false 43 "013" = Some ([Hc.write_connection_close], 3%N)
  /\ next CMach false 3 "010" = Some ([Hc.done 120], 120%N).
Proof. split_and!; vm_compute; reflexivity. Qed.

Lemma client_start : m_start CMach = 1%N /\ Rg.m_error CMach = 0%N /\ m_first_final CMach = 120%N.
Proof. split_and!; reflexivity. Qed.

(** One more letter of a name. *)
Lemma name_step q c :
  In q st_name -> token_char c = true ->
  exists n, next CMach false q c = Some ([], n) /\ n <> 0%N /\ In n st_name
    /\ (in_te n = true -> in_te q = true /\ n = (q + 1)%N /\ te !! (N.to_nat q - 43)%nat = Some (tolower c)).
Proof.
  intros Hq Hc. pose proof (proj1 name_checks) as H. unfold name_check in H. rewrite forallb_forall in H.
  specialize (H q Hq). rewrite forallb_forall in H. specialize (H c (in_chars c)). rewrite Hc in H. cbn [implb] in H.
  destruct (next CMach false q c) as [[[| a l] n]|]; try discriminate H. exists n. rewrite !andb_true_iff in H.
  destruct H as [[Hn Hm] Ht]. apply negb_true_iff, N.eqb_neq in Hn. apply mem_In in Hm. split_and!; [reflexivity | exact Hn | exact Hm |].
  intros Hi. unfold te_step in Ht. rewrite Hi in Ht. cbn [implb] in Ht. rewrite !andb_true_iff, N.eqb_eq, bool_decide_eq_true in Ht. tauto.
Qed.

Lemma name_first c :
  token_char c = true ->
  exists n, next CMach false 20 c = Some ([Hc.start_field], n) /\ next CMach false 43 c = Some ([Hc.write_connection_close; Hc.start_field], n)
    /\ n <> 0%N /\ In n st_name /\ (in_te n = true -> n = 44%N /\ [tolower c] = take 1 te).
Proof.
  intros Hc. pose proof (proj2 name_checks) as H. unfold line_check in H. rewrite forallb_forall in H.
  specialize (H c (in_chars c)). rewrite Hc in H. cbn [implb] in H.
  destruct (next CMach false 20 c) as [[[| [] [|]] n]|]; try discriminate H.
  destruct (next CMach false 43 c) as [[[| [] [| [] [|]]] n']|]; try discriminate H.
  rewrite !andb_true_iff, N.eqb_eq in H. destruct H as [[[Hn Hm] Ht] <-]. exists n.
  apply negb_true_iff, N.eqb_neq in Hn. apply mem_In in Hm. split_and!; [reflexivity | reflexivity | exact Hn | exact Hm |].
  intros Hi. unfold te_first in Ht. rewrite Hi in Ht. cbn [implb] in Ht. by rewrite andb_true_iff, N.eqb_eq, bool_decide_eq_true in Ht.
Qed.

#[local] Opaque client_machine edge.

(** ** What was reported *)

Section stages.
Context (ws : bool).

Definition rsp0 : HttpResponse := new_HttpResponse ws 17 true.

Definition rreports (evs : list revent) (d : HttpResponse) : Prop :=
  forall a, on_events (mkRspParser a rsp0 0) evs = Ok (mkRspParser a d 0).

Lemma rsp_events_snoc p evs e : on_events p (evs ++ [e]) = (p ← on_events p evs; on_event p e).
Proof.
  revert p. induction evs as [| e' evs IH]; intros p; simpl; [by destruct (on_event p e) |].
  destruct (on_event p e'); [apply IH | done].
Qed.

Lemma rreports_snoc evs d e d' :
  rreports evs d -> (forall a, on_event (mkRspParser a d 0) e = Ok (mkRspParser a d' 0)) -> rreports (evs ++ [e]) d'.
Proof. intros H He a. rewrite rsp_events_snoc, H. apply He. Qed.

Context (buffer : string).
Hypothesis Hbuf : Z.of_nat (String.length buffer) < 2 ^ 31.

Abbreviation exec := (run CMach false (Hcm.do_action buffer)).

(** The structure while the header of a response without chunks is read. *)
Definition CP (cl st : Z) (close_ : bool) (m fs : nat) (fl : Z) : httpclient_parser :=
  mkClientParser 1 0 cl st false false close_ 0 m fs fl.

Abbreviation PTR := (Hm.PTR_TO buffer).

(** The version. *)
Lemma rsp_version_stage v rest st evs d :
  buffer = ("HTTP/" ++ version_string v ++ " " ++ rest)%string -> v = 17 \/ v = 16 -> rreports evs d ->
  exists evs', rreports evs' (rsp_setVersion d v)
    /\ exec 1 0 buffer (CP (-1) st false 0 0 0, evs) = exec 16 9 rest (CP (-1) st false 0 0 0, evs').
Proof.
  intros Eb Hv Hr. destruct head_checks as (F1 & F2 & F3 & F4 & _).
  destruct (run_char CMach false (Hcm.do_action buffer) _ _ _ _ 15 F4 (or_introl eq_refl)) as (n & [<- | []] & E). clear F4.
  exists (evs ++ [OnRspVersion (PTR 0) (Hm.LEN 0 8)]). split.
  - apply (rreports_snoc _ d); [exact Hr |]. intros a. cbn [on_event]. unfold on_response_version. change (Hm.LEN 0 8) with 8.
    unfold Hm.PTR_TO. cbn [str_drop]. rewrite Eb. destruct Hv as [-> | ->].
    + change ("HTTP/" ++ version_string 17 ++ " " ++ rest)%string with ("HTTP/1.1" ++ " " ++ rest)%string.
      change 8 with (Z.of_nat (String.length "HTTP/1.1")). by rewrite !token_is_app.
    + change ("HTTP/" ++ version_string 16 ++ " " ++ rest)%string with ("HTTP/1.0" ++ " " ++ rest)%string.
      change 8 with (Z.of_nat (String.length "HTTP/1.0")). by rewrite !token_is_app.
  - rewrite Eb at 2. destruct Hv as [-> | ->].
    + change (("HTTP/" ++ version_string 17 ++ " " ++ rest)%string) with (String "H" ("TTP/1.1" ++ String " " rest)).
      rewrite (run_next _ _ _ _ _ _ _ _ _ _ (CP (-1) st false 0 0 0, evs) F1) by (discriminate || reflexivity).
      rewrite (run_walk _ _ _ _ _ _ _ _ _ F2). by erewrite E.
    + change (("HTTP/" ++ version_string 16 ++ " " ++ rest)%string) with (String "H" ("TTP/1.0" ++ String " " rest)).
      rewrite (run_next _ _ _ _ _ _ _ _ _ _ (CP (-1) st false 0 0 0, evs) F1) by (discriminate || reflexivity).
      rewrite (run_walk _ _ _ _ _ _ _ _ _ F3). by erewrite E.
Qed.

(** The status code. *)
Lemma status_stage pre v rest st evs d :
  buffer = (pre ++ show v ++ " " ++ rest)%string -> 0 <= v < 2 ^ 31 -> rreports evs d ->
  exists st' evs', rreports evs' (rsp_setStatus d v)
    /\ exec 16 (String.length pre) (show v ++ " " ++ rest) (CP (-1) st false 0 0 0, evs)
       = exec 18 (S (String.length (pre ++ show v))) rest (CP (-1) st' false (String.length pre) 0 0, evs').
Proof.
  intros Eb Hv Hr. destruct head_checks as (_ & _ & _ & _ & F1 & F2 & F3 & _).
  destruct (Cn.pretty_digits (Z.to_N v)) as (a & Ea & Hne & Ha & Hd). unfold show in *. rewrite Ea in Eb |- *.
  rewrite Z2N.id in Hd by lia. destruct a as [| c a]; [contradiction |]. pose proof Ha as Ha'.
  cbn [str_forall] in Ha. apply andb_true_iff in Ha as [Hc Ha].
  destruct (run_first CMach false (Hcm.do_action buffer) _ _ _ _ _ c a 16 F1 F2 Hc Ha (or_introl eq_refl)) as (n & [<- | []] & E1).
  destruct (run_char CMach false (Hcm.do_action buffer) _ _ _ _ 17 F3 (or_introl eq_refl)) as (n & [<- | []] & E2). clear F1 F2 F3.
  set (w := String c a) in *. eexists _, (evs ++ [OnStatus (PTR (String.length pre)) _]). split.
  2: { unfold w at 1. cbn [String.append]. rewrite (E1 _ _ _ (CP (-1) st false (String.length pre) 0 0, evs)) by reflexivity.
       fold w. rewrite length_str_app. erewrite E2 by reflexivity. reflexivity. }
  apply (rreports_snoc _ d); [exact Hr |]. intros x. cbn [on_event]. unfold on_response_status, Hm.PTR_TO, Cn.atoi.
  rewrite Eb, str_drop_app, str_drop_ge, Nat.sub_diag by lia. cbn [String.append str_drop].
  rewrite Cn.number_digits, Hd by done. destruct (Z.leb_spec (- 2 ^ 31) v); [| lia]. destruct (Z.ltb_spec v (2 ^ 31)); [| lia].
  reflexivity.
Qed.

(** The reason and the end of the status line. *)
Lemma reason_stage pre w rest st m evs d :
  buffer = (pre ++ w ++ crlf ++ rest)%string -> w <> ""%string -> str_forall value_char w = true -> rreports evs d ->
  exists evs', rreports evs' (rsp_setReason d w)
    /\ exec 18 (String.length pre) (w ++ crlf ++ rest) (CP (-1) st false m 0 0, evs)
       = exec 20 (String.length (pre ++ w ++ crlf)) rest (CP (-1) st false (String.length pre) 0 0, evs').
Proof.
  intros Eb Hne Hw Hr. destruct head_checks as (_ & _ & _ & _ & _ & _ & _ & F1 & F2 & F3 & F4).
  destruct w as [| c w]; [contradiction |]. cbn [str_forall] in Hw. apply andb_true_iff in Hw as [Hc Hw].
  destruct (run_first CMach false (Hcm.do_action buffer) _ _ _ _ _ c w 18 F1 F2 Hc Hw (or_introl eq_refl)) as (n & [<- | []] & E1).
  destruct (run_char CMach false (Hcm.do_action buffer) _ _ _ _ 19 F3 (or_introl eq_refl)) as (n & [<- | []] & E2).
  destruct (run_char CMach false (Hcm.do_action buffer) _ _ _ _ 24 F4 (or_introl eq_refl)) as (n & [<- | []] & E3). clear F1 F2 F3 F4.
  set (W := String c w) in *.
  exists (evs ++ [OnReason (PTR (String.length pre)) (Hm.LEN (String.length pre) (String.length pre + String.length W))]). split.
  - apply (rreports_snoc _ d); [exact Hr |]. intros a. cbn [on_event]. unfold on_response_reason.
    by rewrite (token_at buffer Hbuf pre W (crlf ++ rest) Eb).
  - unfold W at 1. cbn [String.append]. rewrite (E1 _ _ _ (CP (-1) st false (String.length pre) 0 0, evs)) by reflexivity. fold W.
    unfold crlf. cbn [String.append]. erewrite E2 by reflexivity. erewrite E3 by reflexivity.
    rewrite !length_str_app. f_equal. cbn [String.length]. lia.
Qed.

(** ** Fields *)

(** What a state says of the name read so far. *)
Definition told (q : N) (name : string) : Prop := in_te q = true -> codes name = take (N.to_nat q - 43) te.

Lemma codes_app a b : codes (a ++ b) = codes a ++ codes b.
Proof. induction a as [| x a IH]; simpl; [reflexivity |]. by rewrite IH. Qed.

Lemma name_stage w : forall q name, str_forall token_char w = true -> In q st_name -> told q name ->
  exists n, In n st_name /\ told n (name ++ w)%string
    /\ forall p rest s, exec q p (w ++ rest) s = exec n (p + String.length w) rest s.
Proof.
  induction w as [| c w IH]; intros q name Hw Hq Ht.
  { exists q. rewrite str_app_nil. split_and!; [exact Hq | exact Ht |]. intros. cbn. by rewrite Nat.add_0_r. }
  cbn [str_forall] in Hw. apply andb_true_iff in Hw as [Hc Hw].
  destruct (name_step q c Hq Hc) as (n & En & Hn0 & Hn & Hte).
  destruct (IH n (name ++ String c "")%string Hw Hn) as (n' & Hn' & Ht' & E').
  { intros Hi. destruct (Hte Hi) as (Hqi & -> & Hl). rewrite codes_app, (Ht Hqi). cbn [codes].
    unfold in_te in Hqi. rewrite andb_true_iff, !N.leb_le in Hqi. replace (N.to_nat (q + 1) - 43)%nat with (S (N.to_nat q - 43)) by lia.
    by rewrite (take_S_r _ _ _ Hl). }
  exists n'. rewrite str_app_snoc in Ht'. split_and!; [exact Hn' | exact Ht' |]. intros p rest s. cbn [String.append String.length].
  rewrite (run_next _ _ _ _ _ _ _ _ _ _ s En Hn0) by reflexivity. rewrite E'. f_equal. lia.
Qed.

Lemma fold_token k : str_forall token_char k = true -> fold_case k = codes k.
Proof.
  unfold fold_case. induction k as [| c k IH]; [reflexivity |]. cbn [str_forall c_str].
  intros [Hc Hk]%andb_true_iff. destruct (Ascii.eqb_spec c "000") as [-> |]; [discriminate Hc |]. cbn [codes]. by rewrite (IH Hk).
Qed.

(** A field that the client reads back: no transfer-encoding, a value that is
    not empty. *)
Definition rsp_field (kv : string * string) : bool :=
  negb (String.eqb kv.1 "") && str_forall token_char kv.1 && negb (strcasecmp_eq kv.1 "transfer-encoding")
  && match kv.2 with ""%string => false | String c v => value_start c && str_forall value_char v end.

(** The value and the end of the line. *)
Lemma rsp_value_stage pre v rest q cl st b m fs fl evs :
  buffer = (pre ++ v ++ crlf ++ rest)%string -> In q st_colon ->
  match v with ""%string => false | String c v => value_start c && str_forall value_char v end = true ->
  exists q' cl', In q' st_line
    /\ exec q (String.length pre) (v ++ crlf ++ rest) (CP cl st b m fs fl, evs)
       = exec q' (String.length (pre ++ v ++ crlf)) rest
           (CP cl' st b (String.length pre) fs fl,
            evs ++ [OnRspField (PTR fs) fl (PTR (String.length pre)) (Hm.LEN (String.length pre) (String.length pre + String.length v))]).
Proof.
  intros Eb Hq Hv. destruct v as [| c v]; [discriminate Hv |]. apply andb_true_iff in Hv as [Hc Hv].
  destruct value_checks as (_ & _ & F1 & F2 & F3 & F4 & F5).
  destruct (run_first CMach false (Hcm.do_action buffer) _ _ _ _ _ c v q F1 F2 Hc Hv Hq) as (n & Hn & E1). clear F1 F2 Hq.
  assert (Hend : exists r cl', In r st_cr /\ forall p rest evs,
    exec n p (String "013" rest) (CP cl st b (String.length pre) fs fl, evs)
    = exec r (S p) rest (CP cl' st b (String.length pre) fs fl,
                         evs ++ [OnRspField (PTR fs) fl (PTR (String.length pre)) (Hm.LEN (String.length pre) p)])).
  { destruct Hn as [<- | Hn].
    - destruct (run_char CMach false (Hcm.do_action buffer) _ _ _ _ _ F4 (or_introl eq_refl)) as (r & Hr & E). clear F3 F4 F5.
      exists r, (i32 (Cn.strtol (PTR (String.length pre)) 10)). split; [exact Hr |]. intros. by erewrite E by reflexivity.
    - destruct (run_char CMach false (Hcm.do_action buffer) _ _ _ _ _ F3 Hn) as (r & Hr & E). clear F3 F4 F5.
      exists r, cl. split; [exact Hr |]. intros. by erewrite E by reflexivity. }
  destruct Hend as (r & cl' & Hr & E2).
  destruct (run_char CMach false (Hcm.do_action buffer) _ _ _ _ _ F5 Hr) as (q' & Hq' & E3). clear F3 F4 F5 Hn Hr.
  exists q', cl'. split; [exact Hq' |]. unfold crlf. cbn [String.append].
  rewrite (E1 _ _ _ (CP cl st b (String.length pre) fs fl, evs)) by reflexivity. rewrite E2. erewrite E3 by reflexivity.
  rewrite !length_str_app. f_equal. cbn [String.length]. rewrite length_str_app. cbn [String.length]. lia.
Qed.

(** One field. *)
Lemma rsp_field_stage pre kv rest q cl st b m fs fl evs d :
  buffer = (pre ++ header_text kv ++ crlf ++ rest)%string -> rsp_field kv = true -> In q st_line -> rreports evs d ->
  exists q' cl' b' m' fs' fl' evs', In q' st_line /\ (m' < String.length buffer)%nat /\ (fs' < String.length buffer)%nat
    /\ fl' <= Z.of_nat (String.length buffer) /\ rreports evs' (rsp_setHeader d kv.1 kv.2)
    /\ exec q (String.length pre) (header_text kv ++ crlf ++ rest) (CP cl st b m fs fl, evs)
       = exec q' (String.length (pre ++ header_text kv ++ crlf)) rest (CP cl' st b' m' fs' fl', evs').
Proof.
  unfold rsp_field, header_text. destruct kv as [k v]. cbn [fst snd].
  intros Eb [[[Hne%negb_true_iff%String.eqb_neq Hk]%andb_true_iff Hte%negb_true_iff]%andb_true_iff Hv]%andb_true_iff Hq Hr.
  destruct k as [| c k]; [contradiction |]. set (K := String c k) in *. pose proof (fold_token K Hk) as HK.
  cbn [K str_forall] in Hk. apply andb_true_iff in Hk as [Hc Hk].
  destruct (name_first c Hc) as (n & N1 & N2 & Hn0 & Hn & Hfirst).
  assert (E1 : exists b', forall p rest, exec q p (String c rest) (CP cl st b m fs fl, evs) = exec n (S p) rest (CP cl st b' m p fl, evs)).
  { destruct Hq as [<- | [<- | []]]; [exists b | exists true]; intros p r.
    - by apply (run_next _ _ _ _ _ _ _ _ _ _ _ N1 Hn0).
    - by apply (run_next _ _ _ _ _ _ _ _ _ _ _ N2 Hn0). }
  destruct E1 as [b' E1]. clear Hq.
  destruct (name_stage k n (String c "") Hk Hn) as (n1 & Hn1 & Ht & E2).
  { intros Hi. destruct (Hfirst Hi) as [-> Hl]. exact Hl. }
  assert (H60 : n1 <> 60%N).
  { intros ->. apply bool_decide_eq_false in Hte. apply Hte. rewrite HK. exact (Ht eq_refl). }
  assert (Hin : In n1 (List.filter (fun q => negb (q =? 60)%N) st_name)).
  { apply filter_In. split; [exact Hn1 |]. by apply negb_true_iff, N.eqb_neq. }
  destruct value_checks as (F1 & F2 & _).
  destruct (run_char CMach false (Hcm.do_action buffer) _ _ _ _ _ F1 Hin) as (n2 & Hn2 & E3).
  destruct (run_char CMach false (Hcm.do_action buffer) _ _ _ _ _ F2 Hn2) as (n3 & Hn3 & E4). clear F1 F2 Hin Hn1 Hn2 Hn Hfirst N1 N2.
  set (pre2 := (pre ++ K ++ ": ")%string).
  assert (Eb1 : buffer = (pre ++ K ++ ": " ++ v ++ crlf ++ rest)%string) by (rewrite Eb; clear; by rewrite !str_app_assoc).
  assert (Eb2 : buffer = (pre2 ++ v ++ crlf ++ rest)%string) by (rewrite Eb1; unfold pre2; clear; by rewrite !str_app_assoc).
  assert (HL : (String.length pre2 + 2 <= String.length buffer)%nat) by (rewrite Eb2, !length_str_app; cbn; lia).
  assert (HL2 : (String.length pre2 = String.length pre + String.length K + 2)%nat) by (unfold pre2; rewrite !length_str_app; cbn; lia).
  set (fl' := Hm.LEN (String.length pre) (String.length pre + String.length K)).
  destruct (rsp_value_stage pre2 v rest n3 cl st b' (S (String.length pre + String.length K)) (String.length pre) fl' evs Eb2 Hn3 Hv)
    as (q' & cl' & Hq' & E5). clear Hn3.
  eexists q', cl', b', (String.length pre2), (String.length pre), fl', _.
  split_and!; [exact Hq' | lia | lia | unfold fl'; rewrite (len_at buffer Hbuf pre K _ Eb1); lia | |].
  2: { rewrite !str_app_assoc. unfold K at 1. cbn [String.append]. rewrite E1, E2.
       replace (S (String.length pre) + String.length k)%nat with (String.length pre + String.length K)%nat by (cbn; lia).
       cbn [String.append]. rewrite (E3 _ _ _ (CP cl st b' m (String.length pre) fl', evs)) by reflexivity.
       rewrite (E4 _ _ _ (CP cl st b' (S (String.length pre + String.length K)) (String.length pre) fl', evs)) by reflexivity.
       replace (S (S (String.length pre + String.length K))) with (String.length pre2) by lia.
       rewrite E5. f_equal. unfold pre2. clear. by rewrite !str_app_assoc. }
  apply (rreports_snoc _ d); [exact Hr |]. intros a. cbn [on_event]. unfold on_response_http_field, fl'.
  rewrite (token_at buffer Hbuf pre K _ Eb1), (token_at buffer Hbuf pre2 v _ Eb2), (len_at buffer Hbuf pre K _ Eb1).
  destruct (Z.eqb_spec (Z.of_nat (String.length K)) 0) as [E0|]; [cbn in E0; lia | reflexivity].
Qed.

(** All of them. *)
Lemma rsp_fields_stage fields : forall pre rest q cl st b m fs fl evs d,
  buffer = (pre ++ render (header_text <$> fields) ++ crlf ++ rest)%string -> forallb rsp_field fields = true ->
  In q st_line -> rreports evs d ->
  (m < String.length buffer)%nat -> (fs < String.length buffer)%nat -> fl <= Z.of_nat (String.length buffer) ->
  exists q' cl' b' m' fs' fl' evs', In q' st_line /\ (m' < String.length buffer)%nat /\ (fs' < String.length buffer)%nat
    /\ fl' <= Z.of_nat (String.length buffer) /\ rreports evs' (foldl (fun d kv => rsp_setHeader d kv.1 kv.2) d fields)
    /\ exec q (String.length pre) (render (header_text <$> fields) ++ crlf ++ rest) (CP cl st b m fs fl, evs)
       = exec q' (String.length (pre ++ render (header_text <$> fields))) (crlf ++ rest) (CP cl' st b' m' fs' fl', evs').
Proof.
  induction fields as [| kv fields IH]; intros pre rest q cl st b m fs fl evs d Eb Hok Hq Hr Hm Hfs Hfl.
  { exists q, cl, b, m, fs, fl, evs. split_and!; try assumption. cbn. by rewrite str_app_nil. }
  cbn [forallb] in Hok. apply andb_true_iff in Hok as [Hkv Hok]. rewrite fmap_cons in Eb |- *. cbn [render foldl] in *.
  rewrite !str_app_assoc in Eb |- *.
  destruct (rsp_field_stage pre kv (render (header_text <$> fields) ++ crlf ++ rest) q cl st b m fs fl evs d Eb Hkv Hq Hr)
    as (q1 & cl1 & b1 & m1 & fs1 & fl1 & evs1 & Hq1 & H1 & H2 & H3 & H4 & E1).
  destruct (IH (pre ++ header_text kv ++ crlf)%string rest q1 cl1 st b1 m1 fs1 fl1 evs1 (rsp_setHeader d kv.1 kv.2))
    as (q2 & cl2 & b2 & m2 & fs2 & fl2 & evs2 & ? & ? & ? & ? & ? & E2); try assumption.
  { rewrite Eb. clear. by rewrite !str_app_assoc. }
  exists q2, cl2, b2, m2, fs2, fl2, evs2. split_and!; try assumption. rewrite E1, E2. f_equal. clear. by rewrite !str_app_assoc.
Qed.

(** The empty line. *)
Lemma rsp_end_stage p rest q cl st b m fs fl evs :
  In q st_line ->
  exists b', exec q p (crlf ++ rest) (CP cl st b m fs fl, evs)
    = Ok (120%N, S (S p), (set_body_start (CP cl st b' m fs fl) (S (S p)), evs ++ [OnRspHeaderDone])).
Proof.
  intros Hq. destruct end_checks as (F1 & F2 & F3). unfold crlf. cbn [String.append].
  destruct Hq as [<- | [<- | []]]; [exists b | exists true].
  - rewrite (run_next _ _ _ _ _ _ _ _ _ _ (CP cl st b m fs fl, evs) F1) by (discriminate || reflexivity).
    cbn [run]. rewrite F3. reflexivity.
  - rewrite (run_next _ _ _ _ _ _ _ _ _ _ (CP cl st true m fs fl, evs) F2) by (discriminate || reflexivity).
    cbn [run]. rewrite F3. reflexivity.
Qed.

End stages.

(** ** The whole header *)

(** The reason that is printed. *)
Definition reason_text (r : HttpResponse) : string :=
  if String.eqb (r_reason r) "" then HttpStatusToString (r_status r) else r_reason r.

(** Responses whose parts the automaton takes. *)
Definition response_wire (r : HttpResponse) : bool :=
  ((r_version r =? 17) || (r_version r =? 16)) && (0 <=? r_status r) && (r_status r <? 2 ^ 31)
  && str_forall value_char (r_reason r) && forallb rsp_field (r_headers r)
  && forallb (fun c => rsp_field ("Set-Cookie"%string, c)) (r_cookies r).

(** The response that the callbacks build. *)
Definition parsed_response (ws : bool) (r : HttpResponse) : HttpResponse :=
  foldl (fun d kv => rsp_setHeader d kv.1 kv.2)
    (rsp_setReason (rsp_setStatus (rsp_setVersion (rsp0 ws) (r_version r)) (r_status r)) (reason_text r)) (response_fields r).

Definition response_head (r : HttpResponse) : string := (render (status_text r :: (header_text <$> response_fields r)) ++ crlf)%string.

Lemma dump_response_head r : dump_response r = (response_head r ++ r_body r)%string.
Proof. unfold response_head. by rewrite response_as_lines, str_app_assoc. Qed.

Lemma reasons_ok :
  forallb (fun e => negb (String.eqb e.2 "") && str_forall value_char e.2) HTTP_STATUS_MAP = true.
Proof. vm_compute. reflexivity. Qed.

Lemma reason_text_ok r : response_wire r = true -> reason_text r <> ""%string /\ str_forall value_char (reason_text r) = true.
Proof.
  unfold response_wire, reason_text. rewrite !andb_true_iff. intros [[[_ Hr] _] _].
  destruct (String.eqb_spec (r_reason r) "") as [_ | Hne]; [| done]. unfold HttpStatusToString.
  destruct (find _ HTTP_STATUS_MAP) as [e|] eqn:E; [| done]. apply find_some in E as [Hin _].
  pose proof reasons_ok as H. rewrite forallb_forall in H. apply H in Hin. rewrite andb_true_iff, negb_true_iff, String.eqb_neq in Hin. tauto.
Qed.

Lemma digits_rsp_field k a : a <> ""%string -> str_forall (Cn.is_digit 10) a = true ->
  negb (String.eqb k "") && str_forall token_char k && negb (strcasecmp_eq k "transfer-encoding") = true -> rsp_field (k, a) = true.
Proof.
  assert (H : forall c, Cn.is_digit 10 c = true -> value_start c = true /\ value_char c = true).
  { intros [[] [] [] [] [] [] [] []]; vm_compute; auto. }
  intros Hne Ha Hk. unfold rsp_field. cbn [fst snd]. rewrite Hk. destruct a as [| c a]; [contradiction |].
  cbn [str_forall] in Ha. apply andb_true_iff in Ha as [Hc Ha]. rewrite (proj1 (H c Hc)).
  apply (str_forall_impl (Cn.is_digit 10)); [| exact Ha]. intros x Hx. by apply H.
Qed.

Lemma response_fields_wire r : response_wire r = true -> forallb rsp_field (response_fields r) = true.
Proof.
  unfold response_wire. rewrite !andb_true_iff. intros [[_ Hh] Hc]. unfold response_fields. rewrite !forallb_app.
  assert (H1 : forallb rsp_field (plain_headers (r_headers r)) = true).
  { unfold plain_headers. rewrite forallb_forall in Hh |- *. intros kv [Hin _]%filter_In. auto. }
  assert (H2 : forallb rsp_field ((fun c => ("Set-Cookie"%string, c)) <$> r_cookies r) = true).
  { rewrite forallb_forall in Hc |- *. intros kv Hin%list_elem_of_In. apply list_elem_of_fmap in Hin as (c & -> & Hin%list_elem_of_In). auto. }
  assert (H3 : forallb rsp_field (length_field (r_body r)) = true).
  { unfold length_field. destruct (String.eqb (r_body r) ""); [done |]. cbn [forallb]. rewrite andb_true_r. unfold show.
    destruct (Cn.pretty_digits (Z.to_N (Z.of_nat (String.length (r_body r))))) as (a & -> & Hne & Ha & _). by apply digits_rsp_field. }
  rewrite H2, H3. destruct (r_websocket r); [by rewrite Hh |]. rewrite H1. by destruct (r_close r).
Qed.

(** The run of the machine over the header. *)
Lemma run_response ws st r extra :
  let buffer := (response_head r ++ extra)%string in
  response_wire r = true -> Z.of_nat (String.length buffer) < 2 ^ 31 ->
  exists cl st' b m fs fl evs, (m < String.length buffer)%nat /\ (fs < String.length buffer)%nat
    /\ fl <= Z.of_nat (String.length buffer) /\ rreports ws (evs ++ [OnRspHeaderDone]) (parsed_response ws r)
    /\ run CMach false (Hcm.do_action buffer) 1 0 buffer (CP (-1) st false 0 0 0, [])
       = Ok (120%N, String.length (response_head r),
             (set_body_start (CP cl st' b m fs fl) (String.length (response_head r)), evs ++ [OnRspHeaderDone])).
Proof.
  intros buffer Hr Hlen. destruct (reason_text_ok r Hr) as [Hn1 Hn2]. pose proof (response_fields_wire r Hr) as Hfw.
  unfold response_wire in Hr. rewrite !andb_true_iff, orb_true_iff, !Z.eqb_eq, Z.leb_le, Z.ltb_lt in Hr. destruct Hr as [[[[[Hv Hs0] Hs1] _] _] _].
  set (W := reason_text r) in *. set (F := render (header_text <$> response_fields r)).
  set (pre1 := ("HTTP/" ++ version_string (r_version r) ++ " ")%string). set (pre2 := (pre1 ++ show (r_status r) ++ " ")%string).
  set (pre3 := (pre2 ++ W ++ crlf)%string).
  assert (Eb3 : buffer = (pre3 ++ F ++ crlf ++ extra)%string).
  { unfold buffer, response_head, status_text, pre3, pre2, pre1, W, reason_text. cbn [render]. fold F. by str_norm. }
  assert (Eb2 : buffer = (pre2 ++ W ++ crlf ++ F ++ crlf ++ extra)%string) by (rewrite Eb3; unfold pre3; by str_norm).
  assert (Eb1 : buffer = (pre1 ++ show (r_status r) ++ " " ++ W ++ crlf ++ F ++ crlf ++ extra)%string)
    by (rewrite Eb2; unfold pre2; by str_norm).
  assert (Eb0 : buffer = ("HTTP/" ++ version_string (r_version r) ++ " " ++ show (r_status r) ++ " " ++ W ++ crlf ++ F ++ crlf ++ extra)%string)
    by (rewrite Eb1; unfold pre1; by str_norm).
  assert (R0 : rreports ws [] (rsp0 ws)) by (intros a; reflexivity).
  destruct (rsp_version_stage ws buffer _ _ st [] _ Eb0 Hv R0) as (evs1 & R1 & E1).
  assert (L1 : String.length pre1 = 9%nat) by (unfold pre1; destruct Hv as [-> | ->]; reflexivity).
  destruct (status_stage ws buffer pre1 _ _ st evs1 _ Eb1 (conj Hs0 Hs1) R1) as (st2 & evs2 & R2 & E2).
  assert (L2 : S (String.length (pre1 ++ show (r_status r))) = String.length pre2) by (unfold pre2; rewrite !length_str_app; cbn; lia).
  destruct (reason_stage ws buffer Hlen pre2 W _ st2 (String.length pre1) evs2 _ Eb2 Hn1 Hn2 R2) as (evs3 & R3 & E3). fold pre3 in E3.
  assert (LB : (String.length buffer = String.length pre3 + String.length F + 2 + String.length extra)%nat)
    by (rewrite Eb3, !length_str_app; cbn; lia).
  assert (L3 : (String.length pre2 < String.length pre3)%nat) by (unfold pre3; rewrite !length_str_app; cbn; lia).
  destruct (rsp_fields_stage ws buffer Hlen (response_fields r) pre3 extra 20%N (-1) st2 false (String.length pre2) 0 0 evs3 _ Eb3 Hfw
    (or_introl eq_refl) R3) as (q & cl & b & m & fs & fl & evs4 & Hq & Hm & Hfs & Hfl & R4 & E4); [lia | lia | lia |].
  fold F in E4.
  destruct (rsp_end_stage buffer (String.length (pre3 ++ F)) extra q cl st2 b m fs fl evs4 Hq) as (b' & E5).
  assert (LH : S (S (String.length (pre3 ++ F))) = String.length (response_head r)).
  { transitivity (String.length buffer - String.length extra)%nat; [rewrite LB, length_str_app; lia |].
    unfold buffer. rewrite length_str_app. lia. }
  exists cl, st2, b', m, fs, fl, evs4. split_and!; try assumption.
  - apply (rreports_snoc _ _ (parsed_response ws r)); [exact R4 | reflexivity].
  - rewrite <- LH, <- E5, E1, <- L1, E2, L2, E3. exact E4.
Qed.

Lemma execute_response ws st r extra :
  response_wire r = true -> Z.of_nat (String.length (response_head r ++ extra)) < 2 ^ 31 ->
  exists h evs, httpclient_parser_execute (httpclient_parser_init st) (response_head r ++ extra)
    = Ok (h, Z.of_nat (String.length (response_head r)), evs)
    /\ rreports ws evs (parsed_response ws r) /\ cs h = 120%N /\ chunked h = false.
Proof.
  intros Hr Hlen.
  destruct (run_response ws st r extra Hr Hlen) as (cl & st' & b & m & fs & fl & evs & Hm & Hfs & Hfl & R & E).
  destruct client_start as (S1 & _ & _). unfold httpclient_parser_execute. set (buffer := (response_head r ++ extra)%string) in *.
  unfold httpclient_parser_init. rewrite S1. cbn [cs body_start content_len status chunked chunks_done close].
  change (mkClientParser 1 0 (-1) st false false false 0 0 0 0) with (CP (-1) st false 0 0 0).
  rewrite int_length, (proj2 (Z.ltb_lt _ _) Hlen) by lia. cbn [sylar_assert mbind outcome_bind]. rewrite E. clear E.
  assert (HL : (String.length (response_head r) <= String.length buffer)%nat) by (unfold buffer; rewrite length_str_app; lia).
  revert HL Hm Hfs Hfl. generalize (String.length (response_head r)) (String.length buffer). intros hl bl HL Hm Hfs Hfl.
  cbn [mbind outcome_bind body_start content_len status chunked chunks_done close nread mark field_start field_len set_body_start CP Nat.add].
  rewrite !(proj2 (Nat.leb_le _ _) HL), (proj2 (Nat.ltb_lt _ _) Hm), (proj2 (Z.leb_le _ _) Hfl), (proj2 (Nat.ltb_lt _ _) Hfs).
  cbn. eexists _, _. split_and!; [reflexivity | exact R | reflexivity | reflexivity].
Qed.

(** ** Through the connection *)

(** The value of the last field of a name. *)
Definition last_field (l : MapType) (key : string) : option string :=
  snd <$> List.find (fun kv => strcasecmp_eq key kv.1) (rev l).

Lemma find_app {A} (f : A -> bool) l1 l2 :
  List.find f (l1 ++ l2) = match List.find f l1 with Some x => Some x | None => List.find f l2 end.
Proof. induction l1 as [| x l1 IH]; simpl; [reflexivity |]. by destruct (f x). Qed.

Lemma find_stored (l m0 : MapType) k :
  sorted_map m0 ->
  map_find (foldl (fun m kv => map_set m kv.1 kv.2) m0 l) k = match last_field l k with Some v => Some v | None => map_find m0 k end.
Proof.
  unfold last_field. revert m0. induction l as [| [k1 v1] l IH]; intros m0 H0; [reflexivity |]. cbn [foldl rev fst snd].
  rewrite IH by (by apply map_set_sorted). rewrite find_app, map_find_set by exact H0. cbn [List.find fst].
  destruct (List.find _ (rev l)) as [e|]; [reflexivity |]. by destruct (strcasecmp_eq k k1).
Qed.

Lemma response_parsed ws r :
  let r' := parsed_response ws r in
  r_status r' = r_status r /\ r_version r' = r_version r /\ r_reason r' = reason_text r /\ r_body r' = ""%string
  /\ forall key, map_find (r_headers r') key = last_field (response_fields r) key.
Proof.
  intros r'. subst r'. unfold parsed_response. set (d := rsp_setReason _ _).
  assert (H : forall l x, let y := foldl (fun d kv => rsp_setHeader d kv.1 kv.2) x l in
    r_status y = r_status x /\ r_version y = r_version x /\ r_reason y = r_reason x /\ r_body y = r_body x
    /\ r_headers y = foldl (fun m kv => map_set m kv.1 kv.2) (r_headers x) l).
  { intros l. induction l as [| kv l IH]; intros x; [done |]. cbn [foldl]. apply (IH (rsp_setHeader x kv.1 kv.2)). }
  destruct (H (response_fields r) d) as (-> & -> & -> & -> & ->). split_and!; try reflexivity.
  intros key. rewrite find_stored by constructor. by destruct (last_field _ _).
Qed.

(** No field of the response says a length of its own. *)
Definition no_length (r : HttpResponse) : bool := forallb (fun kv => negb (strcasecmp_eq "content-length" kv.1)) (r_headers r).

Lemma length_read r :
  no_length r = true ->
  last_field (response_fields r) "content-length"
  = if String.eqb (r_body r) "" then None else Some (show (Z.of_nat (String.length (r_body r)))).
Proof.
  intros Hl. unfold last_field, response_fields, length_field. destruct (String.eqb (r_body r) "").
  2: { rewrite !app_assoc, rev_app_distr. reflexivity. }
  rewrite app_nil_r. destruct (List.find _ _) as [kv|] eqn:E; [| reflexivity]. apply find_some in E as [Hin Hk].
  apply in_rev in Hin. exfalso. rewrite !in_app_iff in Hin. unfold no_length in Hl. rewrite forallb_forall in Hl.
  destruct Hin as [Hin | [Hin | Hin]].
  - assert (Hh : In kv (r_headers r)) by (destruct (r_websocket r); [exact Hin | apply filter_In in Hin; exact (proj1 Hin)]).
    apply Hl, negb_true_iff in Hh. congruence.
  - apply list_elem_of_In, list_elem_of_fmap in Hin as (c & -> & _). discriminate Hk.
  - destruct (r_websocket r); [contradiction |]. destruct Hin as [<- | []]. discriminate Hk.
Qed.

(** The header in one segment: the connection's parser is finished. *)
Lemma response_head_run g bs fuel r seg extra rest :
  g_error g = 0 -> response_wire r = true -> seg = (response_head r ++ extra)%string ->
  (String.length seg <= bs)%nat -> Z.of_nat bs < 2 ^ 31 -> (0 < fuel)%nat ->
  exists p, parse_loop bs fuel (new_HttpResponseParser g) "" false (Srv.Data seg :: rest) = Ok (Some (p, extra), rest)
    /\ m_data p = parsed_response (g_websocket g) r /\ chunked (m_parser p) = false.
Proof.
  intros Hg Hr -> Hl Hbs Hf. destruct fuel as [| fuel]; [lia |].
  destruct (execute_response (g_websocket g) (g_status g) r extra Hr) as (h & evs & E & R & Hc & Hch); [lia |].
  destruct client_start as (_ & S2 & S3). set (p := mkRspParser h (parsed_response (g_websocket g) r) 0). exists p. split; [| done].
  assert (Hpos : (0 < String.length (response_head r))%nat) by (unfold response_head; rewrite length_str_app; cbn; lia).
  assert (Ex : execute (new_HttpResponseParser g) (response_head r ++ extra) false = Ok (p, String.length (response_head r), extra)).
  { unfold execute. cbn [new_HttpResponseParser m_parser m_data m_error]. rewrite E. cbn [mbind outcome_bind].
    rewrite Hg. change (new_HttpResponse (g_websocket g) 17 true) with (rsp0 (g_websocket g)). rewrite R. cbn [mbind outcome_bind].
    destruct (Z.ltb_spec (Z.of_nat (String.length (response_head r))) 0); [lia |]. rewrite Nat2Z.id. do 2 f_equal.
    rewrite str_drop_app, str_drop_ge, Nat.sub_diag by lia. reflexivity. }
  cbn [parse_loop]. unfold read_and_parse. rewrite read_segment by exact Hl.
  destruct (Z.leb_spec (Z.of_nat (String.length (response_head r ++ extra))) 0); [rewrite length_str_app in *; lia |].
  cbn [String.append]. rewrite Ex. cbn [mbind outcome_bind].
  assert (He : hasError p = false) by (unfold hasError, httpclient_parser_has_error; cbn; by rewrite S2, Hc). rewrite He.
  destruct (Nat.eqb_spec (String.length extra) bs) as [Hx|]; [rewrite length_str_app in Hl; lia |].
  assert (Hfin : isFinished p = true).
  { unfold isFinished, httpclient_parser_finish, httpclient_parser_has_error, httpclient_parser_is_finished. cbn. by rewrite S2, S3, Hc. }
  cbn [mbind outcome_bind]. by rewrite Hfin.
Qed.

(** What [recvResponse] makes of a dumped response. *)
Lemma recv_dumped_response lexical_cast g bs fuel r seg rest :
  g_error g = 0 -> response_wire r = true -> no_length r = true ->
  let L := Z.of_nat (String.length (r_body r)) in
  lexical_cast (show L) = Some L -> L < 2 ^ 31 ->
  (seg ++ Srv.flat rest = dump_response r)%string -> Srv.good_net rest ->
  (String.length (response_head r) <= String.length seg <= bs)%nat -> Z.of_nat bs < 2 ^ 31 ->
  (String.length (r_body r) < fuel)%nat ->
  exists n', recvResponse lexical_cast bs fuel g (Srv.Data seg :: rest) = Ok (Some (rsp_setBody (parsed_response (g_websocket g) r) (r_body r)), n')
    /\ Srv.flat n' = ""%string.
Proof.
  intros Hg Hw Hl L Hcast HL Hseg Hnet Hlen Hbs Hf. rewrite dump_response_head in Hseg.
  destruct (split_prefix seg (Srv.flat rest) (response_head r) (r_body r) Hseg ltac:(lia)) as (extra & Es & Eb).
  destruct (response_head_run g bs fuel r seg extra rest Hg Hw Es ltac:(lia) Hbs ltac:(lia)) as (p & E & Hp & Hch).
  destruct (response_parsed (g_websocket g) r) as (P1 & P2 & P3 & P4 & P5).
  unfold recvResponse. rewrite E. cbn [mbind outcome_bind]. rewrite Hch.
  assert (Hc : getContentLength lexical_cast p = L).
  { unfold getContentLength, getAs. rewrite Hp, P5, length_read by exact Hl. unfold L.
    destruct (String.eqb_spec (r_body r) "") as [-> |]; [reflexivity |]. unfold L in Hcast. by rewrite Hcast. }
  rewrite Hc, Hp. assert (E64 : i64 L = L) by (apply to_signed_small; [lia | unfold in_signed, L in *; lia]). rewrite E64.
  assert (Hb : L = 0 -> r_body r = ""%string) by (unfold L; destruct (r_body r); cbn [String.length]; [reflexivity | lia]).
  destruct (Z.ltb_spec 0 L) as [Hpos | Hz].
  - pose proof (recv_body_spec fuel L extra rest Hnet ltac:(lia) ltac:(unfold L in *; lia)) as Hbody. rewrite <- Eb in Hbody.
    unfold L in Hbody. rewrite Nat2Z.id, Nat.leb_refl, str_take_ge in Hbody by lia. unfold L; destruct Hbody as (n' & -> & _ & Hn).
    exists n'. split; [reflexivity |]. rewrite Hn, Eb, length_str_app, Nat.add_comm, Nat.add_sub. by apply str_drop_ge.
  - specialize (Hb ltac:(unfold L in *; lia)). rewrite Hb in Eb. destruct extra; [| discriminate Eb]. cbn in Eb.
    exists rest. split; [| congruence]. do 3 f_equal. rewrite Hb. rewrite <- P4 at 1. by destruct (parsed_response (g_websocket g) r).
Qed.

(** The callbacks succeed whatever the error flag is, and leave an error. *)
Lemma rsp_events_any_error evs : forall a d e e' p, on_events (mkRspParser a d e) evs = Ok p ->
  exists p', on_events (mkRspParser a d e') evs = Ok p' /\ (e' <> 0 -> m_error p' <> 0).
Proof.
  induction evs as [| ev evs IH]; intros a d e e' p; cbn [on_events]; [intros _; by eexists |].
  assert (Hev : forall q, on_event (mkRspParser a d e) ev = Ok q ->
    exists a1 d1 e1 e2, q = mkRspParser a1 d1 e1 /\ on_event (mkRspParser a d e') ev = Ok (mkRspParser a1 d1 e2) /\ (e' <> 0 -> e2 <> 0)).
  { intros q. destruct ev; simpl; unfold on_response_reason, on_response_status, on_response_version, on_response_http_field; simpl;
      intros H; repeat (apply bind_Ok_inv in H as (? & -> & H)); repeat case_match; simplify_eq; simpl;
      repeat (apply bind_Ok_inv in H as (? & -> & H)); simplify_eq; simpl; eexists _, _, _, _; (split; [reflexivity |]); by split. }
  intros (q & Hq & H)%bind_Ok_inv. destruct (Hev q Hq) as (a1 & d1 & e1 & e2 & -> & -> & He). cbn [mbind outcome_bind].
  destruct (IH _ _ e1 e2 p H) as (p' & -> & Hp'). exists p'. auto.
Qed.

(** A parser whose error flag holds anything but 0 refuses the first segment. *)
Lemma rsp_uninitialised_refuses lexical_cast g bs fuel r seg extra rest :
  g_error g <> 0 -> response_wire r = true -> seg = (response_head r ++ extra)%string ->
  (String.length seg <= bs)%nat -> Z.of_nat bs < 2 ^ 31 -> (0 < fuel)%nat ->
  recvResponse lexical_cast bs fuel g (Srv.Data seg :: rest) = Ok (None, rest).
Proof.
  intros Hg Hr -> Hl Hbs Hf. destruct fuel as [| fuel]; [lia |].
  destruct (execute_response (g_websocket g) (g_status g) r extra Hr) as (h & evs & E & R & _ & _); [lia |].
  assert (Hpos : (0 < String.length (response_head r))%nat) by (unfold response_head; rewrite length_str_app; cbn; lia).
  destruct (rsp_events_any_error evs h (rsp0 (g_websocket g)) 0 (g_error g) _ (R h)) as (p & Ep & He).
  unfold recvResponse. cbn [parse_loop]. unfold read_and_parse. rewrite read_segment by exact Hl.
  destruct (Z.leb_spec (Z.of_nat (String.length (response_head r ++ extra))) 0); [rewrite length_str_app in *; lia |].
  cbn [String.append]. unfold execute. cbn [new_HttpResponseParser m_parser m_data m_error]. rewrite E. cbn [mbind outcome_bind].
  change (new_HttpResponse (g_websocket g) 17 true) with (rsp0 (g_websocket g)). rewrite Ep. cbn [mbind outcome_bind].
  destruct (Z.ltb_spec (Z.of_nat (String.length (response_head r))) 0); [lia |]. cbn [mbind outcome_bind]. unfold hasError.
  by rewrite (proj2 (Z.eqb_neq _ _) (He Hg)).
Qed.

(** C18: A response sent is the response received, or every response is refused.
    The parser's [m_error] is never initialised; when the memory held 0, what
    [HttpResponse::dump] writes for a response with a version, status, reason,
    header fields and cookies that the grammar takes goes through the generated
    automaton, the parser's callbacks and [HttpConnection::recvResponse], and
    comes out with the same status, version, reason and body; a header field is
    looked up as the last field of that name in what was written. When it held
    anything else, the response is refused. The header must arrive whole in the
    first segment and fit in the buffer, which is below 2 GiB; the body, also
    below 2 GiB, may be cut anywhere. The fields must have values, and none is a
    transfer-encoding or a content-length of its own. boost::lexical_cast reads a
    printed length back. *)
Theorem response_received lexical_cast g bs fuel r seg rest :
  response_wire r = true -> no_length r = true ->
  let L := Z.of_nat (String.length (r_body r)) in
  lexical_cast (show L) = Some L -> L < 2 ^ 31 ->
  (seg ++ Srv.flat rest = dump_response r)%string -> Srv.good_net rest ->
  (String.length (response_head r) <= String.length seg <= bs)%nat -> Z.of_nat bs < 2 ^ 31 ->
  (String.length (r_body r) < fuel)%nat ->
  let received := recvResponse lexical_cast bs fuel g (Srv.Data seg :: rest) in
  (g_error g <> 0 -> received = Ok (None, rest))
  /\ (g_error g = 0 -> exists r' n', received = Ok (Some r', n')
    /\ r_status r' = r_status r /\ r_version r' = r_version r /\ r_reason r' = reason_text r /\ r_body r' = r_body r
    /\ Srv.flat n' = ""%string
    /\ forall key def, rsp_getHeader r' key def = default def (last_field (response_fields r) key)).
Proof.
  intros Hw Hl L Hcast HL Hseg Hnet Hlen Hbs Hf received. unfold received. split; intros Hg.
  - pose proof Hseg as Hseg'. rewrite dump_response_head in Hseg'.
    destruct (split_prefix seg (Srv.flat rest) (response_head r) (r_body r) Hseg' ltac:(lia)) as (extra & Es & _).
    apply (rsp_uninitialised_refuses lexical_cast g bs fuel r seg extra rest); try done; lia.
  - destruct (recv_dumped_response lexical_cast g bs fuel r seg rest Hg Hw Hl Hcast HL Hseg Hnet Hlen Hbs Hf) as (n' & E & Hn).
    destruct (response_parsed (g_websocket g) r) as (P1 & P2 & P3 & P4 & P5).
    exists (rsp_setBody (parsed_response (g_websocket g) r) (r_body r)), n'. split_and!; try done. intros key def. unfold rsp_getHeader. cbn. by rewrite P5.
Qed.

Definition sample_response : HttpResponse :=
  rsp_setBody (rsp_setHeader (rsp_setHeader (new_HttpResponse false 17 true) "Server" "sylar/1.0.0") "Content-Type" "text/html") "hello".

Lemma response_received_witness :
  exists r' n', recvResponse (fun s => if String.eqb s "5" then Some 5 else None) 4096 6 (mkGarbage 0 7 false)
      [Srv.Data (response_head sample_response ++ "he"); Srv.Data "l"; Srv.Data "lo"] = Ok (Some r', n')
    /\ r_status r' = 200 /\ r_body r' = "hello"%string /\ rsp_getHeader r' "server" "" = "sylar/1.0.0"%string.
Proof.
  destruct (response_received (fun s => if String.eqb s "5" then Some 5 else None) (mkGarbage 0 7 false) 4096 6 sample_response
    (response_head sample_response ++ "he") [Srv.Data "l"; Srv.Data "lo"]) as [_ Hz];
    try (vm_compute; reflexivity); try (vm_compute; lia).
  - repeat constructor; eexists; split; (reflexivity || discriminate).
  - destruct (Hz eq_refl) as (r' & n' & E & Hs & _ & _ & Hb & _ & Hh). exists r', n'. split_and!; [exact E | exact Hs | exact Hb | rewrite Hh; vm_compute; reflexivity].
Defined.
