(* ===== verification/HttpChunkProps.v ===== *)
(** Chunked responses: what [HttpConnection::recvResponse] makes of them, which
    depends on how the network cuts the chunks. *)

From stdpp Require Import strings pretty.
From Stdlib Require Import Ascii.
From S2P Require Import Prelude Strs Cnum Ragel RagelProps HttpClientTable Http HttpSession HttpMachine HttpClientMachine HttpClient HttpProps HttpServeProps HttpRequestRound HttpResponseRound.

Import Rg RgP Hc Http Hcm Cl.
Local Open Scope Z_scope.
#[local] Arguments String.append !_ _ /.

(** ** The header of a chunk *)

Definition hex_char (c : ascii) : bool := Cn.is_digit 16 c.

Lemma chunk_checks :
  edge CMach false [1%N] hex_char [Hc.mark] [2%N] = true /\ edge CMach false [2%N] hex_char [] [2%N] = true
  /\ edge CMach false [2%N] (at_char "013") [Hc.chunk_size] [3%N] = true
  /\ next CMach false 3 "010" = Some ([Hc.done 120], 120%N).
Proof. split_and!; vm_compute; reflexivity. Qed.

#[local] Opaque client_machine edge.

(** The value of the digits of a chunk size. *)
Lemma hex_no_space c : hex_char c = true ->
  Cn.isspace c = false /\ c <> "-"%char /\ c <> "+"%char /\ Ascii.eqb c "x" = false /\ Ascii.eqb c "X" = false.
Proof. destruct c as [[] [] [] [] [] [] [] []]; vm_compute; intros; split_and!; congruence. Qed.

Lemma number_hex h b :
  h <> ""%string -> str_forall hex_char h = true -> Cn.ends_number 16 b ->
  match b with String c _ => Ascii.eqb c "x" || Ascii.eqb c "X" | ""%string => false end = false ->
  Cn.number 16 (h ++ b) = Cn.digits 16 h 0.
Proof.
  intros Hne Hh Hb Hx. rewrite <- (Cn.digits_app 16 h b 0) by assumption. unfold Cn.number.
  destruct h as [| c h]; [contradiction |]. cbn [str_forall] in Hh. apply andb_true_iff in Hh as [Hc Hh].
  destruct (hex_no_space c Hc) as (Hs & H1 & H2 & _). cbn [String.append Cn.skip_space]. rewrite Hs.
  assert (Hp : Cn.skip_prefix 16 (String c (h ++ b)) = String c (h ++ b)).
  { destruct h as [| x h]; cbn [String.append].
    - destruct b as [| x b]; [by destruct c as [[] [] [] [] [] [] [] []] |]. unfold Cn.skip_prefix.
      rewrite Hx, andb_false_r. destruct b; by destruct c as [[] [] [] [] [] [] [] []].
    - cbn [str_forall] in Hh. apply andb_true_iff in Hh as [Hxc _]. destruct (hex_no_space x Hxc) as (_ & _ & _ & E1 & E2).
      unfold Cn.skip_prefix. rewrite E1, E2. cbn [orb]. rewrite andb_false_r. destruct (h ++ b)%string; by destruct c as [[] [] [] [] [] [] [] []]. }
  destruct (ascii_dec c "-") as [->|]; [contradiction |]. destruct (ascii_dec c "+") as [->|]; [contradiction |].
  destruct c as [[] [] [] [] [] [] [] []]; rewrite ?Hp; try reflexivity; congruence.
Qed.

(** A chunk as it is written: its size in hexadecimal and its bytes. *)
Definition chunk_text (c : string * string) : string := (c.1 ++ crlf ++ c.2 ++ crlf)%string.

Definition chunk_ok (bs : nat) (c : string * string) : Prop :=
  c.1 <> ""%string /\ str_forall hex_char c.1 = true /\ Cn.digits 16 c.1 0 = Z.of_nat (String.length c.2)
  /\ (String.length (chunk_text c) <= bs)%nat.

Lemma execute_chunk st h rest :
  let n := Cn.digits 16 h 0 in
  h <> ""%string -> str_forall hex_char h = true -> 0 <= n < 2 ^ 31 -> Z.of_nat (String.length (h ++ crlf ++ rest)) < 2 ^ 31 ->
  exists a evs, httpclient_parser_execute (httpclient_parser_init st) (h ++ crlf ++ rest)
      = Ok (a, Z.of_nat (String.length h + 2), evs)
    /\ cs a = 120%N /\ content_len a = n /\ chunks_done a = (n <=? 0) /\ status a = st /\ forall p, on_events p evs = Ok p.
Proof.
  intros n Hne Hh Hn H31. destruct chunk_checks as (F1 & F2 & F3 & F4). set (buffer := (h ++ crlf ++ rest)%string).
  pose proof (number_hex h (crlf ++ rest) Hne Hh eq_refl eq_refl) as Hnum. fold buffer in Hnum.
  assert (Hlen : (String.length buffer = String.length h + 2 + String.length rest)%nat) by (unfold buffer; rewrite !length_str_app; cbn; lia).
  destruct h as [| c h]; [contradiction |]. set (H := String c h) in *. cbn [H str_forall] in Hh. apply andb_true_iff in Hh as [Hc Hh].
  destruct (run_first CMach false (Hcm.do_action buffer) _ _ _ _ _ c h 1 F1 F2 Hc Hh (or_introl eq_refl)) as (q & [<- | []] & E1).
  destruct (run_char CMach false (Hcm.do_action buffer) _ _ _ _ 2 F3 (or_introl eq_refl)) as (q & [<- | []] & E2). clear F1 F2 F3.
  unfold httpclient_parser_execute, httpclient_parser_init. destruct client_start as (S1 & _ & _). rewrite S1.
  fold buffer in H31. rewrite int_length, (proj2 (Z.ltb_lt _ _) H31) by lia.
  cbn [cs body_start content_len status chunked chunks_done close sylar_assert mbind outcome_bind].
  replace (run CMach false (Hcm.do_action buffer) 1 0 buffer) with (run CMach false (Hcm.do_action buffer) 1 0 (String c (h ++ crlf ++ rest)))
    by (unfold buffer, H; reflexivity).
  erewrite E1 by reflexivity. unfold crlf at 1. cbn [String.append Nat.add]. fold H.
  assert (Hv : i32 (Cn.strtol (Hm.PTR_TO buffer 0) 16) = n).
  { unfold Cn.strtol, Hm.PTR_TO. cbn [str_drop]. rewrite Hnum. fold n. rewrite Z.min_r, Z.max_r by lia. by apply i32_small. }
  set (v0 := mkClientParser 1 0 n st true (n <=? 0) false 0 0 0 0).
  set (e := if n <=? 0 then OnLastChunk (Hm.PTR_TO buffer 0) (Hm.LEN 0 (String.length H))
            else OnChunk (Hm.PTR_TO buffer 0) (Hm.LEN 0 (String.length H))).
  rewrite (E2 _ _ _ (v0, [e])).
  2: { cbn [do_all Hcm.do_action fst snd Hcm.mark Hcm.set_mark]. rewrite Hv. reflexivity. }
  cbn [run]. rewrite F4. unfold v0. cbn [do_all Hcm.do_action fst snd mbind outcome_bind app set_body_start].
  cbn [cs body_start content_len status chunked chunks_done close nread Hcm.mark field_start field_len Nat.add set_body_start].
  assert (L1 : (S (S (String.length H)) <=? String.length buffer)%nat = true) by (apply Nat.leb_le; lia).
  assert (L2 : (0 <? String.length buffer)%nat = true) by (apply Nat.ltb_lt; lia).
  rewrite !L1, L2. rewrite (proj2 (Z.leb_le 0 _)) by lia. cbn [mbind outcome_bind sylar_assert andb].
  eexists _, _. split; [do 3 f_equal; lia |]. split_and!; try reflexivity. intros p. unfold e. by destruct (n <=? 0).
Qed.

(** One chunk that arrives whole. *)
Lemma chunk_read bs fuel p h tail rest :
  let n := Cn.digits 16 h 0 in
  m_error p = 0 -> h <> ""%string -> str_forall hex_char h = true -> 0 <= n < 2 ^ 31 ->
  (String.length (h ++ crlf ++ tail) <= bs)%nat -> Z.of_nat bs < 2 ^ 31 ->
  exists a, parse_loop bs (S fuel) p "" true (Srv.Data (h ++ crlf ++ tail) :: rest)
      = Ok (Some (mkRspParser a (m_data p) 0, tail), rest)
    /\ content_len a = n /\ chunks_done a = (n <=? 0).
Proof.
  intros n He Hne Hh Hn Hl Hbs. destruct (execute_chunk (status (m_parser p)) h tail Hne Hh Hn ltac:(lia)) as (a & evs & E & Hc & Hcl & Hd & _ & Hev).
  exists a. split; [| done]. destruct client_start as (_ & S2 & S3).
  assert (Ll : String.length (h ++ crlf ++ tail) = (String.length h + 2 + String.length tail)%nat) by (rewrite !length_str_app; cbn; lia).
  cbn [parse_loop]. unfold read_and_parse. rewrite read_segment by exact Hl.
  destruct (Z.leb_spec (Z.of_nat (String.length (h ++ crlf ++ tail))) 0); [lia |]. cbn [String.append].
  unfold execute. rewrite E. cbn [mbind outcome_bind]. rewrite Hev, He. cbn [mbind outcome_bind].
  destruct (Z.ltb_spec (Z.of_nat (String.length h + 2)) 0); [lia |]. rewrite Nat2Z.id.
  assert (Hdrop : str_drop (String.length h + 2) (h ++ crlf ++ tail) = tail).
  { rewrite str_drop_app, str_drop_ge by lia. replace (String.length h + 2 - String.length h)%nat with 2%nat by lia. reflexivity. }
  rewrite Hdrop. cbn [mbind outcome_bind]. unfold hasError, httpclient_parser_has_error. cbn [m_error m_parser]. rewrite S2, Hc. cbn [negb Z.eqb N.eqb orb].
  destruct (Nat.eqb_spec (String.length tail) bs); [lia |]. cbn [mbind outcome_bind].
  unfold isFinished, httpclient_parser_finish, httpclient_parser_has_error, httpclient_parser_is_finished. cbn [m_parser].
  by rewrite S2, S3, Hc.
Qed.

Lemma take_chunk_whole p body d :
  content_len (m_parser p) = Z.of_nat (String.length d) -> Z.of_nat (String.length d) < 2 ^ 31 ->
  take_chunk p body (d ++ crlf) = Ok ((body ++ d)%string, ""%string).
Proof.
  intros Hc Hl. unfold take_chunk. rewrite Hc. assert (El : Z.of_nat (String.length (d ++ crlf)) - 2 = Z.of_nat (String.length d)).
  { rewrite length_str_app. change (String.length crlf) with 2%nat. lia. }
  rewrite El, Z.leb_refl, Z.sub_diag. unfold append, Srv.cpp_string.
  assert (Hu : u64 (Z.of_nat (String.length d)) = Z.of_nat (String.length d)) by (apply wrap_small; unfold in_unsigned; lia). rewrite Hu.
  destruct (Z.leb_spec (Z.of_nat (String.length d)) (Z.of_nat (String.length (d ++ crlf)))); [| lia].
  rewrite Nat2Z.id, str_take_app, (str_take_ge _ d), Nat.sub_diag by lia. cbn [str_take]. rewrite str_app_nil. reflexivity.
Qed.

(** A chunked body is put together when the network keeps the chunks apart:
    the chunks, each with its size line and line end in one segment, followed by
    the last chunk, give the concatenation of their bytes, whatever the sizes
    and their spelling in hexadecimal, and the response is otherwise left
    alone. *)
Theorem whole_chunks_received bs fuel p body chunks zero rest :
  m_error p = 0 -> Z.of_nat bs < 2 ^ 31 ->
  Forall (fun c => chunk_ok bs c /\ c.2 <> ""%string) chunks -> chunk_ok bs (zero, ""%string) -> (length chunks < fuel)%nat ->
  exists p', recv_chunks bs fuel p body "" ((Srv.Data <$> (chunk_text <$> chunks)) ++ Srv.Data (chunk_text (zero, ""%string)) :: rest)
      = Ok (Some (p', (body ++ String.concat "" (snd <$> chunks))%string), rest)
    /\ m_data p' = m_data p.
Proof.
  intros He Hbs Hall Hz. revert fuel p body He. induction Hall as [| [h d] chunks [(H1 & H2 & H3 & H4) Hd] _ IH]; intros fuel p body He Hf.
  - destruct fuel as [| fuel]; [lia |]. destruct Hz as (Z1 & Z2 & Z3 & Z4). cbn [fst snd String.length] in *.
    destruct (chunk_read bs fuel p zero crlf rest He Z1 Z2 ltac:(lia) Z4 Hbs) as (a & E & Hc & Hdn).
    exists (mkRspParser a (m_data p) 0). split; [| reflexivity]. cbn [recv_chunks fmap list_fmap app]. unfold chunk_text. cbn [fst snd String.append].
    rewrite E. cbn [mbind outcome_bind]. change crlf with ("" ++ crlf)%string.
    rewrite take_chunk_whole; [| cbn [m_parser String.length]; lia | cbn; lia]. cbn [mbind outcome_bind m_parser]. rewrite Hdn, Z3. reflexivity.
  - destruct fuel as [| fuel]; [lia |]. cbn [fst snd] in *. unfold chunk_text in H4. cbn [fst snd] in H4.
    assert (Hdl : Z.of_nat (String.length d) < 2 ^ 31) by (rewrite !length_str_app in H4; lia).
    destruct (chunk_read bs fuel p h (d ++ crlf) ((Srv.Data <$> (chunk_text <$> chunks)) ++ Srv.Data (chunk_text (zero, ""%string)) :: rest)
      He H1 H2 ltac:(lia) H4 Hbs) as (a & E & Hc & Hdn).
    destruct (IH fuel (mkRspParser a (m_data p) 0) (body ++ d)%string eq_refl ltac:(cbn in Hf; lia)) as (p' & E' & Hp').
    exists p'. split; [| exact Hp']. rewrite !fmap_cons. cbn [recv_chunks app]. unfold chunk_text at 1. cbn [fst snd]. rewrite E.
    cbn [mbind outcome_bind]. rewrite take_chunk_whole; [| cbn [m_parser]; lia | exact Hdl]. cbn [mbind outcome_bind m_parser].
    apply str_nonempty in Hd. rewrite Hdn, H3, (proj2 (Z.leb_gt _ _)) by lia. rewrite E'. do 4 f_equal.
    rewrite str_app_assoc. f_equal. destruct (snd <$> chunks) as [| x l] eqn:El; [cbn; by rewrite str_app_nil | reflexivity].
Qed.

Definition chunk_parser : HttpResponseParser := new_HttpResponseParser (mkGarbage 0 0 false).

(** ** Where the loop goes wrong *)

Definition crlf_line (s : string) : string := (s ++ crlf)%string.
Definition chunk_head : string :=
  (crlf_line "HTTP/1.1 200 OK" ++ crlf_line "Transfer-Encoding: chunked" ++ crlf)%string.

Definition body_of (r : outcome (option HttpResponse * net)) : outcome (option string) :=
  match r with Ok (r, _) => Ok (option_map r_body r) | Fail f => Fail f end.

Definition recv (segments : list string) : outcome (option string) :=
  body_of (recvResponse (fun _ => None) 4096 9 (mkGarbage 0 0 false) (Srv.Data <$> segments)).

(** Two chunks in one segment: the second is lost and the response refused. *)
Theorem joined_chunks_refused :
  recv [chunk_head; chunk_text ("5", "hello") ++ chunk_text ("0", "")]%string = Ok None.
Proof. vm_compute. reflexivity. Qed.

(** A chunk behind the header in its segment: the same. *)
Theorem chunk_with_header_refused : recv [chunk_head ++ chunk_text ("5", "hello"); chunk_text ("0", "")]%string = Ok None.
Proof. vm_compute. reflexivity. Qed.

(** A chunk cut in two: the rest is never read, bytes are dropped in silence. *)
Theorem cut_chunk_truncated : recv [chunk_head; crlf_line "5" ++ "hel"; chunk_text ("0", "")]%string = Ok (Some "h"%string).
Proof. vm_compute. reflexivity. Qed.

(** The size line alone: the length passed to [append] is negative and it
    throws. *)
Theorem size_line_alone_throws : recv [chunk_head; crlf_line "5"; crlf_line "hello"; chunk_text ("0", "")]%string = Fail LogicError.
Proof. vm_compute. reflexivity. Qed.

(** A size above [INT_MAX] is taken for a negative length, with the same
    effect. *)
Theorem large_chunk_size_throws : recv [chunk_head; crlf_line "80000000" ++ "hello"]%string = Fail LogicError.
Proof. vm_compute. reflexivity. Qed.

(** An empty connection field at the end of the header leads to a final state
    that is not the one [isFinished] asks for: the client waits for more. *)
Theorem empty_connection_not_finished :
  recv [crlf_line "HTTP/1.1 200 OK" ++ crlf_line "Connection:" ++ crlf]%string = Ok None
  /\ exists h n evs, httpclient_parser_execute (httpclient_parser_init 0) (crlf_line "HTTP/1.1 200 OK" ++ crlf_line "Connection:" ++ crlf)
                     = Ok (h, n, evs) /\ httpclient_parser_finish h = 0 /\ body_start h = 32%nat.
Proof. split; [vm_compute; reflexivity |]. eexists _, _, _. split; [vm_compute; reflexivity |]. split; vm_compute; reflexivity. Qed.
