(* ===== verification/HttpExchange.v ===== *)
(** A whole HTTP exchange: the client's [sendRequest] and [recvResponse] against the
    server's [handleClient] with its servlets, over the network in both directions. *)

From stdpp Require Import strings.
From S2P Require Import Prelude Strs Cnum Http HttpSession HttpMachine HttpClient HttpProps HttpRequestRound HttpResponseRound.

Import Http Srv Hm Cl.
Local Open Scope Z_scope.





Section exchange.
Context (lexical_cast : string -> option Z).
(** boost::lexical_cast reads printed lengths back. *)
Context (cast_ok : forall n : nat, lexical_cast (show (Z.of_nat n)) = Some (Z.of_nat n)).



End exchange.



