(* ===== verification/HttpPool.v ===== *)
(** [HttpConnectionPool] of http/http_connection.cc: idle connections kept for
    reuse, handed out through shared pointers whose deleter gives them back.

    [getConnection] is cut where other threads can interfere: the loop under
    the mutex, the deletion of what the loop rejected with the update of the
    counter, and the new connection. [ReleasePtr] is the deleter. *)

From stdpp Require Import gmap strings.
From S2P Require Import Prelude Strs Uri Http HttpSession HttpClient.

Module Hp.

Import Http Cl.
Local Open Scope Z_scope.
#[local] Arguments String.append !_ _ /.

(** The address of a connection object. *)
Abbreviation ptr := nat.

(** [HttpConnection]: what the pool uses of it. *)
Record HttpConnection := mkConn {
  isConnected : bool;
  m_createTime : Z;
  m_request : Z;
}.

Definition new_HttpConnection : HttpConnection := mkConn true 0 0.

Record HttpConnectionPool := mkPool {
  m_host : string;
  m_vhost : string;
  m_port : Z;
  m_maxSize : Z;
  m_maxAliveTime : Z;
  m_maxRequest : Z;
  m_isHttps : bool;
  m_conns : list ptr;
  m_total : Z;
}.

Definition new_HttpConnectionPool (host vhost : string) (port : Z) (is_https : bool) (max_size max_alive_time max_request : Z) :
    HttpConnectionPool :=
  mkPool host vhost (if negb (port =? 0) then port else if is_https then 443 else 80) max_size max_alive_time max_request is_https [] 0.

(** [Create]: a text that is no URI is reported and then used all the same. *)
Definition Create (uri vhost : string) (max_size max_alive_time max_request : Z) : outcome HttpConnectionPool :=
  turi ← Uri.Create uri;
  turi ← of_ptr turi;
  Ok (new_HttpConnectionPool (Uri.m_host turi) vhost (u32 (Uri.getPort turi)) (String.eqb (Uri.m_scheme turi) "https")
        (u32 max_size) (u32 max_alive_time) (u32 max_request)).

Definition set_conns (p : HttpConnectionPool) v :=
  mkPool (m_host p) (m_vhost p) (m_port p) (m_maxSize p) (m_maxAliveTime p) (m_maxRequest p) (m_isHttps p) v (m_total p).
Definition set_total (p : HttpConnectionPool) v :=
  mkPool (m_host p) (m_vhost p) (m_port p) (m_maxSize p) (m_maxAliveTime p) (m_maxRequest p) (m_isHttps p) (m_conns p) (i32 v).

(** The pool with the objects it points to. *)
Abbreviation heap := (gmap ptr HttpConnection).

(** [delete ptr] *)
Definition free (h : heap) (c : ptr) : outcome heap := _ ← of_ptr (h !! c); Ok (delete c h).

Fixpoint free_all (h : heap) (l : list ptr) : outcome heap :=
  match l with
  | [] => Ok h
  | c :: l => h ← free h c; free_all h l
  end.

(** The loop of [getConnection] under the mutex: the connections rejected, the
    one chosen, and those left in the list. *)
Fixpoint scan (h : heap) (max_alive now : Z) (conns : list ptr) (invalid : list ptr) :
    outcome (list ptr * option ptr * list ptr) :=
  match conns with
  | [] => Ok (invalid, None, [])
  | c :: conns =>
      k ← of_ptr (h !! c);
      if negb (isConnected k) then scan h max_alive now conns (invalid ++ [c])
      else if now <? u64 (m_createTime k + max_alive) then scan h max_alive now conns (invalid ++ [c])
      else Ok (invalid, Some c, conns)
  end.

Definition scan_pool (p : HttpConnectionPool) (h : heap) (now : Z) : outcome (list ptr * option ptr * HttpConnectionPool) :=
  '(invalid, c, rest) ← scan h (m_maxAliveTime p) now (m_conns p) [];
  Ok (invalid, c, set_conns p rest).

(** The rejected connections are deleted and the counter reduced. *)
Definition purge (p : HttpConnectionPool) (h : heap) (invalid : list ptr) : outcome (HttpConnectionPool * heap) :=
  h ← free_all h invalid;
  Ok (set_total p (m_total p - Z.of_nat (length invalid)), h).

(** A new connection: the host resolves, a socket is made and connected, or
    not; [c] is the address that [new] returns. *)
Definition connect (p : HttpConnectionPool) (h : heap) (resolves socket connects : bool) (c : ptr) :
    option ptr * HttpConnectionPool * heap :=
  if negb resolves then (None, p, h)
  else if negb socket then (None, p, h)
  else if negb connects then (None, p, h)
  else (Some c, set_total p (m_total p + 1), <[c := new_HttpConnection]> h).

(** [getConnection] without interference. *)
Definition getConnection (p : HttpConnectionPool) (h : heap) (now : Z) (resolves socket connects : bool) (fresh : ptr) :
    outcome (option ptr * HttpConnectionPool * heap) :=
  '(invalid, c, p) ← scan_pool p h now;
  '(p, h) ← purge p h invalid;
  match c with
  | Some c => Ok (Some c, p, h)
  | None => Ok (connect p h resolves socket connects fresh)
  end.

Definition ReleasePtr (p : HttpConnectionPool) (h : heap) (c : ptr) (now : Z) : outcome (HttpConnectionPool * heap) :=
  k ← of_ptr (h !! c);
  let k := mkConn (isConnected k) (m_createTime k) (u64 (m_request k + 1)) in
  let h := <[c := k]> h in
  if negb (isConnected k) || (now <=? u64 (m_createTime k + m_maxAliveTime p)) || (m_maxRequest p <=? m_request k)
  then h ← free h c; Ok (set_total p (m_total p - 1), h)
  else Ok (set_conns p (m_conns p ++ [c]), h).

(** ** Requests through the pool *)

(** The request that [doRequest] builds: the whole target is its path. *)
Definition build_request (p : HttpConnectionPool) (method : HttpMethod) (url : string) (headers : list (string * string)) (body : string) :
    HttpRequest :=
  let req := new_HttpRequest 17 true in
  let req := setPath req url in
  let req := setMethod req method in
  let req := setClose req false in
  let '(req, has_host) := add_headers headers req false in
  let req := if has_host then req else setHeader req "Host" (if String.eqb (m_vhost p) "" then m_host p else m_vhost p) in
  setBody req body.

(** The target that the overloads with a [Uri] print. *)
Definition target (uri : Uri.Uri) : string :=
  (Uri.getPath uri ++ (if String.eqb (Uri.m_query uri) "" then "" else "?") ++ Uri.m_query uri
   ++ (if String.eqb (Uri.m_fragment uri) "" then "" else "#") ++ Uri.m_fragment uri)%string.

Section requests.
Context (lexical_cast : string -> option Z) (buffer_size : nat).

(** What the system answers: to [getConnection], and on the connection. *)
Record answers := mkAnswers {
  a_now : Z;
  a_resolves : bool;
  a_socket : bool;
  a_connects : bool;
  a_fresh : ptr;
  a_peer : string;
  a_errno : string;
  a_takes : list Z;
  a_net : net;
  a_after : Z;
}.

Definition pool_error (p : HttpConnectionPool) (e : Error) : HttpResult :=
  mkResult (code e) None ("pool host:" ++ m_host p ++ " port:" ++ show (m_port p)).

(** [doRequest(req, timeout_ms)]: the connection is given back when the last
    pointer to it goes; receiving nothing closes it before. *)
Definition doRequest_req (fuel : nat) (g : garbage) (a : answers) (p : HttpConnectionPool) (h : heap) (req : HttpRequest) (timeout_ms : Z) :
    outcome (HttpResult * HttpConnectionPool * heap) :=
  '(c, p, h) ← getConnection p h (a_now a) (a_resolves a) (a_socket a) (a_connects a) (a_fresh a);
  match c with
  | None => Ok (pool_error p POOL_GET_CONNECTION, p, h)
  | Some c =>
      '(r, _, _) ← exchange lexical_cast buffer_size fuel g (a_peer a) (a_errno a) timeout_ms (a_takes a) (a_net a) req;
      k ← of_ptr (h !! c);
      let h := if result r =? code TIMEOUT then <[c := mkConn false (m_createTime k) (m_request k)]> h else h in
      '(p, h) ← ReleasePtr p h c (a_after a);
      Ok (r, p, h)
  end.

Definition doRequest (fuel : nat) (g : garbage) (a : answers) (p : HttpConnectionPool) (h : heap) (method : HttpMethod) (url : string)
    (timeout_ms : Z) (headers : list (string * string)) (body : string) : outcome (HttpResult * HttpConnectionPool * heap) :=
  doRequest_req fuel g a p h (build_request p method url headers body) timeout_ms.

Definition doRequest_uri (fuel : nat) (g : garbage) (a : answers) (p : HttpConnectionPool) (h : heap) (method : HttpMethod) (uri : Uri.Uri)
    (timeout_ms : Z) (headers : list (string * string)) (body : string) : outcome (HttpResult * HttpConnectionPool * heap) :=
  doRequest fuel g a p h method (target uri) timeout_ms headers body.

Definition doGet (fuel : nat) (g : garbage) (a : answers) (p : HttpConnectionPool) (h : heap) (url : string)
    (timeout_ms : Z) (headers : list (string * string)) (body : string) : outcome (HttpResult * HttpConnectionPool * heap) :=
  doRequest fuel g a p h GET url timeout_ms headers body.

Definition doGet_uri (fuel : nat) (g : garbage) (a : answers) (p : HttpConnectionPool) (h : heap) (uri : Uri.Uri)
    (timeout_ms : Z) (headers : list (string * string)) (body : string) : outcome (HttpResult * HttpConnectionPool * heap) :=
  doGet fuel g a p h (target uri) timeout_ms headers body.

Definition doPost (fuel : nat) (g : garbage) (a : answers) (p : HttpConnectionPool) (h : heap) (url : string)
    (timeout_ms : Z) (headers : list (string * string)) (body : string) : outcome (HttpResult * HttpConnectionPool * heap) :=
  doRequest fuel g a p h POST url timeout_ms headers body.

Definition doPost_uri (fuel : nat) (g : garbage) (a : answers) (p : HttpConnectionPool) (h : heap) (uri : Uri.Uri)
    (timeout_ms : Z) (headers : list (string * string)) (body : string) : outcome (HttpResult * HttpConnectionPool * heap) :=
  doPost fuel g a p h (target uri) timeout_ms headers body.

End requests.

(** ** Interleavings *)

(** A call of [getConnection] between its parts. *)
Inductive getting :=
  | Scanned (invalid : list ptr) (c : option ptr)
  | Purged.

(** The pool, its objects, the calls under way in no order, and the connections
    handed out. *)
Record state := mkState {
  pool : HttpConnectionPool;
  objs : heap;
  gets : list getting;
  held : list ptr;
}.

(** One action of some thread; [ADrop] is the peer or the user closing a
    connection. *)
Inductive act :=
  | AScan (now : Z)
  | APurge (i : nat)
  | AConnect (i : nat) (resolves socket connects : bool) (c : ptr)
  | ARelease (c : ptr) (now : Z)
  | ADrop (c : ptr).

Definition remove1 (c : ptr) (l : list ptr) : list ptr := List.filter (fun x => negb (x =? c)%nat) l.

(** When an action can happen: a call is at that point, a connection is held,
    [new] returns an address that is not in use. *)
Definition enabled (s : state) (a : act) : Prop :=
  match a with
  | AScan _ => True
  | APurge i => exists l c, gets s !! i = Some (Scanned l c)
  | AConnect i _ _ _ c => gets s !! i = Some Purged /\ objs s !! c = None
  | ARelease c _ => c ∈ held s
  | ADrop c => is_Some (objs s !! c)
  end.

Definition do_act (s : state) (a : act) : outcome state :=
  match a with
  | AScan now =>
      '(l, c, p) ← scan_pool (pool s) (objs s) now;
      Ok (mkState p (objs s) (Scanned l c :: gets s) (held s))
  | APurge i =>
      match gets s !! i with
      | Some (Scanned l c) =>
          '(p, h) ← purge (pool s) (objs s) l;
          match c with
          | Some c => Ok (mkState p h (delete i (gets s)) (c :: held s))
          | None => Ok (mkState p h (Purged :: delete i (gets s)) (held s))
          end
      | _ => Ok s
      end
  | AConnect i resolves socket connects c =>
      let '(r, p, h) := connect (pool s) (objs s) resolves socket connects c in
      Ok (mkState p h (delete i (gets s)) (match r with Some c => c :: held s | None => held s end))
  | ARelease c now =>
      '(p, h) ← ReleasePtr (pool s) (objs s) c now;
      Ok (mkState p h (gets s) (remove1 c (held s)))
  | ADrop c =>
      k ← of_ptr (objs s !! c);
      Ok (mkState (pool s) (<[c := mkConn false (m_createTime k) (m_request k)]> (objs s)) (gets s) (held s))
  end.

(** A run from a new pool. *)
Inductive reachable : state -> Prop :=
  | reach_new host vhost port is_https max_size max_alive_time max_request :
      reachable (mkState (new_HttpConnectionPool host vhost port is_https max_size max_alive_time max_request) ∅ [] [])
  | reach_act s a s' : reachable s -> enabled s a -> do_act s a = Ok s' -> reachable s'.

End Hp.
