(* ===== verification/HttpPoolProps.v ===== *)
(** The books of the connection pool under any interleaving of its users, and
    what its limits do. *)

From stdpp Require Import gmap strings list.
From S2P Require Import Prelude Strs Uri Http HttpSession HttpClient HttpPool.

Import Hp.
Local Open Scope Z_scope.

(** ** The invariant *)

Definition in_get (g : getting) : list ptr :=
  match g with Scanned l c => l ++ option_list c | Purged => [] end.

(** Every connection the pool knows of: idle, handed out, or in the hands of a
    call of [getConnection]. *)
Definition owned (s : state) : list ptr := m_conns (pool s) ++ held s ++ (gets s ≫= in_get).

Record pool_inv (s : state) : Prop := mkInv {
  inv_nodup : NoDup (owned s);
  inv_live : forall c, is_Some (objs s !! c) <-> c ∈ owned s;
  inv_total : m_total (pool s) = i32 (Z.of_nat (length (owned s)));
  inv_time : forall c k, objs s !! c = Some k -> m_createTime k = 0;
}.

(** The counter wraps like the number it stands for. *)
Lemma i32_add a b : i32 (i32 a + b) = i32 (a + b).
Proof.
  unfold i32, to_signed. assert (E : ((if a mod 2 ^ 32 <? 2 ^ (32 - 1) then a mod 2 ^ 32 else a mod 2 ^ 32 - 2 ^ 32) + b) mod 2 ^ 32 = (a + b) mod 2 ^ 32).
  { destruct (_ <? _); [by rewrite Zplus_mod_idemp_l |].
    replace (a mod 2 ^ 32 - 2 ^ 32 + b) with (a mod 2 ^ 32 + b + (-1) * 2 ^ 32) by lia. by rewrite Z_mod_plus_full, Zplus_mod_idemp_l. }
  by rewrite E.
Qed.

(** The same connections, known in another way, and the same objects. *)
Lemma inv_moves s s' :
  pool_inv s -> owned s ≡ₚ owned s' -> objs s' = objs s -> m_total (pool s') = m_total (pool s) -> pool_inv s'.
Proof.
  intros [H1 H2 H3 H4] Hp Ho Ht. split.
  - by rewrite <- Hp.
  - intros c. by rewrite Ho, H2, Hp.
  - by rewrite Ht, H3, Hp.
  - intros c k. rewrite Ho. apply H4.
Qed.

(** ** The parts of [getConnection] *)

Lemma pool_scan_spec h ma now conns invalid :
  (forall c, c ∈ conns -> is_Some (h !! c)) ->
  exists l c rest, scan h ma now conns invalid = Ok (invalid ++ l, c, rest) /\ conns = l ++ option_list c ++ rest.
Proof.
  revert invalid. induction conns as [| c conns IH]; intros invalid Hh; simpl.
  { exists [], None, []. by rewrite app_nil_r. }
  destruct (Hh c) as [k ->]; [by left |]. cbn [of_ptr mbind outcome_bind].
  assert (Hr : exists l c' rest, scan h ma now conns (invalid ++ [c]) = Ok (invalid ++ l, c', rest) /\ c :: conns = l ++ option_list c' ++ rest).
  { destruct (IH (invalid ++ [c])) as (l & c' & rest & -> & E); [intros x Hx; apply Hh; by right |].
    exists (c :: l), c', rest. rewrite <- app_assoc. split; [reflexivity |]. simpl. by rewrite E. }
  destruct (negb (isConnected k)); [exact Hr |]. destruct (now <? _); [exact Hr |].
  exists [], (Some c), conns. by rewrite app_nil_r.
Qed.

Lemma free_all_spec l : forall h, NoDup l -> (forall c, c ∈ l -> is_Some (h !! c)) ->
  exists h', free_all h l = Ok h' /\ forall c, h' !! c = if decide (c ∈ l) then None else h !! c.
Proof.
  induction l as [| c l IH]; intros h Hnd Hl; cbn [free_all].
  { exists h. split; [done |]. intros c. rewrite decide_False; [done | apply not_elem_of_nil]. }
  apply NoDup_cons in Hnd as [Hc Hnd]. unfold free. destruct (Hl c) as [k ->]; [by left |]. cbn [of_ptr mbind outcome_bind].
  destruct (IH (delete c h) Hnd) as (h' & -> & Hh').
  { intros x Hx. rewrite lookup_delete_ne by (intros ->; contradiction). apply Hl. by right. }
  exists h'. split; [done |]. intros x. rewrite Hh'. destruct (decide (x ∈ l)) as [Hx|Hx].
  - rewrite decide_True; [done | by right].
  - destruct (decide (x = c)) as [-> | Hne].
    + rewrite lookup_delete_eq, decide_True; [done | by left].
    + rewrite lookup_delete_ne by done. rewrite decide_False; [done |]. rewrite elem_of_cons. tauto.
Qed.

(** Removing [gone] from the books. *)
Lemma inv_frees s s' gone :
  pool_inv s -> owned s ≡ₚ gone ++ owned s' ->
  (forall c, objs s' !! c = if decide (c ∈ gone) then None else objs s !! c) ->
  m_total (pool s') = i32 (m_total (pool s) - Z.of_nat (length gone)) -> pool_inv s'.
Proof.
  intros [H1 H2 H3 H4] Hp Ho Ht. rewrite Hp in H1. apply NoDup_app in H1 as (_ & Hdis & Hnd). split; [done | | |].
  - intros c. rewrite Ho. destruct (decide (c ∈ gone)) as [Hg|Hg].
    + split; [by intros [] | intros Hc; by destruct (Hdis c Hg)].
    + rewrite H2, Hp, elem_of_app. tauto.
  - rewrite Ht, H3. replace (i32 _ - Z.of_nat (length gone)) with (i32 (Z.of_nat (length (owned s))) + - Z.of_nat (length gone)) by lia.
    rewrite i32_add, Hp, length_app. f_equal. lia.
  - intros c k. rewrite Ho. destruct (decide _); [done | apply H4].
Qed.

Lemma scan_keeps s now :
  pool_inv s -> exists s', do_act s (AScan now) = Ok s' /\ pool_inv s'.
Proof.
  intros Hi. destruct (pool_scan_spec (objs s) (m_maxAliveTime (pool s)) now (m_conns (pool s)) []) as (l & c & rest & E & Hc).
  { intros c Hc. apply (inv_live s Hi). unfold owned. apply elem_of_app. by left. }
  cbn [do_act]. unfold scan_pool. rewrite E. cbn [mbind outcome_bind app]. eexists. split; [reflexivity |].
  apply (inv_moves s); [done | | done | done]. unfold owned. cbn [pool objs gets held set_conns m_conns]. rewrite bind_cons. cbn [in_get].
  rewrite Hc. solve_Permutation.
Qed.

Lemma purge_keeps s i :
  pool_inv s -> enabled s (APurge i) -> exists s', do_act s (APurge i) = Ok s' /\ pool_inv s'.
Proof.
  intros Hi (l & c & Hg). cbn [do_act]. rewrite Hg. pose proof (delete_Permutation _ _ _ Hg) as Hp.
  assert (Ho : owned s ≡ₚ l ++ (m_conns (pool s) ++ (option_list c ++ held s) ++ (delete i (gets s) ≫= in_get))).
  { unfold owned. rewrite Hp at 1. rewrite bind_cons. cbn [in_get]. solve_Permutation. }
  pose proof (inv_nodup s Hi) as Hnd. rewrite Ho in Hnd. apply NoDup_app in Hnd as (Hnd & _ & _).
  destruct (free_all_spec l (objs s) Hnd) as (h' & E & Hh').
  { intros x Hx. apply (inv_live s Hi). rewrite Ho, elem_of_app. by left. }
  unfold purge. rewrite E. cbn [mbind outcome_bind].
  destruct c as [c|]; (eexists; split; [reflexivity |]; eapply (inv_frees s _ l); [done | rewrite Ho; unfold owned | done | done]).
  - cbn [pool gets held set_total m_conns option_list app]. done.
  - cbn [pool gets held set_total m_conns option_list app]. rewrite bind_cons. done.
Qed.

Lemma connect_keeps s i r so co c :
  pool_inv s -> enabled s (AConnect i r so co c) -> exists s', do_act s (AConnect i r so co c) = Ok s' /\ pool_inv s'.
Proof.
  intros Hi [Hg Hf]. cbn [do_act]. pose proof (delete_Permutation _ _ _ Hg) as Hp.
  assert (Ho : owned s ≡ₚ m_conns (pool s) ++ held s ++ (delete i (gets s) ≫= in_get)).
  { unfold owned. rewrite Hp at 1. rewrite bind_cons. cbn [in_get]. done. }
  assert (Hnone : exists s', Ok (mkState (pool s) (objs s) (delete i (gets s)) (held s)) = Ok s' /\ pool_inv s').
  { eexists. split; [reflexivity |]. by apply (inv_moves s). }
  unfold connect. destruct r, so, co; cbn [negb]; try exact Hnone. clear Hnone. eexists. split; [reflexivity |].
  assert (Hc : c ∉ owned s) by (rewrite <- (inv_live s Hi), Hf; by intros []).
  destruct Hi as [H1 H2 H3 H4]. set (s' := mkState _ _ _ _). assert (Ho' : owned s' ≡ₚ c :: owned s).
  { rewrite Ho. unfold owned, s'. cbn [pool gets held set_total m_conns]. solve_Permutation. }
  split.
  - rewrite Ho'. by constructor.
  - intros x. rewrite Ho', elem_of_cons, <- H2. unfold s'. cbn [objs]. destruct (decide (x = c)) as [-> | Hne].
    + rewrite lookup_insert_eq. split; [by left | by eexists].
    + rewrite lookup_insert_ne by done. tauto.
  - transitivity (i32 (Z.of_nat (length (owned s)) + 1)).
    + unfold s'. cbn [pool set_total m_total]. by rewrite H3, i32_add.
    + rewrite Ho'. f_equal. simpl. lia.
  - intros x k. unfold s'. cbn [objs]. destruct (decide (x = c)) as [-> | Hne].
    + rewrite lookup_insert_eq. by intros [= <-].
    + rewrite lookup_insert_ne by done. apply H4.
Qed.

Lemma remove1_Permutation c l : c ∈ l -> NoDup l -> l ≡ₚ c :: remove1 c l.
Proof.
  induction l as [| x l IH]; intros Hc Hnd; [by apply not_elem_of_nil in Hc |]. apply NoDup_cons in Hnd as [Hx Hnd].
  unfold remove1. simpl. destruct (Nat.eqb_spec x c) as [-> | Hne]; cbn [negb].
  - f_equiv. clear IH Hc Hnd. induction l as [| y l IH]; [done |]. simpl. apply not_elem_of_cons in Hx as [Hy Hx].
    destruct (Nat.eqb_spec y c) as [-> |]; [done |]. cbn [negb]. by rewrite <- (IH Hx).
  - apply elem_of_cons in Hc as [-> | Hc]; [done |]. rewrite (IH Hc Hnd) at 1. apply Permutation_swap.
Qed.

(** Objects change but stay. *)
Lemma inv_updates s s' c k k' :
  pool_inv s -> objs s !! c = Some k -> m_createTime k' = m_createTime k -> objs s' = <[c := k']> (objs s) ->
  owned s ≡ₚ owned s' -> m_total (pool s') = m_total (pool s) -> pool_inv s'.
Proof.
  intros [H1 H2 H3 H4] Hk Ht Ho Hp Htot. split.
  - by rewrite <- Hp.
  - intros x. rewrite Ho, <- Hp, <- H2. destruct (decide (x = c)) as [-> | Hne].
    + rewrite lookup_insert_eq, Hk. split; by eexists.
    + by rewrite lookup_insert_ne by done.
  - by rewrite Htot, H3, Hp.
  - intros x kx. rewrite Ho. destruct (decide (x = c)) as [-> | Hne].
    + rewrite lookup_insert_eq. intros [= <-]. rewrite Ht. by apply (H4 c).
    + rewrite lookup_insert_ne by done. apply H4.
Qed.

Lemma release_keeps s c now :
  pool_inv s -> enabled s (ARelease c now) -> exists s', do_act s (ARelease c now) = Ok s' /\ pool_inv s'.
Proof.
  intros Hi Hc. cbn [enabled] in Hc. assert (Hin : c ∈ owned s) by (unfold owned; rewrite !elem_of_app; auto).
  destruct (proj2 (inv_live s Hi c) Hin) as [k Hk]. pose proof (inv_nodup s Hi) as Hnd.
  assert (Hh : NoDup (held s)) by (unfold owned in Hnd; apply NoDup_app in Hnd as (_ & _ & Hnd); by apply NoDup_app in Hnd as (? & _)).
  pose proof (remove1_Permutation c (held s) Hc Hh) as Hp. cbn [do_act]. unfold ReleasePtr. rewrite Hk. cbn [of_ptr mbind outcome_bind].
  set (k' := mkConn _ _ _). destruct (_ || _).
  - unfold free. rewrite lookup_insert_eq. cbn [of_ptr mbind outcome_bind]. eexists. split; [reflexivity |].
    apply (inv_frees s _ [c]); [done | | | done].
    + unfold owned. cbn [pool gets held set_total m_conns]. rewrite Hp at 1. solve_Permutation.
    + intros x. cbn [objs]. destruct (decide (x ∈ [c])) as [->%list_elem_of_singleton | Hx]; [by rewrite lookup_delete_eq |].
      rewrite list_elem_of_singleton in Hx. by rewrite lookup_delete_ne, lookup_insert_ne.
  - cbn [mbind outcome_bind]. eexists. split; [reflexivity |].
    apply (inv_updates s _ c k k'); [done | done | done | done | | done].
    unfold owned. cbn [pool gets held set_conns m_conns]. rewrite Hp at 1. solve_Permutation.
Qed.

Lemma drop_keeps s c : pool_inv s -> enabled s (ADrop c) -> exists s', do_act s (ADrop c) = Ok s' /\ pool_inv s'.
Proof.
  intros Hi [k Hk]. cbn [do_act]. rewrite Hk. cbn [of_ptr mbind outcome_bind]. eexists. split; [reflexivity |].
  by apply (inv_updates s _ c k (mkConn false (m_createTime k) (m_request k))).
Qed.

Lemma act_keeps s a : pool_inv s -> enabled s a -> exists s', do_act s a = Ok s' /\ pool_inv s'.
Proof.
  destruct a; intros; [by apply scan_keeps | by apply purge_keeps | by apply connect_keeps | by apply release_keeps | by apply drop_keeps].
Qed.

Lemma pool_reachable_inv s : reachable s -> pool_inv s.
Proof.
  induction 1 as [| s a s' _ IH He E].
  - split; [constructor | | reflexivity | done]. intros c. cbn. rewrite lookup_empty. split; [by intros [] | intros H; by apply not_elem_of_nil in H].
  - destruct (act_keeps s a IH He) as (s'' & E' & Hi). congruence.
Qed.

(** C21: The pool's books are right under every interleaving of its users. At
    every point of every run of [getConnection], [ReleasePtr] and closings, a
    connection is idle, handed out or in one call's hands, never two of these;
    the objects that exist are exactly these; [m_total] is their number (as an
    [int32_t]); and no action touches or deletes an object that is gone. *)
Theorem pool_books_agree s :
  reachable s ->
  NoDup (owned s) /\ (forall c, is_Some (objs s !! c) <-> c ∈ owned s) /\ m_total (pool s) = i32 (Z.of_nat (length (owned s)))
  /\ forall a, enabled s a -> is_ok (do_act s a) = true.
Proof.
  intros Hr. pose proof (pool_reachable_inv s Hr) as Hi. split_and!; [apply Hi | apply Hi | apply Hi |].
  intros a He. by destruct (act_keeps s a Hi He) as (s' & -> & _).
Qed.

Definition demo_pool : HttpConnectionPool := new_HttpConnectionPool "www.sylar.top" "" 80 false 10 1000 5.

(** Two users get a connection each, one gives his back, a third call finds it. *)
Definition demo_acts : list act :=
  [AScan 5000; AScan 5000; APurge 1; APurge 1; AConnect 0 true true true 1; AConnect 0 true true true 2; ARelease 1 6000; AScan 7000]%nat.

Definition enabledb (s : state) (a : act) : bool :=
  match a with
  | AScan _ => true
  | APurge i => match gets s !! i with Some (Scanned _ _) => true | _ => false end
  | AConnect i _ _ _ c => match gets s !! i, objs s !! c with Some Purged, None => true | _, _ => false end
  | ARelease c _ => existsb (Nat.eqb c) (held s)
  | ADrop c => match objs s !! c with Some _ => true | None => false end
  end.

Lemma enabledb_enabled s a : enabledb s a = true -> enabled s a.
Proof.
  destruct a as [| i | i r so co c | c now | c]; simpl; try done.
  - destruct (gets s !! i) as [[l c |]|]; try done. by eexists _, _.
  - destruct (gets s !! i) as [[l c' |]|]; try done. by destruct (objs s !! c).
  - rewrite existsb_exists. intros (x & Hx & ->%Nat.eqb_eq). by apply list_elem_of_In.
  - destruct (objs s !! c); [by eexists | done].
Qed.

Fixpoint acts_run (s : state) (l : list act) : outcome state :=
  match l with
  | [] => Ok s
  | a :: l => _ ← sylar_assert (enabledb s a); s ← do_act s a; acts_run s l
  end.

Lemma acts_run_reachable l : forall s s', reachable s -> acts_run s l = Ok s' -> reachable s'.
Proof.
  induction l as [| a l IH]; intros s s' Hr; cbn [acts_run]; [by intros [= <-] |].
  destruct (enabledb s a) eqn:E; [| done]. cbn [sylar_assert mbind outcome_bind]. destruct (do_act s a) as [s1|] eqn:Ea; [| done].
  apply IH. apply (reach_act s a s1); [done | by apply enabledb_enabled | done].
Qed.

Lemma pool_books_agree_witness :
  exists s, acts_run (mkState demo_pool ∅ [] []) demo_acts = Ok s /\ gets s = [Scanned [] (Some 1%nat)] /\ held s = [2%nat]
    /\ NoDup (owned s) /\ m_total (pool s) = 2.
Proof.
  destruct (acts_run (mkState demo_pool ∅ [] []) demo_acts) as [s|] eqn:E; [| vm_compute in E; discriminate E].
  pose proof (acts_run_reachable _ _ _ (reach_new "www.sylar.top" "" 80 false 10 1000 5) E) as Hr. exists s.
  destruct (pool_books_agree s Hr) as (H1 & _ & H3 & _). vm_compute in E. injection E as <-.
  split_and!; [reflexivity | reflexivity | reflexivity | exact H1 | exact H3].
Defined.

(** ** The limits *)

(** The creation time is never set, so that for any clock after the epoch's
    first fifty days no connection is ever too old, neither when it is taken
    nor when it is given back. *)
Theorem alive_time_never_enforced s c k now :
  reachable s -> objs s !! c = Some k -> 0 <= m_maxAliveTime (pool s) < 2 ^ 32 -> 2 ^ 32 <= now ->
  (now <? u64 (m_createTime k + m_maxAliveTime (pool s))) = false
  /\ (now <=? u64 (m_createTime k + m_maxAliveTime (pool s))) = false.
Proof.
  intros Hr Hk Ha Hn. rewrite (inv_time s (pool_reachable_inv s Hr) c k Hk).
  assert (Hu : u64 (0 + m_maxAliveTime (pool s)) = m_maxAliveTime (pool s)) by (apply wrap_small; unfold in_unsigned; lia).
  rewrite Hu. split; lia.
Qed.

(** With a creation time the comparison would be the wrong way round: what is
    younger than its life time is rejected, what is older is reused. *)
Theorem age_check_inverted h now age ma :
  h !! 1%nat = Some (mkConn true (now - age) 0) -> 0 <= age <= now -> now + ma < 2 ^ 64 -> 0 <= ma ->
  scan h ma now [1%nat] [] = if age <? ma then Ok ([1%nat], None, []) else Ok ([], Some 1%nat, []).
Proof.
  intros Hh Ha Hn Hm. cbn [scan]. rewrite Hh. cbn [of_ptr mbind outcome_bind isConnected m_createTime negb].
  assert (Hu : u64 (now - age + ma) = now - age + ma) by (apply wrap_small; unfold in_unsigned; lia). rewrite Hu.
  destruct (Z.ltb_spec now (now - age + ma)), (Z.ltb_spec age ma); try lia; reflexivity.
Qed.

(** Connections are given back whatever the maximal size of the pool. *)
Theorem max_size_unused p h c k now :
  h !! c = Some k -> isConnected k = true -> u64 (m_createTime k + m_maxAliveTime p) < now -> u64 (m_request k + 1) < m_maxRequest p ->
  ReleasePtr p h c now = Ok (set_conns p (m_conns p ++ [c]), <[c := mkConn true (m_createTime k) (u64 (m_request k + 1))]> h).
Proof.
  intros Hk Hc Ht Hr. unfold ReleasePtr. rewrite Hk. cbn [of_ptr mbind outcome_bind isConnected m_createTime m_request]. rewrite Hc.
  cbn [negb orb]. destruct (Z.leb_spec now (u64 (m_createTime k + m_maxAliveTime p))); [lia |].
  destruct (Z.leb_spec (m_maxRequest p) (u64 (m_request k + 1))); [lia | reflexivity].
Qed.

(** A text that is no URI is used after the error is logged. *)
Theorem create_bad_uri_undefined : Hp.Create "not a uri" "" 1 1 1 = Fail NullDeref.
Proof. vm_compute. reflexivity. Qed.
