(* ===== verification/Zlib.v ===== *)
(** sylar/streams/zlib_stream.cc: compression through a chain of fixed-size
    buffers. zlib itself is an interface: one call of [deflate] or [inflate]
    takes input and room for output and leaves what it did not consume. *)

From S2P Require Import Prelude Endian ByteArray ByteArrayViews ByteArrayCodec.
Import BA Views Codec.

Module Zl.

Local Open Scope Z_scope.

Definition Z_OK : Z := 0.
Definition Z_STREAM_ERROR : Z := -2.

(** [deflateInit2]/[inflateInit2] and [deflate]/[inflate]; the boolean first
    argument selects the encoder, [finish] is the flush mode [Z_FINISH]. *)
Record zlib := {
  zs : Type;
  z_init : bool -> Z -> Z -> Z -> Z -> Z * zs;
  z_step : bool -> zs -> list Z -> nat -> bool -> Z * zs * list Z * list Z
}.

Inductive Type_ := ZLIB | DEFLATE | GZIP.

Section stream.
Context (L : zlib).

Record ZlibStream := {
  m_zstream : zs L;
  m_buffSize : nat;
  m_encode : bool;
  m_buffs : list (list Z)   (* what each buffer holds *)
}.

(** [ZlibStream::init], for a stream that [Create] makes: the code zlib returns
    and the stream. *)
Definition init (encode : bool) (buff_size : nat) (type : Type_) (level window_bits memlevel strategy : Z)
  : outcome (Z * ZlibStream) :=
  _ ← sylar_assert (((0 <=? level) && (level <=? 9)) || (level =? -1));
  _ ← sylar_assert ((8 <=? window_bits) && (window_bits <=? 15));
  _ ← sylar_assert ((1 <=? memlevel) && (memlevel <=? 9));
  let window_bits := match type with
                     | DEFLATE => - window_bits
                     | GZIP => window_bits + 16
                     | ZLIB => window_bits
                     end in
  let '(ret, z) := z_init L encode level window_bits memlevel strategy in
  Ok (ret, {| m_zstream := z; m_buffSize := buff_size; m_encode := encode; m_buffs := [] |}).

(** [ZlibStream::Create]; [None] is the null pointer. *)
Definition Create (encode : bool) (buff_size : nat) (type : Type_) (level window_bits memlevel strategy : Z)
  : outcome (option ZlibStream) :=
  '(ret, s) ← init encode buff_size type level window_bits memlevel strategy;
  Ok (if ret =? Z_OK then Some s else None).

Definition CreateGzip (encode : bool) (buff_size : nat) := Create encode buff_size GZIP (-1) 15 8 0.
Definition CreateZlib (encode : bool) (buff_size : nat) := Create encode buff_size ZLIB (-1) 15 8 0.
Definition CreateDeflate (encode : bool) (buff_size : nat) := Create encode buff_size DEFLATE (-1) 15 8 0.

(** The last buffer if it has room, or a new one; and the buffers before it. *)
Definition back (buff_size : nat) (buffs : list (list Z)) : list (list Z) * list Z :=
  match last buffs with
  | Some b => if (length b =? buff_size)%nat then (buffs, []) else (removelast buffs, b)
  | None => (buffs, [])
  end.

(** The loop [do ... while(m_zstream.avail_out == 0)] for one piece of input. *)
Fixpoint code_loop (fuel : nat) (encode : bool) (buff_size : nat) (finish : bool) (z : zs L) (inp : list Z)
  (buffs : list (list Z)) : outcome (Z * zs L * list (list Z)) :=
  match fuel with
  | O => Fail OutOfFuel
  | S fuel =>
      let '(before, b) := back buff_size buffs in
      let avail_out := (buff_size - length b)%nat in
      let '(ret, z, inp, out) := z_step L encode z inp avail_out finish in
      if ret =? Z_STREAM_ERROR then Ok (ret, z, before ++ [b])
      else
        let buffs := before ++ [b ++ out] in
        if (avail_out - length out =? 0)%nat then code_loop fuel encode buff_size finish z inp buffs
        else Ok (Z_OK, z, buffs)
  end.

Definition set_stream (s : ZlibStream) (z : zs L) (buffs : list (list Z)) : ZlibStream :=
  {| m_zstream := z; m_buffSize := m_buffSize s; m_encode := m_encode s; m_buffs := buffs |}.

(** [ZlibStream::encode] and [decode], which differ only in the zlib function
    they call: every piece in turn, the last with [Z_FINISH] when [finish]. *)
Fixpoint code (fuel : nat) (s : ZlibStream) (v : list (list Z)) (finish : bool) : outcome (Z * ZlibStream) :=
  match v with
  | [] => Ok (Z_OK, s)
  | inp :: v =>
      let fin := finish && match v with [] => true | _ => false end in
      '(ret, z, buffs) ← code_loop fuel (m_encode s) (m_buffSize s) fin (m_zstream s) inp (m_buffs s);
      let s := set_stream s z buffs in
      if ret =? Z_STREAM_ERROR then Ok (ret, s) else code fuel s v finish
  end.

(** The bytes behind iovecs. *)
Fixpoint iov_inputs (ba : ByteArray) (iovs : list iovec) : outcome (list (list Z)) :=
  match iovs with
  | [] => Ok []
  | iov :: iovs => bs ← defined (iov_bytes ba iov); r ← iov_inputs ba iovs; Ok (bs :: r)
  end.

(** [ZlibStream::write(const void*, size_t)] *)
Definition write_buf (fuel : nat) (s : ZlibStream) (buffer : list Z) : outcome (Z * ZlibStream) :=
  code fuel s [buffer] false.

(** [ZlibStream::write(ByteArray::ptr, size_t)]; [getReadBuffers] clips the
    length, so that -1 stands for everything that can be read. *)
Definition write_ba (fuel : nat) (s : ZlibStream) (ba : ByteArray) (length_ : Z) : outcome (Z * ZlibStream) :=
  let len := Z.to_nat (Z.min (u64 length_) (Z.of_nat (getReadSize ba))) in
  '(_, iovs) ← getReadBuffers ba len;
  v ← iov_inputs ba iovs;
  code fuel s v false.

(** [ZlibStream::flush] *)
Definition flush (fuel : nat) (s : ZlibStream) : outcome (Z * ZlibStream) := code fuel s [[]] true.

(** [ZlibStream::close] *)
Definition close (fuel : nat) (s : ZlibStream) : outcome ZlibStream := snd <$> flush fuel s.

(** [ZlibStream::read]: both overloads throw. *)
Definition read_invalid : outcome Z := Fail LogicError.

(** [ZlibStream::getResult] *)
Definition getResult (s : ZlibStream) : list Z := mjoin (m_buffs s).

(** [ba->write(i.iov_base, i.iov_len)] for every buffer. *)
Fixpoint write_all (ba : ByteArray) (bs : list (list Z)) : outcome ByteArray :=
  match bs with
  | [] => Ok ba
  | b :: bs => ba ← write_bytes ba b; write_all ba bs
  end.

(** [ZlibStream::getByteArray] *)
Definition getByteArray (s : ZlibStream) : outcome ByteArray :=
  ba ← write_all (new_ByteArray 4096) (m_buffs s);
  setPosition ba 0.

End stream.

Arguments m_zstream {L}. Arguments m_buffSize {L}. Arguments m_encode {L}. Arguments m_buffs {L}.
Arguments set_stream {L}. Arguments getResult {L}. Arguments getByteArray {L}.

(** * What zlib promises *)

(** [z_feed] is what the library emits for a piece of input when there is room
    enough. A call with less room emits the first part and goes on from there. *)
Class ZlibLaws (L : zlib) := {
  z_feed : bool -> zs L -> list Z -> bool -> list Z * zs L;
  step_room enc z inp fin room :
    let '(o, z1) := z_feed enc z inp fin in
    let '(ret, z', inp', out) := z_step L enc z inp room fin in
    ret <> Z_STREAM_ERROR /\ out = take room o
    /\ (if (length o <? room)%nat then z' = z1 else z_feed enc z' inp' fin = (drop room o, z1))
}.

Section laws.
Context (L : zlib) `{!ZlibLaws L}.

(** Every piece in turn, and the state at the end. *)
Fixpoint feed_all (enc : bool) (z : zs L) (v : list (list Z)) (finish : bool) : list Z * zs L :=
  match v with
  | [] => ([], z)
  | inp :: v =>
      let '(o, z) := z_feed enc z inp (finish && match v with [] => true | _ => false end) in
      let '(r, z) := feed_all enc z v finish in (o ++ r, z)
  end.

(** All buffers but the last are full, and none holds more than its size. *)
Definition chained (n : nat) (buffs : list (list Z)) : Prop :=
  Forall (fun b => (length b <= n)%nat) buffs /\ Forall (fun b => length b = n) (removelast buffs).

Lemma removelast_snoc {A} (l : list A) x : removelast (l ++ [x]) = l.
Proof. by rewrite removelast_last. Qed.

Lemma back_spec n buffs :
  chained n buffs ->
  let '(before, b) := back n buffs in
  mjoin buffs = mjoin before ++ b /\ (length b <= n)%nat /\ ((0 < n)%nat -> (length b < n)%nat)
  /\ Forall (fun b => length b = n) before.
Proof.
  intros [Hall Hfull]. unfold back. destruct (last buffs) as [b |] eqn:E.
  - apply last_Some in E as [l ->]. rewrite removelast_snoc in Hfull |- *.
    apply Forall_app in Hall as [Hl Hb]. apply Forall_cons in Hb as [Hb _].
    destruct (Nat.eqb_spec (length b) n).
    + split_and!; [by rewrite app_nil_r | simpl; lia | simpl; lia |]. apply Forall_app_2; [done |]. by constructor.
    + split_and!; [rewrite join_app; simpl; by rewrite app_nil_r | lia | lia | done].
  - apply last_None in E as ->. split_and!; [done | simpl; lia | simpl; lia | done].
Qed.

Lemma chained_snoc n before b :
  Forall (fun b => length b = n) before -> (length b <= n)%nat -> chained n (before ++ [b]).
Proof.
  intros Hf Hb. split; [| by rewrite removelast_snoc].
  apply Forall_app_2; [| by constructor]. eapply Forall_impl; [done |]. simpl. lia.
Qed.

Lemma code_loop_spec fuel enc n fin z inp buffs :
  (0 < n)%nat -> chained n buffs -> (length (fst (z_feed enc z inp fin)) < fuel)%nat ->
  exists buffs', code_loop L fuel enc n fin z inp buffs = Ok (Z_OK, snd (z_feed enc z inp fin), buffs')
    /\ chained n buffs' /\ mjoin buffs' = mjoin buffs ++ fst (z_feed enc z inp fin).
Proof.
  intros Hn. revert z inp buffs. induction fuel as [| fuel IH]; intros z inp buffs Hc Hf; [lia |].
  cbn [code_loop]. pose proof (back_spec n buffs Hc) as Hb. destruct (back n buffs) as [before b].
  destruct Hb as (Hj & Hle & Hlt & Hfull). specialize (Hlt Hn).
  pose proof (step_room enc z inp fin (n - length b)) as Hs.
  destruct (z_feed enc z inp fin) as [o z1] eqn:Ef. destruct (z_step L enc z inp (n - length b) fin) as [[[ret z'] inp'] out].
  destruct Hs as (Hret & -> & Hnext). simpl in Hf |- *.
  rewrite (proj2 (Z.eqb_neq _ _) Hret), length_take. destruct (Nat.ltb_spec (length o) (n - length b)) as [Hlo | Hlo].
  - subst z'. rewrite take_ge by lia.
    rewrite (proj2 (Nat.eqb_neq _ _)) by lia. eexists. split; [done |].
    split; [apply chained_snoc; [done | rewrite length_app; lia] |].
    rewrite join_app, Hj. simpl. by rewrite app_nil_r, app_assoc.
  - rewrite (proj2 (Nat.eqb_eq _ _)) by lia.
    destruct (IH z' inp' (before ++ [b ++ take (n - length b) o])) as (buffs' & E & Hc' & Hj').
    + apply chained_snoc; [done |]. rewrite length_app, length_take. lia.
    + rewrite Hnext. simpl. rewrite length_drop. lia.
    + rewrite Hnext in E, Hj'. simpl in E, Hj'. exists buffs'. split_and!; [done.. |].
      rewrite Hj', join_app, Hj. simpl. rewrite app_nil_r, <- !app_assoc. do 2 f_equal. apply take_drop.
Qed.

(** Any number of bytes that the buffers will have to take. *)
Definition room_for (fuel : nat) (s : ZlibStream L) (v : list (list Z)) (finish : bool) : Prop :=
  (length (fst (feed_all (m_encode s) (m_zstream s) v finish)) < fuel)%nat.

Lemma code_spec fuel s v finish :
  (0 < m_buffSize s)%nat -> chained (m_buffSize s) (m_buffs s) -> room_for fuel s v finish ->
  exists s', code L fuel s v finish = Ok (Z_OK, s') /\ chained (m_buffSize s) (m_buffs s')
    /\ m_zstream s' = snd (feed_all (m_encode s) (m_zstream s) v finish)
    /\ getResult s' = getResult s ++ fst (feed_all (m_encode s) (m_zstream s) v finish)
    /\ m_encode s' = m_encode s /\ m_buffSize s' = m_buffSize s.
Proof.
  intros Hn. revert s Hn. unfold room_for. induction v as [| inp v IH]; intros s Hn Hc Hf.
  { exists s. split_and!; try done. simpl. by rewrite app_nil_r. }
  cbn [code feed_all] in *.
  set (fin := finish && match v with [] => true | _ => false end) in *.
  destruct (z_feed (m_encode s) (m_zstream s) inp fin) as [o z1] eqn:Ef.
  destruct (feed_all (m_encode s) z1 v finish) as [r z2] eqn:Er. simpl in Hf. rewrite length_app in Hf.
  destruct (code_loop_spec fuel (m_encode s) (m_buffSize s) fin (m_zstream s) inp (m_buffs s) Hn Hc)
    as (b1 & -> & Hc1 & Hj1); [rewrite Ef; simpl; lia |].
  rewrite Ef in Hj1 |- *. simpl in Hj1 |- *.
  destruct (IH (set_stream s z1 b1)) as (s' & -> & Hc' & Hz & Hr & He & Hb); try done.
  { simpl. rewrite Er. simpl. lia. }
  simpl in *. rewrite Er in Hz, Hr. simpl in *. exists s'. split_and!; try done.
  rewrite Hr. unfold getResult. simpl. by rewrite Hj1, <- app_assoc.
Qed.

End laws.

End Zl.
