(* ===== verification/Rock.v ===== *)
(** The Rock protocol: messages of sylar/protocol.cc and rock/rock_protocol.cc,
    their encoding into a [ByteArray], and [RockMessageDecoder], which frames
    them on a stream with a header and compresses long ones. *)

From stdpp Require Import strings.
From Stdlib Require Import Ascii.
From S2P Require Import Prelude Strs Endian ByteArray ByteArrayViews ByteArrayCodec Zlib HttpSession.
Import BA Views Codec Zl.

Module Rk.

Local Open Scope Z_scope.

(** * Messages *)

Record RockRequest := { rq_sn : Z; rq_cmd : Z; rq_body : list Z }.
Record RockResponse := { rs_sn : Z; rs_cmd : Z; rs_result : Z; rs_resultStr : list Z; rs_body : list Z }.
Record RockNotify := { nt_notify : Z; nt_body : list Z }.

Inductive Message :=
  | MRequest (r : RockRequest)
  | MResponse (r : RockResponse)
  | MNotify (r : RockNotify).

(** [Message::MessageType] *)
Definition REQUEST : Z := 1.
Definition RESPONSE : Z := 2.
Definition NOTIFY : Z := 3.

Definition getType (m : Message) : Z :=
  match m with MRequest _ => REQUEST | MResponse _ => RESPONSE | MNotify _ => NOTIFY end.

(** The bytes of a string literal. *)
Fixpoint bytes_of (s : string) : list Z :=
  match s with
  | ""%string => []
  | String c s => Z.of_nat (nat_of_ascii c) :: bytes_of s
  end.

Definition new_RockRequest : RockRequest := {| rq_sn := 0; rq_cmd := 0; rq_body := [] |}.
Definition new_RockResponse : RockResponse :=
  {| rs_sn := 0; rs_cmd := 0; rs_result := 404; rs_resultStr := bytes_of "unhandle"; rs_body := [] |}.
Definition new_RockNotify : RockNotify := {| nt_notify := 0; nt_body := [] |}.

(** [RockRequest::createResponse] *)
Definition createResponse (r : RockRequest) : RockResponse :=
  let rt := new_RockResponse in
  {| rs_sn := rq_sn r; rs_cmd := rq_cmd r; rs_result := rs_result rt; rs_resultStr := rs_resultStr rt;
     rs_body := rs_body rt |}.

(** [catch (...)]: standard exceptions are caught, undefined behaviour is not. *)
Definition try_ {A} (m : outcome A) : outcome (option A) :=
  match m with
  | Ok a => Ok (Some a)
  | Fail (OutOfRange | InvalidArgument | LogicError) => Ok None
  | Fail e => Fail e
  end.

Section protocol.
Context (host : Z).

(** [Request::serializeToByteArray], [Response::...], [Notify::...] *)
Definition Request_serialize (ba : ByteArray) (r : RockRequest) : outcome ByteArray :=
  ba ← writeFuint8 host ba (u8 REQUEST);
  ba ← writeUint32 ba (rq_sn r);
  writeUint32 ba (rq_cmd r).

Definition Response_serialize (ba : ByteArray) (r : RockResponse) : outcome ByteArray :=
  ba ← writeFuint8 host ba (u8 RESPONSE);
  ba ← writeUint32 ba (rs_sn r);
  ba ← writeUint32 ba (rs_cmd r);
  ba ← writeUint32 ba (rs_result r);
  writeStringVint ba (rs_resultStr r).

Definition Notify_serialize (ba : ByteArray) (r : RockNotify) : outcome ByteArray :=
  ba ← writeFuint8 host ba (u8 NOTIFY);
  writeUint32 ba (nt_notify r).

(** [RockBody::serializeToByteArray] *)
Definition RockBody_serialize (ba : ByteArray) (body : list Z) : outcome ByteArray := writeStringVint ba body.

(** [RockRequest::serializeToByteArray] and its siblings; [None] is false. *)
Definition serializeToByteArray (ba : ByteArray) (m : Message) : outcome (option ByteArray) :=
  try_ (match m with
        | MRequest r => ba ← Request_serialize ba r; RockBody_serialize ba (rq_body r)
        | MResponse r => ba ← Response_serialize ba r; RockBody_serialize ba (rs_body r)
        | MNotify r => ba ← Notify_serialize ba r; RockBody_serialize ba (nt_body r)
        end).

Definition Request_parse (ba : ByteArray) : outcome (Z * Z * ByteArray) :=
  '(sn, ba) ← readUint32 host ba; '(cmd, ba) ← readUint32 host ba; Ok (sn, cmd, ba).

Definition Response_parse (ba : ByteArray) : outcome (Z * Z * Z * list Z * ByteArray) :=
  '(sn, ba) ← readUint32 host ba;
  '(cmd, ba) ← readUint32 host ba;
  '(result, ba) ← readUint32 host ba;
  '(str, ba) ← readStringVint host ba;
  Ok (sn, cmd, result, str, ba).

Definition Notify_parse (ba : ByteArray) : outcome (Z * ByteArray) := readUint32 host ba.

Definition RockBody_parse (ba : ByteArray) : outcome (list Z * ByteArray) := readStringVint host ba.

(** [parseFromByteArray] of the message class selected by [type]; [None] is
    false. *)
Definition RockRequest_parse (ba : ByteArray) : outcome (option Message) :=
  try_ ('(sn, cmd, ba) ← Request_parse ba;
        '(body, _) ← RockBody_parse ba;
        Ok (MRequest {| rq_sn := sn; rq_cmd := cmd; rq_body := body |})).

Definition RockResponse_parse (ba : ByteArray) : outcome (option Message) :=
  try_ ('(sn, cmd, result, str, ba) ← Response_parse ba;
        '(body, _) ← RockBody_parse ba;
        Ok (MResponse {| rs_sn := sn; rs_cmd := cmd; rs_result := result; rs_resultStr := str; rs_body := body |})).

Definition RockNotify_parse (ba : ByteArray) : outcome (option Message) :=
  try_ ('(notify, ba) ← Notify_parse ba;
        '(body, _) ← RockBody_parse ba;
        Ok (MNotify {| nt_notify := notify; nt_body := body |})).

(** [Message::toByteArray]; [None] is the null pointer. *)
Definition toByteArray (m : Message) : outcome (option ByteArray) :=
  serializeToByteArray (new_ByteArray 4096) m.

(** * Framing *)

Record RockMsgHeader := { magic : list Z; version : Z; flag : Z; h_length : Z }.

Definition s_rock_magic : list Z := [0xab; 0xcd].

Definition new_RockMsgHeader : RockMsgHeader :=
  {| magic := [0xab; 0xcd]; version := 1; flag := 0; h_length := 0 |}.

(** The object representation: two bytes, two bytes, a 32-bit integer. *)
Definition header_bytes (h : RockMsgHeader) : list Z :=
  magic h ++ [version h; flag h] ++ mem_bytes host 4 (wrap 32 (h_length h)).

Definition header_of (bs : list Z) : RockMsgHeader :=
  {| magic := take 2 bs; version := nth 2 bs 0; flag := nth 3 bs 0; h_length := i32 (mem_val host (drop 4 bs)) |}.

(** [byteswapOnLittleEndian] of an [int32_t]. *)
Definition swap_length (v : Z) : Z :=
  if host =? SYLAR_BIG_ENDIAN then v else byteswap_signed 4 v.

(** Where [readFixSize] stored what it received: a store outside of the object
    is undefined. *)
Fixpoint fill (bs : list Z) (stored : list (Z * string)) : outcome (list Z) :=
  match stored with
  | [] => Ok bs
  | (o, s) :: stored =>
      if String.eqb s "" then fill bs stored
      else if (0 <=? o) && (o + Z.of_nat (String.length s) <=? Z.of_nat (length bs))
      then fill (overwrite (Z.to_nat o) (bytes_of s) bs) stored
      else Fail NullDeref
  end.

(** [Stream::readFixSize(ByteArray::ptr, size_t)] over [SocketStream::read]. *)
Fixpoint readFixSize_ba (fuel : nat) (n : list Srv.event) (ba : ByteArray) (len left : Z)
  : outcome (Z * ByteArray * list Srv.event) :=
  if left =? 0 then Ok (i32 len, ba, n) else
  match fuel with
  | O => Fail OutOfFuel
  | S fuel =>
      let '(rt, bytes, n) := Srv.read n (Z.to_nat left) in
      ba ← (if 0 <? rt then recv_into ba (Z.to_nat left) (Some <$> bytes_of bytes)
            else '(_, _, ba) ← getWriteBuffers ba (Z.to_nat left); Ok ba);
      let got := u64 rt in
      if got =? 0 then Ok (i32 got, ba, n) else readFixSize_ba fuel n ba len (u64 (left - got))
  end.

(** [Stream::writeFixSize(ByteArray::ptr, size_t)] over [SocketStream::write],
    against a peer that takes the given numbers of bytes. *)
Fixpoint writeFixSize_ba (takes : list Z) (ba : ByteArray) (len left : Z) (sent : list Z)
  : outcome (Z * ByteArray * list Z) :=
  if left =? 0 then Ok (i32 len, ba, sent) else
  match takes with
  | [] => Fail OutOfFuel
  | rt :: takes =>
      '(_, iovs) ← getReadBuffers ba (Z.to_nat left);
      v ← iov_inputs ba iovs;
      let out := take (Z.to_nat rt) (mjoin v) in
      ba ← (if 0 <? rt then setPosition ba (m_position ba + Z.to_nat rt) else Ok ba);
      let got := u64 rt in
      if got =? 0 then Ok (i32 got, ba, sent)
      else writeFixSize_ba takes ba len (u64 (left - got)) (sent ++ out)
  end.

(** The bytes of a stream as a string. *)
Fixpoint string_of (bs : list Z) : string :=
  match bs with
  | [] => ""%string
  | b :: bs => String (ascii_of_nat (Z.to_nat b)) (string_of bs)
  end.

(** [RockMessageDecoder]: [max_length] and [gzip_min_length] are the values of
    the configuration variables, [fuel] bounds the loops. *)
Context (L : zlib) (max_length gzip_min_length : Z) (fuel : nat).

(** Decompression of a received body; [None] when zlib reports an error. *)
Definition ungzip (ba : ByteArray) : outcome (option ByteArray) :=
  z ← CreateGzip L false 4096;
  z ← of_ptr z;
  '(ret, z) ← write_ba L fuel z ba (-1);
  if negb (ret =? Z_OK) then Ok None
  else
    '(ret, z) ← flush L fuel z;
    if negb (ret =? Z_OK) then Ok None
    else ba ← getByteArray z; Ok (Some ba).

(** The body of a frame: type byte, then the message of that type. *)
Definition parse_body (ba : ByteArray) : outcome (option Message) :=
  '(type, ba) ← readFuint8 host ba;
  if type =? REQUEST then RockRequest_parse ba
  else if type =? RESPONSE then RockResponse_parse ba
  else if type =? NOTIFY then RockNotify_parse ba
  else Ok None.

(** What follows a header that was received. *)
Definition parse_frame (h : RockMsgHeader) (n : list Srv.event) : outcome (option Message * list Srv.event) :=
  if negb (bool_decide (magic h = s_rock_magic)) then Ok (None, n)
  else if negb (version h =? 1) then Ok (None, n)
  else
    let len := swap_length (h_length h) in
    if max_length <=? u32 len then Ok (None, n)
    else
      '(r, ba, n) ← readFixSize_ba fuel n (new_ByteArray 4096) (u64 len) (u64 len);
      if r <=? 0 then Ok (None, n)
      else
        ba ← setPosition ba 0;
        ba ← (if negb (Z.land (flag h) 1 =? 0) then ungzip ba else Ok (Some ba));
        match ba with
        | None => Ok (None, n)
        | Some ba => m ← parse_body ba; Ok (m, n)
        end.

(** [RockMessageDecoder::parseFrom]; after an exception the rest of the stream
    is left as the model has it at the start. *)
Definition parseFrom (n : list Srv.event) : outcome (option Message * list Srv.event) :=
  r ← try_ ('(r, stored, n) ← Srv.readFixSize fuel n 8;
            if r <=? 0 then Ok (None, n)
            else
              bs ← fill (header_bytes new_RockMsgHeader) stored;
              parse_frame (header_of bs) n);
  Ok (default (None, n) r).

(** Compression of a long body: an error code, or the body with its flag. *)
Definition gzip (ba : ByteArray) : outcome (Z + ByteArray) :=
  z ← CreateGzip L true 4096;
  z ← of_ptr z;
  '(ret, z) ← write_ba L fuel z ba (-1);
  if negb (ret =? Z_OK) then Ok (inl (-1))
  else
    '(ret, z) ← flush L fuel z;
    if negb (ret =? Z_OK) then Ok (inl (-2))
    else ba ← getByteArray z; Ok (inr ba).

(** The writes of header and body; [takes1] and [takes2] are what the peer
    takes of each. *)
Definition send_frame (takes1 takes2 : list Z) (h : RockMsgHeader) (ba : ByteArray) : outcome (Z * list Z) :=
  '(r, sent1) ← Srv.writeFixSize takes1 (string_of (header_bytes h));
  let sent1 := bytes_of sent1 in
  if r <=? 0 then Ok (-3, sent1)
  else
    let len := Z.of_nat (getReadSize ba) in
    '(r, ba, sent2) ← writeFixSize_ba takes2 ba len len [];
    if r <=? 0 then Ok (-4, sent1 ++ sent2)
    else Ok (i32 (8 + Z.of_nat (m_size ba)), sent1 ++ sent2).

(** [RockMessageDecoder::serializeTo]: the value returned and the bytes sent. *)
Definition serializeTo (takes1 takes2 : list Z) (m : Message) : outcome (Z * list Z) :=
  ba ← toByteArray m;
  ba ← of_ptr ba;
  ba ← setPosition ba 0;
  let len := i32 (Z.of_nat (m_size ba)) in
  r ← (if gzip_min_length <=? u32 len then
         r ← gzip ba;
         match r with
         | inl code => Ok (inl code)
         | inr ba => Ok (inr (Z.lor 0 1, i32 (Z.of_nat (m_size ba)), ba))
         end
       else Ok (inr (0, len, ba)));
  match r with
  | inl code => Ok (code, [])
  | inr (fl, len, ba) =>
      send_frame takes1 takes2 {| magic := [0xab; 0xcd]; version := 1; flag := fl; h_length := swap_length len |} ba
  end.

End protocol.

End Rk.
