(* ===== verification/RockProps.v ===== *)
(** Theorems on the Rock protocol: what one side sends the other receives,
    through the byte array, zlib and any cutting of the stream. *)

From stdpp Require Import strings.
From Stdlib Require Import Ascii.
From S2P Require Import Prelude Strs Endian ByteArray ByteArrayViews ByteArrayCodec Zlib HttpSession Rock.
Import BA Views Codec Zl Rk.

Local Open Scope Z_scope.
#[local] Arguments String.append !_ _ /.

(** * Bytes and strings *)

Lemma length_bytes_of s : length (bytes_of s) = String.length s.
Proof. induction s as [| c s IH]; simpl; congruence. Qed.

Lemma length_string_of bs : String.length (string_of bs) = length bs.
Proof. induction bs as [| b bs IH]; simpl; congruence. Qed.

Lemma bytes_of_app a b : bytes_of (a ++ b) = bytes_of a ++ bytes_of b.
Proof. induction a as [| c a IH]; simpl; [done |]. by rewrite IH. Qed.

Lemma bytes_of_take n s : bytes_of (str_take n s) = take n (bytes_of s).
Proof. revert s. induction n as [| n IH]; intros [| c s]; simpl; try done. by rewrite IH. Qed.

Lemma bytes_of_drop n s : bytes_of (str_drop n s) = drop n (bytes_of s).
Proof. revert s. induction n as [| n IH]; intros [| c s]; simpl; try done. Qed.

Lemma bytes_of_string_of bs : Forall is_byte bs -> bytes_of (string_of bs) = bs.
Proof.
  induction 1 as [| b bs Hb _ IH]; simpl; [done |]. unfold is_byte in Hb.
  rewrite IH, nat_ascii_embedding by lia. f_equal. lia.
Qed.

Lemma string_of_app a b : string_of (a ++ b) = (string_of a ++ string_of b)%string.
Proof. induction a as [| x a IH]; simpl; [done |]. by rewrite IH. Qed.

(** * The encoding *)

Section encoding.
Context (host : Z).

Definition enc_str (s : list Z) : list Z := varint 10 (slen s) ++ s.

Definition enc_head (m : Message) : list Z :=
  mem_bytes host 1 (getType m) ++
  match m with
  | MRequest r => varint 5 (rq_sn r) ++ varint 5 (rq_cmd r)
  | MResponse r => varint 5 (rs_sn r) ++ varint 5 (rs_cmd r) ++ varint 5 (rs_result r) ++ enc_str (rs_resultStr r)
  | MNotify r => varint 5 (nt_notify r)
  end.

Definition body_of (m : Message) : list Z :=
  match m with MRequest r => rq_body r | MResponse r => rs_body r | MNotify r => nt_body r end.

(** The bytes of a message. *)
Definition enc_msg (m : Message) : list Z := enc_head m ++ enc_str (body_of m).

(** Fields in their range; the result text is not empty. *)
Definition valid_msg (m : Message) : Prop :=
  match m with
  | MRequest r => in_unsigned 32 (rq_sn r) /\ in_unsigned 32 (rq_cmd r)
  | MResponse r => in_unsigned 32 (rs_sn r) /\ in_unsigned 32 (rs_cmd r) /\ in_unsigned 32 (rs_result r)
      /\ str_ok 64 (rs_resultStr r) /\ Forall is_byte (rs_resultStr r)
  | MNotify r => in_unsigned 32 (nt_notify r)
  end /\ slen (body_of m) < 2 ^ 64 /\ Forall is_byte (body_of m).

(** Order-free codecs of the fields before the body. *)
Let Creq := pair_codec (C1 := u8_codec host) (C2 := pair_codec (C1 := uint32_codec host) (C2 := uint32_codec host)).
Let Crsp := pair_codec (C1 := u8_codec host) (C2 := pair_codec (C1 := uint32_codec host)
  (C2 := pair_codec (C1 := uint32_codec host) (C2 := pair_codec (C1 := uint32_codec host) (C2 := stringVint_codec host)))).
Let Cnot := pair_codec (C1 := u8_codec host) (C2 := uint32_codec host).

Lemma body_put ba s :
  inv ba -> slen s < 2 ^ 64 ->
  exists ba', writeStringVint ba s = Ok ba' /\ inv ba' /\ same_shape ba ba'
    /\ abs ba' = f_write (abs ba) (Some <$> enc_str s).
Proof.
  intros Hinv Hs. unfold writeStringVint.
  destruct (put_enc (Codec := uint64_codec host) ba 0 (slen s) Hinv) as (b1 & -> & Hi1 & Hs1 & Ha1);
    [done | unfold in_unsigned, slen in *; lia |].
  rewrite bind_Ok. destruct (write_bytes_spec b1 s Hi1) as (b2 & -> & Hi2 & Hs2 & Ha2).
  exists b2. split_and!; [done.. | by eapply same_shape_trans |]. unfold enc_str.
  rewrite Ha2, Ha1, fmap_app, f_write_app; [done |]. simpl. rewrite length_view by done. apply (inv_pos _ Hinv).
Qed.

(** Reading the body also when it is empty, unless the buffer ends with a node. *)
Lemma body_get ba s :
  inv ba -> slen s < 2 ^ 64 -> at_bytes ba (enc_str s) ->
  (s <> [] \/ (m_position ba + length (enc_str s))%nat mod m_baseSize ba <> 0)%nat ->
  exists ba', readStringVint host ba = Ok (s, ba').
Proof.
  intros Hinv Hs Hat Hne. destruct s as [| b s].
  - destruct Hne as [? | Hne]; [done |]. unfold readStringVint, enc_str in *. rewrite app_nil_r in *.
    destruct (get_enc (Codec := uint64_codec host) ba 0 (slen []) Hinv) as (b1 & -> & Hi1 & Hs1 & Ha1);
      [done | unfold in_unsigned, slen; simpl; lia | done |].
    rewrite bind_Ok. unfold read_bytes. change (Z.to_nat (slen [])) with 0%nat.
    assert (Hp : m_position b1 = (m_position ba + length (varint 10 (slen [])))%nat)
      by (unfold abs, f_seek in Ha1; by injection Ha1).
    assert (Hlt : (m_position b1 < m_capacity b1)%nat).
    { rewrite <- Hp in Hne. destruct Hs1 as [<- _] in Hne. pose proof (inv_pos _ Hi1). pose proof (inv_size _ Hi1).
      rewrite (inv_cap _ Hi1) in *. destruct (decide (m_position b1 = m_baseSize b1 * length (m_root b1))%nat) as [E |]; [| lia].
      rewrite E, Nat.mul_comm, Nat.Div0.mod_mul in Hne. done. }
    pose proof (read_spec b1 0 Hi1 (or_intror Hlt)) as Hr. unfold f_read in Hr. cbn [f_data f_pos abs] in Hr.
    rewrite length_view, Nat.add_0_r, (proj2 (Nat.ltb_ge _ _)) in Hr by (done || apply (inv_pos _ Hi1)).
    destruct Hr as (b2 & -> & _). rewrite bind_Ok. by eexists.
  - destruct (get_enc (Codec := stringVint_codec host) ba 0 (b :: s) Hinv) as (b1 & -> & _); [done | done | done |].
    by eexists.
Qed.

Lemma type_range m : in_unsigned 8 (getType m).
Proof. unfold in_unsigned, getType, REQUEST, RESPONSE, NOTIFY. destruct m; lia. Qed.

(** A buffer that holds exactly [bs], to be read from the start. *)
Definition holds (ba : ByteArray) (bs : list Z) : Prop :=
  inv ba /\ view ba = Some <$> bs /\ m_position ba = 0%nat /\ m_baseSize ba = 4096%nat.

Lemma holds_size ba bs : holds ba bs -> m_size ba = length bs /\ getReadSize ba = length bs.
Proof.
  intros (Hi & Hv & Hp & _). apply (f_equal length) in Hv. rewrite length_view, length_fmap in Hv by done.
  unfold getReadSize. lia.
Qed.

Lemma f_write_new bs : f_write (abs (new_ByteArray 4096)) bs = mkFile bs (length bs).
Proof.
  unfold f_write. cbn [abs f_data f_pos]. change (view (new_ByteArray 4096)) with (@nil cell).
  change (m_position (new_ByteArray 4096)) with 0%nat. unfold overwrite.
  by rewrite take_nil, drop_nil, app_nil_r.
Qed.

(** What was written from the start is held after moving back. *)
Lemma holds_rewound ba bs :
  inv ba -> m_baseSize ba = 4096%nat -> abs ba = mkFile (Some <$> bs) (length (Some <$> bs)) ->
  exists ba', setPosition ba 0 = Ok ba' /\ holds ba' bs.
Proof.
  intros Hi Hb Ha. destruct (seek_spec ba 0 Hi ltac:(lia)) as (b1 & E & Hi1 & [Hb1 _] & Ha1).
  exists b1. split; [done |]. rewrite Ha in Ha1. unfold f_seek, abs in Ha1. simpl in Ha1. injection Ha1 as Hv Hp.
  split_and!; [done.. | congruence].
Qed.

Lemma toByteArray_holds m :
  valid_msg m -> exists ba ba', toByteArray host m = Ok (Some ba) /\ setPosition ba 0 = Ok ba' /\ holds ba' (enc_msg m).
Proof.
  intros [Hv [Hlen _]]. pose proof (new_inv 4096 ltac:(lia)) as Hinv.
  assert (H : exists b1, match m with
                | MRequest r => Request_serialize host (new_ByteArray 4096) r
                | MResponse r => Response_serialize host (new_ByteArray 4096) r
                | MNotify r => Notify_serialize host (new_ByteArray 4096) r
                end = Ok b1 /\ inv b1 /\ same_shape (new_ByteArray 4096) b1
                /\ abs b1 = f_write (abs (new_ByteArray 4096)) (Some <$> enc_head m)).
  { pose proof (type_range m) as Ht. destruct m as [r | r | r]; simpl in Hv.
    - apply (put_enc (Codec := Creq) (new_ByteArray 4096) 0 (REQUEST, (rq_sn r, rq_cmd r)) Hinv); [done | by simpl].
    - apply (put_enc (Codec := Crsp) (new_ByteArray 4096) 0
               (RESPONSE, (rs_sn r, (rs_cmd r, (rs_result r, rs_resultStr r)))) Hinv); [done | simpl; tauto].
    - apply (put_enc (Codec := Cnot) (new_ByteArray 4096) 0 (NOTIFY, nt_notify r) Hinv); [done | by simpl]. }
  destruct H as (b1 & E1 & Hi1 & Hs1 & Ha1).
  destruct (body_put b1 (body_of m) Hi1 Hlen) as (b2 & E2 & Hi2 & Hs2 & Ha2).
  assert (Ha : abs b2 = mkFile (Some <$> enc_msg m) (length (Some <$> enc_msg m))).
  { rewrite Ha2, Ha1. unfold enc_msg. rewrite fmap_app, <- f_write_new, f_write_app; [done | simpl; lia]. }
  destruct (holds_rewound b2 (enc_msg m) Hi2) as (b3 & E3 & Hh); [destruct Hs1 as [Hb1 _], Hs2 as [Hb2 _]; by rewrite Hb2, Hb1 | done |].
  exists b2, b3. split; [| done]. unfold toByteArray, serializeToByteArray, RockBody_serialize.
  destruct m; simpl in *; by rewrite E1, bind_Ok, E2.
Qed.

Ltac inv_gets :=
  repeat match goal with
  | H : (_ ≫= _) = Ok _ |- _ => apply bind_Ok_inv in H as ([? ?] & ? & H); cbv beta iota in *
  end; simplify_eq.

Ltac use_gets :=
  repeat (change (REQUEST =? REQUEST) with true; change (RESPONSE =? REQUEST) with false;
          change (RESPONSE =? RESPONSE) with true; change (NOTIFY =? REQUEST) with false;
          change (NOTIFY =? RESPONSE) with false; change (NOTIFY =? NOTIFY) with true;
          first [rewrite bind_Ok; cbv beta iota
                | match goal with H : _ = Ok _ |- _ => rewrite H, bind_Ok; clear H; cbv beta iota end]).

Lemma holds_at ba bs1 bs2 :
  holds ba (bs1 ++ bs2) -> at_bytes ba (bs1 ++ bs2).
Proof.
  intros (Hi & Hv & Hp & _). unfold at_bytes, slice. rewrite Hp, Hv, drop_0, take_ge; [done |].
  by rewrite length_fmap.
Qed.

(** The rest of the buffer after the head has been read. *)
Lemma after_head ba ba' m :
  holds ba (enc_msg m) -> inv ba' -> same_shape ba ba' ->
  abs ba' = f_seek (abs ba) (m_position ba + length (enc_head m)) -> slen (body_of m) < 2 ^ 64 ->
  (body_of m <> [] \/ length (enc_msg m) mod 4096 <> 0)%nat ->
  exists ba2, readStringVint host ba' = Ok (body_of m, ba2).
Proof.
  intros Hh Hi Hs Ha Hlen Hne. apply body_get; [done | done | |].
  - destruct (at_bytes_app ba (enc_head m) (enc_str (body_of m))) as [_ H]; [by apply holds_at | by apply H].
  - destruct Hne as [? | Hne]; [by left | right]. destruct Hh as (_ & _ & Hp & Hb), Hs as [-> _].
    unfold abs, f_seek in Ha. simpl in Ha. injection Ha as _ ->. rewrite Hp, Hb, Nat.add_0_l.
    unfold enc_msg in Hne. by rewrite length_app in Hne.
Qed.

Lemma parse_body_holds ba m :
  valid_msg m -> holds ba (enc_msg m) ->
  (body_of m <> [] \/ length (enc_msg m) mod 4096 <> 0)%nat ->
  parse_body host ba = Ok (Some m).
Proof.
  intros [Hv [Hlen _]] Hh Hne. pose proof (type_range m) as Ht. pose proof (proj1 Hh) as Hi.
  destruct (at_bytes_app ba (enc_head m) (enc_str (body_of m))) as [Hat _]; [by apply holds_at |].
  unfold parse_body. destruct m as [r | r | r]; simpl in Hv.
  - destruct (get_enc (Codec := Creq) ba 0 (REQUEST, (rq_sn r, rq_cmd r)) Hi) as (b1 & G & Hi1 & Hs1 & Ha1);
      [done | by simpl | done |].
    destruct (after_head ba b1 (MRequest r) Hh Hi1 Hs1 Ha1 Hlen Hne) as (b2 & G2). inv_gets.
    unfold RockRequest_parse, Request_parse, RockBody_parse. use_gets. by destruct r.
  - destruct (get_enc (Codec := Crsp) ba 0 (RESPONSE, (rs_sn r, (rs_cmd r, (rs_result r, rs_resultStr r)))) Hi)
      as (b1 & G & Hi1 & Hs1 & Ha1); [done | simpl; tauto | done |].
    destruct (after_head ba b1 (MResponse r) Hh Hi1 Hs1 Ha1 Hlen Hne) as (b2 & G2). inv_gets.
    unfold RockResponse_parse, Response_parse, RockBody_parse. use_gets. by destruct r.
  - destruct (get_enc (Codec := Cnot) ba 0 (NOTIFY, nt_notify r) Hi) as (b1 & G & Hi1 & Hs1 & Ha1);
      [done | by simpl | done |].
    destruct (after_head ba b1 (MNotify r) Hh Hi1 Hs1 Ha1 Hlen Hne) as (b2 & G2). inv_gets.
    unfold RockNotify_parse, Notify_parse, RockBody_parse. use_gets. by destruct r.
Qed.

End encoding.

(** * Transfers *)

(** A peer that takes [n] bytes in the given pieces. *)
Definition takes_all (takes : list Z) (n : nat) : Prop :=
  Forall (fun r => 0 < r) takes /\ foldr Z.add 0 takes = Z.of_nat n.

Lemma u64_small v : 0 <= v < 2 ^ 63 -> u64 v = v.
Proof. intros. apply wrap_small. unfold in_unsigned. lia. Qed.

Lemma takes_nonneg takes : Forall (fun r => 0 < r) takes -> 0 <= foldr Z.add 0 takes.
Proof. induction 1; simpl; lia. Qed.

Lemma writeFixSize_loop_good takes data len offset left sent :
  Forall (fun r => 0 < r) takes -> foldr Z.add 0 takes = left -> 0 <= offset ->
  offset + left = Z.of_nat (String.length data) -> Z.of_nat (String.length data) < 2 ^ 63 ->
  Srv.writeFixSize_loop takes data len offset left sent
  = Ok (i32 len, (sent ++ str_drop (Z.to_nat offset) data)%string).
Proof.
  intros Ht. revert offset left sent. induction Ht as [| r takes Hr Ht IH]; intros offset left sent Hl Ho Hsum Hb; simpl in Hl.
  - subst left. simpl. rewrite str_drop_ge by lia. by rewrite str_app_nil.
  - pose proof (takes_nonneg takes Ht). cbn [Srv.writeFixSize_loop].
    rewrite (proj2 (Z.eqb_neq left 0)), (u64_small r), (proj2 (Z.eqb_neq r 0)) by lia.
    rewrite !u64_small by lia. rewrite IH by lia. do 2 f_equal. rewrite str_app_assoc. f_equal.
    replace (Z.to_nat (offset + r)) with (Z.to_nat offset + Z.to_nat r)%nat by lia.
    rewrite <- (str_drop_drop (Z.to_nat r) (Z.to_nat offset)). apply take_drop_str.
Qed.

Lemma writeFixSize_good takes data :
  takes_all takes (String.length data) -> Z.of_nat (String.length data) < 2 ^ 63 ->
  Srv.writeFixSize takes data = Ok (i32 (Z.of_nat (String.length data)), data).
Proof. intros [Ht Hs] Hb. unfold Srv.writeFixSize. by rewrite writeFixSize_loop_good by (done || lia). Qed.

(** The bytes behind the iovecs of a buffer that was written. *)
Lemma iov_inputs_gather ba iovs bs :
  gather ba iovs = Some <$> bs -> exists v, iov_inputs ba iovs = Ok v /\ mjoin v = bs.
Proof.
  revert bs. induction iovs as [| iov iovs IH]; intros bs H.
  - destruct bs; [by exists [] | done].
  - change (gather ba (iov :: iovs)) with (iov_bytes ba iov ++ gather ba iovs) in H.
    symmetry in H. apply fmap_app_inv in H as (b1 & b2 & H1 & H2 & ->).
    destruct (IH b2 ltac:(done)) as (v & Hv & Hj). exists (b1 :: v). simpl.
    rewrite H1, defined_fmap, bind_Ok, Hv, bind_Ok. split; [done |]. simpl. by rewrite Hj.
Qed.

(** Everything from the cursor on, as inputs. *)
Lemma read_inputs ba bs len :
  inv ba -> view ba = Some <$> bs -> (len <= getReadSize ba)%nat ->
  exists iovs v, getReadBuffers ba len = Ok (len, iovs) /\ iov_inputs ba iovs = Ok v
    /\ mjoin v = slice (m_position ba) len bs.
Proof.
  intros Hi Hv Hlen. destruct (getReadBuffers_spec ba len Hi) as (iovs & E & Hc).
  rewrite Nat.min_l in E, Hc by done. pose proof (gather_contig _ (inv_base _ Hi) ba _ _ _ _ eq_refl Hc) as Hg.
  assert (Hs : slice (m_position ba) len (contents ba) = Some <$> slice (m_position ba) len bs).
  { unfold getReadSize in Hlen. pose proof (inv_pos _ Hi).
    rewrite <- (slice_take _ _ (m_size ba)) by lia. fold (view ba). rewrite Hv. unfold slice.
    by rewrite <- fmap_drop, <- fmap_take. }
  rewrite Hs in Hg. destruct (iov_inputs_gather ba iovs _ Hg) as (v & Ev & Hj). eauto.
Qed.

Lemma writeFixSize_ba_good takes ba bs len left sent :
  inv ba -> view ba = Some <$> bs -> Forall (fun r => 0 < r) takes -> foldr Z.add 0 takes = left ->
  left = Z.of_nat (getReadSize ba) -> Z.of_nat (length bs) < 2 ^ 63 ->
  exists ba', writeFixSize_ba takes ba len left sent = Ok (i32 len, ba', sent ++ drop (m_position ba) bs)
    /\ m_size ba' = m_size ba.
Proof.
  intros Hi Hv Ht. revert ba left sent Hi Hv.
  induction Ht as [| r takes Hr Ht IH]; intros ba left sent Hi Hv Hl Hrs Hb; simpl in Hl.
  all: pose proof (f_equal length Hv) as Hlen; rewrite length_view, length_fmap in Hlen by done.
  all: pose proof (inv_pos _ Hi); unfold getReadSize in Hrs.
  - subst left. simpl. rewrite drop_ge by lia. rewrite app_nil_r. eauto.
  - pose proof (takes_nonneg takes Ht). cbn [writeFixSize_ba].
    destruct (read_inputs ba bs (Z.to_nat left) Hi Hv) as (iovs & v & -> & Ev & Hj); [unfold getReadSize; lia |].
    rewrite (proj2 (Z.eqb_neq left 0)), bind_Ok, Ev, bind_Ok, (proj2 (Z.ltb_lt 0 r)) by lia.
    destruct (seek_spec ba (m_position ba + Z.to_nat r) Hi ltac:(lia)) as (b1 & -> & Hi1 & _ & Ha1).
    unfold abs, f_seek in Ha1. simpl in Ha1. injection Ha1 as Hv1 Hp1.
    assert (Hsz : m_size b1 = m_size ba) by (apply (f_equal length) in Hv1; by rewrite !length_view in Hv1).
    rewrite bind_Ok, u64_small, (proj2 (Z.eqb_neq r 0)), (u64_small (left - r)) by lia.
    destruct (IH b1 (left - r) (sent ++ take (Z.to_nat r) (mjoin v))) as (b2 & -> & Hs2);
      [done | congruence | lia | unfold getReadSize; lia | done |].
    exists b2. split; [| congruence]. do 2 f_equal. rewrite Hp1, <- app_assoc, Hj. f_equal.
    unfold slice. rewrite take_take, Nat.min_l by lia. rewrite <- drop_drop. apply take_drop.
Qed.

(** Stores one behind the other, from an offset on. *)
Fixpoint consec (o : Z) (stored : list (Z * string)) : Prop :=
  match stored with
  | [] => True
  | (o', s) :: stored => o' = o /\ consec (o + Z.of_nat (String.length s)) stored
  end.

Lemma consec_snoc o stored s :
  consec o stored -> consec o (stored ++ [(o + Z.of_nat (String.length (Srv.contents stored)), s)]).
Proof.
  revert o. induction stored as [| [o' t] stored IH]; intros o; simpl; [intros _; split; [lia | done] |].
  intros [-> H]. split; [done |]. specialize (IH _ H). rewrite length_str_app, Nat2Z.inj_add, Z.add_assoc. exact IH.
Qed.

Lemma fill_consec bs o stored :
  consec o stored -> 0 <= o -> o + Z.of_nat (String.length (Srv.contents stored)) <= Z.of_nat (length bs) ->
  fill bs stored = Ok (overwrite (Z.to_nat o) (bytes_of (Srv.contents stored)) bs).
Proof.
  revert bs o. induction stored as [| [o' s] stored IH]; intros bs o Hc Ho Hle; simpl in *; [by rewrite overwrite_nil |].
  destruct Hc as [-> Hc]. rewrite length_str_app in Hle. destruct (String.eqb s "") eqn:E.
  { apply String.eqb_eq in E as ->. simpl in *. rewrite (IH bs (o + 0)) by (done || lia). by rewrite Z.add_0_r. }
  rewrite (proj2 (Z.leb_le 0 o)), (proj2 (Z.leb_le _ _)) by lia. simpl.
  assert (Hl : length (overwrite (Z.to_nat o) (bytes_of s) bs) = length bs)
    by (apply length_overwrite; rewrite length_bytes_of; lia).
  rewrite (IH _ _ Hc) by (rewrite ?Hl; lia). rewrite bytes_of_app. f_equal.
  replace (Z.to_nat (o + Z.of_nat (String.length s))) with (Z.to_nat o + length (bytes_of s))%nat
    by (rewrite length_bytes_of; lia).
  apply overwrite_overwrite_app. lia.
Qed.

Lemma readFixSize_consec fuel n len offset left stored :
  Srv.good_net n -> 0 <= offset -> offset + left < 2 ^ 63 -> 0 <= left ->
  (Z.to_nat left <= String.length (Srv.flat n))%nat -> (Z.to_nat left <= fuel)%nat ->
  consec 0 stored -> offset = Z.of_nat (String.length (Srv.contents stored)) ->
  exists stored' n', Srv.readFixSize_loop fuel n len offset left stored = Ok (i32 len, stored', n')
    /\ consec 0 stored'
    /\ Srv.contents stored' = (Srv.contents stored ++ str_take (Z.to_nat left) (Srv.flat n))%string
    /\ Srv.good_net n' /\ Srv.flat n' = str_drop (Z.to_nat left) (Srv.flat n).
Proof.
  revert n offset left stored. induction fuel as [| fuel IH]; intros n offset left stored Hg Ho Hb Hl Hlen Hf Hc Hoff.
  - assert (left = 0) as -> by lia. simpl. exists stored, n. simpl. by rewrite str_app_nil.
  - cbn [Srv.readFixSize_loop]. destruct (Z.eqb_spec left 0) as [-> | Hne].
    { exists stored, n. simpl. by rewrite str_app_nil. }
    destruct (Srv.read_good n (Z.to_nat left) Hg ltac:(lia)) as (b & n1 & -> & Hbl & Hg1 & Hfl).
    { apply str_nonempty. lia. }
    rewrite u64_small by lia. destruct (Z.eqb_spec (Z.of_nat (String.length b)) 0); [lia |].
    rewrite !u64_small by lia. rewrite Hfl, length_str_app in Hlen.
    destruct (IH n1 (offset + Z.of_nat (String.length b)) (left - Z.of_nat (String.length b)) (stored ++ [(offset, b)]))
      as (st & n' & E & Hc' & Hct & Hg' & Hf'); try done; try lia.
    { rewrite Hoff. by apply (consec_snoc 0). }
    { rewrite Srv.contents_snoc, length_str_app. lia. }
    exists st, n'. split; [exact E |]. split; [done |].
    rewrite Hct, Srv.contents_snoc, Hf', Hfl, str_take_app, str_drop_app.
    rewrite (str_take_ge _ b), (str_drop_ge _ b) by lia. rewrite str_app_assoc.
    replace (Z.to_nat left - String.length b)%nat with (Z.to_nat (left - Z.of_nat (String.length b))) by lia. done.
Qed.

Lemma readFixSize_ba_zero fuel n ba len :
  inv ba -> Srv.good_net n ->
  exists ba' n', readFixSize_ba fuel n ba len 0 = Ok (i32 len, ba', n') /\ inv ba' /\ same_shape ba ba'
    /\ abs ba' = f_write (abs ba) (Some <$> take (Z.to_nat 0) (bytes_of (Srv.flat n)))
    /\ Srv.good_net n' /\ Srv.flat n' = str_drop (Z.to_nat 0) (Srv.flat n).
Proof.
  intros Hi Hg. exists ba, n. split_and!; try done; [by destruct fuel |].
  unfold f_write, abs. simpl. by rewrite overwrite_nil, Nat.add_0_r.
Qed.

(** Reading into a byte array appends what comes. *)
Lemma readFixSize_ba_good fuel n ba len left :
  inv ba -> Srv.good_net n -> 0 <= left < 2 ^ 63 ->
  (Z.to_nat left <= String.length (Srv.flat n))%nat -> (Z.to_nat left <= fuel)%nat ->
  exists ba' n', readFixSize_ba fuel n ba len left = Ok (i32 len, ba', n') /\ inv ba' /\ same_shape ba ba'
    /\ abs ba' = f_write (abs ba) (Some <$> take (Z.to_nat left) (bytes_of (Srv.flat n)))
    /\ Srv.good_net n' /\ Srv.flat n' = str_drop (Z.to_nat left) (Srv.flat n).
Proof.
  revert n ba left. induction fuel as [| fuel IH]; intros n ba left Hi Hg Hb Hlen Hf.
  - assert (left = 0) as -> by lia. by apply readFixSize_ba_zero.
  - destruct (Z.eq_dec left 0) as [-> | Hne]; [by apply readFixSize_ba_zero |]. cbn [readFixSize_ba].
    rewrite (proj2 (Z.eqb_neq _ _) Hne).
    destruct (Srv.read_good n (Z.to_nat left) Hg ltac:(lia)) as (b & n1 & -> & Hbl & Hg1 & Hfl).
    { apply str_nonempty. lia. }
    rewrite (proj2 (Z.ltb_lt 0 _)) by lia.
    destruct (recv_into_spec ba (Z.to_nat left) (Some <$> bytes_of b) Hi) as (b1 & -> & Hi1 & Hs1 & Ha1).
    { rewrite length_fmap, length_bytes_of. lia. }
    rewrite bind_Ok, u64_small by lia. rewrite (proj2 (Z.eqb_neq _ 0)), (u64_small (left - _)) by lia.
    rewrite Hfl, length_str_app in Hlen.
    destruct (IH n1 b1 (left - Z.of_nat (String.length b))) as (b2 & n' & -> & Hi2 & Hs2 & Ha2 & Hg' & Hf');
      try done; try lia.
    exists b2, n'. split_and!; try done; [by eapply same_shape_trans | |].
    + rewrite Ha2, Ha1, f_write_app, <- fmap_app; [| simpl; rewrite length_view by done; apply (inv_pos _ Hi)].
      rewrite Hfl, bytes_of_app. do 2 f_equal. rewrite take_app, (take_ge (bytes_of b)), length_bytes_of by (rewrite length_bytes_of; lia).
      do 2 f_equal. lia.
    + rewrite Hf', Hfl, str_drop_app, (str_drop_ge _ b) by lia. simpl. f_equal. lia.
Qed.

(** * Compression *)

Section gzip.
Context (L : zlib) `{!ZlibLaws L}.

Definition gz_stream (enc : bool) : zs L := snd (z_init L enc (-1) 31 8 0).

(** What a new stream emits for the given pieces and the final flush. *)
Definition gz_run (enc : bool) (v : list (list Z)) : list Z :=
  let '(o, z) := feed_all L enc (gz_stream enc) v false in o ++ fst (feed_all L enc z [[]] true).

(** zlib can be initialised, and decompression inverts compression however
    input and compressed data are cut into pieces. *)
Class GzipLaws := {
  gz_ready enc : fst (z_init L enc (-1) 31 8 0) = Z_OK;
  gz_inverse cs ds : mjoin ds = gz_run true cs -> gz_run false ds = mjoin cs;
  gz_bytes cs : Forall is_byte (mjoin cs) -> Forall is_byte (gz_run true cs);
  gz_nonempty cs : mjoin cs <> [] -> gz_run true cs <> []
}.

Context `{!GzipLaws}.

Lemma write_all_spec ba bs :
  inv ba -> exists ba', write_all ba bs = Ok ba' /\ inv ba' /\ same_shape ba ba'
    /\ abs ba' = f_write (abs ba) (Some <$> mjoin bs).
Proof.
  revert ba. induction bs as [| b bs IH]; intros ba Hi; simpl.
  - exists ba. split_and!; try done. unfold f_write, abs. simpl. by rewrite overwrite_nil, Nat.add_0_r.
  - destruct (write_bytes_spec ba b Hi) as (b1 & -> & Hi1 & Hs1 & Ha1). rewrite bind_Ok.
    destruct (IH b1 Hi1) as (b2 & -> & Hi2 & Hs2 & Ha2). exists b2.
    split_and!; try done; [by eapply same_shape_trans |].
    rewrite Ha2, Ha1, fmap_app, f_write_app; [done |]. simpl. rewrite length_view by done. apply (inv_pos _ Hi).
Qed.

Lemma getByteArray_holds (s : ZlibStream L) :
  exists ba, getByteArray s = Ok ba /\ holds ba (getResult s).
Proof.
  unfold getByteArray. destruct (write_all_spec (new_ByteArray 4096) (m_buffs s)) as (b1 & -> & Hi1 & [Hb1 _] & Ha1);
    [apply new_inv; lia |].
  rewrite bind_Ok. rewrite f_write_new in Ha1. by apply holds_rewound.
Qed.

(** A whole buffer through a new stream: write everything, flush, collect. *)
Lemma gz_through fuel enc ba bs :
  holds ba bs -> Z.of_nat (length bs) < 2 ^ 63 ->
  (forall v, mjoin v = bs -> (length (gz_run enc v) < fuel)%nat) ->
  exists v z1 z2 z3 ba', mjoin v = bs /\ CreateGzip L enc 4096 = Ok (Some z1)
    /\ write_ba L fuel z1 ba (-1) = Ok (Z_OK, z2) /\ flush L fuel z2 = Ok (Z_OK, z3)
    /\ getByteArray z3 = Ok ba' /\ holds ba' (gz_run enc v).
Proof.
  intros Hh Hb Hf. pose proof (holds_size ba bs Hh) as [_ Hrs]. destruct Hh as (Hi & Hv & Hp & _).
  destruct (read_inputs ba bs (length bs) Hi Hv) as (iovs & v & Er & Ev & Hj); [lia |].
  unfold slice in Hj. rewrite Hp, drop_0, take_ge in Hj by done. specialize (Hf v Hj).
  unfold gz_run in Hf. destruct (feed_all L enc (gz_stream enc) v false) as [o z] eqn:Eo.
  destruct (feed_all L enc z [[]] true) as [o2 z'] eqn:Eo2. cbn [fst] in Hf. rewrite length_app in Hf.
  set (s0 := {| m_zstream := gz_stream enc; m_buffSize := 4096; m_encode := enc; m_buffs := [] |} : ZlibStream L).
  assert (Ec : CreateGzip L enc 4096 = Ok (Some s0)).
  { unfold CreateGzip, Create, init, s0, gz_stream. simpl. pose proof (gz_ready enc) as Hr.
    change (15 + 16) with 31. destruct (z_init L enc (-1) 31 8 0) as [ret z0]. simpl in Hr |- *. by subst ret. }
  destruct (code_spec L fuel s0 v false) as (s1 & E1 & Hc1 & Hz1 & Hr1 & He1 & Hn1);
    [simpl; lia | by split | unfold room_for; simpl; rewrite Eo; simpl; lia |].
  simpl in Hz1, Hr1, He1, Hn1. rewrite Eo in Hz1, Hr1. simpl in Hz1, Hr1.
  destruct (code_spec L fuel s1 [[]] true) as (s2 & E2 & Hc2 & Hz2 & Hr2 & He2 & Hn2);
    [rewrite Hn1; lia | by rewrite Hn1 | unfold room_for; rewrite He1, Hz1, Eo2; simpl; lia |].
  rewrite He1, Hz1, Eo2 in Hr2. cbn [fst] in Hr2.
  destruct (getByteArray_holds s2) as (ba' & Eb & Hb').
  exists v, s0, s1, s2, ba'. split_and!; try done.
  - unfold write_ba. change (u64 (-1)) with UINT64_MAX. rewrite Z.min_r by (unfold UINT64_MAX; lia).
    rewrite Nat2Z.id, Hrs, Er, bind_Ok, Ev, bind_Ok. done.
  - unfold gz_run. rewrite Eo, Eo2. cbn [fst]. rewrite Hr2, Hr1 in Hb'. done.
Qed.

Lemma gzip_holds fuel ba bs :
  holds ba bs -> Z.of_nat (length bs) < 2 ^ 63 ->
  (forall v, mjoin v = bs -> (length (gz_run true v) < fuel)%nat) ->
  exists v ba', mjoin v = bs /\ gzip L fuel ba = Ok (inr ba') /\ holds ba' (gz_run true v).
Proof.
  intros Hh Hb Hf. destruct (gz_through fuel true ba bs Hh Hb Hf) as (v & z1 & z2 & z3 & ba' & Hv & E1 & E2 & E3 & E4 & Hh').
  exists v, ba'. split_and!; try done. unfold gzip. rewrite E1. simpl. rewrite E2. simpl. rewrite E3. simpl. by rewrite E4.
Qed.

Lemma ungzip_holds fuel ba cs :
  holds ba (gz_run true cs) -> Z.of_nat (length (gz_run true cs)) < 2 ^ 63 -> (length (mjoin cs) < fuel)%nat ->
  exists ba', ungzip L fuel ba = Ok (Some ba') /\ holds ba' (mjoin cs).
Proof.
  intros Hh Hb Hf. destruct (gz_through fuel false ba _ Hh Hb) as (v & z1 & z2 & z3 & ba' & Hv & E1 & E2 & E3 & E4 & Hh').
  { intros v Hv. by rewrite (gz_inverse cs v Hv). }
  rewrite (gz_inverse cs v Hv) in Hh'. exists ba'. split; [| done].
  unfold ungzip. rewrite E1. simpl. rewrite E2. simpl. rewrite E3. simpl. by rewrite E4.
Qed.

End gzip.

(** * Frames *)

Section frames.
Context (host : Z).

Lemma swap_length_involutive v : in_signed 32 v -> swap_length host (swap_length host v) = v.
Proof.
  intros Hv. unfold swap_length. destruct (host =? SYLAR_BIG_ENDIAN); [done |]. unfold byteswap_signed.
  change (8 * Z.of_nat 4) with 32. rewrite wrap_to_signed by lia.
  rewrite (wrap_small 32 (bswap 4 _)) by apply (bswap_range 4).
  rewrite bswap_involutive by (apply (wrap_range 32); lia). by rewrite to_signed_wrap.
Qed.

Lemma swap_length_range v : in_signed 32 v -> in_signed 32 (swap_length host v).
Proof.
  intros Hv. unfold swap_length. destruct (host =? SYLAR_BIG_ENDIAN); [done |].
  unfold byteswap_signed. by apply to_signed_range.
Qed.

(** The header of a frame with a body of [len] bytes. *)
Definition header (fl len : Z) : RockMsgHeader :=
  {| magic := [0xab; 0xcd]; version := 1; flag := fl; h_length := swap_length host len |}.

Lemma header_read_back fl len : in_signed 32 len -> header_of host (header_bytes host (header fl len)) = header fl len.
Proof.
  intros Hl. unfold header_of, header_bytes, header. simpl. f_equal.
  rewrite drop_0, mem_val_bytes by (apply (wrap_range 32); lia).
  apply to_signed_wrap; [lia |]. by apply swap_length_range.
Qed.

Lemma length_header h : length (magic h) = 2%nat -> length (header_bytes host h) = 8%nat.
Proof. intros H. unfold header_bytes. rewrite !length_app, H, length_mem_bytes. done. Qed.

Lemma header_is_bytes fl len : is_byte fl -> Forall is_byte (header_bytes host (header fl len)).
Proof.
  intros Hf. unfold header_bytes, header. simpl. unfold is_byte in *.
  do 4 (constructor; [lia |]). apply mem_bytes_bytes.
Qed.

Context (L : zlib) `{!ZlibLaws L, !GzipLaws L} (max_length gzip_min_length : Z) (fuel : nat).

(** The body of the frame: the message, or what compression makes of it. *)
Definition frame_body (m : Message) (fl : Z) (c : list Z) : Prop :=
  (fl = 0 /\ c = enc_msg host m)
  \/ (fl = 1 /\ exists v, mjoin v = enc_msg host m /\ c = gz_run L true v).

Lemma send_frame_good takes1 takes2 fl ba c :
  is_byte fl -> holds ba c -> takes_all takes1 8 -> takes_all takes2 (length c) -> c <> [] ->
  Z.of_nat (length c) + 8 < 2 ^ 31 ->
  send_frame host takes1 takes2 (header fl (Z.of_nat (length c))) ba
  = Ok (8 + Z.of_nat (length c), header_bytes host (header fl (Z.of_nat (length c))) ++ c).
Proof.
  intros Hfl Hh Ht1 [Ht2 Hs2] Hne Hb. pose proof (holds_size ba c Hh) as [Hsz Hrs].
  destruct Hh as (Hi & Hv & Hp & _). unfold send_frame.
  set (h := header fl (Z.of_nat (length c))).
  assert (Hl : String.length (string_of (header_bytes host h)) = 8%nat)
    by (rewrite length_string_of; by apply length_header).
  rewrite writeFixSize_good by (rewrite Hl; done || lia). rewrite Hl, bind_Ok.
  change (i32 (Z.of_nat 8) <=? 0) with false. cbv iota beta.
  rewrite bytes_of_string_of by (by apply header_is_bytes). rewrite Hrs.
  destruct (writeFixSize_ba_good takes2 ba c (Z.of_nat (length c)) (Z.of_nat (length c)) [])
    as (b2 & -> & Hsz2); [done | done | done | done | lia | lia |].
  rewrite bind_Ok, Hp, drop_0, app_nil_l, Hsz2, Hsz.
  assert (Hpos : 0 < Z.of_nat (length c)) by (destruct c; [done | simpl; lia]).
  unfold i32. rewrite !to_signed_small by (unfold in_signed; lia).
  by rewrite (proj2 (Z.leb_gt _ _)) by lia.
Qed.

Lemma bytes_length_pos (c : list Z) : c <> [] -> (0 < length c)%nat.
Proof. destruct c; [done | simpl; lia]. Qed.

(** Receiving eight bytes as a header. *)
Lemma header_received hb n rest :
  length hb = 8%nat -> Srv.good_net n -> (8 <= fuel)%nat -> bytes_of (Srv.flat n) = hb ++ rest ->
  exists stored n', Srv.readFixSize fuel n 8 = Ok (8, stored, n') /\ Srv.good_net n'
    /\ bytes_of (Srv.flat n') = rest /\ fill (header_bytes host new_RockMsgHeader) stored = Ok hb.
Proof.
  intros Hh Hg Hf Hn.
  assert (Hlen : (8 <= String.length (Srv.flat n))%nat) by (rewrite <- length_bytes_of, Hn, length_app; lia).
  destruct (readFixSize_consec fuel n 8 0 8 []) as (st & n' & E & Hc & Hct & Hg' & Hf'); try done; try lia.
  exists st, n'. split_and!; try done.
  - rewrite Hf', bytes_of_drop, Hn. by rewrite drop_app_length'.
  - cbn [Srv.contents String.append] in Hct. change (Z.to_nat 8) with 8%nat in Hct.
    assert (Hcl : String.length (Srv.contents st) = 8%nat) by (rewrite Hct, length_str_take; lia).
    rewrite (fill_consec _ 0) by (rewrite ?Hcl, ?length_header; done || lia).
    f_equal. rewrite Hct, bytes_of_take, Hn, take_app_length' by done.
    unfold overwrite. rewrite take_0, Nat.add_0_l, Hh, drop_ge, app_nil_r; [done |]. by rewrite length_header.
Qed.

(** Receiving a frame whose body holds a message. *)
Lemma frame_received m fl c n rest :
  valid_msg m -> (body_of m <> [] \/ length (enc_msg host m) mod 4096 <> 0)%nat ->
  frame_body m fl c -> c <> [] -> Srv.good_net n ->
  bytes_of (Srv.flat n) = header_bytes host (header fl (Z.of_nat (length c))) ++ c ++ rest ->
  (8 <= fuel)%nat -> (length c <= fuel)%nat -> (length (enc_msg host m) < fuel)%nat ->
  Z.of_nat (length c) < max_length -> Z.of_nat (length c) + 8 < 2 ^ 31 ->
  exists n', parseFrom host L max_length fuel n = Ok (Some m, n') /\ Srv.good_net n' /\ bytes_of (Srv.flat n') = rest.
Proof.
  intros Hm Hbody Hfb Hne Hg Hn Hf8 Hfc Hfm Hmax Hb. pose proof (bytes_length_pos c Hne) as Hpos.
  assert (Hfl : is_byte fl) by (unfold is_byte; destruct Hfb as [[-> _] | [-> _]]; lia).
  assert (Hr : in_signed 32 (Z.of_nat (length c))) by (unfold in_signed; lia).
  destruct (header_received _ n (c ++ rest) (length_header (header fl (Z.of_nat (length c))) eq_refl) Hg Hf8 Hn) as (st & n1 & E1 & Hg1 & Hn1 & E2).
  unfold parseFrom. rewrite E1, bind_Ok. change (8 <=? 0) with false. cbv iota beta.
  rewrite E2, bind_Ok, header_read_back by done. unfold parse_frame. simpl magic. simpl version. simpl flag. simpl h_length.
  rewrite bool_decide_true by done. simpl negb. cbv iota beta.
  rewrite swap_length_involutive by done. unfold u32. rewrite wrap_small by (unfold in_unsigned; lia).
  rewrite (proj2 (Z.leb_gt _ _)), u64_small by lia.
  destruct (readFixSize_ba_good fuel n1 (new_ByteArray 4096) (Z.of_nat (length c)) (Z.of_nat (length c)))
    as (b1 & n2 & -> & Hi1 & [Hb1 _] & Ha1 & Hg2 & Hf2); [apply new_inv; lia | done | lia | | lia |].
  { rewrite Nat2Z.id, <- length_bytes_of, Hn1, length_app. lia. }
  rewrite bind_Ok. unfold i32. rewrite to_signed_small, (proj2 (Z.leb_gt _ _)) by (done || lia).
  rewrite Nat2Z.id, Hn1, take_app_length, f_write_new in Ha1.
  destruct (holds_rewound b1 c Hi1) as (b2 & -> & Hh2); [done | done |]. rewrite bind_Ok.
  exists n2. split_and!; [| done | by rewrite Hf2, bytes_of_drop, Hn1, Nat2Z.id, drop_app_length].
  destruct Hfb as [[-> ->] | [-> (v & Hv & ->)]]; simpl.
  - by rewrite (parse_body_holds host b2 m).
  - destruct (ungzip_holds L fuel b2 v Hh2) as (b3 & -> & Hh3); [lia | by rewrite Hv |]. simpl.
    rewrite Hv in Hh3. by rewrite (parse_body_holds host b3 m).
Qed.

End frames.

Lemma enc_msg_ne host m : enc_msg host m <> [].
Proof.
  intros H. apply (f_equal length) in H. unfold enc_msg, enc_head in H.
  rewrite !length_app, length_mem_bytes in H. simpl in H. lia.
Qed.

(** The frame that [serializeTo] makes of a message. *)
Lemma frame_sent host L `{!ZlibLaws L, !GzipLaws L} gzip_min_length fuel m :
  valid_msg m -> Z.of_nat (length (enc_msg host m)) + 8 < 2 ^ 31 ->
  (forall v, mjoin v = enc_msg host m ->
     (length (gz_run L true v) < fuel)%nat /\ Z.of_nat (length (gz_run L true v)) + 8 < 2 ^ 31) ->
  exists fl c, frame_body host L m fl c /\ c <> []
    /\ (if gzip_min_length <=? Z.of_nat (length (enc_msg host m)) then fl = 1 else fl = 0)
    /\ forall takes1 takes2, takes_all takes1 8 -> takes_all takes2 (length c) ->
       serializeTo host L gzip_min_length fuel takes1 takes2 m
       = Ok (8 + Z.of_nat (length c), header_bytes host (header host fl (Z.of_nat (length c))) ++ c).
Proof.
  intros Hm Hb Hz. destruct (toByteArray_holds host m Hm) as (ba & b1 & E1 & E2 & Hh).
  pose proof (holds_size b1 _ Hh) as [Hsz _]. pose proof (enc_msg_ne host m) as Hne.
  assert (Hu : u32 (i32 (Z.of_nat (m_size b1))) = Z.of_nat (length (enc_msg host m))).
  { rewrite Hsz. unfold u32, i32. rewrite wrap_to_signed by lia. apply wrap_small. unfold in_unsigned. lia. }
  destruct (gzip_min_length <=? Z.of_nat (length (enc_msg host m))) eqn:Eg.
  - destruct (gzip_holds L fuel b1 _ Hh) as (v & b2 & Hv & E3 & Hh2); [lia | intros v Hv; by apply Hz |].
    destruct (Hz v Hv) as [_ Hb2]. pose proof (holds_size b2 _ Hh2) as [Hsz2 _].
    assert (Hne2 : gz_run L true v <> []) by (refine (gz_nonempty L v _); by rewrite Hv).
    exists 1, (gz_run L true v). split; [right; eauto |]. split; [done |]. split; [done |].
    intros t1 t2 H1 H2. unfold serializeTo. rewrite E1, bind_Ok. simpl of_ptr. rewrite bind_Ok, E2, bind_Ok, Hu, Eg, E3.
    rewrite !bind_Ok, Hsz2. unfold i32. rewrite to_signed_small by (unfold in_signed; lia).
    by apply send_frame_good.
  - exists 0, (enc_msg host m). split; [by left |]. split; [done |]. split; [done |].
    intros t1 t2 H1 H2. unfold serializeTo. rewrite E1, bind_Ok. simpl of_ptr. rewrite bind_Ok, E2, bind_Ok, Hu, Eg.
    rewrite bind_Ok, Hsz. unfold i32. rewrite to_signed_small by (unfold in_signed; lia).
    by apply send_frame_good.
Qed.

(** The wire does not show the byte order of the host. *)
Definition is_host (h : Z) : Prop := h = SYLAR_LITTLE_ENDIAN \/ h = SYLAR_BIG_ENDIAN.

Lemma header_network_order h1 h2 fl len :
  is_host h1 -> is_host h2 -> header_bytes h1 (header h1 fl len) = header_bytes h2 (header h2 fl len).
Proof.
  assert (H : forall h, is_host h -> header_bytes h (header h fl len)
              = [0xab; 0xcd; 1; fl] ++ rev (le_bytes 4 (wrap 32 len)));
    [| intros H1 H2; by rewrite !H by done].
  intros h [-> | ->]; [| reflexivity]. change (header_bytes SYLAR_LITTLE_ENDIAN (header SYLAR_LITTLE_ENDIAN fl len))
    with ([0xab; 0xcd; 1; fl] ++ le_bytes 4 (wrap 32 (byteswap_signed 4 len))). f_equal.
  unfold byteswap_signed. change (8 * Z.of_nat 4) with 32. rewrite wrap_to_signed by lia.
  rewrite (wrap_small 32 (bswap 4 _)) by apply (bswap_range 4). apply le_bytes_bswap.
Qed.

Lemma enc_msg_host h1 h2 m : enc_msg h1 m = enc_msg h2 m.
Proof.
  unfold enc_msg, enc_head. pose proof (type_range m) as Ht. unfold in_unsigned in Ht.
  by rewrite !mem_bytes_1.
Qed.

(** C20: a message that one side sends the other side receives: on hosts of any
    byte order, compressed or not, whatever pieces the peer takes and
    however the network cuts the stream; what follows the frame stays on the
    wire for the next message. The conditions on the message:
    - its numbers have 32 bits and its texts are bytes ([valid_msg]);
    - the result text of a response is not empty ([valid_msg]);
    - its body is not empty, or its encoding does not end where a node of the
      buffer ends, at a multiple of 4096 bytes: otherwise the receiver follows a
      null pointer ([empty_body_at_node_end]);
    - its encoding, and what zlib makes of it, are shorter than the maximal
      length that the receiver is configured with (a longer frame is refused,
      [bad_header_refused]), and than 2^31 bytes with the header.
    The fuel exceeds both lengths, so that no loop is cut short; zlib keeps its
    documented laws. *)
Theorem rock_roundtrip (host host' : Z) (L : zlib) (ZL : ZlibLaws L) (GL : GzipLaws L)
    (max_length gzip_min_length : Z) (fuel : nat) (m : Message) :
  is_host host -> is_host host' -> valid_msg m ->
  (body_of m <> [] \/ length (enc_msg host m) mod 4096 <> 0)%nat ->
  Z.of_nat (length (enc_msg host m)) + 8 < 2 ^ 31 ->
  Z.of_nat (length (enc_msg host m)) < max_length ->
  (8 <= fuel)%nat -> (length (enc_msg host m) < fuel)%nat ->
  (forall v, mjoin v = enc_msg host m ->
     (length (gz_run L true v) < fuel)%nat /\ Z.of_nat (length (gz_run L true v)) + 8 < 2 ^ 31
     /\ Z.of_nat (length (gz_run L true v)) < max_length) ->
  exists sent, forall takes1 takes2 n rest,
    takes_all takes1 8 -> takes_all takes2 (length sent - 8) ->
    Srv.good_net n -> bytes_of (Srv.flat n) = sent ++ rest ->
    serializeTo host L gzip_min_length fuel takes1 takes2 m = Ok (Z.of_nat (length sent), sent)
    /\ exists n', parseFrom host' L max_length fuel n = Ok (Some m, n')
       /\ Srv.good_net n' /\ bytes_of (Srv.flat n') = rest.
Proof.
  intros Hh1 Hh2 Hm Hbody Hb Hmax Hf8 Hfm Hz.
  destruct (frame_sent host L gzip_min_length fuel m Hm Hb) as (fl & c & Hfb & Hne & _ & Hsend).
  { intros v Hv. specialize (Hz v Hv). tauto. }
  assert (Hc : (length c <= fuel)%nat /\ Z.of_nat (length c) < max_length /\ Z.of_nat (length c) + 8 < 2 ^ 31).
  { destruct Hfb as [[_ ->] | [_ (v & Hv & ->)]]; [lia |]. specialize (Hz v Hv). lia. }
  pose proof (length_header host (header host fl (Z.of_nat (length c))) eq_refl) as Hh.
  exists (header_bytes host (header host fl (Z.of_nat (length c))) ++ c).
  intros t1 t2 n rest H1 H2 Hg Hn. rewrite length_app, Hh in *.
  replace (8 + length c - 8)%nat with (length c) in H2 by lia. split.
  - rewrite Hsend by done. do 2 f_equal. lia.
  - rewrite <- app_assoc, (header_network_order host host') in Hn by done. destruct Hc as (Hc1 & Hc2 & Hc3).
    unfold frame_body in Hfb. rewrite (enc_msg_host host host') in *.
    by apply (frame_received host' L max_length fuel m fl c).
Qed.

(** A zlib that copies. *)
Definition copy_zlib : zlib := {|
  zs := unit;
  z_init _ _ _ _ _ := (Z_OK, tt);
  z_step _ _ inp room _ := (Z_OK, tt, drop room inp, take room inp)
|}.

#[global] Instance copy_laws : ZlibLaws copy_zlib.
Proof.
  refine {| z_feed _ _ inp _ := (inp, tt : zs copy_zlib) |}.
  intros enc z inp fin room. simpl. split; [done |]. split; [done |]. by destruct (length inp <? room)%nat.
Defined.

Lemma copy_run enc v : gz_run copy_zlib enc v = mjoin v.
Proof.
  unfold gz_run. assert (H : forall z, feed_all copy_zlib enc z v false = (mjoin v, tt)).
  { induction v as [| i v IH]; intros []; [done |]. simpl. by rewrite IH. }
  rewrite H. simpl. by rewrite app_nil_r.
Qed.

#[global] Instance copy_gzip : GzipLaws copy_zlib.
Proof.
  split.
  - done.
  - intros cs ds H. rewrite copy_run in *. done.
  - intros cs H. by rewrite copy_run.
  - intros cs H. by rewrite copy_run.
Qed.

Definition response0 : Message := MResponse
  {| rs_sn := 7; rs_cmd := 300; rs_result := 200; rs_resultStr := [111; 107]; rs_body := [1; 2; 3; 4; 5; 6] |}.

Lemma rock_roundtrip_witness :
  exists sent, forall takes1 takes2 n rest,
    takes_all takes1 8 -> takes_all takes2 (length sent - 8) ->
    Srv.good_net n -> bytes_of (Srv.flat n) = sent ++ rest ->
    serializeTo 1 copy_zlib 10 100 takes1 takes2 response0 = Ok (Z.of_nat (length sent), sent)
    /\ exists n', parseFrom 2 copy_zlib (2 ^ 26) 100 n = Ok (Some response0, n')
       /\ Srv.good_net n' /\ bytes_of (Srv.flat n') = rest.
Proof.
  apply (rock_roundtrip 1 2 copy_zlib copy_laws copy_gzip (2 ^ 26) 10 100 response0).
  - by left.
  - by right.
  - split; simpl; unfold in_unsigned, str_ok, slen, is_byte; simpl.
    + split_and!; try done; try lia; repeat constructor; lia.
    + split; [lia |]. repeat constructor; lia.
  - by left.
  - vm_compute. done.
  - vm_compute. done.
  - lia.
  - vm_compute. lia.
  - intros v Hv. rewrite copy_run, Hv. vm_compute. split_and!; lia || done.
Defined.

(** C38: a frame with a wrong magic number, another version than 1, or a length
    of at least the maximum is refused after its eight header bytes, without
    reading further. *)
Theorem bad_header_refused (host : Z) (L : zlib) (max_length : Z) (fuel : nat) (hb : list Z) (n : list Srv.event)
    (rest : list Z) :
  length hb = 8%nat -> Srv.good_net n -> (8 <= fuel)%nat -> bytes_of (Srv.flat n) = hb ++ rest ->
  (let h := header_of host hb in
   magic h <> s_rock_magic \/ version h <> 1 \/ max_length <= u32 (swap_length host (h_length h))) ->
  exists n', parseFrom host L max_length fuel n = Ok (None, n') /\ bytes_of (Srv.flat n') = rest.
Proof.
  intros Hh Hg Hf Hn Hbad. destruct (header_received host fuel hb n rest Hh Hg Hf Hn) as (st & n1 & E1 & _ & Hn1 & E2).
  exists n1. split; [| done]. unfold parseFrom. rewrite E1, bind_Ok. change (8 <=? 0) with false. cbv iota beta.
  rewrite E2, bind_Ok. cbv zeta in Hbad. generalize dependent (header_of host hb). intros h Hbad. unfold parse_frame.
  case_bool_decide as Hmg; cbn [negb]; [| done].
  destruct (Z.eqb_spec (version h) 1); cbn [negb]; [| done].
  destruct Hbad as [? | [? | Hl]]; [done.. |]. by rewrite (proj2 (Z.leb_le _ _) Hl).
Qed.

Lemma bad_header_refused_witness :
  exists n', parseFrom 1 copy_zlib 1024 10 [Srv.Data (string_of [0xab; 0xcd; 1; 0; 0; 0; 4; 0]); Srv.Data "rest"] = Ok (None, n')
    /\ bytes_of (Srv.flat n') = bytes_of "rest".
Proof.
  apply (bad_header_refused 1 copy_zlib 1024 10 [0xab; 0xcd; 1; 0; 0; 0; 4; 0]); [reflexivity | | lia | vm_compute; reflexivity |].
  - repeat constructor; eexists; done.
  - right. right. vm_compute. discriminate.
Defined.

(** A response with an empty body whose encoding fills the buffer's nodes
    exactly makes the receiver dereference a null pointer. *)
Lemma empty_body_at_node_end :
  let m := MResponse {| rs_sn := 0; rs_cmd := 0; rs_result := 0; rs_resultStr := repeat 97 4089; rs_body := [] |} in
  (ba ← toByteArray 1 m; ba ← of_ptr ba; ba ← setPosition ba 0; parse_body 1 ba) = Fail NullDeref.
Proof. vm_compute. reflexivity. Qed.

(** Only a stream error of zlib is reported: corrupt data, for which [inflate]
    returns a data error (-3), passes as success. *)
Lemma data_error_ignored (L : zlib) fuel n z z' inp inp' out :
  z_step L false z inp n false = (-3, z', inp', out) -> (length out < n)%nat ->
  code_loop L (S fuel) false n false z inp [] = Ok (Z_OK, z', [out]).
Proof.
  intros H Hl. cbn [code_loop back last]. rewrite Nat.sub_0_r, H. simpl.
  by rewrite (proj2 (Nat.eqb_neq _ _)) by lia.
Qed.
