(* ===== verification/AsyncStream.v ===== *)
(** Asynchronous streams: streams/async_socket_stream.cc with the Rock client of
    rock/rock_stream.cc. A request parks its fiber; the reader, the timer and the
    closing of the stream compete to resume it. An action is one critical
    section, one atomic update or one step of a fiber between two points where
    others can interfere, and a run is any sequence of actions. *)

From stdpp Require Import gmap.
From S2P Require Import Prelude Rock.
Import Rk.

Module As.

(** [AsyncSocketStream::Error] *)
Definition OK : Z := 0%Z.
Definition TIMEOUT : Z := (-1)%Z.
Definition IO_ERROR : Z := (-2)%Z.
Definition NOT_CONNECT : Z := (-3)%Z.

(** [AsyncSocketStream::Ctx] with the fields of [RockStream::RockCtx]; [result]
    is an unsigned field. The scheduler pointer is null or not. *)
Record Ctx := {
  sn : Z;
  timeout : Z;
  result : Z;
  timed : bool;
  scheduler : bool;
  fiber : nat;
  timer : bool;
  request : RockRequest;
  response : option RockResponse
}.

(** [RockCtx] and [RockSendCtx] in the queue. *)
Inductive SendCtx := SRequest (c : nat) | SMessage (m : Message).

(** A call of [Ctx::doRsp] under way: before it loads the scheduler, before its
    compare-and-swap, and after it won a scheduler that was not null. *)
Inductive rsp := RLoad (c : nat) | RCas (c : nat) (scd : bool) | RWon (c : nat).

(** Where [doWrite] is: at the test of the loop, waiting for the semaphore, about
    to take the queue, sending the rest of what it took, or gone. *)
Inductive wpc := WTest | WWait | WTake | WSend (l : list SendCtx) | WOut.

(** Work handed to the worker: [handleRequest] and [handleNotify]. *)
Inductive work := HandleRequest (r : RockRequest) | HandleNotify (n : RockNotify).

Record stream := {
  heap : gmap nat Ctx;
  next : nat;
  m_ctxs : gmap Z nat;
  m_queue : list SendCtx;
  m_sem : nat;
  m_waitSem : nat;
  connected : bool;
  m_autoConnect : bool;
  writer : wpc;
  reader : bool;
  armed : gset nat;          (* timers of contexts that wait *)
  expired : list nat;        (* timers that were taken, their callback to run *)
  rsps : list rsp;
  works : list work;
  resumed : list nat;        (* contexts whose fiber was scheduled *)
  sent : list SendCtx;
  calls : list (nat * bool)  (* calls of [request]: before the timer, before the queue *)
}.

(** A stream over a connected socket, before [start]. *)
Definition new_stream (is_connected autoConnect : bool) : stream :=
  {| heap := ∅; next := 0; m_ctxs := ∅; m_queue := []; m_sem := 0; m_waitSem := 2; connected := is_connected;
     m_autoConnect := autoConnect; writer := WOut; reader := false; armed := ∅; expired := []; rsps := [];
     works := []; resumed := []; sent := []; calls := [] |}.

(** Field updates. *)
Definition set_table (h : gmap nat Ctx) (n : nat) (t : gmap Z nat) (s : stream) : stream :=
  {| heap := h; next := n; m_ctxs := t; m_queue := m_queue s; m_sem := m_sem s; m_waitSem := m_waitSem s;
     connected := connected s; m_autoConnect := m_autoConnect s; writer := writer s; reader := reader s;
     armed := armed s; expired := expired s; rsps := rsps s; works := works s; resumed := resumed s; sent := sent s;
     calls := calls s |}.

Definition set_queue (q : list SendCtx) (n : nat) (s : stream) : stream :=
  {| heap := heap s; next := next s; m_ctxs := m_ctxs s; m_queue := q; m_sem := n; m_waitSem := m_waitSem s;
     connected := connected s; m_autoConnect := m_autoConnect s; writer := writer s; reader := reader s;
     armed := armed s; expired := expired s; rsps := rsps s; works := works s; resumed := resumed s; sent := sent s;
     calls := calls s |}.

Definition set_conn (c a : bool) (s : stream) : stream :=
  {| heap := heap s; next := next s; m_ctxs := m_ctxs s; m_queue := m_queue s; m_sem := m_sem s;
     m_waitSem := m_waitSem s; connected := c; m_autoConnect := a; writer := writer s; reader := reader s;
     armed := armed s; expired := expired s; rsps := rsps s; works := works s; resumed := resumed s; sent := sent s;
     calls := calls s |}.

Definition set_fibers (w : wpc) (r : bool) (n : nat) (s : stream) : stream :=
  {| heap := heap s; next := next s; m_ctxs := m_ctxs s; m_queue := m_queue s; m_sem := m_sem s;
     m_waitSem := n; connected := connected s; m_autoConnect := m_autoConnect s; writer := w; reader := r;
     armed := armed s; expired := expired s; rsps := rsps s; works := works s; resumed := resumed s; sent := sent s;
     calls := calls s |}.

Definition set_timers (a : gset nat) (e : list nat) (s : stream) : stream :=
  {| heap := heap s; next := next s; m_ctxs := m_ctxs s; m_queue := m_queue s; m_sem := m_sem s;
     m_waitSem := m_waitSem s; connected := connected s; m_autoConnect := m_autoConnect s; writer := writer s;
     reader := reader s; armed := a; expired := e; rsps := rsps s; works := works s; resumed := resumed s; sent := sent s;
     calls := calls s |}.

Definition set_rsps (r : list rsp) (s : stream) : stream :=
  {| heap := heap s; next := next s; m_ctxs := m_ctxs s; m_queue := m_queue s; m_sem := m_sem s;
     m_waitSem := m_waitSem s; connected := connected s; m_autoConnect := m_autoConnect s; writer := writer s;
     reader := reader s; armed := armed s; expired := expired s; rsps := r; works := works s; resumed := resumed s;
     sent := sent s; calls := calls s |}.

Definition set_out (w : list work) (r : list nat) (o : list SendCtx) (s : stream) : stream :=
  {| heap := heap s; next := next s; m_ctxs := m_ctxs s; m_queue := m_queue s; m_sem := m_sem s;
     m_waitSem := m_waitSem s; connected := connected s; m_autoConnect := m_autoConnect s; writer := writer s;
     reader := reader s; armed := armed s; expired := expired s; rsps := rsps s; works := w; resumed := r; sent := o;
     calls := calls s |}.

Definition set_calls (l : list (nat * bool)) (s : stream) : stream :=
  {| heap := heap s; next := next s; m_ctxs := m_ctxs s; m_queue := m_queue s; m_sem := m_sem s;
     m_waitSem := m_waitSem s; connected := connected s; m_autoConnect := m_autoConnect s; writer := writer s;
     reader := reader s; armed := armed s; expired := expired s; rsps := rsps s; works := works s; resumed := resumed s;
     sent := sent s; calls := l |}.

Definition set_ctx (c : nat) (x : Ctx) (s : stream) : stream := set_table (<[c := x]> (heap s)) (next s) (m_ctxs s) s.

(** Updates of a context. *)
Definition with_result (v : Z) (r : option RockResponse) (x : Ctx) : Ctx :=
  {| sn := sn x; timeout := timeout x; result := v; timed := timed x; scheduler := scheduler x; fiber := fiber x;
     timer := timer x; request := request x; response := r |}.
Definition with_timed (x : Ctx) : Ctx :=
  {| sn := sn x; timeout := timeout x; result := result x; timed := true; scheduler := scheduler x; fiber := fiber x;
     timer := timer x; request := request x; response := response x |}.
Definition with_scheduler (b : bool) (x : Ctx) : Ctx :=
  {| sn := sn x; timeout := timeout x; result := result x; timed := timed x; scheduler := b; fiber := fiber x;
     timer := timer x; request := request x; response := response x |}.
Definition with_timer (b : bool) (x : Ctx) : Ctx :=
  {| sn := sn x; timeout := timeout x; result := result x; timed := timed x; scheduler := scheduler x; fiber := fiber x;
     timer := b; request := request x; response := response x |}.

(** * The table and the queue *)

(** [AsyncSocketStream::getCtx] *)
Definition getCtx (n : Z) (s : stream) : option nat := m_ctxs s !! n.

(** [AsyncSocketStream::getAndDelCtx] *)
Definition getAndDelCtx (n : Z) (s : stream) : option nat * stream :=
  (m_ctxs s !! n, set_table (heap s) (next s) (delete n (m_ctxs s)) s).

(** [AsyncSocketStream::addCtx]: [insert] keeps an entry that is there. *)
Definition addCtx (n : Z) (c : nat) (s : stream) : stream :=
  match m_ctxs s !! n with
  | Some _ => s
  | None => set_table (heap s) (next s) (<[n := c]> (m_ctxs s)) s
  end.

(** [AsyncSocketStream::enqueue] *)
Definition enqueue (x : SendCtx) (s : stream) : stream :=
  set_queue (m_queue s ++ [x]) (match m_queue s with [] => S (m_sem s) | _ => m_sem s end) s.

(** [AsyncSocketStream::innerClose]: the contexts taken from the table are to be
    answered one after the other. The code sets the result of each just before its
    [doRsp]; here all results are set at once, and the calls follow in any
    interleaving: nothing else writes these results meanwhile, and a time-out
    goes by its own flag. The assertion that the caller runs on the
    stream's scheduler is not modelled, since there is one scheduler. *)
Definition set_error (h : gmap nat Ctx) (c : nat) : gmap nat Ctx :=
  match h !! c with
  | Some x => <[c := with_result (u32 IO_ERROR) (response x) x]> h
  | None => h
  end.

Definition innerClose (s : stream) : stream :=
  let cs := snd <$> map_to_list (m_ctxs s) in
  let s1 := set_queue [] (S (m_sem s)) (set_conn false (m_autoConnect s) s) in
  set_rsps (rsps s ++ (RLoad <$> cs)) (set_table (foldl set_error (heap s) cs) (next s) ∅ s1).

(** * Actions *)

Inductive label :=
  | LRequest (f : nat) (req : RockRequest) (timeout_ms : Z)   (* [RockStream::request] up to [addCtx] *)
  | LCall (i : nat)                                           (* it goes on: [addTimer], then [enqueue] *)
  | LSendMessage (m : Message)                                (* [RockStream::sendMessage] *)
  | LWriter (ok : bool)                                       (* one step of [doWrite]; [doSend] returns [ok] *)
  | LRecv (m : option Message) (handler : bool)               (* the reader gets what [parseFrom] returned *)
  | LReaderOut                                                (* the reader leaves its loop *)
  | LExpire (c : nat)                                         (* the timer manager takes an expired timer *)
  | LTimeOut                                                  (* the oldest callback taken runs [onTimeOut] *)
  | LRsp (i : nat)                                            (* the [i]-th call of [doRsp] goes on *)
  | LWork (keep : bool) (edit : RockResponse -> RockResponse) (* the worker handles the oldest work *)
  | LStart (reconnects callback : bool)                       (* [start] when both fibers are gone *)
  | LPeerClose                                                (* the socket loses its connection *)
  | LClose.                                                   (* [AsyncSocketStream::close] *)

(** [RockStream::sendMessage] *)
Definition sendMessage (m : Message) (s : stream) : stream :=
  if connected s then enqueue (SMessage m) s else s.

(** [AsyncSocketStream::close] *)
Definition close (s : stream) : stream := set_conn false false s.

(** [RockStream::request] up to [addCtx]. *)
Definition do_request (f : nat) (req : RockRequest) (timeout_ms : Z) (s : stream) : stream :=
  if connected s then
    let c := next s in
    let x := {| sn := rq_sn req; timeout := timeout_ms; result := 0%Z; timed := false; scheduler := true;
                fiber := f; timer := false; request := req; response := None |} in
    let s := addCtx (sn x) c (set_table (<[c := x]> (heap s)) (S c) (m_ctxs s) s) in
    set_calls (calls s ++ [(c, false)]) s
  else s.

(** [RockStream::request] after [addCtx]: the timer, and the queue. Then the
    fiber yields. *)
Definition step_call (i : nat) (s : stream) : option stream :=
  match calls s !! i with
  | None => None
  | Some (c, false) =>
      match heap s !! c with
      | None => None
      | Some x => Some (set_calls (<[i := (c, true)]> (calls s))
                          (set_timers (armed s ∪ {[c]}) (expired s) (set_ctx c (with_timer true x) s)))
      end
  | Some (c, true) => Some (enqueue (SRequest c) (set_calls (delete i (calls s)) s))
  end.

(** What [request] returns once its fiber is resumed. *)
Definition RockResult (x : Ctx) : Z * option RockResponse := (i32 (result x), response x).

(** One step of [AsyncSocketStream::doWrite]. *)
Definition step_writer (ok : bool) (s : stream) : option stream :=
  match writer s with
  | WOut => None
  | WTest =>
      if connected s then Some (set_fibers WWait (reader s) (m_waitSem s) s)
      else Some (set_fibers WOut (reader s) (S (m_waitSem s)) (set_queue [] (m_sem s) s))
  | WWait =>
      match m_sem s with
      | 0 => None
      | S n => Some (set_fibers WTake (reader s) (m_waitSem s) (set_queue (m_queue s) n s))
      end
  | WTake => Some (set_fibers (WSend (m_queue s)) (reader s) (m_waitSem s) (set_queue [] (m_sem s) s))
  | WSend [] => Some (set_fibers WTest (reader s) (m_waitSem s) s)
  | WSend (x :: l) =>
      if ok then Some (set_fibers (WSend l) (reader s) (m_waitSem s) (set_out (works s) (resumed s) (sent s ++ [x]) s))
      else Some (set_fibers WTest (reader s) (m_waitSem s) (innerClose s))
  end.

(** [RockStream::doRecv], then [doRsp] on the context it returns. *)
Definition step_recv (m : option Message) (handler : bool) (s : stream) : option stream :=
  if reader s && connected s then
    Some (match m with
          | None => innerClose s
          | Some (MResponse r) =>
              match getAndDelCtx (rs_sn r) s with
              | (None, _) => s
              | (Some c, s) =>
                  match heap s !! c with
                  | None => s
                  | Some x => set_rsps (rsps s ++ [RLoad c]) (set_ctx c (with_result (rs_result r) (Some r) x) s)
                  end
              end
          | Some (MRequest r) => if handler then set_out (works s ++ [HandleRequest r]) (resumed s) (sent s) s else s
          | Some (MNotify n) => if handler then set_out (works s ++ [HandleNotify n]) (resumed s) (sent s) s else s
          end)
  else None.

(** [AsyncSocketStream::onTimeOut] *)
Definition step_timeout (s : stream) : option stream :=
  match expired s with
  | [] => None
  | c :: e =>
      match heap s !! c with
      | None => None
      | Some x =>
          let s := set_table (<[c := with_timed x]> (heap s)) (next s) (delete (sn x) (m_ctxs s)) s in
          Some (set_rsps (rsps s ++ [RLoad c]) (set_timers (armed s) e s))
      end
  end.

(** [Ctx::doRsp]: the load, the compare-and-swap, and what the winner does. *)
Definition step_rsp (i : nat) (s : stream) : option stream :=
  match rsps s !! i with
  | None => None
  | Some (RLoad c) =>
      match heap s !! c with
      | None => None
      | Some x => Some (set_rsps (<[i := RCas c (scheduler x)]> (rsps s)) s)
      end
  | Some (RCas c scd) =>
      match heap s !! c with
      | None => None
      | Some x =>
          if Bool.eqb (scheduler x) scd
          then let s := set_ctx c (with_scheduler false x) s in
               Some (set_rsps (if scd then <[i := RWon c]> (rsps s) else delete i (rsps s)) s)
          else Some (set_rsps (delete i (rsps s)) s)
      end
  | Some (RWon c) =>
      match heap s !! c with
      | None => None
      | Some x =>
          let s := if timer x then set_timers (armed s ∖ {[c]}) (expired s) s else s in
          let x := with_timer false x in
          let x := if timed x then with_result (u32 TIMEOUT) (response x) x else x in
          Some (set_rsps (delete i (rsps s)) (set_out (works s) (resumed s ++ [c]) (sent s) (set_ctx c x s)))
      end
  end.

(** [RockStream::handleRequest] and [handleNotify]; [keep] is what the handler
    returns, [edit] what it makes of the response. *)
Definition step_work (keep : bool) (edit : RockResponse -> RockResponse) (s : stream) : option stream :=
  match works s with
  | [] => None
  | HandleRequest r :: w =>
      let s := sendMessage (MResponse (edit (createResponse r))) (set_out w (resumed s) (sent s) s) in
      Some (if keep then s else close s)
  | HandleNotify n :: w =>
      let s := set_out w (resumed s) (sent s) s in
      Some (if keep then s else close s)
  end.

(** [AsyncSocketStream::start]: it waits for both fibers to be gone; [reconnects]
    and [callback] are what [reconnect] and the connect callback return. *)
Definition step_start (reconnects callback : bool) (s : stream) : option stream :=
  match m_waitSem s with
  | S (S n) =>
      let s := set_fibers (writer s) (reader s) n s in
      let fail s := set_fibers (writer s) (reader s) (S (S (m_waitSem s))) (innerClose s) in
      if negb (connected s) && negb reconnects then Some (fail s)
      else let s := set_conn true (m_autoConnect s) s in
           if negb callback then Some (fail s)
           else Some (set_fibers WTest true (m_waitSem s) s)
  | _ => None
  end.

(** [AsyncSocketStream::doRead] after its loop. *)
Definition step_reader_out (s : stream) : option stream :=
  if reader s && negb (connected s)
  then let s := innerClose s in Some (set_fibers (writer s) false (S (m_waitSem s)) s)
  else None.

(** [None]: the action is not enabled, or waits. *)
Definition step (a : label) (s : stream) : option stream :=
  match a with
  | LRequest f req t => Some (do_request f req t s)
  | LCall i => step_call i s
  | LSendMessage m => Some (sendMessage m s)
  | LWriter ok => step_writer ok s
  | LRecv m h => step_recv m h s
  | LReaderOut => step_reader_out s
  | LExpire c => if decide (c ∈ armed s) then Some (set_timers (armed s ∖ {[c]}) (expired s ++ [c]) s) else None
  | LTimeOut => step_timeout s
  | LRsp i => step_rsp i s
  | LWork k edit => step_work k edit s
  | LStart r cb => step_start r cb s
  | LPeerClose => Some (set_conn false (m_autoConnect s) s)
  | LClose => Some (close s)
  end.

Inductive reachable (s0 : stream) : stream -> Prop :=
  | reach_refl : reachable s0 s0
  | reach_step s s' a : reachable s0 s -> step a s = Some s' -> reachable s0 s'.

(** A run that skips actions that are not enabled. *)
Fixpoint run (ls : list label) (s : stream) : stream :=
  match ls with
  | [] => s
  | a :: ls => run ls (default s (step a s))
  end.

End As.

(** [AsyncSocketStreamManager]: streams are named by numbers; what it does to
    them is set their callbacks and close them. A callback is a number too. *)
Module Mg.

Record manager := {
  m_datas : list nat;
  m_size : Z;
  m_idx : Z;
  m_connectCb : option nat;
  m_disconnectCb : option nat
}.

(** The callbacks of every stream, and the streams that were closed. *)
Record streams := {
  connectCb : gmap nat (option nat);
  disconnectCb : gmap nat (option nat);
  closed : list nat
}.

Definition setConnectCb (st : nat) (v : option nat) (w : streams) : streams :=
  {| connectCb := <[st := v]> (connectCb w); disconnectCb := disconnectCb w; closed := closed w |}.
Definition setDisconnectCb (st : nat) (v : option nat) (w : streams) : streams :=
  {| connectCb := connectCb w; disconnectCb := <[st := v]> (disconnectCb w); closed := closed w |}.
Definition close_stream (w : streams) (st : nat) : streams :=
  {| connectCb := connectCb w; disconnectCb := disconnectCb w; closed := closed w ++ [st] |}.

Definition new_manager : manager :=
  {| m_datas := []; m_size := 0; m_idx := 0; m_connectCb := None; m_disconnectCb := None |}.

Definition with_datas (m : manager) (l : list nat) (n : Z) : manager :=
  {| m_datas := l; m_size := n; m_idx := m_idx m; m_connectCb := m_connectCb m; m_disconnectCb := m_disconnectCb m |}.

Definition is_set (v : option nat) : bool := match v with Some _ => true | None => false end.

(** [AsyncSocketStreamManager::add] *)
Definition add (st : nat) (m : manager) (w : streams) : manager * streams :=
  let m := with_datas m (m_datas m ++ [st]) (u32 (m_size m + 1)) in
  let w := if is_set (m_connectCb m) then setConnectCb st (m_connectCb m) w else w in
  let w := if is_set (m_disconnectCb m) then setDisconnectCb st (m_disconnectCb m) w else w in
  (m, w).

(** [AsyncSocketStreamManager::clear] *)
Definition clear (m : manager) (w : streams) : manager * streams :=
  (with_datas m [] 0, foldl close_stream w (m_datas m)).

(** What [setConnection] does to one of the new streams. *)
Definition set_callbacks (m : manager) (w : streams) (st : nat) : streams :=
  let w := if is_set (m_connectCb m) then setConnectCb st (m_connectCb m) w else w in
  if is_set (m_connectCb m) then setDisconnectCb st (m_disconnectCb m) w else w.

(** [AsyncSocketStreamManager::setConnection] *)
Definition setConnection (l : list nat) (m : manager) (w : streams) : manager * streams :=
  let old := m_datas m in
  let m := with_datas m l (u32 (Z.of_nat (length l))) in
  let w := if is_set (m_connectCb m) || is_set (m_disconnectCb m)
           then foldl (set_callbacks m) w (m_datas m) else w in
  (m, foldl close_stream w old).

(** The loop of [get]; [todo] is [m_size - i]. *)
Fixpoint get_loop (todo : nat) (isConnected : nat -> bool) (m : manager) : outcome (option nat * manager) :=
  match todo with
  | O => Ok (None, m)
  | S todo =>
      let idx := u32 (m_idx m + 1) in
      let m := {| m_datas := m_datas m; m_size := m_size m; m_idx := idx; m_connectCb := m_connectCb m;
                  m_disconnectCb := m_disconnectCb m |} in
      st ← of_ptr (m_datas m !! Z.to_nat (idx mod m_size m)%Z);
      if isConnected st then Ok (Some st, m) else get_loop todo isConnected m
  end.

(** [AsyncSocketStreamManager::get] *)
Definition get (isConnected : nat -> bool) (m : manager) : outcome (option nat * manager) :=
  get_loop (Z.to_nat (m_size m)) isConnected m.

(** [AsyncSocketStreamManager::setConnectCb] and [setDisconnectCb] *)
Definition set_connectCb (v : option nat) (m : manager) (w : streams) : manager * streams :=
  ({| m_datas := m_datas m; m_size := m_size m; m_idx := m_idx m; m_connectCb := v; m_disconnectCb := m_disconnectCb m |},
   foldl (fun w st => setConnectCb st v w) w (m_datas m)).
Definition set_disconnectCb (v : option nat) (m : manager) (w : streams) : manager * streams :=
  ({| m_datas := m_datas m; m_size := m_size m; m_idx := m_idx m; m_connectCb := m_connectCb m; m_disconnectCb := v |},
   foldl (fun w st => setDisconnectCb st v w) w (m_datas m)).

End Mg.
