(* ===== verification/AsyncProps.v ===== *)
(** Theorems on asynchronous streams: every request is resumed exactly once,
    however the reader, the timers and the closing of the stream interleave, and
    the fibers of the stream neither multiply nor miss a wake-up. *)

From stdpp Require Import gmap.
From S2P Require Import Prelude Rock AsyncStream.
Import Rk As.

(** * Counting along lists *)

Fixpoint total {A} (f : A -> nat) (l : list A) : nat :=
  match l with [] => 0 | x :: l => f x + total f l end.

Lemma total_app {A} (f : A -> nat) l1 l2 : total f (l1 ++ l2) = total f l1 + total f l2.
Proof. induction l1 as [| x l1 IH]; simpl; [done |]. lia. Qed.

Lemma total_insert {A} (f : A -> nat) l i x y :
  l !! i = Some x -> total f (<[i := y]> l) + f x = total f l + f y.
Proof.
  revert i. induction l as [| z l IH]; intros [| i] H; simpl in *; try done.
  - injection H as ->. lia.
  - specialize (IH i H). lia.
Qed.

Lemma total_delete {A} (f : A -> nat) l i x : l !! i = Some x -> total f (delete i l) + f x = total f l.
Proof.
  revert i. induction l as [| z l IH]; intros [| i] H; simpl in *; try done.
  - injection H as ->. lia.
  - specialize (IH i H). lia.
Qed.

Lemma total_zero {A} (f : A -> nat) l : (forall x, x ∈ l -> f x = 0) -> total f l = 0.
Proof.
  induction l as [| x l IH]; intros H; simpl; [done |]. rewrite (H x) by set_solver.
  rewrite IH; [done |]. intros y Hy. apply H. set_solver.
Qed.

Lemma elem_of_delete {A} (l : list A) i x : x ∈ delete i l -> x ∈ l.
Proof. intros H. eapply elem_of_sublist; [done | apply sublist_delete]. Qed.

Lemma elem_of_insert {A} (l : list A) i x y : x ∈ <[i := y]> l -> x = y \/ x ∈ l.
Proof.
  rewrite !list_elem_of_lookup. intros [j Hj]. apply list_lookup_insert_Some in Hj as [(-> & -> & _) | [_ Hj]]; eauto.
Qed.

Lemma elem_of_delete_ne {A} (l : list A) i x y : l !! i = Some y -> x <> y -> x ∈ l -> x ∈ delete i l.
Proof.
  intros Hi Hne Hx. rewrite delete_take_drop. rewrite <- (take_drop_middle l i y Hi) in Hx. set_solver.
Qed.

Lemma elem_of_insert_ne {A} (l : list A) i x y z : l !! i = Some y -> x <> y -> x ∈ l -> x ∈ <[i := z]> l.
Proof.
  intros Hi Hne Hx. rewrite insert_take_drop by (by eapply lookup_lt_Some).
  rewrite <- (take_drop_middle l i y Hi) in Hx. set_solver.
Qed.

Definition b2n (b : bool) : nat := if b then 1 else 0.

(** * The invariant *)

Definition ctx_of (r : rsp) : nat := match r with RLoad c | RCas c _ | RWon c => c end.

Definition resumes (c : nat) (d : nat) : nat := if decide (d = c) then 1 else 0.
Definition won (c : nat) (r : rsp) : nat :=
  match r with RWon d => if decide (d = c) then 1 else 0 | _ => 0 end.

(** A call of [doRsp] that will find the scheduler if nobody takes it before. *)
Definition on_the_way (c : nat) (l : list rsp) : Prop := RLoad c ∈ l \/ RCas c true ∈ l.

(** Contexts: the right to resume a fiber is in exactly one place (still in its
    context, with the call of [doRsp] that took it, or used), and while it is in
    the context something is under way that will take it. *)
Record core (h : gmap nat Ctx) (n : nat) (t : gmap Z nat) (a : gset nat) (e : list nat) (r : list rsp)
  (cs : list (nat * bool)) (res : list nat) : Prop := {
  c_next c x : h !! c = Some x -> c < n;
  c_table k c : t !! k = Some c -> exists x, h !! c = Some x /\ sn x = k;
  c_armed c : c ∈ a -> is_Some (h !! c);
  c_expired c : c ∈ e -> is_Some (h !! c);
  c_rsps x : x ∈ r -> is_Some (h !! ctx_of x);
  c_calls p : p ∈ cs -> is_Some (h !! fst p);
  c_resumed c : c ∈ res -> is_Some (h !! c);
  c_token c x : h !! c = Some x -> total (resumes c) res + total (won c) r + b2n (scheduler x) = 1;
  c_cover c x : h !! c = Some x -> scheduler x = true ->
    c ∈ a \/ c ∈ e \/ on_the_way c r \/ (c, false) ∈ cs
}.

Arguments c_next {h n t a e r cs res} _.
Arguments c_table {h n t a e r cs res} _.
Arguments c_armed {h n t a e r cs res} _.
Arguments c_expired {h n t a e r cs res} _.
Arguments c_rsps {h n t a e r cs res} _.
Arguments c_calls {h n t a e r cs res} _.
Arguments c_resumed {h n t a e r cs res} _.
Arguments c_token {h n t a e r cs res} _.
Arguments c_cover {h n t a e r cs res} _.

Definition core_of (s : stream) : Prop :=
  core (heap s) (next s) (m_ctxs s) (armed s) (expired s) (rsps s) (calls s) (resumed s).

(** Fibers: there is at most one reader and one writer, and the writer is not
    left waiting while something is queued. *)
Record io (w : nat) (rd : bool) (wr : wpc) (q : list SendCtx) (sem : nat) : Prop := {
  io_fibers : w + b2n rd + (match wr with WOut => 0 | _ => 1 end) = 2;
  io_wake : q <> [] -> 0 < sem \/ wr = WTake
}.

Definition io_of (s : stream) : Prop := io (m_waitSem s) (reader s) (writer s) (m_queue s) (m_sem s).

Definition inv (s : stream) : Prop := core_of s /\ io_of s.

(** * The contexts *)

(** Contexts may change everything but serial number and scheduler. *)
Definition same_ctxs (h h' : gmap nat Ctx) : Prop :=
  forall c, match h !! c, h' !! c with
            | Some x, Some y => sn y = sn x /\ scheduler y = scheduler x
            | None, None => True
            | _, _ => False
            end.

Lemma same_ctxs_insert h c x y :
  h !! c = Some x -> sn y = sn x -> scheduler y = scheduler x -> same_ctxs h (<[c := y]> h).
Proof.
  intros Hc H1 H2 d. destruct (decide (c = d)) as [<- | Hne].
  - by rewrite Hc, lookup_insert_eq.
  - rewrite lookup_insert_ne by done. by destruct (h !! d).
Qed.

Lemma same_ctxs_trans h1 h2 h3 : same_ctxs h1 h2 -> same_ctxs h2 h3 -> same_ctxs h1 h3.
Proof.
  intros H1 H2 c. specialize (H1 c). specialize (H2 c). destruct (h1 !! c), (h2 !! c), (h3 !! c); try done.
  destruct H1, H2. split; congruence.
Qed.

Lemma same_ctxs_refl h : same_ctxs h h.
Proof. intros c. by destruct (h !! c). Qed.

Lemma same_some h h' c : same_ctxs h h' -> is_Some (h !! c) <-> is_Some (h' !! c).
Proof.
  intros H. specialize (H c). destruct (h !! c), (h' !! c); try done; split; intros [? ?]; try done; eauto.
Qed.

Lemma same_back h h' c y : same_ctxs h h' -> h' !! c = Some y ->
  exists x, h !! c = Some x /\ sn y = sn x /\ scheduler y = scheduler x.
Proof. intros H Hy. specialize (H c). rewrite Hy in H. destruct (h !! c) as [x |]; [| done]. exists x. tauto. Qed.

Lemma core_same h h' n t t' a e r cs res :
  core h n t a e r cs res -> same_ctxs h h' -> (forall k c, t' !! k = Some c -> t !! k = Some c) ->
  core h' n t' a e r cs res.
Proof.
  intros C S T.
  assert (SS : forall c, is_Some (h !! c) -> is_Some (h' !! c)) by (intros c; by apply (same_some h h')).
  split.
  - intros c y Hy. destruct (same_back _ _ _ _ S Hy) as (x & Hx & _). by apply (c_next C c x).
  - intros k c Hk. destruct (c_table C _ _ (T _ _ Hk)) as (x & Hx & Hsn).
    destruct (SS c) as [y Hy]; [eauto |]. destruct (same_back _ _ _ _ S Hy) as (x' & Hx' & E & _).
    exists y. split; [done |]. congruence.
  - intros c Hc. by apply SS, (c_armed C).
  - intros c Hc. by apply SS, (c_expired C).
  - intros x Hx. by apply SS, (c_rsps C).
  - intros p Hp. by apply SS, (c_calls C).
  - intros c Hc. by apply SS, (c_resumed C).
  - intros c y Hy. destruct (same_back _ _ _ _ S Hy) as (x & Hx & _ & ->). by apply (c_token C).
  - intros c y Hy Hs. destruct (same_back _ _ _ _ S Hy) as (x & Hx & _ & E). apply (c_cover C c x); congruence.
Qed.

(** More calls of [doRsp] do no harm. *)
Lemma core_more h n t a e r cs res l :
  core h n t a e r cs res -> Forall (fun c => is_Some (h !! c)) l -> core h n t a e (r ++ (RLoad <$> l)) cs res.
Proof.
  intros C Hl. split; try apply C.
  - intros x Hx. apply elem_of_app in Hx as [Hx | Hx]; [by apply (c_rsps C) |].
    apply list_elem_of_fmap in Hx as (c & -> & Hc). by rewrite Forall_forall in Hl; apply Hl.
  - intros c x Hx. rewrite total_app, (total_zero (won c) (RLoad <$> l)), Nat.add_0_r; [by apply C |].
    intros y Hy. by apply list_elem_of_fmap in Hy as (d & -> & _).
  - intros c x Hx Hs. destruct (c_cover C c x Hx Hs) as [? | [? | [[? | ?] | ?]]]; unfold on_the_way; set_solver.
Qed.

Lemma core_new h n t a e r cs res x t' :
  core h n t a e r cs res -> scheduler x = true ->
  (forall k c, t' !! k = Some c -> t !! k = Some c \/ (c = n /\ k = sn x)) ->
  core (<[n := x]> h) (S n) t' a e r (cs ++ [(n, false)]) res.
Proof.
  intros C Hx Ht.
  assert (Hn : h !! n = None) by (destruct (h !! n) eqn:E; [apply (c_next C) in E; lia | done]).
  assert (SS : forall c, is_Some (h !! c) -> is_Some (<[n := x]> h !! c))
    by (intros c Hc; rewrite lookup_insert_is_Some'; by right).
  assert (Hfresh : forall c, is_Some (h !! c) -> c <> n) by (intros c [y Hy] ->; congruence).
  split.
  - intros c y Hy. apply lookup_insert_Some in Hy as [[<- _] | [_ Hy]]; [lia |].
    apply (c_next C) in Hy. lia.
  - intros k c Hk. destruct (Ht _ _ Hk) as [Hk' | [-> ->]]; [| rewrite lookup_insert_eq; eauto].
    destruct (c_table C _ _ Hk') as (y & Hy & Hs). exists y. split; [| done].
    rewrite lookup_insert_ne; [done |]. intros <-. congruence.
  - intros c Hc. by apply SS, (c_armed C).
  - intros c Hc. by apply SS, (c_expired C).
  - intros y Hy. by apply SS, (c_rsps C).
  - intros p Hp. apply elem_of_app in Hp as [Hp | Hp]; [by apply SS, (c_calls C) |].
    apply list_elem_of_singleton in Hp as ->. simpl. rewrite lookup_insert_eq. eauto.
  - intros c Hc. by apply SS, (c_resumed C).
  - intros c y Hy. apply lookup_insert_Some in Hy as [[<- <-] | [_ Hy]]; [| by apply C].
    rewrite Hx, !total_zero; [done | |].
    + intros z Hz. apply (c_rsps C), Hfresh in Hz. destruct z; simpl in *; try done. by rewrite decide_False.
    + intros z Hz. apply (c_resumed C), Hfresh in Hz. unfold resumes. by rewrite decide_False.
  - intros c y Hy Hs. apply lookup_insert_Some in Hy as [[<- <-] | [_ Hy]]; [set_solver |].
    destruct (c_cover C c y Hy Hs) as [? | [? | [? | ?]]]; set_solver.
Qed.

(** The timer of a call that is under way. *)
Lemma core_call_timer h n t a e r cs res i c :
  core h n t a e r cs res -> cs !! i = Some (c, false) ->
  core h n t (a ∪ {[c]}) e r (<[i := (c, true)]> cs) res.
Proof.
  intros C Hi. assert (Hc : is_Some (h !! c)) by (apply (c_calls C (c, false)); by eapply list_elem_of_lookup_2).
  split; try apply C.
  - intros d Hd. apply elem_of_union in Hd as [Hd | ->%elem_of_singleton]; [by apply (c_armed C) | done].
  - intros p Hp. apply elem_of_insert in Hp as [-> | Hp]; [done | by apply (c_calls C)].
  - intros d x Hx Hs. destruct (decide (d = c)) as [-> | Hne]; [set_solver |].
    destruct (c_cover C d x Hx Hs) as [? | [? | [? | Hd]]]; [set_solver.. |].
    right; right; right. eapply elem_of_insert_ne; [done | | done]. congruence.
Qed.

Lemma core_call_done h n t a e r cs res i c :
  core h n t a e r cs res -> cs !! i = Some (c, true) -> core h n t a e r (delete i cs) res.
Proof.
  intros C Hi. split; try apply C.
  - intros p Hp. apply elem_of_delete in Hp. by apply (c_calls C).
  - intros d x Hx Hs. destruct (c_cover C d x Hx Hs) as [? | [? | [? | Hd]]]; [set_solver.. |].
    right; right; right. by eapply elem_of_delete_ne.
Qed.

Lemma core_expire h n t a e r cs res c :
  core h n t a e r cs res -> c ∈ a -> core h n t (a ∖ {[c]}) (e ++ [c]) r cs res.
Proof.
  intros C Hc. split; try apply C.
  - intros d Hd. apply (c_armed C). set_solver.
  - intros d Hd. apply elem_of_app in Hd as [Hd | ->%list_elem_of_singleton]; [by apply (c_expired C) | by apply (c_armed C)].
  - intros d x Hx Hs. destruct (decide (d = c)) as [-> | Hne]; [set_solver |].
    destruct (c_cover C d x Hx Hs) as [? | [? | [? | ?]]]; set_solver.
Qed.

Lemma core_timeout h n t a e r cs res c :
  core h n t a (c :: e) r cs res -> core h n t a e (r ++ [RLoad c]) cs res.
Proof.
  intros C. assert (Hc : is_Some (h !! c)) by (apply (c_expired C); set_solver).
  pose proof (core_more _ _ _ _ _ _ _ _ [c] C) as C'. simpl in C'. specialize (C' ltac:(by constructor)).
  split; try apply C'.
  - intros d Hd. apply (c_expired C). set_solver.
  - intros d x Hx Hs. destruct (c_cover C' d x Hx Hs) as [? | [Hd | [? | ?]]]; [set_solver | | set_solver..].
    apply elem_of_cons in Hd as [-> | Hd]; [| set_solver]. right; right; left. left. set_solver.
Qed.

(** The three steps of [doRsp]. *)
Lemma core_load h n t a e r cs res i c x :
  core h n t a e r cs res -> r !! i = Some (RLoad c) -> h !! c = Some x ->
  core h n t a e (<[i := RCas c (scheduler x)]> r) cs res.
Proof.
  intros C Hi Hc. split; try apply C.
  - intros y Hy. apply elem_of_insert in Hy as [-> | Hy]; [simpl; eauto | by apply (c_rsps C)].
  - intros d y Hy. pose proof (total_insert (won d) r i _ (RCas c (scheduler x)) Hi) as E. simpl in E.
    rewrite !Nat.add_0_r in E. rewrite E. by apply C.
  - intros d y Hy Hs. destruct (c_cover C d y Hy Hs) as [? | [? | [Hw | ?]]]; [set_solver | set_solver | | set_solver].
    right; right; left. destruct (decide (d = c)) as [-> | Hne].
    + right. rewrite Hy in Hc. injection Hc as ->. rewrite Hs. eapply list_elem_of_lookup_2, list_lookup_insert_eq. by eapply lookup_lt_Some.
    + destruct Hw as [Hw | Hw]; [left | right]; eapply elem_of_insert_ne; try done; congruence.
Qed.

(** A compare-and-swap that fails, or that exchanges null for null. *)
Lemma core_lose h n t a e r cs res i c scd x :
  core h n t a e r cs res -> r !! i = Some (RCas c scd) -> h !! c = Some x ->
  (scheduler x = true -> scd = false) -> core h n t a e (delete i r) cs res.
Proof.
  intros C Hi Hc Hs. split; try apply C.
  - intros y Hy. apply elem_of_delete in Hy. by apply (c_rsps C).
  - intros d y Hy. pose proof (total_delete (won d) r i _ Hi) as E. simpl in E. rewrite Nat.add_0_r in E. rewrite E. by apply C.
  - intros d y Hy Hy'. destruct (c_cover C d y Hy Hy') as [? | [? | [Hw | ?]]]; [set_solver | set_solver | | set_solver].
    right; right; left. destruct Hw as [Hw | Hw]; [left | right]; eapply elem_of_delete_ne; try done; [].
    intros [= -> <-]. rewrite Hy in Hc. injection Hc as ->. by specialize (Hs Hy').
Qed.

Lemma core_win h n t a e r cs res i c x y :
  core h n t a e r cs res -> r !! i = Some (RCas c true) -> h !! c = Some x ->
  scheduler x = true -> scheduler y = false -> sn y = sn x ->
  core (<[c := y]> h) n t a e (<[i := RWon c]> r) cs res.
Proof.
  intros C Hi Hc Hs Hy Hsn.
  assert (SS : forall d, is_Some (h !! d) -> is_Some (<[c := y]> h !! d)) by (intros d Hd; rewrite lookup_insert_is_Some'; by right).
  split.
  - intros d z Hz. apply lookup_insert_Some in Hz as [[<- _] | [_ Hz]]; by eapply (c_next C).
  - intros k d Hk. destruct (c_table C _ _ Hk) as (z & Hz & E). destruct (decide (c = d)) as [<- |].
    + rewrite lookup_insert_eq. exists y. split; [done | congruence].
    + rewrite lookup_insert_ne by done. eauto.
  - intros d Hd. by apply SS, (c_armed C).
  - intros d Hd. by apply SS, (c_expired C).
  - intros z Hz. apply SS. apply elem_of_insert in Hz as [-> | Hz]; [simpl; eauto | by apply (c_rsps C)].
  - intros p Hp. by apply SS, (c_calls C).
  - intros d Hd. by apply SS, (c_resumed C).
  - intros d z Hz. pose proof (total_insert (won d) r i _ (RWon c) Hi) as E. simpl in E.
    apply lookup_insert_Some in Hz as [[<- <-] | [Hne Hz]].
    + rewrite decide_True in E by done. pose proof (c_token C c x Hc) as T. rewrite Hs in T. rewrite Hy. simpl in *. lia.
    + rewrite decide_False in E by done. pose proof (c_token C d z Hz) as T. lia.
  - intros d z Hz Hzs. apply lookup_insert_Some in Hz as [[<- <-] | [Hne Hz]]; [congruence |].
    destruct (c_cover C d z Hz Hzs) as [? | [? | [Hw | ?]]]; [set_solver | set_solver | | set_solver].
    right; right; left. destruct Hw as [Hw | Hw]; [left | right]; eapply elem_of_insert_ne; try done; congruence.
Qed.

Lemma core_resume h n t a e r cs res i c a' :
  core h n t a e r cs res -> r !! i = Some (RWon c) -> a' ⊆ a -> a ⊆ a' ∪ {[c]} ->
  core h n t a' e (delete i r) cs (res ++ [c]).
Proof.
  intros C Hi Ha1 Ha2. assert (Hc : is_Some (h !! c)) by (apply (c_rsps C (RWon c)); by eapply list_elem_of_lookup_2).
  split; try apply C.
  - intros d Hd. apply (c_armed C). set_solver.
  - intros x Hx. apply elem_of_delete in Hx. by apply (c_rsps C).
  - intros d Hd. apply elem_of_app in Hd as [Hd | ->%list_elem_of_singleton]; [by apply (c_resumed C) | done].
  - intros d x Hx. pose proof (total_delete (won d) r i _ Hi) as E. simpl in E. rewrite total_app. simpl.
    pose proof (c_token C d x Hx). unfold resumes at 2. destruct (decide (c = d)); lia.
  - intros d x Hx Hs. destruct (decide (d = c)) as [-> | Hne].
    + exfalso. pose proof (c_token C c x Hx) as T. pose proof (total_delete (won c) r i _ Hi) as E. simpl in E.
      rewrite decide_True in E by done. rewrite Hs in T. simpl in T. lia.
    + destruct (c_cover C d x Hx Hs) as [? | [? | [Hw | ?]]]; [set_solver | set_solver | | set_solver].
      right; right; left. destruct Hw as [Hw | Hw]; [left | right]; eapply elem_of_delete_ne; try done; congruence.
Qed.

(** * Every action keeps the invariant *)

Lemma set_errors_same cs h : same_ctxs h (foldl set_error h cs).
Proof.
  revert h. induction cs as [| c cs IH]; intros h; simpl; [apply same_ctxs_refl |].
  eapply same_ctxs_trans; [| apply IH]. unfold set_error. destruct (h !! c) as [x |] eqn:E; [| apply same_ctxs_refl].
  by eapply same_ctxs_insert.
Qed.

Lemma core_innerClose s : core_of s -> core_of (innerClose s).
Proof.
  intros C. unfold core_of, innerClose. simpl. set (cs := snd <$> map_to_list (m_ctxs s)).
  apply core_more.
  - eapply core_same; [exact C | apply set_errors_same |]. intros k c Hk. by rewrite lookup_empty in Hk.
  - apply Forall_forall. intros c Hc. apply (same_some (heap s)); [apply set_errors_same |].
    apply list_elem_of_fmap in Hc as ([k d] & -> & Hd). apply elem_of_map_to_list in Hd.
    destruct (c_table C _ _ Hd) as (x & Hx & _). simpl. eauto.
Qed.

Lemma io_innerClose s : io_of s -> io_of (innerClose s).
Proof. intros []. split; simpl; [done |]. by intros. Qed.

Lemma inv_innerClose s : inv s -> inv (innerClose s).
Proof. intros [C I]. split; [by apply core_innerClose | by apply io_innerClose]. Qed.

Lemma inv_enqueue x s : inv s -> inv (enqueue x s).
Proof.
  intros [C [F W]]. split; [exact C |]. split; simpl; [done |]. intros _.
  destruct (m_queue s); [left; lia |]. by apply W.
Qed.

Lemma inv_conn c a s : inv s -> inv (set_conn c a s).
Proof. intros [C [F W]]. by split; [exact C | split]. Qed.

Lemma inv_request f req t s : inv s -> inv (do_request f req t s).
Proof.
  intros [C [F W]]. unfold do_request. destruct (connected s); [| by split; [| split]].
  set (x := {| sn := rq_sn req |}). unfold addCtx. split.
  - unfold core_of. simpl. destruct (m_ctxs s !! rq_sn req) eqn:E; simpl; apply (core_new _ _ _ _ _ _ _ _ x _ C); try done; simpl.
    + by left.
    + intros k c Hk. apply lookup_insert_Some in Hk as [[<- <-] | [_ Hk]]; [by right | by left].
  - unfold io_of. simpl. by destruct (m_ctxs s !! rq_sn req).
Qed.

Lemma inv_call i s s' : inv s -> step_call i s = Some s' -> inv s'.
Proof.
  intros [C [F W]]. unfold step_call. destruct (calls s !! i) as [[c []] |] eqn:Hi; [| | done].
  - intros [= <-]. apply inv_enqueue. split; [by eapply core_call_done | by split].
  - destruct (heap s !! c) as [x |] eqn:Hc; [| done]. intros [= <-]. split; [| by split].
    unfold core_of. simpl. apply core_call_timer; [| done]. eapply core_same; [exact C | | done].
    by eapply same_ctxs_insert.
Qed.

Lemma inv_writer ok s s' : inv s -> step_writer ok s = Some s' -> inv s'.
Proof.
  intros [C [F W]]. unfold step_writer. destruct (writer s) as [| | | [| x l] |] eqn:Ew.
  - destruct (connected s); intros [= <-]; (split; [exact C |]); split; simpl; try lia; try done.
    intros Hq. destruct (W Hq) as [? |]; [by left | done].
  - destruct (m_sem s) as [| n]; [done |]. intros [= <-]. split; [exact C |]. split; simpl; [lia | by right].
  - intros [= <-]. split; [exact C |]. split; simpl; [lia | done].
  - intros [= <-]. split; [exact C |]. split; simpl; [lia |]. intros Hq. destruct (W Hq) as [? |]; [by left | done].
  - destruct ok; intros [= <-].
    + split; [exact C |]. split; simpl; [lia |]. intros Hq. destruct (W Hq) as [? |]; [by left | done].
    + split; [by apply core_innerClose |]. split; simpl; [lia | done].
  - done.
Qed.

Lemma inv_recv m h s s' : inv s -> step_recv m h s = Some s' -> inv s'.
Proof.
  intros [C I]. unfold step_recv. destruct (reader s && connected s); [| done]. intros [= <-].
  destruct m as [[r | r | r] |]; [destruct h | | destruct h |]; try (by split).
  - unfold getAndDelCtx. destruct (m_ctxs s !! rs_sn r) as [c |] eqn:Ec; [| by split]. simpl.
    destruct (heap s !! c) as [x |] eqn:Hc.
    + split; [| exact I]. unfold core_of. simpl. apply (core_more _ _ _ _ _ _ _ _ [c]); [| by constructor; [rewrite lookup_insert_eq; eauto |]].
      eapply core_same; [exact C | by eapply same_ctxs_insert |]. intros k d Hd. by apply lookup_delete_Some in Hd as [_ Hd].
    + split; [| exact I]. unfold core_of. simpl. eapply core_same; [exact C | apply same_ctxs_refl |].
      intros k d Hd. by apply lookup_delete_Some in Hd as [_ Hd].
  - by apply inv_innerClose.
Qed.

Lemma inv_timeout s s' : inv s -> step_timeout s = Some s' -> inv s'.
Proof.
  intros [C I]. unfold step_timeout. destruct (expired s) as [| c e] eqn:Ee; [done |].
  destruct (heap s !! c) as [x |] eqn:Hc; [| done]. intros [= <-]. split; [| exact I]. unfold core_of in *. simpl in *.
  rewrite Ee in C. apply core_timeout. eapply core_same; [exact C | by eapply same_ctxs_insert |].
  intros k d Hd. by apply lookup_delete_Some in Hd as [_ Hd].
Qed.

Lemma inv_rsp i s s' : inv s -> step_rsp i s = Some s' -> inv s'.
Proof.
  intros [C I]. unfold step_rsp. destruct (rsps s !! i) as [[c | c scd | c] |] eqn:Hi; [| | | done];
    (destruct (heap s !! c) as [x |] eqn:Hc; [| done]).
  - intros [= <-]. split; [| exact I]. by apply core_load.
  - destruct (Bool.eqb (scheduler x) scd) eqn:E.
    + apply eqb_prop in E. intros [= <-]. split; [| exact I]. unfold core_of. simpl. destruct scd.
      * by eapply core_win.
      * eapply core_lose; [| done | apply lookup_insert_eq | by intros]. eapply core_same; [exact C | | done].
        eapply same_ctxs_insert; [done | done |]. simpl. congruence.
    + apply eqb_false_iff in E. intros [= <-]. split; [| exact I]. eapply core_lose; [exact C | done | done |].
      intros Hs. rewrite Hs in E. by destruct scd.
  - intros [= <-]. split; [| destruct (timer x); exact I].
    unfold core_of. destruct (timer x) eqn:Et; simpl.
    all: apply (core_resume _ _ _ (armed s)); [| done | set_solver | ].
    all: try (eapply core_same; [exact C | | done]; eapply same_ctxs_insert; [done | by destruct (timed x) | by destruct (timed x)]).
    + intros d Hd. destruct (decide (d = c)); set_solver.
    + set_solver.
Qed.

Lemma inv_start r cb s s' : inv s -> step_start r cb s = Some s' -> inv s'.
Proof.
  intros [C [F W]]. unfold step_start. destruct (m_waitSem s) as [| [| n]] eqn:Ew; [done.. |].
  assert (Hout : writer s = WOut /\ reader s = false).
  { destruct (writer s), (reader s); simpl in F; done || lia. }
  destruct Hout as [Hw Hr].
  assert (Hfail : forall s1, core_of s1 -> writer s1 = WOut -> reader s1 = false -> m_waitSem s1 = n ->
    inv (set_fibers (writer s1) (reader s1) (S (S (m_waitSem s1))) (innerClose s1))).
  { intros s1 C1 H1 H2 H3. split; [by apply core_innerClose |]. rewrite H1, H2, H3. rewrite Hw, Hr in F. split; simpl in *; [lia | done]. }
  simpl. destruct (negb (connected s) && negb r); [intros [= <-]; by apply (Hfail (set_fibers (writer s) (reader s) n s)) |].
  destruct (negb cb); intros [= <-];
    [by apply (Hfail (set_conn true (m_autoConnect s) (set_fibers (writer s) (reader s) n s))) |].
  split; [exact C |]. rewrite Hw, Hr in F. split; simpl in *; [lia |]. intros Hq. destruct (W Hq) as [? | Ht]; [by left | congruence].
Qed.

Lemma inv_step a s s' : inv s -> step a s = Some s' -> inv s'.
Proof.
  intros Hs. destruct a; simpl.
  - intros [= <-]. by apply inv_request.
  - by apply inv_call.
  - intros [= <-]. unfold sendMessage. destruct (connected s); [by apply inv_enqueue | done].
  - by apply inv_writer.
  - by apply inv_recv.
  - unfold step_reader_out. destruct (reader s) eqn:Er; [| done]. destruct (negb (connected s)); [| done]. simpl.
    intros [= <-]. destruct Hs as [C [F W]]. split; [by apply core_innerClose |]. rewrite Er in F. split; simpl in *; [lia | done].
  - case_decide; [| done]. intros [= <-]. destruct Hs as [C I]. split; [by apply core_expire | exact I].
  - by apply inv_timeout.
  - by apply inv_rsp.
  - unfold step_work. destruct (works s) as [| [r | n] w]; [done | |]; intros [= <-];
      (destruct keep; [| apply inv_conn]; [| ..]); unfold sendMessage; simpl; try (by destruct Hs).
    all: destruct (connected s); [apply inv_enqueue |]; by destruct Hs.
  - by apply inv_start.
  - intros [= <-]. by apply inv_conn.
  - intros [= <-]. by apply inv_conn.
Qed.

Lemma inv_new b c : inv (new_stream b c).
Proof.
  split; [split; simpl | split; simpl; done]; intros; try done; set_solver.
Qed.

Lemma as_reachable_inv b c s : reachable (new_stream b c) s -> inv s.
Proof. induction 1; [apply inv_new | by eapply inv_step]. Qed.

(** * What follows *)

(** Actions that need no new input: calls go on, timers expire and run, responses
    go on. *)
Definition internal (a : label) : Prop :=
  match a with LCall _ | LExpire _ | LTimeOut | LRsp _ => True | _ => False end.

(** How much of that is left. *)
Definition call_work (p : nat * bool) : nat := if snd p then 1 else 7.
Definition rsp_work (r : rsp) : nat := match r with RLoad _ => 3 | RCas _ _ => 2 | RWon _ => 1 end.
Definition left_to_do (s : stream) : nat :=
  total call_work (calls s) + 5 * size (armed s) + 4 * length (expired s) + total rsp_work (rsps s).

Lemma size_add (a : gset nat) c : size (a ∪ {[c]}) <= S (size a).
Proof.
  rewrite size_union_alt. pose proof (subseteq_size ({[c]} ∖ a : gset nat) {[c]} ltac:(set_solver)) as H.
  rewrite size_singleton in H. lia.
Qed.

Lemma size_remove (a : gset nat) c : c ∈ a -> S (size (a ∖ {[c]})) = size a.
Proof.
  intros H. rewrite size_difference by set_solver. rewrite size_singleton.
  assert (size a <> 0) by (apply size_non_empty_iff; set_solver). lia.
Qed.

Lemma call_decreases i s s' : step_call i s = Some s' -> left_to_do s' < left_to_do s.
Proof.
  unfold step_call, left_to_do. destruct (calls s !! i) as [[c []] |] eqn:Hi; [| | done].
  - intros [= <-]. simpl. pose proof (total_delete call_work _ _ _ Hi) as E. unfold call_work at 2 in E. simpl in E. lia.
  - destruct (heap s !! c) as [x |]; [| done]. intros [= <-]. simpl.
    pose proof (total_insert call_work _ _ _ (c, true) Hi) as E. unfold call_work at 2 4 in E. simpl in E.
    pose proof (size_add (armed s) c). lia.
Qed.

Lemma rsp_decreases i s s' : step_rsp i s = Some s' -> left_to_do s' < left_to_do s.
Proof.
  unfold step_rsp, left_to_do. destruct (rsps s !! i) as [[c | c scd | c] |] eqn:Hi; [| | | done];
    (destruct (heap s !! c) as [x |]; [| done]).
  - intros [= <-]. simpl. pose proof (total_insert rsp_work _ _ _ (RCas c (scheduler x)) Hi) as E. simpl in E. lia.
  - pose proof (total_insert rsp_work _ _ _ (RWon c) Hi) as E1. pose proof (total_delete rsp_work _ _ _ Hi) as E2.
    simpl in E1, E2. destruct (Bool.eqb (scheduler x) scd); [destruct scd |]; intros [= <-]; simpl; lia.
  - pose proof (total_delete rsp_work _ _ _ Hi) as E. simpl in E. intros [= <-].
    destruct (timer x); simpl; [| lia]. pose proof (subseteq_size (armed s ∖ {[c]}) (armed s) ltac:(set_solver)). lia.
Qed.

Lemma internal_decreases a s s' : internal a -> step a s = Some s' -> left_to_do s' < left_to_do s.
Proof.
  destruct a; simpl; try done; intros _.
  - apply call_decreases.
  - case_decide; [| done]. intros [= <-]. unfold left_to_do. simpl. rewrite length_app. simpl.
    pose proof (size_remove (armed s) c H). lia.
  - unfold step_timeout, left_to_do. destruct (expired s) as [| c e]; [done |].
    destruct (heap s !! c); [| done]. intros [= <-]. simpl. rewrite total_app. simpl. lia.
  - apply rsp_decreases.
Qed.

Lemma stuck_empty s : inv s -> (forall a, internal a -> step a s = None) ->
  calls s = [] /\ armed s = ∅ /\ expired s = [] /\ rsps s = [].
Proof.
  intros [C _] Hst. split_and!.
  - destruct (calls s) as [| [c b] l] eqn:E; [done |]. specialize (Hst (LCall 0) I). simpl in Hst.
    unfold step_call in Hst. rewrite E in Hst. simpl in Hst. destruct b; [done |].
    destruct (c_calls C (c, false)) as [x Hx]; [rewrite E; set_solver |]. simpl in Hx. by rewrite Hx in Hst.
  - apply set_eq. intros c. split; [intros Hc | set_solver]. specialize (Hst (LExpire c) I). simpl in Hst.
    by rewrite decide_True in Hst.
  - destruct (expired s) as [| c e] eqn:E; [done |]. specialize (Hst LTimeOut I). simpl in Hst.
    unfold step_timeout in Hst. rewrite E in Hst. destruct (c_expired C c) as [x Hx]; [rewrite E; set_solver |].
    by rewrite Hx in Hst.
  - destruct (rsps s) as [| r l] eqn:E; [done |]. specialize (Hst (LRsp 0) I). simpl in Hst.
    unfold step_rsp in Hst. rewrite E in Hst. simpl in Hst.
    destruct (c_rsps C r) as [x Hx]; [rewrite E; set_solver |].
    destruct r; simpl in Hx; rewrite Hx in Hst; try done. by destruct (Bool.eqb (scheduler x) scd).
Qed.

(** C22: no request is answered twice: whatever responses, time-outs and closings
    compete, its fiber is scheduled at most once, and once it is, nobody holds
    or will get its scheduler any more. *)
Theorem request_resumed_at_most_once (is_connected autoConnect : bool) (s : stream) (c : nat) (x : Ctx) :
  reachable (new_stream is_connected autoConnect) s -> heap s !! c = Some x ->
  total (resumes c) (resumed s) <= 1
  /\ (c ∈ resumed s -> scheduler x = false /\ RWon c ∉ rsps s).
Proof.
  intros Hr Hx. destruct (as_reachable_inv _ _ _ Hr) as [C _]. pose proof (c_token C c x Hx) as T. split; [lia |].
  intros Hc. apply list_elem_of_lookup in Hc as [i Hi].
  pose proof (total_delete (resumes c) _ _ _ Hi) as E. unfold resumes at 2 in E. rewrite decide_True in E by done.
  split; [destruct (scheduler x); [simpl in T; lia | done] |]. intros Hw. apply list_elem_of_lookup in Hw as [j Hj].
  pose proof (total_delete (won c) _ _ _ Hj) as E2. simpl in E2. rewrite decide_True in E2 by done. lia.
Qed.

Lemma run_reachable s0 ls s : reachable s0 s -> reachable s0 (run ls s).
Proof.
  revert s. induction ls as [| a ls IH]; intros s H; simpl; [done |]. apply IH.
  destruct (step a s) eqn:E; simpl; [by eapply reach_step | done].
Qed.

Definition req0 : RockRequest := {| rq_sn := 7; rq_cmd := 1; rq_body := [] |}%Z.

(** A request that is answered while its timer runs out. *)
Definition race : list label :=
  [LStart true true; LRequest 4 req0 500; LCall 0; LCall 0; LWriter true; LWriter true; LWriter true; LWriter true;
   LExpire 0; LTimeOut; LPeerClose; LReaderOut; LRsp 0; LRsp 0; LRsp 0; LRsp 0].

Lemma request_resumed_at_most_once_witness :
  exists x, heap (run race (new_stream true false)) !! 0 = Some x
    /\ resumed (run race (new_stream true false)) = [0] /\ RockResult x = (TIMEOUT, None)
    /\ total (resumes 0) (resumed (run race (new_stream true false))) <= 1.
Proof.
  eexists. split; [vm_compute; reflexivity |]. split; [vm_compute; reflexivity |]. split; [vm_compute; reflexivity |].
  eapply (request_resumed_at_most_once true false _ 0); [apply run_reachable, reach_refl | vm_compute; reflexivity].
Defined.

(** C23: every request is answered: the actions that need no new input can only go
    on for a bounded number of steps, and when none is left, the fiber of every
    request was scheduled exactly once. *)
Theorem requests_always_answered (is_connected autoConnect : bool) (s : stream) :
  reachable (new_stream is_connected autoConnect) s ->
  (forall a s', internal a -> step a s = Some s' -> left_to_do s' < left_to_do s)
  /\ ((forall a, internal a -> step a s = None) ->
      forall c, is_Some (heap s !! c) -> total (resumes c) (resumed s) = 1).
Proof.
  intros Hr. split; [intros a s'; apply internal_decreases |]. intros Hst c [x Hx].
  pose proof (as_reachable_inv _ _ _ Hr) as Hi. destruct (stuck_empty s Hi Hst) as (E1 & E2 & E3 & E4).
  destruct Hi as [C _]. pose proof (c_token C c x Hx) as T. rewrite E4 in T. simpl in T.
  destruct (scheduler x) eqn:Es; [| simpl in T; lia]. exfalso.
  destruct (c_cover C c x Hx Es) as [H | [H | [[H | H] | H]]]; rewrite ?E1, ?E2, ?E3, ?E4 in H; set_solver.
Qed.

Lemma requests_always_answered_witness :
  left_to_do (run [LCall 0] (run [LStart true true; LRequest 4 req0 500] (new_stream true false)))
  < left_to_do (run [LStart true true; LRequest 4 req0 500] (new_stream true false)).
Proof.
  apply (proj1 (requests_always_answered true false _ (run_reachable _ _ _ (reach_refl _))) (LCall 0)); [exact I |].
  vm_compute. reflexivity.
Defined.

Definition alive (w : wpc) : bool := match w with WOut => false | _ => true end.

(** A stream never has two readers or two writers, [start] begins only when
    both are gone, and a writer that waits is not forgotten: while something is
    queued, the semaphore it waits for is positive. *)
Theorem stream_fibers (is_connected autoConnect : bool) (s : stream) :
  reachable (new_stream is_connected autoConnect) s ->
  m_waitSem s + b2n (reader s) + b2n (alive (writer s)) = 2
  /\ (forall r cb s', step (LStart r cb) s = Some s' -> reader s = false /\ writer s = WOut)
  /\ (writer s = WWait -> m_queue s <> [] -> is_Some (step (LWriter true) s)).
Proof.
  intros Hr. destruct (as_reachable_inv _ _ _ Hr) as [_ [F W]]. split_and!.
  - by destruct (writer s).
  - intros r cb s' H. simpl in H. unfold step_start in H. destruct (m_waitSem s) as [| [| n]]; try done.
    destruct (reader s), (writer s); simpl in F; done || lia.
  - intros Hw Hq. simpl. unfold step_writer. rewrite Hw. destruct (W Hq) as [? | Ht]; [| congruence].
    destruct (m_sem s); [lia | eauto].
Qed.

(** * Where the code goes wrong *)

(** Two requests with the same serial number: the second is not in the table, and
    when it times out it takes the entry of the first with it, whose response
    then finds nobody. *)
Lemma duplicate_sn_loses_response :
  let s := run [LStart true true; LRequest 4 req0 500; LCall 0; LCall 0; LRequest 5 req0 100; LCall 0; LCall 0;
                LExpire 1; LTimeOut] (new_stream true false) in
  m_ctxs s = ∅ /\ resumed s = []
  /\ step (LRecv (Some (MResponse {| rs_sn := 7; rs_cmd := 1; rs_result := 0; rs_resultStr := []; rs_body := [] |}%Z)) true) s
     = Some s.
Proof. vm_compute. split_and!; reflexivity. Qed.

(** [setConnection] hands the disconnect callback on only when there is a connect
    callback. *)
Lemma disconnect_callback_dropped :
  let m := {| Mg.m_datas := []; Mg.m_size := 0; Mg.m_idx := 0; Mg.m_connectCb := None; Mg.m_disconnectCb := Some 9 |} in
  Mg.disconnectCb (snd (Mg.setConnection [1] m {| Mg.connectCb := ∅; Mg.disconnectCb := ∅; Mg.closed := [] |})) !! 1 = None.
Proof. reflexivity. Qed.

(** * The manager of streams *)

Definition mg_ok (m : Mg.manager) : Prop :=
  Mg.m_size m = Z.of_nat (length (Mg.m_datas m)) /\ (Mg.m_size m < 2 ^ 32)%Z /\ (0 <= Mg.m_idx m)%Z.

Lemma get_loop_spec isConnected todo m :
  mg_ok m -> (0 < Mg.m_size m)%Z -> (Mg.m_idx m + Z.of_nat todo < 2 ^ 32)%Z ->
  exists r m', Mg.get_loop todo isConnected m = Ok (r, m')
    /\ match r with
       | Some st => st ∈ Mg.m_datas m /\ isConnected st = true
       | None => forall k, (1 <= k <= Z.of_nat todo)%Z ->
           exists st, Mg.m_datas m !! Z.to_nat ((Mg.m_idx m + k) mod Mg.m_size m)%Z = Some st /\ isConnected st = false
       end.
Proof.
  revert m. induction todo as [| todo IH]; intros m (Hs & Hb & Hi) Hpos Hw; cbn [Mg.get_loop].
  { exists None, m. split; [done |]. intros; lia. }
  assert (Hu : u32 (Mg.m_idx m + 1) = (Mg.m_idx m + 1)%Z) by (apply wrap_small; unfold in_unsigned; lia).
  rewrite Hu. cbn [Mg.m_datas Mg.m_size].
  pose proof (Z.mod_pos_bound (Mg.m_idx m + 1) (Mg.m_size m) Hpos) as Hm.
  destruct (lookup_lt_is_Some_2 (Mg.m_datas m) (Z.to_nat ((Mg.m_idx m + 1) mod Mg.m_size m))) as [st Hst]; [lia |].
  rewrite Hst. cbn [of_ptr mbind outcome_bind]. destruct (isConnected st) eqn:Ec.
  { eexists (Some st), _. split; [done |]. split; [by eapply list_elem_of_lookup_2 | done]. }
  set (m1 := {| Mg.m_datas := _ |}).
  destruct (IH m1) as (r & m' & -> & H); [split_and!; simpl; try done; lia | done | simpl; lia |].
  exists r, m'. split; [done |]. destruct r; [done |]. intros k Hk. destruct (decide (k = 1)%Z) as [-> |]; [eauto |].
  specialize (H (k - 1)%Z ltac:(lia)). simpl in H. by replace (Mg.m_idx m + 1 + (k - 1))%Z with (Mg.m_idx m + k)%Z in H by lia.
Qed.

(** Every position is met among [n] consecutive indices. *)
Lemma residues n i j : (0 < n)%Z -> (0 <= j < n)%Z -> exists k, (1 <= k <= n)%Z /\ ((i + k) mod n = j)%Z.
Proof.
  intros Hn Hj. exists ((j - i - 1) mod n + 1)%Z. pose proof (Z.mod_pos_bound (j - i - 1) n Hn). split; [lia |].
  replace (i + ((j - i - 1) mod n + 1))%Z with ((i + 1) + (j - i - 1) mod n)%Z by lia.
  rewrite Zplus_mod_idemp_r. replace (i + 1 + (j - i - 1))%Z with j by lia. by apply Z.mod_small.
Qed.

(** The manager hands out a connected stream whenever there is one, as long as
    its index does not wrap around on the way. *)
Theorem manager_serves (isConnected : nat -> bool) (m : Mg.manager) :
  mg_ok m -> (Mg.m_idx m + Mg.m_size m < 2 ^ 32)%Z ->
  exists r m', Mg.get isConnected m = Ok (r, m')
    /\ match r with
       | Some st => st ∈ Mg.m_datas m /\ isConnected st = true
       | None => forall st, st ∈ Mg.m_datas m -> isConnected st = false
       end.
Proof.
  intros Hok Hw. pose proof Hok as (Hs & Hb & Hi). unfold Mg.get.
  destruct (decide (Mg.m_size m = 0)%Z) as [E0 | Hne].
  { rewrite E0. exists None, m. split; [done |]. intros st Hst. destruct (Mg.m_datas m); [set_solver | simpl in Hs; lia]. }
  destruct (get_loop_spec isConnected (Z.to_nat (Mg.m_size m)) m Hok) as (r & m' & E & H); [lia | lia |].
  exists r, m'. split; [done |]. destruct r; [done |]. intros st Hst. apply list_elem_of_lookup in Hst as [j Hj].
  apply lookup_lt_Some in Hj as Hlt.
  destruct (residues (Mg.m_size m) (Mg.m_idx m) (Z.of_nat j)) as (k & Hk & Ek); [lia | lia |].
  destruct (H k ltac:(lia)) as (st' & Hst' & Hc). rewrite Ek, Nat2Z.id in Hst'. congruence.
Qed.
