(* ===== verification/LoadBalance.v ===== *)
(** Load balancing of sylar/streams/load_balance.h and load_balance.cc: the
    per-second statistics ring, the balanced items, the round-robin and
    weighted balancers, and the balancers that follow service discovery.

    Items are objects shared between a balancer's map and its vector, so that
    a balancer holds references and every operation takes the current contents
    of the objects and the streams that are connected. *)

From stdpp Require Import gmap strings.
From Stdlib Require Import SpecFloat.
From S2P Require Import Prelude Generic.

Module Lb.

Local Open Scope Z_scope.

(** ** Statistics *)

Record HolderStats := mkStats {
  m_usedTime : Z;
  m_total : Z;
  m_doing : Z;
  m_timeouts : Z;
  m_oks : Z;
  m_errs : Z;
}.

Definition clear : HolderStats := mkStats 0 0 0 0 0 0.

(** [rt.f += i.f] for every counter. *)
Definition add_stats (a b : HolderStats) : HolderStats :=
  mkStats (u32 (m_usedTime a + m_usedTime b)) (u32 (m_total a + m_total b)) (u32 (m_doing a + m_doing b))
    (u32 (m_timeouts a + m_timeouts b)) (u32 (m_oks a + m_oks b)) (u32 (m_errs a + m_errs b)).

Record HolderStatsSet := mkSet {
  m_lastUpdateTime : Z;
  m_stats : list HolderStats;
}.

Definition new_HolderStatsSet (size : nat) : HolderStatsSet := mkSet 0 (replicate size clear).

Definition getTotal (s : HolderStatsSet) : HolderStats := foldl add_stats clear (m_stats s).

(** The slot of a second. *)
Definition slot (s : list HolderStats) (t : Z) : nat := Z.to_nat (t mod Z.of_nat (length s)).

(** [for(t = last + 1, i = 0; t <= now && i < size; ++t, ++i)], with [n] the
    iterations that [i] still allows. *)
Fixpoint clear_loop (n : nat) (t now : Z) (s : list HolderStats) : list HolderStats :=
  match n with
  | O => s
  | S n => if t <=? now then clear_loop n (u32 (t + 1)) now (<[slot s t := clear]> s) else s
  end.

(** [HolderStatsSet::init] *)
Definition init_stats (s : HolderStatsSet) (now : Z) : HolderStatsSet :=
  if m_lastUpdateTime s <? now
  then mkSet now (clear_loop (length (m_stats s)) (u32 (m_lastUpdateTime s + 1)) now (m_stats s))
  else s.

(** [HolderStatsSet::get]: the set brought up to date and the slot whose
    reference is returned. *)
Definition get_stats (s : HolderStatsSet) (now : Z) : outcome (HolderStatsSet * nat) :=
  let s := init_stats s now in
  if (length (m_stats s) =? 0)%nat then Fail DivByZero else Ok (s, slot (m_stats s) now).

(** A caller writes through that reference. *)
Definition record (s : HolderStatsSet) (now : Z) (f : HolderStats -> HolderStats) : outcome HolderStatsSet :=
  '(s, i) ← get_stats s now; Ok (mkSet (m_lastUpdateTime s) (alter f i (m_stats s))).

(** ** Items *)

Inductive Type_ := ROUNDROBIN | WEIGHT | FAIR.

#[global] Instance Type_eq_dec : EqDecision Type_.
Proof. solve_decision. Defined.

Record LoadBalanceItem := mkItem {
  m_id : Z;
  m_stream : option nat;
  m_weight : Z;
  i_stats : HolderStatsSet;
  i_fair : bool;          (* a FairLoadBalanceItem *)
}.

Definition new_item (fair : bool) : LoadBalanceItem := mkItem 0 None 0 (new_HolderStatsSet 5) fair.
Definition setId (i : LoadBalanceItem) v := mkItem v (m_stream i) (m_weight i) (i_stats i) (i_fair i).
Definition setStream (i : LoadBalanceItem) v := mkItem (m_id i) v (m_weight i) (i_stats i) (i_fair i).
Definition setWeight (i : LoadBalanceItem) v := mkItem (m_id i) (m_stream i) v (i_stats i) (i_fair i).

Section balancers.
(** The streams that are connected; the conversion to [int32_t] of a weight
    times the floating-point weight of the statistics; and the order in which
    an [unordered_map] is traversed. *)
Context (conn : nat -> bool) (scaled : Z -> HolderStatsSet -> Z).
Context (iter : forall A, gmap Z A -> list (Z * A)).
Context (obj : nat -> LoadBalanceItem).

Definition isValid (r : nat) : bool :=
  match m_stream (obj r) with Some s => conn s | None => false end.

(** [getWeight] of either class; the fair one dereferences its stream. It also
    brings its statistics up to date first, which every later access repeats;
    that is part of [scaled] here and leaves no trace in the object. *)
Definition getWeight (r : nat) : outcome Z :=
  let i := obj r in
  if i_fair i then
    s ← of_ptr (m_stream i);
    let v := scaled (m_weight i) (i_stats i) in
    Ok (if conn s then if 1 <? v then v else 1 else 1)
  else Ok (m_weight i).

(** ** Balancers *)

(** A [RoundRobinLoadBalance], or a [WeightLoadBalance] when [weighted]. *)
Record LoadBalance := mkLb {
  weighted : bool;
  m_datas : gmap Z nat;
  m_lastInitTime : Z;
  m_items : list nat;
  m_weights : list Z;
}.

Definition new_LoadBalance (w : bool) : LoadBalance := mkLb w ∅ 0 [] [].

Definition set_datas (b : LoadBalance) d := mkLb (weighted b) d (m_lastInitTime b) (m_items b) (m_weights b).

Definition valid_items (d : gmap Z nat) : list nat := List.filter isValid (snd <$> iter nat d).

(** The running totals of the weights, kept in [int64_t]. *)
Fixpoint totals (total : Z) (items : list nat) : outcome (list Z) :=
  match items with
  | [] => Ok []
  | r :: items => w ← getWeight r; let total := i64 (total + w) in ts ← totals total items; Ok (total :: ts)
  end.

Definition initNolock (b : LoadBalance) : outcome LoadBalance :=
  let items := valid_items (m_datas b) in
  if weighted b then
    ws ← totals 0 items; Ok (mkLb true (m_datas b) (m_lastInitTime b) items ws)
  else Ok (mkLb false (m_datas b) (m_lastInitTime b) items (m_weights b)).

Definition getById (b : LoadBalance) (id : Z) : option nat := m_datas b !! id.

Definition add (b : LoadBalance) (v : nat) : outcome LoadBalance :=
  initNolock (set_datas b (<[m_id (obj v) := v]> (m_datas b))).

Definition del (b : LoadBalance) (v : nat) : outcome LoadBalance :=
  initNolock (set_datas b (delete (m_id (obj v)) (m_datas b))).

(** [update]: [dels] comes back with the items that were removed. *)
Definition update (b : LoadBalance) (adds : gmap Z nat) (dels : gmap Z (option nat)) :
    outcome (LoadBalance * gmap Z (option nat)) :=
  let removed := map_imap (fun id old => Some (match m_datas b !! id with Some r => Some r | None => old end)) dels in
  let kept := filter (fun e => dels !! e.1 = None) (m_datas b) in
  b ← initNolock (set_datas b (adds ∪ kept)); Ok (b, removed).

Definition set_ (b : LoadBalance) (vs : list nat) : outcome LoadBalance :=
  initNolock (set_datas b (foldl (fun d v => <[m_id (obj v) := v]> d) ∅ vs)).

(** [checkInit], at the time [ts] of the millisecond clock. *)
Definition checkInit (b : LoadBalance) (ts : Z) : outcome LoadBalance :=
  if 500 <? u64 (ts - m_lastInitTime b) then
    b ← initNolock b; Ok (mkLb (weighted b) (m_datas b) ts (m_items b) (m_weights b))
  else Ok b.

(** [v == (uint64_t)-1 ? rand() : v] *)
Definition pick (v rnd : Z) : Z := if v =? UINT64_MAX then rnd else v.

(** The first valid item from index [idx] on, round the vector. *)
Fixpoint scan_from (items : list nat) (idx : nat) (n : nat) : option nat :=
  match n with
  | O => None
  | S n =>
      match items !! (idx mod length items)%nat with
      | Some h => if isValid h then Some h else scan_from items (S idx) n
      | None => None
      end
  end.

(** [std::upper_bound]: the search by halves for the first total above [dis],
    compared unsigned. [len] bounds the halvings. *)
Fixpoint upper_bound_loop (fuel : nat) (ws : list Z) (dis : Z) (first len : nat) : nat :=
  match fuel with
  | O => first
  | S fuel =>
      if (len =? 0)%nat then first else
      let half := (len / 2)%nat in
      let mid := (first + half)%nat in
      if dis <? u64 (nth mid ws 0) then upper_bound_loop fuel ws dis first half
      else upper_bound_loop fuel ws dis (S mid) (len - half - 1)
  end.

Definition upper_bound (ws : list Z) (dis : Z) : nat := upper_bound_loop (length ws) ws dis 0 (length ws).

Definition getIdx (b : LoadBalance) (v rnd : Z) : outcome (option nat) :=
  match last (m_weights b) with
  | None => Ok None
  | Some total =>
      if u64 total =? 0 then Fail DivByZero else
      let i := upper_bound (m_weights b) (pick v rnd mod u64 total) in
      _ ← sylar_assert (negb (i =? length (m_weights b))%nat); Ok (Some i)
  end.

(** [get] of either class, at time [ts]. *)
Definition get (b : LoadBalance) (ts v rnd : Z) : outcome (LoadBalance * option nat) :=
  b ← checkInit b ts;
  if weighted b then
    idx ← getIdx b v rnd;
    match idx with
    | None => Ok (b, None)
    | Some i => Ok (b, scan_from (m_items b) i (length (m_items b)))
    end
  else
    if (length (m_items b) =? 0)%nat then Ok (b, None) else
    let r := u32 (pick v rnd mod Z.of_nat (length (m_items b))) in
    Ok (b, scan_from (m_items b) (Z.to_nat r) (length (m_items b))).

End balancers.

(** ** Balancers that follow service discovery *)

Record ServiceItemInfo := mkInfo {
  s_id : Z;
  s_port : Z;
  s_ip : string;
  s_data : string;
}.

(** [sd_heap] holds the item objects that exist; an item is its index there. *)
Record SDLoadBalance := mkSD {
  sd_datas : gmap string (gmap string LoadBalance);
  sd_types : gmap string (gmap string Type_);
  sd_defaultType : Type_;
  sd_heap : list LoadBalanceItem;
}.

Definition new_SDLoadBalance : SDLoadBalance := mkSD ∅ ∅ FAIR [].

Definition deref (heap : list LoadBalanceItem) (r : nat) : LoadBalanceItem := nth r heap (new_item false).

Definition sd_lookup {A} (m : gmap string (gmap string A)) (domain service : string) : option A :=
  m !! domain ≫= fun s => s !! service.

(** [m[domain][service] = v] *)
Definition sd_store {A} (m : gmap string (gmap string A)) (domain service : string) (v : A) : gmap string (gmap string A) :=
  <[domain := <[service := v]> (default ∅ (m !! domain))]> m.

Definition getType (sd : SDLoadBalance) (domain service : string) : Type_ :=
  default (sd_defaultType sd) (sd_lookup (sd_types sd) domain service).

Definition createLoadBalance (t : Type_) : LoadBalance :=
  match t with ROUNDROBIN => new_LoadBalance false | WEIGHT => new_LoadBalance true | FAIR => new_LoadBalance true end.

Definition createLoadBalanceItem (t : Type_) : LoadBalanceItem :=
  match t with ROUNDROBIN => new_item false | WEIGHT => new_item false | FAIR => new_item true end.

Definition sd_set (sd : SDLoadBalance) (domain service : string) (b : LoadBalance) : SDLoadBalance :=
  mkSD (sd_store (sd_datas sd) domain service b) (sd_types sd) (sd_defaultType sd) (sd_heap sd).

(** [SDLoadBalance::get] *)
Definition sd_get (sd : SDLoadBalance) (domain service : string) (auto_create : bool) : SDLoadBalance * option LoadBalance :=
  match sd_lookup (sd_datas sd) domain service with
  | Some b => (sd, Some b)
  | None =>
      if auto_create then
        let b := createLoadBalance (getType sd domain service) in (sd_set sd domain service b, Some b)
      else (sd, None)
  end.

(** [SDLoadBalance::initConf]: the types it sets and the services it asks the
    discovery to query. A domain with no service leaves no entry. *)
Definition type_of_name (n : string) : Type_ :=
  if String.eqb n "round_robin" then ROUNDROBIN else if String.eqb n "weight" then WEIGHT else FAIR.

Definition initConf (sd : SDLoadBalance) (confs : gmap string (gmap string string)) :
    SDLoadBalance * gmap string (gset string) :=
  (mkSD (sd_datas sd)
     (omap (fun s : gmap string string => if decide (s = ∅) then None else Some (type_of_name <$> s)) confs)
     (sd_defaultType sd) (sd_heap sd),
   omap (fun s : gmap string string => if decide (s = ∅) then None else Some (dom s)) confs).

Section discovery.
Context (conn : nat -> bool) (scaled : Z -> HolderStatsSet -> Z).
Context (iter : forall A, gmap Z A -> list (Z * A)).
(** [m_cb]: the stream made for a service, if any. *)
Context (m_cb : ServiceItemInfo -> option nat).

(** The items created for the services that appeared. *)
Fixpoint create_items (t : Type_) (heap : list LoadBalanceItem) (infos : gmap Z nat) (l : list (Z * ServiceItemInfo)) :
    list LoadBalanceItem * gmap Z nat :=
  match l with
  | [] => (heap, infos)
  | (id, info) :: l =>
      match m_cb info with
      | None => create_items t heap infos l
      | Some stream =>
          let item := setWeight (setStream (setId (createLoadBalanceItem t) id) (Some stream)) 10000 in
          create_items t (heap ++ [item]) (<[id := length heap]> infos) l
      end
  end.

(** [LoadBalanceItem::close]: the stream whose closing is scheduled. *)
Definition close (heap : list LoadBalanceItem) (r : nat) : list nat := option_list (m_stream (deref heap r)).

(** [SDLoadBalance::onServiceChange], with the streams it closes. *)
Definition onServiceChange (sd : SDLoadBalance) (domain service : string) (old_value new_value : gmap Z ServiceItemInfo) :
    outcome (SDLoadBalance * list nat) :=
  let t := getType sd domain service in
  let '(sd, lb) := sd_get sd domain service true in
  b ← of_ptr lb;
  let del_infos := (fun _ => None) <$> filter (fun e => new_value !! e.1 = None) old_value : gmap Z (option nat) in
  let add_values := filter (fun e => old_value !! e.1 = None) new_value in
  let '(heap, add_infos) := create_items t (sd_heap sd) ∅ (iter _ add_values) in
  '(b, del_infos) ← update conn scaled iter (deref heap) b add_infos del_infos;
  Ok (sd_set (mkSD (sd_datas sd) (sd_types sd) (sd_defaultType sd) heap) domain service b,
      (snd <$> iter _ del_infos) ≫= fun o => match o with Some r => close heap r | None => [] end).

End discovery.

End Lb.

(** ** The weight of the statistics *)

(** The floating-point weights, in the types that C++ computes them in. *)
Module Fw.

Import Lb Gn.
Local Open Scope Z_scope.

(** Arithmetic of [double] and [float]. *)
Definition dmul := SFmul 53 1024.
Definition ddiv := SFdiv 53 1024.
Definition dsub := SFsub 53 1024.
Definition fdiv := SFdiv 24 128.
Definition fsub := SFsub 24 128.
Definition fmul := SFmul 24 128.
Definition fadd := SFadd 24 128.

(** A [float] is a [double]. *)
Definition dbl_of_flt (f : flt) : flt :=
  match f with S754_finite s m e => binary_normalize 53 1024 (if s then Z.neg m else Z.pos m) e s | _ => f end.

(** [std::min] *)
Definition dmin (a b : flt) : flt := if SFltb b a then b else a.

(** [HolderStats::getWeight]; the counters are 32 bits wide. *)
Definition stats_weight (s : HolderStats) (rate : flt) : flt :=
  let base := flt_of_Z (u32 (m_total s + 20)) in
  let one := dbl_of_Z 1 in
  let load := dmin (dmul (ddiv (dmul (dbl_of_Z (m_oks s)) one) (dbl_of_Z (u32 (m_usedTime s + 1)))) (dbl_of_Z 2)) (dbl_of_Z 50) in
  let timeouts := dsub one (ddiv (dmul (dbl_of_Z 4) (dbl_of_Z (m_timeouts s))) (dbl_of_flt base)) in
  let doing := fsub (flt_of_Z 1) (fdiv (flt_of_Z (m_doing s)) base) in
  let errs := dsub one (ddiv (dmul (dbl_of_Z 10) (dbl_of_Z (m_errs s))) (dbl_of_flt base)) in
  flt_of_dbl (dmul (dmul (dmul (dmul load timeouts) (dbl_of_flt doing)) errs) (dbl_of_flt rate)).

(** 0.1 as a [double], and the rate [1 - 0.1 * i] of the second [i] ago *)
Definition tenth : flt := ddiv (dbl_of_Z 1) (dbl_of_Z 10).
Definition rate_of (i : nat) : flt := flt_of_dbl (dsub (dbl_of_Z 1) (dmul tenth (dbl_of_Z (Z.of_nat i)))).

(** [HolderStatsSet::getWeight] *)
Definition set_weight (s : HolderStatsSet) (now : Z) : flt :=
  let s := init_stats s now in
  foldl (fun v i => fadd v (stats_weight (nth (slot (m_stats s) (u64 (now - Z.of_nat i))) (m_stats s) clear) (rate_of i)))
    (S754_zero false) (seq 1 (length (m_stats s) - 1)).

(** [m_weight * m_stats.getWeight()] as an [int32_t] *)
Definition scaled (now : Z) (weight : Z) (s : HolderStatsSet) : outcome Z := int_of_flt (fmul (flt_of_Z weight) (set_weight s now)).

End Fw.
