(* ===== verification/LoadBalanceProps.v ===== *)
(** The properties of the balancers. *)

From stdpp Require Import gmap strings sorting.
From S2P Require Import Prelude LoadBalance.

Import Lb.
Local Open Scope Z_scope.

(** ** Weights and their running totals *)

Fixpoint sum (ws : list Z) : Z := match ws with [] => 0 | w :: ws => w + sum ws end.

Lemma sum_app a b : sum (a ++ b) = sum a + sum b.
Proof. induction a as [| x a IH]; simpl; [done |]. rewrite IH. lia. Qed.

Lemma sum_nonneg ws : Forall (fun w => 0 < w) ws -> 0 <= sum ws.
Proof. induction 1; simpl; lia. Qed.

(** What [totals] computes when nothing overflows. *)
Fixpoint prefix_sums (acc : Z) (ws : list Z) : list Z :=
  match ws with [] => [] | w :: ws => (acc + w) :: prefix_sums (acc + w) ws end.

Lemma length_prefix_sums acc ws : length (prefix_sums acc ws) = length ws.
Proof. revert acc. induction ws as [| w ws IH]; intros acc; simpl; [done |]. by rewrite IH. Qed.

Lemma prefix_sums_nth acc ws i : (i < length ws)%nat -> nth i (prefix_sums acc ws) 0 = acc + sum (take (S i) ws).
Proof.
  revert acc i. induction ws as [| w ws IH]; intros acc [| i] Hi; simpl in *; try lia. rewrite IH by lia. simpl. lia.
Qed.

Lemma prefix_sums_last acc ws : ws <> [] -> last (prefix_sums acc ws) = Some (acc + sum ws).
Proof.
  revert acc. induction ws as [| w ws IH]; intros acc Hne; [done |]. destruct ws as [| w2 ws].
  - simpl. f_equal. lia.
  - change (prefix_sums acc (w :: w2 :: ws)) with ((acc + w) :: prefix_sums (acc + w) (w2 :: ws)).
    rewrite last_cons, IH by done. f_equal. simpl. lia.
Qed.

Lemma sum_take_mono ws i j : Forall (fun w => 0 < w) ws -> (i <= j)%nat -> sum (take i ws) <= sum (take j ws).
Proof.
  intros H Hij. rewrite <- (take_drop i (take j ws)), take_take, Nat.min_l, sum_app by done.
  enough (0 <= sum (drop i (take j ws))) by lia. by apply sum_nonneg, Forall_drop, Forall_take.
Qed.

Lemma sum_take_strict ws i j :
  Forall (fun w => 0 < w) ws -> (i < j <= length ws)%nat -> sum (take i ws) < sum (take j ws).
Proof.
  intros H Hij. assert (H1 : sum (take i ws) < sum (take (S i) ws)).
  { destruct (lookup_lt_is_Some_2 ws i) as [w Hw]; [lia |]. rewrite (take_S_r _ _ _ Hw), sum_app. simpl.
    pose proof (Forall_lookup_1 _ _ _ _ H Hw). simpl in *. lia. }
  pose proof (sum_take_mono ws (S i) j H). lia.
Qed.

Lemma sum_take_all ws i : (length ws <= i)%nat -> sum (take i ws) = sum ws.
Proof. intros. by rewrite take_ge. Qed.

Lemma sum_take_le ws i : Forall (fun w => 0 < w) ws -> 0 <= sum (take i ws) <= sum ws.
Proof.
  intros H. split; [by apply sum_nonneg, Forall_take |].
  destruct (decide (i <= length ws)%nat) as [Hi|Hi].
  - pose proof (sum_take_mono ws i (length ws) H Hi) as Hm. by rewrite (sum_take_all ws (length ws)) in Hm by lia.
  - rewrite sum_take_all by lia. lia.
Qed.

(** ** The search by halves *)

(** [upper_bound] returns the one index whose interval holds the target. *)
Lemma upper_bound_loop_spec fuel ws dis first len i :
  Forall (fun w => 0 < w) ws -> sum ws < 2 ^ 63 -> (first + len <= length ws)%nat -> (len <= fuel)%nat ->
  (first <= i <= first + len)%nat ->
  sum (take i ws) <= dis -> ((i < length ws)%nat -> dis < sum (take (S i) ws)) ->
  upper_bound_loop fuel (prefix_sums 0 ws) dis first len = i.
Proof.
  intros Hpos Hb. revert first len. induction fuel as [| fuel IH]; intros first len Hlen Hf Hi Hlo Hhi; cbn [upper_bound_loop].
  { lia. }
  destruct (Nat.eqb_spec len 0) as [->|Hne]; [lia |].
  pose proof (Nat.div_lt len 2 ltac:(lia) ltac:(lia)) as Hhalf.
  set (half := (len / 2)%nat) in *. rewrite prefix_sums_nth by lia. rewrite Z.add_0_l.
  rewrite (wrap_small 64) by (unfold in_unsigned; pose proof (sum_take_le ws (S (first + half)) Hpos); lia).
  destruct (Z.ltb_spec dis (sum (take (S (first + half)) ws))) as [Hlt|Hge].
  - assert (i <= first + half)%nat.
    { destruct (decide (i <= first + half)%nat); [done |]. pose proof (sum_take_mono ws (S (first + half)) i Hpos). lia. }
    apply IH; try done; lia.
  - assert (first + half < i)%nat.
    { destruct (decide (first + half < i)%nat); [done |]. pose proof (Hhi ltac:(lia)).
      pose proof (sum_take_mono ws (S i) (S (first + half)) Hpos). lia. }
    apply IH; try done; lia.
Qed.

Lemma interval_exists ws dis :
  Forall (fun w => 0 < w) ws -> 0 <= dis < sum ws ->
  exists i, (i < length ws)%nat /\ sum (take i ws) <= dis < sum (take (S i) ws).
Proof.
  intros H Hd. enough (Hn : forall n, (n <= length ws)%nat -> dis < sum (take n ws) ->
    exists i, (i < n)%nat /\ sum (take i ws) <= dis < sum (take (S i) ws)).
  { destruct (Hn (length ws)) as (i & Hi & Hx); [done | rewrite sum_take_all by lia; lia |]. eauto. }
  induction n as [| n IH]; intros Hn Hlt; [simpl in *; lia |].
  destruct (Z.lt_ge_cases dis (sum (take n ws))) as [Hl|Hg].
  - destruct IH as (i & Hi & Hx); [lia | done |]. exists i. split; [lia | done].
  - exists n. split; [lia | done].
Qed.

Lemma upper_bound_spec ws dis i :
  Forall (fun w => 0 < w) ws -> sum ws < 2 ^ 63 -> 0 <= dis < sum ws ->
  upper_bound (prefix_sums 0 ws) dis = i <-> ((i < length ws)%nat /\ sum (take i ws) <= dis < sum (take (S i) ws)).
Proof.
  intros Hpos Hb Hd. assert (Hfun : forall j, (j < length ws)%nat /\ sum (take j ws) <= dis < sum (take (S j) ws) ->
    upper_bound (prefix_sums 0 ws) dis = j).
  { intros j [Hj Hx]. unfold upper_bound. rewrite length_prefix_sums. apply upper_bound_loop_spec; try done; lia. }
  split; [| apply Hfun]. intros <-. destruct (interval_exists ws dis Hpos Hd) as (j & Hj & Hx).
  by rewrite (Hfun j (conj Hj Hx)).
Qed.

(** How many numbers below [n] lie in an interval. *)
Lemma count_interval (f : nat -> bool) (a b n : nat) :
  (a <= b <= n)%nat -> (forall k, (k < n)%nat -> f k = true <-> (a <= k < b)%nat) ->
  length (List.filter f (seq 0 n)) = (b - a)%nat.
Proof.
  intros Hab Hf. replace n with (a + ((b - a) + (n - b)))%nat by lia. rewrite !seq_app, !List.filter_app, !length_app. simpl.
  assert (Hall : forall s k, (forall x, (s <= x < s + k)%nat -> f x = true) -> length (List.filter f (seq s k)) = k).
  { intros s k. revert s. induction k as [| k IH]; intros s H; simpl; [done |]. rewrite (H s) by lia. simpl. f_equal. apply IH.
    intros x Hx. apply H. lia. }
  assert (Hnone : forall s k, (forall x, (s <= x < s + k)%nat -> f x = false) -> length (List.filter f (seq s k)) = 0%nat).
  { intros s k. revert s. induction k as [| k IH]; intros s H; simpl; [done |]. rewrite (H s) by lia. apply IH.
    intros x Hx. apply H. lia. }
  assert (Hno : forall x, (x < n)%nat -> ~ (a <= x < b)%nat -> f x = false).
  { intros x Hx Hn. destruct (f x) eqn:E; [| done]. by apply Hf in E. }
  rewrite Hnone, Hall, Hnone; [lia | | |].
  - intros x Hx. apply Hno; lia.
  - intros x Hx. apply Hf; lia.
  - intros x Hx. apply Hno; lia.
Qed.

Section balancer.
Context (conn : nat -> bool) (scaled : Z -> HolderStatsSet -> Z).
Context (iter : forall A, gmap Z A -> list (Z * A)).
Context (obj : nat -> LoadBalanceItem).

Abbreviation weight := (getWeight conn scaled obj).
Abbreviation valid := (isValid conn obj).

Lemma totals_spec items ws acc :
  Forall2 (fun r w => weight r = Ok w) items ws -> Forall (fun w => 0 < w) ws -> 0 <= acc -> acc + sum ws < 2 ^ 63 ->
  totals conn scaled obj acc items = Ok (prefix_sums acc ws).
Proof.
  intros H. revert acc. induction H as [| r w items ws Hw H IH]; intros acc Hpos Ha Hb; [done |]. simpl in *.
  apply Forall_cons in Hpos as [Hw0 Hpos]. pose proof (sum_nonneg ws Hpos). rewrite Hw. simpl.
  assert (E : i64 (acc + w) = acc + w) by (apply to_signed_small; [lia | unfold in_signed; lia]).
  rewrite E, IH by (done || lia). done.
Qed.

(** The weights a balancer was last initialised with. *)
Definition weighs (b : LoadBalance) (ws : list Z) : Prop :=
  m_weights b = prefix_sums 0 ws /\ length ws = length (m_items b) /\ Forall (fun w => 0 < w) ws /\ sum ws < 2 ^ 63.

Lemma getIdx_spec b ws v rnd :
  weighs b ws -> ws <> [] ->
  exists i, getIdx b v rnd = Ok (Some i) /\ (i < length ws)%nat
    /\ sum (take i ws) <= pick v rnd mod sum ws < sum (take (S i) ws).
Proof.
  intros (Ew & _ & Hpos & Hb) Hne. unfold getIdx. rewrite Ew, prefix_sums_last, Z.add_0_l by done.
  assert (Hs : 0 < sum ws).
  { destruct ws as [| w ws]; [done |]. apply Forall_cons in Hpos as [Hw Hpos]. pose proof (sum_nonneg ws Hpos). simpl. lia. }
  rewrite (wrap_small 64) by (unfold in_unsigned; lia). destruct (Z.eqb_spec (sum ws) 0); [lia |].
  pose proof (Z.mod_pos_bound (pick v rnd) (sum ws) Hs) as Hm.
  destruct (proj1 (upper_bound_spec ws _ _ Hpos Hb Hm) eq_refl) as [Hi Hx].
  eexists. rewrite length_prefix_sums. destruct (Nat.eqb_spec (upper_bound (prefix_sums 0 ws) (pick v rnd mod sum ws)) (length ws));
    [lia |]. done.
Qed.

Lemma initNolock_weighs b ws :
  weighted b = true -> Forall2 (fun r w => weight r = Ok w) (valid_items conn iter obj (m_datas b)) ws ->
  Forall (fun w => 0 < w) ws -> sum ws < 2 ^ 63 ->
  exists b', initNolock conn scaled iter obj b = Ok b' /\ weighs b' ws /\ weighted b' = true
    /\ m_items b' = valid_items conn iter obj (m_datas b) /\ m_datas b' = m_datas b.
Proof.
  intros Hw H Hpos Hb. unfold initNolock. rewrite Hw, (totals_spec _ ws) by (done || lia). simpl.
  eexists. split_and!; try done. split_and!; try done. simpl. symmetry. by eapply Forall2_length.
Qed.
End balancer.

(** C39: The weighted balancer picks each item in exact proportion to its
    weight. After [initNolock] over valid items of positive weights [ws], every
    request [v] selects, without failing, the one item [i] whose share
    [sum (take i ws), sum (take (S i) ws)) of the total holds [v] modulo the
    total, and of any [sum ws] consecutive requests from 0 exactly [w] select
    an item of weight [w]. The search by halves over the running totals and
    the assertion behind it never fail. *)
Theorem weighted_choice_exact conn scaled iter obj b ws :
  weighted b = true ->
  Forall2 (fun r w => getWeight conn scaled obj r = Ok w) (valid_items conn iter obj (m_datas b)) ws ->
  Forall (fun w => 0 < w) ws -> ws <> [] -> sum ws < 2 ^ 63 ->
  exists b', initNolock conn scaled iter obj b = Ok b' /\ m_items b' = valid_items conn iter obj (m_datas b)
  /\ (forall v rnd, exists i, getIdx b' v rnd = Ok (Some i) /\ (i < length (m_items b'))%nat
        /\ sum (take i ws) <= pick v rnd mod sum ws < sum (take (S i) ws))
  /\ (forall i w rnd, ws !! i = Some w ->
        length (List.filter (fun v => bool_decide (getIdx b' (Z.of_nat v) rnd = Ok (Some i))) (seq 0 (Z.to_nat (sum ws))))
        = Z.to_nat w).
Proof.
  intros Hw Hws Hpos Hne Hb. destruct (initNolock_weighs conn scaled iter obj b ws Hw Hws Hpos Hb) as (b' & E & Hwb & _ & Hi & _).
  pose proof Hwb as (_ & Hlen & _). exists b'. split_and!; [done | done | |].
  - intros v rnd. rewrite <- Hlen. by apply getIdx_spec.
  - intros i w rnd Hiw. pose proof (lookup_lt_Some _ _ _ Hiw) as Hil.
    pose proof (sum_take_le ws i Hpos) as H1. pose proof (sum_take_le ws (S i) Hpos) as H2.
    assert (Hs : sum (take (S i) ws) = sum (take i ws) + w) by (rewrite (take_S_r _ _ _ Hiw), sum_app; simpl; lia).
    pose proof (Forall_lookup_1 _ _ _ _ Hpos Hiw) as Hw0. simpl in Hw0.
    rewrite (count_interval _ (Z.to_nat (sum (take i ws))) (Z.to_nat (sum (take (S i) ws)))); [lia | lia |].
    intros k Hk. rewrite bool_decide_eq_true. destruct (getIdx_spec b' ws (Z.of_nat k) rnd Hwb Hne) as (j & Ej & Hj & Hx).
    assert (Hp : pick (Z.of_nat k) rnd mod sum ws = Z.of_nat k).
    { unfold pick, UINT64_MAX. destruct (Z.eqb_spec (Z.of_nat k) (2 ^ 64 - 1)); [lia |]. apply Z.mod_small. lia. }
    rewrite Hp in Hx. rewrite Ej. split.
    + intros [= ->]. lia.
    + intros Hk2. do 2 f_equal. destruct (Nat.lt_trichotomy j i) as [Hji|[->|Hji]]; [| done |].
      * pose proof (sum_take_mono ws (S j) i Hpos ltac:(lia)). lia.
      * pose proof (sum_take_mono ws (S i) j Hpos ltac:(lia)). lia.
Qed.

Lemma weighted_choice_exact_witness :
  let obj r := mkItem (Z.of_nat r) (Some r) (match r with O => 2 | _ => 1 end) (new_HolderStatsSet 5) false in
  let b := mkLb true (<[0 := 0%nat]> {[1 := 1%nat]}) 0 [] [] in
  exists b', initNolock (fun _ => true) (fun w _ => w) (fun A m => map_to_list m) obj b = Ok b'
  /\ length (List.filter (fun v => bool_decide (getIdx b' (Z.of_nat v) 0 = Ok (Some 1%nat))) (seq 0 3)) = 2%nat.
Proof.
  intros obj b.
  destruct (weighted_choice_exact (fun _ => true) (fun w _ => w) (fun A m => map_to_list m) obj b [1; 2]) as (b' & E & _ & _ & Hc).
  - reflexivity.
  - vm_compute. repeat constructor.
  - repeat constructor.
  - discriminate.
  - reflexivity.
  - exists b'. split; [exact E |]. exact (Hc 1%nat 2 0 eq_refl).
Defined.

(** ** Finding a valid item *)

Section serving.
Context (conn : nat -> bool) (scaled : Z -> HolderStatsSet -> Z).
Context (iter : forall A, gmap Z A -> list (Z * A)).
Context (obj : nat -> LoadBalanceItem).
Context (iter_perm : forall A m, iter A m ≡ₚ map_to_list m).

Abbreviation valid := (isValid conn obj).

Lemma scan_from_found items idx n h : scan_from conn obj items idx n = Some h -> valid h = true /\ h ∈ items.
Proof.
  revert idx. induction n as [| n IH]; intros idx; simpl; [done |].
  destruct (items !! (idx mod length items)%nat) as [h'|] eqn:E; [| done]. destruct (valid h') eqn:Ev; [| apply IH].
  intros [= ->]. split; [done |]. by eapply list_elem_of_lookup_2.
Qed.

Lemma scan_from_none items idx n :
  scan_from conn obj items idx n = None ->
  forall k h, (k < n)%nat -> items !! ((idx + k) mod length items)%nat = Some h -> valid h = false.
Proof.
  revert idx. induction n as [| n IH]; intros idx; simpl; [lia |]. intros Hs k h Hk Hl.
  destruct (items !! (idx mod length items)%nat) as [h'|] eqn:E.
  - destruct (valid h') eqn:Ev; [done |]. destruct k as [| k].
    + rewrite Nat.add_0_r in Hl. congruence.
    + apply (IH (S idx) Hs k); [lia |]. by replace (S idx + k)%nat with (idx + S k)%nat by lia.
  - exfalso. apply lookup_ge_None_1 in E. apply lookup_lt_Some in Hl.
    pose proof (Nat.mod_upper_bound idx (length items)). lia.
Qed.

(** Every position is met on a full turn. *)
Lemma turn_meets idx j len : (j < len)%nat -> exists k, (k < len)%nat /\ ((idx + k) mod len)%nat = j.
Proof.
  intros Hj. pose proof (Nat.mod_upper_bound idx len ltac:(lia)) as Hm.
  set (q := (idx mod len)%nat) in *. exists ((j + (len - q)) mod len)%nat. split; [apply Nat.mod_upper_bound; lia |].
  rewrite Nat.Div0.add_mod_idemp_r. rewrite <- Nat.Div0.add_mod_idemp_l. fold q.
  replace (q + (j + (len - q)))%nat with (j + 1 * len)%nat by lia.
  rewrite Nat.Div0.mod_add. by apply Nat.mod_small.
Qed.

Lemma scan_from_spec items idx :
  match scan_from conn obj items idx (length items) with
  | Some h => valid h = true /\ h ∈ items
  | None => forall h, h ∈ items -> valid h = false
  end.
Proof.
  destruct (scan_from conn obj items idx (length items)) as [h|] eqn:E; [by eapply scan_from_found |].
  intros h [j Hj]%list_elem_of_lookup. destruct (turn_meets idx j (length items)) as (k & Hk & Em); [by eapply lookup_lt_Some |].
  eapply scan_from_none; [exact E | exact Hk |]. by rewrite Em.
Qed.

(** Valid items have a weight, positive as the configuration sets it. *)
Definition weights_ok : Prop :=
  forall r, valid r = true -> exists w, getWeight conn scaled obj r = Ok w /\ 0 < w < 2 ^ 31.

Definition lb_ok (b : LoadBalance) : Prop := weighted b = true -> exists ws, weighs b ws.

Lemma valid_items_spec d h : h ∈ valid_items conn iter obj d <-> valid h = true /\ exists id, d !! id = Some h.
Proof.
  unfold valid_items. rewrite list_elem_of_In, filter_In, <- list_elem_of_In, list_elem_of_fmap. split.
  - intros [([id h'] & -> & Hin) Hv]. split; [done |]. exists id. rewrite iter_perm in Hin. by apply elem_of_map_to_list in Hin.
  - intros [Hv [id Hid]]. split; [| done]. exists (id, h). split; [done |]. rewrite iter_perm. by apply elem_of_map_to_list.
Qed.

Lemma length_valid_items d : (length (valid_items conn iter obj d) <= size d)%nat.
Proof.
  unfold valid_items. etransitivity; [apply List.filter_length_le |]. rewrite length_fmap, iter_perm. by rewrite length_map_to_list.
Qed.

Lemma item_weights items :
  weights_ok -> (forall h, h ∈ items -> valid h = true) ->
  exists ws, Forall2 (fun r w => getWeight conn scaled obj r = Ok w) items ws /\ Forall (fun w => 0 < w) ws
    /\ sum ws <= Z.of_nat (length items) * 2 ^ 31.
Proof.
  intros Hw Hv. induction items as [| r items IH]; [exists []; by simpl |].
  destruct (Hw r) as (w & Ew & Hb); [apply Hv; left |]. destruct IH as (ws & H1 & H2 & H3); [intros h Hh; apply Hv; by right |].
  exists (w :: ws). split_and!; [by constructor | constructor; [lia | done] |]. cbn [sum length]. lia.
Qed.

Lemma initNolock_ok b :
  weights_ok -> Z.of_nat (size (m_datas b)) < 2 ^ 31 ->
  exists b', initNolock conn scaled iter obj b = Ok b' /\ lb_ok b' /\ weighted b' = weighted b
    /\ m_items b' = valid_items conn iter obj (m_datas b) /\ m_datas b' = m_datas b.
Proof.
  intros Hw Hsz. destruct (weighted b) eqn:Eb.
  - destruct (item_weights (valid_items conn iter obj (m_datas b)) Hw) as (ws & H1 & H2 & H3).
    { intros h Hh. by apply valid_items_spec in Hh as [? _]. }
    pose proof (length_valid_items (m_datas b)).
    destruct (initNolock_weighs conn scaled iter obj b ws Eb H1 H2) as (b' & E & Hwb & Hwt & Hi & Hd); [lia |].
    exists b'. split_and!; try done. intros _. by exists ws.
  - unfold initNolock. rewrite Eb. eexists. by split_and!.
Qed.

Lemma checkInit_ok b ts :
  weights_ok -> Z.of_nat (size (m_datas b)) < 2 ^ 31 -> lb_ok b ->
  exists b', checkInit conn scaled iter obj b ts = Ok b' /\ lb_ok b' /\ weighted b' = weighted b /\ m_datas b' = m_datas b
    /\ (500 < u64 (ts - m_lastInitTime b) -> m_items b' = valid_items conn iter obj (m_datas b)).
Proof.
  intros Hw Hsz Hok. unfold checkInit. destruct (Z.ltb_spec 500 (u64 (ts - m_lastInitTime b))); [| eexists; split_and!; try done; lia].
  destruct (initNolock_ok b Hw Hsz) as (b' & -> & Hok' & Hwt & Hi & Hd). simpl. eexists. split_and!; try done.
Qed.
End serving.

(** A balancer, round-robin or weighted, never hands out a dead connection
    and never fails. With positive weights on valid items, [get] returns, the
    balancer stays well-formed, the item it gives is valid and among its
    items, it gives none only when none of its items is valid, and when more
    than half a second has passed since the last look at the connections it
    gives none only when no registered item is valid at all. *)
Theorem balancer_serves_valid conn scaled iter obj b ts v rnd :
  (forall A m, iter A m ≡ₚ map_to_list m) -> weights_ok conn scaled obj -> Z.of_nat (size (m_datas b)) < 2 ^ 31 ->
  lb_ok b ->
  exists b' res, get conn scaled iter obj b ts v rnd = Ok (b', res) /\ lb_ok b' /\ m_datas b' = m_datas b
  /\ match res with
     | Some h => isValid conn obj h = true /\ h ∈ m_items b'
     | None => (forall h, h ∈ m_items b' -> isValid conn obj h = false)
         /\ (500 < u64 (ts - m_lastInitTime b) -> forall id h, m_datas b !! id = Some h -> isValid conn obj h = false)
     end.
Proof.
  intros Hperm Hw Hsz Hok. unfold get.
  destruct (checkInit_ok conn scaled iter obj Hperm b ts Hw Hsz Hok) as (b' & -> & Hok' & Hwt & Hd & Hi). cbn [mbind outcome_bind].
  assert (Hnone : (forall h, h ∈ m_items b' -> isValid conn obj h = false) ->
    500 < u64 (ts - m_lastInitTime b) -> forall id h, m_datas b !! id = Some h -> isValid conn obj h = false).
  { intros Hinv Hts id h Hh. rewrite (Hi Hts) in Hinv. destruct (isValid conn obj h) eqn:E; [| done]. rewrite <- E.
    apply Hinv, valid_items_spec; eauto. }
  assert (Hscan : forall idx, exists b0 res, Ok (b', scan_from conn obj (m_items b') idx (length (m_items b'))) = Ok (b0, res)
    /\ lb_ok b0 /\ m_datas b0 = m_datas b
    /\ match res with
       | Some h => isValid conn obj h = true /\ h ∈ m_items b0
       | None => (forall h, h ∈ m_items b0 -> isValid conn obj h = false)
           /\ (500 < u64 (ts - m_lastInitTime b) -> forall id h, m_datas b !! id = Some h -> isValid conn obj h = false)
       end).
  { intros idx. eexists _, _. split; [done |]. split_and!; [done | done |]. pose proof (scan_from_spec conn obj (m_items b') idx) as Hs.
    destruct (scan_from _ _ _ _ _); [done | eauto]. }
  destruct (weighted b') eqn:Eb.
  - destruct (Hok' Eb) as [ws Hws]. pose proof Hws as (Ew & Hlen & _). destruct ws as [| w ws].
    + unfold getIdx. rewrite Ew. simpl. eexists _, _. split; [done |]. split_and!; [done | done | |].
      all: destruct (m_items b') eqn:Em; [| done]; try (apply Hnone); intros h Hh; by apply elem_of_nil in Hh.
    + destruct (getIdx_spec b' (w :: ws) v rnd Hws) as (i & -> & _); [done |]. apply Hscan.
  - destruct (Nat.eqb_spec (length (m_items b')) 0) as [E0|]; [| apply Hscan]. apply nil_length_inv in E0.
    eexists _, _. split; [done |]. split_and!; [done | done | |]; rewrite E0 in *; try apply Hnone; intros h Hh; by apply elem_of_nil in Hh.
Qed.

(** ** The statistics ring *)

Lemma slot_length s s' t : length s = length s' -> slot s t = slot s' t.
Proof. unfold slot. by intros ->. Qed.

Lemma slot_lt s t : s <> [] -> (slot s t < length s)%nat.
Proof.
  intros Hs. unfold slot. assert (0 < length s)%nat by (destruct s; simpl; [done | lia]).
  pose proof (Z.mod_pos_bound t (Z.of_nat (length s))). lia.
Qed.

(** Two seconds less than a ring apart have different slots. *)
Lemma slot_apart s t t' : s <> [] -> t < t' < t + Z.of_nat (length s) -> slot s t <> slot s t'.
Proof.
  intros Hs Ht. unfold slot. set (n := Z.of_nat (length s)) in *. assert (0 < n) by (destruct s; simpl in *; [done | lia]).
  pose proof (Z.mod_pos_bound t n ltac:(lia)) as H1. pose proof (Z.mod_pos_bound t' n ltac:(lia)) as H2. intros E.
  assert (E' : t mod n = t' mod n) by lia.
  assert (Hz : (t' - t) mod n = 0) by (rewrite Zminus_mod, E', Z.sub_diag; by apply Z.mod_0_l; lia).
  rewrite Z.mod_small in Hz; lia.
Qed.

(** A full turn meets every slot. *)
Lemma slot_turn s t u : s <> [] -> exists t', u <= t' < u + Z.of_nat (length s) /\ slot s t' = slot s t.
Proof.
  intros Hs. set (n := Z.of_nat (length s)). assert (Hn : 0 < n) by (destruct s; simpl in *; [done | lia]).
  exists (u + (t - u) mod n). pose proof (Z.mod_pos_bound (t - u) n Hn). split; [lia |].
  unfold slot. fold n. f_equal. rewrite Zplus_mod_idemp_r. f_equal. lia.
Qed.

Lemma clear_loop_stays n t now s j : s !! j = Some clear -> clear_loop n t now s !! j = Some clear.
Proof.
  revert t s. induction n as [| n IH]; intros t s Hj; cbn [clear_loop]; [done |]. destruct (t <=? now); [| done]. apply IH.
  destruct (decide (slot s t = j)) as [->|]; [apply list_lookup_insert_eq; by eapply lookup_lt_Some | by rewrite list_lookup_insert_ne].
Qed.

Lemma clear_loop_spec n t now s :
  s <> [] -> 0 <= t -> now < 2 ^ 32 - 1 ->
  length (clear_loop n t now s) = length s
  /\ (forall t', t <= t' <= now -> t' < t + Z.of_nat n -> clear_loop n t now s !! slot s t' = Some clear)
  /\ (forall j, (forall t', t <= t' <= now -> t' < t + Z.of_nat n -> slot s t' <> j) -> clear_loop n t now s !! j = s !! j).
Proof.
  intros Hs Ht Hnow. revert t s Hs Ht. induction n as [| n IH]; intros t s Hs Ht; cbn [clear_loop].
  { split_and!; [done | lia | done]. }
  destruct (Z.leb_spec t now); [| split_and!; [done | lia | done]].
  rewrite (wrap_small 32) by (unfold in_unsigned; lia). set (s1 := <[slot s t:=clear]> s).
  assert (Hl : length s1 = length s) by apply length_insert.
  assert (Hs1 : s1 <> []) by (intros E; rewrite E in Hl; destruct s; done).
  destruct (IH (t + 1) s1 Hs1) as (IH1 & IH2 & IH3); [lia |].
  assert (Hslot : forall x, slot s1 x = slot s x) by (intros; by apply slot_length).
  split_and!; [by rewrite IH1 | |].
  - intros t' Ht' Hb. destruct (decide (t' = t)) as [->|]; [| rewrite <- Hslot; apply IH2; lia].
    apply clear_loop_stays, list_lookup_insert_eq, slot_lt. done.
  - intros j Hj. rewrite IH3; [apply list_lookup_insert_ne, Hj; lia |]. intros u Hu Hub. rewrite Hslot. apply Hj; lia.
Qed.

(** What was recorded at second [t]. *)
Definition recorded (ops : list (Z * (HolderStats -> HolderStats))) (t : Z) : HolderStats :=
  foldl (fun s (o : Z * (HolderStats -> HolderStats)) => if o.1 =? t then o.2 s else s) clear ops.

Fixpoint record_all (s : HolderStatsSet) (ops : list (Z * (HolderStats -> HolderStats))) : outcome HolderStatsSet :=
  match ops with
  | [] => Ok s
  | (now, f) :: ops => s ← record s now f; record_all s ops
  end.

(** The ring holds the last [size] seconds. *)
Definition ring_ok (size : nat) (s : HolderStatsSet) (ops : list (Z * (HolderStats -> HolderStats))) : Prop :=
  length (m_stats s) = size /\ 0 <= m_lastUpdateTime s < 2 ^ 32 - 1
  /\ Forall (fun o => o.1 <= m_lastUpdateTime s) ops
  /\ forall t, 0 <= t <= m_lastUpdateTime s -> m_lastUpdateTime s - Z.of_nat size < t ->
       m_stats s !! slot (m_stats s) t = Some (recorded ops t).

Lemma recorded_later ops t last : Forall (fun o => o.1 <= last) ops -> last < t -> recorded ops t = clear.
Proof.
  unfold recorded. intros H Ht. generalize clear. induction H as [| o ops Ho H IH]; intros c; simpl; [done |].
  destruct (Z.eqb_spec o.1 t); [lia | apply IH].
Qed.

Lemma init_ring size s ops now :
  (0 < size)%nat -> ring_ok size s ops -> m_lastUpdateTime s <= now < 2 ^ 32 - 1 ->
  ring_ok size (init_stats s now) ops /\ m_lastUpdateTime (init_stats s now) = now.
Proof.
  intros Hsz (Hl & Hlast & Hops & Hr) Hnow. unfold init_stats.
  destruct (Z.ltb_spec (m_lastUpdateTime s) now) as [Hlt|Hge]; [| split; [done | lia]].
  split; [| done]. assert (Hne : m_stats s <> []) by (intros E; rewrite E in Hl; simpl in Hl; lia).
  rewrite (wrap_small 32) by (unfold in_unsigned; lia).
  destruct (clear_loop_spec (length (m_stats s)) (m_lastUpdateTime s + 1) now (m_stats s) Hne) as (H1 & H2 & H3); [lia | lia |].
  unfold ring_ok. cbn [m_lastUpdateTime m_stats]. split_and!; [by rewrite H1 | lia | lia | |].
  { eapply Forall_impl; [exact Hops |]. simpl. lia. }
  intros t Ht Hw. rewrite (slot_length _ (m_stats s)) by done.
  destruct (Z.le_gt_cases t (m_lastUpdateTime s)) as [Ho|Ho].
  - rewrite H3; [apply Hr; lia |]. intros t' Ht' _ E. symmetry in E. revert E. apply slot_apart; [done | lia].
  - rewrite (recorded_later _ _ _ Hops Ho). destruct (slot_turn (m_stats s) t (m_lastUpdateTime s + 1) Hne) as (u & Hu & Eu).
    destruct (Z.le_gt_cases t (m_lastUpdateTime s + Z.of_nat (length (m_stats s)))); [apply H2; lia |]. rewrite <- Eu. apply H2; lia.
Qed.

Lemma record_ring size s ops now f :
  (0 < size)%nat -> ring_ok size s ops -> m_lastUpdateTime s <= now < 2 ^ 32 - 1 ->
  exists s', record s now f = Ok s' /\ ring_ok size s' (ops ++ [(now, f)]) /\ m_lastUpdateTime s' = now.
Proof.
  intros Hsz Hr Hnow. destruct (init_ring size s ops now Hsz Hr Hnow) as [(Hl & Hlast & Hops & Hw) El].
  unfold record, get_stats. set (s1 := init_stats s now) in *. rewrite Hl. destruct (Nat.eqb_spec size 0); [lia |].
  eexists. split; [reflexivity |]. split; [| done]. unfold ring_ok. cbn [m_lastUpdateTime m_stats].
  rewrite length_alter. split_and!; try done; try lia.
  { apply Forall_app. split; [done |]. constructor; [simpl; lia | done]. }
  intros t Ht Hb. rewrite (slot_length (alter _ _ _) (m_stats s1)) by by rewrite length_alter.
  unfold recorded. rewrite foldl_app. simpl. fold (recorded ops t).
  destruct (Z.eqb_spec now t) as [->|Hne].
  - rewrite list_lookup_alter_eq, Hw by lia. done.
  - rewrite list_lookup_alter_ne; [apply Hw; lia |]. apply not_eq_sym. apply slot_apart; [| lia].
    intros E. rewrite E in Hl. simpl in Hl. lia.
Qed.

(** The statistics ring keeps every second of its window apart. After any
    number of accesses [get(now)] with writes through the reference, at times
    that do not go back, the slot of each of the last [size] seconds holds
    exactly what was recorded in that second, starting from zero: nothing of
    an older second that shared the slot is left. *)
Theorem stats_window_exact size ops :
  (0 < size)%nat -> Sorted Z.le ops.*1 -> Forall (fun o => 0 <= o.1 < 2 ^ 32 - 1) ops ->
  exists s', record_all (new_HolderStatsSet size) ops = Ok s' /\ m_lastUpdateTime s' = default 0 (last ops.*1)
  /\ forall t, 0 <= t <= m_lastUpdateTime s' -> m_lastUpdateTime s' - Z.of_nat size < t ->
       m_stats s' !! slot (m_stats s') t = Some (recorded ops t).
Proof.
  intros Hsz Hs Hb.
  assert (Hrun : forall ops0 s0, ring_ok size s0 ops0 -> (forall t, t ∈ ops.*1 -> m_lastUpdateTime s0 <= t) ->
    exists s', record_all s0 ops = Ok s' /\ ring_ok size s' (ops0 ++ ops)
      /\ m_lastUpdateTime s' = default (m_lastUpdateTime s0) (last ops.*1)).
  { apply Sorted_StronglySorted in Hs; [| intros x y z; lia]. clear - Hs Hb Hsz.
    induction ops as [| [now f] ops IH]; intros ops0 s0 Hr Hle; [exists s0; by rewrite app_nil_r |].
    apply Forall_cons in Hb as [Hn Hb]. rewrite fmap_cons in *. apply StronglySorted_inv in Hs as [Hs Hall].
    destruct (record_ring size s0 ops0 now f Hsz Hr) as (s1 & E1 & Hr1 & El).
    { simpl in Hn. specialize (Hle now ltac:(by left)). lia. }
    destruct (IH Hs Hb (ops0 ++ [(now, f)]) s1 Hr1) as (s' & E & Hr' & El').
    { intros t Ht. rewrite El. rewrite Forall_forall in Hall. by apply Hall. }
    exists s'. cbn [record_all]. rewrite E1. cbn [mbind outcome_bind]. split_and!; [done | by rewrite <- app_assoc in Hr' |].
    rewrite El', El, last_cons. by destruct (last ops.*1). }
  destruct (Hrun [] (new_HolderStatsSet size)) as (s' & E & (_ & _ & _ & Hr) & El).
  - unfold ring_ok, new_HolderStatsSet. cbn [m_stats m_lastUpdateTime]. rewrite length_replicate. split_and!; [done | lia | lia | done |].
    intros t Ht _. assert (t = 0) as -> by lia. unfold slot. rewrite Z.mod_0_l by (rewrite length_replicate; lia).
    by apply lookup_replicate_2.
  - intros t [o [-> Ho]]%list_elem_of_fmap. rewrite Forall_forall in Hb. simpl. by apply Hb.
  - exists s'. split_and!; [done | done |]. intros t Ht Hw. by apply Hr.
Qed.

(** ** What goes wrong *)

(** An item keeps the weight 0 until somebody sets it; a weighted balancer whose
    valid items all have it divides by zero. *)
Theorem default_weight_divides_by_zero v rnd :
  let obj (_ : nat) := setStream (new_item false) (Some 0%nat) in
  let conn (_ : nat) := true in
  let iter A (m : gmap Z A) := map_to_list m in
  (b ← add conn (fun w _ => w) iter obj (new_LoadBalance true) 0; getIdx b v rnd) = Fail DivByZero.
Proof. reflexivity. Qed.

(** ** The weight of the statistics *)

Lemma clear_loop_clear k t now n : clear_loop k t now (replicate n clear) = replicate n clear.
Proof.
  revert t. induction k as [| k IH]; intros t; [done |]. cbn. destruct (t <=? now); [| done].
  assert (E : <[slot (replicate n clear) t := clear]> (replicate n clear) = replicate n clear).
  { apply list_eq. intros i. destruct (decide (slot (replicate n clear) t = i)) as [<- |]; [| by rewrite list_lookup_insert_ne].
    destruct (decide (slot (replicate n clear) t < n)%nat) as [Hlt |].
    - rewrite list_lookup_insert_eq by (by rewrite length_replicate). symmetry. by apply lookup_replicate_2.
    - rewrite list_insert_ge; [done | rewrite length_replicate; lia]. }
  by rewrite E.
Qed.

(** As the counters are never incremented, the statistics of an item stay as they are
    made, and their weight is 0 at any time. *)
Theorem idle_stats_weigh_nothing now : Fw.scaled now 10000 (new_HolderStatsSet 5) = Ok 0.
Proof.
  unfold Fw.scaled, Fw.set_weight. assert (E : m_stats (init_stats (new_HolderStatsSet 5) now) = replicate 5 clear).
  { unfold init_stats. destruct (_ <? now); [| done]. cbn [m_stats new_HolderStatsSet]. apply (clear_loop_clear _ _ now 5). }
  rewrite E. cbn [length replicate Nat.sub seq foldl]. assert (Hn : forall k, nth k [clear; clear; clear; clear; clear] clear = clear) by (intros k; do 6 (destruct k; [done |]); done).
  rewrite !Hn. vm_compute. reflexivity.
Qed.

(** So the fair balancer gives every connected item the weight 1. *)
Theorem fair_items_weigh_one conn now obj r s :
  i_fair (obj r) = true -> m_stream (obj r) = Some s -> m_weight (obj r) = 10000 -> i_stats (obj r) = new_HolderStatsSet 5 ->
  getWeight conn (fun w st => default 0 (match Fw.scaled now w st with Ok v => Some v | Fail _ => None end)) obj r = Ok 1.
Proof.
  intros Hf Hs Hw Hst. unfold getWeight. rewrite Hf, Hs, Hw, Hst. rewrite idle_stats_weigh_nothing. cbn. by destruct (conn s).
Qed.

(** The factors for time-outs and errors can both be negative: fifty time-outs and
    fifty errors beside ten successes outweigh the ten successes alone. *)
Theorem two_failures_outweigh_success :
  SpecFloat.SFltb (Fw.stats_weight (mkStats 100 10 0 0 10 0) (Fw.rate_of 1)) (Fw.stats_weight (mkStats 100 110 0 50 10 50) (Fw.rate_of 1)) = true.
Proof. vm_compute. reflexivity. Qed.
