(* ===== verification/Discovery.v ===== *)
(** Service discovery of sylar/streams/service_discovery.cc over ZooKeeper, and
    its coupling to the balancers of [LoadBalance].

    The ZooKeeper service is an interface: a tree of nodes of which the client
    sees return codes and lists of children. *)

From stdpp Require Import gmap strings.
From Stdlib Require Import Ascii.
From S2P Require Import Prelude LoadBalance.

Module Sd.

Import Lb.
Local Open Scope Z_scope.
#[local] Arguments String.append !_ _ /.

(** ** Strings *)

(** [s.find(c)] as the parts before and after it. *)
Fixpoint split_at (c : ascii) (s : string) : option (string * string) :=
  match s with
  | ""%string => None
  | String x s => if Ascii.eqb x c then Some (""%string, s)
                  else match split_at c s with Some (a, b) => Some (String x a, b) | None => None end
  end.

(** [s.substr(0, s.find_last_of(c))] *)
Fixpoint before_last (c : ascii) (s : string) : option string :=
  match s with
  | ""%string => None
  | String x s => match before_last c s with
                  | Some a => Some (String x a)
                  | None => if Ascii.eqb x c then Some ""%string else None
                  end
  end.

(** [split]: the pieces [std::getline] yields; nothing after a final
    delimiter. *)
Fixpoint split_go (c : ascii) (s token : string) : list string :=
  match s with
  | ""%string => if String.eqb token "" then [] else [token]
  | String x s => if Ascii.eqb x c then token :: split_go c s "" else split_go c s (token ++ String x "")
  end.

Definition split (s : string) (c : ascii) : list string := split_go c s "".

(** [strtoull(str, nullptr, 10)], which saturates, and the conversion of
    [TypeUtil::Atoi]. *)
Definition is_space (c : ascii) : bool :=
  let n := nat_of_ascii c in (n =? 32)%nat || ((9 <=? n) && (n <=? 13))%nat.

Definition digit (c : ascii) : option Z :=
  let n := Z.of_nat (nat_of_ascii c) in if (48 <=? n) && (n <=? 57) then Some (n - 48) else None.

Fixpoint digits (s : string) (acc : Z) : Z :=
  match s with
  | ""%string => acc
  | String c s => match digit c with Some d => digits s (acc * 10 + d) | None => acc end
  end.

Fixpoint skip_space (s : string) : string :=
  match s with
  | String c s' => if is_space c then skip_space s' else s
  | ""%string => ""%string
  end.

Definition strtoull (s : string) : Z :=
  match skip_space s with
  | String "-" s => u64 (- Z.min UINT64_MAX (digits s 0))
  | String "+" s => Z.min UINT64_MAX (digits s 0)
  | s => Z.min UINT64_MAX (digits s 0)
  end.

Definition Atoi (s : string) : Z := if String.eqb s "" then 0 else i64 (strtoull s).

(** ** Services *)

Section info.
(** [inet_addr]: the address in network order. *)
Context (inet_addr : string -> Z).

Definition Create (ip_and_port data : string) : option ServiceItemInfo :=
  match split_at ":" ip_and_port with
  | None => None
  | Some (ip, p) =>
      let port := Atoi p in
      let ip_addr := inet_addr ip in
      if ip_addr =? 0 then None
      else Some (mkInfo (Z.lor (u64 (Z.shiftl ip_addr 32)) (u64 port)) (u16 port) ip data)
  end.

(** The services of a list of children, by id. *)
Definition infos_of (vals : list string) : gmap Z ServiceItemInfo :=
  foldl (fun m v => match Create v "" with Some i => <[s_id i := i]> m | None => m end) ∅ vals.
End info.

Definition GetProvidersPath (domain service : string) : string := ("/sylar/" ++ domain ++ "/" ++ service ++ "/providers")%string.
Definition GetConsumersPath (domain service : string) : string := ("/sylar/" ++ domain ++ "/" ++ service ++ "/consumers")%string.
Definition GetDomainPath (domain : string) : string := ("/sylar/" ++ domain)%string.

Definition ParseDomainService (path : string) : option (string * string) :=
  match split path "/" with
  | [_; _; d; s; _] => Some (d, s)
  | _ => None
  end.

(** ** The client's view of ZooKeeper *)

Definition ZOK : Z := 0.
Definition ZNODEEXISTS : Z := -110.

Record zookeeper := mkZk {
  zk : Type;
  zk_exists : zk -> string -> Z;
  zk_create : zk -> string -> string -> bool -> Z * zk;     (* path, value, ephemeral *)
  zk_children : zk -> string -> Z * list string;
}.

Section discovery.
Context (Z0 : zookeeper).

(** [existsOrCreate] creates the missing ancestors first. *)
Fixpoint existsOrCreate (fuel : nat) (z : zk Z0) (path : string) : outcome (bool * zk Z0) :=
  match fuel with
  | O => Fail OutOfFuel
  | S fuel =>
      if zk_exists Z0 z path =? ZOK then Ok (true, z) else
      match before_last "/" path with
      | None => Ok (false, z)
      | Some parent =>
          '(ok, z) ← (if String.eqb parent "" then Ok (true, z) else existsOrCreate fuel z parent);
          if ok : bool then
            let '(v, z) := zk_create Z0 z path "" false in Ok (v =? ZOK, z)
          else Ok (false, z)
      end
  end.

(** ** Discovery *)

Record Discovery := mkDisc {
  d_datas : gmap string (gmap string (gmap Z ServiceItemInfo));
  d_registerInfos : gmap string (gmap string (gmap string string));
  d_queryInfos : gmap string (gset string);
  d_selfInfo : string;
  d_selfData : string;
}.

Definition setQueryServer (d : Discovery) v := mkDisc (d_datas d) (d_registerInfos d) v (d_selfInfo d) (d_selfData d).

Definition registerServer (d : Discovery) (domain service ip_and_port data : string) : Discovery :=
  mkDisc (d_datas d)
    (sd_store (d_registerInfos d) domain service
       (<[ip_and_port := data]> (default ∅ (sd_lookup (d_registerInfos d) domain service))))
    (d_queryInfos d) (d_selfInfo d) (d_selfData d).

Definition queryServer (d : Discovery) (domain service : string) : Discovery :=
  setQueryServer d (<[domain := {[service]} ∪ default ∅ (d_queryInfos d !! domain)]> (d_queryInfos d)).

Definition listServer (d : Discovery) := d_datas d.
Definition listRegisterServer (d : Discovery) := d_registerInfos d.
Definition listQueryServer (d : Discovery) := d_queryInfos d.

(** The discovery, the balancers that listen to it, ZooKeeper and the streams
    closed so far. *)
Record world := mkWorld {
  w_disc : Discovery;
  w_sd : SDLoadBalance;
  w_zk : zk Z0;
  w_closed : list nat;
}.

Definition set_zk (w : world) z := mkWorld (w_disc w) (w_sd w) z (w_closed w).

(** [registerInfo] *)
Definition registerInfo (z : zk Z0) (domain service ip_and_port data : string) : outcome (bool * zk Z0) :=
  let path := GetProvidersPath domain service in
  '(ok, z) ← existsOrCreate (S (String.length path)) z path;
  if ok : bool then
    let '(rt, z) := zk_create Z0 z (path ++ "/" ++ ip_and_port) data true in
    Ok ((rt =? ZOK) || (rt =? ZNODEEXISTS), z)
  else Ok (false, z).

(** [queryInfo] of a service; ["all"] stands for the children of the domain. *)
Fixpoint queryInfo (fuel : nat) (d : Discovery) (z : zk Z0) (domain service : string) : outcome (bool * zk Z0) :=
  match fuel with
  | O => Fail OutOfFuel
  | S fuel =>
      if negb (String.eqb service "all") then
        let path := GetConsumersPath domain service in
        '(ok, z) ← existsOrCreate (S (String.length path)) z path;
        if negb ok then Ok (false, z)
        else if String.eqb (d_selfInfo d) "" then Ok (false, z)
        else let '(rt, z) := zk_create Z0 z (path ++ "/" ++ d_selfInfo d) (d_selfData d) true in
             Ok ((rt =? ZOK) || (rt =? ZNODEEXISTS), z)
      else
        let '(rt, children) := zk_children Z0 z (GetDomainPath domain) in
        foldl (fun acc c => '(ok, z) ← acc; '(r, z) ← queryInfo fuel d z domain c; Ok (ok && r, z))
          (Ok (true, z)) (if rt =? ZOK then children else [])
  end.

Section coupled.
Context (inet_addr : string -> Z) (conn : nat -> bool) (scaled : Z -> HolderStatsSet -> Z).
Context (iter : forall A, gmap Z A -> list (Z * A)) (m_cb : ServiceItemInfo -> option nat).

(** Is the service one that was asked for? *)
Definition queried (d : Discovery) (domain service : string) : bool :=
  match d_queryInfos d !! domain with
  | None => false
  | Some ss => bool_decide (service ∈ ss) || bool_decide ("all"%string ∈ ss)
  end.

(** [getChildren]: the providers of a service, with the change reported to the
    balancers. *)
Definition getChildren (w : world) (path : string) : outcome (bool * world) :=
  match ParseDomainService path with
  | None => Ok (false, w)
  | Some (domain, service) =>
      if negb (queried (w_disc w) domain service) then Ok (false, w) else
      let '(v, vals) := zk_children Z0 (w_zk w) path in
      if negb (v =? ZOK) then Ok (false, w) else
      let infos := infos_of inet_addr vals in
      let old := default ∅ (sd_lookup (d_datas (w_disc w)) domain service) in
      let d := mkDisc (sd_store (d_datas (w_disc w)) domain service infos) (d_registerInfos (w_disc w))
                 (d_queryInfos (w_disc w)) (d_selfInfo (w_disc w)) (d_selfData (w_disc w)) in
      '(sd, closed) ← onServiceChange conn scaled iter m_cb (w_sd w) domain service old infos;
      Ok (true, mkWorld d sd (w_zk w) (w_closed w ++ closed))
  end.

(** [queryData] *)
Fixpoint queryData (fuel : nat) (w : world) (domain service : string) : outcome (bool * world) :=
  match fuel with
  | O => Fail OutOfFuel
  | S fuel =>
      if negb (String.eqb service "all") then getChildren w (GetProvidersPath domain service)
      else
        let '(rt, children) := zk_children Z0 (w_zk w) (GetDomainPath domain) in
        foldl (fun acc c => '(ok, w) ← acc; '(r, w) ← queryData fuel w domain c; Ok (ok && r, w))
          (Ok (true, w)) (if rt =? ZOK then children else [])
  end.

(** [onZKChild] *)
Definition onZKChild (w : world) (path : string) : outcome world := '(_, w) ← getChildren w path; Ok w.

(** The traversal orders of the maps and sets keyed by strings. *)
Context (iter_s : forall A, gmap string A -> list (string * A)) (iter_set : gset string -> list string).

Definition registered (d : Discovery) : list (string * string * string * string) :=
  iter_s _ (d_registerInfos d) ≫= fun i => iter_s _ i.2 ≫= fun x => (fun v => (i.1, x.1, v.1, v.2)) <$> iter_s _ x.2.

Definition queries (d : Discovery) : list (string * string) :=
  iter_s _ (d_queryInfos d) ≫= fun i => (fun x => (i.1, x)) <$> iter_set i.2.

(** [onZKConnect]: register the own services, announce the interest in the
    others, then fetch them; failures are logged and passed over. *)
Definition onZKConnect (fuel : nat) (w : world) : outcome world :=
  z ← foldl (fun acc '(d, s, a, v) => z ← acc; '(_, z) ← registerInfo z d s a v; Ok z) (Ok (w_zk w)) (registered (w_disc w));
  z ← foldl (fun acc '(d, s) => z ← acc; '(_, z) ← queryInfo fuel (w_disc w) z d s; Ok z) (Ok z) (queries (w_disc w));
  foldl (fun acc '(d, s) => w ← acc; '(_, w) ← queryData fuel w d s; Ok w) (Ok (set_zk w z)) (queries (w_disc w)).

Inductive zk_event := SESSION | CHILD | CHANGED | DELETED | OtherEvent.
Inductive zk_status := CONNECTED | EXPIRED_SESSION | OtherStatus.

(** [onWatch]; the change and deletion handlers only log, and an expired
    session reconnects the client, which keeps no state of the discovery. *)
Definition onWatch (fuel : nat) (w : world) (type : zk_event) (stat : zk_status) (path : string) : outcome world :=
  match stat, type with
  | CONNECTED, SESSION => onZKConnect fuel w
  | CONNECTED, CHILD => onZKChild w path
  | _, _ => Ok w
  end.

End coupled.
End discovery.

End Sd.
