(* ===== verification/DiscoveryProps.v ===== *)
(** The properties of service discovery and of the balancers it drives. *)

From stdpp Require Import gmap strings.
From Stdlib Require Import Ascii.
From S2P Require Import Prelude Strs LoadBalance Discovery.

Import Lb Sd.
Local Open Scope Z_scope.
#[local] Arguments String.append !_ _ /.

(** ** Paths *)

Fixpoint no_slash (s : string) : bool :=
  match s with ""%string => true | String c s => negb (Ascii.eqb c "/") && no_slash s end.

Lemma split_go_piece d token rest :
  no_slash d = true -> split_go "/" (d ++ String "/" rest) token = (token ++ d)%string :: split_go "/" rest "".
Proof.
  revert token. induction d as [| c d IH]; intros token; cbn [no_slash String.append split_go]; intros H.
  - simpl. by rewrite str_app_nil.
  - apply andb_prop in H as [Hc Hd]. apply negb_true_iff in Hc. rewrite Hc, IH by done. f_equal. apply str_app_snoc.
Qed.

(** A provider path is taken apart again. *)
Lemma parse_providers d s :
  no_slash d = true -> no_slash s = true -> ParseDomainService (GetProvidersPath d s) = Some (d, s).
Proof.
  intros Hd Hs. unfold ParseDomainService, split, GetProvidersPath.
  change ("/sylar/" ++ d ++ "/" ++ s ++ "/providers")%string
    with (String "/" ("sylar" ++ String "/" (d ++ String "/" (s ++ String "/" "providers"))))%string.
  cbn [split_go Ascii.eqb eqb]. rewrite (split_go_piece "sylar") by done. rewrite (split_go_piece d) by done.
  rewrite (split_go_piece s) by done. done.
Qed.

(** ** Creating items *)

Section items.
Context (m_cb : ServiceItemInfo -> option nat).

Lemma deref_app heap extra r : (r < length heap)%nat -> deref (heap ++ extra) r = deref heap r.
Proof. intros. unfold deref. by rewrite app_nth1. Qed.

Lemma create_items_spec t heap infos l heap' infos' :
  create_items m_cb t heap infos l = (heap', infos') -> NoDup l.*1 ->
  (exists extra, heap' = heap ++ extra)
  /\ forall id, match (list_to_map l : gmap Z ServiceItemInfo) !! id ≫= m_cb with
                | Some st => exists r, infos' !! id = Some r /\ (length heap <= r < length heap')%nat
                               /\ m_id (deref heap' r) = id /\ m_stream (deref heap' r) = Some st
                | None => infos' !! id = infos !! id
                end.
Proof.
  revert heap infos. induction l as [| [id0 info] l IH]; intros heap infos; simpl.
  { intros [= <- <-] _. split; [exists []; by rewrite app_nil_r |]. intros id. by rewrite lookup_empty. }
  intros E [Hn Hd]%NoDup_cons. destruct (m_cb info) as [st|] eqn:Ec.
  - destruct (IH _ _ E Hd) as [[extra Eh] Hid]. split; [exists (setWeight (setStream (setId (createLoadBalanceItem t) id0) (Some st)) 10000 :: extra);
      by rewrite Eh, <- app_assoc |].
    assert (Hlen : (length heap < length heap')%nat) by (rewrite Eh, !length_app; simpl; lia).
    intros id. specialize (Hid id). destruct (decide (id0 = id)) as [->|Hne].
    + rewrite lookup_insert_eq. simpl. rewrite Ec. rewrite (not_elem_of_list_to_map_1 l id Hn) in Hid. simpl in Hid.
      rewrite lookup_insert_eq in Hid. exists (length heap). split_and!; [done | lia | lia | |];
        rewrite Eh, deref_app by (rewrite length_app; simpl; lia); unfold deref; by rewrite nth_middle.
    + rewrite lookup_insert_ne by done. destruct (_ ≫= m_cb) as [st'|].
      * destruct Hid as (r & H1 & H2 & H3). exists r. rewrite length_app in H2. simpl in H2. split; [done |]. split; [lia | done].
      * by rewrite lookup_insert_ne in Hid.
  - destruct (IH _ _ E Hd) as [Hex Hid]. split; [done |]. intros id. specialize (Hid id). destruct (decide (id0 = id)) as [->|Hne].
    + rewrite lookup_insert_eq. simpl. rewrite Ec. by rewrite (not_elem_of_list_to_map_1 l id Hn) in Hid.
    + by rewrite lookup_insert_ne.
Qed.
End items.

(** ** Balancers in step with discovery *)

Section driven.
Context (Z0 : zookeeper) (inet_addr : string -> Z) (conn : nat -> bool) (scaled : Z -> HolderStatsSet -> Z).
Context (iter : forall A, gmap Z A -> list (Z * A)) (m_cb : ServiceItemInfo -> option nat).
Context (iter_perm : forall A m, iter A m ≡ₚ map_to_list m).

Lemma totals_valid obj acc items :
  (forall r, r ∈ items -> isValid conn obj r = true) -> exists ts, totals conn scaled obj acc items = Ok ts.
Proof.
  revert acc. induction items as [| r items IH]; intros acc Hv; simpl; [eauto |].
  assert (Hw : exists w, getWeight conn scaled obj r = Ok w).
  { unfold getWeight. destruct (i_fair (obj r)); [| eauto]. specialize (Hv r ltac:(left)). unfold isValid in Hv.
    destruct (m_stream (obj r)); [simpl; eauto | done]. }
  destruct Hw as [w ->]. simpl. destruct (IH (i64 (acc + w))) as [ts ->]; [intros r' Hr'; apply Hv; by right |]. eauto.
Qed.

Lemma initNolock_total obj b : exists b', initNolock conn scaled iter obj b = Ok b' /\ m_datas b' = m_datas b.
Proof.
  unfold initNolock. destruct (weighted b); [| eauto].
  destruct (totals_valid obj 0 (valid_items conn iter obj (m_datas b))) as [ts ->]; [| simpl; eauto].
  intros r Hr. unfold valid_items in Hr. apply list_elem_of_In, filter_In in Hr. tauto.
Qed.

(** The stream that serves an id, and what the discovery knows. *)
Definition serving (sd : SDLoadBalance) (domain service : string) (id : Z) : option nat :=
  b ← sd_lookup (sd_datas sd) domain service; r ← m_datas b !! id; m_stream (deref (sd_heap sd) r).

Definition known (d : Discovery) (domain service : string) : gmap Z ServiceItemInfo :=
  default ∅ (sd_lookup (d_datas d) domain service).

(** Every registered item exists, under its own id, with a stream, for a
    service that is known. *)
Definition in_step (d : Discovery) (sd : SDLoadBalance) : Prop :=
  forall domain service b id r, sd_lookup (sd_datas sd) domain service = Some b -> m_datas b !! id = Some r ->
    (r < length (sd_heap sd))%nat /\ m_id (deref (sd_heap sd) r) = id /\ is_Some (m_stream (deref (sd_heap sd) r))
    /\ is_Some (known d domain service !! id).

Lemma sd_lookup_store {A} (m : gmap string (gmap string A)) d s v d' s' :
  sd_lookup (sd_store m d s v) d' s' = if decide (d = d' /\ s = s') then Some v else sd_lookup m d' s'.
Proof.
  unfold sd_lookup, sd_store. destruct (decide (d = d')) as [->|Hd].
  - rewrite lookup_insert_eq. simpl. destruct (decide (s = s')) as [->|Hs].
    + rewrite lookup_insert_eq. by rewrite decide_True.
    + rewrite lookup_insert_ne by done. rewrite decide_False by naive_solver. by destruct (m !! d').
  - rewrite lookup_insert_ne by done. by rewrite decide_False by naive_solver.
Qed.

Lemma sd_get_spec sd domain service :
  exists sd1 b, sd_get sd domain service true = (sd1, Some b) /\ sd_heap sd1 = sd_heap sd
  /\ m_datas b = default ∅ (m_datas <$> sd_lookup (sd_datas sd) domain service)
  /\ forall d' s', ~ (domain = d' /\ service = s') -> sd_lookup (sd_datas sd1) d' s' = sd_lookup (sd_datas sd) d' s'.
Proof.
  unfold sd_get. destruct (sd_lookup (sd_datas sd) domain service) as [b|]; [by exists sd, b |].
  eexists _, _. split; [reflexivity |]. split; [done |]. split; [by destruct (getType sd domain service) |].
  intros d' s' Hn. cbn [sd_set sd_datas]. by rewrite sd_lookup_store, decide_False.
Qed.

Lemma filter_absent {A B} (m : gmap Z A) (k : gmap Z B) id :
  filter (fun e : Z * A => k !! e.1 = None) m !! id = if decide (is_Some (k !! id)) then None else m !! id.
Proof.
  rewrite map_lookup_filter. destruct (m !! id) as [x|]; simpl; [| by case_decide]. destruct (k !! id) as [y|] eqn:E.
  - rewrite decide_True by done. by rewrite option_guard_False.
  - rewrite decide_False by (intros [? ?]; done). by rewrite option_guard_True.
Qed.

(** What the change does to the registered items. *)
Lemma update_spec obj b adds dels :
  exists b', update conn scaled iter obj b adds ((fun _ => None) <$> dels)
    = Ok (b', map_imap (fun id (_ : ServiceItemInfo) => Some (m_datas b !! id)) dels)
  /\ forall id, m_datas b' !! id = match adds !! id with
                                  | Some r => Some r
                                  | None => if decide (is_Some (dels !! id)) then None else m_datas b !! id
                                  end.
Proof.
  unfold update. set (kept := filter _ (m_datas b)).
  destruct (initNolock_total obj (set_datas b (adds ∪ kept))) as (b' & -> & Hd). exists b'. split.
  - cbn [mbind outcome_bind]. do 2 f_equal. apply map_eq. intros id. rewrite !map_lookup_imap, lookup_fmap.
    destruct (dels !! id); simpl; [| done]. by destruct (m_datas b !! id).
  - intros id. rewrite Hd. cbn [set_datas m_datas]. destruct (adds !! id) as [r|] eqn:Ea; [by rewrite (lookup_union_Some_l _ _ _ _ Ea) |].
    rewrite lookup_union_r by done. unfold kept. rewrite filter_absent, lookup_fmap.
    apply decide_ext, fmap_is_Some.
Qed.

Lemma imap_to_list {A B} (g : Z -> B) (m : gmap Z A) :
  map_to_list (map_imap (fun id (_ : A) => Some (g id)) m) ≡ₚ (fun e => (e.1, g e.1)) <$> map_to_list m.
Proof.
  induction m as [| i x m Hi IH] using map_ind; [by rewrite map_imap_empty, !map_to_list_empty |].
  rewrite map_imap_insert, !map_to_list_insert; [by rewrite IH, fmap_cons | done |]. by rewrite map_lookup_imap, Hi.
Qed.

(** The ids that disappeared. *)
Definition gone (old new : gmap Z ServiceItemInfo) : gmap Z ServiceItemInfo := filter (fun e => new !! e.1 = None) old.

Definition learn (d : Discovery) (domain service : string) (infos : gmap Z ServiceItemInfo) : Discovery :=
  mkDisc (sd_store (d_datas d) domain service infos) (d_registerInfos d) (d_queryInfos d) (d_selfInfo d) (d_selfData d).

Lemma known_learn d domain service infos d' s' :
  known (learn d domain service infos) d' s' = if decide (domain = d' /\ service = s') then infos else known d d' s'.
Proof. unfold known, learn. cbn [d_datas]. rewrite sd_lookup_store. by case_decide. Qed.

(** The streams that should serve after a change from [old] to [new]. *)
Definition target (sd : SDLoadBalance) (domain service : string) (old new : gmap Z ServiceItemInfo) (id : Z) : option nat :=
  match new !! id with
  | None => None
  | Some info => if decide (is_Some (old !! id)) then serving sd domain service id else m_cb info
  end.

Section change.
Context (d : Discovery) (sd : SDLoadBalance) (domain service : string) (new : gmap Z ServiceItemInfo).
Context (Hstep : in_step d sd).
Let old := known d domain service.
Let here := default ∅ (m_datas <$> sd_lookup (sd_datas sd) domain service).

Lemma here_step id r : here !! id = Some r ->
  (r < length (sd_heap sd))%nat /\ m_id (deref (sd_heap sd) r) = id /\ is_Some (m_stream (deref (sd_heap sd) r)) /\ is_Some (old !! id).
Proof.
  unfold here. destruct (sd_lookup (sd_datas sd) domain service) as [b|] eqn:E; simpl; [| by rewrite lookup_empty].
  intros Hr. by apply (Hstep _ _ _ _ _ E Hr).
Qed.

Lemma here_serving id : serving sd domain service id = r ← here !! id; m_stream (deref (sd_heap sd) r).
Proof. unfold serving, here. destruct (sd_lookup (sd_datas sd) domain service); simpl; [done | by rewrite lookup_empty]. Qed.

(** After items for the new services are appended and [update] has run. *)
Lemma changed_item heap' (adds : gmap Z nat) b' :
  (exists extra, heap' = sd_heap sd ++ extra) ->
  (forall id, match filter (fun e => old !! e.1 = None) new !! id ≫= m_cb with
              | Some st => exists r, adds !! id = Some r /\ (length (sd_heap sd) <= r < length heap')%nat
                             /\ m_id (deref heap' r) = id /\ m_stream (deref heap' r) = Some st
              | None => adds !! id = (∅ : gmap Z nat) !! id
              end) ->
  (forall id, m_datas b' !! id = match adds !! id with
                                 | Some r => Some r
                                 | None => if decide (is_Some (gone old new !! id)) then None else here !! id
                                 end) ->
  forall id, match target sd domain service old new id with
             | Some st => exists r, m_datas b' !! id = Some r /\ (r < length heap')%nat /\ m_id (deref heap' r) = id
                            /\ m_stream (deref heap' r) = Some st /\ is_Some (new !! id)
             | None => m_datas b' !! id = None
             end.
Proof.
  intros [extra Eh] Hadds Hb id. specialize (Hadds id). specialize (Hb id). unfold target. rewrite filter_absent in Hadds.
  unfold gone in Hb. rewrite filter_absent in Hb.
  assert (Hhere : forall r, here !! id = Some r ->
    (r < length heap')%nat /\ deref heap' r = deref (sd_heap sd) r /\ is_Some (old !! id)).
  { intros r Hr. destruct (here_step id r Hr) as (Hl & _ & _ & Ho). rewrite Eh, length_app. split; [lia | by rewrite deref_app]. }
  destruct (decide (is_Some (old !! id))) as [Ho|Ho].
  - simpl in Hadds. rewrite lookup_empty in Hadds. rewrite Hadds in Hb.
    destruct (new !! id) as [info|] eqn:En; [| by rewrite decide_True in Hb by by rewrite decide_False by (intros [? ?]; done)].
    rewrite decide_False in Hb by (rewrite decide_True by done; intros [? ?]; done).
    rewrite here_serving, Hb. destruct (here !! id) as [r|] eqn:Er; simpl; [| done].
    destruct (here_step id r Er) as (_ & Hm & [st Hst] & _). rewrite Hst. destruct (Hhere r eq_refl) as (H1 & H2 & _).
    exists r. rewrite H2. by split_and!.
  - assert (Hnone : here !! id = None).
    { destruct (here !! id) as [r|] eqn:Er; [| done]. destruct (Hhere r eq_refl) as (_ & _ & Hx). done. }
    rewrite Hnone in Hb. destruct (new !! id) as [info|] eqn:En; simpl in Hadds.
    + destruct (m_cb info) as [st|].
      * destruct Hadds as (r & Ha & Hr & Hm & Hs). rewrite Ha in Hb. exists r. split_and!; try done. lia.
      * rewrite lookup_empty in Hadds. rewrite Hadds in Hb. rewrite Hb. by case_decide.
    + rewrite lookup_empty in Hadds. rewrite Hadds in Hb. rewrite Hb. by case_decide.
Qed.

(** The streams closed are those of the services that disappeared. *)
Lemma closed_streams heap' :
  (exists extra, heap' = sd_heap sd ++ extra) ->
  (snd <$> iter _ (map_imap (fun id (_ : ServiceItemInfo) => Some (here !! id)) (gone old new)))
    ≫= (fun o => match o with Some r => close heap' r | None => [] end)
  ≡ₚ omap (serving sd domain service) (map_to_list (gone old new)).*1.
Proof.
  intros [extra Eh].
  assert (P : iter _ (map_imap (fun id (_ : ServiceItemInfo) => Some (here !! id)) (gone old new))
    ≡ₚ (fun e => (e.1, here !! e.1)) <$> map_to_list (gone old new)).
  { rewrite (iter_perm _ (map_imap _ _)). exact (imap_to_list (fun id => here !! id) (gone old new)). }
  rewrite P. clear P. induction (map_to_list (gone old new)) as [| [id info] l IH]; [done |].
  rewrite !fmap_cons, bind_cons. cbn [fst snd omap list_omap]. rewrite here_serving, IH. destruct (here !! id) as [r|] eqn:Er; [| done].
  destruct (here_step id r Er) as (Hl & _ & [st Hst] & _). unfold close. cbn [mbind option_bind]. by rewrite Eh, deref_app, Hst.
Qed.

Lemma change_step :
  exists sd' closed, onServiceChange conn scaled iter m_cb sd domain service old new = Ok (sd', closed)
  /\ in_step (learn d domain service new) sd'
  /\ (forall id, serving sd' domain service id = target sd domain service old new id)
  /\ (forall d' s' id, ~ (domain = d' /\ service = s') -> serving sd' d' s' id = serving sd d' s' id)
  /\ closed ≡ₚ omap (serving sd domain service) (map_to_list (gone old new)).*1.
Proof.
  unfold onServiceChange. destruct (sd_get_spec sd domain service) as (sd1 & b & -> & Eh & Hb & Hother). cbn [of_ptr mbind outcome_bind].
  destruct (create_items _ _ _ _ _) as [heap' adds] eqn:Ec. rewrite Eh in Ec.
  set (fresh := filter (fun e => old !! e.1 = None) new) in *.
  assert (Hperm : iter _ fresh ≡ₚ map_to_list fresh) by apply iter_perm.
  apply create_items_spec in Ec as [Hext Hadds]; [| rewrite Hperm; apply NoDup_fst_map_to_list].
  assert (Hmap : (list_to_map (iter _ fresh) : gmap Z ServiceItemInfo) = fresh).
  { rewrite (list_to_map_proper _ (map_to_list fresh)); [apply list_to_map_to_list | rewrite Hperm; apply NoDup_fst_map_to_list | done]. }
  rewrite Hmap in Hadds.
  destruct (update_spec (deref heap') b adds (gone old new)) as (b' & Eu & Hd). unfold gone at 1 in Eu. rewrite Eu.
  cbn [mbind outcome_bind]. rewrite Hb in Hd |- *. pose proof (changed_item heap' adds b' Hext Hadds Hd) as Hitem.
  eexists _, _. split; [reflexivity |].
  assert (Hlook : forall d' s', sd_lookup (sd_datas (sd_set (mkSD (sd_datas sd1) (sd_types sd1) (sd_defaultType sd1) heap') domain service b')) d' s'
    = if decide (domain = d' /\ service = s') then Some b' else sd_lookup (sd_datas sd) d' s').
  { intros d' s'. cbn [sd_set sd_datas]. rewrite sd_lookup_store. case_decide; [done | by apply Hother]. }
  assert (Hold : forall d' s' b0 id r, sd_lookup (sd_datas sd) d' s' = Some b0 -> m_datas b0 !! id = Some r ->
    (r < length heap')%nat /\ deref heap' r = deref (sd_heap sd) r).
  { intros d' s' b0 id r H1 H2. destruct (Hstep _ _ _ _ _ H1 H2) as (Hl & _). destruct Hext as [extra ->]. rewrite length_app.
    split; [lia | by apply deref_app]. }
  split_and!.
  - intros d' s' b0 id r. rewrite Hlook, known_learn. cbn [sd_set sd_heap]. case_decide.
    + intros [= <-] Hr. specialize (Hitem id). destruct (target _ _ _ _ _ _) as [st|]; [| congruence].
      destruct Hitem as (r' & Hr' & Hl & Hm & Hs & Hn). assert (r' = r) as -> by congruence. by rewrite Hs.
    + intros H1 H2. destruct (Hold _ _ _ _ _ H1 H2) as [Hl ->]. split; [done |]. by apply (Hstep _ _ _ _ _ H1 H2).
  - intros id. unfold serving. rewrite Hlook, decide_True by done. cbn [sd_set sd_heap mbind option_bind]. specialize (Hitem id).
    destruct (target _ _ _ _ _ _) as [st|]; [| by rewrite Hitem]. destruct Hitem as (r' & -> & _ & _ & Hs & _). done.
  - intros d' s' id Hn. unfold serving. rewrite Hlook, decide_False by done. cbn [sd_set sd_heap].
    destruct (sd_lookup (sd_datas sd) d' s') as [b0|] eqn:E0; simpl; [| done]. destruct (m_datas b0 !! id) as [r|] eqn:E1; simpl; [| done].
    by destruct (Hold _ _ _ _ _ E0 E1) as [_ ->].
  - by apply closed_streams.
Qed.
End change.
End driven.

Lemma in_step_start d types : in_step d (mkSD ∅ types FAIR []).
Proof. intros ????? H. cbn [sd_datas] in H. unfold sd_lookup in H. by rewrite lookup_empty in H. Qed.

(** C10: The balancers follow the registry. When the providers of a queried
    service are fetched, [getChildren] and the [onServiceChange] it calls
    return, record exactly the services that the children name, and leave the
    service's balancer with a stream for each of them: the one it had when the
    service was known before, the one the callback makes when it is new (none
    when that fails), and none for a service that is gone, whose stream is
    closed; no other stream is closed and no other service's balancer
    changes. The two stay in step, as they are at the start. *)
Theorem discovery_drives_balancers Z0 inet_addr conn scaled iter m_cb (w : world Z0) domain service vals :
  (forall A m, iter A m ≡ₚ map_to_list m) -> in_step (w_disc Z0 w) (w_sd Z0 w) ->
  no_slash domain = true -> no_slash service = true -> queried (w_disc Z0 w) domain service = true ->
  zk_children Z0 (w_zk Z0 w) (GetProvidersPath domain service) = (ZOK, vals) ->
  let old := known (w_disc Z0 w) domain service in
  let new := infos_of inet_addr vals in
  exists w', getChildren Z0 inet_addr conn scaled iter m_cb w (GetProvidersPath domain service) = Ok (true, w')
  /\ in_step (w_disc Z0 w') (w_sd Z0 w') /\ known (w_disc Z0 w') domain service = new
  /\ (forall id, serving (w_sd Z0 w') domain service id = target m_cb (w_sd Z0 w) domain service old new id)
  /\ (forall d' s' id, ~ (domain = d' /\ service = s') -> serving (w_sd Z0 w') d' s' id = serving (w_sd Z0 w) d' s' id)
  /\ w_closed Z0 w' ≡ₚ w_closed Z0 w ++ omap (serving (w_sd Z0 w) domain service) (map_to_list (gone old new)).*1.
Proof.
  intros Hperm Hstep Hd Hs Hq Hc old new. unfold getChildren. rewrite parse_providers, Hq by done. cbn [negb]. rewrite Hc.
  change (ZOK =? ZOK) with true. cbn [negb].
  destruct (change_step conn scaled iter m_cb Hperm (w_disc Z0 w) (w_sd Z0 w) domain service new Hstep)
    as (sd' & closed & E & H1 & H2 & H3 & H4).
  fold (known (w_disc Z0 w) domain service). fold new. fold old in E. fold old. rewrite E. cbn [mbind outcome_bind].
  eexists. split; [reflexivity |]. cbn [w_disc w_sd w_closed]. split_and!; [exact H1 | | exact H2 | exact H3 | by rewrite H4].
  pose proof (known_learn (w_disc Z0 w) domain service new domain service) as Hk. by rewrite decide_True in Hk.
Qed.

(** A registry that answers every path with the same children. *)
Definition fixed_registry : zookeeper :=
  mkZk (list string) (fun _ _ => ZOK) (fun z _ _ _ => (ZOK, z)) (fun z _ => (ZOK, z)).

Lemma discovery_drives_balancers_witness :
  let d := queryServer (mkDisc ∅ ∅ ∅ "self" "") "shop" "cart" in
  let w := mkWorld fixed_registry d new_SDLoadBalance ["10.0.0.1:80"; "junk"] [] in
  exists w', getChildren fixed_registry (fun _ => 167772161) (fun _ => true) (fun v _ => v) (fun A m => map_to_list m)
      (fun i => Some 7%nat) w (GetProvidersPath "shop" "cart") = Ok (true, w')
    /\ serving (w_sd _ w') "shop" "cart" (167772161 * 2 ^ 32 + 80) = Some 7%nat.
Proof.
  intros d w.
  destruct (discovery_drives_balancers fixed_registry (fun _ => 167772161) (fun _ => true) (fun v _ => v) (fun A m => map_to_list m)
      (fun i => Some 7%nat) w "shop" "cart" ["10.0.0.1:80"; "junk"]) as (w' & E & _ & _ & Hsv & _).
  - done.
  - apply in_step_start.
  - reflexivity.
  - reflexivity.
  - vm_compute. reflexivity.
  - reflexivity.
  - exists w'. split; [exact E |]. rewrite Hsv. vm_compute. reflexivity.
Defined.

(** ** Creating a path terminates *)

Lemma before_last_shorter c s a : before_last c s = Some a -> (String.length a < String.length s)%nat.
Proof.
  revert a. induction s as [| x s IH]; intros a; simpl; [done |]. destruct (before_last c s) as [a'|].
  - intros [= <-]. specialize (IH a' eq_refl). simpl. lia.
  - destruct (Ascii.eqb x c); [| done]. intros [= <-]. simpl. lia.
Qed.

(** [existsOrCreate] goes up the path at most once per character. *)
Lemma existsOrCreate_returns Z0 fuel z path :
  (String.length path < fuel)%nat -> exists r, existsOrCreate Z0 fuel z path = Ok r.
Proof.
  revert z path. induction fuel as [| fuel IH]; intros z path Hl; [lia |]. simpl. destruct (_ =? ZOK); [eauto |].
  destruct (before_last "/" path) as [parent|] eqn:E; [| eauto]. apply before_last_shorter in E.
  assert (Hr : exists r, (if String.eqb parent "" then Ok (true, z) else existsOrCreate Z0 fuel z parent) = Ok r).
  { destruct (String.eqb parent ""); [eauto |]. apply IH. lia. }
  destruct Hr as [[ok z'] ->]. simpl. destruct ok; [| eauto]. destruct (zk_create Z0 z' path "" false). eauto.
Qed.
