(* ===== verification/ZkClient.v ===== *)
(** The ZooKeeper client, zk_client.h and zk_client.cc, over the ZooKeeper C
    library, and the [ZKServiceDiscovery] that owns one.

    The library is the record [zoolib] of the functions that the client calls:
    each takes the library's state (its handles and the ensemble) and a handle or
    the null pointer. The watches that a call leaves are not kept: an event may
    come at any time while a handle is open.

    The ZooKeeper client owns its handle, and what a provider registers reaches
    the balancers of the consumers. *)

From stdpp Require Import gmap strings.
From Stdlib Require Import Ascii.
From S2P Require Import Prelude Strs Http LoadBalance Discovery DiscoveryProps.

Module Zc.

Import Sd.
Local Open Scope Z_scope.

(** ** The library *)

Record zoolib := mkLib {
  zs : Type;
  zstat : Type;
  (** hosts, timeout and log callback; the new handle or null *)
  zookeeper_init2 : zs -> string -> Z -> option nat -> option nat * zs;
  zookeeper_close : zs -> nat -> Z * zs;
  zoo_set_servers : zs -> option nat -> string -> Z * zs;
  (** path, value, access list, flags and the buffer for the new path; the buffer is
      returned as the call leaves it *)
  zoo_create : zs -> option nat -> string -> string -> nat -> Z -> string -> Z * string * zs;
  zoo_exists : zs -> option nat -> string -> bool -> Z * option zstat;
  zoo_delete : zs -> option nat -> string -> Z -> Z * zs;
  (** path, watch and the buffer; the buffer and the length as the call leaves them *)
  zoo_get : zs -> option nat -> string -> bool -> string -> Z * string * Z * option zstat;
  zoo_set2 : zs -> option nat -> string -> string -> Z -> Z * zs * option zstat;
  zoo_get_children2 : zs -> option nat -> string -> bool -> Z * list string * option zstat;
  zoo_get_current_server : zs -> option nat -> option string;
  zoo_state : zs -> option nat -> Z;
}.

(** [ZOO_EPHEMERAL] and [ZOO_CONFIG_NODE] of zookeeper.h; the access list that is
    the default argument *)
Definition EPHEMERAL : Z := 1.
Definition ZOO_CONFIG_NODE : string := "/zookeeper/config".
Definition ZOO_OPEN_ACL_UNSAFE : nat := 0.

Section client.
Context (lib : zoolib).

(** ** The client *)

(** [m_watcherCb] is the callback bound to a [shared_ptr] to the client itself. The
    constructor leaves [m_logCb] as it is: [None]. *)
Record ZKClient := mkClient {
  m_handle : option nat;
  m_hosts : string;
  m_watcherCb : option nat;
  m_logCb : option (option nat);
  m_recvTimeout : Z;
}.

Definition new_ZKClient : ZKClient := mkClient None "" None None 0.

Definition set_handle (c : ZKClient) h := mkClient h (m_hosts c) (m_watcherCb c) (m_logCb c) (m_recvTimeout c).
Definition set_hosts (c : ZKClient) v := mkClient (m_handle c) v (m_watcherCb c) (m_logCb c) (m_recvTimeout c).
Definition clear_watcher (c : ZKClient) := mkClient (m_handle c) (m_hosts c) None (m_logCb c) (m_recvTimeout c).

(** An event arrives: the callback that is called and its arguments. Calling an
    empty function throws. *)
Definition OnWatcher (c : ZKClient) (type stat : Z) (path : string) : outcome (nat * (Z * Z * string)) :=
  match m_watcherCb c with
  | None => Fail LogicError
  | Some cb => Ok (cb, (type, stat, path))
  end.

Definition is_open (h : option nat) : bool := match h with Some _ => true | None => false end.

Definition reconnect (c : ZKClient) (z : zs lib) : outcome (bool * ZKClient * zs lib) :=
  let z := match m_handle c with Some h => (zookeeper_close lib z h).2 | None => z end in
  match m_logCb c with
  | None => Fail Indeterminate
  | Some lcb =>
      let '(h, z) := zookeeper_init2 lib z (Http.c_str (m_hosts c)) (m_recvTimeout c) lcb in
      Ok (is_open h, set_handle c h, z)
  end.

Definition init (c : ZKClient) (z : zs lib) (hosts : string) (recv_timeout : Z) (cb : nat) (lcb : option nat) : bool * ZKClient * zs lib :=
  match m_handle c with
  | Some _ => (true, c, z)
  | None =>
      let '(h, z) := zookeeper_init2 lib z (Http.c_str hosts) recv_timeout lcb in
      (is_open h, mkClient h hosts (Some cb) (Some lcb) recv_timeout, z)
  end.

Definition setServers (c : ZKClient) (z : zs lib) (hosts : string) : Z * ZKClient * zs lib :=
  let '(rt, z) := zoo_set_servers lib z (m_handle c) (Http.c_str hosts) in
  (rt, if rt =? 0 then set_hosts c hosts else c, z).

(** [close], in the two steps between which the library's threads may run. *)
Definition close_begin (c : ZKClient) : ZKClient := clear_watcher c.
Definition close_end (c : ZKClient) (z : zs lib) : Z * ZKClient * zs lib :=
  match m_handle c with
  | None => (ZOK, c, z)
  | Some h => let '(rt, z) := zookeeper_close lib z h in (rt, set_handle c None, z)
  end.
Definition close (c : ZKClient) (z : zs lib) : Z * ZKClient * zs lib := close_end (close_begin c) z.

(** The destructor: what is left of the library. *)
Definition destroy (c : ZKClient) (z : zs lib) : zs lib :=
  match m_handle c with Some _ => (close c z).2 | None => z end.

(** ** Nodes *)

(** A [Stat*]: null, or what it points to; a call may fill it. *)
Definition fill (stat w : option (zstat lib)) : option (zstat lib) :=
  match stat, w with Some _, Some s => Some s | _, _ => stat end.

Definition create (c : ZKClient) (z : zs lib) (path val new_path : string) (acl : nat) (flags : Z) : Z * string * zs lib :=
  zoo_create lib z (m_handle c) (Http.c_str path) val acl flags new_path.

Definition exists_ (c : ZKClient) (z : zs lib) (path : string) (watch : bool) (stat : option (zstat lib)) : Z * option (zstat lib) :=
  let '(rt, w) := zoo_exists lib z (m_handle c) (Http.c_str path) watch in (rt, fill stat w).

Definition del (c : ZKClient) (z : zs lib) (path : string) (version : Z) : Z * zs lib :=
  zoo_delete lib z (m_handle c) (Http.c_str path) version.

Fixpoint zeros (n : nat) : string := match n with O => "" | S n => String "000"%char (zeros n) end.

(** [std::string::max_size] *)
Definition MAX_SIZE : Z := 2 ^ 63 - 1.

(** [s.resize(n)]; the [int] becomes a [size_t]. *)
Definition resize (s : string) (n : Z) : outcome string :=
  if MAX_SIZE <? u64 n then Fail LogicError
  else if n <=? Z.of_nat (String.length s) then Ok (str_take (Z.to_nat n) s)
  else Ok (s ++ zeros (Z.to_nat n - String.length s))%string.

Definition get (c : ZKClient) (z : zs lib) (path val : string) (watch : bool) (stat : option (zstat lib)) : outcome (Z * string * option (zstat lib)) :=
  let '(rt, val, len, w) := zoo_get lib z (m_handle c) (Http.c_str path) watch val in
  if rt =? ZOK then val ← resize val len; Ok (rt, val, fill stat w)
  else Ok (rt, val, fill stat w).

Definition getConfig (c : ZKClient) (z : zs lib) (val : string) (watch : bool) (stat : option (zstat lib)) : outcome (Z * string * option (zstat lib)) :=
  get c z ZOO_CONFIG_NODE val watch stat.

Definition set (c : ZKClient) (z : zs lib) (path val : string) (version : Z) (stat : option (zstat lib)) : Z * zs lib * option (zstat lib) :=
  let '(rt, z, w) := zoo_set2 lib z (m_handle c) (Http.c_str path) val version in (rt, z, fill stat w).

(** The names are appended to what [val] holds. *)
Definition getChildren (c : ZKClient) (z : zs lib) (path : string) (val : list string) (watch : bool) (stat : option (zstat lib))
    : Z * list string * option (zstat lib) :=
  let '(rt, strings, w) := zoo_get_children2 lib z (m_handle c) (Http.c_str path) watch in
  (rt, if rt =? ZOK then val ++ strings else val, fill stat w).

Definition getCurrentServer (c : ZKClient) (z : zs lib) : string := default ""%string (zoo_get_current_server lib z (m_handle c)).

Definition getState (c : ZKClient) (z : zs lib) : Z := zoo_state lib z (m_handle c).

(** ** The registry that the discovery sees *)

(** Its state is the client and the library; the discovery passes a buffer of 1024
    NULs for the new path. *)
Definition client_zk : zookeeper := {|
  zk := ZKClient * zs lib;
  zk_exists s path := (exists_ s.1 s.2 path false None).1;
  zk_create s path val ephemeral :=
    let '(rt, _, z) := create s.1 s.2 path val (zeros 1024) ZOO_OPEN_ACL_UNSAFE (if ephemeral then EPHEMERAL else 0) in (rt, (s.1, z));
  zk_children s path := (getChildren s.1 s.2 path [] true None).1;
|}.

(** ** The discovery's client *)

(** [m_client] and whether its timer is set. *)
Record ZKServiceDiscovery := mkZSD { z_client : option ZKClient; z_timer : bool }.

(** [start] makes the client and the timer; [onWatch] is the callback [cb]. A failed
    [init] is logged. *)
Definition start (d : ZKServiceDiscovery) (z : zs lib) (hosts : string) (cb : nat) : ZKServiceDiscovery * zs lib :=
  match z_client d with
  | Some _ => (d, z)
  | None => let '(_, c, z) := init new_ZKClient z hosts 6000 cb None in (mkZSD (Some c) true, z)
  end.

Definition stop (d : ZKServiceDiscovery) (z : zs lib) : ZKServiceDiscovery * zs lib :=
  let '(client, z) := match z_client d with
                      | Some c => let '(_, _, z) := close c z in (None, z)
                      | None => (None, z)
                      end in
  (mkZSD client false, z).

(** [onZKExpiredSession] *)
Definition onZKExpiredSession (c : ZKClient) (z : zs lib) : outcome (ZKClient * zs lib) :=
  '(_, c, z) ← reconnect c z; Ok (c, z).
End client.

End Zc.

Import Sd Zc.
Local Open Scope Z_scope.
#[local] Arguments String.append !_ _ /.

(** ** Handles *)

(** What the library documents of its handles: a new one is not in use, a closed
    one is gone, no other call opens or closes any. *)
Class ZooLaws (lib : zoolib) := {
  opened : zs lib -> gset nat;
  law_init z hosts t lcb : match zookeeper_init2 lib z hosts t lcb with
                           | (Some h, z') => (h ∉ opened z) /\ opened z' = {[h]} ∪ opened z
                           | (None, z') => opened z' = opened z
                           end;
  law_close z h : opened (zookeeper_close lib z h).2 = opened z ∖ {[h]};
  law_set_servers z h hosts : opened (zoo_set_servers lib z h hosts).2 = opened z;
  law_create z h path val acl flags buf : opened (zoo_create lib z h path val acl flags buf).2 = opened z;
  law_delete z h path v : opened (zoo_delete lib z h path v).2 = opened z;
  law_set2 z h path val v : opened (zoo_set2 lib z h path val v).1.2 = opened z;
}.

Section handles.
Context (lib : zoolib) `{ZooLaws lib}.

(** A client, the [shared_ptr]s to it outside of itself, whether a [close] is under
    way, whether it is destroyed, and the library. *)
Record zsys := mkZSys { zc : ZKClient; owners : nat; closing : bool; z_dead : bool; zl : zs lib }.

(** The operations, and an event that the library delivers. *)
Inductive zop :=
  | ZInit (hosts : string) (timeout : Z) (cb : nat) (lcb : option nat)
  | ZReconnect | ZCloseBegin | ZCloseEnd | ZDrop
  | ZSetServers (hosts : string)
  | ZCreate (path val new_path : string) (acl : nat) (flags : Z)
  | ZExists (path : string) (watch : bool)
  | ZDel (path : string) (version : Z)
  | ZGet (path val : string) (watch : bool)
  | ZGetConfig (val : string) (watch : bool)
  | ZSet (path val : string) (version : Z)
  | ZGetChildren (path : string) (val : list string) (watch : bool)
  | ZGetCurrentServer | ZGetState
  | ZEvent (type stat : Z) (path : string).

(** A pointer to the client goes. The callback counts as an owner; the last one to go
    destroys the client. *)
Definition drop_owner (c : ZKClient) (n : nat) (z : zs lib) : zsys :=
  match n, m_watcherCb c with
  | O, None => mkZSys c O false true (destroy lib c z)
  | _, _ => mkZSys c n false false z
  end.

(** One operation by someone who has a pointer to the client, one after the other;
    [None]: it is not possible now. While [close] is under way only the library
    runs. An event comes while the handle is open and gives the callback a pointer,
    which it drops in the end. *)
Definition zstep (s : zsys) (o : zop) : outcome (option zsys) :=
  let '(mkZSys c n cl dead z) := s in
  let keep c z := Ok (Some (mkZSys c n false false z)) in
  if dead then Ok None else
  match o with
  | ZEvent type stat path =>
      match m_handle c with
      | None => Ok None
      | Some _ => _ ← OnWatcher c type stat path; Ok (Some (mkZSys c (S n) cl false z))
      end
  | ZCloseEnd => if cl then let '(_, c, z) := close_end lib c z in keep c z else Ok None
  | _ =>
      match n, cl with
      | O, _ | _, true => Ok None
      | S n', false =>
          match o with
          | ZInit hosts t cb lcb => let '(_, c, z) := init lib c z hosts t cb lcb in keep c z
          | ZReconnect => '(_, c, z) ← reconnect lib c z; keep c z
          | ZCloseBegin => Ok (Some (mkZSys (close_begin c) n true false z))
          | ZDrop => Ok (Some (drop_owner c n' z))
          | ZSetServers hosts => let '(_, c, z) := setServers lib c z hosts in keep c z
          | ZCreate path val new_path acl flags => let '(_, z) := create lib c z path val new_path acl flags in keep c z
          | ZExists path watch => let _ := exists_ lib c z path watch None in keep c z
          | ZDel path v => let '(_, z) := del lib c z path v in keep c z
          | ZGet path val watch => _ ← get lib c z path val watch None; keep c z
          | ZGetConfig val watch => _ ← getConfig lib c z val watch None; keep c z
          | ZSet path val v => let '(_, z, _) := set lib c z path val v None in keep c z
          | ZGetChildren path val watch => let _ := getChildren lib c z path val watch None in keep c z
          | ZGetCurrentServer => let _ := getCurrentServer lib c z in keep c z
          | ZGetState => let _ := getState lib c z in keep c z
          | ZCloseEnd | ZEvent _ _ _ => Ok None
          end
      end
  end.

(** The handles in use are the client's and those of [others]. *)
Definition handle_ok (others : gset nat) (c : ZKClient) (z : zs lib) : Prop :=
  match m_handle c with
  | Some h => (h ∉ others) /\ opened z = {[h]} ∪ others
  | None => opened z = others
  end.

(** An open client has a callback, and a callback comes with the log callback. *)
Definition client_ok (others : gset nat) (c : ZKClient) (z : zs lib) : Prop :=
  handle_ok others c z /\ (m_handle c <> None -> m_watcherCb c <> None) /\ (m_watcherCb c <> None -> m_logCb c <> None).

Definition zsys_ok (others : gset nat) (s : zsys) : Prop :=
  if z_dead s then opened (zl s) = others
  else if closing s then handle_ok others (zc s) (zl s) /\ m_watcherCb (zc s) = None
  else client_ok others (zc s) (zl s).

Lemma close_end_ok others c z : handle_ok others c z -> m_watcherCb c = None ->
  forall rt c' z', close_end lib c z = (rt, c', z') -> client_ok others c' z' /\ m_handle c' = None /\ m_watcherCb c' = None.
Proof.
  unfold handle_ok, close_end. intros Hh Hw rt c' z'. destruct (m_handle c) as [h|] eqn:E.
  - destruct Hh as (Hn & Ho). destruct (zookeeper_close lib z h) as [r z1] eqn:Ec. intros [= <- <- <-].
    split; [| done]. unfold client_ok, handle_ok. cbn. rewrite Hw. split_and!; try done. change z1 with (r, z1).2. rewrite <- Ec, law_close, Ho. set_solver.
  - intros [= <- <- <-]. split; [| done]. unfold client_ok, handle_ok. by rewrite E, Hw.
Qed.

Lemma close_ok others c z : client_ok others c z ->
  forall rt c' z', close lib c z = (rt, c', z') -> client_ok others c' z' /\ m_handle c' = None /\ m_watcherCb c' = None.
Proof. intros [Hh _]. by apply (close_end_ok others (close_begin c) z). Qed.

Lemma drop_owner_ok others c n z : client_ok others c z -> zsys_ok others (drop_owner c n z).
Proof.
  intros Hc. unfold drop_owner. destruct n; [| done]. destruct (m_watcherCb c) eqn:Ew; [done |]. unfold zsys_ok, destroy. cbn.
  destruct Hc as (Hh & Hw & _). unfold handle_ok in Hh. destruct (m_handle c); [| done]. exfalso. by apply Hw.
Qed.

Lemma opened_after others c z z' : opened z' = opened z -> client_ok others c z -> client_ok others c z'.
Proof. intros E. unfold client_ok, handle_ok. by rewrite E. Qed.

(** A new connection of a client that had none. *)
Lemma connect_ok others (z : zs lib) hosts t lcb c h z' :
  opened z = others -> zookeeper_init2 lib z hosts t lcb = (h, z') -> m_handle c = h -> m_watcherCb c <> None -> m_logCb c <> None -> client_ok others c z'.
Proof.
  intros Ho E <- Hw Hl. pose proof (law_init z hosts t lcb) as Hi. rewrite E in Hi. split; [| done]. unfold handle_ok.
  destruct (m_handle c); [| congruence]. destruct Hi as [Hn Hi]. subst others. done.
Qed.

(** The two ways in which an operation throws: the library reports a length for which
    there is no string, such as -1 for a node without data, or an event comes
    between the two steps of [close]. *)
Definition bad_length (c : ZKClient) (z : zs lib) (path val : string) (watch : bool) : Prop :=
  let '(rt, _, len, _) := zoo_get lib z (m_handle c) (Http.c_str path) watch val in rt = ZOK /\ MAX_SIZE < u64 len.

Definition throws (s : zsys) (o : zop) : Prop :=
  match o with
  | ZGet path val watch => bad_length (zc s) (zl s) path val watch
  | ZGetConfig val watch => bad_length (zc s) (zl s) ZOO_CONFIG_NODE val watch
  | ZEvent _ _ _ => closing s = true
  | _ => False
  end.

Lemma get_throws c z path val watch stat : (exists r, get lib c z path val watch stat = Ok r) <-> ~ bad_length c z path val watch.
Proof.
  unfold get, bad_length. destruct (zoo_get lib z (m_handle c) (Http.c_str path) watch val) as [[[rt buf] len] w].
  destruct (Z.eqb_spec rt ZOK); [| split; [naive_solver | intros _; by eexists]]. unfold resize.
  destruct (Z.ltb_spec MAX_SIZE (u64 len)).
  - split; [by intros [? ?] | intros Hn; by exfalso; apply Hn].
  - split; [intros _ [_ ?]; lia | intros _]. destruct (len <=? _); by eexists.
Qed.

(** An operation on a consistent system either throws in one of the two ways or
    leaves it consistent. *)
Lemma zstep_ok others s o : zsys_ok others s -> (o = ZReconnect -> m_watcherCb (zc s) <> None) -> ~ throws s o ->
  exists r, zstep s o = Ok r /\ forall s', r = Some s' -> zsys_ok others s'.
Proof.
  intros Hs Ho Ht. destruct s as [c n cl [] z]; [by eexists |]. unfold zsys_ok in Hs. cbn [zc zl z_dead closing zstep throws] in *.
  assert (Hkeep : forall c' z', client_ok others c' z' -> exists r, Ok (Some (mkZSys c' n false false z')) = Ok r /\ forall s', r = Some s' -> zsys_ok others s').
  { intros c' z' Hc'. eexists. split; [reflexivity |]. by intros s' [= <-]. }
  assert (Hno : exists r, Ok (@None zsys) = Ok r /\ forall s', r = Some s' -> zsys_ok others s') by (by eexists).
  destruct cl.
  { destruct Hs as [Hh Hw]. destruct o; try (destruct n; exact Hno).
    - destruct (close_end lib c z) as [[rt c'] z'] eqn:E. apply Hkeep. by eapply (close_end_ok others c z).
    - done. }
  destruct o as [hosts t cb lcb | | | | | hosts | path val np acl flags | path watch | path v | path val watch | val watch | path val v | path val watch | | | type stat path];
    try (destruct n as [| n]; [exact Hno |]); try exact Hno; try (by apply Hkeep).
  - unfold init. destruct (m_handle c) eqn:Eh; [by apply Hkeep |]. destruct (zookeeper_init2 lib z (Http.c_str hosts) t lcb) as [h z'] eqn:E.
    apply Hkeep. destruct Hs as [Hz _]. unfold handle_ok in Hz. rewrite Eh in Hz. by eapply connect_ok.
  - specialize (Ho eq_refl). unfold reconnect. assert (Hl : m_logCb c <> None) by (by apply Hs). destruct (m_logCb c) as [lcb|] eqn:El; [| done].
    destruct (zookeeper_init2 lib _ _ _ lcb) as [h z'] eqn:E. cbn. apply Hkeep. eapply connect_ok; [| exact E | done | done | cbn; by rewrite El].
    destruct Hs as [Hz _]. unfold handle_ok in Hz. destruct (m_handle c); [| done]. destruct Hz as (Hn & Hz). rewrite law_close, Hz. set_solver.
  - eexists. split; [reflexivity |]. intros s' [= <-]. unfold zsys_ok. cbn. split; [apply Hs | done].
  - eexists. split; [reflexivity |]. intros s' [= <-]. by apply drop_owner_ok.
  - unfold setServers. destruct (zoo_set_servers lib z (m_handle c) (Http.c_str hosts)) as [rt z'] eqn:E. apply Hkeep.
    apply (opened_after _ _ z); [by rewrite <- (law_set_servers z (m_handle c) (Http.c_str hosts)), E | by destruct (rt =? 0)].
  - unfold create. pose proof (law_create z (m_handle c) (Http.c_str path) val acl flags np) as Hc.
    destruct (zoo_create lib z _ _ _ _ _ _) as [rt z']. apply Hkeep. by apply (opened_after _ _ z).
  - unfold del. pose proof (law_delete z (m_handle c) (Http.c_str path) v) as Hc. destruct (zoo_delete lib z _ _ _) as [rt z']. apply Hkeep. by apply (opened_after _ _ z).
  - destruct (proj2 (get_throws c z path val watch None) Ht) as [r ->]. by apply Hkeep.
  - destruct (proj2 (get_throws c z ZOO_CONFIG_NODE val watch None) Ht) as [r E]. unfold getConfig. rewrite E. by apply Hkeep.
  - unfold set. pose proof (law_set2 z (m_handle c) (Http.c_str path) val v) as Hc.
    destruct (zoo_set2 lib z _ _ _ _) as [[rt z'] w]. cbn. apply Hkeep. by apply (opened_after _ _ z).
  - destruct (m_handle c) eqn:Eh; [| exact Hno]. destruct Hs as (Hh & Hw & Hl). unfold OnWatcher.
    assert (Hw' : m_watcherCb c <> None) by (apply Hw; by rewrite Eh). destruct (m_watcherCb c) as [cb|] eqn:Ew; [| done]. cbn.
    eexists. split; [reflexivity |]. intros s' [= <-]. unfold zsys_ok. cbn. unfold client_ok. by rewrite Eh, Ew.
Qed.

(** What throws does throw, where the operation is possible at all. *)
Lemma zstep_throws others s o : zsys_ok others s -> throws s o -> zstep s o = Ok None \/ zstep s o = Fail LogicError.
Proof.
  intros Hs. destruct s as [c n cl [] z]; [by left |]. unfold zsys_ok in Hs. cbn [zc zl z_dead closing] in Hs. destruct o; cbn [throws zc zl closing]; try done; intros Ht; cbn [zstep].
  - destruct n, cl; try by left. right. destruct (get lib c z path val watch None) eqn:E; [by destruct (proj1 (get_throws c z path val watch None) ltac:(by eexists)) |].
    cbn. unfold get, resize in E. repeat case_match; by simplify_eq/=.
  - destruct n, cl; try by left. right. unfold getConfig. destruct (get lib c z ZOO_CONFIG_NODE val watch None) eqn:E;
      [by destruct (proj1 (get_throws c z ZOO_CONFIG_NODE val watch None) ltac:(by eexists)) |].
    cbn. unfold get, resize in E. repeat case_match; by simplify_eq/=.
  - subst cl. destruct (m_handle c); [right | by left]. unfold OnWatcher. destruct Hs as [_ ->]. done.
Qed.

(** Runs in which a client is reconnected only while it has a callback, as
    [onZKExpiredSession] does. *)
Inductive zruns : zsys -> zsys -> Prop :=
  | zr_nil s : zruns s s
  | zr_cons s o s1 s2 : (o = ZReconnect -> m_watcherCb (zc s) <> None) -> zstep s o = Ok (Some s1) -> zruns s1 s2 -> zruns s s2.

Lemma zstep_done others s o s' : zsys_ok others s -> (o = ZReconnect -> m_watcherCb (zc s) <> None) -> zstep s o = Ok (Some s') -> zsys_ok others s'.
Proof.
  intros Hs Ho E. assert (Ht : ~ throws s o) by (intros Ht; destruct (zstep_throws others s o Hs Ht); congruence).
  destruct (zstep_ok others s o Hs Ho Ht) as (r & E' & Hr). apply Hr. congruence.
Qed.

Lemma zruns_ok others s s' : zsys_ok others s -> zruns s s' -> zsys_ok others s'.
Proof. intros Hs Hr. induction Hr as [| s o s1 s2 Ho E _ IH]; [done |]. by apply IH, (zstep_done others s o). Qed.

(** C26: A client owns its handle. However it is initialised, used (all its
    operations, one after the other), reconnected while it has a callback, closed and
    let go: the open handles of the library are those that others had and the
    client's own, if it has one, so that no call gets a closed handle, none is closed
    twice and none is left behind by a reconnection or a destroyed client. An event on
    an open handle reaches the callback, except between the two steps of [close],
    when it throws; and an operation throws in no other case than this and reading
    a node for which the library reports a length that no string has, such as the
    -1 of a node without data. *)
Theorem client_owns_handle n (z : zs lib) s :
  zruns (mkZSys new_ZKClient (S n) false false z) s ->
  (z_dead s = true -> opened (zl s) = opened z)
  /\ (z_dead s = false -> opened (zl s) = (match m_handle (zc s) with Some h => {[h]} | None => ∅ end) ∪ opened z)
  /\ (z_dead s = false -> forall h, m_handle (zc s) = Some h -> (h ∉ opened z)
        /\ (closing s = true -> forall type stat path, OnWatcher (zc s) type stat path = Fail LogicError)
        /\ (closing s = false -> exists cb, forall type stat path, OnWatcher (zc s) type stat path = Ok (cb, (type, stat, path))))
  /\ (forall o, (o = ZReconnect -> m_watcherCb (zc s) <> None) -> ~ throws s o -> exists r, zstep s o = Ok r)
  /\ (forall o, throws s o -> zstep s o = Ok None \/ zstep s o = Fail LogicError).
Proof.
  intros Hr. assert (Hs : zsys_ok (opened z) s) by (by eapply zruns_ok; [| exact Hr]).
  assert (Hh : z_dead s = false -> handle_ok (opened z) (zc s) (zl s)).
  { intros Hd. unfold zsys_ok in Hs. rewrite Hd in Hs. destruct (closing s); apply Hs. }
  split_and!.
  - intros Hd. unfold zsys_ok in Hs. by rewrite Hd in Hs.
  - intros Hd. specialize (Hh Hd). unfold handle_ok in Hh. destruct (m_handle (zc s)); [naive_solver | set_solver].
  - intros Hd h Eh. specialize (Hh Hd). unfold handle_ok in Hh. rewrite Eh in Hh. unfold zsys_ok in Hs. rewrite Hd in Hs. unfold OnWatcher.
    split_and!; [by destruct Hh | |]; intros Hc; rewrite Hc in Hs; [by destruct Hs as [_ ->] |].
    destruct Hs as (_ & Hw & _). destruct (m_watcherCb (zc s)) as [cb|]; [by exists cb | exfalso; apply Hw; [by rewrite Eh | done]].
  - intros o Ho Ht. destruct (zstep_ok _ s o Hs Ho Ht) as (r & E & _). by exists r.
  - intros o Ht. by eapply zstep_throws.
Qed.

(** Between the two steps of [close], the handle is still open: an event then calls
    an empty function. *)
Theorem event_during_close_throws c type stat path :
  m_handle (close_begin c) = m_handle c /\ OnWatcher (close_begin c) type stat path = Fail LogicError.
Proof. done. Qed.

(** A client that was closed can be reconnected, and then has an open handle whose
    events throw. *)
Theorem reconnected_after_close_throws c (z : zs lib) rt c1 z1 b c2 z2 type stat path :
  close lib c z = (rt, c1, z1) -> reconnect lib c1 z1 = Ok (b, c2, z2) ->
  b = is_open (m_handle c2) /\ OnWatcher c2 type stat path = Fail LogicError.
Proof.
  unfold close, close_end, close_begin, reconnect. cbn. intros E1 E2.
  assert (Hw : m_watcherCb c1 = None) by (destruct (m_handle c); [destruct (zookeeper_close lib z n) |]; by simplify_eq/=).
  destruct (m_logCb c1); [| done]. destruct (zookeeper_init2 lib _ _ _ _). simplify_eq/=. split; [done |]. unfold OnWatcher. cbn. by rewrite Hw.
Qed.

(** The callback holds the client: one that is let go without [close] stays, with
    its handle. *)
Theorem forgotten_client_stays (c : ZKClient) (z : zs lib) cb :
  m_watcherCb c = Some cb -> zstep (mkZSys c 1 false false z) ZDrop = Ok (Some (mkZSys c 0 false false z)).
Proof. intros Hw. cbn. unfold drop_owner. by rewrite Hw. Qed.

(** [reconnect] before [init] uses a member that the constructor leaves
    uninitialised. *)
Theorem reconnect_before_init (z : zs lib) : reconnect lib new_ZKClient z = Fail Indeterminate.
Proof. done. Qed.

(** Reading a node whose data is null, of which the library reports the length -1,
    throws. *)
Theorem get_null_data_throws c z path val watch stat buf w :
  zoo_get lib z (m_handle c) (Http.c_str path) watch val = (ZOK, buf, -1, w) -> get lib c z path val watch stat = Fail LogicError.
Proof. intros E. unfold get. by rewrite E. Qed.

(** Data that fits in the caller's string is returned as it is: the buffer starts with
    it and its length is reported. *)
Theorem get_exact c z path val watch stat data rest w :
  zoo_get lib z (m_handle c) (Http.c_str path) watch val = (ZOK, (data ++ rest)%string, Z.of_nat (String.length data), w) ->
  Z.of_nat (String.length data) <= MAX_SIZE -> get lib c z path val watch stat = Ok (ZOK, data, fill lib stat w).
Proof.
  intros E Hl. unfold get. rewrite E. change (ZOK =? ZOK) with true. cbn [negb]. unfold resize, MAX_SIZE in *.
  unfold u64, wrap. rewrite Z.mod_small by lia. destruct (Z.ltb_spec (2 ^ 63 - 1) (Z.of_nat (String.length data))); [lia |]. rewrite length_str_app.
  destruct (Z.leb_spec (Z.of_nat (String.length data)) (Z.of_nat (String.length data + String.length rest))); [| lia].
  rewrite Nat2Z.id. cbn. rewrite str_take_app, str_take_ge, Nat.sub_diag by lia. cbn. by rewrite str_app_nil.
Qed.
End handles.

(** ** An ensemble in memory *)

(** The next handle, the open ones, and the nodes with their data. *)
Record mem := mkMem { m_next : nat; m_opens : gset nat; m_nodes : gmap string string }.

Fixpoint strip (prefix s : string) : option string :=
  match prefix, s with
  | ""%string, s => Some s
  | String a prefix, String b s => if Ascii.eqb a b then strip prefix s else None
  | _, _ => None
  end.

Definition names_below (nodes : gmap string string) (path : string) : list string :=
  filter (fun n => no_slash n = true) (omap (fun e => strip (path ++ "/")%string e.1) (map_to_list nodes)).

(** A buffer takes what fits and a NUL. *)
Definition put_path (buf path : string) : string :=
  match String.length buf with
  | O => ""%string
  | S n => (str_take n path ++ String "000"%char (str_drop (S (String.length (str_take n path))) buf))%string
  end.

Definition live (m : mem) (h : option nat) : bool := match h with Some h => bool_decide (h ∈ m_opens m) | None => false end.
Definition ZBADARGUMENTS : Z := -8.
Definition ZNONODE : Z := -101.

Definition mem_lib : zoolib := {|
  zs := mem;
  zstat := unit;
  zookeeper_init2 m hosts t lcb :=
    if String.eqb hosts "" then (None, m) else (Some (fresh (m_opens m)), mkMem (m_next m) ({[fresh (m_opens m)]} ∪ m_opens m) (m_nodes m));
  zookeeper_close m h := (ZOK, mkMem (m_next m) (m_opens m ∖ {[h]}) (m_nodes m));
  zoo_set_servers m h hosts := (ZOK, m);
  zoo_create m h path val acl flags buf :=
    if negb (live m h) then (ZBADARGUMENTS, buf, m) else
    match m_nodes m !! path with
    | Some _ => (ZNODEEXISTS, buf, m)
    | None => (ZOK, put_path buf path, mkMem (m_next m) (m_opens m) (<[path := val]> (m_nodes m)))
    end;
  zoo_exists m h path watch := (if live m h then match m_nodes m !! path with Some _ => ZOK | None => ZNONODE end else ZBADARGUMENTS, None);
  zoo_delete m h path v := (ZOK, mkMem (m_next m) (m_opens m) (delete path (m_nodes m)));
  zoo_get m h path watch buf :=
    match m_nodes m !! path with
    | None => (ZNONODE, buf, 0, None)
    | Some d => (ZOK, (d ++ str_drop (String.length d) buf)%string, Z.of_nat (String.length d), None)
    end;
  zoo_set2 m h path val v := (ZOK, mkMem (m_next m) (m_opens m) (<[path := val]> (m_nodes m)), None);
  zoo_get_children2 m h path watch := if live m h then (ZOK, names_below (m_nodes m) path, None) else (ZBADARGUMENTS, [], None);
  zoo_get_current_server m h := None;
  zoo_state m h := 3;
|}.

#[global] Instance mem_laws : ZooLaws mem_lib.
Proof.
  refine {| opened := (m_opens : zs mem_lib -> gset nat) |}; try done.
  - intros z hosts t lcb. cbn. destruct (String.eqb hosts ""); cbn; [done |]. split; [apply is_fresh | done].
  - intros z h path val acl flags buf. cbn. destruct (negb (live z h)); [done |]. by destruct (m_nodes z !! path).
Defined.

(** A client is initialised, reconnected, closed and let go. *)
Lemma client_owns_handle_witness :
  let z := mkMem 0 {[5%nat]} ∅ : zs mem_lib in
  exists s1 s2, zruns mem_lib (mkZSys mem_lib new_ZKClient 1 false false z) s1 /\ m_handle (zc _ s1) <> None
    /\ zruns mem_lib (mkZSys mem_lib new_ZKClient 1 false false z) s2 /\ z_dead _ s2 = true /\ opened (zl _ s2) = {[5%nat]}.
Proof.
  intros z.
  assert (H1 : exists s1, zruns mem_lib (mkZSys mem_lib new_ZKClient 1 false false z) s1 /\ m_handle (zc _ s1) <> None
            /\ exists s2, zruns mem_lib s1 s2 /\ z_dead _ s2 = true).
  { eexists. split; [eapply (zr_cons _ _ (ZInit "zk:2181" 6000 3 None)); [done | reflexivity |];
      eapply (zr_cons _ _ ZReconnect); [done | reflexivity |]; constructor |]. split; [done |].
    eexists. split; [eapply (zr_cons _ _ ZCloseBegin); [done | reflexivity |]; eapply (zr_cons _ _ ZCloseEnd); [done | reflexivity |]; eapply (zr_cons _ _ ZDrop); [done | reflexivity |]; constructor |]. reflexivity. }
  destruct H1 as (s1 & Hr1 & Hh & s2 & Hr2 & Hd). exists s1, s2.
  assert (Hr : zruns mem_lib (mkZSys mem_lib new_ZKClient 1 false false z) s2) by (clear Hd Hh; induction Hr1; [done | by econstructor; eauto]).
  destruct (client_owns_handle mem_lib 0 z s2 Hr) as (Hdead & _). split_and!; [done | done | done | done |]. by apply Hdead.
Defined.

(** ** From a provider to the balancers of a consumer *)

(** What ZooKeeper promises of its nodes: creation with plain or ephemeral flags adds
    its path and removes nothing, and a path that is refused as existing exists; the
    children of a node are all listed. *)
Class EnsembleLaws (lib : zoolib) := {
  node : zs lib -> string -> Prop;
  law_created z h path val acl flags buf rt buf' z' :
    flags = 0 \/ flags = EPHEMERAL -> zoo_create lib z h path val acl flags buf = (rt, buf', z') ->
    (forall p, node z p -> node z' p) /\ (rt = ZOK \/ rt = ZNODEEXISTS -> node z' path);
  law_children z h path watch l w :
    zoo_get_children2 lib z h path watch = (ZOK, l, w) -> forall n, node z (path ++ "/" ++ n) -> no_slash n = true -> n ∈ l;
}.

Section reach.
Context (lib : zoolib) `{EnsembleLaws lib}.

Lemma existsOrCreate_client fuel s path ok s' : existsOrCreate (client_zk lib) fuel s path = Ok (ok, s') -> s'.1 = s.1.
Proof.
  revert s path ok s'. induction fuel as [| fuel IH]; intros s path ok s'; [done |]. simpl. destruct (_ =? ZOK); [by intros [= _ <-] |].
  destruct (before_last "/" path) as [parent|]; [| by intros [= _ <-]].
  destruct (if String.eqb parent "" then _ else _) as [[ok1 s1]|] eqn:E1; [| discriminate].
  assert (Hs1 : s1.1 = s.1) by (destruct (String.eqb parent ""); [by simplify_eq | by eapply IH]). simpl.
  destruct ok1; [| by intros [= _ <-]; exact Hs1]. unfold create. destruct (zoo_create lib _ _ _ _ _ _ _) as [[v b] z2]. intros [= _ <-]. exact Hs1.
Qed.

(** What [registerInfo] reports as registered is a node of the ensemble. *)
Lemma registered_node s domain service addr data s' :
  registerInfo (client_zk lib) s domain service addr data = Ok (true, s') ->
  s'.1 = s.1 /\ node s'.2 (Http.c_str (GetProvidersPath domain service ++ "/" ++ addr)).
Proof.
  unfold registerInfo. destruct (existsOrCreate _ _ _ _) as [[ok s1]|] eqn:E; [| done]. simpl. destruct ok; [| done].
  apply existsOrCreate_client in E. unfold create. destruct (zoo_create lib _ _ _ _ _ _ _) as [[rt b] z2] eqn:Ec. intros [= Hrt <-]. split; [done |].
  destruct (law_created _ _ _ _ _ _ _ _ _ _ (or_intror eq_refl) Ec) as [_ Hn]. apply Hn. apply orb_prop in Hrt as [?%Z.eqb_eq | ?%Z.eqb_eq]; auto.
Qed.

Lemma infos_of_in inet_addr vals addr info :
  addr ∈ vals -> Create inet_addr addr "" = Some info -> is_Some (infos_of inet_addr vals !! Lb.s_id info).
Proof.
  intros Hin Hc. unfold infos_of. generalize (∅ : gmap Z Lb.ServiceItemInfo) as m.
  set (f := fun (m : gmap Z Lb.ServiceItemInfo) v => match Create inet_addr v "" with Some i => <[Lb.s_id i := i]> m | None => m end).
  assert (Hf : forall m v k, is_Some (m !! k) -> is_Some (f m v !! k)).
  { intros m v k Hk. unfold f. destruct (Create inet_addr v ""); [| done]. rewrite lookup_insert_is_Some'. by right. }
  assert (Hkeep : forall l m k, is_Some (m !! k) -> is_Some (foldl f m l !! k)) by (induction l; intros; simpl; auto).
  induction Hin as [addr l | addr v l Hin IH]; intros m; simpl; [| by apply IH].
  apply Hkeep. unfold f. rewrite Hc. rewrite lookup_insert_eq. by eexists.
Qed.

Lemma infos_of_id inet_addr vals id info : infos_of inet_addr vals !! id = Some info -> Lb.s_id info = id.
Proof.
  unfold infos_of. assert (H0 : forall k i, (∅ : gmap Z Lb.ServiceItemInfo) !! k = Some i -> Lb.s_id i = k) by (intros k i Hk; by rewrite lookup_empty in Hk).
  revert H0. generalize (∅ : gmap Z Lb.ServiceItemInfo) as m. induction vals as [| v vals IH]; intros m H0; simpl; [apply H0 |].
  apply IH. intros k i. destruct (Create inet_addr v "") as [j|]; [| apply H0]. intros [[<- <-] | [_ Hk]]%lookup_insert_Some; [done | by apply H0].
Qed.

Lemma no_nul_c_str s : str_mem "000" s = false -> Http.c_str s = s.
Proof.
  induction s as [| c s IH]; [done |]. cbn [str_mem Http.c_str]. intros [Hc Hs]%orb_false_iff. rewrite IH by done.
  by rewrite Ascii.eqb_sym, Hc || rewrite Hc.
Qed.

Lemma str_mem_app c a b : str_mem c (a ++ b) = str_mem c a || str_mem c b.
Proof. induction a as [| x a IH]; [done |]. cbn. by rewrite IH, orb_assoc. Qed.

(** The children that the client reports hold every provider that is a node. *)
Lemma children_complete (s : zk (client_zk lib)) path vals addr :
  zk_children (client_zk lib) s path = (ZOK, vals) -> str_mem "000" (path ++ "/" ++ addr) = false -> no_slash addr = true ->
  node s.2 (path ++ "/" ++ addr) -> addr ∈ vals.
Proof.
  intros E Hnul Hs Hn. assert (Hp : str_mem "000" path = false) by (rewrite str_mem_app in Hnul; by apply orb_false_iff in Hnul as [? _]).
  simpl in E. unfold getChildren in E. rewrite no_nul_c_str in E by done.
  destruct (zoo_get_children2 lib s.2 (m_handle s.1) path true) as [[rt l] x] eqn:Ez. cbn in E. destruct (rt =? ZOK) eqn:Er; simplify_eq/=.
  by eapply law_children.
Qed.
End reach.

(** C14: What a provider registers reaches the balancers of its consumers. When the
    discovery of a provider reports the address as registered through its client,
    and the discovery of a consumer that queries the service then fetches the
    providers through its own, and no node was removed in between: the fetch
    succeeds, the consumer knows a service under the id of that address, and its
    balancer has a stream for it - the one it had when it knew the service before,
    and the one the callback makes otherwise. The services the consumer knew have
    their streams, and the callback makes a stream for the new one: a service
    whose callback failed stays known without a stream and is not tried again. *)
Theorem registration_reaches_balancers lib `{EnsembleLaws lib} inet_addr conn scaled iter m_cb
    (p p' : zk (client_zk lib)) (w : world (client_zk lib)) domain service addr data info vals :
  (forall A m, iter A m ≡ₚ map_to_list m) -> in_step (w_disc _ w) (w_sd _ w) ->
  no_slash domain = true -> no_slash service = true -> no_slash addr = true ->
  str_mem "000" (GetProvidersPath domain service ++ "/" ++ addr) = false -> Create inet_addr addr "" = Some info ->
  registerInfo (client_zk lib) p domain service addr data = Ok (true, p') ->
  (forall q, node p'.2 q -> node (w_zk _ w).2 q) ->
  queried (w_disc _ w) domain service = true -> zk_children (client_zk lib) (w_zk _ w) (GetProvidersPath domain service) = (ZOK, vals) ->
  (forall id, is_Some (known (w_disc _ w) domain service !! id) -> is_Some (serving (w_sd _ w) domain service id)) ->
  (forall i, Lb.s_id i = Lb.s_id info -> is_Some (m_cb i)) ->
  exists w' info' stream, Sd.getChildren (client_zk lib) inet_addr conn scaled iter m_cb w (GetProvidersPath domain service) = Ok (true, w')
    /\ known (w_disc _ w') domain service !! Lb.s_id info = Some info' /\ Lb.s_id info' = Lb.s_id info
    /\ serving (w_sd _ w') domain service (Lb.s_id info) = Some stream
    /\ if decide (is_Some (known (w_disc _ w) domain service !! Lb.s_id info))
       then serving (w_sd _ w) domain service (Lb.s_id info) = Some stream else m_cb info' = Some stream.
Proof.
  intros Hperm Hstep Hd Hs Ha Hnul Hinfo Hreg Hkeep Hq Hc Hold Hcb.
  destruct (registered_node lib _ _ _ _ _ _ Hreg) as [_ Hn]. rewrite no_nul_c_str in Hn by done.
  assert (Hin : addr ∈ vals) by (eapply children_complete; [exact Hc | done | done | by apply Hkeep]).
  destruct (infos_of_in inet_addr vals addr info Hin Hinfo) as [info' Hi]. pose proof (infos_of_id _ _ _ _ Hi) as Hid.
  unfold Sd.getChildren. rewrite parse_providers, Hq by done. cbn [negb]. rewrite Hc.
  change (ZOK =? ZOK) with true. cbn [negb]. set (new := infos_of inet_addr vals) in *.
  destruct (change_step conn scaled iter m_cb Hperm (w_disc _ w) (w_sd _ w) domain service new Hstep) as (sd' & closed & E & _ & H2 & _ & _).
  fold (known (w_disc _ w) domain service). rewrite E. cbn [mbind outcome_bind].
  assert (Hs' : exists stream, serving sd' domain service (Lb.s_id info) = Some stream
    /\ if decide (is_Some (known (w_disc _ w) domain service !! Lb.s_id info))
       then serving (w_sd _ w) domain service (Lb.s_id info) = Some stream else m_cb info' = Some stream).
  { rewrite H2. unfold target. rewrite Hi. case_decide as Hk; [destruct (Hold _ Hk) as [st Hst] | destruct (Hcb info' Hid) as [st Hst]]; exists st; by split. }
  destruct Hs' as (stream & Hs1 & Hs2). eexists _, info', stream. split; [reflexivity |]. cbn [w_disc w_sd]. split_and!; try done.
  pose proof (known_learn (w_disc _ w) domain service new domain service) as Hk. rewrite decide_True in Hk by done. unfold learn in Hk. by rewrite Hk.
Qed.

#[global] Instance mem_ensemble : EnsembleLaws mem_lib.
Proof.
  refine {| node := (fun m p => is_Some (m_nodes m !! p)) : zs mem_lib -> string -> Prop |}.
  - intros z h path val acl flags buf rt buf' z' _. cbn. destruct (negb (live z h)); [intros [= <- <- <-]; split; [done | by intros [? | ?]] |].
    destruct (m_nodes z !! path) eqn:Ep; intros [= <- <- <-]; (split; [| intros _]); cbn; [done | by rewrite Ep | | by rewrite lookup_insert_eq].
    intros q Hq. rewrite lookup_insert_is_Some'. by right.
  - intros z h path watch l w. cbn. destruct (live z h); [| done]. intros [= <- <-] n [v Hv] Hn.
    unfold names_below. apply list_elem_of_filter. split; [done |]. apply list_elem_of_omap. exists ((path ++ "/" ++ n)%string, v). split; [by apply elem_of_map_to_list |].
    cbn. clear. assert (Hs : forall a b, strip a (a ++ b)%string = Some b) by (induction a; intros; cbn; [done | by rewrite Ascii.eqb_refl]).
    by rewrite <- (Hs (path ++ "/")%string n), str_app_assoc.
Defined.

(** Provider and consumer on one ensemble, each with its handle. *)
Definition demo_nodes : gmap string string :=
  list_to_map [("/sylar", ""); ("/sylar/shop", ""); ("/sylar/shop/cart", ""); ("/sylar/shop/cart/providers", "");
    ("/sylar/shop/cart/providers/10.0.0.1:80", "v1")]%string.
Definition demo_client (h : nat) : ZKClient := mkClient (Some h) "zk" (Some 0%nat) (Some None) 6000.
Definition demo_at (h : nat) (nodes : gmap string string) : zk (client_zk mem_lib) := (demo_client h, mkMem 0 {[1%nat; 2%nat]} nodes).
Definition demo_world : world (client_zk mem_lib) :=
  mkWorld (client_zk mem_lib) (queryServer (mkDisc ∅ ∅ ∅ "self" "") "shop" "cart") Lb.new_SDLoadBalance (demo_at 2 demo_nodes) [].

Lemma registration_reaches_balancers_witness :
  registerInfo (client_zk mem_lib) (demo_at 1 ∅) "shop" "cart" "10.0.0.1:80" "v1" = Ok (true, demo_at 1 demo_nodes)
  /\ exists w', Sd.getChildren (client_zk mem_lib) (fun _ => 167772161) (fun _ => true) (fun v _ => v) (fun A m => map_to_list m)
           (fun i => Some 7%nat) demo_world (GetProvidersPath "shop" "cart") = Ok (true, w')
       /\ serving (w_sd _ w') "shop" "cart" (167772161 * 2 ^ 32 + 80) = Some 7%nat.
Proof.
  split; [vm_compute; reflexivity |].
  destruct (registration_reaches_balancers mem_lib (fun _ => 167772161) (fun _ => true) (fun v _ => v) (fun A m => map_to_list m) (fun i => Some 7%nat)
      (demo_at 1 ∅) (demo_at 1 demo_nodes) demo_world "shop" "cart" "10.0.0.1:80" "v1" (Lb.mkInfo (167772161 * 2 ^ 32 + 80) 80 "10.0.0.1" "") ["10.0.0.1:80"%string])
    as (w' & info' & stream & E & _ & _ & Hsv & Hst).
  - done.
  - apply in_step_start.
  - reflexivity.
  - reflexivity.
  - reflexivity.
  - reflexivity.
  - vm_compute. reflexivity.
  - vm_compute. reflexivity.
  - by intros q Hq.
  - vm_compute. reflexivity.
  - vm_compute. reflexivity.
  - intros id [x Hx]. cbn in Hx. unfold known in Hx. vm_compute in Hx. discriminate Hx.
  - intros i _. by eexists.
  - exists w'. split; [exact E |]. etrans; [exact Hsv |]. rewrite decide_False in Hst by (intros [x Hx]; vm_compute in Hx; discriminate Hx). by rewrite <- Hst.
Defined.

(** ** Stopping the discovery *)

(** [stop] gives the handle back, and may be repeated; [start] after it opens a new
    one. *)
Theorem stop_releases lib `{ZooLaws lib} others d (z : zs lib) d' z' :
  match z_client d with Some c => client_ok lib others c z | None => opened z = others end -> stop lib d z = (d', z') ->
  d' = mkZSD None false /\ opened z' = others.
Proof.
  intros Hc. unfold stop. destruct (z_client d) as [c|]; [| by intros [= <- <-]]. destruct (close lib c z) as [[rt c'] z1] eqn:E. intros [= <- <-].
  split; [done |]. destruct (close_ok lib others c z Hc _ _ _ E) as (Hc' & Hh & _). destruct Hc' as [Ho _]. unfold handle_ok in Ho. by rewrite Hh in Ho.
Qed.
