(* ===== verification/RockServer.v ===== *)
(** The Rock server of rock/rock_server.cc over the modules of [ModuleMgr] and the
    streams of [AsyncStream], with the sessions, connections and the
    load-balanced client of rock/rock_stream.cc.

    What a module does with a message is its own: [handleRequest] may change the
    response that it is given and says whether it took the request.

    The Rock server: every request is answered once, by the first module that takes
    it. *)

From stdpp Require Import gmap strings.
From S2P Require Import Prelude Endian Address ModuleMgr ModuleMgrProps Rock AsyncStream AsyncProps LoadBalance Discovery.

Import Rk.

Module Rs.

Local Open Scope Z_scope.

(** ** Streams *)

(** [RockSession] and [RockConnection] *)
Definition new_RockSession (is_connected : bool) : As.stream := As.new_stream is_connected false.
Definition new_RockConnection : As.stream := As.new_stream false true.

(** ** Modules *)

(** The functions that a module has; [Module] takes every message and does nothing
    with it. *)
Record handlers := mkHandlers {
  handleRequest : RockRequest -> RockResponse -> bool * RockResponse;
  handleNotify : RockNotify -> bool;
}.

Definition default_handlers : handlers := mkHandlers (fun _ rsp => (true, rsp)) (fun _ => true).

Section server.
Context (trav : gmap string nat -> list (string * nat)) (funs : nat -> handlers).

(** The loop of the request handler of [handleClient]: the modules are asked until one
    takes the request. The last component lists the modules that were asked. *)
Fixpoint ask_request (ms : list nat) (req : RockRequest) (rt : bool) (rsp : RockResponse) (asked : list nat) : bool * RockResponse * list nat :=
  match ms with
  | [] => (rt, rsp, asked)
  | m :: ms =>
      if rt then ask_request ms req rt rsp asked
      else let '(rt, rsp) := handleRequest (funs m) req rsp in ask_request ms req rt rsp (asked ++ [m])
  end.

Fixpoint ask_notify (ms : list nat) (nty : RockNotify) (rt : bool) (asked : list nat) : bool * list nat :=
  match ms with
  | [] => (rt, asked)
  | m :: ms => if rt then ask_notify ms nty rt asked else ask_notify ms nty (handleNotify (funs m) nty) (asked ++ [m])
  end.

(** The handlers that [handleClient] gives its session, with the modules of the moment
    of the message. *)
Definition requestHandler (g : Mo.ModuleManager) (req : RockRequest) (rsp : RockResponse) : bool * RockResponse :=
  (ask_request (Mo.foreach trav g Mo.ROCK) req false rsp []).1.

Definition notifyHandler (g : Mo.ModuleManager) (nty : RockNotify) : bool := (ask_notify (Mo.foreach trav g Mo.ROCK) nty false []).1.

(** The worker handles the oldest message of a session. *)
Definition serve (g : Mo.ModuleManager) (s : As.stream) : option As.stream :=
  match As.works s with
  | [] => None
  | As.HandleRequest r :: _ =>
      let '(rt, rsp) := requestHandler g r (createResponse r) in As.step_work rt (fun _ => rsp) s
  | As.HandleNotify n :: _ => As.step_work (notifyHandler g n) (fun r => r) s
  end.

(** [handleClient]: the modules whose [onConnect] is called and the session, before and
    after [start]. *)
Definition handleClient (g : Mo.ModuleManager) (is_connected reconnects : bool) : list nat * option As.stream :=
  (Mo.foreach trav g Mo.ROCK, As.step_start reconnects true (new_RockSession is_connected)).

(** The modules whose [onDisconnect] is called when [innerClose] finds the session
    connected. *)
Definition disconnectCb (g : Mo.ModuleManager) (s : As.stream) : list nat :=
  if As.connected s then Mo.foreach trav g Mo.ROCK else [].
End server.

(** ** The load-balanced client *)

Section client.
Context (host : Z) (getaddrinfo : string -> option string -> option (list (list Z))).

(** [create_rock_stream]: the address to connect to and the new connection. *)
Definition create_rock_stream (info : Lb.ServiceItemInfo) : option (Ad.Address * As.stream) :=
  match Ad.LookupAnyIPAddress host getaddrinfo (Lb.s_ip info) with
  | None => None
  | Some a => Some (Ad.setPort host a (Lb.s_port info), new_RockConnection)
  end.

(** [RockSDLoadBalance::start]: the types of the balancers, and what the discovery is
    to query. *)
Definition start (sd : Lb.SDLoadBalance) (d : Sd.Discovery) (confs : gmap string (gmap string string)) : Lb.SDLoadBalance * Sd.Discovery :=
  let '(sd, queries) := Lb.initConf sd confs in (sd, Sd.setQueryServer d queries).
End client.

End Rs.

Import Rk Rs.
Local Open Scope Z_scope.

Section served.
Context (funs : nat -> handlers).

(** The response after the modules were asked in turn. *)
Definition edited (req : RockRequest) (rsp : RockResponse) (ms : list nat) : RockResponse :=
  foldl (fun rsp m => (handleRequest (funs m) req rsp).2) rsp ms.

(** A module refuses the request, given the response that those before it left. *)
Definition refuses (req : RockRequest) (rsp : RockResponse) (ms : list nat) : Prop :=
  forall pre m post, ms = pre ++ m :: post -> (handleRequest (funs m) req (edited req rsp pre)).1 = false.

Lemma ask_taken ms req rsp asked : ask_request funs ms req true rsp asked = (true, rsp, asked).
Proof. by induction ms. Qed.

Lemma edited_cons req rsp m ms : edited req rsp (m :: ms) = edited req (handleRequest (funs m) req rsp).2 ms.
Proof. done. Qed.

(** The modules asked are those up to the first that takes the request. *)
Lemma ask_request_spec ms req rsp asked :
  exists pre post rt, ms = pre ++ post /\ ask_request funs ms req false rsp asked = (rt, edited req rsp pre, asked ++ pre)
    /\ (if rt : bool then exists before m, pre = before ++ [m] /\ refuses req rsp before /\ (handleRequest (funs m) req (edited req rsp before)).1 = true
        else post = [] /\ refuses req rsp pre).
Proof.
  revert rsp asked. induction ms as [| m ms IH]; intros rsp asked.
  { exists [], [], false. split; [done |]. split; [by cbn; rewrite app_nil_r |]. split; [done |]. intros pre m post E. by destruct pre. }
  cbn [ask_request]. destruct (handleRequest (funs m) req rsp) as [[] rsp1] eqn:E.
  - exists [m], ms, true. split; [done |]. split; [rewrite ask_taken; unfold edited; cbn; by rewrite E |]. exists [], m. split_and!; [done | | by cbn; rewrite E].
    intros pre m' post E'. by destruct pre.
  - destruct (IH rsp1 (asked ++ [m])) as (pre & post & rt & -> & -> & Hrt).
    assert (Hcons : forall l, refuses req rsp1 l -> refuses req rsp (m :: l)).
    { intros l Hl p m' q Ep. destruct p as [| m0 p]; cbn in Ep; simplify_eq; [cbn; by rewrite E |]. rewrite edited_cons, E. by eapply Hl. }
    exists (m :: pre), post, rt. split; [done |]. split; [by rewrite edited_cons, E, <- app_assoc |]. destruct rt.
    + destruct Hrt as (before & m' & -> & Hr & Hm). exists (m :: before), m'. split_and!; [done | by apply Hcons | by rewrite edited_cons, E].
    + destruct Hrt as [-> Hr]. split; [done | by apply Hcons].
Qed.
End served.

(** C13: A request is answered once, by the first module that takes it. On a session
    with a request to handle, over consistent module tables and any order of their
    traversal: the modules asked are registered modules of the Rock type, in the
    order of the traversal, and end with the first that takes the request; exactly one
    response is queued, the one that the request makes, as the modules that were
    asked left it in turn; the rest of the work is kept, and the session stays
    connected exactly when a module took the request. *)
Theorem request_answered_by_first_taker trav funs g s r w :
  (forall A, trav A ≡ₚ map_to_list A) -> mgr_ok g -> As.works s = As.HandleRequest r :: w -> As.connected s = true ->
  exists s' asked rest taken, serve trav funs g s = Some s'
    /\ asked ++ rest = Mo.foreach trav g Mo.ROCK
    /\ (forall p, p ∈ asked -> Mo.m_type <$> Mo.mods g !! p = Some Mo.ROCK /\ exists name, Mo.get g name = Some p)
    /\ (if taken : bool
        then exists before m, asked = before ++ [m] /\ refuses funs r (createResponse r) before
             /\ (handleRequest (funs m) r (edited funs r (createResponse r) before)).1 = true
        else rest = [] /\ refuses funs r (createResponse r) asked)
    /\ As.m_queue s' = As.m_queue s ++ [As.SMessage (MResponse (edited funs r (createResponse r) asked))]
    /\ As.works s' = w /\ As.connected s' = taken.
Proof.
  intros Htrav Hg Hw Hc. destruct (ask_request_spec funs (Mo.foreach trav g Mo.ROCK) r (createResponse r) []) as (pre & post & rt & Hms & E & Hrt).
  unfold serve. rewrite Hw. unfold requestHandler. rewrite E. cbn [fst snd]. unfold As.step_work. rewrite Hw. eexists _, pre, post, rt. split; [reflexivity |].
  split; [done |]. split; [| split; [done |]].
  - intros p Hp. assert (Hin : p ∈ Mo.listByType trav g Mo.ROCK) by (change (p ∈ Mo.foreach trav g Mo.ROCK); rewrite Hms; apply elem_of_app; by left).
    apply (listByType_spec trav Htrav g Mo.ROCK p Hg) in Hin as [Hall Ht]. split; [done |]. unfold Mo.listAll in Hall.
    apply list_elem_of_fmap in Hall as ([name q] & -> & Hq). rewrite Htrav in Hq. apply elem_of_map_to_list in Hq. by exists name.
  - unfold As.sendMessage. cbn. rewrite Hc. by destruct rt; cbn; rewrite ?Hc.
Qed.

(** A session that has just started and gets a request; one registered module takes
    command 5. *)
Definition demo_funs (p : nat) : handlers :=
  mkHandlers (fun q rsp => if rq_cmd q =? 5 then (true, {| rs_sn := rs_sn rsp; rs_cmd := rs_cmd rsp; rs_result := 0; rs_resultStr := []; rs_body := [7] |}) else (false, rsp))
    (fun _ => false).
Definition demo_request : RockRequest := {| rq_sn := 3; rq_cmd := 5; rq_body := [] |}.
Definition demo_session : As.stream := As.run [As.LStart false true; As.LRecv (Some (MRequest demo_request)) true] (new_RockSession true).

Lemma request_answered_by_first_taker_witness :
  exists g s', Mo.add (Mo.new_ModuleManager demo_mods) 0 = Ok g /\ serve map_to_list demo_funs g demo_session = Some s' /\ As.connected s' = true.
Proof.
  assert (H0 : mgr_ok (Mo.new_ModuleManager demo_mods)) by (split; cbn; unfold by_type; cbn; intros *; rewrite ?lookup_empty; cbn; naive_solver).
  destruct (add_ok (Mo.new_ModuleManager demo_mods) 0 (Mo.new_Module "echo" "1" "" Mo.ROCK) H0 eq_refl) as (g & Eg & Hg & _).
  exists g. assert (E0 : exists s0, serve map_to_list demo_funs g demo_session = Some s0 /\ As.connected s0 = true)
    by (vm_compute in Eg; injection Eg as <-; eexists; split; vm_compute; reflexivity). destruct E0 as (s0 & E0 & Hc0).
  destruct (request_answered_by_first_taker map_to_list demo_funs g demo_session demo_request []) as (s' & asked & rest & taken & E & _ & _ & _ & _ & _ & Hc).
  - done.
  - exact Hg.
  - reflexivity.
  - reflexivity.
  - exists s'. split_and!; [exact Eg | exact E |]. rewrite E in E0. injection E0 as ->. exact Hc0.
Defined.

(** A request that nobody takes: the session is closed while the answer is still in
    its queue. *)
Theorem unhandled_answer_not_sent trav funs g s r w :
  Mo.foreach trav g Mo.ROCK = [] -> As.works s = As.HandleRequest r :: w -> As.connected s = true ->
  exists s', serve trav funs g s = Some s' /\ As.connected s' = false
    /\ As.m_queue s' = As.m_queue s ++ [As.SMessage (MResponse (createResponse r))] /\ As.sent s' = As.sent s.
Proof.
  intros Hm Hw Hc. unfold serve. rewrite Hw. unfold requestHandler. rewrite Hm. cbn. unfold As.step_work. rewrite Hw. eexists. split; [reflexivity |].
  unfold As.sendMessage. cbn. rewrite Hc. done.
Qed.

(** ** Sessions do not reconnect *)

Lemma autoConnect_off a s s' : As.m_autoConnect s = false -> As.step a s = Some s' -> As.m_autoConnect s' = false.
Proof.
  intros Ha E. destruct a; cbn [As.step] in E; unfold As.do_request, As.addCtx, As.sendMessage, As.step_call, As.step_writer, As.step_recv, As.step_reader_out, As.step_timeout,
    As.step_rsp, As.step_work, As.step_start, As.getAndDelCtx, As.innerClose, As.sendMessage in E; repeat case_match; simplify_eq/=; try done.
Qed.

(** A session that was accepted never connects on its own. *)
Theorem session_never_reconnects b s : As.reachable (new_RockSession b) s -> As.m_autoConnect s = false.
Proof. intros Hr. induction Hr; [done |]. by eapply autoConnect_off. Qed.

(** ** A client and a server *)

(** What a stream still has to send or has sent. *)
Definition outgoing (s : As.stream) : list As.SendCtx :=
  As.m_queue s ++ (match As.writer s with As.WSend l => l | _ => [] end) ++ As.sent s.

(** Where a step can get something to send from. *)
Definition origin (a : As.label) (s : As.stream) (x : As.SendCtx) : Prop :=
  match a with
  | As.LCall i => exists c, As.calls s !! i = Some (c, true) /\ x = As.SRequest c
  | As.LSendMessage m => x = As.SMessage m
  | As.LWork _ edit => exists r w, As.works s = As.HandleRequest r :: w /\ x = As.SMessage (MResponse (edit (createResponse r)))
  | _ => False
  end.

Ltac in_out := unfold outgoing in *; cbn in *; rewrite ?elem_of_app, ?elem_of_cons, ?elem_of_nil in *.

Lemma outgoing_same s s' x :
  As.m_queue s' = As.m_queue s -> As.writer s' = As.writer s -> As.sent s' = As.sent s -> x ∈ outgoing s' -> x ∈ outgoing s.
Proof. unfold outgoing. by intros -> -> ->. Qed.

Lemma outgoing_enqueue s y x : x ∈ outgoing (As.enqueue y s) -> x ∈ outgoing s \/ x = y.
Proof. in_out. tauto. Qed.

Lemma outgoing_close s x : x ∈ outgoing (As.innerClose s) -> x ∈ outgoing s.
Proof. in_out. tauto. Qed.

Lemma writer_outgoing ok s s' x : As.step_writer ok s = Some s' -> x ∈ outgoing s' -> x ∈ outgoing s.
Proof.
  unfold As.step_writer. destruct (As.writer s) as [| | | [| y l] |] eqn:Ew.
  - destruct (As.connected s); intros [= <-]; unfold outgoing; cbn; rewrite Ew; cbn; set_solver.
  - destruct (As.m_sem s); [done |]. intros [= <-]. unfold outgoing. cbn. rewrite Ew. done.
  - intros [= <-]. unfold outgoing. cbn. rewrite Ew. cbn. done.
  - intros [= <-]. unfold outgoing. cbn. rewrite Ew. done.
  - destruct ok; intros [= <-]; unfold outgoing; cbn; rewrite Ew; cbn; set_solver.
  - done.
Qed.

Lemma step_outgoing a s s' x : As.step a s = Some s' -> x ∈ outgoing s' -> x ∈ outgoing s \/ origin a s x.
Proof.
  destruct a as [f req t | i | m | ok | m h | | c | | i | k edit | rc cb | |]; cbn [As.step origin].
  - intros [= <-] Hx. left. revert Hx. unfold As.do_request, As.addCtx. destruct (As.connected s); [| done]. cbn.
    destruct (As.m_ctxs s !! rq_sn req); by apply outgoing_same.
  - unfold As.step_call. destruct (As.calls s !! i) as [[c []]|] eqn:Ei; [| | done].
    + intros [= <-] [Hx | ->]%outgoing_enqueue; [left; by eapply outgoing_same; [.. | exact Hx] | right; by exists c].
    + destruct (As.heap s !! c); [| done]. intros [= <-] Hx. left. by eapply outgoing_same; [.. | exact Hx].
  - intros [= <-]. unfold As.sendMessage. destruct (As.connected s); [| by left]. intros [Hx | ->]%outgoing_enqueue; by auto.
  - intros E Hx. left. by eapply writer_outgoing.
  - unfold As.step_recv. destruct (As.reader s && As.connected s); [| done]. intros [= <-] Hx. left. revert Hx.
    destruct m as [[r | r | r] |]; [destruct h; by apply outgoing_same | | destruct h; by apply outgoing_same | apply outgoing_close].
    unfold As.getAndDelCtx. destruct (As.m_ctxs s !! rs_sn r); [| done]. cbn. destruct (As.heap s !! n); by apply outgoing_same.
  - unfold As.step_reader_out. destruct (As.reader s && negb (As.connected s)); [| done]. intros [= <-] Hx. left. apply outgoing_close. by eapply outgoing_same; [.. | exact Hx].
  - case_decide; [| done]. intros [= <-] Hx. left. by eapply outgoing_same; [.. | exact Hx].
  - unfold As.step_timeout. destruct (As.expired s) as [| c e]; [done |]. destruct (As.heap s !! c); [| done]. intros [= <-] Hx. left. by eapply outgoing_same; [.. | exact Hx].
  - unfold As.step_rsp. destruct (As.rsps s !! i) as [[c | c scd | c]|]; [| | | done]; (destruct (As.heap s !! c) as [y|]; [| done]).
    + intros [= <-] Hx. left. by eapply outgoing_same; [.. | exact Hx].
    + destruct (Bool.eqb (As.scheduler y) scd); intros [= <-] Hx; left; by eapply outgoing_same; [.. | exact Hx].
    + intros [= <-] Hx. left. destruct (As.timer y); by eapply outgoing_same; [.. | exact Hx].
  - unfold As.step_work. destruct (As.works s) as [| [r | nt] w] eqn:Ew; [done | |]; intros [= <-].
    + unfold As.sendMessage. cbn. destruct (As.connected s), k; cbn; intros Hx; try (left; by eapply outgoing_same; [.. | exact Hx]).
      * apply outgoing_enqueue in Hx as [Hx | ->]; [left; by eapply outgoing_same; [.. | exact Hx] | right; by eexists _, _].
      * change (x ∈ outgoing (As.enqueue (As.SMessage (MResponse (edit (createResponse r)))) (As.set_out w (As.resumed s) (As.sent s) s))) in Hx.
        apply outgoing_enqueue in Hx as [Hx | ->]; [left; by eapply outgoing_same; [.. | exact Hx] | right; by eexists _, _].
    + destruct k; intros Hx; left; by eapply outgoing_same; [.. | exact Hx].
  - unfold As.step_start. destruct (As.m_waitSem s) as [| [| n]]; [done.. |]. intros E Hx. left. revert E Hx.
    destruct (negb _ && negb rc); [| destruct (negb cb)]; intros [= <-] Hx.
    + apply outgoing_close. by eapply outgoing_same; [.. | exact Hx].
    + apply outgoing_close. by eapply outgoing_same; [.. | exact Hx].
    + unfold outgoing in *. cbn in *. set_solver.
  - intros [= <-] Hx. left. by eapply outgoing_same; [.. | exact Hx].
  - intros [= <-] Hx. left. by eapply outgoing_same; [.. | exact Hx].
Qed.

(** What can happen to the work. *)
Lemma step_works a s s' w : As.step a s = Some s' -> w ∈ As.works s' ->
  w ∈ As.works s \/ match w with As.HandleRequest r => a = As.LRecv (Some (MRequest r)) true | As.HandleNotify n => a = As.LRecv (Some (MNotify n)) true end.
Proof.
  destruct a as [f req t | i | m | ok | m h | | c | | i | k edit | rc cb | |]; cbn [As.step].
  - intros [= <-]. unfold As.do_request, As.addCtx. repeat case_match; by left.
  - unfold As.step_call. repeat case_match; intros; simplify_eq; by left.
  - intros [= <-]. unfold As.sendMessage. case_match; by left.
  - unfold As.step_writer. repeat case_match; intros; simplify_eq; by left.
  - unfold As.step_recv. destruct (As.reader s && As.connected s); [| done]. intros [= <-].
    destruct m as [[r | r | r] |]; [destruct h; [| by left] | | destruct h; [| by left] | by left].
    + cbn. intros [Hw | ->%list_elem_of_singleton]%elem_of_app; by auto.
    + unfold As.getAndDelCtx. repeat case_match; simplify_eq/=; by left.
    + cbn. intros [Hw | ->%list_elem_of_singleton]%elem_of_app; by auto.
  - unfold As.step_reader_out. case_match; intros; simplify_eq; by left.
  - case_decide; intros; simplify_eq; by left.
  - unfold As.step_timeout. repeat case_match; intros; simplify_eq; by left.
  - unfold As.step_rsp. repeat case_match; intros; simplify_eq; by left.
  - unfold As.step_work. destruct (As.works s) as [| [r | nt] l]; [done | |]; intros [= <-];
      unfold As.sendMessage; repeat case_match; cbn; intros Hw; left; by right.
  - unfold As.step_start. repeat case_match; intros; simplify_eq; by left.
  - intros [= <-]. by left.
  - intros [= <-]. by left.
Qed.

(** What can happen to a context: only a response with its number changes its
    response. *)
Definition ctx_kept (x y : As.Ctx) : Prop := As.sn y = As.sn x /\ As.request y = As.request x /\ As.response y = As.response x.

Definition heap_kept (h h' : gmap nat As.Ctx) : Prop :=
  forall c, match h !! c, h' !! c with Some x, Some y => ctx_kept x y | None, None => True | _, _ => False end.

Lemma heap_kept_refl h : heap_kept h h.
Proof. intros c. by destruct (h !! c). Qed.

Lemma heap_kept_insert h c x y : h !! c = Some x -> ctx_kept x y -> heap_kept h (<[c := y]> h).
Proof.
  intros Hc Hk d. destruct (decide (c = d)) as [<- |]; [by rewrite Hc, lookup_insert_eq | rewrite lookup_insert_ne by done; by destruct (h !! d)].
Qed.

Lemma heap_kept_errors cs h : heap_kept h (foldl As.set_error h cs).
Proof.
  revert h. induction cs as [| c cs IH]; intros h; cbn; [apply heap_kept_refl |]. intros d. specialize (IH (As.set_error h c) d).
  assert (H1 : heap_kept h (As.set_error h c)) by (unfold As.set_error; destruct (h !! c) eqn:E; [by eapply heap_kept_insert | apply heap_kept_refl]).
  specialize (H1 d). destruct (h !! d), (As.set_error h c !! d), (foldl _ _ _ !! d); try done. unfold ctx_kept in *. naive_solver congruence.
Qed.

(** A step that is neither a new request nor a response received. *)
Lemma step_heap_kept a s s' : As.step a s = Some s' ->
  (forall f req t, a <> As.LRequest f req t) -> (forall r h, a <> As.LRecv (Some (MResponse r)) h) -> heap_kept (As.heap s) (As.heap s').
Proof.
  destruct a as [f req t | i | m | ok | m h | | c | | i | k edit | rc cb | |]; cbn [As.step]; intros E H1 H2; [by destruct (H1 f req t) | ..].
  - unfold As.step_call in E. destruct (As.calls s !! i) as [[c []]|]; [simplify_eq; apply heap_kept_refl | | done].
    destruct (As.heap s !! c) eqn:Ec; [| done]. simplify_eq. by eapply heap_kept_insert.
  - simplify_eq. unfold As.sendMessage. case_match; apply heap_kept_refl.
  - unfold As.step_writer in E. repeat case_match; simplify_eq; first [apply heap_kept_refl | apply heap_kept_errors].
  - unfold As.step_recv in E. destruct (As.reader s && As.connected s); [| done]. simplify_eq.
    destruct m as [[r | r | r] |]; [destruct h; apply heap_kept_refl | by destruct (H2 r h) | destruct h; apply heap_kept_refl | apply heap_kept_errors].
  - unfold As.step_reader_out in E. case_match; [| done]. simplify_eq. apply heap_kept_errors.
  - case_decide; [| done]. simplify_eq. apply heap_kept_refl.
  - unfold As.step_timeout in E. destruct (As.expired s) as [| c e]; [done |]. destruct (As.heap s !! c) eqn:Ec; [| done]. simplify_eq. by eapply heap_kept_insert.
  - unfold As.step_rsp in E. destruct (As.rsps s !! i) as [[c | c scd | c]|]; [| | | done]; (destruct (As.heap s !! c) as [y|] eqn:Ec; [| done]).
    + simplify_eq. apply heap_kept_refl.
    + destruct (Bool.eqb (As.scheduler y) scd); simplify_eq; [by eapply heap_kept_insert | apply heap_kept_refl].
    + simplify_eq. destruct (As.timer y); cbn; (eapply heap_kept_insert; [exact Ec | by destruct (As.timed y)]).
  - unfold As.step_work in E. destruct (As.works s) as [| [r | nt] l]; [done | |]; simplify_eq; unfold As.sendMessage; repeat case_match; apply heap_kept_refl.
  - unfold As.step_start in E. repeat case_match; simplify_eq; first [apply heap_kept_refl | apply heap_kept_errors].
  - simplify_eq. apply heap_kept_refl.
  - simplify_eq. apply heap_kept_refl.
Qed.

Section pair.
Context (trav : gmap string nat -> list (string * nat)) (funs : nat -> handlers).

(** The client of a connection and the session that serves it. *)
Record pair := mkPair { cl : As.stream; sv : As.stream }.

(** What a stream has put on the wire. *)
Definition wire_of (s : As.stream) (m : Message) : Prop :=
  exists x, x ∈ As.sent s /\ match x with As.SMessage m' => m = m' | As.SRequest c => exists y, As.heap s !! c = Some y /\ m = MRequest (As.request y) end.

Definition is_request (m : Message) : Prop := match m with MRequest _ => True | _ => False end.

(** A session only answers: its work is done by [serve]. *)
Definition session_label (a : As.label) : Prop :=
  match a with As.LRequest _ _ _ | As.LCall _ | As.LSendMessage _ | As.LWork _ _ => False | _ => True end.

(** A side reads what the other has sent, in any order and any number of times; the
    client makes its requests by [request]; the modules may change at any time. *)
Inductive pstep : pair -> pair -> Prop :=
  | p_client a c c' s : As.step a c = Some c' -> (forall m h, a = As.LRecv (Some m) h -> wire_of s m) ->
      (forall m, a = As.LSendMessage m -> ~ is_request m) -> pstep (mkPair c s) (mkPair c' s)
  | p_server a c s s' : As.step a s = Some s' -> (forall m h, a = As.LRecv (Some m) h -> wire_of c m) -> session_label a -> pstep (mkPair c s) (mkPair c s')
  | p_serve g c s s' : serve trav funs g s = Some s' -> pstep (mkPair c s) (mkPair c s').

Inductive pruns (p0 : pair) : pair -> Prop :=
  | pr_refl : pruns p0 p0
  | pr_step p p' : pruns p0 p -> pstep p p' -> pruns p0 p'.

(** What the modules make of a request. *)
Definition answers (r : RockRequest) (rsp : RockResponse) : Prop := exists ms, rsp = (ask_request funs ms r false (createResponse r) []).1.2.

Definition asked (h : gmap nat As.Ctx) (r : RockRequest) : Prop := exists c x, h !! c = Some x /\ As.request x = r.

Record pair_ok (p : pair) : Prop := {
  po_inv : AsyncProps.inv (cl p);
  po_sn : forall c x, As.heap (cl p) !! c = Some x -> As.sn x = rq_sn (As.request x);
  po_out : forall m, As.SMessage m ∈ outgoing (cl p) -> ~ is_request m;
  po_work : forall r, As.HandleRequest r ∈ As.works (sv p) -> asked (As.heap (cl p)) r;
  po_sent : forall x, x ∈ outgoing (sv p) -> exists r rsp, asked (As.heap (cl p)) r /\ answers r rsp /\ x = As.SMessage (MResponse rsp);
  po_got : forall c x rsp, As.heap (cl p) !! c = Some x -> As.response x = Some rsp ->
    exists r, asked (As.heap (cl p)) r /\ answers r rsp /\ rs_sn rsp = As.sn x;
}.

Lemma sent_outgoing s x : x ∈ As.sent s -> x ∈ outgoing s.
Proof. intros Hx. unfold outgoing. rewrite !elem_of_app. auto. Qed.

Lemma asked_kept h h' r : heap_kept h h' -> asked h r -> asked h' r.
Proof.
  intros Hk (c & x & Hc & Hr). specialize (Hk c). rewrite Hc in Hk. destruct (h' !! c) as [y|] eqn:Ey; [| done]. exists c, y. split; [done |].
  destruct Hk as (_ & -> & _). done.
Qed.

(** The contexts of the client after a step that keeps them. *)
Lemma client_kept_ok c c' s : pair_ok (mkPair c s) -> heap_kept (As.heap c) (As.heap c') -> AsyncProps.inv c' ->
  (forall m, As.SMessage m ∈ outgoing c' -> ~ is_request m) -> pair_ok (mkPair c' s).
Proof.
  intros [P1 P2 P3 P4 P5 P6] Hk Hi Ho. cbn in *.
  assert (Hback : forall d y, As.heap c' !! d = Some y -> exists x, As.heap c !! d = Some x /\ ctx_kept x y).
  { intros d y Hy. specialize (Hk d). rewrite Hy in Hk. destruct (As.heap c !! d) as [x|]; [by exists x | done]. }
  split; cbn; [done | | done | | |].
  - intros d y Hy. destruct (Hback d y Hy) as (x & Hx & -> & -> & _). by apply (P2 d).
  - intros r Hr. eapply asked_kept; [exact Hk | by apply P4].
  - intros x Hx. destruct (P5 x Hx) as (r & rsp & Ha & ?). exists r, rsp. split; [by eapply asked_kept | done].
  - intros d y rsp Hy Hr. destruct (Hback d y Hy) as (x & Hx & -> & _ & Er). rewrite Er in Hr. destruct (P6 d x rsp Hx Hr) as (r & Ha & ?).
    exists r. split; [by eapply asked_kept | done].
Qed.

Lemma client_request_ok f req t c s : pair_ok (mkPair c s) -> pair_ok (mkPair (As.do_request f req t c) s).
Proof.
  intros H. pose proof H as [P1 P2 P3 P4 P5 P6]. cbn in *. assert (Hi := inv_request f req t c P1). unfold As.do_request in *.
  destruct (As.connected c) eqn:Ec; [| done].
  set (x := {| As.sn := rq_sn req; As.timeout := t; As.result := 0; As.timed := false; As.scheduler := true; As.fiber := f; As.timer := false; As.request := req; As.response := None |}) in *.
  assert (Hn : As.heap c !! As.next c = None).
  { destruct (As.heap c !! As.next c) eqn:E; [| done]. apply (c_next (proj1 P1)) in E. lia. }
  match goal with |- pair_ok (mkPair ?c' s) => set (c1 := c') in * end.
  assert (Hh : As.heap c1 = <[As.next c := x]> (As.heap c)) by (unfold c1, As.addCtx; cbn; by destruct (As.m_ctxs c !! rq_sn req)).
  assert (Ho : forall y, y ∈ outgoing c1 -> y ∈ outgoing c) by (intros y; unfold c1, As.addCtx; cbn; destruct (As.m_ctxs c !! rq_sn req); by apply outgoing_same).
  assert (Ha : forall r, asked (As.heap c) r -> asked (As.heap c1) r).
  { intros r (d & y & Hd & Hr). exists d, y. rewrite Hh, lookup_insert_ne; [done | congruence]. }
  clearbody c1. split; cbn; [done | | intros m Hm; by apply P3, Ho | intros r Hr; by apply Ha, P4 | |].
  - intros d y. rewrite Hh. intros [[<- <-] | [_ Hy]]%lookup_insert_Some; [done | by apply (P2 d)].
  - intros y Hy. destruct (P5 y Hy) as (r & rsp & Hr & ?). exists r, rsp. split; [by apply Ha | done].
  - intros d y rsp. rewrite Hh. intros [[<- <-] | [_ Hy]]%lookup_insert_Some; [done |]. intros Hrsp.
    destruct (P6 d y rsp Hy Hrsp) as (r & Hr & ?). exists r. split; [rewrite <- Hh; by apply Ha | done].
Qed.

Lemma client_response_ok r h c c' s : pair_ok (mkPair c s) -> As.step (As.LRecv (Some (MResponse r)) h) c = Some c' -> wire_of s (MResponse r) ->
  pair_ok (mkPair c' s).
Proof.
  intros H E (x & Hx & Hm). pose proof H as [P1 P2 P3 P4 P5 P6]. cbn [cl sv] in *.
  destruct (P5 x (sent_outgoing _ _ Hx)) as (q & rsp & Hq & Han & ->). cbn in Hm. injection Hm as ->.
  assert (Hi := inv_step _ _ _ P1 E). assert (Ho : forall m, As.SMessage m ∈ outgoing c' -> ~ is_request m).
  { intros m Hm. destruct (step_outgoing _ _ _ _ E Hm) as [Hm' | []]. by apply P3. }
  cbn [As.step] in E. unfold As.step_recv in E. destruct (As.reader c && As.connected c); [| done]. simplify_eq. unfold As.getAndDelCtx in *.
  destruct (As.m_ctxs c !! rs_sn rsp) as [d|] eqn:Ed; [| done]. destruct (c_table (proj1 P1) _ _ Ed) as (y & Hy & Hsn). cbn in *. rewrite Hy in *. cbn in *.
  set (y' := As.with_result (rs_result rsp) (Some rsp) y) in *.
  assert (Ha : forall r, asked (As.heap c) r -> asked (<[d := y']> (As.heap c)) r).
  { intros r (e & z & He & Hr). destruct (decide (e = d)) as [-> |]; [exists d, y'; rewrite lookup_insert_eq; simplify_eq; done | exists e, z; by rewrite lookup_insert_ne]. }
  split; cbn; [done | | done | intros q' Hq'; by apply Ha, P4 | |].
  - intros e z [[<- <-] | [_ Hz]]%lookup_insert_Some; [by apply (P2 d y) | by apply (P2 e)].
  - intros z Hz. destruct (P5 z Hz) as (q' & rsp' & Hq' & ?). exists q', rsp'. split; [by apply Ha | done].
  - intros e z rsp' [[<- <-] | [_ Hz]]%lookup_insert_Some Hrsp.
    + cbn in Hrsp. simplify_eq. exists q. split; [by apply Ha | done].
    + destruct (P6 e z rsp' Hz Hrsp) as (q' & Hq' & ?). exists q'. split; [by apply Ha | done].
Qed.

Lemma client_step_ok a c c' s : pair_ok (mkPair c s) -> As.step a c = Some c' -> (forall m h, a = As.LRecv (Some m) h -> wire_of s m) ->
  (forall m, a = As.LSendMessage m -> ~ is_request m) -> pair_ok (mkPair c' s).
Proof.
  intros H E Hr Hs.
  assert (Hkept : (forall f req t, a <> As.LRequest f req t) -> (forall r h, a <> As.LRecv (Some (MResponse r)) h) -> pair_ok (mkPair c' s)).
  { intros H1 H2. pose proof (po_inv _ H) as Hi. pose proof (po_out _ H) as Ho. cbn in Hi, Ho. eapply client_kept_ok; [exact H | by eapply step_heap_kept | by eapply inv_step |].
    intros m Hm. destruct (step_outgoing _ _ _ _ E Hm) as [Hm' | Hor]; [by apply Ho |]. destruct a; cbn in Hor; try done.
    - by destruct Hor as (? & _ & ?).
    - injection Hor as ->. by apply Hs.
    - destruct Hor as (? & ? & _ & [= ->]). by intros []. }
  destruct a as [f req t | | | | [[r | r | r]|] h | | | | | | | |]; try (apply Hkept; done).
  - cbn in E. injection E as <-. by apply client_request_ok.
  - eapply client_response_ok; [exact H | exact E | by eapply Hr].
Qed.

Lemma server_step_ok a c s s' : pair_ok (mkPair c s) -> As.step a s = Some s' ->
  (forall r h, a = As.LRecv (Some (MRequest r)) h -> asked (As.heap c) r) ->
  (forall x, origin a s x -> exists r rsp, asked (As.heap c) r /\ answers r rsp /\ x = As.SMessage (MResponse rsp)) -> pair_ok (mkPair c s').
Proof.
  intros [P1 P2 P3 P4 P5 P6] E Hr Ho. cbn in *. split; cbn; [done | done | done | | | done].
  - intros r Hw. destruct (step_works _ _ _ _ E Hw) as [Hw' | ->]; [by apply P4 | by eapply Hr].
  - intros x Hx. destruct (step_outgoing _ _ _ _ E Hx) as [Hx' | Hor]; [by apply P5 | by apply Ho].
Qed.

Lemma wire_asked c s m : pair_ok (mkPair c s) -> wire_of c m -> match m with MRequest r => asked (As.heap c) r | _ => True end.
Proof.
  intros H (x & Hx & Hm). destruct m as [r | |]; [| done | done]. destruct x as [d | m'].
  - destruct Hm as (y & Hy & [= ->]). by exists d, y.
  - subst m'. destruct (po_out _ H (MRequest r)); [by apply sent_outgoing | done].
Qed.

Lemma pstep_ok p p' : pair_ok p -> pstep p p' -> pair_ok p'.
Proof.
  intros H Hp. destruct Hp as [a c c' s E Hr Hs | a c s s' E Hr Hl | g c s s' E].
  - by eapply client_step_ok.
  - eapply server_step_ok; [exact H | exact E | |].
    + intros r h ->. apply (wire_asked c s (MRequest r) H). by eapply Hr.
    + intros x Hx. by destruct a.
  - unfold serve in E. destruct (As.works s) as [| [r | nt] w] eqn:Ew; [done | |].
    + destruct (requestHandler trav funs g r (createResponse r)) as [rt rsp] eqn:Eh.
      eapply (server_step_ok (As.LWork rt (fun _ => rsp))); [exact H | exact E | done |]. intros x (r' & w' & Ew' & ->). rewrite Ew in Ew'. injection Ew' as <- <-.
      exists r, rsp. split; [apply (po_work _ H); cbn; rewrite Ew; left |]. split; [| done]. unfold requestHandler in Eh. exists (Mo.foreach trav g Mo.ROCK). by rewrite Eh.
    + eapply (server_step_ok (As.LWork (notifyHandler trav funs g nt) (fun r => r))); [exact H | exact E | done |]. intros x (r' & w' & Ew' & _). by rewrite Ew in Ew'.
Qed.

Lemma pair_start b b' : pair_ok (mkPair (As.new_stream b true) (new_RockSession b')).
Proof. split; cbn; [apply inv_new | set_solver..]. Qed.

Lemma pruns_ok p0 p : pair_ok p0 -> pruns p0 p -> pair_ok p.
Proof. intros H Hr. induction Hr; [done | by eapply pstep_ok]. Qed.

Lemma ask_keeps_sn ms q rt rsp l : (forall m q rsp, rs_sn (handleRequest (funs m) q rsp).2 = rs_sn rsp) -> rs_sn (ask_request funs ms q rt rsp l).1.2 = rs_sn rsp.
Proof.
  intros Hk. revert rt rsp l. induction ms as [| m ms IH]; intros rt rsp l; [done |]. cbn. destruct rt; [apply IH |].
  specialize (Hk m q rsp). destruct (handleRequest (funs m) q rsp) as [rt' rsp']. rewrite IH. exact Hk.
Qed.

(** C12: A response belongs to its request. A client connection and the session that
    serves it run with every interleaving of their fibers, timers and workers, over a
    wire that may reorder and repeat messages, and with modules that come and go:
    when the requests of the client have different numbers and the modules leave
    the number of a response alone, the response that a request is resumed with is
    what the server's modules made of that very request. *)
Theorem response_belongs_to_request b b' p c x rsp :
  (forall m q rsp, rs_sn (handleRequest (funs m) q rsp).2 = rs_sn rsp) ->
  pruns (mkPair (As.new_stream b true) (new_RockSession b')) p ->
  (forall d y, As.heap (cl p) !! d = Some y -> As.sn y = As.sn x -> d = c) ->
  As.heap (cl p) !! c = Some x -> As.response x = Some rsp -> answers (As.request x) rsp.
Proof.
  intros Hk Hr Hd Hc Hx. pose proof (pruns_ok _ _ (pair_start b b') Hr) as H. destruct (po_got _ H c x rsp Hc Hx) as (r & (d & y & Hy & Hq) & Ha & Hsn).
  assert (Hs : rs_sn rsp = rq_sn r) by (destruct Ha as [ms ->]; by apply ask_keeps_sn).
  assert (d = c) as -> by (apply (Hd d y Hy); rewrite (po_sn _ H d y Hy), Hq; congruence). congruence.
Qed.
End pair.

(** ** An exchange *)

Definition quiet (a : As.label) : bool := match a with As.LRecv (Some _) _ | As.LSendMessage _ => false | _ => true end.
Definition quiet_session (a : As.label) : bool :=
  match a with As.LRecv (Some _) _ | As.LRequest _ _ _ | As.LCall _ | As.LSendMessage _ | As.LWork _ _ => false | _ => true end.

Lemma client_quiet trav funs p0 ls c s :
  forallb quiet ls = true -> pruns trav funs p0 (mkPair c s) -> pruns trav funs p0 (mkPair (As.run ls c) s).
Proof.
  revert c. induction ls as [| a ls IH]; intros c Hq Hr; [done |]. cbn in *. apply andb_prop in Hq as [Ha Hq]. apply IH; [done |].
  destruct (As.step a c) as [c'|] eqn:E; [| done]. eapply pr_step; [exact Hr |]. eapply p_client; [exact E | |]; intros; by subst a.
Qed.

Lemma session_quiet trav funs p0 ls c s :
  forallb quiet_session ls = true -> pruns trav funs p0 (mkPair c s) -> pruns trav funs p0 (mkPair c (As.run ls s)).
Proof.
  revert s. induction ls as [| a ls IH]; intros s Hq Hr; [done |]. cbn in *. apply andb_prop in Hq as [Ha Hq]. apply IH; [done |].
  destruct (As.step a s) as [s'|] eqn:E; [| done]. eapply pr_step; [exact Hr |]. eapply p_server; [exact E | intros; by subst a | by destruct a].
Qed.

Definition demo_mgr : Mo.ModuleManager := match Mo.add (Mo.new_ModuleManager demo_mods) 0 with Ok g => g | Fail _ => Mo.new_ModuleManager ∅ end.
Definition demo_sending : list As.label := replicate 5 (As.LWriter true).
Definition demo_cl : As.stream :=
  As.run ([As.LStart false true; As.LRequest 9 demo_request 1000; As.LCall 0; As.LCall 0] ++ demo_sending) (As.new_stream true true).
Definition demo_sv : As.stream := As.run [As.LStart false true] (new_RockSession true).
Definition demo_s1 : As.stream := default demo_sv (As.step (As.LRecv (Some (MRequest demo_request)) true) demo_sv).
Definition demo_s2 : As.stream := default demo_s1 (serve map_to_list demo_funs demo_mgr demo_s1).
Definition demo_served : As.stream := As.run demo_sending demo_s2.
Definition demo_rsp : RockResponse := {| rs_sn := 3; rs_cmd := 5; rs_result := 0; rs_resultStr := []; rs_body := [7] |}.

Definition demo_done : As.stream := default demo_cl (As.step (As.LRecv (Some (MResponse demo_rsp)) true) demo_cl).

Lemma demo_got : As.response <$> (As.heap demo_done !! 0%nat) = Some (Some demo_rsp).
Proof. vm_compute. reflexivity. Qed.

Lemma demo_contexts : dom (As.heap demo_done) = {[0%nat]}.
Proof. vm_compute. reflexivity. Qed.

(** The request travels to the session, is served by a module, and its response
    reaches the client's context. *)
Lemma demo_exchange : pruns map_to_list demo_funs (mkPair (As.new_stream true true) (new_RockSession true))
  (mkPair demo_done demo_served).
Proof.
  assert (H1 : pruns map_to_list demo_funs (mkPair (As.new_stream true true) (new_RockSession true)) (mkPair demo_cl demo_sv))
    by (apply session_quiet; [done |]; apply client_quiet; [done | apply pr_refl]).
  assert (H2 : pruns map_to_list demo_funs (mkPair (As.new_stream true true) (new_RockSession true)) (mkPair demo_cl demo_s1)).
  { eapply pr_step; [exact H1 |]. eapply (p_server _ _ (As.LRecv (Some (MRequest demo_request)) true)); [vm_compute; reflexivity | | done]. intros m h [= <- <-]. exists (As.SRequest 0). split; [vm_compute; left |].
    eexists. split; vm_compute; reflexivity. }
  assert (H3 : pruns map_to_list demo_funs (mkPair (As.new_stream true true) (new_RockSession true)) (mkPair demo_cl demo_served)).
  { apply (session_quiet _ _ _ demo_sending); [done |]. eapply pr_step; [exact H2 |]. apply (p_serve _ _ demo_mgr). vm_compute. reflexivity. }
  eapply pr_step; [exact H3 |]. eapply (p_client _ _ (As.LRecv (Some (MResponse demo_rsp)) true)); [vm_compute; reflexivity | | done].
  intros m h [= <- <-]. exists (As.SMessage (MResponse demo_rsp)). split; [vm_compute; left | done].
Qed.

Lemma response_belongs_to_request_witness :
  exists x, As.heap demo_done !! 0%nat = Some x /\ As.response x = Some demo_rsp /\ answers demo_funs (As.request x) demo_rsp.
Proof.
  assert (G : forall c s, pruns map_to_list demo_funs (mkPair (As.new_stream true true) (new_RockSession true)) (mkPair c s) ->
            As.response <$> (As.heap c !! 0%nat) = Some (Some demo_rsp) -> dom (As.heap c) = {[0%nat]} ->
            exists x, As.heap c !! 0%nat = Some x /\ As.response x = Some demo_rsp /\ answers demo_funs (As.request x) demo_rsp).
  { intros c s He E Hdom. destruct (As.heap c !! 0%nat) as [x|] eqn:Hx; [| discriminate E]. injection E as Hr. exists x. split; [reflexivity |]. split; [exact Hr |].
    apply (response_belongs_to_request map_to_list demo_funs true true (mkPair c s) 0%nat x demo_rsp); [| exact He | | exact Hx | exact Hr].
    - intros m q rsp. cbn. by destruct (rq_cmd q =? 5).
    - intros d y Hy _. apply elem_of_dom_2 in Hy. cbn [cl] in Hy. rewrite Hdom in Hy. by apply elem_of_singleton in Hy. }
  exact (G demo_done demo_served demo_exchange demo_got demo_contexts).
Defined.
